(* ===== verification/_CoqProject ===== *)
-Q . S2P
Prelude.v
HeaderStream.v
Extents.v
BitScan.v
MemoryBitmap.v
States.v
BlockIO.v
BlockIOFacts.v
BlockIORead.v
Vsprintf.v
AllocatorIO.v
AllocatorFacts.v
SwapStorage.v
SwapSignature.v
SwapAlloc.v
FileStorage.v
FileStorageFacts.v
FileSignature.v
Modules.v
ModuleFacts.v
CString.v
Compression.v
CompressionFacts.v
Checksum.v
ChecksumFacts.v
BitmapSet.v
ImageFlags.v
ImageFlagsFacts.v
PrepareImage.v
PrepareImageFacts.v
Pbes.v
PbesFacts.v
PbeRestore.v
ImageIO.v
ImageIOFacts.v
Pipeline.v
WholeImage.v
AtomicCopy.v
AtomicCopyFacts.v
HighLevel.v
HighLevelFacts.v
BootPrompt.v
ModuleConfigs.v
ModuleConfigsFacts.v
ImageHeader.v
ImageHeaderFacts.v
Sysfs.v
SysfsFacts.v
AllocDebug.v
AllocDebugFacts.v
Netlink.v
NetlinkFacts.v
StorageManager.v
StorageManagerFacts.v
Userui.v
UseruiFacts.v
Launch.v
LaunchFacts.v
Cluster.v
ClusterFacts.v
