(* ===== verification/Prelude.v ===== *)
(** * A verification development for TuxOnIce

    The repository is a Linux 2.6.30-rc3 tree with TuxOnIce, an extended
    suspend-to-disk, in kernel/power.  This library models TuxOnIce and the
    kernel code it stands on, and proves the properties that make it keep the
    user's memory.  File names are relative to src/.

    ** The program

    Hibernating divides the pages in use into two pagesets.  Pageset 2 (the
    caches, which processes that are frozen do not touch) is written while the
    machine runs.  Then devices and processors are stopped, pageset 1 (the
    rest) is copied into the frames of pageset 2 and some extra pages, the
    machine is started again and the copy is written, then the image header,
    then the signature that says there is an image.  A booting kernel that
    finds the signature reads the header, loads pageset 1 to addresses that do
    not collide with itself and copies it into place; the resumed kernel loads
    pageset 2.  A page goes from the I/O loop through the filters (compression)
    to the block I/O layer, which walks chains of extents on the devices the
    storage allocator (swap or file) has chosen.

    ** Files

    Foundations:
    - [Prelude]: constants, machine words ([u32], [s32], [u64], [s64]), little
      endian bytes, the state and failure monad [M], record update, lemmas.
    - [HeaderStream]: the contract between allocators and header clients.
    - [CString]: lib/string.c.  [Vsprintf]: lib/vsprintf.c, lib/ctype.c.
      [BitScan]: lib/find_next_bit.c.
    - [States]: the state words of kernel/power/tuxonice.h.

    Storage:
    - [Extents]: tuxonice_extent.c.
    - [BlockIO], [BlockIOFacts], [BlockIORead]: tuxonice_block_io.c; its static
      variables are the record [bio_state], disks are functions from device
      and sector to bytes.
    - [AllocatorIO], [AllocatorFacts]: what the two allocators share.
    - [SwapStorage], [SwapSignature], [SwapAlloc]: tuxonice_swap.c; the swap
      map of mm/swapfile.c is the class [SwapMap].
    - [FileStorage], [FileStorageFacts], [FileSignature]: tuxonice_file.c.

    Memory:
    - [MemoryBitmap], [BitmapSet]: the memory bitmaps of snapshot.c, and their
      refinement of finite sets; later files use the sets.
    - [ImageFlags], [ImageFlagsFacts]: which page goes into which pageset
      (tuxonice_prepare_image.c, tuxonice_pageflags.h, snapshot.c).
    - [PrepareImage], [PrepareImageFacts]: freeing memory and allocating
      storage until the image fits (tuxonice_prepare_image.c).
    - [Pbes], [PbesFacts], [PbeRestore]: tuxonice_pagedir.c, the copy and the
      restore loop (tuxonice_atomic_copy.c, arch/x86/power/hibernate_asm_64.S).

    The cycle:
    - [Modules], [ModuleFacts]: tuxonice_modules.c.
    - [Compression], [CompressionFacts]: tuxonice_compress.c.
    - [Checksum], [ChecksumFacts]: tuxonice_checksum.c.
    - [ImageIO], [ImageIOFacts]: the I/O loop of tuxonice_io.c.
    - [Pipeline], [WholeImage]: the parts put together; the end-to-end theorems.
    - [AtomicCopy], [AtomicCopyFacts]: tuxonice_atomic_copy.c.
    - [ModuleConfigs], [ModuleConfigsFacts], [ImageHeader],
      [ImageHeaderFacts]: the header (tuxonice_io.c).
    - [HighLevel], [HighLevelFacts]: tuxonice_highlevel.c and the power off of
      tuxonice_power_off.c.
    - [BootPrompt]: tuxonice_ui.c, tuxonice_builtin.c.

    The interfaces to the user:
    - [Sysfs], [SysfsFacts]: the files of /sys/power/tuxonice
      (tuxonice_sysfs.c).
    - [Netlink], [NetlinkFacts]: messages to and from programs in userspace
      (tuxonice_netlink.c); [StorageManager], [StorageManagerFacts]: one such
      program and its clients (tuxonice_storage.c); [Userui], [UseruiFacts]:
      the program that shows progress (tuxonice_userui.c); [Launch],
      [LaunchFacts]: starting them (toi_launch_userspace_program of
      tuxonice_highlevel.c).
    - [Cluster], [ClusterFacts]: the peers of a node (tuxonice_cluster.c).
    - [AllocDebug], [AllocDebugFacts]: counted allocations (tuxonice_alloc.c).

    ** Conventions

    Code that changes state is a function in [M S A], from a state to an
    optional state and answer; [None] is a [BUG], a wild access or a loop that
    does not end.  Errors the code returns are values.  Integers are [Z]; where
    the width matters the wrap-around is written out.  Records keep the names
    of the structures and static variables, definitions those of the
    functions; a definition for a part of a function says so.  Code outside
    the sources (the crypto API, the user's programs, firmware) and kernel
    subsystems the code only calls are parameters or classes ([comp_alg],
    [PageDriver], [SwapMap], [PagePool], [Machine]) or the fields of a record of
    calls ([sysfs_calls], [nl_calls]), with what is relied on as their laws;
    witnesses instantiate them.

    ** What is shown

    - The whole way ([WholeImage]): hibernating and resuming puts every page
      back, for any lossless compression and any layout of the storage
      ([hibernation_roundtrip]); giving up after the atomic copy undoes it
      ([aborted_copy_undone]); a page saved a second time stops the resume
      ([resaved_page_bug]).
    - Consistency: what is saved is one moment's memory
      ([AtomicCopyFacts.consistent_snapshot]); the machine is switched off
      only with a complete image ([HighLevelFacts.off_needs_image]).
    - Metadata: the header, the module configurations, the extent chains, the
      signatures and the resume parameter come back as they were written.
    - Storage: allocation takes exactly what it reports, an image of the size
      promised fits, nothing else on disk changes, release gives back all.
    - Memory: the flagging of pages, the bitmaps, the load addresses and the
      search for them agree with what they are meant to compute.
    - Cleanup: what a cycle takes it gives back, on every path.
    - Interfaces: the variables behind the files keep their types whatever is
      written, and writing back what was read changes nothing
      ([SysfsFacts.sysfs_types_kept], [sysfs_read_write_back]); packets are
      taken apart into the messages they were made of
      ([NetlinkFacts.packet_dispatched]); the storage is connected exactly
      while it is needed ([StorageManagerFacts.storage_connected]); a program
      gets the words of its command ([LaunchFacts.launch_arguments]); a node
      waits exactly for the peers that have not answered
      ([ClusterFacts.peers_answered]); the progress bar moves where it says it
      will and the user interface can change five actions only
      ([UseruiFacts.progress_updates], [set_state_bits]); the allocation report is true
      ([AllocDebugFacts.allocation_stats]).
    - Defects: where the code does not do what it means to, a theorem or its
      hypotheses say when.

    ** Bounds and fuel

    Loops that are not structural take a fuel argument, and the theorems that
    they return prove that enough of it gives a result: the I/O loop needs one
    unit for a page, the restore one for a pbe, the search for a load address
    one for an entry of a page and a page of entries, the checksum loop one
    more than the pages, reading a chunk two more than its bytes, preparing an
    image as many as the header can grow, waiting for a key one for a second,
    taking a packet apart one for a byte, filling the pool of buffers one for a
    buffer, connecting the storage and registering a file one.  Decimal
    conversion has the 20 digits a 64-bit number can need.
    The target is x86-64 without CONFIG_HIGHMEM, PAGE_SIZE 4096.

    ** Not modelled

    - A bio completes when it is submitted, and one thread does the I/O: waits,
      readahead completion order, the flusher thread and several workers are
      not represented ([start_other_threads], [bio_io_flusher]).
    - The assembly around the restore loop, page tables, device and CPU
      callbacks, the freezer: they are events or answers.
    - Of tuxonice_userui.c the initialisation, the wait queue and the formatting
      of texts.  Of tuxonice_cluster.c the layout and checks of packets, the
      threads and their wait queues, and the start-up, whose steps are disabled
      in the source.
    - printk, progress display and statistics in jiffies.
    - The other hibernation code of kernel/power (swsusp: snapshot.c after the
      bitmaps, swap.c, user.c, disk.c, main.c, process.c, console.c,
      poweroff.c), which TuxOnIce does not run through, and the rest of the
      kernel tree. *)

From stdpp Require Import base list numbers.
From Stdlib Require Import ZArith Lia.

#[global] Open Scope Z_scope.

(** ** Target constants

    The development fixes the x86-64 target of the sources: 4 KiB pages,
    8-byte [unsigned long], 4-byte [int], little-endian. *)

Definition PAGE_SHIFT : Z := 12.
Definition PAGE_SIZE : Z := 4096.
Definition BM_END_OF_MAP : Z := 2 ^ 64 - 1.   (* no such page frame *)
Definition sizeof_long : Z := 8.
Definition sizeof_int : Z := 4.

(** ** Error codes (include/asm-generic/errno-base.h and errno.h) *)

Definition EPERM : Z := 1.
Definition EIO : Z := 5.
Definition ECHILD : Z := 10.
Definition ENOMEM : Z := 12.
Definition EFAULT : Z := 14.
Definition EBUSY : Z := 16.
Definition ENODEV : Z := 19.
Definition EINVAL : Z := 22.
Definition ENOSPC : Z := 28.
Definition ENODATA : Z := 61.

(** ** Machine integers

    An [unsigned long] is a [Z] reduced by [u64]; an [int] and a [long] are
    reduced by [s32] and [s64], the two's complement conversions gcc does. *)

Definition u64 (z : Z) : Z := z mod 2 ^ 64.
Definition u32 (z : Z) : Z := z mod 2 ^ 32.
Definition s32 (z : Z) : Z := (z + 2 ^ 31) mod 2 ^ 32 - 2 ^ 31.
Definition s64 (z : Z) : Z := (z + 2 ^ 63) mod 2 ^ 64 - 2 ^ 63.

Lemma u64_small z : 0 <= z < 2 ^ 64 -> u64 z = z.
Proof. intros ?. apply Z.mod_small. lia. Qed.

Lemma u64_bounds z : 0 <= u64 z < 2 ^ 64.
Proof. apply Z.mod_pos_bound. lia. Qed.

Lemma s32_small z : - 2 ^ 31 <= z < 2 ^ 31 -> s32 z = z.
Proof. intros ?. unfold s32. rewrite Z.mod_small; lia. Qed.

Lemma s32_bounds z : - 2 ^ 31 <= s32 z < 2 ^ 31.
Proof.
  unfold s32. pose proof (Z.mod_pos_bound (z + 2 ^ 31) (2 ^ 32) ltac:(lia)). lia.
Qed.

Lemma s64_small z : - 2 ^ 63 <= z < 2 ^ 63 -> s64 z = z.
Proof. intros ?. unfold s64. rewrite Z.mod_small; lia. Qed.

Lemma s32_add_l a b : s32 (s32 a + b) = s32 (a + b).
Proof.
  unfold s32. f_equal.
  replace ((a + 2 ^ 31) mod 2 ^ 32 - 2 ^ 31 + b + 2 ^ 31)
    with ((a + 2 ^ 31) mod 2 ^ 32 + b) by lia.
  rewrite Zplus_mod_idemp_l. f_equal. lia.
Qed.

Lemma s32_sub_l a b : s32 (s32 a - b) = s32 (a - b).
Proof. rewrite <- !Z.add_opp_r. apply s32_add_l. Qed.

Lemma s32_u64_add a b : s32 (a + u64 b) = s32 (a + b).
Proof.
  unfold s32, u64. f_equal.
  rewrite (Z.div_mod b (2 ^ 64)) at 2 by lia.
  replace (a + (2 ^ 64 * (b / 2 ^ 64) + b mod 2 ^ 64) + 2 ^ 31)
    with (a + b mod 2 ^ 64 + 2 ^ 31 + (2 ^ 32 * (b / 2 ^ 64)) * 2 ^ 32) by lia.
  rewrite Z.mod_add by lia. done.
Qed.

(** [DIV_ROUND_UP] of include/linux/kernel.h: C division truncates. *)
Definition DIV_ROUND_UP (n d : Z) : Z := (n + d - 1) ÷ d.

Lemma DIV_ROUND_UP_spec n d :
  0 <= n -> 0 < d -> n <= d * DIV_ROUND_UP n d < n + d.
Proof.
  intros ??. unfold DIV_ROUND_UP. rewrite Z.quot_div_nonneg by lia.
  pose proof (Z.div_mod (n + d - 1) d ltac:(lia)).
  pose proof (Z.mod_pos_bound (n + d - 1) d ltac:(lia)). lia.
Qed.

(** ** Little-endian images of machine integers in memory *)

Fixpoint le_bytes (n : nat) (z : Z) : list Z :=
  match n with
  | O => []
  | S n' => z mod 256 :: le_bytes n' (z / 256)
  end.

Fixpoint le_val (bs : list Z) : Z :=
  match bs with
  | [] => 0
  | b :: bs' => b + 256 * le_val bs'
  end.

Definition is_byte (b : Z) : Prop := 0 <= b < 256.

Lemma length_le_bytes n z : length (le_bytes n z) = n.
Proof. revert z. induction n; intros; simpl; auto. Qed.

Lemma le_bytes_is_byte n z : Forall is_byte (le_bytes n z).
Proof.
  revert z. induction n; intros; simpl; constructor; auto.
  apply Z.mod_pos_bound. lia.
Qed.

Lemma le_val_bytes n z : le_val (le_bytes n z) = z mod 256 ^ Z.of_nat n.
Proof.
  revert z. induction n as [|n IH]; intros z; cbn [le_bytes le_val].
  - change (256 ^ Z.of_nat 0) with 1. by rewrite Z.mod_1_r.
  - rewrite IH, Nat2Z.inj_succ, Z.pow_succ_r by lia.
    rewrite Z.rem_mul_r by lia. done.
Qed.

Lemma le_val_bytes8 z : le_val (le_bytes 8 z) = u64 z.
Proof. rewrite le_val_bytes. done. Qed.

Lemma le_val_bytes4 z : le_val (le_bytes 4 z) = u32 z.
Proof. rewrite le_val_bytes. done. Qed.

Lemma s32_u32 z : s32 (u32 z) = s32 z.
Proof.
  unfold s32, u32. rewrite Zplus_mod_idemp_l. done.
Qed.

Lemma s64_u64 z : s64 (u64 z) = s64 z.
Proof.
  unfold s64, u64. rewrite Zplus_mod_idemp_l. done.
Qed.

Lemma s32_idemp z : s32 (s32 z) = s32 z.
Proof. apply s32_small. pose proof (s32_bounds z). lia. Qed.

Lemma le_val_bound bs :
  Forall is_byte bs -> 0 <= le_val bs < 256 ^ Z.of_nat (length bs).
Proof.
  induction 1 as [|b bs Hb _ IH]; cbn [le_val length].
  - change (256 ^ Z.of_nat 0) with 1. lia.
  - rewrite Nat2Z.inj_succ, Z.pow_succ_r by lia. unfold is_byte in Hb. lia.
Qed.

Lemma le_bytes_val bs :
  Forall is_byte bs -> le_bytes (length bs) (le_val bs) = bs.
Proof.
  induction 1 as [|b bs Hb _ IH]; cbn [le_val length le_bytes]; [done|].
  unfold is_byte in Hb. f_equal.
  - rewrite Z.mul_comm, Z.mod_add by lia. apply Z.mod_small. lia.
  - rewrite Z.mul_comm, Z.div_add by lia.
    rewrite Z.div_small by lia. by rewrite Z.add_0_l.
Qed.

(** ** Bit-flag words (toi_state, toi_result, toi_action) *)

Definition test_flag (bit : Z) (w : Z) : bool := Z.testbit w bit.
Definition set_flag (bit : Z) (w : Z) : Z := Z.setbit w bit.
Definition clear_flag (bit : Z) (w : Z) : Z := Z.clearbit w bit.

Lemma test_set_flag b w : 0 <= b -> test_flag b (set_flag b w) = true.
Proof. intros. unfold test_flag, set_flag. by rewrite Z.setbit_eqb, Z.eqb_refl. Qed.

Lemma test_set_flag_ne b c w :
  0 <= b -> b <> c -> test_flag c (set_flag b w) = test_flag c w.
Proof. intros. unfold test_flag, set_flag. by rewrite Z.setbit_neq. Qed.

Lemma test_clear_flag b w : test_flag b (clear_flag b w) = false.
Proof. unfold test_flag, clear_flag. apply Z.clearbit_eq. Qed.

Lemma test_clear_flag_ne b c w :
  b <> c -> test_flag c (clear_flag b w) = test_flag c w.
Proof. intros. unfold test_flag, clear_flag. by rewrite Z.clearbit_neq. Qed.

(** ** Automation *)

(** Split every boolean test of the goal and turn it into a proposition. *)
Ltac bool_cases :=
  repeat match goal with
  | |- context [if ?b then _ else _] => let E := fresh "E" in destruct b eqn:E
  end;
  rewrite ?Z.eqb_eq, ?Z.eqb_neq, ?Z.ltb_lt, ?Z.ltb_ge, ?Z.leb_le, ?Z.leb_gt in *.

(** Reflect boolean comparisons among the hypotheses. *)
Ltac breflect :=
  repeat match goal with
  | H : (_ =? _) = true |- _ => apply Z.eqb_eq in H
  | H : (_ =? _) = false |- _ => apply Z.eqb_neq in H
  | H : (_ <? _) = true |- _ => apply Z.ltb_lt in H
  | H : (_ <? _) = false |- _ => apply Z.ltb_ge in H
  | H : (_ <=? _) = true |- _ => apply Z.leb_le in H
  | H : (_ <=? _) = false |- _ => apply Z.leb_gt in H
  | H : (_ >? _) = true |- _ => rewrite Z.gtb_ltb in H
  | H : (_ >? _) = false |- _ => rewrite Z.gtb_ltb in H
  | H : (_ >=? _) = true |- _ => rewrite Z.geb_leb in H
  | H : (_ >=? _) = false |- _ => rewrite Z.geb_leb in H
  | H : negb _ = true |- _ => apply negb_true_iff in H
  | H : negb _ = false |- _ => apply negb_false_iff in H
  | H : (_ && _)%bool = true |- _ => apply andb_true_iff in H as [??]
  | H : (_ || _)%bool = false |- _ => apply orb_false_iff in H as [??]
  end.

Create HintDb toi.
Create Rewrite HintDb toi.
#[export] Hint Resolve u64_bounds s32_bounds le_bytes_is_byte : toi.
#[export] Hint Rewrite length_le_bytes le_val_bytes8 le_val_bytes4 s32_u32
  s32_idemp : toi.

(** ** Intervals of block numbers *)

(** [seqZ] splits at any intermediate point. *)
Lemma seqZ_split a n m :
  0 <= n -> 0 <= m -> seqZ a (n + m) = seqZ a n ++ seqZ (a + n) m.
Proof. intros. by apply seqZ_app. Qed.

(** ** Filtering lists by boolean predicates *)

Lemma filter_all_false {A} (P : A -> bool) (l : list A) :
  (forall j, j ∈ l -> P j = false) -> filter (fun j => P j = true) l = [].
Proof.
  induction l as [|j l IH]; intros Hno; [done|].
  rewrite filter_cons_False by (rewrite Hno by (by left); done).
  apply IH. intros k ?. apply Hno. by right.
Qed.

Lemma filter_bool_ext {A} (P Q : A -> bool) (l : list A) :
  (forall j, j ∈ l -> P j = Q j) ->
  filter (fun j => P j = true) l = filter (fun j => Q j = true) l.
Proof.
  induction l as [|j l IH]; intros Heq; [done|]. rewrite !filter_cons.
  rewrite (Heq j) by (by left). rewrite IH by (intros k ?; apply Heq; by right). done.
Qed.

Lemma filter_bool_map {A B} (f : A -> B) (P : B -> bool) (l : list A) :
  filter (fun j => P j = true) (map f l) = map f (filter (fun j => P (f j) = true) l).
Proof.
  induction l as [|j l IH]; [done|]. cbn [map]. rewrite !filter_cons.
  case_decide; cbn [map]; by rewrite IH.
Qed.

(** ** Strictly increasing lists of numbers *)

Fixpoint ascending (lo : Z) (l : list Z) : Prop :=
  match l with [] => True | x :: l' => lo <= x /\ ascending (x + 1) l' end.

Lemma ascending_weaken lo lo' l : ascending lo l -> lo' <= lo -> ascending lo' l.
Proof. destruct l; simpl; [done|]. intros [? ?] ?. split; [lia|done]. Qed.

Lemma ascending_app lo mid l1 l2 :
  ascending lo l1 -> (forall x, x ∈ l1 -> lo <= x < mid) -> lo <= mid -> ascending mid l2 ->
  ascending lo (l1 ++ l2).
Proof.
  revert lo. induction l1 as [|x l1 IH]; intros lo H1 Hx Hm H2; simpl.
  - by eapply ascending_weaken.
  - destruct H1 as [? H1]. pose proof (Hx x ltac:(by left)). split; [lia|].
    apply IH; auto; [|lia]. intros y Hy. pose proof (Hx y ltac:(by right)). split; [|lia].
    clear -H1 Hy. revert x H1. induction l1 as [|z l1 IH]; intros x H1; [by apply elem_of_nil in Hy|].
    destruct H1 as [? H1]. apply elem_of_cons in Hy as [->|Hy]; [done|].
    specialize (IH Hy _ H1). lia.
Qed.

Lemma ascending_ge lo l x : ascending lo l -> x ∈ l -> lo <= x.
Proof.
  revert lo. induction l as [|y l IH]; intros lo Hl Hx; [by apply elem_of_nil in Hx|].
  destruct Hl as [? Hl]. apply elem_of_cons in Hx as [->|Hx]; [done|]. specialize (IH _ Hl Hx). lia.
Qed.

Lemma ascending_NoDup lo l : ascending lo l -> base.NoDup l.
Proof.
  revert lo. induction l as [|x l IH]; intros lo Hl; [constructor|]. destruct Hl as [? Hl].
  constructor; [|by eapply IH]. intros Hx. pose proof (ascending_ge _ _ _ Hl Hx). lia.
Qed.

(** There is one way to put numbers in order. *)
Lemma ascending_unique lo lo' l l' : ascending lo l -> ascending lo' l' -> l ≡ₚ l' -> l = l'.
Proof.
  revert lo lo' l'. induction l as [|x l IH]; intros lo lo' l' Hl Hl' Hp; [by apply Permutation_nil_l in Hp|].
  destruct l' as [|y l']; [by apply Permutation_nil_r in Hp|]. destruct Hl as [_ Hl], Hl' as [_ Hl'].
  assert (x = y) as ->.
  { assert (x ∈ y :: l') as Hx by (rewrite <- Hp; by left). assert (y ∈ x :: l) as Hy by (rewrite Hp; by left).
    apply elem_of_cons in Hx as [|Hx]; [done|]. apply elem_of_cons in Hy as [|Hy]; [done|].
    pose proof (ascending_ge _ _ _ Hl Hy). pose proof (ascending_ge _ _ _ Hl' Hx). lia. }
  f_equal. eapply IH; [done..|]. by apply Permutation_cons_inv in Hp.
Qed.

Lemma ascending_seqZ a n : ascending a (seqZ a n).
Proof.
  destruct (Z.lt_ge_cases n 0); [by rewrite seqZ_nil by lia|].
  revert a. pattern n. apply natlike_ind; [done| |done]. intros m ? IH a.
  rewrite seqZ_cons by lia. simpl. split; [lia|]. by rewrite Z.pred_succ.
Qed.

Lemma ascending_filter (P : Z -> bool) lo l :
  ascending lo l -> ascending lo (filter (fun x => P x = true) l).
Proof.
  revert lo. induction l as [|x l IH]; intros lo Hl; [done|]. destruct Hl as [? Hl].
  rewrite filter_cons. case_decide; simpl; [by auto|].
  apply ascending_weaken with (x + 1); [by apply IH|lia].
Qed.

(** ** Stateful code

    A step of type [M S A] maps a state to the next one and a result, or to
    [None] where the kernel would stop in [BUG()] or follow a wild pointer. *)

Definition M (S A : Type) : Type := S -> option (S * A).

Definition ret {S A} (a : A) : M S A := fun s => Some (s, a).

Definition bind {S A B} (m : M S A) (k : A -> M S B) : M S B := fun s =>
  match m s with
  | Some (s', a) => k a s'
  | None => None
  end.

Definition get {S A} (f : S -> A) : M S A := fun s => Some (s, f s).

Definition modify {S} (f : S -> S) : M S unit := fun s => Some (f s, tt).

Definition bug {S A} : M S A := fun _ => None.

Declare Scope step_scope.
Delimit Scope step_scope with step.
Notation "x <-- m ;; k" := (bind m (fun x => k))
  (at level 100, m at next level, right associativity) : step_scope.
Notation "m ;;; k" := (bind m (fun _ => k))
  (at level 100, right associativity) : step_scope.

(** Return early when the result so far is an error. *)
Definition or_return {S} (r : Z) (k : M S Z) : M S Z := if r =? 0 then k else ret r.

(** [wp m Q s]: run from [s], [m] returns, with a result and state in [Q]. *)
Definition wp {S A} (m : M S A) (Q : A -> S -> Prop) (s : S) : Prop :=
  match m s with
  | Some (s', a) => Q a s'
  | None => False
  end.

Lemma wp_bind {S A B} (m : M S A) (k : A -> M S B) Q s :
  wp m (fun a s' => wp (k a) Q s') s -> wp (bind m k) Q s.
Proof. unfold wp, bind. by destruct (m s) as [[]|]. Qed.

(** Following one step, forwards and backwards. *)
Lemma bind_step {S A B} (m : M S A) (k : A -> M S B) s s' a : m s = Some (s', a) -> bind m k s = k a s'.
Proof. unfold bind. by intros ->. Qed.

Lemma bind_inv {S A B} (m : M S A) (k : A -> M S B) s s' b :
  bind m k s = Some (s', b) -> exists s1 a, m s = Some (s1, a) /\ k a s1 = Some (s', b).
Proof. unfold bind. destruct (m s) as [[s1 a]|]; [eauto|done]. Qed.

Lemma wp_mono {S A} (m : M S A) (Q Q' : A -> S -> Prop) s :
  wp m Q s -> (forall a s', Q a s' -> Q' a s') -> wp m Q' s.
Proof. unfold wp. destruct (m s) as [[]|]; auto. Qed.

Lemma wp_returns {S A} (m : M S A) Q s :
  wp m Q s -> exists s' a, m s = Some (s', a) /\ Q a s'.
Proof. unfold wp. destruct (m s) as [[s' a]|]; [eauto|done]. Qed.

(** [m] always returns. *)
Definition returns {S A} (m : M S A) : Prop := forall s, wp m (fun _ _ => True) s.

Lemma returns_bind {S A B} (m : M S A) (k : A -> M S B) :
  returns m -> (forall a, returns (k a)) -> returns (bind m k).
Proof. intros Hm Hk s. apply wp_bind. eapply wp_mono; [apply Hm|]. intros a s' _. apply Hk. Qed.

Lemma returns_ret {S A} (a : A) : returns (S := S) (ret a).
Proof. by intros s. Qed.

Lemma returns_get {S A} (f : S -> A) : returns (get f).
Proof. by intros s. Qed.

Lemma returns_modify {S} (f : S -> S) : returns (modify f).
Proof. by intros s. Qed.

Create HintDb returns.
#[export] Hint Resolve returns_bind returns_ret returns_get returns_modify : returns.

#[global] Arguments ret {S A} a _ /.
#[global] Arguments bind {S A B} m k _ /.
#[global] Arguments get {S A} f _ /.
#[global] Arguments modify {S} f _ /.
#[global] Arguments bug {S A} _ /.

(** ** Record updates

    [s {{ f := v; g := w }}] is [s] with the fields [f] and [g] replaced.  A
    record type declares its eta expansion as an instance of [Eta]; the
    setter of a field is found from it. *)

Class Eta (R : Type) := eta_expand : R -> R.

Class Setter {R E : Type} (field : R -> E) := set_field : (E -> E) -> R -> R.

Ltac find_setter R field :=
  let i := constr:(_ : Eta R) in
  let e := eval red in i in
  lazymatch eval pattern field in e with
  | ?u _ =>
      let t := eval cbv beta in (fun f => u (fun r => f (field r))) in
      exact t
  end.

#[export] Hint Extern 1 (@Setter ?R _ ?field) => find_setter R field : typeclass_instances.

#[global] Arguments set_field {R E} field {_} _ _ /.

Declare Custom Entry field_update.
Notation "f := v" := (set_field f (fun _ => v))
  (in custom field_update at level 1, f constr at level 1, v constr at level 99).
Notation "s {{ u }}" := (u s)
  (at level 1, left associativity, u custom field_update at level 1).
Notation "s {{ u ; .. ; v ; w }}" := (w (v .. (u s) ..))
  (at level 1, left associativity, u custom field_update at level 1,
   v custom field_update at level 1, w custom field_update at level 1).
