(* ===== verification/HeaderStream.v ===== *)
(** * The image-header stream: the contract between the storage allocators
    and the code that saves metadata

    The allocators export [rw_header_chunk] and [rw_header_chunk_noreadahead]
    (struct toi_module_ops, tuxonice_modules.h).  Their clients (the extent
    chains, the memory bitmaps, the module configurations) write byte chunks
    in one order when hibernating and read them back in that order when
    resuming.  The two classes below state exactly what the clients rely on;
    the block I/O layer discharges them. *)

From S2P Require Import Prelude.
From stdpp Require Import base list numbers.
#[local] Open Scope Z_scope.

(** A module that owns header bytes, by its place in the module list;
    [None] is the [NULL] owner. *)
Definition owner := option nat.

(** [hw_content w bs]: the bytes [bs] have been accepted by the writer [w]
    since its stream was started, in that order. *)
Class HeaderWriter (W : Type) := {
  hw_chunk : owner -> list Z -> W -> W * Z;
  hw_content : W -> list Z -> Prop;
  hw_chunk_ok o bs w w' acc :
    hw_content w acc -> hw_chunk o bs w = (w', 0) -> hw_content w' (acc ++ bs)
}.

(** [hr_pending r bs]: the next bytes the reader [r] delivers are [bs].  The
    two entry points, [rw_header_chunk] and [rw_header_chunk_noreadahead], are
    two readers. *)
Class HeaderReader (R : Type) := {
  hr_chunk : nat -> R -> R * (list Z * Z);
  hr_pending : R -> list Z -> Prop;
  hr_chunk_ok bs rest r :
    hr_pending r (bs ++ rest) ->
    exists r', hr_chunk (length bs) r = (r', (bs, 0)) /\ hr_pending r' rest
}.

(** ** A plain byte stream, the simplest model of both contracts *)

#[export] Program Instance list_writer : HeaderWriter (list Z) := {
  hw_chunk o bs w := (w ++ bs, 0);
  hw_content w bs := w = bs
}.
Next Obligation. by intros o bs w w' acc -> [= <-]. Qed.

#[export] Program Instance list_reader : HeaderReader (list Z) := {
  hr_chunk n r := (drop n r, (take n r, 0));
  hr_pending r bs := r = bs
}.
Next Obligation.
  intros bs rest r ->. exists rest.
  by rewrite take_app_length, drop_app_length.
Qed.

(** Consecutive chunks of a writer. *)
Section Chunks.
Context {W : Type} `{HeaderWriter W}.

Lemma hw_chunk_ok2 o1 o2 b1 b2 w w1 w2 acc :
  hw_content w acc -> hw_chunk o1 b1 w = (w1, 0) -> hw_chunk o2 b2 w1 = (w2, 0) ->
  hw_content w2 (acc ++ b1 ++ b2).
Proof.
  intros Hc H1 H2. rewrite app_assoc.
  eapply hw_chunk_ok; [|exact H2]. by eapply hw_chunk_ok.
Qed.
End Chunks.
