(* ===== verification/Extents.v ===== *)
(** * Extents: kernel/power/tuxonice_extent.c and tuxonice_extent.h

    A chain is a singly linked list of block ranges; a pointer into the list
    ([last_touched], [current_extent]) is the index of the node it points to.
    The iterator walks an array of chains as one long tape of blocks. *)

From S2P Require Import Prelude HeaderStream.
From stdpp Require Import base list numbers.
#[local] Open Scope Z_scope.

(** ** Data *)

Record hibernate_extent := Ext { ext_start : Z; ext_end : Z }.

Record hibernate_extent_chain := Chain {
  chain_size : Z;
  num_extents : Z;
  chain_exts : list hibernate_extent;
  last_touched : option nat
}.

Record toi_extent_iterate_state := IterState {
  it_chains : list hibernate_extent_chain;
  current_chain : Z;
  current_extent : option nat;
  current_offset : Z
}.

Record hibernate_extent_iterate_saved_state := SavedState {
  chain_num : Z;
  extent_num : Z;
  saved_offset : Z
}.

#[export] Instance hibernate_extent_eq_dec : EqDecision hibernate_extent.
Proof. solve_decision. Defined.

Definition empty_chain : hibernate_extent_chain := Chain 0 0 [] None.

(** ** Chain operations *)

(** The loop of [toi_put_extent_chain]: one decrement per node. *)
Fixpoint put_extents (l : list hibernate_extent) (n : Z) : Z :=
  match l with
  | [] => n
  | _ :: l' => put_extents l' (s32 (n - 1))
  end.

Definition toi_put_extent_chain (c : hibernate_extent_chain) : hibernate_extent_chain :=
  Chain 0 (put_extents (chain_exts c) (num_extents c)) [] None.

(** The node to start searching from: [last_touched], else [first]. *)
Definition search_start (c : hibernate_extent_chain) (start : Z) : option nat :=
  match last_touched c with
  | Some i =>
      match chain_exts c !! i with
      | Some e => if ext_start e <? start then Some i
                  else match chain_exts c with
                       | f :: _ => if ext_start f <? start then Some 0%nat else None
                       | [] => None
                       end
      | None => None
      end
  | None =>
      match chain_exts c with
      | f :: _ => if ext_start f <? start then Some 0%nat else None
      | [] => None
      end
  end.

(** [while (cur_ext->next && cur_ext->next->start < start)]: how many nodes
    the search advances from the head of [l]. *)
Fixpoint seek_steps (l : list hibernate_extent) (start : Z) : nat :=
  match l with
  | _ :: ((n :: _) as l') =>
      if ext_start n <? start then S (seek_steps l' start) else 0%nat
  | _ => 0%nat
  end.

Definition find_place (c : hibernate_extent_chain) (start : Z) : option nat :=
  match search_start c start with
  | Some i => Some (i + seek_steps (drop i (chain_exts c)) start)%nat
  | None => None
  end.

(** The [new_ext] half of [toi_add_to_extent_chain]; [mem] is whether
    [toi_get_extent] gets memory. *)
Definition add_new_extent (mem : bool) (c : hibernate_extent_chain)
    (cur : option nat) (start end_ : Z) : hibernate_extent_chain * Z :=
  if mem then
    let exts := chain_exts c in
    let size' := s32 (chain_size c + u64 (end_ - start + 1)) in
    let num' := s32 (num_extents c + 1) in
    match cur with
    | Some i =>
        (Chain size' num' (take (S i) exts ++ Ext start end_ :: drop (S i) exts)
               (Some (S i)), 0)
    | None => (Chain size' num' (Ext start end_ :: exts) (Some 0%nat), 0)
    end
  else (c, - ENOMEM).

Definition toi_add_to_extent_chain (mem : bool) (c : hibernate_extent_chain)
    (start end_ : Z) : hibernate_extent_chain * Z :=
  let exts := chain_exts c in
  let cur := find_place c start in
  match cur with
  | Some i =>
      match exts !! i with
      | Some e =>
          if ext_end e =? u64 (start - 1) then
            let size' := s32 (chain_size c + u64 (end_ - start + 1)) in
            match exts !! S i with
            | Some n =>
                if u64 (end_ + 1) =? ext_start n then
                  (Chain size' (s32 (num_extents c - 1))
                     (take i exts ++ Ext (ext_start e) (ext_end n) :: drop (S (S i)) exts)
                     (Some i), 0)
                else
                  (Chain size' (num_extents c)
                     (take i exts ++ Ext (ext_start e) end_ :: drop (S i) exts)
                     (Some i), 0)
            | None =>
                (Chain size' (num_extents c)
                   (take i exts ++ Ext (ext_start e) end_ :: drop (S i) exts)
                   (Some i), 0)
            end
          else add_new_extent mem c cur start end_
      | None => (c, 0) (* no such node: [find_place] returns a node's index *)
      end
  | None => add_new_extent mem c None start end_
  end.

(** ** Iteration over an array of chains *)

Definition num_chains (st : toi_extent_iterate_state) : Z :=
  Z.of_nat (length (it_chains st)).

Definition toi_extent_state_eof (st : toi_extent_iterate_state) : bool :=
  num_chains st =? current_chain st.

Definition toi_extent_state_goto_start (st : toi_extent_iterate_state)
    : toi_extent_iterate_state :=
  IterState (it_chains st) (-1) None 0.

(** The extents of the chain with the given number, none past the array. *)
Definition exts_of (cs : list hibernate_extent_chain) (n : Z) : list hibernate_extent :=
  if n <? 0 then [] else
  match cs !! Z.to_nat n with Some c => chain_exts c | None => [] end.

(** The [while (!state->current_extent)] loop of [toi_extent_state_next]:
    [cs] are the chains from number [n] on; reaching their end is
    [chain_num == num_chains]. *)
Fixpoint enter_chain (cs : list hibernate_extent_chain) (n off : Z)
    : Z * option nat * Z :=
  match cs with
  | [] => (n, None, off)
  | c :: cs' =>
      match chain_exts c with
      | e :: _ => (n, Some 0%nat, ext_start e)
      | [] => enter_chain cs' (n + 1) off
      end
  end.

(** The first half of [toi_extent_state_next]: step inside the chain. *)
Definition step_in_chain (st : toi_extent_iterate_state) : option nat * Z :=
  match current_extent st with
  | None => (None, current_offset st)
  | Some i =>
      let exts := exts_of (it_chains st) (current_chain st) in
      match exts !! i with
      | Some e =>
          if current_offset st =? ext_end e then
            match exts !! S i with
            | Some n => (Some (S i), ext_start n)
            | None => (None, 0)
            end
          else (Some i, u64 (current_offset st + 1))
      | None => (None, current_offset st)
      end
  end.

Definition toi_extent_state_next (st : toi_extent_iterate_state)
    : toi_extent_iterate_state * Z :=
  if current_chain st =? num_chains st then (st, 0)
  else
    match step_in_chain st with
    | (Some i, off) => (IterState (it_chains st) (current_chain st) (Some i) off, off)
    | (None, off) =>
        let n := current_chain st + 1 in
        match enter_chain (drop (Z.to_nat n) (it_chains st)) n off with
        | (n', Some i, off') => (IterState (it_chains st) n' (Some i) off', off')
        | (n', None, off') => (IterState (it_chains st) n' None off', 0)
        end
    end.

(** ** Saving and restoring a position *)

(** [while (extent != state->current_extent)]: [l] is the list from node
    [idx] on, [target] the index sought, [None] being [NULL].  Following the
    link of [NULL] is the outcome [None]. *)
Fixpoint count_to (l : list hibernate_extent) (idx : nat) (target : option nat)
    (n : Z) : option Z :=
  match l with
  | [] => match target with None => Some n | Some _ => None end
  | _ :: l' =>
      if bool_decide (target = Some idx) then Some n
      else count_to l' (S idx) target (s32 (n + 1))
  end.

Definition toi_extent_state_save (st : toi_extent_iterate_state)
    : option hibernate_extent_iterate_saved_state :=
  if current_chain st =? -1 then
    Some (SavedState (current_chain st) 0 (current_offset st))
  else
    match it_chains st !! Z.to_nat (current_chain st) with
    | Some c =>
        match count_to (chain_exts c) 0 (current_extent st) 0 with
        | Some n => Some (SavedState (current_chain st) n (current_offset st))
        | None => None
        end
    | None => None
    end.

(** [while (posn--) current_extent = current_extent->next] from node [idx]
    of a list of [len] nodes. *)
Fixpoint follow (len : nat) (idx : option nat) (posn : nat) : option (option nat) :=
  match posn with
  | O => Some idx
  | S posn' =>
      match idx with
      | Some i =>
          follow len (if (S i <? len)%nat then Some (S i) else None) posn'
      | None => None
      end
  end.

Definition toi_extent_state_restore (st : toi_extent_iterate_state)
    (sv : hibernate_extent_iterate_saved_state) : option toi_extent_iterate_state :=
  if chain_num sv =? -1 then Some (toi_extent_state_goto_start st)
  else if extent_num sv <? 0 then None (* counts down from a negative number *)
  else
    match it_chains st !! Z.to_nat (chain_num sv) with
    | Some c =>
        let len := length (chain_exts c) in
        match follow len (if (0 <? len)%nat then Some 0%nat else None)
                     (Z.to_nat (extent_num sv)) with
        | Some e => Some (IterState (it_chains st) (chain_num sv) e (saved_offset sv))
        | None => None
        end
    | None => None
    end.

(** ** Storing a chain in the image header *)

Definition chain_prefix_bytes (c : hibernate_extent_chain) : list Z :=
  le_bytes 4 (chain_size c) ++ le_bytes 4 (num_extents c).

Definition extent_bytes (e : hibernate_extent) : list Z :=
  le_bytes 8 (ext_start e) ++ le_bytes 8 (ext_end e).

Section Serialise.
Context {W : Type} `{HeaderWriter W} {R : Type} `{HeaderReader R}.

Fixpoint write_extents (o : owner) (l : list hibernate_extent) (w : W) (ret i : Z)
    : W * Z * Z :=
  match l with
  | [] => (w, ret, i)
  | e :: l' =>
      let '(w', r) := hw_chunk o (extent_bytes e) w in
      if r =? 0 then write_extents o l' w' r (s32 (i + 1)) else (w', r, -1)
  end.

Definition toi_serialise_extent_chain (o : owner) (c : hibernate_extent_chain) (w : W)
    : W * Z :=
  let '(w1, ret) := hw_chunk o (chain_prefix_bytes c) w in
  if negb (ret =? 0) then (w1, ret)
  else
    let '(w2, ret2, i) := write_extents o (chain_exts c) w1 ret 0 in
    if negb (ret2 =? 0) then (w2, ret2)
    else if negb (i =? num_extents c) then (w2, 1)
    else (w2, ret2).

(** The loop of [toi_load_extent_chain]; [mem] says which [toi_kzalloc]
    calls succeed, [acc] is the list linked so far. *)
Fixpoint load_extents (mem : nat -> bool) (n i : nat) (acc : list hibernate_extent)
    (r : R) : R * list hibernate_extent * Z :=
  match n with
  | O => (r, acc, 0)
  | S n' =>
      if mem i then
        let '(r', (bs, ret)) := hr_chunk 16 r in
        if ret =? 0 then
          load_extents mem n' (S i)
            (acc ++ [Ext (le_val (take 8 bs)) (le_val (drop 8 bs))]) r'
        else (r', acc, 1)
      else (r, acc, - ENOMEM)
  end.

Definition toi_load_extent_chain (mem : nat -> bool) (c : hibernate_extent_chain)
    (r : R) : R * hibernate_extent_chain * Z :=
  let '(r1, (bs, ret)) := hr_chunk 8 r in
  if negb (ret =? 0) then (r1, c, 1)
  else
    let size := s32 (le_val (take 4 bs)) in
    let num := s32 (le_val (drop 4 bs)) in
    let '(r2, l, res) := load_extents mem (Z.to_nat num) 0 [] r1 in
    (r2, Chain size num (match l with [] => chain_exts c | _ => l end)
           (last_touched c), res).
End Serialise.

(** ** Walking one chain

    The macro [toi_extent_for_each]: the loop state is the node (an index,
    [None] for [NULL]) and the value.  [for_each_values] collects the values
    the body sees; [fuel] bounds the iterations, [None] when it runs out. *)

Definition for_each_step (l : list hibernate_extent) (i : nat) (e : hibernate_extent)
    (value : Z) : option nat * Z :=
  if value =? ext_end e then
    match l !! S i with
    | Some n => (Some (S i), ext_start n)
    | None => (None, 0)
    end
  else (Some i, u64 (value + 1)).

Fixpoint for_each_values (fuel : nat) (l : list hibernate_extent) (p : option nat)
    (value : Z) : option (list Z) :=
  match fuel with
  | O => None
  | S fuel' =>
      match p with
      | None => Some []
      | Some i =>
          match l !! i with
          | None => None
          | Some e =>
              if bool_decide (is_Some (l !! S i)) || (value <=? ext_end e) then
                let '(p', v') := for_each_step l i e value in
                match for_each_values fuel' l p' v' with
                | Some vs => Some (value :: vs)
                | None => None
                end
              else Some []
          end
      end
  end.

Definition toi_extent_for_each (fuel : nat) (c : hibernate_extent_chain) : option (list Z) :=
  match chain_exts c with
  | [] => Some []
  | e :: _ => for_each_values fuel (chain_exts c) (Some 0%nat) (ext_start e)
  end.

(** ** The abstract tape *)

Definition ext_len (e : hibernate_extent) : Z := ext_end e - ext_start e + 1.

Definition ext_blocks (e : hibernate_extent) : list Z := seqZ (ext_start e) (ext_len e).

Definition exts_blocks (l : list hibernate_extent) : list Z := flat_map ext_blocks l.

Definition chain_blocks (c : hibernate_extent_chain) : list Z := exts_blocks (chain_exts c).

(** The blocks of every chain in order, each with the number of its chain. *)
Fixpoint tape_from (n : Z) (cs : list hibernate_extent_chain) : list (Z * Z) :=
  match cs with
  | [] => []
  | c :: cs' => map (pair n) (chain_blocks c) ++ tape_from (n + 1) cs'
  end.

Definition tape (cs : list hibernate_extent_chain) : list (Z * Z) := tape_from 0 cs.

(** Sorted, disjoint, non-empty extents, none below [lo]. *)
Fixpoint wf_from (lo : Z) (l : list hibernate_extent) : Prop :=
  match l with
  | [] => True
  | e :: l' =>
      lo <= ext_start e /\ ext_start e <= ext_end e < 2 ^ 64 /\ wf_from (ext_end e + 1) l'
  end.

Fixpoint exts_total (l : list hibernate_extent) : Z :=
  match l with [] => 0 | e :: l' => ext_len e + exts_total l' end.

(** The invariant of a chain. *)
Record wf_chain (c : hibernate_extent_chain) : Prop := {
  wf_sorted : wf_from 0 (chain_exts c);
  wf_size : chain_size c = s32 (exts_total (chain_exts c));
  wf_num : num_extents c = s32 (Z.of_nat (length (chain_exts c)));
  wf_touched : forall i, last_touched c = Some i -> (i < length (chain_exts c))%nat
}.

(** ** Facts about sorted extent lists *)

(** One past the last block of [l], [lo] when it is empty. *)
Fixpoint exts_end (lo : Z) (l : list hibernate_extent) : Z :=
  match l with [] => lo | e :: l' => exts_end (ext_end e + 1) l' end.

Lemma wf_from_app lo l1 l2 :
  wf_from lo (l1 ++ l2) <-> wf_from lo l1 /\ wf_from (exts_end lo l1) l2.
Proof. revert lo. induction l1 as [|e l1 IH]; intros lo; simpl; [tauto|]. rewrite IH. tauto. Qed.

Lemma wf_from_head lo lo' l :
  wf_from lo l -> (forall n, l !! 0%nat = Some n -> lo' <= ext_start n) -> wf_from lo' l.
Proof. destruct l as [|e l]; simpl; [done|]. intros (?&?&?) Hn. specialize (Hn _ eq_refl). auto. Qed.

Lemma wf_from_elem lo l e :
  wf_from lo l -> e ∈ l -> lo <= ext_start e /\ ext_start e <= ext_end e < 2 ^ 64.
Proof.
  revert lo. induction l as [|f l IH]; intros lo Hwf He; [by apply elem_of_nil in He|].
  destruct Hwf as (?&?&Hl). apply elem_of_cons in He as [->|He]; [lia|].
  destruct (IH _ Hl He). lia.
Qed.

Lemma exts_total_app l1 l2 : exts_total (l1 ++ l2) = exts_total l1 + exts_total l2.
Proof. induction l1; simpl; lia. Qed.

Lemma exts_blocks_app l1 l2 : exts_blocks (l1 ++ l2) = exts_blocks l1 ++ exts_blocks l2.
Proof. apply flat_map_app. Qed.

Lemma exts_blocks_length lo l :
  wf_from lo l -> Z.of_nat (length (exts_blocks l)) = exts_total l.
Proof.
  revert lo. induction l as [|e l IH]; intros lo Hwf; [done|].
  destruct Hwf as (?&?&Hl). cbn [exts_blocks flat_map exts_total].
  rewrite length_app, Nat2Z.inj_add. fold (exts_blocks l). rewrite (IH _ Hl).
  unfold ext_blocks. rewrite length_seqZ. unfold ext_len. lia.
Qed.

Lemma ext_blocks_cons e :
  ext_start e <= ext_end e ->
  ext_blocks e = ext_start e :: seqZ (ext_start e + 1) (ext_end e - ext_start e).
Proof.
  intros. unfold ext_blocks, ext_len. rewrite seqZ_cons by lia.
  f_equal. f_equal; lia.
Qed.

(** Two abutting ranges. *)
Lemma ext_blocks_join s m e t :
  s <= m -> m <= e -> t = m + 1 -> e >= m ->
  ext_blocks (Ext s e) = ext_blocks (Ext s m) ++ seqZ t (e - m).
Proof.
  intros ? ? -> ?. unfold ext_blocks, ext_len. simpl.
  replace (e - s + 1) with ((m - s + 1) + (e - m)) by lia.
  rewrite seqZ_split by lia. do 2 f_equal. lia.
Qed.

(** ** Where [toi_add_to_extent_chain] inserts *)

Lemma seek_steps_spec l start f :
  l !! 0%nat = Some f -> ext_start f < start ->
  exists e, l !! seek_steps l start = Some e /\ ext_start e < start /\
    forall n, l !! S (seek_steps l start) = Some n -> start <= ext_start n.
Proof.
  revert f. induction l as [|e l IH]; intros f Hf Hlt; [done|].
  simplify_eq/=. destruct l as [|n l]; [by exists f|].
  destruct (Z.ltb_spec (ext_start n) start) as [Hn|Hn].
  - exact (IH n eq_refl Hn).
  - exists f. repeat split; auto. intros m [= <-]. done.
Qed.

Lemma search_start_spec c start i :
  search_start c start = Some i ->
  exists f, chain_exts c !! i = Some f /\ ext_start f < start.
Proof.
  unfold search_start. intros H.
  repeat case_match; simplify_eq; breflect; eauto.
Qed.

Lemma find_place_Some c start i :
  find_place c start = Some i ->
  exists e, chain_exts c !! i = Some e /\ ext_start e < start /\
    forall n, chain_exts c !! S i = Some n -> start <= ext_start n.
Proof.
  unfold find_place. destruct (search_start c start) as [j|] eqn:Hj; intros [= <-].
  apply search_start_spec in Hj as (f & Hf & Hlt).
  assert (drop j (chain_exts c) !! 0%nat = Some f) as Hd
    by (rewrite lookup_drop; by rewrite Nat.add_0_r).
  destruct (seek_steps_spec _ _ _ Hd Hlt) as (e & He & ? & Hn).
  rewrite lookup_drop in He. exists e. repeat split; auto.
  intros n Hl. apply Hn. rewrite lookup_drop. by rewrite Nat.add_succ_r.
Qed.

Lemma find_place_None c start f :
  wf_chain c -> find_place c start = None -> chain_exts c !! 0%nat = Some f ->
  start <= ext_start f.
Proof.
  unfold find_place, search_start. intros Hwf Hn Hf.
  pose proof (wf_touched _ Hwf) as Ht.
  destruct (last_touched c) as [j|].
  - specialize (Ht _ eq_refl). apply lookup_lt_is_Some in Ht as [e He].
    rewrite He in Hn. destruct (chain_exts c) as [|g l]; [done|]. simplify_eq/=.
    repeat case_match; simplify_eq; breflect; lia.
  - destruct (chain_exts c) as [|g l]; [done|]. simplify_eq/=.
    repeat case_match; simplify_eq; breflect; lia.
Qed.

(** ** The effect of adding a range *)

(** No block of [l] lies in [start .. end_]. *)
Definition range_free (l : list hibernate_extent) (start end_ : Z) : Prop :=
  Forall (fun e => end_ < ext_start e \/ ext_end e < start) l.

(** What adding the range to [c] promises of the resulting chain. *)
Definition added (c c' : hibernate_extent_chain) (start end_ : Z) : Prop :=
  wf_chain c' /\ chain_blocks c' ≡ₚ chain_blocks c ++ seqZ start (end_ - start + 1).

Lemma added_intro c c' start end_ :
  wf_from 0 (chain_exts c') ->
  chain_size c' = s32 (chain_size c + u64 (end_ - start + 1)) ->
  exts_total (chain_exts c') = exts_total (chain_exts c) + (end_ - start + 1) ->
  num_extents c' = s32 (Z.of_nat (length (chain_exts c'))) ->
  (forall i, last_touched c' = Some i -> (i < length (chain_exts c'))%nat) ->
  chain_blocks c' ≡ₚ chain_blocks c ++ seqZ start (end_ - start + 1) ->
  wf_chain c -> added c c' start end_.
Proof.
  intros Hs Hsz Htot Hn Ht Hp [_ Hsize _ _]. split; [|done]. split; auto.
  by rewrite Hsz, Htot, s32_u64_add, Hsize, s32_add_l.
Qed.

Lemma range_free_after l start end_ lo :
  wf_from lo l -> range_free l start end_ ->
  (forall n, l !! 0%nat = Some n -> start <= ext_start n) ->
  forall n, l !! 0%nat = Some n -> end_ + 1 <= ext_start n.
Proof.
  destruct l as [|e l]; [done|]. intros (?&?&_) Hf Hs n [= <-].
  apply Forall_cons_1 in Hf as [Hf _]. specialize (Hs _ eq_refl). lia.
Qed.

Section AddAt.
Variables (l1 : list hibernate_extent) (e : hibernate_extent) (l2 : list hibernate_extent).
Variables (start end_ : Z).
Hypothesis Hwf : wf_from 0 (l1 ++ e :: l2).
Hypothesis Hrange : start <= end_ < 2 ^ 64.
Hypothesis Hfree : range_free (l1 ++ e :: l2) start end_.
Hypothesis Hbefore : ext_start e < start.
Hypothesis Hafter : forall n, l2 !! 0%nat = Some n -> start <= ext_start n.

Lemma add_at_gap :
  ext_end e < start /\ (forall n, l2 !! 0%nat = Some n -> end_ + 1 <= ext_start n).
Proof using All.
  apply wf_from_app in Hwf as [_ (?&?&Hl2)].
  apply Forall_app in Hfree as [_ [He Hf2]%Forall_cons_1].
  split; [lia|]. by eapply range_free_after.
Qed.

Lemma add_at_new : wf_from 0 (l1 ++ e :: Ext start end_ :: l2).
Proof using All.
  destruct add_at_gap as [? Hn].
  apply wf_from_app in Hwf as [? (?&?&Hl2)]. apply wf_from_app. simpl.
  repeat split; auto; try lia. by eapply wf_from_head.
Qed.

Lemma add_at_extend : ext_end e + 1 = start -> wf_from 0 (l1 ++ Ext (ext_start e) end_ :: l2).
Proof using All.
  intros ?. destruct add_at_gap as [? Hn].
  apply wf_from_app in Hwf as [? (?&?&Hl2)]. apply wf_from_app. simpl.
  repeat split; auto; try lia. by eapply wf_from_head.
Qed.
End AddAt.

Lemma add_at_join l1 e n l2 :
  wf_from 0 (l1 ++ e :: n :: l2) -> wf_from 0 (l1 ++ Ext (ext_start e) (ext_end n) :: l2).
Proof.
  intros [? (?&?&?&?&?)]%wf_from_app. apply wf_from_app. simpl.
  repeat split; auto; lia.
Qed.

Lemma split_at {A} (l : list A) i x :
  l !! i = Some x -> exists l1 l2, l = l1 ++ x :: l2 /\ length l1 = i /\
    take i l = l1 /\ take (S i) l = l1 ++ [x] /\ drop (S i) l = l2 /\
    (forall k, l !! (S i + k)%nat = l2 !! k).
Proof.
  intros H. exists (take i l), (drop (S i) l).
  split; [by rewrite take_drop_middle|].
  split; [apply length_take_le; apply lookup_lt_Some in H; lia|].
  repeat split; [by apply take_S_r|]. intros k. by rewrite lookup_drop.
Qed.

Lemma add_new_extent_ok c cur start end_ :
  wf_chain c -> 0 <= start <= end_ -> end_ < 2 ^ 64 ->
  range_free (chain_exts c) start end_ -> find_place c start = cur ->
  exists c', add_new_extent true c cur start end_ = (c', 0) /\ added c c' start end_.
Proof.
  intros Hwf ? ? Hfree Hcur. unfold add_new_extent. destruct cur as [i|].
  - apply find_place_Some in Hcur as (e & He & Hlt & Hn).
    apply split_at in He as (l1 & l2 & Hl & Hi & _ & -> & -> & Hk).
    rewrite Hl in *. rewrite <- app_assoc. simpl.
    eexists. split; [reflexivity|]. pose proof (wf_sorted _ Hwf) as Hs. rewrite Hl in Hs.
    apply added_intro; simpl; auto.
    + apply add_at_new; auto; [lia|]. intros n Hn'. apply Hn.
      by rewrite <- (Hk 0%nat), Nat.add_0_r in Hn'.
    + rewrite Hl, !exts_total_app. simpl. unfold ext_len. simpl. lia.
    + rewrite (wf_num _ Hwf), Hl, s32_add_l, !length_app. simpl. f_equal. lia.
    + intros j [= <-]. rewrite length_app. simpl. lia.
    + unfold chain_blocks. simpl. rewrite Hl, !exts_blocks_app. simpl.
      change (ext_blocks (Ext start end_)) with (seqZ start (end_ - start + 1)).
      solve_Permutation.
  - eexists. split; [reflexivity|]. pose proof (wf_sorted _ Hwf) as Hs.
    apply added_intro; simpl; auto; try lia.
    + repeat split; try lia. eapply wf_from_head; [done|].
      eapply range_free_after; eauto using find_place_None.
    + unfold ext_len. simpl. lia.
    + rewrite (wf_num _ Hwf), s32_add_l. f_equal. lia.
    + intros j [= <-]. lia.
    + unfold chain_blocks. simpl. apply Permutation_app_comm.
Qed.

(** Growing the extent before the range, and merging it with the next one. *)
Section Merge.
Variables (c : hibernate_extent_chain) (l1 l2 : list hibernate_extent).
Variables (e : hibernate_extent) (start end_ : Z).
Hypothesis Hwf : wf_chain c.
Hypothesis Hl : chain_exts c = l1 ++ e :: l2.
Hypothesis Hrange : 0 <= start /\ start <= end_ < 2 ^ 64.
Hypothesis Hfree : range_free (chain_exts c) start end_.
Hypothesis Hafter : forall n, l2 !! 0%nat = Some n -> start <= ext_start n.
Hypothesis Hend : ext_end e = start - 1.

Let size' := s32 (chain_size c + u64 (end_ - start + 1)).

Lemma merge_bounds : 0 <= ext_start e <= ext_end e.
Proof using All.
  assert (e ∈ chain_exts c) as He by (rewrite Hl; apply elem_of_app; right; by left).
  pose proof (wf_from_elem _ _ _ (wf_sorted _ Hwf) He). lia.
Qed.

Lemma grow_blocks :
  ext_blocks (Ext (ext_start e) end_) = ext_blocks e ++ seqZ start (end_ - start + 1).
Proof using All.
  pose proof merge_bounds. rewrite (ext_blocks_join _ (ext_end e) _ start) by lia.
  destruct e; simpl in *. repeat f_equal; lia.
Qed.

Lemma grow_wf : wf_from 0 (l1 ++ Ext (ext_start e) end_ :: l2).
Proof using All.
  pose proof merge_bounds. pose proof (wf_sorted _ Hwf) as Hs. rewrite Hl in Hs, Hfree.
  apply (add_at_extend l1 e l2 start end_); auto; lia.
Qed.

Lemma grow_added :
  added c (Chain size' (num_extents c) (l1 ++ Ext (ext_start e) end_ :: l2)
             (Some (length l1))) start end_.
Proof using All.
  pose proof grow_wf. apply added_intro; simpl; auto.
  - rewrite Hl, !exts_total_app. simpl. unfold ext_len. simpl. lia.
  - rewrite (wf_num _ Hwf), Hl, !length_app. done.
  - intros j [= <-]. rewrite length_app. simpl. lia.
  - unfold chain_blocks. simpl. rewrite Hl, !exts_blocks_app. simpl.
    rewrite grow_blocks. solve_Permutation.
Qed.

Lemma join_added n l2' :
  l2 = n :: l2' -> u64 (end_ + 1) = ext_start n ->
  added c (Chain size' (s32 (num_extents c - 1))
             (l1 ++ Ext (ext_start e) (ext_end n) :: l2') (Some (length l1))) start end_.
Proof using All.
  intros Hl2 Hj. pose proof merge_bounds. pose proof grow_wf as Hg. rewrite Hl2 in Hg.
  assert (end_ + 1 <= ext_start n /\ ext_start n <= ext_end n < 2 ^ 64) as [? ?]
    by (apply wf_from_app in Hg; simpl in Hg; lia).
  rewrite u64_small in Hj by lia.
  apply added_intro; simpl; auto.
  - by apply (add_at_join _ (Ext (ext_start e) end_)).
  - rewrite Hl, Hl2, !exts_total_app. simpl. unfold ext_len. simpl. lia.
  - rewrite (wf_num _ Hwf), Hl, Hl2, s32_sub_l, !length_app. simpl. f_equal. lia.
  - intros j [= <-]. rewrite length_app. simpl. lia.
  - unfold chain_blocks. simpl. rewrite Hl, Hl2, !exts_blocks_app. simpl.
    rewrite (ext_blocks_join _ end_ _ (ext_start n)), grow_blocks by lia.
    replace (seqZ (ext_start n) (ext_end n - end_)) with (ext_blocks n)
      by (unfold ext_blocks, ext_len; f_equal; lia).
    solve_Permutation.
Qed.
End Merge.

(** [toi_add_to_extent_chain] on every branch: success adds exactly the
    range; the only failure is [-ENOMEM], needs a failed allocation, and
    leaves the chain as it was. *)
Lemma add_to_extent_chain_spec mem c start end_ :
  wf_chain c -> (0 <= start /\ start <= end_ < 2 ^ 64) -> range_free (chain_exts c) start end_ ->
  exists c' ret, toi_add_to_extent_chain mem c start end_ = (c', ret) /\
    (ret = 0 /\ added c c' start end_ \/ ret = - ENOMEM /\ mem = false /\ c' = c).
Proof.
  intros Hwf Hr Hfree.
  assert (forall cur, find_place c start = cur -> exists c' ret,
    add_new_extent mem c cur start end_ = (c', ret) /\
    (ret = 0 /\ added c c' start end_ \/ ret = - ENOMEM /\ mem = false /\ c' = c)) as Hnew.
  { intros cur Hcur. destruct mem; [|by eauto 8].
    destruct (add_new_extent_ok c cur start end_) as (c' & -> & ?); auto; [lia..|].
    eauto 8. }
  unfold toi_add_to_extent_chain. destruct (find_place c start) as [i|] eqn:Hcur; [|by apply Hnew].
  pose proof (find_place_Some _ _ _ Hcur) as (e & He & Hlt & Hn). rewrite He.
  destruct (Z.eqb_spec (ext_end e) (u64 (start - 1))) as [Hend|]; [|by apply Hnew].
  pose proof (wf_from_elem _ _ _ (wf_sorted _ Hwf) (list_elem_of_lookup_2 _ _ _ He)).
  rewrite u64_small in Hend by lia.
  apply split_at in He as (l1 & l2 & Hl & <- & -> & _ & Hd & Hk).
  pose proof (Hk 0%nat) as Hk0. rewrite Nat.add_0_r in Hk0. rewrite Hk0 in *.
  replace (drop (S (S (length l1))) (chain_exts c)) with (drop 1 l2)
    by (rewrite <- Hd, drop_drop; f_equal; lia). rewrite Hd.
  destruct l2 as [|n l2]; simpl; [eauto 8 using grow_added|].
  destruct (Z.eqb_spec (u64 (end_ + 1)) (ext_start n)) as [Hj|];
    eauto 8 using grow_added, join_added.
Qed.

(** ** The iterator walks the tape *)

(** The invariant of an iterator: at the start, past the end, or at a block
    of an extent of a chain. *)
Record wf_iter (st : toi_extent_iterate_state) : Prop := {
  wfi_chains : Forall (fun c => wf_from 0 (chain_exts c)) (it_chains st);
  wfi_range : -1 <= current_chain st <= num_chains st;
  wfi_posn : match current_extent st with
    | Some i => exists e, exts_of (it_chains st) (current_chain st) !! i = Some e /\
        ext_start e <= current_offset st <= ext_end e
    | None => current_chain st = -1 \/ current_chain st = num_chains st
    end
}.

(** The part of the tape after the current block. *)
Definition rest_in_chain (st : toi_extent_iterate_state) : list Z :=
  match current_extent st with
  | Some i =>
      let exts := exts_of (it_chains st) (current_chain st) in
      match exts !! i with
      | Some e => seqZ (current_offset st + 1) (ext_end e - current_offset st)
                  ++ exts_blocks (drop (S i) exts)
      | None => []
      end
  | None => []
  end.

Definition rest_of (st : toi_extent_iterate_state) : list (Z * Z) :=
  map (pair (current_chain st)) (rest_in_chain st)
  ++ tape_from (current_chain st + 1) (drop (Z.to_nat (current_chain st + 1)) (it_chains st)).

Lemma exts_of_lookup cs n i e :
  exts_of cs n !! i = Some e ->
  exists c, 0 <= n /\ cs !! Z.to_nat n = Some c /\ exts_of cs n = chain_exts c.
Proof.
  unfold exts_of. destruct (Z.ltb_spec n 0); [done|].
  destruct (cs !! Z.to_nat n) as [c|] eqn:Hc; [|done]. eauto.
Qed.

Lemma exts_of_nat cs (k : nat) c :
  cs !! k = Some c -> exts_of cs (Z.of_nat k) = chain_exts c.
Proof.
  unfold exts_of. destruct (Z.ltb_spec (Z.of_nat k) 0); [lia|].
  rewrite Nat2Z.id. by intros ->.
Qed.

Lemma wf_iter_extent st i e :
  wf_iter st -> current_extent st = Some i ->
  exts_of (it_chains st) (current_chain st) !! i = Some e ->
  0 <= ext_start e /\ ext_start e <= current_offset st <= ext_end e /\
  ext_end e < 2 ^ 64 /\ 0 <= current_chain st < num_chains st /\
  wf_from 0 (exts_of (it_chains st) (current_chain st)).
Proof.
  intros Hwf Hi He. pose proof (wfi_posn _ Hwf) as Hp. rewrite Hi in Hp.
  destruct Hp as (e' & He' & Hoff). rewrite He in He'. injection He' as <-.
  pose proof (exts_of_lookup _ _ _ _ He) as (c & Hn & Hc & Hx).
  pose proof (Forall_lookup_1 _ _ _ _ (wfi_chains _ Hwf) Hc) as Hs. simpl in Hs.
  rewrite <- Hx in Hs.
  pose proof (wf_from_elem _ _ _ Hs (list_elem_of_lookup_2 _ _ _ He)).
  apply lookup_lt_Some in Hc. unfold num_chains. repeat split; auto; lia.
Qed.

(** Entering the next non-empty chain. *)
Lemma enter_chain_spec cs n off :
  Forall (fun c => wf_from 0 (chain_exts c)) cs ->
  match enter_chain cs n off with
  | (n', Some i, off') => i = 0%nat /\ exists k c e l,
      cs !! k = Some c /\ n' = n + Z.of_nat k /\ chain_exts c = e :: l /\
      off' = ext_start e /\ 0 <= ext_start e <= ext_end e /\
      tape_from n cs = (n', off') ::
        map (pair n') (seqZ (off' + 1) (ext_end e - off') ++ exts_blocks l)
        ++ tape_from (n' + 1) (drop (S k) cs)
  | (n', None, _) => n' = n + Z.of_nat (length cs) /\ tape_from n cs = []
  end.
Proof.
  revert n off. induction cs as [|c cs IH]; intros n off Hwf; simpl; [split; [lia|done]|].
  apply Forall_cons_1 in Hwf as [Hc Hcs].
  destruct (chain_exts c) as [|e l] eqn:Hx.
  - specialize (IH (n + 1) off Hcs).
    destruct (enter_chain cs (n + 1) off) as [[n' [i|]] off'];
      unfold chain_blocks; rewrite Hx; simpl.
    + destruct IH as (-> & k & c' & e & l & ? & ? & ? & ? & ? & ?).
      split; [done|]. exists (S k), c', e, l. repeat split; auto; try lia.
    + destruct IH as [-> ->]. split; [lia|done].
  - destruct Hc as (?&?&_). split; [done|]. exists 0%nat, c, e, l.
    rewrite Z.add_0_r. repeat split; auto; try lia.
    unfold chain_blocks. rewrite Hx. cbn [exts_blocks flat_map].
    rewrite ext_blocks_cons by lia. fold (exts_blocks l). done.
Qed.

Lemma step_in_chain_spec st :
  wf_iter st ->
  match step_in_chain st with
  | (Some i, off) =>
      let st' := IterState (it_chains st) (current_chain st) (Some i) off in
      wf_iter st' /\ rest_in_chain st = off :: rest_in_chain st'
  | (None, _) => rest_in_chain st = []
  end.
Proof.
  intros Hwf. pose proof (wfi_chains _ Hwf). pose proof (wfi_range _ Hwf).
  unfold step_in_chain, rest_in_chain.
  destruct (current_extent st) as [i|] eqn:Hi; [|done]. simpl.
  destruct (exts_of (it_chains st) (current_chain st) !! i) as [e|] eqn:He; [|done].
  destruct (wf_iter_extent _ _ _ Hwf Hi He) as (? & ? & ? & ? & Hs).
  destruct (Z.eqb_spec (current_offset st) (ext_end e)) as [Heq|Hne].
  - rewrite Heq, Z.sub_diag. simpl.
    destruct (exts_of (it_chains st) (current_chain st) !! S i) as [n|] eqn:Hn.
    + pose proof (wf_from_elem _ _ _ Hs (list_elem_of_lookup_2 _ _ _ Hn)).
      rewrite (drop_S _ _ _ Hn). cbn [exts_blocks flat_map].
      rewrite ext_blocks_cons by lia. simpl. rewrite Hn. split; [|done].
      split; simpl; auto. exists n. split; [done|lia].
    + by rewrite drop_ge by (by apply lookup_ge_None_1).
  - rewrite u64_small by lia. rewrite He. split.
    + split; simpl; auto. exists e. split; [done|lia].
    + rewrite seqZ_cons by lia. simpl. repeat f_equal; lia.
Qed.

(** One step of the iterator against the tape: the next cell, or the end. *)
Lemma extent_state_next_spec st :
  wf_iter st ->
  exists st' v, toi_extent_state_next st = (st', v) /\ wf_iter st' /\
    it_chains st' = it_chains st /\
    match rest_of st with
    | [] => toi_extent_state_eof st' = true /\ v = 0 /\ rest_of st' = []
    | (n, b) :: t => toi_extent_state_eof st' = false /\ v = b /\
        current_chain st' = n /\ current_offset st' = b /\ rest_of st' = t
    end.
Proof.
  intros Hwf. unfold toi_extent_state_next, toi_extent_state_eof.
  pose proof (wfi_chains _ Hwf) as Hch. pose proof (wfi_range _ Hwf) as Hr.
  pose proof (step_in_chain_spec _ Hwf) as Hstep.
  destruct (Z.eqb_spec (current_chain st) (num_chains st)) as [Heq|Hne].
  { assert (rest_of st = []) as Hrest.
    { unfold rest_of. rewrite drop_ge by (unfold num_chains in Heq; lia).
      unfold rest_in_chain. destruct (current_extent st) as [i|] eqn:Hi; [|done].
      destruct (exts_of (it_chains st) (current_chain st) !! i) eqn:He; [|done].
      destruct (wf_iter_extent _ _ _ Hwf Hi He) as (? & ? & ? & ? & ?). lia. }
    exists st, 0. rewrite Hrest. repeat split; auto; try apply Hwf; lia. }
  destruct (step_in_chain st) as [[i|] off].
  - destruct Hstep as [Hwf' Hrest]. eexists _, _. split; [reflexivity|].
    split; [done|]. split; [done|]. unfold rest_of at 1. rewrite Hrest. simpl.
    repeat split; auto. apply Z.eqb_neq. unfold num_chains in *. simpl. lia.
  - unfold rest_of at 1. rewrite Hstep. simpl.
    pose proof (enter_chain_spec (drop (Z.to_nat (current_chain st + 1)) (it_chains st))
      (current_chain st + 1) off (Forall_drop _ _ _ Hch)) as Hent.
    unfold num_chains in *.
    destruct (enter_chain _ _ off) as [[n' [i|]] off'].
    + destruct Hent as (-> & k & c & e & l & Hc & Hn & Hx & Hoff & ? & Htape).
      rewrite Htape. rewrite lookup_drop in Hc. pose proof (lookup_lt_Some _ _ _ Hc).
      pose proof (exts_of_nat _ _ _ Hc) as Hxs.
      replace (Z.of_nat (Z.to_nat (current_chain st + 1) + k)) with n' in Hxs by lia.
      rewrite Hx in Hxs. eexists _, _. split; [reflexivity|].
      split; [split; simpl; [done|unfold num_chains; simpl; lia|rewrite Hxs; exists e; split; [done|lia]]|].
      split; [done|]. simpl. repeat split; auto; [apply Z.eqb_neq; simpl; lia|].
      unfold rest_of, rest_in_chain. simpl. rewrite Hxs. simpl. f_equal.
      rewrite drop_drop. do 2 f_equal. lia.
    + destruct Hent as [Hn ->]. rewrite length_drop in Hn.
      eexists _, _. split; [reflexivity|]. unfold rest_of, num_chains in *. simpl.
      split; [split; unfold num_chains; simpl; auto; lia|].
      split; [done|]. split; [apply Z.eqb_eq; lia|]. split; [done|].
      by rewrite drop_ge by lia.
Qed.

(** [n] steps of the iterator and the cells they visit. *)
Fixpoint walk (n : nat) (st : toi_extent_iterate_state)
    : list (Z * Z) * toi_extent_iterate_state :=
  match n with
  | O => ([], st)
  | S n' =>
      let '(st1, v) := toi_extent_state_next st in
      let '(vs, st2) := walk n' st1 in
      ((current_chain st1, v) :: vs, st2)
  end.

Lemma walk_rest n st :
  wf_iter st -> (n <= length (rest_of st))%nat ->
  exists st', walk n st = (take n (rest_of st), st') /\ wf_iter st' /\
    it_chains st' = it_chains st /\ rest_of st' = drop n (rest_of st).
Proof.
  revert st. induction n as [|n IH]; intros st Hwf Hlen; cbn [walk].
  { exists st. by rewrite take_0, drop_0. }
  destruct (extent_state_next_spec st Hwf) as (st1 & v & -> & Hwf1 & Hch1 & Hr).
  destruct (rest_of st) as [|[m b] t]; [simpl in Hlen; lia|].
  destruct Hr as (_ & -> & -> & _ & Hr1).
  destruct (IH st1 Hwf1) as (st2 & -> & ? & Hch2 & Hr2); [rewrite Hr1; simpl in Hlen; lia|].
  exists st2. simpl. by rewrite <- Hr1, Hch2.
Qed.

Lemma walk_not_eof n st vs st' :
  wf_iter st -> n <> 0%nat -> (n <= length (rest_of st))%nat ->
  walk n st = (vs, st') -> toi_extent_state_eof st' = false.
Proof.
  intros Hwf Hn. revert st vs Hwf. induction n as [|n IH]; intros st vs Hwf Hl Hw; [done|].
  cbn [walk] in Hw.
  destruct (extent_state_next_spec st Hwf) as (st1 & v & Heq & Hwf1 & _ & Hr).
  rewrite Heq in Hw. destruct (walk n st1) as [vs1 st2] eqn:Hw1.
  injection Hw as _ Hst. rewrite <- Hst.
  destruct (rest_of st) as [|[m b] t]; [simpl in Hl; lia|].
  destruct Hr as (He & _ & _ & _ & Hr1). destruct n as [|n].
  - by injection Hw1 as _ <-.
  - rewrite Hst. rewrite Hst in Hw1.
    apply (IH ltac:(lia) st1 vs1 Hwf1); [rewrite Hr1; simpl in Hl; lia|done].
Qed.

Lemma goto_start_wf st :
  Forall (fun c => wf_from 0 (chain_exts c)) (it_chains st) ->
  wf_iter (toi_extent_state_goto_start st).
Proof. intros. split; unfold num_chains; simpl; auto; lia. Qed.

Lemma goto_start_rest st : rest_of (toi_extent_state_goto_start st) = tape (it_chains st).
Proof. done. Qed.

(** ** Saved positions *)

Lemma count_to_lookup l i idx n e :
  l !! i = Some e -> 0 <= n -> n + Z.of_nat (length l) < 2 ^ 31 ->
  count_to l idx (Some (idx + i)%nat) n = Some (n + Z.of_nat i).
Proof.
  revert i idx n. induction l as [|x l IH]; intros i idx n Hi Hn Hlen; [done|].
  cbn [count_to length] in *. destruct i as [|i]; simpl in Hi.
  - rewrite bool_decide_eq_true_2 by (f_equal; lia). f_equal. lia.
  - rewrite bool_decide_eq_false_2 by (intros [= ?]; lia).
    rewrite s32_small by lia. rewrite <- Nat.add_succ_comm.
    rewrite IH by (auto; lia). f_equal. lia.
Qed.

Lemma follow_lookup len i n :
  (i + n < len)%nat -> follow len (Some i) n = Some (Some (i + n)%nat).
Proof.
  revert i. induction n as [|n IH]; intros i Hlt; cbn [follow].
  - by rewrite Nat.add_0_r.
  - destruct (Nat.ltb_spec (S i) len); [|lia]. rewrite IH by lia. f_equal. f_equal. lia.
Qed.

Lemma relocated_lookup cs cs2 k c :
  map chain_exts cs2 = map chain_exts cs -> cs !! k = Some c ->
  exists c2, cs2 !! k = Some c2 /\ chain_exts c2 = chain_exts c.
Proof.
  intros Hm Hc. assert (map chain_exts cs2 !! k = Some (chain_exts c)) as Hx
    by (rewrite Hm; by rewrite list_lookup_fmap, Hc).
  rewrite list_lookup_fmap in Hx. destruct (cs2 !! k) as [c2|]; [|done].
  simplify_eq/=. eauto.
Qed.

Lemma tape_from_relocated n cs cs2 :
  map chain_exts cs2 = map chain_exts cs -> tape_from n cs2 = tape_from n cs.
Proof.
  revert n cs2. induction cs as [|c cs IH]; intros n [|c2 cs2]; intros [=]; [done|].
  simpl. unfold chain_blocks. rewrite (IH (n + 1) cs2) by done. by f_equal; congruence.
Qed.

Lemma rest_of_relocated st st2 :
  map chain_exts (it_chains st2) = map chain_exts (it_chains st) ->
  current_chain st2 = current_chain st -> current_extent st2 = current_extent st ->
  current_offset st2 = current_offset st -> rest_of st2 = rest_of st.
Proof.
  intros Hm Hc He Ho. unfold rest_of, rest_in_chain. rewrite Hc, He, Ho.
  assert (exts_of (it_chains st2) (current_chain st)
          = exts_of (it_chains st) (current_chain st)) as ->.
  { unfold exts_of. destruct (_ <? _); [done|].
    assert (chain_exts <$> it_chains st2 !! Z.to_nat (current_chain st)
            = chain_exts <$> it_chains st !! Z.to_nat (current_chain st)) as Hl
      by (rewrite <- !list_lookup_fmap; by f_equal).
    by destruct (it_chains st2 !! _), (it_chains st !! _); simplify_eq/=. }
  f_equal. apply tape_from_relocated. rewrite <- !skipn_map. by f_equal.
Qed.

(** Saving a position that is not past the end and restoring it, possibly
    over other chains holding the same extents. *)
Lemma save_restore_spec st :
  wf_iter st -> toi_extent_state_eof st = false ->
  Forall (fun c => Z.of_nat (length (chain_exts c)) < 2 ^ 31) (it_chains st) ->
  (current_chain st = -1 -> current_offset st = 0) ->
  exists sv, toi_extent_state_save st = Some sv /\
    forall st2, map chain_exts (it_chains st2) = map chain_exts (it_chains st) ->
    toi_extent_state_restore st2 sv =
      Some (IterState (it_chains st2) (current_chain st) (current_extent st)
              (current_offset st)).
Proof.
  intros Hwf Heof Hlen Hoff. unfold toi_extent_state_save, toi_extent_state_eof in *.
  apply Z.eqb_neq in Heof. pose proof (wfi_posn _ Hwf) as Hp.
  destruct (Z.eqb_spec (current_chain st) (-1)) as [Heq|Hne].
  { eexists. split; [done|]. intros st2 _. unfold toi_extent_state_restore. simpl.
    rewrite Heq, Hoff by done. destruct (current_extent st) as [i|]; [|done].
    destruct Hp as (e & He & _). by rewrite Heq in He. }
  destruct (current_extent st) as [i|] eqn:Hi; [|lia].
  destruct Hp as (e & He & _). pose proof (exts_of_lookup _ _ _ _ He) as (c & Hc0 & Hc & Hx).
  rewrite Hc. rewrite Hx in He. pose proof (Forall_lookup_1 _ _ _ _ Hlen Hc). simpl in *.
  pose proof (count_to_lookup (chain_exts c) i 0 0 e He ltac:(lia) ltac:(lia)) as Hct.
  rewrite Nat.add_0_l, Z.add_0_l in Hct. rewrite Hct.
  eexists. split; [done|]. intros st2 Hm.
  destruct (relocated_lookup _ _ _ _ Hm Hc) as (c2 & Hc2 & Hx2).
  unfold toi_extent_state_restore. cbn [chain_num extent_num saved_offset].
  destruct (Z.eqb_spec (current_chain st) (-1)); [lia|].
  destruct (Z.ltb_spec (Z.of_nat i) 0); [lia|].
  rewrite Hc2, Hx2, Nat2Z.id. pose proof (lookup_lt_Some _ _ _ He).
  destruct (Nat.ltb_spec 0 (length (chain_exts c))); [|lia].
  rewrite follow_lookup by lia. done.
Qed.

(** ** Chains in the image header *)

Definition chain_bytes (c : hibernate_extent_chain) : list Z :=
  chain_prefix_bytes c ++ flat_map extent_bytes (chain_exts c).

Lemma extent_bytes_length e : length (extent_bytes e) = 16%nat.
Proof. unfold extent_bytes. by rewrite length_app, !length_le_bytes. Qed.

Lemma chain_prefix_length c : length (chain_prefix_bytes c) = 8%nat.
Proof. unfold chain_prefix_bytes. by rewrite length_app, !length_le_bytes. Qed.

Lemma extent_bytes_decode e :
  0 <= ext_start e <= ext_end e -> ext_end e < 2 ^ 64 ->
  Ext (le_val (take 8 (extent_bytes e))) (le_val (drop 8 (extent_bytes e))) = e.
Proof.
  intros ? ?. unfold extent_bytes.
  rewrite (take_app_length' (le_bytes 8 _)), (drop_app_length' (le_bytes 8 _)),
    !le_val_bytes8, !u64_small by (lia || by rewrite length_le_bytes).
  by destruct e.
Qed.

Section SerialiseFacts.
Context {W : Type} `{HeaderWriter W} {R : Type} `{HeaderReader R}.

Lemma write_extents_ok o l w ret i w' ret' i' acc :
  write_extents o l w ret i = (w', ret', i') -> ret = 0 -> ret' = 0 -> hw_content w acc ->
  hw_content w' (acc ++ flat_map extent_bytes l) /\
  (s32 i = i -> i' = s32 (i + Z.of_nat (length l))).
Proof.
  revert w ret i acc. induction l as [|e l IH]; intros w ret i acc Hw -> -> Hc; simpl in *.
  - simplify_eq. rewrite app_nil_r, Z.add_0_r. auto.
  - destruct (hw_chunk o (extent_bytes e) w) as [w1 r] eqn:Hch.
    destruct (Z.eqb_spec r 0) as [->|]; [|by simplify_eq].
    eapply hw_chunk_ok in Hch; [|exact Hc].
    destruct (IH _ _ _ _ Hw eq_refl eq_refl Hch) as [Hc' Hi].
    rewrite <- app_assoc in Hc'. split; [done|]. intros _.
    rewrite Hi by apply s32_idemp. rewrite s32_add_l. f_equal. lia.
Qed.

Lemma serialise_ok o c w w' acc :
  hw_content w acc -> toi_serialise_extent_chain o c w = (w', 0) ->
  hw_content w' (acc ++ chain_bytes c) /\
  num_extents c = s32 (Z.of_nat (length (chain_exts c))).
Proof.
  unfold toi_serialise_extent_chain. intros Hc Hs.
  destruct (hw_chunk o (chain_prefix_bytes c) w) as [w1 ret] eqn:Hch.
  destruct (Z.eqb_spec ret 0) as [->|]; simpl in Hs; [|by simplify_eq].
  destruct (write_extents o (chain_exts c) w1 0 0) as [[w2 ret2] i] eqn:Hw.
  destruct (Z.eqb_spec ret2 0) as [->|]; simpl in Hs; [|by simplify_eq].
  destruct (Z.eqb_spec i (num_extents c)) as [<-|]; simpl in Hs; simplify_eq.
  eapply hw_chunk_ok in Hch; [|exact Hc].
  destruct (write_extents_ok _ _ _ _ _ _ _ _ _ Hw eq_refl eq_refl Hch) as [Hc' Hi].
  rewrite <- app_assoc in Hc'. split; [done|]. by apply Hi.
Qed.

Lemma load_extents_ok l lo i acc r rest :
  wf_from lo l -> 0 <= lo -> hr_pending r (flat_map extent_bytes l ++ rest) ->
  exists r', load_extents (fun _ => true) (length l) i acc r = (r', acc ++ l, 0) /\
    hr_pending r' rest.
Proof.
  revert lo i acc r. induction l as [|e l IH]; intros lo i acc r Hwf Hlo Hp;
    cbn [flat_map load_extents length wf_from] in *.
  - rewrite app_nil_r. eauto.
  - destruct Hwf as (?&?&Hl). rewrite <- app_assoc in Hp.
    apply hr_chunk_ok in Hp as (r1 & Hch & Hp1).
    rewrite extent_bytes_length in Hch. rewrite Hch. cbn [Z.eqb].
    rewrite extent_bytes_decode by lia.
    destruct (IH _ (S i) (acc ++ [e]) r1 Hl ltac:(lia) Hp1) as (r2 & Hld & Hp2).
    rewrite Hld, <- app_assoc. eauto.
Qed.

Lemma load_ok c0 c r rest :
  wf_chain c -> Z.of_nat (length (chain_exts c)) < 2 ^ 31 -> chain_exts c0 = [] ->
  hr_pending r (chain_bytes c ++ rest) ->
  exists r', toi_load_extent_chain (fun _ => true) c0 r =
      (r', Chain (chain_size c) (num_extents c) (chain_exts c) (last_touched c0), 0) /\
    hr_pending r' rest.
Proof.
  intros Hwf Hlen Hnil Hp. unfold toi_load_extent_chain, chain_bytes in *.
  rewrite <- app_assoc in Hp. apply hr_chunk_ok in Hp as (r1 & Hch & Hp1).
  rewrite chain_prefix_length in Hch. rewrite Hch. cbn [Z.eqb negb].
  unfold chain_prefix_bytes.
  rewrite (take_app_length' (le_bytes 4 _)), (drop_app_length' (le_bytes 4 _)),
    !le_val_bytes4, !s32_u32 by (by rewrite length_le_bytes).
  rewrite (wf_num _ Hwf), s32_idemp, (s32_small (Z.of_nat _)), Nat2Z.id by lia.
  destruct (load_extents_ok _ _ 0 [] r1 rest (wf_sorted _ Hwf) ltac:(lia) Hp1)
    as (r2 & -> & Hp2).
  rewrite (wf_size _ Hwf), s32_idemp, Hnil. simpl.
  exists r2. split; [|done]. by destruct (chain_exts c).
Qed.
End SerialiseFacts.

(** ** [toi_extent_for_each] *)

Lemma for_each_values_spec l i e value fuel :
  wf_from 0 l -> l !! i = Some e -> ext_start e <= value <= ext_end e ->
  (length (seqZ value (ext_end e - value + 1) ++ exts_blocks (drop (S i) l)) < fuel)%nat ->
  for_each_values fuel l (Some i) value =
    Some (seqZ value (ext_end e - value + 1) ++ exts_blocks (drop (S i) l)).
Proof.
  revert i e value. induction fuel as [|fuel IH]; intros i e value Hwf He Hv Hf; [lia|].
  pose proof (wf_from_elem _ _ _ Hwf (list_elem_of_lookup_2 _ _ _ He)).
  rewrite seqZ_cons in * by lia. cbn [for_each_values]. rewrite He.
  destruct (Z.leb_spec value (ext_end e)); [|lia]. rewrite orb_true_r.
  unfold for_each_step. destruct (Z.eqb_spec value (ext_end e)) as [->|].
  - rewrite Z.sub_diag in *. simpl in *. destruct (l !! S i) as [n|] eqn:Hn.
    + pose proof (wf_from_elem _ _ _ Hwf (list_elem_of_lookup_2 _ _ _ Hn)).
      rewrite (drop_S _ _ _ Hn) in *. cbn [exts_blocks flat_map] in *.
      change (ext_blocks n) with (seqZ (ext_start n) (ext_end n - ext_start n + 1)) in *.
      fold (exts_blocks (drop (S (S i)) l)) in *.
      rewrite IH with (e := n) by (auto; lia). done.
    + rewrite drop_ge in * by (by apply lookup_ge_None_1). simpl in *.
      destruct fuel; [lia|done].
  - rewrite u64_small by lia. simpl in Hf.
    replace (Z.pred (ext_end e - value + 1)) with (ext_end e - (value + 1) + 1) in * by lia.
    replace (Z.succ value) with (value + 1) in * by lia.
    rewrite IH with (e := e) by (auto; lia). done.
Qed.

Lemma for_each_blocks c fuel :
  wf_from 0 (chain_exts c) -> (length (chain_blocks c) < fuel)%nat ->
  toi_extent_for_each fuel c = Some (chain_blocks c).
Proof.
  unfold toi_extent_for_each, chain_blocks. intros Hwf Hf.
  destruct (chain_exts c) as [|e l]; [done|].
  pose proof (wf_from_elem _ _ e Hwf ltac:(by left)).
  apply for_each_values_spec; auto; lia.
Qed.

(** ** Emptying a chain *)

Lemma put_extents_count l n : put_extents l (s32 n) = s32 (n - Z.of_nat (length l)).
Proof.
  revert n. induction l as [|e l IH]; intros n; cbn [put_extents length].
  - by rewrite Z.sub_0_r.
  - rewrite s32_sub_l, IH. f_equal. lia.
Qed.

Lemma put_wf c : wf_chain c -> wf_chain (toi_put_extent_chain c).
Proof.
  intros [_ _ Hn _]. split; try done. cbn [toi_put_extent_chain num_extents chain_exts length].
  rewrite Hn, put_extents_count. f_equal. lia.
Qed.

(** ** The properties of the component *)

Definition two_extents : hibernate_extent_chain :=
  Chain 5 2 [Ext 3 4; Ext 10 12] (Some 1%nat).

Lemma two_extents_wf : wf_chain two_extents.
Proof. split; simpl; try lia; try done. intros i [= <-]. lia. Qed.

(** C39: adding a range that overlaps no extent of a well-formed chain either
    succeeds, and then the chain is well-formed (sorted, disjoint, size and
    extent count right modulo 2^32) and holds exactly the old blocks and the
    new ones; or returns -ENOMEM, which needs a failed allocation, and leaves
    the chain untouched. *)
Theorem add_to_extent_chain_correct mem c start end_ :
  wf_chain c -> (0 <= start /\ start <= end_ < 2 ^ 64) ->
  range_free (chain_exts c) start end_ ->
  exists c' ret, toi_add_to_extent_chain mem c start end_ = (c', ret) /\
    (ret = 0 /\ wf_chain c' /\
       chain_blocks c' ≡ₚ chain_blocks c ++ seqZ start (end_ - start + 1)
     \/ ret = - ENOMEM /\ mem = false /\ c' = c).
Proof. apply add_to_extent_chain_spec. Qed.

Lemma add_to_extent_chain_correct_witness :
  exists c' ret, toi_add_to_extent_chain false two_extents 5 9 = (c', ret) /\
    (ret = 0 /\ wf_chain c' /\
       chain_blocks c' ≡ₚ chain_blocks two_extents ++ seqZ 5 (9 - 5 + 1)
     \/ ret = - ENOMEM /\ false = false /\ c' = two_extents).
Proof.
  apply (add_to_extent_chain_correct false two_extents 5 9); [apply two_extents_wf|lia|].
  repeat constructor; simpl; lia.
Defined.

(** From the start position, stepping the iterator as many times as the
    chains have blocks visits every block of every chain in order (empty
    chains skipped), never reporting the end early; the next step reports the
    end and returns 0. *)
Theorem iterator_visits_tape st :
  Forall (fun c => wf_from 0 (chain_exts c)) (it_chains st) ->
  exists st' st'', 
    walk (length (tape (it_chains st))) (toi_extent_state_goto_start st)
      = (tape (it_chains st), st') /\
    (tape (it_chains st) <> [] -> toi_extent_state_eof st' = false) /\
    toi_extent_state_next st' = (st'', 0) /\ toi_extent_state_eof st'' = true.
Proof.
  intros Hwf. pose proof (goto_start_wf st Hwf) as Hs.
  pose proof (goto_start_rest st) as Hr.
  destruct (walk_rest (length (tape (it_chains st))) _ Hs) as (st' & Hw & Hwf' & Hch & Hrest);
    [by rewrite Hr|].
  rewrite Hr, firstn_all, drop_all in *.
  destruct (extent_state_next_spec st' Hwf') as (st'' & v & Hn & _ & _ & Hend).
  rewrite Hrest in Hend. destruct Hend as (He & -> & _). exists st', st''.
  split; [done|]. split; [|done]. intros Hne.
  eapply walk_not_eof; [exact Hs| |by rewrite Hr|exact Hw].
  by destruct (tape (it_chains st)).
Qed.

Lemma iterator_visits_tape_witness :
  let st := IterState [two_extents; empty_chain; two_extents] 2 None 7 in
  exists st' st'',
    walk (length (tape (it_chains st))) (toi_extent_state_goto_start st)
      = (tape (it_chains st), st') /\
    (tape (it_chains st) <> [] -> toi_extent_state_eof st' = false) /\
    toi_extent_state_next st' = (st'', 0) /\ toi_extent_state_eof st'' = true.
Proof.
  intros st. apply (iterator_visits_tape st).
  repeat constructor; simpl; lia.
Defined.

(** A position that is not past the end, once saved, is restored to the
    same chain, extent and offset over any array of chains with the same
    extents (the chains reloaded at resume time), and the blocks still to
    come are the same. *)
Theorem save_restore_relocated st :
  wf_iter st -> toi_extent_state_eof st = false ->
  Forall (fun c => Z.of_nat (length (chain_exts c)) < 2 ^ 31) (it_chains st) ->
  (current_chain st = -1 -> current_offset st = 0) ->
  exists sv, toi_extent_state_save st = Some sv /\
    forall st2, map chain_exts (it_chains st2) = map chain_exts (it_chains st) ->
    exists st', toi_extent_state_restore st2 sv = Some st' /\
      it_chains st' = it_chains st2 /\ current_chain st' = current_chain st /\
      current_extent st' = current_extent st /\ current_offset st' = current_offset st /\
      rest_of st' = rest_of st.
Proof.
  intros Hwf He Hl Ho. destruct (save_restore_spec st Hwf He Hl Ho) as (sv & Hs & Hr).
  exists sv. split; [done|]. intros st2 Hm. eexists. split; [by apply Hr|].
  repeat split. by apply rest_of_relocated.
Qed.

Lemma save_restore_relocated_witness :
  let st := IterState [empty_chain; two_extents] 1 (Some 1%nat) 11 in
  exists sv, toi_extent_state_save st = Some sv /\
    forall st2, map chain_exts (it_chains st2) = map chain_exts (it_chains st) ->
    exists st', toi_extent_state_restore st2 sv = Some st' /\
      it_chains st' = it_chains st2 /\ current_chain st' = current_chain st /\
      current_extent st' = current_extent st /\ current_offset st' = current_offset st /\
      rest_of st' = rest_of st.
Proof.
  intros st. apply (save_restore_relocated st).
  - split; simpl; [repeat constructor; simpl; lia|unfold num_chains; simpl; lia|].
    exists (Ext 10 12). simpl. split; [done|lia].
  - reflexivity.
  - repeat constructor; simpl; lia.
  - simpl. lia.
Defined.

(** A chain serialised without error and loaded from a header stream that
    holds the bytes written comes back with the same size, count and extents,
    and leaves the stream right after them. *)
Theorem serialise_load_roundtrip {W R : Type} `{HeaderWriter W} `{HeaderReader R}
    o c c0 (w w' : W) (r : R) acc rest :
  wf_chain c -> Z.of_nat (length (chain_exts c)) < 2 ^ 31 -> chain_exts c0 = [] ->
  hw_content w acc -> toi_serialise_extent_chain o c w = (w', 0) ->
  (forall bs, hw_content w' (acc ++ bs) -> hr_pending r (bs ++ rest)) ->
  exists r', toi_load_extent_chain (fun _ => true) c0 r =
      (r', Chain (chain_size c) (num_extents c) (chain_exts c) (last_touched c0), 0) /\
    hr_pending r' rest.
Proof.
  intros Hwf Hlen H0' Hc Hs Hp. apply load_ok; auto. apply Hp.
  by apply (serialise_ok o c w w' acc).
Qed.

Lemma serialise_load_roundtrip_witness :
  exists r', toi_load_extent_chain (R := list Z) (fun _ => true) empty_chain
      (chain_bytes two_extents ++ [7]) =
      (r', Chain 5 2 [Ext 3 4; Ext 10 12] None, 0) /\ hr_pending r' [7].
Proof.
  apply (serialise_load_roundtrip None two_extents empty_chain [1; 2]
    ([1; 2] ++ chain_bytes two_extents) _ [1; 2] [7]).
  - apply two_extents_wf.
  - simpl. lia.
  - reflexivity.
  - reflexivity.
  - vm_compute. reflexivity.
  - intros bs Hb. apply app_inv_head in Hb.
    change (chain_bytes two_extents ++ [7] = bs ++ [7]). by rewrite Hb.
Defined.

(** With fuel above the number of blocks, [toi_extent_for_each] ends, and
    its body sees exactly the blocks of the chain, in order. *)
Theorem extent_for_each_enumerates c fuel :
  wf_from 0 (chain_exts c) -> (length (chain_blocks c) < fuel)%nat ->
  toi_extent_for_each fuel c = Some (chain_blocks c).
Proof. apply for_each_blocks. Qed.

Lemma extent_for_each_enumerates_witness :
  toi_extent_for_each 6 two_extents = Some (chain_blocks two_extents).
Proof.
  apply (extent_for_each_enumerates two_extents 6); [apply two_extents_wf|].
  vm_compute. lia.
Defined.

(** Saving the position of an iterator that has run past the last chain
    reads the array of chains out of its bounds. *)
Theorem save_at_eof_out_of_bounds st :
  toi_extent_state_eof st = true -> toi_extent_state_save st = None.
Proof.
  unfold toi_extent_state_eof, toi_extent_state_save, num_chains. intros He.
  apply Z.eqb_eq in He. rewrite <- He. destruct (Z.eqb_spec (Z.of_nat (length (it_chains st))) (-1)); [lia|].
  rewrite Nat2Z.id. by rewrite lookup_ge_None_2.
Qed.

Lemma save_at_eof_out_of_bounds_witness :
  toi_extent_state_save (IterState [two_extents] 1 None 0) = None.
Proof. apply save_at_eof_out_of_bounds. reflexivity. Defined.
