(* ===== verification/BitScan.v ===== *)
(** * Bit scanning: lib/find_next_bit.c

    A memory region is the number whose binary digits are its bits, in the
    little-endian order the kernel's bitops use; [word_at] is an aligned
    64-bit load from it.  The word-at-a-time [find_next_bit] is shown to
    compute the least set bit at or after an offset. *)

From S2P Require Import Prelude.
From stdpp Require Import base list numbers.
#[local] Open Scope Z_scope.

Definition BITS_PER_LONG : Z := 64.

Definition BITOP_WORD (nr : Z) : Z := nr / BITS_PER_LONG.

(** [~0UL]. *)
Definition all_ones : Z := 2 ^ 64 - 1.

(** The unsigned long at index [k] of the region. *)
Definition word_at (data k : Z) : Z := Z.land (Z.shiftr data (64 * k)) all_ones.

Fixpoint ffs_from (n : nat) (i w : Z) : Z :=
  match n with
  | O => i
  | S n' => if Z.testbit w i then i else ffs_from n' (i + 1) w
  end.

(** [__ffs], the [bsf] instruction; meaningful for a non-zero word. *)
Definition __ffs (w : Z) : Z := ffs_from 63 0 w.

(** The labels [found_first] and [found_middle]. *)
Definition found_middle (result tmp : Z) : Z := result + __ffs tmp.

Definition found_first (result size tmp : Z) : Z :=
  let tmp := Z.land tmp (Z.shiftr all_ones (BITS_PER_LONG - size)) in
  if tmp =? 0 then result + size else found_middle result tmp.

(** [while (size & ~(BITS_PER_LONG-1))]: [n] full words remain. *)
Fixpoint scan_words (n : nat) (data p result size : Z) : Z :=
  match n with
  | O => if size =? 0 then result else found_first result size (word_at data p)
  | S n' =>
      let tmp := word_at data p in
      if negb (tmp =? 0) then found_middle result tmp
      else scan_words n' data (p + 1) (result + BITS_PER_LONG) (size - BITS_PER_LONG)
  end.

Definition find_next_bit (data size offset : Z) : Z :=
  let p := BITOP_WORD offset in
  let result := Z.land offset (Z.lnot (BITS_PER_LONG - 1)) in
  if size <=? offset then size
  else
    let size := size - result in
    let offset := offset mod BITS_PER_LONG in
    if negb (offset =? 0) then
      let tmp := Z.land (word_at data p) (u64 (Z.shiftl all_ones offset)) in
      if size <? BITS_PER_LONG then found_first result size tmp
      else if negb (tmp =? 0) then found_middle result tmp
      else
        let size := size - BITS_PER_LONG in
        scan_words (Z.to_nat (size / BITS_PER_LONG)) data (p + 1)
                   (result + BITS_PER_LONG) size
    else scan_words (Z.to_nat (size / BITS_PER_LONG)) data p result size.

(** ** Reference: the least set bit *)

(** [r] is the first set bit of [data] in [offset .. size), [size] if none. *)
Definition next_set_bit (data size offset r : Z) : Prop :=
  (forall i, offset <= i < r -> Z.testbit data i = false) /\
  (r = size \/ offset <= r < size /\ Z.testbit data r = true).

Lemma next_set_bit_unique data size offset r r' :
  next_set_bit data size offset r -> next_set_bit data size offset r' ->
  offset <= size -> r = r'.
Proof.
  intros [H1 Hr] [H2 Hr'] Hle. destruct (Z.lt_trichotomy r r') as [Hlt|[|Hlt]]; [|done|].
  - destruct Hr as [->|[? Hb]]; [lia|]. rewrite H2 in Hb; [done|lia].
  - destruct Hr' as [->|[? Hb]]; [lia|]. rewrite H1 in Hb; [done|lia].
Qed.

Lemma word_at_testbit data k j :
  0 <= k -> 0 <= j -> Z.testbit (word_at data k) j = (j <? 64) && Z.testbit data (64 * k + j).
Proof.
  intros. unfold word_at. rewrite Z.land_spec, Z.shiftr_spec by lia.
  change all_ones with (Z.ones 64). rewrite Z.testbit_ones by lia.
  destruct (Z.leb_spec 0 j); [|lia]. rewrite andb_comm. do 2 f_equal. lia.
Qed.

Lemma ffs_from_spec n i w :
  0 <= i -> (exists j, i <= j <= i + Z.of_nat n /\ Z.testbit w j = true) ->
  (forall j, i <= j < ffs_from n i w -> Z.testbit w j = false) /\
  Z.testbit w (ffs_from n i w) = true /\ i <= ffs_from n i w <= i + Z.of_nat n.
Proof.
  revert i. induction n as [|n IH]; intros i Hi (j & Hj & Hb); cbn [ffs_from].
  - replace j with i in Hb by lia. repeat split; auto; lia.
  - destruct (Z.testbit w i) eqn:Hw; [repeat split; auto; lia|].
    assert (i <> j) by congruence.
    destruct (IH (i + 1)) as (H1 & H2 & H3); [lia|exists j; split; [lia|done]|].
    repeat split; auto; try lia. intros j' ?.
    destruct (Z.eq_dec j' i) as [->|]; [done|]. apply H1. lia.
Qed.

(** A non-zero word has a set bit among its 64. *)
Lemma nonzero_word w :
  w <> 0 -> (forall j, 64 <= j -> Z.testbit w j = false) -> 0 <= w ->
  exists j, 0 <= j <= 63 /\ Z.testbit w j = true.
Proof.
  intros Hw Hhi Hpos. exists (Z.log2 w). assert (0 < w) by lia.
  pose proof (Z.log2_nonneg w). pose proof (Z.bit_log2 w ltac:(lia)) as Hb. split; [|done].
  destruct (Z.le_gt_cases (Z.log2 w) 63); [lia|]. rewrite Hhi in Hb by lia. done.
Qed.

Lemma ffs_spec w :
  w <> 0 -> (forall j, 64 <= j -> Z.testbit w j = false) -> 0 <= w ->
  (forall j, 0 <= j < __ffs w -> Z.testbit w j = false) /\
  Z.testbit w (__ffs w) = true /\ 0 <= __ffs w < 64.
Proof.
  intros Hw Hhi Hpos. unfold __ffs.
  destruct (ffs_from_spec 63 0 w) as (H1 & H2 & H3); [lia| |].
  - destruct (nonzero_word w) as (j & ? & ?); auto. exists j. split; [lia|done].
  - repeat split; auto; lia.
Qed.

(** [tmp] holds the bits [lo .. hi) of the word of [data] that starts at bit
    [result]. *)
Definition window (data result lo hi tmp : Z) : Prop :=
  0 <= tmp /\ 0 <= lo /\ hi <= 64 /\
  forall j, 0 <= j -> Z.testbit tmp j = (lo <=? j) && (j <? hi) && Z.testbit data (result + j).

Lemma window_word data k : 0 <= k -> window data (64 * k) 0 64 (word_at data k).
Proof.
  intros. unfold window. repeat split; try lia.
  - unfold word_at. apply Z.land_nonneg. right. done.
  - intros j ?. rewrite word_at_testbit by lia.
    destruct (Z.leb_spec 0 j); [done|lia].
Qed.

Lemma window_from data result hi tmp o :
  window data result 0 hi tmp -> 0 <= o < 64 ->
  window data result o hi (Z.land tmp (u64 (Z.shiftl all_ones o))).
Proof.
  intros (? & _ & ? & Hb) Ho. unfold window. repeat split; try lia.
  - apply Z.land_nonneg. lia.
  - intros j ?. unfold u64. rewrite Z.land_spec, Hb by lia.
    rewrite <- Z.land_ones, Z.land_spec, Z.shiftl_spec by lia.
    change all_ones with (Z.ones 64). rewrite !Z.testbit_ones by lia.
    destruct (Z.leb_spec 0 j), (Z.leb_spec o j), (Z.leb_spec 0 (j - o)); try lia;
      destruct (Z.ltb_spec j hi), (Z.ltb_spec (j - o) 64), (Z.ltb_spec j 64); try lia;
      by rewrite ?andb_true_r, ?andb_false_r.
Qed.

Lemma window_upto data result lo tmp size :
  window data result lo 64 tmp -> 0 < size <= 64 ->
  window data result lo size (Z.land tmp (Z.shiftr all_ones (BITS_PER_LONG - size))).
Proof.
  intros (? & ? & _ & Hb) Hs. unfold window, BITS_PER_LONG. repeat split; try lia.
  - apply Z.land_nonneg. lia.
  - intros j ?. rewrite Z.land_spec, Hb, Z.shiftr_spec by lia.
    change all_ones with (Z.ones 64). rewrite Z.testbit_ones by lia.
    destruct (Z.leb_spec lo j), (Z.ltb_spec j 64), (Z.leb_spec 0 (j + (64 - size))),
      (Z.ltb_spec (j + (64 - size)) 64), (Z.ltb_spec j size); try lia;
      by rewrite ?andb_true_r, ?andb_false_r.
Qed.

Lemma window_zero data result lo hi i :
  window data result lo hi 0 -> result + lo <= i < result + hi -> Z.testbit data i = false.
Proof.
  intros (_ & ? & ? & Hb) ?. specialize (Hb (i - result) ltac:(lia)).
  rewrite Z.bits_0 in Hb. replace (result + (i - result)) with i in Hb by lia.
  destruct (Z.leb_spec lo (i - result)), (Z.ltb_spec (i - result) hi); try lia.
  by simpl in Hb.
Qed.

Lemma found_middle_ok data result lo hi tmp size :
  window data result lo hi tmp -> tmp <> 0 -> result + hi <= size ->
  next_set_bit data size (result + lo) (found_middle result tmp).
Proof.
  intros (Ht & Hlo & Hhi & Hb) Hnz Hsz. unfold found_middle.
  destruct (ffs_spec tmp Hnz) as (H1 & H2 & H3); auto.
  { intros j ?. rewrite Hb by lia. destruct (Z.ltb_spec j hi); [lia|].
    by rewrite andb_false_r. }
  pose proof H2 as H2'. rewrite Hb in H2' by lia.
  apply andb_prop in H2' as [[Ha Hc]%andb_prop Hd]. breflect.
  split; [|right; split; [lia|done]].
  intros i Hi. specialize (H1 (i - result) ltac:(lia)). rewrite Hb in H1 by lia.
  replace (result + (i - result)) with i in H1 by lia.
  destruct (Z.leb_spec lo (i - result)), (Z.ltb_spec (i - result) hi); try lia. done.
Qed.

Lemma found_first_ok data result lo tmp size :
  window data result lo 64 tmp -> 0 < size <= 64 ->
  next_set_bit data (result + size) (result + lo) (found_first result size tmp).
Proof.
  intros Hw Hs. apply window_upto with (size := size) in Hw; [|done].
  unfold found_first. destruct (Z.eqb_spec (Z.land tmp (Z.shiftr all_ones (BITS_PER_LONG - size))) 0) as [E|E].
  - rewrite E in Hw. split; [|by left]. intros i ?. by eapply window_zero.
  - eapply found_middle_ok; eauto. lia.
Qed.

Lemma next_set_bit_skip data size o o' r :
  next_set_bit data size o' r -> o <= o' <= size ->
  (forall i, o <= i < o' -> Z.testbit data i = false) -> next_set_bit data size o r.
Proof.
  intros [H1 H2] Hle Hz. split; [|intuition lia].
  intros i Hi. destruct (Z.lt_ge_cases i o'); [apply Hz|apply H1]; lia.
Qed.

Lemma scan_words_ok n data p size :
  0 <= p -> 0 <= size -> n = Z.to_nat (size / 64) ->
  next_set_bit data (64 * p + size) (64 * p) (scan_words n data p (64 * p) size).
Proof.
  revert p size. induction n as [|n IH]; intros p size Hp Hs Hn; cbn [scan_words].
  - assert (size < 64) by (pose proof (Z.div_le_lower_bound size 64 1); lia).
    destruct (Z.eqb_spec size 0) as [->|].
    + split; [intros; lia|left; lia].
    + pose proof (found_first_ok data (64 * p) 0 (word_at data p) size
        (window_word data p Hp) ltac:(lia)) as Hf. by rewrite Z.add_0_r in Hf.
  - assert (64 <= size) by (destruct (Z.lt_ge_cases size 64); [|done];
      rewrite Z.div_small in Hn by lia; done).
    pose proof (window_word data p Hp) as Hw.
    destruct (Z.eqb_spec (word_at data p) 0) as [E|E]; simpl.
    + rewrite E in Hw. apply next_set_bit_skip with (o' := 64 * (p + 1)); [|lia|].
      * specialize (IH (p + 1) (size - 64) ltac:(lia) ltac:(lia)).
        unfold BITS_PER_LONG. replace (64 * p + 64) with (64 * (p + 1)) by lia.
        replace (64 * p + size) with (64 * (p + 1) + (size - 64)) by lia. apply IH.
        replace (size - 64) with (size + (-1) * 64) by lia.
        rewrite Z.div_add by lia. lia.
      * intros i ?. eapply window_zero; [exact Hw|lia].
    + pose proof (found_middle_ok data (64 * p) 0 64 _ (64 * p + size) Hw E ltac:(lia)) as Hf.
      by rewrite Z.add_0_r in Hf.
Qed.

Lemma align_down o : 0 <= o -> Z.land o (Z.lnot (BITS_PER_LONG - 1)) = 64 * (o / 64).
Proof.
  intros. change (BITS_PER_LONG - 1) with (Z.ones 6).
  rewrite <- Z.ldiff_land, Z.ldiff_ones_r, Z.shiftr_div_pow2, Z.shiftl_mul_pow2 by lia.
  change (2 ^ 6) with 64. lia.
Qed.

Lemma find_next_bit_ok data size offset :
  0 <= offset < size -> next_set_bit data size offset (find_next_bit data size offset).
Proof.
  intros Ho. unfold find_next_bit, BITOP_WORD.
  rewrite align_down by lia. unfold BITS_PER_LONG.
  destruct (Z.leb_spec size offset); [lia|].
  pose proof (Z.div_mod offset 64 ltac:(lia)) as Hdm.
  pose proof (Z.mod_pos_bound offset 64 ltac:(lia)).
  set (p := offset / 64) in *. set (o := offset mod 64) in *.
  assert (0 <= p) by (apply Z.div_pos; lia).
  destruct (Z.eqb_spec o 0) as [Ho0|Ho0]; simpl.
  - rewrite Ho0, Z.add_0_r in Hdm. rewrite Hdm at 1.
    pose proof (scan_words_ok (Z.to_nat ((size - 64 * p) / 64)) data p (size - 64 * p)
      ltac:(lia) ltac:(lia) eq_refl) as Hs.
    by replace (64 * p + (size - 64 * p)) with size in Hs by lia.
  - pose proof (window_from data (64 * p) 64 _ o (window_word data p ltac:(lia)) ltac:(lia)) as Hw.
    set (tmp := Z.land (word_at data p) (u64 (Z.shiftl all_ones o))) in *.
    replace offset with (64 * p + o) at 1 by lia.
    destruct (Z.ltb_spec (size - 64 * p) 64).
    { pose proof (found_first_ok data (64 * p) o tmp (size - 64 * p) Hw ltac:(lia)) as Hf.
      by replace (64 * p + (size - 64 * p)) with size in Hf by lia. }
    destruct (Z.eqb_spec tmp 0) as [E|E]; simpl; [|by eapply found_middle_ok; [exact Hw|exact E|lia]].
    rewrite E in Hw. apply next_set_bit_skip with (o' := 64 * (p + 1)); [|lia|].
    + pose proof (scan_words_ok _ data (p + 1) (size - 64 * p - 64)
        ltac:(lia) ltac:(lia) eq_refl) as Hs.
      replace (64 * (p + 1) + (size - 64 * p - 64)) with size in Hs by lia.
      by replace (64 * p + 64) with (64 * (p + 1)) by lia.
    + intros i ?. eapply window_zero; [exact Hw|lia].
Qed.

(** The word-at-a-time [find_next_bit] returns the least set bit at or
    after the offset and below the size, and the size when there is none. *)
Theorem find_next_bit_least data size offset :
  0 <= offset ->
  (size <= offset -> find_next_bit data size offset = size) /\
  (offset < size ->
    let r := find_next_bit data size offset in
    (forall i, offset <= i < r -> Z.testbit data i = false) /\
    (r = size \/ offset <= r < size /\ Z.testbit data r = true)).
Proof.
  intros Ho. split; intros Hs.
  - unfold find_next_bit. by destruct (Z.leb_spec size offset); [|lia].
  - apply find_next_bit_ok. lia.
Qed.

Lemma find_next_bit_least_witness :
  (200 <= 3 -> find_next_bit (2 ^ 150 + 2 ^ 2) 200 3 = 200) /\
  (3 < 200 ->
    let r := find_next_bit (2 ^ 150 + 2 ^ 2) 200 3 in
    (forall i, 3 <= i < r -> Z.testbit (2 ^ 150 + 2 ^ 2) i = false) /\
    (r = 200 \/ 3 <= r < 200 /\ Z.testbit (2 ^ 150 + 2 ^ 2) r = true)).
Proof. apply (find_next_bit_least (2 ^ 150 + 2 ^ 2) 200 3). lia. Defined.
