(* ===== verification/MemoryBitmap.v ===== *)
(** * Memory bitmaps: kernel/power/snapshot.c (lines 206 to 703)

    A bitmap is a list of blocks, each a page of bits for a range of page
    frame numbers.  A pointer to a block is its index, [None] being the list
    head.  The page of bits is the number whose binary digits they are.
    [BUG_ON] and reads through the list head as if it were a block are the
    outcome [None]. *)

From S2P Require Import Prelude HeaderStream BitScan.
From stdpp Require Import base list numbers.
#[local] Open Scope Z_scope.

Definition BM_BITS_PER_BLOCK : Z := Z.shiftl PAGE_SIZE 3.

Record bm_block := Block { start_pfn : Z; end_pfn : Z; bm_data : Z }.

Record bm_position := Position { pos_block : option nat; pos_bit : Z }.

Record memory_bitmap := Bitmap {
  bm_blocks : list bm_block;
  bm_cur : bm_position;
  bm_iter : bm_position
}.

Definition with_blocks (bm : memory_bitmap) (l : list bm_block) : memory_bitmap :=
  Bitmap l (bm_cur bm) (bm_iter bm).
Definition with_cur (bm : memory_bitmap) (p : bm_position) : memory_bitmap :=
  Bitmap (bm_blocks bm) p (bm_iter bm).
Definition with_iter (bm : memory_bitmap) (p : bm_position) : memory_bitmap :=
  Bitmap (bm_blocks bm) (bm_cur bm) p.

Definition bm_block_bits (bb : bm_block) : Z := end_pfn bb - start_pfn bb.

Definition first_block (l : list bm_block) : option nat :=
  match l with [] => None | _ => Some 0%nat end.

Definition memory_bm_position_reset (bm : memory_bitmap) : memory_bitmap :=
  let p := Position (first_block (bm_blocks bm)) 0 in
  Bitmap (bm_blocks bm) p p.

(** ** Finding a bit *)

(** [list_for_each_entry_continue_reverse], from the block before index [i]. *)
Fixpoint scan_back (l : list bm_block) (i : nat) (pfn : Z) : option nat :=
  match i with
  | O => None
  | S j =>
      match l !! j with
      | Some b => if start_pfn b <=? pfn then Some j else scan_back l j pfn
      | None => None
      end
  end.

(** [list_for_each_entry_continue]: [l] are the blocks from index [i] on. *)
Fixpoint scan_forward (l : list bm_block) (i : nat) (pfn : Z) : option nat :=
  match l with
  | [] => None
  | b :: l' =>
      if (start_pfn b <=? pfn) && (pfn <? end_pfn b) then Some i
      else scan_forward l' (S i) pfn
  end.

(** When the search stands on the list head, [start_pfn] and [end_pfn] are
    the words of struct memory_bitmap that follow it ([p_list] and
    [cur.block]), here [head_start] and [head_end]. *)
Record head_words := HeadWords { head_start : Z; head_end : Z }.

Definition start_at (hw : head_words) (l : list bm_block) (p : option nat) : Z :=
  match p with
  | Some i => match l !! i with Some b => start_pfn b | None => 0 end
  | None => head_start hw
  end.

Definition end_at (hw : head_words) (l : list bm_block) (p : option nat) : Z :=
  match p with
  | Some i => match l !! i with Some b => end_pfn b | None => 0 end
  | None => head_end hw
  end.

(** The block search of [memory_bm_find_bit]. *)
Definition find_block (hw : head_words) (l : list bm_block) (cur : option nat) (pfn : Z)
    : option nat :=
  let bb :=
    if pfn <? start_at hw l cur then
      scan_back l (match cur with Some i => i | None => length l end) pfn
    else cur in
  if end_at hw l bb <=? pfn then
    match bb with
    | Some i => scan_forward (drop (S i) l) (S i) pfn
    | None => scan_forward l 0 pfn
    end
  else bb.

(** The bit is given by the block's index and its number in the block. *)
Definition memory_bm_find_bit (hw : head_words) (bm : memory_bitmap) (pfn : Z)
    : memory_bitmap * option (nat * Z) * Z :=
  match find_block hw (bm_blocks bm) (pos_block (bm_cur bm)) pfn with
  | None => (bm, None, - EFAULT)
  | Some i =>
      let pfn' := pfn - start_at hw (bm_blocks bm) (Some i) in
      (with_cur bm (Position (Some i) (s32 (pfn' + 1))), Some (i, u32 pfn'), 0)
  end.

Definition update_data (bm : memory_bitmap) (i : nat) (f : Z -> Z) : memory_bitmap :=
  with_blocks bm
    (alter (fun b => Block (start_pfn b) (end_pfn b) (f (bm_data b))) i (bm_blocks bm)).

Section Operations.
Context (hw : head_words).

Definition memory_bm_set_bit (bm : memory_bitmap) (pfn : Z) : option memory_bitmap :=
  match memory_bm_find_bit hw bm pfn with
  | (bm', Some (i, bit), _) => Some (update_data bm' i (fun d => Z.setbit d bit))
  | (_, None, _) => None
  end.

Definition mem_bm_set_bit_check (bm : memory_bitmap) (pfn : Z) : memory_bitmap * Z :=
  match memory_bm_find_bit hw bm pfn with
  | (bm', Some (i, bit), error) => (update_data bm' i (fun d => Z.setbit d bit), error)
  | (bm', None, error) => (bm', error)
  end.

Definition memory_bm_clear_bit (bm : memory_bitmap) (pfn : Z) : option memory_bitmap :=
  match memory_bm_find_bit hw bm pfn with
  | (bm', Some (i, bit), _) => Some (update_data bm' i (fun d => Z.clearbit d bit))
  | (_, None, _) => None
  end.

Definition memory_bm_test_bit (bm : memory_bitmap) (pfn : Z) : option (memory_bitmap * bool) :=
  match memory_bm_find_bit hw bm pfn with
  | (bm', Some (i, bit), _) =>
      match bm_blocks bm' !! i with
      | Some b => Some (bm', Z.testbit (bm_data b) bit)
      | None => None
      end
  | (_, None, _) => None
  end.

Definition memory_bm_pfn_present (bm : memory_bitmap) (pfn : Z) : memory_bitmap * bool :=
  match memory_bm_find_bit hw bm pfn with
  | (bm', _, error) => (bm', error =? 0)
  end.

(** ** Iterating over the set bits *)

(** The [do] loop of [memory_bm_next_pfn]: [l] are the blocks from index [i]
    on, [bit] is [iter.bit]. *)
Fixpoint next_pfn_loop (l : list bm_block) (i : nat) (bit : Z) : option (nat * Z * Z) :=
  match l with
  | [] => None
  | bb :: l' =>
      let bit' := find_next_bit (bm_data bb) (bm_block_bits bb) bit in
      if bit' <? bm_block_bits bb then Some (i, bit', start_pfn bb + bit')
      else next_pfn_loop l' (S i) 0
  end.

Definition memory_bm_next_pfn (bm : memory_bitmap) : option (memory_bitmap * Z) :=
  match pos_block (bm_iter bm) with
  | None => None
  | Some i =>
      match next_pfn_loop (drop i (bm_blocks bm)) i (pos_bit (bm_iter bm)) with
      | Some (j, bit, pfn) => Some (with_iter bm (Position (Some j) (bit + 1)), pfn)
      | None => Some (memory_bm_position_reset bm, BM_END_OF_MAP)
      end
  end.

(** [while (pfn != BM_END_OF_MAP)] of the next three operations; running out
    of fuel is [None]. *)
Fixpoint clear_loop (fuel : nat) (bm : memory_bitmap) (pfn : Z) : option memory_bitmap :=
  if pfn =? BM_END_OF_MAP then Some bm
  else
    match fuel with
    | O => None
    | S fuel' =>
        match memory_bm_clear_bit bm pfn with
        | None => None
        | Some bm1 =>
            match memory_bm_next_pfn bm1 with
            | None => None
            | Some (bm2, pfn') => clear_loop fuel' bm2 pfn'
            end
        end
    end.

Definition memory_bm_clear (fuel : nat) (bm : memory_bitmap) : option memory_bitmap :=
  match memory_bm_next_pfn (memory_bm_position_reset bm) with
  | None => None
  | Some (bm1, pfn) => clear_loop fuel bm1 pfn
  end.

Fixpoint copy_loop (fuel : nat) (source dest : memory_bitmap) (pfn : Z)
    : option (memory_bitmap * memory_bitmap) :=
  if pfn =? BM_END_OF_MAP then Some (source, dest)
  else
    match fuel with
    | O => None
    | S fuel' =>
        match memory_bm_set_bit dest pfn with
        | None => None
        | Some dest1 =>
            match memory_bm_next_pfn source with
            | None => None
            | Some (source1, pfn') => copy_loop fuel' source1 dest1 pfn'
            end
        end
    end.

Definition memory_bm_copy (fuel : nat) (source dest : memory_bitmap)
    : option (memory_bitmap * memory_bitmap) :=
  match memory_bm_next_pfn (memory_bm_position_reset source) with
  | None => None
  | Some (source1, pfn) => copy_loop fuel source1 dest pfn
  end.

Definition memory_bm_dup (fuel : nat) (source dest : memory_bitmap)
    : option (memory_bitmap * memory_bitmap) :=
  match memory_bm_clear fuel dest with
  | None => None
  | Some dest1 => memory_bm_copy fuel source dest1
  end.
End Operations.

(** ** Creating a bitmap

    Each allocation takes its outcome from the front of a list of booleans;
    past its end allocations succeed. *)

Definition alloc (o : list bool) : bool * list bool :=
  match o with [] => (true, []) | b :: o' => (b, o') end.

Record mem_extent := MemExtent { mstart : Z; mend : Z }.

(** A populated zone: [zone_start_pfn] and [spanned_pages]. *)
Record zone := Zone { zone_start_pfn : Z; spanned_pages : Z }.

(** "More merging may be possible": absorb the extents after [ext] that start
    at or before [zone_end]. *)
Fixpoint absorb (zone_end : Z) (ext : mem_extent) (l : list mem_extent) : list mem_extent :=
  match l with
  | [] => [ext]
  | cur :: l' =>
      if zone_end <? mstart cur then ext :: l
      else absorb zone_end
             (if zone_end <? mend cur then MemExtent (mstart ext) (mend cur) else ext) l'
  end.

(** One zone of the loop of [create_mem_extents]; [None]: no memory. *)
Fixpoint add_zone (zone_start zone_end : Z) (l : list mem_extent) (o : list bool)
    : option (list mem_extent) * list bool :=
  match l with
  | [] =>
      let '(ok, o') := alloc o in
      (if ok then Some [MemExtent zone_start zone_end] else None, o')
  | ext :: l' =>
      if zone_start <=? mend ext then
        if zone_end <? mstart ext then
          let '(ok, o') := alloc o in
          (if ok then Some (MemExtent zone_start zone_end :: l) else None, o')
        else
          let s := if zone_start <? mstart ext then zone_start else mstart ext in
          let e := if mend ext <? zone_end then zone_end else mend ext in
          (Some (absorb zone_end (MemExtent s e) l'), o)
      else
        match add_zone zone_start zone_end l' o with
        | (Some r, o') => (Some (ext :: r), o')
        | (None, o') => (None, o')
        end
  end.

Fixpoint create_mem_extents_from (zones : list zone) (l : list mem_extent) (o : list bool)
    : list mem_extent * Z * list bool :=
  match zones with
  | [] => (l, 0, o)
  | z :: zones' =>
      match add_zone (zone_start_pfn z) (u64 (zone_start_pfn z + spanned_pages z)) l o with
      | (Some l', o') => create_mem_extents_from zones' l' o'
      | (None, o') => ([], - ENOMEM, o')
      end
  end.

Definition create_mem_extents (zones : list zone) (o : list bool) :=
  create_mem_extents_from zones [] o.

(** [create_bm_block_list]: [nr_blocks] objects from the chain allocator, or
    [-ENOMEM]; the blocks it links are filled in by [memory_bm_create]. *)
Fixpoint alloc_blocks (n : nat) (o : list bool) : bool * list bool :=
  match n with
  | O => (true, o)
  | S n' => let '(ok, o') := alloc o in if ok then alloc_blocks n' o' else (false, o')
  end.

Definition nr_blocks (pages : Z) : nat :=
  Z.to_nat (u32 (DIV_ROUND_UP pages BM_BITS_PER_BLOCK)).

Definition create_bm_block_list (pages : Z) (o : list bool) : Z * list bool :=
  let '(ok, o') := alloc_blocks (nr_blocks pages) o in
  (if ok then 0 else - ENOMEM, o').

(** The inner loop of [memory_bm_create] over the [n] new blocks. *)
Fixpoint fill_blocks (n : nat) (pfn pages : Z) (o : list bool)
    : option (list bm_block) * list bool :=
  match n with
  | O => (Some [], o)
  | S n' =>
      let '(ok, o1) := alloc o in
      if ok then
        let '(pfn', pages') :=
          if BM_BITS_PER_BLOCK <=? pages
          then (u64 (pfn + BM_BITS_PER_BLOCK), pages - BM_BITS_PER_BLOCK)
          else (u64 (pfn + pages), pages) in
        match fill_blocks n' pfn' pages' o1 with
        | (Some l, o2) => (Some (Block pfn pfn' 0 :: l), o2)
        | (None, o2) => (None, o2)
        end
      else (None, o1)
  end.

Fixpoint create_blocks (exts : list mem_extent) (acc : list bm_block) (o : list bool)
    : option (list bm_block) * list bool :=
  match exts with
  | [] => (Some acc, o)
  | ext :: exts' =>
      let pages := u64 (mend ext - mstart ext) in
      match create_bm_block_list pages o with
      | (error, o1) =>
          if negb (error =? 0) then (None, o1)
          else
            match fill_blocks (nr_blocks pages) (mstart ext) pages o1 with
            | (Some l, o2) => create_blocks exts' (acc ++ l) o2
            | (None, o2) => (None, o2)
            end
      end
  end.

Definition memory_bm_free (bm : memory_bitmap) : memory_bitmap := with_blocks bm [].

Definition memory_bm_create (zones : list zone) (o : list bool) (bm : memory_bitmap)
    : memory_bitmap * Z :=
  match create_mem_extents zones o with
  | (exts, error, o1) =>
      if negb (error =? 0) then (with_blocks bm [], error)
      else
        match create_blocks exts [] o1 with
        | (Some l, _) => (memory_bm_position_reset (with_blocks bm l), 0)
        | (None, _) => (memory_bm_free bm, - ENOMEM)
        end
  end.

(** ** Saving and loading a bitmap *)

Definition block_range_bytes (b : bm_block) : list Z :=
  le_bytes 8 (start_pfn b) ++ le_bytes 8 (end_pfn b).

Definition block_data_bytes (b : bm_block) : list Z :=
  le_bytes (Z.to_nat PAGE_SIZE) (bm_data b).

Section ReadWrite.
Context {W : Type} `{HeaderWriter W} {R : Type} `{HeaderReader R}.

Fixpoint write_blocks (l : list bm_block) (w : W) : W * Z :=
  match l with
  | [] => (w, 0)
  | b :: l' =>
      let '(w1, result) := hw_chunk None (block_range_bytes b) w in
      if negb (result =? 0) then (w1, result)
      else
        let '(w2, result) := hw_chunk None (block_data_bytes b) w1 in
        if negb (result =? 0) then (w2, result) else write_blocks l' w2
  end.

Definition memory_bm_write (bm : option memory_bitmap) (w : W) : W * Z :=
  match bm with
  | None => (w, 0)
  | Some bm =>
      let nr := u32 (Z.of_nat (length (bm_blocks bm))) in
      let '(w1, result) := hw_chunk None (le_bytes 4 nr) w in
      if negb (result =? 0) then (w1, result) else write_blocks (bm_blocks bm) w1
  end.

Definition find_start (l : list bm_block) (pfn : Z) : option nat :=
  fst <$> list_find (fun b => start_pfn b = pfn) l.

(** The loop of [memory_bm_read], [n] rounds to go. *)
Fixpoint read_blocks (n : nat) (l : list bm_block) (r : R)
    : R * list bm_block * Z :=
  match n with
  | O => (r, l, 0)
  | S n' =>
      let '(r1, (bs, result)) := hr_chunk 8 r in
      if negb (result =? 0) then (r1, l, result)
      else
        match find_start l (le_val bs) with
        | None => (r1, l, - EINVAL)
        | Some i =>
            let '(r2, (bs2, result)) := hr_chunk 8 r1 in
            if negb (result =? 0) then (r2, l, result)
            else if negb (le_val bs2 =? match l !! i with Some b => end_pfn b | None => 0 end)
            then (r2, l, - EINVAL)
            else
              let '(r3, (page, result)) := hr_chunk (Z.to_nat PAGE_SIZE) r2 in
              if negb (result =? 0) then (r3, l, result)
              else
                read_blocks n'
                  (alter (fun b => Block (start_pfn b) (end_pfn b) (le_val page)) i l) r3
        end
  end.

Definition memory_bm_read (zones : list zone) (o : list bool)
    (bm : option memory_bitmap) (r : R) : R * option memory_bitmap * Z :=
  match bm with
  | None => (r, None, 0)
  | Some bm =>
      let '(bm1, result) := memory_bm_create zones o bm in
      if negb (result =? 0) then (r, Some bm1, result)
      else
        let '(r1, (bs, result)) := hr_chunk 4 r in
        if negb (result =? 0) then (r1, Some (memory_bm_free bm1), result)
        else
          let '(r2, l, result) := read_blocks (Z.to_nat (le_val bs)) (bm_blocks bm1) r1 in
          if negb (result =? 0) then (r2, Some (memory_bm_free bm1), result)
          else (r2, Some (with_blocks bm1 l), 0)
  end.
End ReadWrite.

(** ** The invariant and the abstract view *)

(** Blocks sorted and disjoint, none below [lo], each of at least one and at
    most [BM_BITS_PER_BLOCK] pages, with a page of bits. *)
Fixpoint wf_blocks (lo : Z) (l : list bm_block) : Prop :=
  match l with
  | [] => True
  | b :: l' =>
      lo <= start_pfn b /\ start_pfn b < end_pfn b < 2 ^ 64 /\
      bm_block_bits b <= BM_BITS_PER_BLOCK /\ 0 <= bm_data b < 2 ^ BM_BITS_PER_BLOCK /\
      wf_blocks (end_pfn b) l'
  end.

Definition wf_position (l : list bm_block) (p : bm_position) : Prop :=
  0 <= pos_bit p /\
  match pos_block p with Some i => (i < length l)%nat | None => l = [] end.

Record wf_bitmap (bm : memory_bitmap) : Prop := {
  wfb_blocks : wf_blocks 0 (bm_blocks bm);
  wfb_cur : wf_position (bm_blocks bm) (bm_cur bm);
  wfb_iter : wf_position (bm_blocks bm) (bm_iter bm)
}.

Definition in_block (pfn : Z) (b : bm_block) : Prop := start_pfn b <= pfn < end_pfn b.

#[export] Instance in_block_dec pfn b : Decision (in_block pfn b).
Proof. unfold in_block. apply _. Defined.

(** The bitmap has a bit for the page frame. *)
Definition covers (l : list bm_block) (pfn : Z) : Prop := Exists (in_block pfn) l.

Definition bit_of (l : list bm_block) (pfn : Z) : bool :=
  existsb (fun b => bool_decide (in_block pfn b) && Z.testbit (bm_data b) (pfn - start_pfn b)) l.

(** The set page frames, in order. *)
Definition bits_from (b : bm_block) (bit : Z) : list Z :=
  map (fun j => start_pfn b + j)
    (filter (fun j => Z.testbit (bm_data b) j = true) (seqZ bit (bm_block_bits b - bit))).

Definition pfns (l : list bm_block) : list Z := flat_map (fun b => bits_from b 0) l.

(** ** Facts about sorted blocks *)

Lemma wf_blocks_lookup lo l i b :
  wf_blocks lo l -> l !! i = Some b ->
  lo <= start_pfn b /\ start_pfn b < end_pfn b < 2 ^ 64 /\
  bm_block_bits b <= BM_BITS_PER_BLOCK /\ 0 <= bm_data b < 2 ^ BM_BITS_PER_BLOCK.
Proof.
  revert lo i. induction l as [|c l IH]; intros lo [|i] Hwf Hi; simplify_eq/=.
  - tauto.
  - destruct Hwf as (?&?&?&?&Hl). destruct (IH _ _ Hl Hi) as (?&?&?&?). intuition lia.
Qed.

Lemma wf_blocks_order lo l i j a b :
  wf_blocks lo l -> (i < j)%nat -> l !! i = Some a -> l !! j = Some b ->
  end_pfn a <= start_pfn b.
Proof.
  revert lo i j. induction l as [|c l IH]; intros lo i j Hwf Hij Ha Hb; [done|].
  destruct j as [|j]; [lia|]. destruct Hwf as (?&?&?&?&Hl). destruct i as [|i]; simplify_eq/=.
  - by destruct (wf_blocks_lookup _ _ _ _ Hl Hb).
  - by apply (IH _ i j Hl); [lia|..].
Qed.

Lemma in_block_unique lo l i j a b pfn :
  wf_blocks lo l -> l !! i = Some a -> l !! j = Some b ->
  in_block pfn a -> in_block pfn b -> i = j.
Proof.
  unfold in_block. intros Hwf Ha Hb ? ?.
  destruct (Nat.lt_trichotomy i j) as [Hlt|[|Hlt]]; [|done|].
  - pose proof (wf_blocks_order _ _ _ _ _ _ Hwf Hlt Ha Hb). lia.
  - pose proof (wf_blocks_order _ _ _ _ _ _ Hwf Hlt Hb Ha). lia.
Qed.

Lemma scan_forward_spec l i pfn :
  match scan_forward l i pfn with
  | Some j => exists b, (i <= j)%nat /\ l !! (j - i)%nat = Some b /\ in_block pfn b
  | None => Forall (fun b => ~ in_block pfn b) l
  end.
Proof.
  revert i. induction l as [|b l IH]; intros i; cbn [scan_forward]; [constructor|].
  destruct (Z.leb_spec (start_pfn b) pfn), (Z.ltb_spec pfn (end_pfn b)); simpl.
  1: { exists b. rewrite Nat.sub_diag. repeat split; auto; lia. }
  all: specialize (IH (S i)); destruct (scan_forward l (S i) pfn) as [j|];
    [destruct IH as (b' & ? & Hl & Hb); exists b'; split; [lia|];
     by replace (j - i)%nat with (S (j - S i)) by lia
    |constructor; [unfold in_block; lia|done]].
Qed.

Lemma scan_back_spec l i pfn :
  (i <= length l)%nat ->
  match scan_back l i pfn with
  | Some j => (j < i)%nat /\ (exists b, l !! j = Some b /\ start_pfn b <= pfn) /\
      forall m b, (j < m < i)%nat -> l !! m = Some b -> pfn < start_pfn b
  | None => forall m b, (m < i)%nat -> l !! m = Some b -> pfn < start_pfn b
  end.
Proof.
  induction i as [|i IH]; intros Hi; cbn [scan_back]; [intros; lia|].
  destruct (lookup_lt_is_Some_2 l i ltac:(lia)) as [b Hb]. rewrite Hb.
  destruct (Z.leb_spec (start_pfn b) pfn) as [Hle|Hgt].
  { repeat split; eauto. intros; lia. }
  specialize (IH ltac:(lia)). destruct (scan_back l i pfn) as [j|].
  - destruct IH as (? & ? & IH). repeat split; auto. intros m c Hm Hc.
    destruct (decide (m = i)) as [->|]; [by simplify_eq|]. apply (IH m); auto. lia.
  - intros m c Hm Hc. destruct (decide (m = i)) as [->|]; [by simplify_eq|].
    apply (IH m); auto. lia.
Qed.

(** The block search is right wherever it starts from. *)
Lemma find_block_sound hw l cur pfn i :
  match cur with Some c => (c < length l)%nat | None => l = [] end ->
  find_block hw l cur pfn = Some i -> exists b, l !! i = Some b /\ in_block pfn b.
Proof.
  intros Hc. unfold find_block.
  set (bb := if pfn <? start_at hw l cur then _ else _). intros Hf.
  assert (forall j, bb = Some j -> exists b, l !! j = Some b /\ start_pfn b <= pfn) as Hstart.
  { intros j Hj. unfold bb, start_at in Hj. destruct cur as [c|].
    - destruct (lookup_lt_is_Some_2 l c Hc) as [b Hb]. rewrite Hb in Hj.
      destruct (Z.ltb_spec pfn (start_pfn b)); [|by simplify_eq; eauto].
      pose proof (scan_back_spec l c pfn ltac:(lia)) as Hs. rewrite Hj in Hs. by destruct Hs as (_ & ? & _).
    - subst l. simpl in Hj. by destruct (pfn <? head_start hw). }
  unfold end_at in Hf. destruct bb as [j|].
  - destruct (Hstart j eq_refl) as (b & Hb & Hle). rewrite Hb in Hf.
    destruct (Z.leb_spec (end_pfn b) pfn).
    + pose proof (scan_forward_spec (drop (S j) l) (S j) pfn) as Hs. rewrite Hf in Hs.
      destruct Hs as (b' & ? & Hl & ?). rewrite lookup_drop in Hl.
      replace (S j + (i - S j))%nat with i in Hl by lia. eauto.
    + simplify_eq. exists b. unfold in_block. split; [done|lia].
  - destruct (_ <=? pfn); [|done].
    pose proof (scan_forward_spec l 0 pfn) as Hs. rewrite Hf in Hs.
    destruct Hs as (b' & ? & Hl & ?). rewrite Nat.sub_0_r in Hl. eauto.
Qed.

Lemma find_block_complete hw l cur pfn i b :
  wf_blocks 0 l -> match cur with Some c => (c < length l)%nat | None => l = [] end ->
  l !! i = Some b -> in_block pfn b -> find_block hw l cur pfn = Some i.
Proof.
  intros Hwf Hc Hb Hin. destruct (find_block hw l cur pfn) as [j|] eqn:Hf.
  { destruct (find_block_sound _ _ _ _ _ Hc Hf) as (b' & Hb' & Hin').
    f_equal. by eapply in_block_unique. }
  exfalso. unfold find_block in Hf. destruct cur as [c|]; [|by subst l].
  destruct (lookup_lt_is_Some_2 l c Hc) as [bc Hbc]. unfold start_at in Hf. rewrite Hbc in Hf.
  assert (forall j, (j <= i)%nat -> scan_forward (drop j l) j pfn <> None) as Hfwd.
  { intros j Hj Hn. pose proof (scan_forward_spec (drop j l) j pfn) as Hs. rewrite Hn in Hs.
    apply (Forall_lookup_1 _ _ (i - j) b) in Hs; [done|].
    rewrite lookup_drop. by replace (j + (i - j))%nat with i by lia. }
  unfold in_block in Hin. destruct (Z.ltb_spec pfn (start_pfn bc)).
  - pose proof (scan_back_spec l c pfn ltac:(lia)) as Hs.
    assert (i < c)%nat as Hic.
    { destruct (Nat.lt_trichotomy i c) as [|[->|Hlt]]; [done|simplify_eq; lia|].
      pose proof (wf_blocks_order _ _ _ _ _ _ Hwf Hlt Hbc Hb).
      pose proof (wf_blocks_lookup _ _ _ _ Hwf Hbc). lia. }
    destruct (scan_back l c pfn) as [j|]; [|specialize (Hs i b Hic Hb); lia].
    destruct Hs as (? & (bj & Hbj & ?) & Hs). unfold end_at in Hf. rewrite Hbj in Hf.
    assert (j <= i)%nat.
    { destruct (Nat.le_gt_cases j i) as [|Hlt]; [done|].
      pose proof (wf_blocks_order _ _ _ _ _ _ Hwf Hlt Hb Hbj). lia. }
    destruct (Z.leb_spec (end_pfn bj) pfn); [|done].
    apply (Hfwd (S j)); [|done]. destruct (decide (j = i)) as [->|]; [simplify_eq; lia|lia].
  - unfold end_at in Hf. rewrite Hbc in Hf. destruct (Z.leb_spec (end_pfn bc) pfn); [|done].
    apply (Hfwd (S c)); [|done]. destruct (Nat.le_gt_cases (S c) i); [done|].
    destruct (decide (i = c)) as [->|]; [simplify_eq; lia|].
    pose proof (wf_blocks_order _ _ i c _ _ Hwf ltac:(lia) Hb Hbc). lia.
Qed.

(** ** Single bits *)

Lemma covers_lookup l pfn :
  covers l pfn <-> exists i b, l !! i = Some b /\ in_block pfn b.
Proof.
  unfold covers. rewrite List.Exists_exists. setoid_rewrite <- list_elem_of_In.
  setoid_rewrite list_elem_of_lookup.
  split; [intros (b & [i ?] & ?)|intros (i & b & ? & ?)]; eauto.
Qed.

#[export] Instance covers_dec l pfn : Decision (covers l pfn).
Proof. unfold covers. apply _. Defined.

Lemma bit_of_lookup lo l i b pfn :
  wf_blocks lo l -> l !! i = Some b -> in_block pfn b ->
  bit_of l pfn = Z.testbit (bm_data b) (pfn - start_pfn b).
Proof.
  revert lo i. induction l as [|c l IH]; intros lo i Hwf Hi Hin; [done|].
  cbn [bit_of existsb]. fold (bit_of l pfn). pose proof Hwf as (?&?&?&?&Hl).
  destruct i as [|i]; simplify_eq/=.
  - rewrite bool_decide_eq_true_2 by done. simpl.
    destruct (Z.testbit _ _); [done|]. simpl.
    apply not_true_is_false. intros Ht. unfold bit_of in Ht.
    apply existsb_exists in Ht as (d & Hd%list_elem_of_In & [Hdin _]%andb_prop).
    apply bool_decide_eq_true in Hdin. apply list_elem_of_lookup in Hd as [j Hj].
    pose proof (wf_blocks_lookup _ _ _ _ Hl Hj). unfold in_block in *. lia.
  - rewrite bool_decide_eq_false_2; [by apply (IH _ i Hl)|].
    pose proof (wf_blocks_lookup _ _ _ _ Hl Hi). unfold in_block in *. lia.
Qed.

Lemma bit_of_uncovered l pfn : ~ covers l pfn -> bit_of l pfn = false.
Proof.
  intros Hn. apply not_true_is_false. unfold bit_of. intros Ht.
  apply existsb_exists in Ht as (d & Hd & [Hdin _]%andb_prop).
  apply bool_decide_eq_true in Hdin. apply Hn, List.Exists_exists. by exists d.
Qed.

Definition set_data (f : Z -> Z) (b : bm_block) : bm_block :=
  Block (start_pfn b) (end_pfn b) (f (bm_data b)).

Lemma wf_blocks_alter f lo l i :
  wf_blocks lo l ->
  (forall b, l !! i = Some b -> 0 <= f (bm_data b) < 2 ^ BM_BITS_PER_BLOCK) ->
  wf_blocks lo (alter (set_data f) i l).
Proof.
  revert lo i. induction l as [|c l IH]; intros lo i Hwf Hf; [done|].
  destruct Hwf as (?&?&?&?&Hl). destruct i as [|i]; simpl.
  - specialize (Hf c eq_refl). split_and!; auto; lia.
  - split_and!; try lia. by apply IH.
Qed.

Lemma bit_of_alter f lo l i b q :
  wf_blocks lo l -> l !! i = Some b -> 0 <= f (bm_data b) < 2 ^ BM_BITS_PER_BLOCK ->
  bit_of (alter (set_data f) i l) q =
    if bool_decide (in_block q b) then Z.testbit (f (bm_data b)) (q - start_pfn b)
    else bit_of l q.
Proof.
  intros Hwf Hi Hf.
  assert (wf_blocks lo (alter (set_data f) i l)) as Hwf'
    by (apply wf_blocks_alter; [done|intros; by simplify_eq]).
  assert (alter (set_data f) i l !! i = Some (set_data f b)) as Hi'
    by (by rewrite list_lookup_alter_eq, Hi).
  case_bool_decide as Hin.
  { by rewrite (bit_of_lookup lo _ i (set_data f b)). }
  destruct (decide (covers l q)) as [Hc|Hc].
  - apply covers_lookup in Hc as (j & d & Hj & Hd).
    rewrite (bit_of_lookup lo l j d) by done. assert (j <> i) by (intros ->; by simplify_eq).
    apply (bit_of_lookup lo _ j d); [done| |done]. by rewrite list_lookup_alter_ne.
  - rewrite !bit_of_uncovered; [done..|].
    intros (j & d & Hj & Hd)%covers_lookup. apply Hc, covers_lookup.
    destruct (decide (i = j)) as [->|].
    + rewrite Hi' in Hj. simplify_eq. by exists j, b.
    + rewrite list_lookup_alter_ne in Hj by done. eauto.
Qed.

Lemma covers_alter f l i q : covers (alter (set_data f) i l) q <-> covers l q.
Proof.
  rewrite !covers_lookup. split; intros (j & d & Hj & Hd).
  - destruct (decide (i = j)) as [->|].
    + rewrite list_lookup_alter_eq in Hj. destruct (l !! j) as [c|] eqn:Hc; simplify_eq/=. by exists j, c.
    + rewrite list_lookup_alter_ne in Hj by done. eauto.
  - destruct (decide (i = j)) as [->|].
    + exists j, (set_data f d). by rewrite list_lookup_alter_eq, Hj.
    + exists j, d. by rewrite list_lookup_alter_ne.
Qed.

Lemma setbit_bound d n b : 0 <= d < 2 ^ n -> 0 <= b < n -> 0 <= Z.setbit d b < 2 ^ n.
Proof.
  intros Hd Hb. unfold Z.setbit. rewrite Z.shiftl_1_l.
  assert (0 <= Z.lor d (2 ^ b)) by (apply Z.lor_nonneg; split; [lia|apply Z.pow_nonneg; lia]).
  split; [done|]. apply Z.log2_lt_cancel. rewrite Z.log2_lor by (try lia; apply Z.pow_nonneg; lia).
  rewrite !Z.log2_pow2 by lia. apply Z.max_lub_lt; [|lia].
  destruct (Z.eq_dec d 0) as [->|]; [simpl; lia|]. apply Z.log2_lt_pow2; lia.
Qed.

Lemma clearbit_bound d n b : 0 <= d < 2 ^ n -> 0 <= b -> 0 <= Z.clearbit d b < 2 ^ n.
Proof.
  intros Hd Hb. unfold Z.clearbit.
  assert (0 <= Z.ldiff d (Z.shiftl 1 b)) by (apply Z.ldiff_nonneg; lia).
  split; [done|]. enough (Z.ldiff d (Z.shiftl 1 b) <= d) by lia.
  apply Z.ldiff_le; [lia|]. rewrite Z.ldiff_ldiff_l, Z.lor_comm.
  rewrite <- Z.ldiff_ldiff_l, Z.ldiff_diag. apply Z.ldiff_0_l.
Qed.

#[local] Arguments Z.pow : simpl never.
#[local] Opaque BM_BITS_PER_BLOCK.

Lemma BM_BITS_value : BM_BITS_PER_BLOCK = 32768.
Proof. reflexivity. Qed.

Section BitFacts.
Context (hw : head_words).

(** [memory_bm_find_bit] on both branches, whatever the cursor. *)
Lemma find_bit_covered bm pfn :
  wf_bitmap bm -> covers (bm_blocks bm) pfn ->
  exists i b, bm_blocks bm !! i = Some b /\ in_block pfn b /\
    memory_bm_find_bit hw bm pfn =
      (with_cur bm (Position (Some i) (pfn - start_pfn b + 1)), Some (i, pfn - start_pfn b), 0).
Proof.
  intros Hwf (i & b & Hi & Hin)%covers_lookup. exists i, b. split; [done|]. split; [done|].
  unfold memory_bm_find_bit. rewrite (find_block_complete hw _ _ pfn i b); auto;
    [|apply Hwf|apply Hwf].
  unfold start_at. rewrite Hi.
  pose proof (wf_blocks_lookup _ _ _ _ (wfb_blocks _ Hwf) Hi) as (?&?&Hs&?).
  unfold in_block, bm_block_bits in *. rewrite BM_BITS_value in Hs.
  unfold u32. rewrite Z.mod_small, s32_small by lia. done.
Qed.

Lemma find_bit_uncovered bm pfn :
  wf_bitmap bm -> ~ covers (bm_blocks bm) pfn ->
  memory_bm_find_bit hw bm pfn = (bm, None, - EFAULT).
Proof.
  intros Hwf Hn. unfold memory_bm_find_bit.
  destruct (find_block _ _ _ pfn) as [i|] eqn:Hf; [|done].
  apply find_block_sound in Hf as (b & Hi & Hin); [|apply Hwf].
  destruct Hn. apply covers_lookup. eauto.
Qed.

(** Every operation that finds a bit and rewrites its page. *)
Definition updated (bm bm' : memory_bitmap) (pfn : Z) (v : bool) : Prop :=
  wf_bitmap bm' /\ (forall q, covers (bm_blocks bm') q <-> covers (bm_blocks bm) q) /\
  (forall q, bit_of (bm_blocks bm') q = if q =? pfn then v else bit_of (bm_blocks bm) q) /\
  bm_iter bm' = bm_iter bm /\ length (bm_blocks bm') = length (bm_blocks bm) /\
  exists i f, bm_blocks bm' = alter (set_data f) i (bm_blocks bm).

Lemma update_data_ok bm i b pfn v f :
  wf_bitmap bm -> bm_blocks bm !! i = Some b -> in_block pfn b ->
  0 <= f (bm_data b) < 2 ^ BM_BITS_PER_BLOCK ->
  (forall j, 0 <= j -> Z.testbit (f (bm_data b)) j =
     if j =? pfn - start_pfn b then v else Z.testbit (bm_data b) j) ->
  updated bm
    (update_data (with_cur bm (Position (Some i) (pfn - start_pfn b + 1))) i f) pfn v.
Proof.
  intros Hwf Hi Hin Hf Hbit. unfold updated, update_data. simpl.
  change (fun b0 => Block _ _ _) with (set_data f).
  pose proof (wfb_blocks _ Hwf) as Hb. pose proof (lookup_lt_Some _ _ _ Hi).
  split_and!; auto.
  - split; simpl.
    + apply wf_blocks_alter; [done|]. intros; by simplify_eq.
    + split; simpl; [unfold in_block in Hin; lia|]. by rewrite length_alter.
    + destruct (wfb_iter _ Hwf) as [? Hp]. split; simpl; [done|].
      destruct (pos_block (bm_iter bm)); [by rewrite length_alter|].
      by rewrite Hp in *.
  - intros q. apply covers_alter.
  - intros q. rewrite (bit_of_alter _ 0 _ _ b) by done. case_bool_decide as Hq.
    + rewrite Hbit by (unfold in_block in Hq; lia).
      destruct (Z.eqb_spec (q - start_pfn b) (pfn - start_pfn b)), (Z.eqb_spec q pfn);
        try lia; [done|]. by rewrite (bit_of_lookup 0 _ i b).
    + by destruct (Z.eqb_spec q pfn) as [->|].
  - by rewrite length_alter.
  - eauto.
Qed.

Lemma set_bit_ok bm pfn :
  wf_bitmap bm -> covers (bm_blocks bm) pfn ->
  exists bm', memory_bm_set_bit hw bm pfn = Some bm' /\ updated bm bm' pfn true.
Proof.
  intros Hwf Hc. unfold memory_bm_set_bit.
  destruct (find_bit_covered bm pfn Hwf Hc) as (i & b & Hi & Hin & ->).
  pose proof (wf_blocks_lookup _ _ _ _ (wfb_blocks _ Hwf) Hi) as (?&?&?&?).
  eexists. split; [done|]. unfold in_block, bm_block_bits in *.
  apply update_data_ok; [done..| |].
  - apply setbit_bound; lia.
  - intros j ?. rewrite Z.setbit_eqb by lia. rewrite Z.eqb_sym.
    by destruct (j =? _).
Qed.

Lemma clear_bit_ok bm pfn :
  wf_bitmap bm -> covers (bm_blocks bm) pfn ->
  exists bm', memory_bm_clear_bit hw bm pfn = Some bm' /\ updated bm bm' pfn false.
Proof.
  intros Hwf Hc. unfold memory_bm_clear_bit.
  destruct (find_bit_covered bm pfn Hwf Hc) as (i & b & Hi & Hin & ->).
  pose proof (wf_blocks_lookup _ _ _ _ (wfb_blocks _ Hwf) Hi) as (?&?&?&?).
  eexists. split; [done|]. unfold in_block, bm_block_bits in *.
  apply update_data_ok; [done..| |].
  - apply clearbit_bound; lia.
  - intros j ?. rewrite Z.clearbit_eqb. rewrite (Z.eqb_sym _ j).
    destruct (j =? _); simpl; by rewrite ?andb_true_r, ?andb_false_r.
Qed.

Lemma test_bit_ok bm pfn :
  wf_bitmap bm -> covers (bm_blocks bm) pfn ->
  exists bm', memory_bm_test_bit hw bm pfn = Some (bm', bit_of (bm_blocks bm) pfn) /\
    wf_bitmap bm' /\ bm_blocks bm' = bm_blocks bm /\ bm_iter bm' = bm_iter bm.
Proof.
  intros Hwf Hc. unfold memory_bm_test_bit.
  destruct (find_bit_covered bm pfn Hwf Hc) as (i & b & Hi & Hin & ->).
  simpl. rewrite Hi. rewrite (bit_of_lookup 0 _ i b) by (auto; apply Hwf).
  eexists. split; [done|]. split; [|done]. split; simpl; try apply Hwf.
  split; simpl; [unfold in_block in Hin; lia|by eapply lookup_lt_Some].
Qed.
End BitFacts.

(** ** Iteration *)

Lemma seqZ_filter_next (P : Z -> bool) bit size r :
  bit <= size ->
  (forall i, bit <= i < r -> P i = false) -> (r = size \/ bit <= r < size /\ P r = true) ->
  filter (fun j => P j = true) (seqZ bit (size - bit)) =
    if r <? size then r :: filter (fun j => P j = true) (seqZ (r + 1) (size - (r + 1))) else [].
Proof.
  intros Hle Hno Hr. assert (bit <= r <= size) by lia.
  replace (size - bit) with ((r - bit) + (size - r)) by lia.
  rewrite seqZ_split, list.filter_app by lia. replace (bit + (r - bit)) with r by lia.
  assert (filter (fun j => P j = true) (seqZ bit (r - bit)) = []) as ->.
  { apply filter_all_false. intros j Hj%elem_of_seqZ. apply Hno. lia. }
  destruct (Z.ltb_spec r size).
  - destruct Hr as [->|[_ HP]]; [lia|]. rewrite seqZ_cons by lia. simpl.
    rewrite filter_cons_True by done. do 3 f_equal; lia.
  - replace (size - r) with 0 by lia. done.
Qed.

Lemma bits_from_next b bit :
  0 <= bit -> 0 < bm_block_bits b ->
  let r := find_next_bit (bm_data b) (bm_block_bits b) bit in
  (if r <? bm_block_bits b then 0 <= r else True) /\
  bits_from b bit =
    if r <? bm_block_bits b then (start_pfn b + r) :: bits_from b (r + 1) else [].
Proof.
  intros Hb Hs r. unfold bits_from. destruct (Z.lt_ge_cases bit (bm_block_bits b)) as [Hlt|Hge].
  - destruct (find_next_bit_ok (bm_data b) (bm_block_bits b) bit ltac:(lia)) as [Hno Hr].
    fold r in Hno, Hr. rewrite (seqZ_filter_next _ _ _ r) by (auto; lia).
    destruct (r <? bm_block_bits b) eqn:E; breflect; split; try done; lia.
  - assert (r = bm_block_bits b) as ->.
    { unfold r, find_next_bit. by destruct (Z.leb_spec (bm_block_bits b) bit); [|lia]. }
    rewrite Z.ltb_irrefl. split; [done|]. by rewrite seqZ_nil by lia.
Qed.

Lemma next_pfn_loop_spec l i bit lo :
  wf_blocks lo l -> 0 <= bit ->
  match l with
  | [] => next_pfn_loop l i bit = None
  | c :: l' =>
      match next_pfn_loop l i bit with
      | Some (j, bit', pfn) => exists k b, j = (i + k)%nat /\ l !! k = Some b /\
          0 <= bit' < bm_block_bits b /\ pfn = start_pfn b + bit' /\
          bits_from c bit ++ pfns l' = pfn :: bits_from b (bit' + 1) ++ pfns (drop (S k) l)
      | None => bits_from c bit ++ pfns l' = []
      end
  end.
Proof.
  revert i bit lo. induction l as [|c l IH]; intros i bit lo Hwf Hbit; [done|].
  destruct Hwf as (?&?&?&?&Hl). cbn [next_pfn_loop].
  destruct (bits_from_next c bit Hbit) as [Hpos ->]; [unfold bm_block_bits; lia|].
  destruct (_ <? bm_block_bits c) eqn:E; breflect.
  - exists 0%nat, c. rewrite Nat.add_0_r. done.
  - specialize (IH (S i) 0 _ Hl ltac:(lia)). destruct l as [|d l]; [by rewrite IH|].
    destruct (next_pfn_loop (d :: l) (S i) 0) as [[[j bit'] pfn]|]; [|done].
    destruct IH as (k & b & -> & Hk & ? & ? & Heq). exists (S k), b.
    split_and!; auto; lia.
Qed.

(** The set page frames the iterator has still to return. *)
Definition rest_pfns (bm : memory_bitmap) : list Z :=
  match pos_block (bm_iter bm) with
  | None => []
  | Some i =>
      match bm_blocks bm !! i with
      | Some b => bits_from b (pos_bit (bm_iter bm)) ++ pfns (drop (S i) (bm_blocks bm))
      | None => []
      end
  end.

Lemma reset_wf bm : wf_blocks 0 (bm_blocks bm) -> wf_bitmap (memory_bm_position_reset bm).
Proof.
  intros Hwf. assert (wf_position (bm_blocks bm) (Position (first_block (bm_blocks bm)) 0)).
  { split; simpl; [lia|]. destruct (bm_blocks bm); simpl; [done|lia]. }
  by split.
Qed.

Lemma reset_rest bm : rest_pfns (memory_bm_position_reset bm) = pfns (bm_blocks bm).
Proof. unfold rest_pfns. simpl. by destruct (bm_blocks bm). Qed.

Lemma next_pfn_spec bm :
  wf_bitmap bm -> bm_blocks bm <> [] ->
  exists bm' v, memory_bm_next_pfn bm = Some (bm', v) /\ wf_bitmap bm' /\
    bm_blocks bm' = bm_blocks bm /\
    match rest_pfns bm with
    | [] => v = BM_END_OF_MAP /\ bm' = memory_bm_position_reset bm
    | p :: t => v = p /\ rest_pfns bm' = t /\ p <> BM_END_OF_MAP /\
        covers (bm_blocks bm) p /\
        exists j b, pos_block (bm_iter bm') = Some j /\ bm_blocks bm !! j = Some b /\
          p = start_pfn b + pos_bit (bm_iter bm') - 1 /\ in_block p b
    end.
Proof.
  intros Hwf Hne. unfold memory_bm_next_pfn, rest_pfns at 1.
  destruct (wfb_iter _ Hwf) as [Hbit Hp]. pose proof (wfb_blocks _ Hwf) as Hb.
  destruct (pos_block (bm_iter bm)) as [i|]; [|done].
  destruct (lookup_lt_is_Some_2 _ i Hp) as [c Hc]. rewrite Hc.
  assert (exists lo, wf_blocks lo (drop i (bm_blocks bm))) as [lo Hd].
  { clear -Hb. revert Hb. generalize 0. generalize (bm_blocks bm). induction i as [|i IH].
    - intros l lo ?. rewrite drop_0. eauto.
    - intros [|b l] lo; [by eauto|]. intros (?&?&?&?&Hl). by apply (IH l (end_pfn b)). }
  pose proof (next_pfn_loop_spec _ i (pos_bit (bm_iter bm)) lo Hd Hbit) as Hs.
  rewrite (drop_S _ _ _ Hc) in Hs |- *.
  destruct (next_pfn_loop _ i _) as [[[j bit'] pfn]|].
  - destruct Hs as (k & b & -> & Hk & ? & -> & ->).
    rewrite <- (drop_S _ _ _ Hc), lookup_drop in Hk.
    pose proof (wf_blocks_lookup _ _ _ _ Hb Hk) as (?&?&?&?).
    unfold bm_block_bits, BM_END_OF_MAP in *.
    assert (in_block (start_pfn b + bit') b) by (unfold in_block; lia).
    eexists _, _. split; [done|]. split_and!; auto.
    + split; simpl; try apply Hwf. split; simpl; [lia|by eapply lookup_lt_Some].
    + unfold rest_pfns. simpl. rewrite Hk. rewrite drop_drop. do 3 f_equal.
    + lia.
    + apply covers_lookup. eauto.
    + exists (i + k)%nat, b. split_and!; auto. simpl. lia.
  - rewrite Hs. eexists _, _. split; [done|]. split_and!; auto. by apply reset_wf.
Qed.

(** ** The iterator in terms of single bits *)

(** The page frames of a block from its bit [bit] on. *)
Definition block_positions (b : bm_block) (bit : Z) : list Z :=
  seqZ (start_pfn b + bit) (bm_block_bits b - bit).

Definition positions (l : list bm_block) : list Z := flat_map (fun b => block_positions b 0) l.

Definition rest_positions (bm : memory_bitmap) : list Z :=
  match pos_block (bm_iter bm) with
  | None => []
  | Some i =>
      match bm_blocks bm !! i with
      | Some b => block_positions b (pos_bit (bm_iter bm)) ++ positions (drop (S i) (bm_blocks bm))
      | None => []
      end
  end.

Definition set_in (l : list bm_block) (ps : list Z) : list Z :=
  filter (fun q => bit_of l q = true) ps.

Lemma bits_from_set_in l i b bit :
  wf_blocks 0 l -> l !! i = Some b -> 0 <= bit ->
  bits_from b bit = set_in l (block_positions b bit).
Proof.
  intros Hwf Hi Hbit. unfold set_in, block_positions, bits_from.
  rewrite <- fmap_add_seqZ.
  change (Z.add (start_pfn b) <$> ?l) with (map (fun j => start_pfn b + j) l).
  rewrite filter_bool_map. f_equal.
  apply filter_bool_ext. intros j Hj%elem_of_seqZ.
  rewrite (bit_of_lookup 0 l i b) by (auto; unfold in_block, bm_block_bits in *; lia).
  f_equal. lia.
Qed.

Lemma pfns_set_in l k :
  wf_blocks 0 l -> pfns (drop k l) = set_in l (positions (drop k l)).
Proof.
  intros Hwf. remember (drop k l) as m eqn:Hm. revert k Hm.
  induction m as [|b m IH]; intros k Hm; [done|].
  assert (l !! k = Some b) as Hk.
  { rewrite <- (Nat.add_0_r k), <- lookup_drop, <- Hm. done. }
  cbn [pfns flat_map positions]. fold (pfns m) (positions m). unfold set_in.
  rewrite list.filter_app. f_equal; [by eapply bits_from_set_in|].
  apply (IH (S k)). rewrite (drop_S _ _ _ Hk) in Hm. by injection Hm.
Qed.

Lemma rest_pfns_set_in bm :
  wf_bitmap bm -> rest_pfns bm = set_in (bm_blocks bm) (rest_positions bm).
Proof.
  intros Hwf. unfold rest_pfns, rest_positions.
  destruct (wfb_iter _ Hwf) as [Hbit Hp]. destruct (pos_block (bm_iter bm)) as [i|]; [|done].
  destruct (bm_blocks bm !! i) as [b|] eqn:Hb; [|done].
  unfold set_in. rewrite list.filter_app. f_equal.
  - eapply bits_from_set_in; [apply Hwf|done..].
  - apply pfns_set_in, Hwf.
Qed.

Lemma positions_alter f l i k :
  positions (drop k (alter (set_data f) i l)) = positions (drop k l).
Proof.
  revert i k. induction l as [|b l IH]; intros i k; [done|].
  destruct i as [|i], k as [|k]; simpl; try done.
  - unfold positions in *. simpl. f_equal. apply (IH i 0%nat).
  - apply IH.
Qed.

Lemma rest_positions_updated bm bm' pfn v :
  updated bm bm' pfn v -> rest_positions bm' = rest_positions bm.
Proof.
  intros (_ & _ & _ & Hit & Hlen & i & f & Hb). unfold rest_positions. rewrite Hit.
  destruct (pos_block (bm_iter bm)) as [j|]; [|done]. rewrite Hb, positions_alter.
  destruct (decide (i = j)) as [->|].
  - rewrite list_lookup_alter_eq. by destruct (bm_blocks bm !! j).
  - by rewrite list_lookup_alter_ne.
Qed.

Lemma positions_after lo l q : wf_blocks lo l -> q ∈ positions l -> lo <= q.
Proof.
  revert lo. induction l as [|b l IH]; intros lo Hwf Hq; [by apply elem_of_nil in Hq|].
  destruct Hwf as (?&?&?&?&Hl). unfold positions in Hq. simpl in Hq.
  apply elem_of_app in Hq as [Hq|Hq].
  - unfold block_positions in Hq. apply elem_of_seqZ in Hq. lia.
  - specialize (IH _ Hl Hq). lia.
Qed.

Lemma wf_blocks_drop lo l i b :
  wf_blocks lo l -> l !! i = Some b -> wf_blocks (end_pfn b) (drop (S i) l).
Proof.
  revert lo i. induction l as [|c l IH]; intros lo [|i] Hwf Hi; simplify_eq/=.
  - rewrite drop_0. tauto.
  - destruct Hwf as (?&?&?&?&Hl). by eapply IH.
Qed.

(** The page frames still to come lie after the one just returned. *)
Lemma rest_positions_after bm j b p q :
  wf_bitmap bm -> pos_block (bm_iter bm) = Some j -> bm_blocks bm !! j = Some b ->
  p = start_pfn b + pos_bit (bm_iter bm) - 1 -> in_block p b -> q ∈ rest_positions bm -> p < q.
Proof.
  intros Hwf Hj Hb -> Hin Hq. unfold rest_positions in Hq. rewrite Hj, Hb in Hq.
  apply elem_of_app in Hq as [Hq|Hq].
  - unfold block_positions in Hq. apply elem_of_seqZ in Hq. lia.
  - apply (positions_after (end_pfn b)) in Hq; [unfold in_block in Hin; lia|].
    eapply wf_blocks_drop; [apply Hwf|done].
Qed.

Lemma elem_of_set_in l ps q : q ∈ set_in l ps <-> bit_of l q = true /\ q ∈ ps.
Proof. unfold set_in. by rewrite list_elem_of_filter. Qed.

Lemma positions_covers l q : q ∈ positions l <-> covers l q.
Proof.
  unfold positions, covers. induction l as [|b l IH]; simpl.
  - rewrite elem_of_nil. split; [done|]. intros H%List.Exists_nil. done.
  - rewrite elem_of_app, IH, List.Exists_cons. unfold block_positions, in_block, bm_block_bits.
    rewrite elem_of_seqZ. split; (intros [|]; [left; lia|by right]).
Qed.

Lemma elem_of_pfns l q : wf_blocks 0 l -> q ∈ pfns l <-> bit_of l q = true.
Proof.
  intros Hwf. rewrite <- (drop_0 l) at 1. rewrite pfns_set_in by done. rewrite drop_0.
  rewrite elem_of_set_in, positions_covers. split; [tauto|]. intros Hb. split; [done|].
  destruct (decide (covers l q)) as [|Hn]; [done|]. by rewrite bit_of_uncovered in Hb.
Qed.

(** What the operations that touch many bits keep. *)
Definition same_cover (bm bm' : memory_bitmap) : Prop :=
  wf_bitmap bm' /\ (bm_blocks bm <> [] -> bm_blocks bm' <> []) /\
  (forall q, covers (bm_blocks bm') q <-> covers (bm_blocks bm) q).

Lemma updated_same_cover bm bm' pfn v : updated bm bm' pfn v -> same_cover bm bm'.
Proof.
  intros (? & Hc & _ & _ & Hl & _). split_and!; auto. intros ? Hnil.
  rewrite Hnil in Hl. by destruct (bm_blocks bm).
Qed.

Lemma same_cover_trans a b c : same_cover a b -> same_cover b c -> same_cover a c.
Proof.
  intros (_ & Hb & Hab) (? & Hc & Hbc). split_and!; auto. intros q. rewrite Hbc. apply Hab.
Qed.

Section LoopFacts.
Context (hw : head_words).

Lemma clear_behind bm1 bm2 p t :
  wf_bitmap bm1 -> updated bm1 bm2 p false -> rest_pfns bm1 = t ->
  (exists j b, pos_block (bm_iter bm1) = Some j /\ bm_blocks bm1 !! j = Some b /\
     p = start_pfn b + pos_bit (bm_iter bm1) - 1 /\ in_block p b) ->
  rest_pfns bm2 = t /\ p ∉ t.
Proof.
  intros Hwf1 Hup <- (j & b & Hj & Hb & Hp & Hin).
  pose proof Hup as (Hwf2 & _ & Hbit & _).
  rewrite (rest_pfns_set_in _ Hwf2), (rest_pfns_set_in _ Hwf1).
  rewrite (rest_positions_updated _ _ _ _ Hup). split.
  - unfold set_in. apply filter_bool_ext. intros q Hq. rewrite Hbit.
    pose proof (rest_positions_after _ _ _ _ q Hwf1 Hj Hb Hp Hin Hq).
    destruct (Z.eqb_spec q p); [lia|done].
  - intros [_ Hq]%elem_of_set_in.
    pose proof (rest_positions_after _ _ _ _ p Hwf1 Hj Hb Hp Hin Hq). lia.
Qed.

Lemma clear_loop_ok fuel bm :
  wf_bitmap bm -> bm_blocks bm <> [] -> (length (rest_pfns bm) <= fuel)%nat ->
  exists bm1 p bm', memory_bm_next_pfn bm = Some (bm1, p) /\
    clear_loop hw fuel bm1 p = Some bm' /\ same_cover bm bm' /\
    forall q, bit_of (bm_blocks bm') q =
      bit_of (bm_blocks bm) q && negb (bool_decide (q ∈ rest_pfns bm)).
Proof.
  revert bm. induction fuel as [|fuel IH]; intros bm Hwf Hne Hf;
    destruct (next_pfn_spec bm Hwf Hne) as (bm1 & p & Hn & Hwf1 & Hb1 & Hr);
    destruct (rest_pfns bm) as [|p' t] eqn:Ht; try (simpl in Hf; lia).
  1,2: destruct Hr as [-> ->]; exists (memory_bm_position_reset bm), BM_END_OF_MAP,
    (memory_bm_position_reset bm); split_and!; auto;
    [by split_and!|intros q; rewrite bool_decide_eq_false_2 by apply not_elem_of_nil;
     by rewrite andb_true_r].
  destruct Hr as (-> & Hrest & Hend & Hcov & Hpos).
  exists bm1, p'. cbn [clear_loop].
  destruct (Z.eqb_spec p' BM_END_OF_MAP); [done|]. rewrite <- Hb1 in Hcov.
  destruct (clear_bit_ok hw bm1 p' Hwf1 Hcov) as (bm2 & -> & Hup).
  rewrite <- Hb1 in Hpos.
  destruct (clear_behind _ _ _ _ Hwf1 Hup Hrest Hpos) as [Hr2 Hnot].
  pose proof (updated_same_cover _ _ _ _ Hup) as Hsc.
  destruct (IH bm2) as (bm3 & p3 & bm' & -> & -> & Hsc' & Hbits);
    [apply Hup|apply Hsc; congruence|rewrite Hr2; simpl in Hf; lia|].
  exists bm'. split_and!; auto.
  { eapply same_cover_trans; [|exact Hsc']. eapply same_cover_trans; [|exact Hsc].
    split_and!; auto; intros; by rewrite Hb1. }
  intros q. rewrite Hbits, Hr2. destruct Hup as (_ & _ & Hbit & _). rewrite Hbit, Hb1.
  destruct (Z.eqb_spec q p') as [->|Hq].
  - rewrite (bool_decide_eq_true_2 (p' ∈ p' :: t)) by (by left). by rewrite andb_false_r.
  - do 2 f_equal. apply bool_decide_ext. rewrite elem_of_cons. tauto.
Qed.

Lemma memory_bm_clear_ok fuel bm :
  wf_blocks 0 (bm_blocks bm) -> bm_blocks bm <> [] ->
  (length (pfns (bm_blocks bm)) <= fuel)%nat ->
  exists bm', memory_bm_clear hw fuel bm = Some bm' /\ same_cover bm bm' /\
    forall q, bit_of (bm_blocks bm') q = false.
Proof.
  intros Hwf Hne Hf. unfold memory_bm_clear.
  destruct (clear_loop_ok fuel (memory_bm_position_reset bm)) as (bm1 & p & bm' & -> & Hc & Hs & Hb);
    [by apply reset_wf|done|by rewrite reset_rest|].
  exists bm'. split_and!; auto. intros q. rewrite Hb, reset_rest. simpl.
  destruct (bit_of (bm_blocks bm) q) eqn:E; [|done].
  by rewrite bool_decide_eq_true_2 by (by apply elem_of_pfns).
Qed.

Lemma copy_loop_ok fuel src dst :
  wf_bitmap src -> bm_blocks src <> [] -> wf_bitmap dst ->
  (forall q, q ∈ rest_pfns src -> covers (bm_blocks dst) q) ->
  (length (rest_pfns src) <= fuel)%nat ->
  exists src1 p src' dst', memory_bm_next_pfn src = Some (src1, p) /\
    copy_loop hw fuel src1 dst p = Some (src', dst') /\ bm_blocks src' = bm_blocks src /\
    same_cover dst dst' /\
    forall q, bit_of (bm_blocks dst') q =
      bit_of (bm_blocks dst) q || bool_decide (q ∈ rest_pfns src).
Proof.
  revert src dst. induction fuel as [|fuel IH]; intros src dst Hwf Hne Hd Hcov Hf;
    destruct (next_pfn_spec src Hwf Hne) as (s1 & p & -> & Hwf1 & Hb1 & Hr);
    destruct (rest_pfns src) as [|p' t] eqn:Ht; try (simpl in Hf; lia).
  1,2: destruct Hr as [-> ->]; eexists _, _, _, dst; split_and!; auto;
    [by split_and!|intros q; rewrite bool_decide_eq_false_2 by apply not_elem_of_nil;
     by rewrite orb_false_r].
  destruct Hr as (-> & Hrest & Hend & _).
  exists s1, p'. cbn [copy_loop]. destruct (Z.eqb_spec p' BM_END_OF_MAP); [done|].
  destruct (set_bit_ok hw dst p' Hd) as (d1 & -> & Hup); [apply Hcov; by left|].
  pose proof (updated_same_cover _ _ _ _ Hup) as Hsc.
  destruct (IH s1 d1) as (s2 & p2 & s' & d' & -> & -> & Hb' & Hsc' & Hbits);
    [done|congruence|apply Hup| |rewrite Hrest; simpl in Hf; lia|].
  { intros q Hq. apply Hsc, Hcov. rewrite Hrest in Hq. by right. }
  exists s', d'. split_and!; auto; [congruence|by eapply same_cover_trans|].
  intros q. rewrite Hbits, Hrest. destruct Hup as (_ & _ & Hbit & _). rewrite Hbit.
  destruct (Z.eqb_spec q p') as [->|Hq].
  - rewrite (bool_decide_eq_true_2 (p' ∈ p' :: t)) by (by left). by rewrite orb_true_r.
  - f_equal. apply bool_decide_ext. rewrite elem_of_cons. tauto.
Qed.
End LoopFacts.

(** ** Creation *)

(** Extents sorted, non-empty and apart, none below [lo].  The block count is
    an [unsigned int], which bounds the extents at 2^46 pages. *)
Fixpoint wf_mem_extents (lo : Z) (l : list mem_extent) : Prop :=
  match l with
  | [] => True
  | e :: l' => lo <= mstart e /\ mstart e < mend e < 2 ^ 46 /\ wf_mem_extents (mend e + 1) l'
  end.

Definition in_extent (q : Z) (e : mem_extent) : Prop := mstart e <= q < mend e.

Definition zone_end (z : zone) : Z := zone_start_pfn z + spanned_pages z.

Definition wf_zone (z : zone) : Prop :=
  0 <= zone_start_pfn z /\ 0 < spanned_pages z /\ zone_end z < 2 ^ 46.

Definition in_zone (q : Z) (z : zone) : Prop := zone_start_pfn z <= q < zone_end z.

Lemma absorb_ok ze ext l lo :
  wf_mem_extents lo l -> mstart ext < mend ext < 2 ^ 46 -> mstart ext <= lo ->
  (mend ext = ze \/ ze <= mend ext /\ mend ext + 1 <= lo) ->
  wf_mem_extents (mstart ext) (absorb ze ext l) /\
  forall q, Exists (in_extent q) (absorb ze ext l) <->
    in_extent q ext \/ Exists (in_extent q) l.
Proof.
  revert ext lo. induction l as [|cur l IH]; intros ext lo Hwf He Hs Hend; cbn [absorb].
  { split; [simpl; split_and!; auto; lia|]. intros q. by rewrite List.Exists_cons. }
  destruct Hwf as (?&?&Hl). destruct (Z.ltb_spec ze (mstart cur)) as [Hlt|Hge].
  { split; [simpl; split_and!; auto; lia|]. intros q. by rewrite List.Exists_cons. }
  destruct (Z.ltb_spec ze (mend cur)) as [Hlt'|Hge'].
  - destruct (IH (MemExtent (mstart ext) (mend cur)) (mend cur + 1) Hl) as [Hw Hq];
      simpl; try lia.
    split; [done|]. intros q. rewrite Hq, List.Exists_cons. unfold in_extent. simpl.
    intuition lia.
  - destruct (IH ext (mend cur + 1) Hl) as [Hw Hq]; [lia..|].
    split; [done|]. intros q. rewrite Hq, List.Exists_cons. unfold in_extent.
    intuition lia.
Qed.

(** The outcome of an allocating step: done, or out of memory, which needs a
    failed allocation. *)
Definition failing (o : list bool) : Prop := false ∈ o.

Lemma alloc_false o o' : alloc o = (false, o') -> failing o.
Proof. destruct o as [|b o]; simpl; intros; simplify_eq. by left. Qed.

Lemma alloc_suffix o b o' : alloc o = (b, o') -> failing o' -> failing o.
Proof. destruct o as [|c o]; simpl; intros; simplify_eq; [done|by right]. Qed.

Lemma add_zone_ok zs ze l o lo :
  wf_mem_extents lo l -> lo <= zs -> zs < ze < 2 ^ 46 ->
  match add_zone zs ze l o with
  | (Some r, o') => wf_mem_extents lo r /\ (failing o' -> failing o) /\
      forall q, Exists (in_extent q) r <-> zs <= q < ze \/ Exists (in_extent q) l
  | (None, _) => failing o
  end.
Proof.
  revert lo. induction l as [|e l IH]; intros lo Hwf Hlo Hz; cbn [add_zone].
  - destruct (alloc o) as [[] o'] eqn:Ha; [|by eapply alloc_false].
    split_and!; [simpl; split_and!; auto; lia|by eapply alloc_suffix|].
    intros q. by rewrite List.Exists_cons.
  - pose proof Hwf as (?&?&Hl). destruct (Z.leb_spec zs (mend e)).
    + destruct (Z.ltb_spec ze (mstart e)).
      * destruct (alloc o) as [[] o'] eqn:Ha; [|by eapply alloc_false].
        split_and!; [|by eapply alloc_suffix|intros q; by rewrite List.Exists_cons].
        cbn [wf_mem_extents mstart mend]. split_and!; auto; lia.
      * set (s := if zs <? mstart e then _ else _).
        set (e' := if mend e <? ze then _ else _).
        assert (s = Z.min zs (mstart e)) as -> by (unfold s; destruct (Z.ltb_spec zs (mstart e)); lia).
        assert (e' = Z.max ze (mend e)) as -> by (unfold e'; destruct (Z.ltb_spec (mend e) ze); lia).
        destruct (absorb_ok ze (MemExtent (Z.min zs (mstart e)) (Z.max ze (mend e))) l (mend e + 1))
          as [Hw Hq]; simpl; auto; try lia.
        split_and!; auto.
        -- clear -Hw Hlo H. simpl in Hw. destruct (absorb _ _ _) as [|x r]; [done|].
           destruct Hw as (?&?&?). simpl. split_and!; auto; lia.
        -- intros q. rewrite Hq, List.Exists_cons. unfold in_extent. simpl. intuition lia.
    + specialize (IH (mend e + 1) Hl ltac:(lia) Hz).
      destruct (add_zone zs ze l o) as [[r|] o']; [|done]. destruct IH as (Hw & Hf & Hq).
      split_and!; auto; [simpl; split_and!; auto; lia|].
      intros q. rewrite !List.Exists_cons, Hq. intuition lia.
Qed.

Lemma create_mem_extents_ok zones l o :
  Forall wf_zone zones -> wf_mem_extents 0 l ->
  match create_mem_extents_from zones l o with
  | (r, err, o') =>
      (err = 0 /\ wf_mem_extents 0 r /\ (failing o' -> failing o) /\
       forall q, Exists (in_extent q) r <-> Exists (in_zone q) zones \/ Exists (in_extent q) l)
      \/ (err = - ENOMEM /\ failing o)
  end.
Proof.
  revert l o. induction zones as [|z zones IH]; intros l o Hz Hwf; cbn [create_mem_extents_from].
  { left. split_and!; auto. intros q. rewrite List.Exists_nil. tauto. }
  apply Forall_cons_1 in Hz as [(?&?&?) Hz]. fold (zone_end z).
  rewrite u64_small by (unfold zone_end in *; lia).
  pose proof (add_zone_ok (zone_start_pfn z) (zone_end z) l o 0 Hwf) as Ha.
  destruct (add_zone _ _ l o) as [[l'|] o'];
    [|right; split; [done|apply Ha; unfold zone_end in *; lia]].
  destruct Ha as (Hw & Hf & Hq); [unfold zone_end in *; lia..|].
  specialize (IH l' o' Hz Hw). destruct (create_mem_extents_from zones l' o') as [[r err] o''].
  destruct IH as [(-> & ? & ? & Hq')|[-> ?]]; [left|right; auto].
  split_and!; auto. intros q. rewrite Hq', Hq, List.Exists_cons. unfold in_zone at 2. tauto.
Qed.

(** *** Blocks of an extent *)

Fixpoint blocks_end (lo : Z) (l : list bm_block) : Z :=
  match l with [] => lo | b :: l' => blocks_end (end_pfn b) l' end.

Lemma wf_blocks_app lo l1 l2 :
  wf_blocks lo (l1 ++ l2) <-> wf_blocks lo l1 /\ wf_blocks (blocks_end lo l1) l2.
Proof. revert lo. induction l1 as [|e l1 IH]; intros lo; simpl; [tauto|]. rewrite IH. tauto. Qed.

Lemma wf_blocks_weaken lo lo' l : wf_blocks lo l -> lo' <= lo -> wf_blocks lo' l.
Proof. destruct l; simpl; [done|]. intros (?&?&?&?&?) ?. split_and!; auto; lia. Qed.

Lemma blocks_end_app lo l1 l2 : blocks_end lo (l1 ++ l2) = blocks_end (blocks_end lo l1) l2.
Proof. revert lo. induction l1; intros; simpl; auto. Qed.

Definition blank (b : bm_block) : Prop := bm_data b = 0.

Lemma data_zero_bound : 0 <= 0 < 2 ^ BM_BITS_PER_BLOCK.
Proof. split; [lia|]. apply Z.pow_pos_nonneg; [lia|]. by rewrite BM_BITS_value. Qed.

Lemma wf_blank_block lo s e l :
  lo <= s -> s < e < 2 ^ 64 -> e - s <= 32768 -> wf_blocks e l -> wf_blocks lo (Block s e 0 :: l).
Proof.
  intros ? ? Hb ?. cbn [wf_blocks start_pfn end_pfn bm_data].
  split_and!; auto; try lia; [|apply data_zero_bound..].
  unfold bm_block_bits. by rewrite BM_BITS_value.
Qed.

Lemma covers_cons b l q : covers (b :: l) q <-> in_block q b \/ covers l q.
Proof. apply List.Exists_cons. Qed.

Lemma fill_blocks_ok n pfn pages o :
  0 <= pfn -> 0 < pages -> pfn + pages < 2 ^ 46 ->
  (Z.of_nat n - 1) * 32768 < pages <= Z.of_nat n * 32768 ->
  match fill_blocks n pfn pages o with
  | (Some l, o') => wf_blocks pfn l /\ blocks_end pfn l = pfn + pages /\ Forall blank l /\
      (forall q, covers l q <-> pfn <= q < pfn + pages) /\ (failing o' -> failing o)
  | (None, _) => failing o
  end.
Proof.
  revert pfn pages o. induction n as [|n IH]; intros pfn pages o Hp Hg Hmax Hn; [lia|].
  cbn [fill_blocks]. destruct (alloc o) as [[] o1] eqn:Ha; [|by eapply alloc_false].
  pose proof (alloc_suffix _ _ _ Ha) as Hsuf.
  assert (forall e, pfn < e <= pfn + 32768 -> e = pfn + pages ->
    wf_blocks pfn [Block pfn e 0] /\ blocks_end pfn [Block pfn e 0] = pfn + pages /\
    Forall blank [Block pfn e 0] /\
    (forall q, covers [Block pfn e 0] q <-> pfn <= q < pfn + pages)) as Hlast.
  { intros e He ->. split_and!; [apply wf_blank_block; simpl; lia|done|by repeat constructor|].
    intros q. rewrite covers_cons. unfold covers, in_block. rewrite List.Exists_nil. simpl. tauto. }
  rewrite BM_BITS_value.
  destruct (Z.leb_spec 32768 pages) as [Hle|Hgt]; rewrite u64_small by lia.
  - destruct (decide (n = 0%nat)) as [->|Hn0]; cbn [fill_blocks].
    { destruct (Hlast (pfn + 32768)) as (?&?&?&?); [lia..|]. split_and!; auto. }
    specialize (IH (pfn + 32768) (pages - 32768) o1 ltac:(lia) ltac:(lia) ltac:(lia) ltac:(lia)).
    destruct (fill_blocks n (pfn + 32768) (pages - 32768) o1) as [[l|] o2]; [|by auto].
    destruct IH as (? & Hend & ? & Hq & ?). split_and!.
    + apply wf_blank_block; auto; lia.
    + cbn [blocks_end end_pfn]. lia.
    + by constructor.
    + intros q. rewrite covers_cons, Hq. unfold in_block. simpl. lia.
    + auto.
  - assert (n = 0%nat) as -> by lia. cbn [fill_blocks].
    destruct (Hlast (pfn + pages)) as (?&?&?&?); [lia..|]. split_and!; auto.
Qed.

Lemma nr_blocks_spec pages :
  0 < pages < 2 ^ 46 ->
  (Z.of_nat (nr_blocks pages) - 1) * 32768 < pages <= Z.of_nat (nr_blocks pages) * 32768.
Proof.
  intros Hp. unfold nr_blocks. rewrite BM_BITS_value.
  pose proof (DIV_ROUND_UP_spec pages 32768 ltac:(lia) ltac:(lia)).
  unfold u32. rewrite Z.mod_small by lia. rewrite Z2Nat.id by lia. lia.
Qed.

Lemma alloc_blocks_suffix n o ok o' :
  alloc_blocks n o = (ok, o') -> (failing o' -> failing o) /\ (ok = false -> failing o).
Proof.
  revert o. induction n as [|n IH]; intros o; cbn [alloc_blocks]; [by intros [= <- <-]|].
  destruct (alloc o) as [[] o1] eqn:Ha.
  - intros Hn. destruct (IH _ Hn). pose proof (alloc_suffix _ _ _ Ha). auto.
  - intros [= <- <-]. split; eauto using alloc_suffix, alloc_false.
Qed.

Lemma covers_app l1 l2 q : covers (l1 ++ l2) q <-> covers l1 q \/ covers l2 q.
Proof. apply List.Exists_app. Qed.

Lemma create_blocks_ok exts acc o lo :
  0 <= lo -> wf_mem_extents lo exts -> wf_blocks 0 acc -> blocks_end 0 acc <= lo ->
  Forall blank acc ->
  match create_blocks exts acc o with
  | (Some l, _) => wf_blocks 0 l /\ Forall blank l /\
      forall q, covers l q <-> covers acc q \/ Exists (in_extent q) exts
  | (None, _) => failing o
  end.
Proof.
  revert acc o lo. induction exts as [|e exts IH]; intros acc o lo Hlo Hwf Hacc Hend Hbl;
    cbn [create_blocks].
  { split_and!; auto. intros q. rewrite List.Exists_nil. tauto. }
  destruct Hwf as (?&?&Hl). unfold create_bm_block_list. rewrite u64_small by lia.
  destruct (alloc_blocks _ o) as [ok o1] eqn:Ha.
  destruct (alloc_blocks_suffix _ _ _ _ Ha) as [Hs1 Hs2].
  destruct ok; simpl; [|by auto].
  pose proof (fill_blocks_ok (nr_blocks (mend e - mstart e)) (mstart e) (mend e - mstart e) o1
    ltac:(lia) ltac:(lia) ltac:(lia) ltac:(apply nr_blocks_spec; lia)) as Hfill.
  destruct (fill_blocks _ _ _ o1) as [[l|] o2]; [|by auto].
  destruct Hfill as (Hw & He & Hb & Hq & Hs3).
  specialize (IH (acc ++ l) o2 (mend e + 1) ltac:(lia) Hl).
  destruct (create_blocks exts (acc ++ l) o2) as [[r|] o3].
  - destruct IH as (?&?&Hr).
    + apply wf_blocks_app. split; [done|]. eapply wf_blocks_weaken; [done|lia].
    + rewrite blocks_end_app. destruct l as [|b l]; [simpl in *; lia|].
      cbn [blocks_end] in *. lia.
    + by apply Forall_app.
    + split_and!; auto. intros q. rewrite Hr, covers_app, Hq, List.Exists_cons.
      unfold in_extent at 2. replace (mstart e + (mend e - mstart e)) with (mend e) by lia. tauto.
  - apply Hs1, Hs3, IH.
    + apply wf_blocks_app. split; [done|]. eapply wf_blocks_weaken; [done|lia].
    + rewrite blocks_end_app. destruct l as [|b l]; [simpl in *; lia|].
      cbn [blocks_end] in *. lia.
    + by apply Forall_app.
Qed.

Lemma blank_bit_of l q : Forall blank l -> bit_of l q = false.
Proof.
  unfold bit_of. induction 1 as [|b l Hb _ IH]; [done|]. cbn [existsb].
  rewrite IH, Hb, Z.bits_0. by rewrite andb_false_r.
Qed.

Lemma memory_bm_create_ok zones o bm bm' err :
  Forall wf_zone zones -> memory_bm_create zones o bm = (bm', err) ->
  (err = 0 /\ wf_bitmap bm' /\ Forall blank (bm_blocks bm') /\
   forall q, covers (bm_blocks bm') q <-> Exists (in_zone q) zones)
  \/ (err = - ENOMEM /\ bm_blocks bm' = [] /\ failing o).
Proof.
  intros Hz. unfold memory_bm_create, create_mem_extents.
  pose proof (create_mem_extents_ok zones [] o Hz I) as He.
  destruct (create_mem_extents_from zones [] o) as [[exts e] o1].
  destruct He as [(-> & Hw & Hs & Hq)|[-> Hf]]; simpl; [|intros [= <- <-]; by right].
  pose proof (create_blocks_ok exts [] o1 0 ltac:(lia) Hw I ltac:(simpl; lia) ltac:(constructor)) as Hc.
  destruct (create_blocks exts [] o1) as [[l|] o2]; intros [= <- <-]; [left|right; auto].
  destruct Hc as (?&?&Hl). split_and!; auto.
  - by apply reset_wf.
  - intros q. simpl. rewrite Hl, Hq. unfold covers. rewrite !List.Exists_nil. tauto.
Qed.

(** ** Storing a bitmap in the image header *)

Definition block_bytes (b : bm_block) : list Z := block_range_bytes b ++ block_data_bytes b.

Definition bitmap_bytes (bm : memory_bitmap) : list Z :=
  le_bytes 4 (u32 (Z.of_nat (length (bm_blocks bm)))) ++ flat_map block_bytes (bm_blocks bm).

Definition same_ranges (l l' : list bm_block) : Prop :=
  Forall2 (fun b b' => start_pfn b = start_pfn b' /\ end_pfn b = end_pfn b') l l'.

Lemma page_data_decode b :
  0 <= bm_data b < 2 ^ BM_BITS_PER_BLOCK -> le_val (block_data_bytes b) = bm_data b.
Proof.
  intros Hd. unfold block_data_bytes. rewrite le_val_bytes. apply Z.mod_small.
  replace (256 ^ Z.of_nat (Z.to_nat PAGE_SIZE)) with (2 ^ BM_BITS_PER_BLOCK); [done|].
  change 256 with (2 ^ 8). rewrite <- Z.pow_mul_r by lia. f_equal.
Qed.

Lemma block_data_length b : length (block_data_bytes b) = Z.to_nat PAGE_SIZE.
Proof. apply length_le_bytes. Qed.

Lemma find_start_middle pre b post lo s :
  wf_blocks lo (pre ++ s :: post) -> start_pfn b = start_pfn s ->
  forall post', find_start (pre ++ b :: post') (start_pfn s) = Some (length pre).
Proof.
  intros Hwf Hb post'. unfold find_start. rewrite list_find_app_r.
  - simpl. by rewrite decide_True by done.
  - revert lo Hwf. induction pre as [|c pre IH]; intros lo Hwf; [done|].
    simpl in Hwf. destruct Hwf as (?&?&?&?&Hl). simpl. rewrite decide_False.
    + by rewrite (IH _ Hl).
    + assert ((pre ++ s :: post) !! length pre = Some s) as Hs by apply list_lookup_middle, eq_refl.
      pose proof (wf_blocks_lookup _ _ _ _ Hl Hs). lia.
Qed.

Section StoreFacts.
Context {W : Type} `{HeaderWriter W} {R : Type} `{HeaderReader R}.

Lemma write_blocks_ok l w w' acc :
  hw_content w acc -> write_blocks l w = (w', 0) ->
  hw_content w' (acc ++ flat_map block_bytes l).
Proof.
  revert w acc. induction l as [|b l IH]; intros w acc Hc Hw; cbn [write_blocks flat_map] in *.
  - injection Hw as <-. by rewrite app_nil_r.
  - destruct (hw_chunk None (block_range_bytes b) w) as [w1 r1] eqn:H1.
    destruct (Z.eqb_spec r1 0) as [->|]; cbn [negb] in Hw; [|by simplify_eq].
    destruct (hw_chunk None (block_data_bytes b) w1) as [w2 r2] eqn:H2.
    destruct (Z.eqb_spec r2 0) as [->|]; cbn [negb] in Hw; [|by simplify_eq].
    pose proof (hw_chunk_ok2 _ _ _ _ _ _ _ _ Hc H1 H2) as Hc2.
    apply (IH _ _ Hc2) in Hw. unfold block_bytes at 1. by rewrite <- app_assoc in Hw.
Qed.

Lemma memory_bm_write_ok bm w w' acc :
  hw_content w acc -> memory_bm_write (Some bm) w = (w', 0) ->
  hw_content w' (acc ++ bitmap_bytes bm).
Proof.
  unfold memory_bm_write, bitmap_bytes. intros Hc Hw.
  destruct (hw_chunk None _ w) as [w1 r1] eqn:H1.
  destruct (Z.eqb_spec r1 0) as [->|]; cbn [negb] in Hw; [|by simplify_eq].
  eapply hw_chunk_ok in H1; [|exact Hc]. rewrite app_assoc. by eapply write_blocks_ok.
Qed.

Lemma read_blocks_ok s pre cur r rest :
  wf_blocks 0 (pre ++ s) -> same_ranges cur s ->
  hr_pending r (flat_map block_bytes s ++ rest) ->
  exists r', read_blocks (length s) (pre ++ cur) r = (r', pre ++ s, 0) /\ hr_pending r' rest.
Proof.
  revert pre cur r. induction s as [|b s IH]; intros pre cur r Hwf Hr Hp;
    inversion Hr as [|c b' cur' s' [Hcs Hce] Hr']; simplify_eq; [by exists r|].
  cbn [length read_blocks flat_map] in *. unfold block_bytes, block_range_bytes in Hp.
  rewrite <- !app_assoc in Hp.
  assert ((pre ++ b :: s) !! length pre = Some b) as Hb by (by apply list_lookup_middle).
  pose proof (wf_blocks_lookup _ _ _ _ Hwf Hb) as (?&?&?&?). clear Hb.
  apply hr_chunk_ok in Hp as (r1 & Hc1 & Hp). rewrite length_le_bytes in Hc1. rewrite Hc1.
  cbn [Z.eqb negb]. rewrite le_val_bytes8, u64_small by lia.
  rewrite (find_start_middle pre c s 0 b) by done.
  apply hr_chunk_ok in Hp as (r2 & Hc2 & Hp). rewrite length_le_bytes in Hc2. rewrite Hc2.
  cbn [Z.eqb negb]. rewrite list_lookup_middle by done.
  rewrite le_val_bytes8, u64_small, Hce, Z.eqb_refl by lia.
  cbn [negb]. apply hr_chunk_ok in Hp as (r3 & Hc3 & Hp).
  rewrite block_data_length in Hc3. rewrite Hc3.
  cbn [Z.eqb negb]. rewrite page_data_decode by done.
  rewrite alter_app_r_alt, Nat.sub_diag by done.
  replace (alter _ 0%nat (c :: cur')) with (b :: cur')
    by (simpl; rewrite Hcs, Hce; by destruct b).
  change (b :: cur') with ([b] ++ cur'). change (b :: s) with ([b] ++ s). rewrite !app_assoc.
  apply IH; auto. by rewrite <- app_assoc.
Qed.
End StoreFacts.

(** ** The properties of the component *)

(** Call [memory_bm_next_pfn] until the end of the map. *)
Fixpoint collect (fuel : nat) (bm : memory_bitmap) : option (list Z * memory_bitmap) :=
  match fuel with
  | O => None
  | S fuel' =>
      match memory_bm_next_pfn bm with
      | None => None
      | Some (bm', pfn) =>
          if pfn =? BM_END_OF_MAP then Some ([], bm')
          else
            match collect fuel' bm' with
            | Some (l, bm'') => Some (pfn :: l, bm'')
            | None => None
            end
      end
  end.

Lemma collect_ok fuel bm :
  wf_bitmap bm -> bm_blocks bm <> [] -> (length (rest_pfns bm) < fuel)%nat ->
  collect fuel bm = Some (rest_pfns bm, memory_bm_position_reset bm).
Proof.
  revert bm. induction fuel as [|fuel IH]; intros bm Hwf Hne Hf; [lia|]. cbn [collect].
  destruct (next_pfn_spec bm Hwf Hne) as (bm1 & p & -> & Hwf1 & Hb1 & Hr).
  destruct (rest_pfns bm) as [|p' t]; [by destruct Hr as [-> ->]|].
  destruct Hr as (-> & Hrest & Hend & _). destruct (Z.eqb_spec p' BM_END_OF_MAP); [done|].
  rewrite IH, Hrest; [|done|congruence|rewrite Hrest; simpl in Hf; lia].
  unfold memory_bm_position_reset. by rewrite Hb1.
Qed.

Lemma positions_ascending lo l : wf_blocks lo l -> ascending lo (positions l).
Proof.
  revert lo. induction l as [|b l IH]; intros lo Hwf; [done|].
  destruct Hwf as (?&?&?&?&Hl). unfold positions. simpl. fold (positions l).
  unfold block_positions, bm_block_bits. rewrite Z.add_0_r, Z.sub_0_r.
  apply ascending_weaken with (start_pfn b); [|done].
  apply ascending_app with (end_pfn b).
  - apply ascending_seqZ.
  - intros x Hx%elem_of_seqZ. lia.
  - lia.
  - by apply IH.
Qed.

Lemma pfns_ascending l : wf_blocks 0 l -> ascending 0 (pfns l).
Proof.
  intros Hwf. rewrite <- (drop_0 l), pfns_set_in, drop_0 by done.
  unfold set_in. by apply ascending_filter, positions_ascending.
Qed.

(** A bitmap over two ranges, three bits set. *)
Definition sample : memory_bitmap :=
  memory_bm_position_reset
    (Bitmap [Block 16 20 5; Block 32 40 128] (Position None 0) (Position None 0)).

Lemma small_data d : 0 <= d < 2 ^ 64 -> 0 <= d < 2 ^ BM_BITS_PER_BLOCK.
Proof.
  intros. assert (2 ^ 64 <= 2 ^ BM_BITS_PER_BLOCK); [|lia].
  apply Z.pow_le_mono_r; [lia|]. by rewrite BM_BITS_value.
Qed.

Lemma wf_small_block lo s e d l :
  lo <= s -> s < e < 2 ^ 64 -> e - s <= 32768 -> 0 <= d < 2 ^ 64 -> wf_blocks e l ->
  wf_blocks lo (Block s e d :: l).
Proof.
  intros ? ? Hb Hd ?. apply small_data in Hd. cbn [wf_blocks start_pfn end_pfn bm_data].
  split_and!; try done; try apply Hd; try lia.
Qed.

Lemma sample_wf : wf_bitmap sample.
Proof. apply reset_wf. repeat (apply wf_small_block; try lia). done. Qed.

(** Whatever the cursor left by earlier operations, setting, clearing and
    testing the bit of a covered page frame behave as on a set of page frames:
    the bit takes the new value, every other bit keeps its own, the covered
    page frames and the iteration cursor do not change; on a page frame the
    bitmap does not cover, the checked setter returns -EFAULT without change
    and the others hit [BUG_ON]. *)
Theorem bit_operations hw bm pfn :
  wf_bitmap bm ->
  (covers (bm_blocks bm) pfn ->
     (exists bm', memory_bm_set_bit hw bm pfn = Some bm' /\ updated bm bm' pfn true) /\
     (exists bm', memory_bm_clear_bit hw bm pfn = Some bm' /\ updated bm bm' pfn false) /\
     (exists bm', memory_bm_test_bit hw bm pfn = Some (bm', bit_of (bm_blocks bm) pfn) /\
        wf_bitmap bm' /\ bm_blocks bm' = bm_blocks bm /\ bm_iter bm' = bm_iter bm) /\
     snd (memory_bm_pfn_present hw bm pfn) = true) /\
  (~ covers (bm_blocks bm) pfn ->
     memory_bm_set_bit hw bm pfn = None /\ memory_bm_clear_bit hw bm pfn = None /\
     memory_bm_test_bit hw bm pfn = None /\
     mem_bm_set_bit_check hw bm pfn = (bm, - EFAULT) /\
     memory_bm_pfn_present hw bm pfn = (bm, false)).
Proof.
  intros Hwf. split; intros Hc.
  - split_and!; auto using set_bit_ok, clear_bit_ok, test_bit_ok.
    unfold memory_bm_pfn_present.
    by destruct (find_bit_covered hw bm pfn Hwf Hc) as (i & b & _ & _ & ->).
  - unfold memory_bm_set_bit, memory_bm_clear_bit, memory_bm_test_bit,
      mem_bm_set_bit_check, memory_bm_pfn_present.
    by rewrite find_bit_uncovered.
Qed.

Lemma bit_operations_witness :
  let hw := HeadWords 12345 67890 in
  (covers (bm_blocks sample) 33 ->
     (exists bm', memory_bm_set_bit hw sample 33 = Some bm' /\ updated sample bm' 33 true) /\
     (exists bm', memory_bm_clear_bit hw sample 33 = Some bm' /\ updated sample bm' 33 false) /\
     (exists bm', memory_bm_test_bit hw sample 33 = Some (bm', bit_of (bm_blocks sample) 33) /\
        wf_bitmap bm' /\ bm_blocks bm' = bm_blocks sample /\ bm_iter bm' = bm_iter sample) /\
     snd (memory_bm_pfn_present hw sample 33) = true) /\
  (~ covers (bm_blocks sample) 33 ->
     memory_bm_set_bit hw sample 33 = None /\ memory_bm_clear_bit hw sample 33 = None /\
     memory_bm_test_bit hw sample 33 = None /\
     mem_bm_set_bit_check hw sample 33 = (sample, - EFAULT) /\
     memory_bm_pfn_present hw sample 33 = (sample, false)).
Proof. apply (bit_operations (HeadWords 12345 67890) sample 33 sample_wf). Defined.

(** After a position reset, repeated calls of [memory_bm_next_pfn] return
    exactly the set page frames, in increasing order, then [BM_END_OF_MAP],
    leaving the positions reset; one more call than there are set bits
    suffices. *)
Theorem next_pfn_enumerates bm fuel :
  wf_blocks 0 (bm_blocks bm) -> bm_blocks bm <> [] ->
  (length (pfns (bm_blocks bm)) < fuel)%nat ->
  exists l, collect fuel (memory_bm_position_reset bm) = Some (l, memory_bm_position_reset bm) /\
    ascending 0 l /\ forall q, q ∈ l <-> bit_of (bm_blocks bm) q = true.
Proof.
  intros Hwf Hne Hf. exists (pfns (bm_blocks bm)).
  rewrite collect_ok, reset_rest; [|by apply reset_wf|done|by rewrite reset_rest].
  split_and!; [done|by apply pfns_ascending|]. intros q. by apply elem_of_pfns.
Qed.

Lemma next_pfn_enumerates_witness :
  exists l, collect 4 (memory_bm_position_reset sample)
      = Some (l, memory_bm_position_reset sample) /\
    ascending 0 l /\ forall q, q ∈ l <-> bit_of (bm_blocks sample) q = true.
Proof.
  apply (next_pfn_enumerates sample 4); [apply sample_wf|done|]. vm_compute. lia.
Defined.

(** [memory_bm_dup] ends, and makes the destination's bits those of the
    source, whatever it held, when it covers the source's set page frames. *)
Theorem dup_copies_bits hw src dst fuel :
  wf_blocks 0 (bm_blocks src) -> bm_blocks src <> [] ->
  wf_blocks 0 (bm_blocks dst) -> bm_blocks dst <> [] ->
  (forall q, bit_of (bm_blocks src) q = true -> covers (bm_blocks dst) q) ->
  (length (pfns (bm_blocks src)) <= fuel)%nat -> (length (pfns (bm_blocks dst)) <= fuel)%nat ->
  exists src' dst', memory_bm_dup hw fuel src dst = Some (src', dst') /\
    bm_blocks src' = bm_blocks src /\ same_cover dst dst' /\
    forall q, bit_of (bm_blocks dst') q = bit_of (bm_blocks src) q.
Proof.
  intros Hs Hsn Hd Hdn Hcov Hfs Hfd. unfold memory_bm_dup.
  destruct (memory_bm_clear_ok hw fuel dst Hd Hdn Hfd) as (d1 & -> & Hsc & Hz).
  unfold memory_bm_copy.
  destruct (copy_loop_ok hw fuel (memory_bm_position_reset src) d1)
    as (s1 & p & s' & d' & -> & Hc & Hb & Hsc' & Hbits);
    [by apply reset_wf|done|apply Hsc| |by rewrite reset_rest|].
  { intros q. rewrite reset_rest. intros Hq%elem_of_pfns; [|done]. by apply Hsc, Hcov. }
  exists s', d'. split_and!; auto; [by eapply same_cover_trans|].
  intros q. rewrite Hbits, Hz, reset_rest. simpl. apply eq_true_iff_eq.
  rewrite bool_decide_eq_true. by apply elem_of_pfns.
Qed.

Lemma dup_copies_bits_witness :
  let dst := Bitmap [Block 10 50 7] (Position None 0) (Position None 0) in
  exists src' dst', memory_bm_dup (HeadWords 0 0) 3 sample dst = Some (src', dst') /\
    bm_blocks src' = bm_blocks sample /\ same_cover dst dst' /\
    forall q, bit_of (bm_blocks dst') q = bit_of (bm_blocks sample) q.
Proof.
  intros dst. apply (dup_copies_bits (HeadWords 0 0) sample dst 3);
    [apply sample_wf|done| |done| |vm_compute; lia..].
  - apply wf_small_block; try lia. done.
  - intros q Hq. apply covers_cons. left.
    destruct (decide (covers (bm_blocks sample) q)) as [Hc|Hc];
      [|by rewrite bit_of_uncovered in Hq].
    unfold in_block. simpl. repeat (apply List.Exists_cons in Hc as [Hc|Hc]; [unfold in_block in Hc; simpl in Hc; lia|]).
    by apply List.Exists_nil in Hc.
Defined.

(** Creating a bitmap for a machine's populated zones either fails with
    -ENOMEM, which needs a failed allocation, leaving no blocks; or succeeds
    with well-formed blocks that cover exactly the page frames of the zones,
    adjacent and overlapping zones merged, and with every bit clear. *)
Theorem create_covers_zones zones o bm :
  Forall wf_zone zones ->
  exists bm' err, memory_bm_create zones o bm = (bm', err) /\
    (err = 0 /\ wf_bitmap bm' /\ (forall q, bit_of (bm_blocks bm') q = false) /\
       (forall q, covers (bm_blocks bm') q <-> Exists (in_zone q) zones)
     \/ err = - ENOMEM /\ bm_blocks bm' = [] /\ failing o).
Proof.
  intros Hz. destruct (memory_bm_create zones o bm) as [bm' err] eqn:Hc. exists bm', err.
  split; [done|].
  destruct (memory_bm_create_ok _ _ _ _ _ Hz Hc) as [(-> & ? & ? & ?)|?]; [left|by right].
  split_and!; auto using blank_bit_of.
Qed.

Definition sample_zones : list zone := [Zone 32 8; Zone 16 2; Zone 18 2].

Lemma sample_zones_wf : Forall wf_zone sample_zones.
Proof. repeat constructor; unfold zone_end; simpl; lia. Qed.

Lemma create_covers_zones_witness :
  exists bm' err, memory_bm_create sample_zones [true; false] sample = (bm', err) /\
    (err = 0 /\ wf_bitmap bm' /\ (forall q, bit_of (bm_blocks bm') q = false) /\
       (forall q, covers (bm_blocks bm') q <-> Exists (in_zone q) sample_zones)
     \/ err = - ENOMEM /\ bm_blocks bm' = [] /\ failing [true; false]).
Proof. apply (create_covers_zones sample_zones [true; false] sample sample_zones_wf). Defined.

(** A saved bitmap is read back by a kernel with the same block ranges. *)
Lemma memory_bm_read_ok {R : Type} `{HeaderReader R} zones bm bm0 bm1 (r : R) rest :
  wf_blocks 0 (bm_blocks bm) -> Z.of_nat (length (bm_blocks bm)) < 2 ^ 32 ->
  memory_bm_create zones [] bm0 = (bm1, 0) -> same_ranges (bm_blocks bm1) (bm_blocks bm) ->
  hr_pending r (bitmap_bytes bm ++ rest) ->
  exists r' bm', memory_bm_read zones [] (Some bm0) r = (r', Some bm', 0) /\
    bm_blocks bm' = bm_blocks bm /\ hr_pending r' rest.
Proof.
  intros Hwf Hlen Hcr Hsame Hp.
  unfold memory_bm_read. rewrite Hcr. cbn [Z.eqb negb].
  unfold bitmap_bytes in Hp. rewrite <- app_assoc in Hp.
  apply hr_chunk_ok in Hp as (r1 & Hc1 & Hp). rewrite length_le_bytes in Hc1.
  rewrite Hc1. cbn [Z.eqb negb]. rewrite le_val_bytes4. unfold u32.
  rewrite (Z.mod_small (_ mod _)), (Z.mod_small (Z.of_nat _)), Nat2Z.id
    by (try apply Z.mod_pos_bound; lia).
  destruct (read_blocks_ok _ [] _ r1 rest Hwf Hsame Hp) as (r2 & Hr & Hp2).
  simpl app in Hr. rewrite Hr. by eexists _, _.
Qed.

(** A bitmap written without error to the image header is read back block
    for block, bits included, by a kernel whose zones give the same block
    ranges, and the header stream is left right after it. *)
Theorem write_read_roundtrip {W R : Type} `{HeaderWriter W} `{HeaderReader R}
    zones bm bm0 bm1 (w w' : W) (r : R) acc rest :
  wf_blocks 0 (bm_blocks bm) -> Z.of_nat (length (bm_blocks bm)) < 2 ^ 32 ->
  memory_bm_create zones [] bm0 = (bm1, 0) -> same_ranges (bm_blocks bm1) (bm_blocks bm) ->
  hw_content w acc -> memory_bm_write (Some bm) w = (w', 0) ->
  (forall bs, hw_content w' (acc ++ bs) -> hr_pending r (bs ++ rest)) ->
  exists r' bm', memory_bm_read zones [] (Some bm0) r = (r', Some bm', 0) /\
    bm_blocks bm' = bm_blocks bm /\ hr_pending r' rest.
Proof.
  intros Hwf Hlen Hcr Hsame Hc Hw Hp. eapply memory_bm_read_ok; eauto using memory_bm_write_ok.
Qed.

Lemma write_read_roundtrip_witness :
  let w := bitmap_bytes sample ++ [1; 2; 3] in
  exists r' bm', memory_bm_read sample_zones [] (Some sample) w = (r', Some bm', 0) /\
    bm_blocks bm' = bm_blocks sample /\ hr_pending r' [1; 2; 3].
Proof.
  intros w.
  apply (write_read_roundtrip sample_zones sample sample
    (fst (memory_bm_create sample_zones [] sample)) [] (bitmap_bytes sample) w [] [1; 2; 3]).
  - apply sample_wf.
  - simpl. lia.
  - vm_compute. reflexivity.
  - vm_compute. repeat constructor.
  - reflexivity.
  - vm_compute. reflexivity.
  - intros bs Hb. change (w = bs ++ [1; 2; 3]). unfold w. by rewrite <- Hb.
Defined.

Lemma read_blocks_unknown {R : Type} `{HeaderReader R} n l r s rest :
  0 <= s < 2 ^ 64 -> Forall (fun b => start_pfn b <> s) l ->
  hr_pending r (le_bytes 8 s ++ rest) ->
  exists r', read_blocks (S n) l r = (r', l, - EINVAL).
Proof.
  intros Hs Hl Hp. cbn [read_blocks].
  apply hr_chunk_ok in Hp as (r1 & Hc1 & _). rewrite length_le_bytes in Hc1.
  rewrite Hc1. cbn [Z.eqb negb]. rewrite le_val_bytes8, u64_small by done.
  unfold find_start. rewrite (proj2 (list_find_None _ _) Hl). by exists r1.
Qed.

(** A saved bitmap whose first block starts at a page frame where this
    kernel's map has no block is refused with -EINVAL and the half-read
    bitmap is freed. *)
Theorem read_refuses_other_layout {R : Type} `{HeaderReader R}
    zones bm0 bm1 nr s rest (r : R) :
  memory_bm_create zones [] bm0 = (bm1, 0) -> 0 < nr < 2 ^ 32 -> 0 <= s < 2 ^ 64 ->
  Forall (fun b => start_pfn b <> s) (bm_blocks bm1) ->
  hr_pending r (le_bytes 4 nr ++ le_bytes 8 s ++ rest) ->
  exists r' bm', memory_bm_read zones [] (Some bm0) r = (r', Some bm', - EINVAL) /\
    bm_blocks bm' = [].
Proof.
  intros Hcr Hnr Hs Hl Hp. unfold memory_bm_read. rewrite Hcr. cbn [Z.eqb negb].
  apply hr_chunk_ok in Hp as (r1 & Hc1 & Hp). rewrite length_le_bytes in Hc1.
  rewrite Hc1. cbn [Z.eqb negb]. rewrite le_val_bytes4. unfold u32. rewrite Z.mod_small by lia.
  destruct (Z.to_nat nr) as [|n] eqn:En; [lia|].
  destruct (read_blocks_unknown n _ _ _ _ Hs Hl Hp) as (r2 & ->).
  by eexists _, _.
Qed.

Lemma read_refuses_other_layout_witness :
  exists r' bm', memory_bm_read sample_zones [] (Some sample)
      (le_bytes 4 2 ++ le_bytes 8 17 ++ []) = (r', Some bm', - EINVAL) /\ bm_blocks bm' = [].
Proof.
  apply (read_refuses_other_layout sample_zones sample
    (fst (memory_bm_create sample_zones [] sample)) 2 17 []).
  - vm_compute. reflexivity.
  - lia.
  - lia.
  - vm_compute. repeat constructor; done.
  - reflexivity.
Defined.
