(* ===== verification/States.v ===== *)
(** * State words: kernel/power/tuxonice.h, include/linux/suspend.h

    The three unsigned longs that steer a cycle: [toi_bkd.toi_action] (what
    the user asked for), [toi_result] (what went wrong) and [toi_state] (where
    the cycle stands).  A flag is a bit number. *)

From S2P Require Import Prelude.
From stdpp Require Import base list numbers.
#[local] Open Scope Z_scope.

(** ** Actions *)

Inductive action_flag :=
  TOI_REBOOT | TOI_PAUSE | TOI_LOGALL | TOI_CAN_CANCEL | TOI_KEEP_IMAGE | TOI_FREEZER_TEST
| TOI_SINGLESTEP | TOI_PAUSE_NEAR_PAGESET_END | TOI_TEST_FILTER_SPEED | TOI_TEST_BIO
| TOI_NO_PAGESET2 | TOI_IGNORE_ROOTFS | TOI_REPLACE_SWSUSP | TOI_PAGESET2_FULL
| TOI_ABORT_ON_RESAVE_NEEDED | TOI_NO_MULTITHREADED_IO | TOI_NO_DIRECT_LOAD
| TOI_LATE_CPU_HOTPLUG | TOI_GET_MAX_MEM_ALLOCD | TOI_NO_FLUSHER_THREAD
| TOI_NO_PS2_IF_UNNEEDED.

Definition action_bit (f : action_flag) : Z :=
  match f with
  | TOI_REBOOT => 0 | TOI_PAUSE => 1 | TOI_LOGALL => 2 | TOI_CAN_CANCEL => 3
  | TOI_KEEP_IMAGE => 4 | TOI_FREEZER_TEST => 5 | TOI_SINGLESTEP => 6
  | TOI_PAUSE_NEAR_PAGESET_END => 7 | TOI_TEST_FILTER_SPEED => 8 | TOI_TEST_BIO => 9
  | TOI_NO_PAGESET2 => 10 | TOI_IGNORE_ROOTFS => 11 | TOI_REPLACE_SWSUSP => 12
  | TOI_PAGESET2_FULL => 13 | TOI_ABORT_ON_RESAVE_NEEDED => 14
  | TOI_NO_MULTITHREADED_IO => 15 | TOI_NO_DIRECT_LOAD => 16 | TOI_LATE_CPU_HOTPLUG => 17
  | TOI_GET_MAX_MEM_ALLOCD => 18 | TOI_NO_FLUSHER_THREAD => 19
  | TOI_NO_PS2_IF_UNNEEDED => 20
  end.

Definition test_action_state (f : action_flag) (w : Z) : bool := test_flag (action_bit f) w.
Definition clear_action_state (f : action_flag) (w : Z) : Z := clear_flag (action_bit f) w.

(** ** Results *)

Inductive result_flag :=
  TOI_ABORTED | TOI_ABORT_REQUESTED | TOI_NOSTORAGE_AVAILABLE | TOI_INSUFFICIENT_STORAGE
| TOI_FREEZING_FAILED | TOI_KEPT_IMAGE | TOI_WOULD_EAT_MEMORY
| TOI_UNABLE_TO_FREE_ENOUGH_MEMORY | TOI_PM_SEM | TOI_DEVICE_REFUSED | TOI_SYSDEV_REFUSED
| TOI_EXTRA_PAGES_ALLOW_TOO_SMALL | TOI_UNABLE_TO_PREPARE_IMAGE | TOI_FAILED_MODULE_INIT
| TOI_FAILED_MODULE_CLEANUP | TOI_FAILED_IO | TOI_OUT_OF_MEMORY | TOI_IMAGE_ERROR
| TOI_PLATFORM_PREP_FAILED | TOI_CPU_HOTPLUG_FAILED | TOI_ARCH_PREPARE_FAILED
| TOI_RESAVE_NEEDED | TOI_CANT_SUSPEND | TOI_NOTIFIERS_PREPARE_FAILED
| TOI_PRE_SNAPSHOT_FAILED | TOI_PRE_RESTORE_FAILED | TOI_USERMODE_HELPERS_ERR
| TOI_CANT_USE_ALT_RESUME | TOI_HEADER_TOO_BIG.

Definition result_bit (f : result_flag) : Z :=
  match f with
  | TOI_ABORTED => 0 | TOI_ABORT_REQUESTED => 1 | TOI_NOSTORAGE_AVAILABLE => 2
  | TOI_INSUFFICIENT_STORAGE => 3 | TOI_FREEZING_FAILED => 4 | TOI_KEPT_IMAGE => 5
  | TOI_WOULD_EAT_MEMORY => 6 | TOI_UNABLE_TO_FREE_ENOUGH_MEMORY => 7 | TOI_PM_SEM => 8
  | TOI_DEVICE_REFUSED => 9 | TOI_SYSDEV_REFUSED => 10
  | TOI_EXTRA_PAGES_ALLOW_TOO_SMALL => 11 | TOI_UNABLE_TO_PREPARE_IMAGE => 12
  | TOI_FAILED_MODULE_INIT => 13 | TOI_FAILED_MODULE_CLEANUP => 14 | TOI_FAILED_IO => 15
  | TOI_OUT_OF_MEMORY => 16 | TOI_IMAGE_ERROR => 17 | TOI_PLATFORM_PREP_FAILED => 18
  | TOI_CPU_HOTPLUG_FAILED => 19 | TOI_ARCH_PREPARE_FAILED => 20 | TOI_RESAVE_NEEDED => 21
  | TOI_CANT_SUSPEND => 22 | TOI_NOTIFIERS_PREPARE_FAILED => 23
  | TOI_PRE_SNAPSHOT_FAILED => 24 | TOI_PRE_RESTORE_FAILED => 25
  | TOI_USERMODE_HELPERS_ERR => 26 | TOI_CANT_USE_ALT_RESUME => 27
  | TOI_HEADER_TOO_BIG => 28
  end.

Definition set_result_state (f : result_flag) (w : Z) : Z := set_flag (result_bit f) w.
Definition clear_result_state (f : result_flag) (w : Z) : Z := clear_flag (result_bit f) w.
Definition test_result_state (f : result_flag) (w : Z) : bool := test_flag (result_bit f) w.

Definition set_abort_result (f : result_flag) (w : Z) : Z :=
  set_result_state f (set_result_state TOI_ABORTED w).

(** The [abort_hibernate] macro: with a user interface loaded the [abort]
    method sets the bits ([userui_abort_hibernate]), without one
    [set_abort_result] does. *)
Definition userui_abort_hibernate (f : result_flag) (w : Z) : Z :=
  let w := set_result_state f w in
  if test_result_state TOI_ABORTED w then w else set_result_state TOI_ABORTED w.

Definition abort_hibernate (ui : bool) (f : result_flag) (w : Z) : Z :=
  if ui then userui_abort_hibernate f w else set_abort_result f w.

(** ** What a write to sysfs starts *)

Definition SYSFS_HIBERNATE : Z := 4.
Definition SYSFS_RESUME : Z := 8.
Definition SYSFS_NEEDS_SM_FOR_WRITE : Z := 2.
Definition SYSFS_HIBERNATING : Z := Z.lor SYSFS_HIBERNATE SYSFS_NEEDS_SM_FOR_WRITE.
Definition SYSFS_RESUMING : Z := Z.lor SYSFS_RESUME SYSFS_NEEDS_SM_FOR_WRITE.

(** ** Cycle state *)

Inductive state_flag :=
  TOI_CAN_HIBERNATE | TOI_CAN_RESUME | TOI_RESUME_DEVICE_OK | TOI_NORESUME_SPECIFIED
| TOI_SANITY_CHECK_PROMPT | TOI_CONTINUE_REQ | TOI_RESUMED_BEFORE | TOI_BOOT_TIME
| TOI_NOW_RESUMING | TOI_IGNORE_LOGLEVEL | TOI_TRYING_TO_RESUME | TOI_LOADING_ALT_IMAGE
| TOI_STOP_RESUME | TOI_IO_STOPPED | TOI_NOTIFIERS_PREPARE | TOI_CLUSTER_MODE
| TOI_BOOT_KERNEL.

Definition state_bit (f : state_flag) : Z :=
  match f with
  | TOI_CAN_HIBERNATE => 0 | TOI_CAN_RESUME => 1 | TOI_RESUME_DEVICE_OK => 2
  | TOI_NORESUME_SPECIFIED => 3 | TOI_SANITY_CHECK_PROMPT => 4 | TOI_CONTINUE_REQ => 5
  | TOI_RESUMED_BEFORE => 6 | TOI_BOOT_TIME => 7 | TOI_NOW_RESUMING => 8
  | TOI_IGNORE_LOGLEVEL => 9 | TOI_TRYING_TO_RESUME => 10 | TOI_LOADING_ALT_IMAGE => 11
  | TOI_STOP_RESUME => 12 | TOI_IO_STOPPED => 13 | TOI_NOTIFIERS_PREPARE => 14
  | TOI_CLUSTER_MODE => 15 | TOI_BOOT_KERNEL => 16
  end.

Definition set_toi_state (f : state_flag) (w : Z) : Z := set_flag (state_bit f) w.
Definition clear_toi_state (f : state_flag) (w : Z) : Z := clear_flag (state_bit f) w.
Definition test_toi_state (f : state_flag) (w : Z) : bool := test_flag (state_bit f) w.

#[export] Instance action_flag_eq_dec : EqDecision action_flag.
Proof. solve_decision. Defined.
#[export] Instance result_flag_eq_dec : EqDecision result_flag.
Proof. solve_decision. Defined.
#[export] Instance state_flag_eq_dec : EqDecision state_flag.
Proof. solve_decision. Defined.

(** ** Laws of the flags *)

Lemma result_bit_nonneg f : 0 <= result_bit f.
Proof. destruct f; simpl; lia. Qed.

Lemma result_bit_inj f g : result_bit f = result_bit g -> f = g.
Proof. destruct f, g; simpl; intros; (reflexivity || lia). Qed.

Lemma test_set_result f g w :
  test_result_state g (set_result_state f w) =
    bool_decide (f = g) || test_result_state g w.
Proof.
  unfold test_result_state, set_result_state. case_bool_decide as E; simpl.
  - subst. apply test_set_flag, result_bit_nonneg.
  - apply test_set_flag_ne; [apply result_bit_nonneg|]. intros ?. by apply E, result_bit_inj.
Qed.

Lemma test_clear_result f g w :
  test_result_state g (clear_result_state f w) =
    negb (bool_decide (f = g)) && test_result_state g w.
Proof.
  unfold test_result_state, clear_result_state. case_bool_decide as E; simpl.
  - subst. apply test_clear_flag.
  - apply test_clear_flag_ne. intros ?. by apply E, result_bit_inj.
Qed.

Lemma state_bit_nonneg f : 0 <= state_bit f.
Proof. destruct f; simpl; lia. Qed.

Lemma state_bit_inj f g : state_bit f = state_bit g -> f = g.
Proof. destruct f, g; simpl; intros; (reflexivity || lia). Qed.

Lemma test_set_state f g w :
  test_toi_state g (set_toi_state f w) = bool_decide (f = g) || test_toi_state g w.
Proof.
  unfold test_toi_state, set_toi_state. case_bool_decide as E; simpl.
  - subst. apply test_set_flag, state_bit_nonneg.
  - apply test_set_flag_ne; [apply state_bit_nonneg|]. intros ?. by apply E, state_bit_inj.
Qed.

Lemma test_clear_state f g w :
  test_toi_state g (clear_toi_state f w) = negb (bool_decide (f = g)) && test_toi_state g w.
Proof.
  unfold test_toi_state, clear_toi_state. case_bool_decide as E; simpl.
  - subst. apply test_clear_flag.
  - apply test_clear_flag_ne. intros ?. by apply E, state_bit_inj.
Qed.

(** Aborting reads the same whether or not a user interface is loaded: the
    reason and [TOI_ABORTED] are set, every other result bit is kept. *)
Lemma abort_hibernate_spec ui f g w :
  test_result_state g (abort_hibernate ui f w) =
    bool_decide (g = f) || bool_decide (g = TOI_ABORTED) || test_result_state g w.
Proof.
  unfold abort_hibernate, userui_abort_hibernate, set_abort_result.
  assert (forall a b : result_flag, bool_decide (a = b) = bool_decide (b = a)) as Hsym
    by (intros a b; apply bool_decide_ext; split; congruence).
  destruct ui; [destruct (test_result_state TOI_ABORTED (set_result_state f w)) eqn:E|].
  - rewrite test_set_result, Hsym in *. destruct (decide (g = TOI_ABORTED)) as [->|Hg].
    + rewrite E. by destruct (bool_decide (TOI_ABORTED = f)).
    + rewrite (bool_decide_eq_false_2 (g = TOI_ABORTED)) by done. by rewrite orb_false_r.
  - rewrite !test_set_result, (Hsym f g), (Hsym TOI_ABORTED g).
    by destruct (bool_decide (g = f)), (bool_decide (g = TOI_ABORTED)).
  - rewrite !test_set_result, (Hsym f g), (Hsym TOI_ABORTED g).
    by destruct (bool_decide (g = f)), (bool_decide (g = TOI_ABORTED)).
Qed.
