(* ===== verification/BlockIO.v ===== *)
(** * Block I/O: kernel/power/tuxonice_block_io.c

    The image is laid out on a tape of blocks (the extent chains of
    [toi_writer_posn]); this layer moves along the tape a page at a time,
    gathers byte chunks into pages, queues full pages for writing and reads
    pages ahead.

    A bio completes when it is submitted: the waiting done by [do_bio_wait],
    [toi_finish_all_io] and the two throttles then only delays, and is not
    represented, except for the flush of the queue that the throughput
    throttle performs.  The static variables of the file are the fields of
    [bio_state]; a [BUG_ON], a null buffer or an index outside [toi_devinfo]
    is the outcome [None]. *)

From S2P Require Import Prelude HeaderStream Extents States.
From stdpp Require Import base list numbers.
#[local] Open Scope Z_scope.
#[local] Open Scope step_scope.

(** A page of bytes. *)
Abbreviation page := (list Z).

(** A block device is its device number, the kernel having one [struct
    block_device] per number; 0 is [NULL] and the negative numbers are the
    error pointers. *)
Record toi_bdev_info := BdevInfo {
  bdev : Z;
  dev_t : Z;
  bmap_shift : Z;
  blocks_per_page : Z;
  ignored : bool
}.

#[export] Instance toi_bdev_info_eta : Eta toi_bdev_info := fun d =>
  BdevInfo (bdev d) (dev_t d) (bmap_shift d) (blocks_per_page d) (ignored d).

(** A disk maps a device and a sector to the sector's bytes. *)
Definition disk : Type := Z -> Z -> list Z.

Record bio_state := BioState {
  toi_writer_posn : toi_extent_iterate_state;
  toi_writer_posn_save : list hibernate_extent_iterate_saved_state;
  toi_devinfo : list toi_bdev_info;
  toi_writer_buffer : option page;
  toi_writer_buffer_posn : Z;
  bio_queue : list page;
  readahead_list : list page;
  more_readahead : bool;
  extra_page_forward : bool;
  current_stream : Z;
  the_disk : disk;
  total_header_bytes : Z;
  unowned : Z;
  target_outstanding_io : Z;
  throughput_throttle : Z;
  toi_io_done : Z;
  header_used : list Z;        (* per module: header_used *)
  header_requested : list Z;   (* per module: header_requested *)
  filter_speed_test : bool;    (* TOI_TEST_FILTER_SPEED *)
  is_queue_flusher : bool;     (* current == toi_queue_flusher *)
  toi_result : Z;
  ui_loaded : bool;
  memory : list bool           (* outcomes of the page allocations to come *)
}.

#[export] Instance bio_state_eta : Eta bio_state := fun s =>
  BioState (toi_writer_posn s) (toi_writer_posn_save s) (toi_devinfo s) (toi_writer_buffer s)
    (toi_writer_buffer_posn s) (bio_queue s) (readahead_list s) (more_readahead s)
    (extra_page_forward s) (current_stream s) (the_disk s) (total_header_bytes s) (unowned s)
    (target_outstanding_io s) (throughput_throttle s) (toi_io_done s) (header_used s)
    (header_requested s) (filter_speed_test s) (is_queue_flusher s) (toi_result s)
    (ui_loaded s) (memory s).

Definition READ : bool := false.
Definition WRITE : bool := true.

Definition zero_page : page := repeat 0 (Z.to_nat PAGE_SIZE).

(** ** Pages on disk *)

Definition SECTOR : nat := 512.
Definition SECTORS_PER_PAGE : Z := 8.

Definition disk_write (d : disk) (dev sector : Z) (p : page) : disk := fun dev' s =>
  if (dev' =? dev) && (sector <=? s) && (s <? sector + SECTORS_PER_PAGE)
  then take SECTOR (drop (Z.to_nat (s - sector) * SECTOR) p)
  else d dev' s.

Definition disk_read (d : disk) (dev sector : Z) : page :=
  flat_map (fun k => d dev (sector + k)) (seqZ 0 SECTORS_PER_PAGE).

(** ** Submitting I/O *)

(** [toi_get_zeroed_page]: the next outcome of the allocator. *)
Definition toi_get_zeroed_page : M bio_state (option page) := fun st =>
  match memory st with
  | [] => Some (st, Some zero_page)
  | ok :: rest => Some (st {{ memory := rest }}, if ok : bool then Some zero_page else None)
  end.

(** [submit]: the transfer, faked under the filter speed test. *)
Definition submit (writing : bool) (dev first_block : Z) (p : page) : M bio_state page := fun st =>
  let st' := st {{ toi_io_done := s32 (toi_io_done st + 1) }} in
  if filter_speed_test st then Some (st', p)
  else if writing then
    Some (st' {{ the_disk := disk_write (the_disk st) dev first_block p }}, p)
  else Some (st', disk_read (the_disk st) dev first_block).

Definition toi_do_io (writing : bool) (dev block0 : Z) (p : page) (is_readahead : bool)
    : M bio_state Z :=
  p' <-- submit writing dev block0 p;;
  (if is_readahead
   then modify (fun st => st {{ readahead_list := readahead_list st ++ [p'] }})
   else ret tt);;;
  ret 0.

(** [toi_bdev_page_io], with the page transferred. *)
Definition toi_bdev_page_io (writing : bool) (dev pos : Z) (p : page) : M bio_state (page * Z) :=
  p' <-- submit writing dev pos p;; ret (p', 0).

Definition toi_set_devinfo (info : list toi_bdev_info) : M bio_state unit :=
  modify (fun st => st {{ toi_devinfo := info }}).

Definition debug_broken_header : M bio_state Z :=
  modify (fun st =>
    st {{ toi_result := abort_hibernate (ui_loaded st) TOI_HEADER_TOO_BIG (toi_result st) }});;;
  ret (- EIO).

(** ** Moving along the tape *)

(** [for (i = 0; i < max; i++) toi_extent_state_next(&toi_writer_posn)] *)
Fixpoint next_blocks (n : nat) (p : toi_extent_iterate_state) : toi_extent_iterate_state :=
  match n with
  | O => p
  | S n' => next_blocks n' (fst (toi_extent_state_next p))
  end.

(** The saved position that ends the current stream. *)
Definition compare_to (stream : Z) : nat :=
  if stream =? 0 then 2%nat
  else if stream =? 1 then 3%nat
  else if stream =? 2 then 1%nat
  else 0%nat.

(** [compare_offset] is an [int] compared with an unsigned long. *)
Definition at_barrier (st : bio_state) : option bool :=
  match toi_writer_posn_save st !! compare_to (current_stream st) with
  | None => None
  | Some sv =>
      Some ((current_chain (toi_writer_posn st) =? chain_num sv) &&
            (current_offset (toi_writer_posn st) =? u64 (s32 (saved_offset sv))))
  end.

(** [max]: how many blocks the current page takes. *)
Definition blocks_to_skip (st : bio_state) : option Z :=
  let n := current_chain (toi_writer_posn st) in
  if n =? -1 then Some 1
  else if n <? 0 then None
  else blocks_per_page <$> toi_devinfo st !! Z.to_nat n.

(** [go_next_page] up to the test of [extra_page_forward]. *)
Definition advance (writing section_barrier : bool) : M bio_state Z := fun st =>
  match blocks_to_skip st, at_barrier st with
  | Some max, Some barrier =>
      let move st :=
        let p := next_blocks (Z.to_nat max) (toi_writer_posn st) in
        Some (st {{ toi_writer_posn := p }},
              if toi_extent_state_eof p then - ENODATA else 0) in
      if section_barrier && barrier then
        if writing then
          if current_stream st =? 0 then debug_broken_header st else move st
        else Some (st {{ more_readahead := false }}, - ENODATA)
      else move st
  | _, _ => None
  end.

(** The recursive call is made with [extra_page_forward] clear, so it does
    not recurse again. *)
Definition go_next_page (writing section_barrier : bool) : M bio_state Z :=
  r <-- advance writing section_barrier;;
  or_return r (
    extra <-- get extra_page_forward;;
    if extra : bool then
      modify (fun st => st {{ extra_page_forward := false }});;;
      advance writing section_barrier
    else ret 0).

Definition set_extra_page_forward : M bio_state unit :=
  modify (fun st => st {{ extra_page_forward := true }}).

Definition toi_bio_rw_page (writing : bool) (p : page) (is_readahead : bool) : M bio_state Z :=
  result <-- go_next_page writing true;;
  or_return result (fun st =>
    match toi_devinfo st !! Z.to_nat (current_chain (toi_writer_posn st)) with
    | None => None
    | Some dev_info =>
        toi_do_io writing (bdev dev_info)
          (Z.shiftl (current_offset (toi_writer_posn st)) (bmap_shift dev_info))
          p is_readahead st
    end).

(** ** The write queue *)

Definition toi_bio_queue_write : M bio_state unit := fun st =>
  match toi_writer_buffer st with
  | None => None
  | Some p => Some (st {{ bio_queue := bio_queue st ++ [p]; toi_writer_buffer := None }}, tt)
  end.

(** The [while (bio_queue_head)] loop: after an error the remaining pages are
    freed without being written. *)
Fixpoint flush_loop (q : list page) (result : Z) : M bio_state Z :=
  match q with
  | [] => ret result
  | p :: q' =>
      modify (fun st => st {{ bio_queue := q' }});;;
      result' <-- (if result =? 0 then toi_bio_rw_page WRITE p false else ret result);;
      flush_loop q' result'
  end.

Definition toi_bio_queue_flush_pages : M bio_state Z :=
  q <-- get bio_queue;; flush_loop q 0.

(** [throttle_if_needed]: nothing is in progress, so the memory throttle does
    not wait; the throughput throttle flushes the queue. *)
Definition throttle_if_needed (memory_only : bool) : M bio_state Z := fun st =>
  if negb memory_only && negb (throughput_throttle st =? 0)
     && (throughput_throttle st <=? Z.of_nat (length (bio_queue st)))
  then toi_bio_queue_flush_pages st
  else Some (st, 0).

Definition update_throughput_throttle (jif_index : Z) : M bio_state unit :=
  modify (fun st => st {{ throughput_throttle := (toi_io_done st ÷ jif_index) ÷ 5 }}).

Definition toi_finish_all_io : M bio_state Z := toi_bio_queue_flush_pages.

(** [while (!*full_buffer)]: try until a page is had. *)
Fixpoint alloc_until (mem : list bool) : list bool :=
  match mem with
  | false :: rest => alloc_until rest
  | true :: rest => rest
  | [] => []
  end.

Definition toi_bio_get_new_page : M bio_state Z :=
  result <-- throttle_if_needed false;;
  or_return result (
    modify (fun st =>
      match toi_writer_buffer st with
      | Some _ => st
      | None => st {{ toi_writer_buffer := Some zero_page; memory := alloc_until (memory st) }}
      end);;;
    ret 0).

(** ** Streams *)

Definition toi_rw_init (writing : bool) (stream_number : Z) : M bio_state Z := fun st =>
  let posn :=
    if negb (stream_number =? 0) then
      match toi_writer_posn_save st !! Z.to_nat stream_number with
      | Some sv => toi_extent_state_restore (toi_writer_posn st) sv
      | None => None
      end
    else Some (toi_extent_state_goto_start (toi_writer_posn st)) in
  match posn with
  | None => None
  | Some posn =>
      (buf <-- toi_get_zeroed_page;;
       modify (fun st => st {{ toi_io_done := 0; toi_writer_buffer := buf;
                               toi_writer_buffer_posn := if writing then 0 else PAGE_SIZE;
                               current_stream := stream_number; more_readahead := true }});;;
       ret (match buf with Some _ => 0 | None => - ENOMEM end))
      (st {{ toi_writer_posn := posn }})
  end.

Definition toi_read_header_init : M bio_state unit :=
  buf <-- toi_get_zeroed_page;;
  modify (fun st => st {{ toi_writer_buffer := buf; more_readahead := true }}).

(** [toi_extent_state_save(&toi_writer_posn, &toi_writer_posn_save[i])] *)
Definition save_posn (i : nat) : M bio_state unit := fun st =>
  match toi_extent_state_save (toi_writer_posn st) with
  | None => None
  | Some sv => Some (st {{ toi_writer_posn_save := <[i := sv]> (toi_writer_posn_save st) }}, tt)
  end.

Definition toi_rw_cleanup (writing : bool) : M bio_state Z :=
  result <--
    (if writing then
       st <-- get (fun st => st);;
       (if negb (toi_writer_buffer_posn st =? 0) && negb (test_result_state TOI_ABORTED (toi_result st))
        then toi_bio_queue_write else ret tt);;;
       result <-- toi_bio_queue_flush_pages;;
       or_return result (
         (if current_stream st =? 2 then save_posn 1
          else if current_stream st =? 1 then save_posn 3 else ret tt);;;
         ret 0)
     else ret 0);;
  or_return result (
    result <-- toi_finish_all_io;;
    modify (fun st => st {{ readahead_list := []; current_stream := 0 }});;;
    ret result).

(** ** Readahead *)

(** [toi_start_one_readahead]: a thread dedicated to readahead retries the
    page allocation, another one gives up at the second failure. *)
Definition readahead_page (dedicated_thread : bool) (mem : list bool) : option (list bool) :=
  if dedicated_thread then Some (alloc_until mem)
  else match mem with
       | false :: false :: _ => None
       | false :: true :: rest => Some rest
       | true :: rest => Some rest
       | [false] => Some []
       | [] => Some []
       end.

Definition toi_start_one_readahead (dedicated_thread : bool) : M bio_state Z :=
  result <-- throttle_if_needed false;;
  or_return result (fun st =>
    match readahead_page dedicated_thread (memory st) with
    | None => Some (st {{ memory := drop 2 (memory st) }}, - ENOMEM)
    | Some rest => toi_bio_rw_page READ zero_page true (st {{ memory := rest }})
    end).

(** The [do] loop of [toi_start_new_readahead], [n] more rounds allowed;
    [n] rounds are always enough, see [readahead_rounds]. *)
Fixpoint readahead_loop (n : nat) (dedicated_thread : bool) (num_submitted : Z) : M bio_state Z :=
  match n with
  | O => bug
  | S n' =>
      last_result <-- toi_start_one_readahead dedicated_thread;;
      if negb (last_result =? 0) then
        ret (if (last_result =? - ENOMEM) || (last_result =? - ENODATA) then 0 else last_result)
      else
        st <-- get (fun st => st);;
        if more_readahead st &&
           (dedicated_thread ||
            ((num_submitted + 1 <? target_outstanding_io st) && (0 <? target_outstanding_io st)))
        then readahead_loop n' dedicated_thread (num_submitted + 1)
        else ret 0
  end.

(** A round moves along the tape, or ends the loop. *)
Definition readahead_rounds (st : bio_state) : nat :=
  S (S (length (rest_of (toi_writer_posn st)))).

Definition toi_start_new_readahead (dedicated_thread : bool) : M bio_state Z := fun st =>
  if more_readahead st then readahead_loop (readahead_rounds st) dedicated_thread 0 st
  else Some (st, 0).

Definition bio_io_flusher (writing : bool) : M bio_state Z :=
  if writing then toi_bio_queue_flush_pages else toi_start_new_readahead true.

Definition toi_bio_get_next_page_read (no_readahead : bool) : M bio_state Z :=
  r1 <-- (if no_readahead then toi_start_one_readahead false else ret 0);;
  if negb (r1 =? 0) then ret (- EIO)
  else
    st <-- get (fun st => st);;
    r2 <-- (match readahead_list st with
            | [] => if more_readahead st then toi_start_one_readahead false else bug
            | _ => ret 0
            end);;
    if negb (r2 =? 0) then ret (- EIO)
    else fun st =>
      match readahead_list st, toi_writer_buffer st with
      | p :: rest, Some _ =>
          Some (st {{ toi_writer_buffer := Some p; readahead_list := rest }}, 0)
      | _, _ => None
      end.

(** ** Byte chunks *)

(** [memcpy] into the buffer at [pos]. *)
Definition splice (buf : page) (pos : nat) (bs : list Z) : page :=
  take pos buf ++ bs ++ drop (pos + length bs) buf.

(** [toi_rw_buffer] when writing; a round fills the buffer or ends, and
    only a full buffer takes nothing, so the fuel below is enough. *)
Fixpoint write_buffer (fuel : nat) (bs : list Z) : M bio_state Z :=
  match bs with
  | [] => ret 0
  | _ =>
      match fuel with
      | O => bug
      | S fuel' =>
          st <-- get (fun st => st);;
          match toi_writer_buffer st with
          | None => bug
          | Some buf =>
              let posn := Z.to_nat (toi_writer_buffer_posn st) in
              let capacity := (Z.to_nat PAGE_SIZE - posn)%nat in
              if (length bs <=? capacity)%nat then
                modify (fun st => st {{
                  toi_writer_buffer := Some (splice buf posn bs);
                  toi_writer_buffer_posn :=
                    toi_writer_buffer_posn st + Z.of_nat (length bs) }});;;
                ret 0
              else
                modify (fun st => st {{
                  toi_writer_buffer := Some (splice buf posn (take capacity bs)) }});;;
                toi_bio_queue_write;;;
                result <-- toi_bio_get_new_page;;
                or_return result (
                  modify (fun st => st {{ toi_writer_buffer_posn := 0 }});;;
                  write_buffer fuel' (drop capacity bs))
          end
      end
  end.

(** [toi_rw_buffer] when reading [n] bytes; [acc] are those read so far. *)
Fixpoint read_buffer (fuel n : nat) (no_readahead : bool) (acc : list Z)
    : M bio_state (list Z * Z) :=
  match n with
  | O => ret (acc, 0)
  | _ =>
      match fuel with
      | O => bug
      | S fuel' =>
          st <-- get (fun st => st);;
          match toi_writer_buffer st with
          | None => bug
          | Some buf =>
              let posn := Z.to_nat (toi_writer_buffer_posn st) in
              let capacity := (Z.to_nat PAGE_SIZE - posn)%nat in
              if (n <=? capacity)%nat then
                modify (fun st => st {{
                  toi_writer_buffer_posn := toi_writer_buffer_posn st + Z.of_nat n }});;;
                ret (acc ++ take n (drop posn buf), 0)
              else
                result <-- toi_bio_get_next_page_read no_readahead;;
                if negb (result =? 0) then ret (acc ++ drop posn buf, result)
                else
                  modify (fun st => st {{ toi_writer_buffer_posn := 0 }});;;
                  read_buffer fuel' (n - capacity) no_readahead (acc ++ drop posn buf)
          end
      end
  end.

Definition toi_rw_buffer_write (bs : list Z) : M bio_state Z :=
  write_buffer (S (S (length bs))) bs.

Definition toi_rw_buffer_read (n : nat) (no_readahead : bool) : M bio_state (list Z * Z) :=
  read_buffer (S (S n)) n no_readahead [].

(** ** Pages of the image: [destination pfn|page size|page data] *)

Definition toi_bio_write_page (pfn : Z) (buffer : page) (buf_size : Z) : M bio_state Z := fun st =>
  if filter_speed_test st then Some (st, 0)
  else if test_result_state TOI_ABORTED (toi_result st) then Some (st, - EIO)
  else
    (r1 <-- toi_rw_buffer_write (le_bytes 8 pfn);;
     r2 <-- (if r1 =? 0 then toi_rw_buffer_write (le_bytes 4 buf_size) else ret r1);;
     r3 <-- (if r2 =? 0 then toi_rw_buffer_write (take (Z.to_nat buf_size) buffer) else ret r2);;
     let result := if r3 =? 0 then 0 else - EIO in
     flusher <-- get is_queue_flusher;;
     result2 <-- (if flusher : bool then toi_bio_queue_flush_pages else ret 0);;
     ret (if negb (result =? 0) then result else result2)) st.

(** The page read: its frame number, its size and its bytes. *)
Definition toi_bio_read_page : M bio_state (Z * Z * list Z * Z) :=
  flusher <-- get is_queue_flusher;;
  result2 <-- (if flusher : bool then toi_start_new_readahead false else ret 0);;
  if negb (result2 =? 0) then ret (0, 0, [], - EIO)
  else
    let failed := 
      modify (fun st =>
        st {{ toi_result := abort_hibernate (ui_loaded st) TOI_FAILED_IO (toi_result st) }});;;
      ret (0, 0, [], 1) in
    a <-- toi_rw_buffer_read 8 false;;
    if negb (snd a =? 0) then failed
    else
      b <-- toi_rw_buffer_read 4 false;;
      if negb (snd b =? 0) then failed
      else
        c <-- toi_rw_buffer_read (Z.to_nat (le_val (fst b))) false;;
        if negb (snd c =? 0) then failed
        else ret (le_val (fst a), le_val (fst b), fst c, 0).

(** ** Header chunks *)

(** The accounting at the head of [_toi_rw_header_chunk]; [None]: the owner
    has used more than it asked for. *)
Definition charge_owner (o : owner) (size : Z) (st : bio_state) : bio_state * bool :=
  match o with
  | Some i =>
      match header_used st !! i, header_requested st !! i with
      | Some used, Some requested =>
          let used' := s32 (used + size) in
          (st {{ header_used := <[i := used']> (header_used st) }}, used' <=? requested)
      | _, _ => (st, false)
      end
  | None => (st {{ unowned := s32 (unowned st + size) }}, true)
  end.

Definition add_header_bytes (size : Z) : M bio_state unit :=
  modify (fun st => st {{ total_header_bytes := s32 (total_header_bytes st + size) }}).

Definition _toi_rw_header_chunk_write (o : owner) (bs : list Z) : M bio_state Z := fun st =>
  let size := Z.of_nat (length bs) in
  match charge_owner o size st with
  | (st', false) => Some (st', size)
  | (st', true) =>
      (result <-- toi_rw_buffer_write bs;; add_header_bytes size;;; ret result) st'
  end.

Definition _toi_rw_header_chunk_read (o : owner) (n : nat) (no_readahead : bool)
    : M bio_state (list Z * Z) := fun st =>
  let size := Z.of_nat n in
  match charge_owner o size st with
  | (st', false) => Some (st', ([], size))
  | (st', true) =>
      (result <-- (if no_readahead then ret 0 else toi_start_new_readahead false);;
       r <-- (if result =? 0 then toi_rw_buffer_read n no_readahead else ret ([], result));;
       add_header_bytes size;;; ret r) st'
  end.

Definition write_header_chunk_finish : M bio_state Z :=
  posn <-- get toi_writer_buffer_posn;;
  (if negb (posn =? 0) then toi_bio_queue_write else ret tt);;;
  result <-- toi_finish_all_io;;
  modify (fun st => st {{ unowned := 0; total_header_bytes := 0 }});;;
  ret result.

(** ** Module entry points *)

Definition toi_bio_storage_needed : Z := sizeof_int.

Definition toi_bio_save_config_info (st : bio_state) : list Z :=
  le_bytes 4 (target_outstanding_io st).

Definition toi_bio_load_config_info (buf : list Z) : M bio_state unit :=
  modify (fun st => st {{ target_outstanding_io := s32 (le_val (take 4 buf)) }}).

Definition toi_bio_initialise (starting_cycle : bool) : M bio_state Z :=
  (if starting_cycle then modify (fun st => st {{ is_queue_flusher := true }}) else ret tt);;;
  ret 0.

Definition toi_bio_cleanup : M bio_state unit :=
  modify (fun st => st {{ toi_writer_buffer := None }}).
