(* ===== verification/BlockIOFacts.v ===== *)
(** * Correctness of the block I/O layer

    The tape of pages behind [go_next_page], the effect of flushing and of
    reading ahead on the disk and the streams, and the theorems that what is
    written to a stream is what is read from it. *)

From S2P Require Import Prelude HeaderStream Extents States BlockIO.
From stdpp Require Import base list numbers.
#[local] Open Scope Z_scope.
#[local] Arguments Z.to_nat : simpl never.
#[local] Arguments Nat.mul : simpl never.

(** ** Pages on disk *)

Definition full_page (p : page) : Prop := length p = Z.to_nat PAGE_SIZE.

Lemma page_positive : (0 < Z.to_nat PAGE_SIZE)%nat.
Proof. unfold PAGE_SIZE. lia. Qed.

(** Two page-sized transfers touch no common sector. *)
Definition apart (a b : Z * Z) : Prop :=
  fst a <> fst b \/ snd a + SECTORS_PER_PAGE <= snd b \/ snd b + SECTORS_PER_PAGE <= snd a.

Lemma apart_sym a b : apart a b -> apart b a.
Proof. unfold apart. intuition congruence. Qed.

Lemma chunks_take (m : nat) (p : list Z) (n : nat) :
  flat_map (fun k => take m (drop (k * m) p)) (seq 0 n) = take (n * m) p.
Proof.
  induction n as [|n IH]; [done|].
  rewrite seq_S, flat_map_app, IH. simpl. rewrite app_nil_r.
  rewrite Nat.mul_succ_l. rewrite <- (firstn_skipn (n * m) (take (n * m + m) p)).
  rewrite firstn_firstn, Nat.min_l by lia. f_equal.
  rewrite skipn_firstn_comm. f_equal. lia.
Qed.

Lemma zero_page_full : full_page zero_page.
Proof. unfold full_page, zero_page. apply repeat_length. Qed.

Lemma flat_map_ext_in {A B} (f g : A -> list B) l :
  (forall x, x ∈ l -> f x = g x) -> flat_map f l = flat_map g l.
Proof.
  induction l as [|x l IH]; intros Hx; [done|]. simpl.
  rewrite (Hx x) by (by left). f_equal. apply IH. intros y ?. apply Hx. by right.
Qed.

Lemma flat_map_map {A B C} (f : B -> list C) (g : A -> B) l :
  flat_map f (map g l) = flat_map (fun x => f (g x)) l.
Proof. induction l; simpl; congruence. Qed.

Lemma disk_read_same d dev s p : full_page p -> disk_read (disk_write d dev s p) dev s = p.
Proof.
  intros Hp. unfold disk_read, disk_write.
  rewrite (flat_map_ext_in _ (fun k => take SECTOR (drop (Z.to_nat k * SECTOR) p))).
  - change (seqZ 0 SECTORS_PER_PAGE) with (map Z.of_nat (seq 0 8)).
    rewrite flat_map_map.
    rewrite (flat_map_ext_in _ (fun k => take SECTOR (drop (k * SECTOR) p)))
      by (intros; by rewrite Nat2Z.id).
    rewrite chunks_take. apply firstn_all2. unfold full_page in Hp. rewrite Hp.
    by apply Nat.leb_le.
  - intros k Hk%elem_of_seqZ. unfold SECTORS_PER_PAGE in *. rewrite Z.eqb_refl.
    destruct (Z.leb_spec s (s + k)), (Z.ltb_spec (s + k) (s + 8)); try lia. simpl.
    do 3 f_equal. lia.
Qed.

Lemma disk_read_other d dev s p dev' s' :
  apart (dev, s) (dev', s') -> disk_read (disk_write d dev s p) dev' s' = disk_read d dev' s'.
Proof.
  unfold apart, disk_read, disk_write, SECTORS_PER_PAGE. cbn [fst snd]. intros Ha.
  apply flat_map_ext_in. intros k Hk%elem_of_seqZ.
  destruct (Z.eqb_spec dev' dev), (Z.leb_spec s (s' + k)), (Z.ltb_spec (s' + k) (s + 8));
    simpl; try done; lia.
Qed.

(** ** The tape of pages *)

(** A cell of the tape: chain number and block. *)
Abbreviation cell := (Z * Z)%type.

(** How many cells a page at chain [n] takes; before the start, one. *)
Definition page_cells (devs : list toi_bdev_info) (n : Z) : option nat :=
  if n =? -1 then Some 1%nat
  else if n <? 0 then None
  else (fun d => Z.to_nat (blocks_per_page d)) <$> devs !! Z.to_nat n.

(** The first cell of the next page, and the cells after it. *)
Definition next_page (devs : list toi_bdev_info) (v : Z * list cell) : option (cell * list cell) :=
  match page_cells devs (fst v) with
  | None | Some O => None
  | Some (S k) =>
      match drop k (snd v) with
      | c :: rest => Some (c, rest)
      | [] => None
      end
  end.

(** The pages between two positions. *)
Inductive pages (devs : list toi_bdev_info) : Z * list cell -> list cell -> Z * list cell -> Prop :=
| pages_nil v : pages devs v [] v
| pages_cons v c rest cs v' :
    next_page devs v = Some (c, rest) -> pages devs (fst c, rest) cs v' ->
    pages devs v (c :: cs) v'.

Lemma pages_snoc devs v cs v1 c rest :
  pages devs v cs v1 -> next_page devs v1 = Some (c, rest) ->
  pages devs v (cs ++ [c]) (fst c, rest).
Proof.
  induction 1 as [v|v c0 rest0 cs v' Hn _ IH]; intros Hn'; simpl.
  - econstructor; [done|constructor].
  - econstructor; [done|auto].
Qed.

Lemma pages_app devs v cs v1 cs' v2 :
  pages devs v cs v1 -> pages devs v1 cs' v2 -> pages devs v (cs ++ cs') v2.
Proof. induction 1; intros; simpl; [done|econstructor; eauto]. Qed.

(** The place of a cell on its disk. *)
Definition place (devs : list toi_bdev_info) (c : cell) : Z * Z :=
  match devs !! Z.to_nat (fst c) with
  | Some d => (bdev d, Z.shiftl (snd c) (bmap_shift d))
  | None => (0, 0)
  end.

Definition view (st : bio_state) : Z * list cell :=
  (current_chain (toi_writer_posn st), rest_of (toi_writer_posn st)).

Definition here (st : bio_state) : cell :=
  (current_chain (toi_writer_posn st), current_offset (toi_writer_posn st)).

(** The device table has an entry for every chain, with at least one block to
    the page when the chain is not empty. *)
Record wf_tape (st : bio_state) : Prop := {
  wt_iter : wf_iter (toi_writer_posn st);
  wt_devs : length (toi_devinfo st) = length (it_chains (toi_writer_posn st));
  wt_bpp : Forall2 (fun d l => l <> [] -> 0 < blocks_per_page d) (toi_devinfo st)
             (map chain_exts (it_chains (toi_writer_posn st)));
  wt_saves : length (toi_writer_posn_save st) = 4%nat
}.

Lemma next_blocks_spec n p :
  wf_iter p ->
  wf_iter (next_blocks n p) /\ it_chains (next_blocks n p) = it_chains p /\
  rest_of (next_blocks n p) = drop n (rest_of p) /\
  match n with
  | O => next_blocks n p = p
  | S k =>
      match rest_of p !! k with
      | Some (m, b) => toi_extent_state_eof (next_blocks n p) = false /\
          current_chain (next_blocks n p) = m /\ current_offset (next_blocks n p) = b
      | None => toi_extent_state_eof (next_blocks n p) = true
      end
  end.
Proof.
  revert p. induction n as [|n IH]; intros p Hwf; [by rewrite drop_0|]. cbn [next_blocks].
  destruct (extent_state_next_spec p Hwf) as (p1 & v & -> & Hwf1 & Hc1 & Hr). simpl fst.
  destruct (IH p1 Hwf1) as (Hw & Hc & Hrest & Hpos).
  split; [done|]. split; [congruence|]. destruct (rest_of p) as [|[m b] t] eqn:Hp.
  - destruct Hr as (He & _ & Hr1). rewrite Hrest, Hr1, drop_nil. split; [done|].
    destruct n as [|n]; simpl; [done|]. by rewrite Hr1 in Hpos.
  - destruct Hr as (He & _ & Hm & Hb & Hr1). rewrite Hrest, Hr1. split; [done|].
    destruct n as [|n]; simpl; [done|]. rewrite <- Hr1. exact Hpos.
Qed.

(** [p'] is the tape position [p] moved to the cell [c], [rest] to come. *)
Definition moved (p p' : toi_extent_iterate_state) (c : cell) (rest : list cell) : Prop :=
  wf_iter p' /\ it_chains p' = it_chains p /\
  current_chain p' = fst c /\ current_offset p' = snd c /\ rest_of p' = rest.

Lemma at_barrier_defined st : wf_tape st -> exists b, at_barrier st = Some b.
Proof.
  intros Hwf. unfold at_barrier.
  destruct (toi_writer_posn_save st !! compare_to (current_stream st)) as [sv|] eqn:E; [eauto|].
  apply lookup_ge_None in E. rewrite (wt_saves _ Hwf) in E. exfalso. revert E.
  unfold compare_to. repeat case_match; lia.
Qed.

Lemma page_cells_skip st :
  page_cells (toi_devinfo st) (current_chain (toi_writer_posn st)) = Z.to_nat <$> blocks_to_skip st.
Proof.
  unfold page_cells, blocks_to_skip. repeat case_match; try done.
  by destruct (toi_devinfo st !! _).
Qed.

(** The barrier does not stop the move. *)
Definition unbarred (writing section_barrier : bool) (st : bio_state) : Prop :=
  section_barrier = false \/ at_barrier st = Some false \/
  writing = true /\ current_stream st <> 0.

Lemma advance_ok writing barrier st c rest :
  wf_tape st -> next_page (toi_devinfo st) (view st) = Some (c, rest) ->
  unbarred writing barrier st ->
  exists p, advance writing barrier st = Some (st {{ toi_writer_posn := p }}, 0) /\
    moved (toi_writer_posn st) p c rest.
Proof.
  intros Hwf Hn Hbar. unfold next_page, view in Hn. cbn [fst snd] in Hn.
  rewrite page_cells_skip in Hn. unfold advance.
  destruct (blocks_to_skip st) as [max|]; [|done]. simpl in Hn.
  destruct (at_barrier_defined st Hwf) as [b Hb]. rewrite Hb.
  destruct (Z.to_nat max) as [|k] eqn:Hk; [done|].
  destruct (next_blocks_spec (S k) _ (wt_iter _ Hwf)) as (Hw & Hc & Hr & Hpos).
  destruct (drop k (rest_of (toi_writer_posn st))) as [|c' rest'] eqn:Hd; [done|].
  injection Hn as -> ->.
  assert (rest_of (toi_writer_posn st) !! k = Some c) as Hck
    by (by rewrite <- (Nat.add_0_r k), <- lookup_drop, Hd).
  rewrite Hck in Hpos. destruct c as [m o]. destruct Hpos as (He & Hm & Ho).
  rewrite (drop_S _ _ _ Hck) in Hd. injection Hd as Hd.
  exists (next_blocks (S k) (toi_writer_posn st)).
  assert (moved (toi_writer_posn st) (next_blocks (S k) (toi_writer_posn st)) (m, o) rest)
    by (split_and!; auto; congruence).
  rewrite He. destruct (barrier && b) eqn:Hbb; [|done].
  destruct Hbar as [->|[Hf|[-> Hs]]]; [done|rewrite Hb in Hf; injection Hf as ->;
    by rewrite andb_false_r in Hbb|].
  by rewrite (proj2 (Z.eqb_neq _ _) Hs).
Qed.

Lemma current_bpp st d :
  wf_tape st -> toi_devinfo st !! Z.to_nat (current_chain (toi_writer_posn st)) = Some d ->
  0 <= current_chain (toi_writer_posn st) -> 0 < blocks_per_page d.
Proof.
  intros Hwf Hd Hc. pose proof (wfi_posn _ (wt_iter _ Hwf)) as Hp.
  pose proof (lookup_lt_Some _ _ _ Hd) as Hlt. rewrite (wt_devs _ Hwf) in Hlt.
  destruct (current_extent _) as [i|]; [|unfold num_chains in Hp; lia].
  destruct Hp as (e & He & _). unfold exts_of in He. rewrite (proj2 (Z.ltb_ge _ _)) in He by lia.
  destruct (it_chains (toi_writer_posn st) !! Z.to_nat _) as [c|] eqn:Hcc; [|done].
  apply (Forall2_lookup_lr _ _ _ _ _ (chain_exts c) (wt_bpp _ Hwf) Hd).
  - by rewrite list_lookup_fmap, Hcc.
  - intros E. by rewrite E in He.
Qed.

(** When moving succeeds, it moved to the next page. *)
Lemma advance_inv writing barrier st st' :
  wf_tape st -> advance writing barrier st = Some (st', 0) ->
  exists p c rest, st' = st {{ toi_writer_posn := p }} /\
    next_page (toi_devinfo st) (view st) = Some (c, rest) /\
    moved (toi_writer_posn st) p c rest.
Proof.
  intros Hwf Ha. unfold advance in Ha.
  destruct (blocks_to_skip st) as [max|] eqn:Hs; [|done].
  destruct (at_barrier st) as [b|]; [|done].
  assert (exists p, p = next_blocks (Z.to_nat max) (toi_writer_posn st) /\
    toi_extent_state_eof p = false /\ st' = st {{ toi_writer_posn := p }}) as (p & Hp & He & ->).
  { exists (next_blocks (Z.to_nat max) (toi_writer_posn st)).
    destruct (toi_extent_state_eof (next_blocks (Z.to_nat max) (toi_writer_posn st)));
      repeat case_match; simplify_eq; try done; unfold debug_broken_header in *; simpl in *; simplify_eq. }
  assert (0 < max) as Hmax.
  { unfold blocks_to_skip in Hs. destruct (_ =? -1); [injection Hs as <-; lia|].
    destruct (Z.ltb_spec (current_chain (toi_writer_posn st)) 0); [done|].
    destruct (toi_devinfo st !! _) as [d|] eqn:Hd; simplify_eq/=.
    by eapply current_bpp. }
  destruct (Z.to_nat max) as [|k] eqn:Hk; [lia|].
  destruct (next_blocks_spec (S k) _ (wt_iter _ Hwf)) as (Hw & Hc & Hr & Hpos).
  rewrite <- Hp in *. destruct (rest_of (toi_writer_posn st) !! k) as [[m o]|] eqn:Hck; [|congruence].
  destruct Hpos as (_ & Hm & Ho). exists p, (m, o), (rest_of p).
  split; [done|]. split; [|by split_and!].
  unfold next_page, view. cbn [fst snd]. rewrite page_cells_skip, Hs. simpl. rewrite Hk.
  by rewrite (drop_S _ _ _ Hck), Hr.
Qed.

(** The tape's invariant depends on three fields only. *)
Lemma moved_wf_tape st st' c rest :
  wf_tape st -> moved (toi_writer_posn st) (toi_writer_posn st') c rest ->
  toi_devinfo st' = toi_devinfo st -> toi_writer_posn_save st' = toi_writer_posn_save st ->
  wf_tape st'.
Proof.
  intros [? ? ? ?] (? & Hc & _) Hd Hs. split; rewrite ?Hd, ?Hs, ?Hc; auto.
Qed.

Lemma wf_tape_same st st' :
  wf_tape st -> toi_writer_posn st' = toi_writer_posn st ->
  toi_devinfo st' = toi_devinfo st -> toi_writer_posn_save st' = toi_writer_posn_save st ->
  wf_tape st'.
Proof. intros [? ? ? ?] Hp Hd Hs. split; rewrite ?Hd, ?Hs, ?Hp; auto. Qed.

Lemma tape_from_chain k cs n b :
  (n, b) ∈ tape_from k cs -> k <= n < k + Z.of_nat (length cs).
Proof.
  revert k. induction cs as [|c cs IH]; intros k Hin; [by apply elem_of_nil in Hin|].
  cbn [tape_from length] in *. apply elem_of_app in Hin as [Hin|Hin].
  - apply list_elem_of_In, in_map_iff in Hin as (x & [= <- <-] & _). lia.
  - apply IH in Hin. lia.
Qed.

Lemma rest_of_chain p n b : wf_iter p -> (n, b) ∈ rest_of p -> 0 <= n < num_chains p.
Proof.
  intros Hwf Hin. unfold rest_of in Hin. apply elem_of_app in Hin as [Hin|Hin].
  - apply list_elem_of_In, in_map_iff in Hin as (x & [= <- <-] & Hx).
    unfold rest_in_chain in Hx. destruct (current_extent p) as [i|] eqn:Hi; [|done].
    destruct (exts_of (it_chains p) (current_chain p) !! i) as [e|] eqn:He; [|done].
    by destruct (wf_iter_extent _ _ _ Hwf Hi He) as (_ & _ & _ & ? & _).
  - apply tape_from_chain in Hin. rewrite length_drop in Hin.
    pose proof (wfi_range _ Hwf). unfold num_chains in *. lia.
Qed.

Lemma next_page_range st c rest :
  wf_tape st -> next_page (toi_devinfo st) (view st) = Some (c, rest) ->
  0 <= fst c < num_chains (toi_writer_posn st).
Proof.
  intros Hwf Hn. unfold next_page, view in Hn. simpl in Hn.
  destruct (page_cells _ _) as [[|k]|]; [done| |done].
  destruct (drop k (rest_of (toi_writer_posn st))) as [|c' r] eqn:Hr; [done|]. simplify_eq.
  assert (c ∈ rest_of (toi_writer_posn st)) as Hin
    by (rewrite <- (take_drop k (rest_of _)), Hr; apply elem_of_app; right; by left).
  destruct c as [n b]. exact (rest_of_chain _ _ _ (wt_iter _ Hwf) Hin).
Qed.

(** The next page belongs to a chain with a device. *)
Lemma next_page_device st c rest :
  wf_tape st -> next_page (toi_devinfo st) (view st) = Some (c, rest) ->
  exists d, toi_devinfo st !! Z.to_nat (fst c) = Some d /\
    place (toi_devinfo st) c = (bdev d, Z.shiftl (snd c) (bmap_shift d)).
Proof.
  intros Hwf Hn. unfold place.
  destruct (toi_devinfo st !! Z.to_nat (fst c)) as [d|] eqn:Hd; [eauto|].
  apply lookup_ge_None in Hd. rewrite (wt_devs _ Hwf) in Hd.
  pose proof (next_page_range _ _ _ Hwf Hn). unfold num_chains in *. lia.
Qed.

(** Every page position reachable from [v] is apart from the others. *)
Definition layout_apart (devs : list toi_bdev_info) (v : Z * list cell) : Prop :=
  forall cs v', pages devs v cs v' ->
  forall i j a b, i <> j -> cs !! i = Some a -> cs !! j = Some b ->
  apart (place devs a) (place devs b).

(** Where a stream starts: the block the tape stands on, and its view. *)
Record start := Start { start_cell : cell; start_view :> Z * list cell }.

(** ** Writing a stream

    From the tape position [v0] and the disk [d0], the pages [pgs] have been
    written to the cells [cells] and nothing else has changed on disk. *)
Record writer_inv (d0 : disk) (v0 : start) (st : bio_state) (cells : list cell)
    (pgs : list page) : Prop := {
  wi_tape : wf_tape st;
  wi_extra : extra_page_forward st = false;
  wi_filter : filter_speed_test st = false;
  wi_pages : pages (toi_devinfo st) v0 cells (view st);
  wi_here : list.last (start_cell v0 :: cells) = Some (here st);
  wi_range : Forall (fun c => 0 <= fst c < num_chains (toi_writer_posn st)) cells;
  wi_disk : Forall2 (fun c p =>
    disk_read (the_disk st) (fst (place (toi_devinfo st) c)) (snd (place (toi_devinfo st) c)) = p)
    cells pgs;
  wi_full : Forall full_page pgs;
  wi_frame : forall a, Forall (fun c => apart (place (toi_devinfo st) c) a) cells ->
    disk_read (the_disk st) (fst a) (snd a) = disk_read d0 (fst a) (snd a)
}.

(** One page written. *)
Lemma rw_page_write d0 v0 st cells pgs p st' :
  writer_inv d0 v0 st cells pgs -> layout_apart (toi_devinfo st) v0 -> full_page p ->
  toi_bio_rw_page WRITE p false st = Some (st', 0) ->
  exists c q n, st' = st {{ toi_writer_posn := q; toi_io_done := n;
      the_disk := disk_write (the_disk st) (fst (place (toi_devinfo st) c))
                    (snd (place (toi_devinfo st) c)) p }} /\
    it_chains q = it_chains (toi_writer_posn st) /\
    here st' = c /\ writer_inv d0 v0 st' (cells ++ [c]) (pgs ++ [p]).
Proof.
  intros [Hwf Hx Hfs Hpg Hhere Hrng Hdisk Hfull Hframe] Hlay Hp Hrw.
  unfold toi_bio_rw_page, go_next_page in Hrw. simpl in Hrw.
  destruct (advance WRITE true st) as [[st1 r]|] eqn:Ha; [|done].
  unfold or_return in Hrw. destruct (Z.eqb_spec r 0) as [->|Hr];
    [|simpl in Hrw; destruct (Z.eqb_spec r 0); [done|]; simpl in Hrw; simplify_eq].
  destruct (advance_inv _ _ _ _ Hwf Ha) as (q & c & rest & -> & Hn & Hm).
  simpl in Hrw. rewrite Hx in Hrw. simpl in Hrw.
  destruct (next_page_device _ _ _ Hwf Hn) as (d & Hd & Hpl).
  pose proof Hm as (_ & _ & Hmc & Hmo & Hmr). rewrite Hmc, Hd, Hmo in Hrw.
  unfold toi_do_io in Hrw. simpl in Hrw. unfold submit in Hrw. simpl in Hrw.
  rewrite Hfs in Hrw. simpl in Hrw. injection Hrw as <-.
  exists c, q, (s32 (toi_io_done st + 1)). rewrite Hpl. split; [simpl; by rewrite Hx, Hfs|].
  split; [apply Hm|].
  split; [unfold here; simpl; rewrite Hmc, Hmo; by destruct c|].
  assert (pages (toi_devinfo st) v0 (cells ++ [c]) (fst c, rest)) as Hpg'
    by (by eapply pages_snoc).
  assert (forall a, a ∈ cells -> apart (place (toi_devinfo st) c) (place (toi_devinfo st) a)) as Hap.
  { intros a [i Hi]%list_elem_of_lookup. pose proof (lookup_lt_Some _ _ _ Hi).
    eapply (Hlay _ _ Hpg' (length cells) i); [lia| |].
    - by apply list_lookup_middle.
    - by apply lookup_app_l_Some. }
  split; simpl; auto.
  - by apply (moved_wf_tape st _ c rest Hwf).
  - unfold view. simpl. by rewrite Hmc, Hmr.
  - rewrite app_comm_cons, last_snoc. unfold here. simpl. rewrite Hmc, Hmo. by destruct c.
  - unfold num_chains in *. rewrite (proj1 (proj2 Hm)).
    apply Forall_app_2; [done|]. constructor; [|done]. by eapply next_page_range.
  - apply Forall2_app.
    + apply Forall2_same_length_lookup_2; [by eapply Forall2_length|].
      intros i a pa Hi Hpa. pose proof (Forall2_lookup_lr _ _ _ _ _ _ Hdisk Hi Hpa) as Hrd. simpl in Hrd.
      rewrite disk_read_other; [done|]. rewrite <- Hpl.
      destruct (place (toi_devinfo st) a) as [x y] eqn:Epa. simpl. rewrite <- Epa.
      apply Hap. by eapply list_elem_of_lookup_2.
    + constructor; [|constructor]. rewrite Hpl. simpl. by apply disk_read_same.
  - by apply Forall_app_2; [|constructor].
  - intros a Hall. apply Forall_app in Hall as [Hall [Hc _]%Forall_cons_1].
    rewrite Hpl in Hc. destruct a as [x y]. simpl. rewrite disk_read_other by done.
    by apply (Hframe (x, y)).
Qed.

Lemma writer_inv_same d0 v0 st st' cells pgs :
  writer_inv d0 v0 st cells pgs ->
  toi_writer_posn st' = toi_writer_posn st -> toi_devinfo st' = toi_devinfo st ->
  toi_writer_posn_save st' = toi_writer_posn_save st -> the_disk st' = the_disk st ->
  extra_page_forward st' = extra_page_forward st ->
  filter_speed_test st' = filter_speed_test st ->
  writer_inv d0 v0 st' cells pgs.
Proof.
  intros [? ? ? ? ? ? ? ? ?] Hp Hd Hs Hk He Hf.
  split; unfold view, here, num_chains in *; rewrite ?Hp, ?Hd, ?Hk, ?He, ?Hf; auto.
  by eapply wf_tape_same.
Qed.

Lemma flush_loop_error q r st st' r' : flush_loop q r st = Some (st', r') -> r <> 0 -> r' = r.
Proof.
  revert st. induction q as [|p q IH]; intros st; simpl; [by intros [= _ <-]|].
  intros Hf Hr. destruct (Z.eqb_spec r 0); [done|]. simpl in Hf. by eapply IH.
Qed.

Lemma flush_ok d0 v0 st cells pgs st' :
  writer_inv d0 v0 st cells pgs -> layout_apart (toi_devinfo st) v0 ->
  Forall full_page (bio_queue st) -> toi_bio_queue_flush_pages st = Some (st', 0) ->
  exists cs p n d,
    st' = st {{ toi_writer_posn := p; toi_io_done := n; the_disk := d; bio_queue := [] }} /\
    it_chains p = it_chains (toi_writer_posn st) /\
    list.last (here st :: cs) = Some (here st') /\
    writer_inv d0 v0 st' (cells ++ cs) (pgs ++ bio_queue st).
Proof.
  unfold toi_bio_queue_flush_pages. simpl. intros Hinv Hlay.
  remember (bio_queue st) as q eqn:Hq. revert st cells pgs Hq Hinv Hlay.
  induction q as [|p q IH]; intros st cells pgs Hq Hinv Hlay Hfull Hf; simpl in Hf.
  { injection Hf as <-. exists [], (toi_writer_posn st), (toi_io_done st), (the_disk st).
    rewrite !app_nil_r. split_and!; auto. simpl. rewrite Hq. by destruct st. }
  apply Forall_cons_1 in Hfull as [Hp Hfull].
  set (st1 := st {{ bio_queue := q }}) in *. simpl in st1.
  change (match toi_bio_rw_page WRITE p false st1 with
          | Some (s', a) => flush_loop q a s' | None => None end = Some (st', 0)) in Hf.
  assert (writer_inv d0 v0 st1 cells pgs) as Hinv1 by (by eapply writer_inv_same).
  destruct (toi_bio_rw_page WRITE p false st1) as [[st2 r]|] eqn:Hrw; [|done].
  destruct (Z.eq_dec r 0) as [->|Hr]; [|by apply flush_loop_error in Hf; [lia|]].
  destruct (rw_page_write _ _ _ _ _ _ _ Hinv1 Hlay Hp Hrw) as (c & q2 & n2 & Hst2 & Hch2 & Hhere & Hinv2).
  destruct (IH st2 (cells ++ [c]) (pgs ++ [p])) as (cs & p3 & n3 & d3 & Hst' & Hch & Hlast & Hinv'); auto.
  { by rewrite Hst2. }
  { by rewrite Hst2. }
  exists (c :: cs), p3, n3, d3. split_and!.
  - rewrite Hst', Hst2. done.
  - rewrite Hch, Hst2. exact Hch2.
  - rewrite last_cons_cons. by rewrite Hhere in Hlast.
  - by rewrite <- !app_assoc in Hinv'.
Qed.

(** ** The pages of a position are determined *)

Lemma pages_split devs v all vend cells v1 :
  pages devs v all vend -> pages devs v cells v1 -> (length cells <= length all)%nat ->
  exists rest, all = cells ++ rest /\ pages devs v1 rest vend.
Proof.
  intros Hall Hc. revert all vend Hall. induction Hc as [v|v c rest cs v' Hn _ IH];
    intros all vend Hall Hlen; [by exists all|].
  inversion Hall as [|? c' rest' cs' ? Hn' Hall']; simplify_eq; [simpl in Hlen; lia|].
  destruct (IH _ _ Hall') as (r & -> & Hr); [simpl in Hlen; lia|]. by exists r.
Qed.

(** Flushing succeeds while the tape lasts; the section barrier stops only
    the header's writer. *)
Lemma flush_total st cs v' :
  wf_tape st -> extra_page_forward st = false -> filter_speed_test st = false ->
  current_stream st <> 0 ->
  pages (toi_devinfo st) (view st) cs v' -> (length (bio_queue st) <= length cs)%nat ->
  exists st', toi_bio_queue_flush_pages st = Some (st', 0).
Proof.
  unfold toi_bio_queue_flush_pages. simpl. remember (bio_queue st) as q eqn:Hq.
  intros Hwf Hx Hfs Hs Hp Hlen. clear Hq. revert st cs Hwf Hx Hfs Hs Hp Hlen.
  induction q as [|p q IH]; intros st cs Hwf Hx Hfs Hs Hp Hlen; simpl; [eauto|].
  inversion Hp as [|? c rest cs' ? Hn Hp']; simplify_eq; [simpl in Hlen; lia|].
  set (st1 := {| toi_writer_posn := _ |}).
  assert (wf_tape st1) as Hwf1 by (by eapply wf_tape_same).
  destruct (advance_ok WRITE true st1 c rest Hwf1) as (p1 & Ha & Hm); [done|by right; right|].
  unfold toi_bio_rw_page, go_next_page, or_return. simpl. rewrite Ha. simpl. rewrite Hx. simpl.
  pose proof Hm as (_ & _ & Hmc & Hmo & Hmr).
  destruct (next_page_device st c rest Hwf Hn) as (d & Hd & _).
  rewrite Hmc, Hd. unfold toi_do_io. simpl. unfold submit. simpl. rewrite Hfs. simpl.
  eapply (IH _ cs'); simpl; auto.
  - by apply (moved_wf_tape st1 _ c rest Hwf1).
  - unfold view. simpl. by rewrite Hmc, Hmr.
  - simpl in Hlen. lia.
Qed.

(** ** Gathering bytes into pages *)

(** What the writing operations leave alone. *)
Record kept (st st' : bio_state) : Prop := {
  k_dev : toi_devinfo st' = toi_devinfo st;
  k_saves : toi_writer_posn_save st' = toi_writer_posn_save st;
  k_chains : it_chains (toi_writer_posn st') = it_chains (toi_writer_posn st);
  k_stream : current_stream st' = current_stream st;
  k_result : toi_result st' = toi_result st;
  k_flusher : is_queue_flusher st' = is_queue_flusher st;
  k_readahead : readahead_list st' = readahead_list st;
  k_more : more_readahead st' = more_readahead st;
  k_memory : memory st = [] -> memory st' = []
}.

Lemma kept_refl st : kept st st.
Proof. by split. Qed.

Lemma kept_trans a b c : kept a b -> kept b c -> kept a c.
Proof. intros [] []. split; try congruence. auto. Qed.

(** The bytes [bs] have been accepted since the stream was started at [v0]
    over the disk [d0]: on disk, queued, or in the buffer. *)
Definition written (d0 : disk) (v0 : start) (st : bio_state) (bs : list Z) : Prop :=
  exists cells pgs buf,
    writer_inv d0 v0 st cells pgs /\ toi_writer_buffer st = Some buf /\ full_page buf /\
    0 <= toi_writer_buffer_posn st <= PAGE_SIZE /\ Forall full_page (bio_queue st) /\
    bs = concat pgs ++ concat (bio_queue st) ++
           take (Z.to_nat (toi_writer_buffer_posn st)) buf.

Lemma concat_full_length (l : list page) :
  Forall full_page l -> length (concat l) = (Z.to_nat PAGE_SIZE * length l)%nat.
Proof.
  induction 1 as [|p l Hp _ IH]; [by rewrite Nat.mul_0_r|].
  cbn [concat length]. rewrite length_app, IH, Hp. lia.
Qed.

Lemma written_length d0 v0 st bs cells pgs buf :
  writer_inv d0 v0 st cells pgs -> full_page buf ->
  0 <= toi_writer_buffer_posn st <= PAGE_SIZE -> Forall full_page (bio_queue st) ->
  bs = concat pgs ++ concat (bio_queue st) ++ take (Z.to_nat (toi_writer_buffer_posn st)) buf ->
  length bs = (Z.to_nat PAGE_SIZE * (length cells + length (bio_queue st))
               + Z.to_nat (toi_writer_buffer_posn st))%nat.
Proof.
  intros Hinv Hb Hposn Hq ->. rewrite !length_app, !concat_full_length by (auto; apply Hinv).
  rewrite length_take, Hb. rewrite (Forall2_length (wi_disk _ _ _ _ _ Hinv)). lia.
Qed.

Lemma splice_full buf posn bs :
  full_page buf -> (posn + length bs <= Z.to_nat PAGE_SIZE)%nat -> full_page (splice buf posn bs).
Proof.
  unfold full_page, splice. intros Hb Hl. rewrite !length_app, length_take, length_drop, Hb. lia.
Qed.

Lemma splice_take buf posn bs :
  full_page buf -> (posn + length bs <= Z.to_nat PAGE_SIZE)%nat ->
  take (posn + length bs) (splice buf posn bs) = take posn buf ++ bs.
Proof.
  unfold full_page, splice. intros Hb Hl. rewrite app_assoc, take_app_le.
  - apply take_ge. rewrite length_app, length_take, Hb. lia.
  - rewrite length_app, length_take, Hb. lia.
Qed.

(** The state between queueing a full buffer and getting a new one. *)
Definition queued (d0 : disk) (v0 : start) (st : bio_state) (bs : list Z) : Prop :=
  exists cells pgs, writer_inv d0 v0 st cells pgs /\ Forall full_page (bio_queue st) /\
    bs = concat pgs ++ concat (bio_queue st).

Lemma flush_queued d0 v0 st st' bs :
  queued d0 v0 st bs -> layout_apart (toi_devinfo st) v0 ->
  toi_bio_queue_flush_pages st = Some (st', 0) ->
  queued d0 v0 st' bs /\ kept st st' /\ bio_queue st' = [] /\
  toi_writer_buffer st' = toi_writer_buffer st /\
  toi_writer_buffer_posn st' = toi_writer_buffer_posn st.
Proof.
  intros (cells & pgs & Hinv & Hq & ->) Hlay Hf.
  destruct (flush_ok _ _ _ _ _ _ Hinv Hlay Hq Hf) as (cs & p & n & d & -> & Hch & _ & Hinv').
  split_and!; try done.
  exists (cells ++ cs), (pgs ++ bio_queue st). split_and!; auto.
  simpl. by rewrite app_nil_r, concat_app.
Qed.

Lemma get_new_page_ok d0 v0 st st' bs :
  queued d0 v0 st bs -> layout_apart (toi_devinfo st) v0 -> toi_writer_buffer st = None ->
  toi_bio_get_new_page st = Some (st', 0) ->
  queued d0 v0 st' bs /\ kept st st' /\ toi_writer_buffer st' = Some zero_page /\
  toi_writer_buffer_posn st' = toi_writer_buffer_posn st.
Proof.
  intros Hw Hlay Hb. unfold toi_bio_get_new_page, throttle_if_needed, or_return. simpl.
  match goal with |- context [if ?b then toi_bio_queue_flush_pages st else _] => destruct b end.
  - destruct (toi_bio_queue_flush_pages st) as [[st1 r]|] eqn:Hf; [|done].
    destruct (Z.eqb_spec r 0) as [->|]; [|by intros [= _ ?]].
    destruct (flush_queued _ _ _ _ _ Hw Hlay Hf) as (Hw1 & Hk & Hq & Hb1 & Hp1).
    simpl. rewrite Hb1, Hb. intros [= <-]. split_and!; auto.
    + destruct Hw1 as (cells & pgs & ? & ? & ->). exists cells, pgs. split_and!; auto.
      by eapply writer_inv_same.
    + destruct Hk as [? ? ? ? ? ? ? ? Hm]. split; try done. simpl. by intros ->%Hm.
  - simpl. rewrite Hb. intros [= <-]. split_and!; auto; [|split; try done; simpl; by intros ->].
    destruct Hw as (cells & pgs & ? & ? & ->). exists cells, pgs. split_and!; auto.
    by eapply writer_inv_same.
Qed.

Lemma get_new_page_total d0 v0 st bs all vend :
  queued d0 v0 st bs -> toi_writer_buffer st = None -> current_stream st <> 0 ->
  pages (toi_devinfo st) v0 all vend -> (length bs <= Z.to_nat PAGE_SIZE * length all)%nat ->
  exists st', toi_bio_get_new_page st = Some (st', 0).
Proof.
  intros (cells & pgs & Hinv & Hq & ->) Hb Hs Hall Hlen.
  rewrite length_app, !concat_full_length in Hlen by (auto; apply Hinv).
  rewrite <- (Forall2_length (wi_disk _ _ _ _ _ Hinv)) in Hlen.
  assert (length cells + length (bio_queue st) <= length all)%nat as Hl
    by (apply (Nat.mul_le_mono_pos_l _ _ (Z.to_nat PAGE_SIZE)); [apply page_positive|lia]).
  destruct (pages_split _ _ _ _ _ _ Hall (wi_pages _ _ _ _ _ Hinv)) as (rest & -> & Hrest); [lia|].
  rewrite length_app in Hl.
  destruct (flush_total st rest vend) as (st1 & Hf); try apply Hinv; auto; [lia|].
  unfold toi_bio_get_new_page, throttle_if_needed, or_return. simpl.
  match goal with |- context [if ?b then toi_bio_queue_flush_pages st else _] => destruct b end.
  - rewrite Hf. simpl. eauto.
  - simpl. eauto.
Qed.

(** Queueing the filled buffer. *)
Lemma fill_and_queue d0 v0 st acc bs cells pgs buf :
  writer_inv d0 v0 st cells pgs -> toi_writer_buffer st = Some buf -> full_page buf ->
  0 <= toi_writer_buffer_posn st <= PAGE_SIZE -> Forall full_page (bio_queue st) ->
  acc = concat pgs ++ concat (bio_queue st) ++
          take (Z.to_nat (toi_writer_buffer_posn st)) buf ->
  let posn := Z.to_nat (toi_writer_buffer_posn st) in
  let capacity := (Z.to_nat PAGE_SIZE - posn)%nat in
  (capacity <= length bs)%nat ->
  queued d0 v0 (st {{ bio_queue := bio_queue st ++ [splice buf posn (take capacity bs)];
                      toi_writer_buffer := None }}) (acc ++ take capacity bs).
Proof.
  intros Hinv Hb Hfull Hposn Hq -> posn capacity Hcap.
  assert (length (take capacity bs) = capacity) as Hlen by (rewrite length_take; lia).
  assert (full_page (splice buf posn (take capacity bs))) as Hsp.
  { apply splice_full; [done|]. rewrite Hlen. unfold capacity, posn. lia. }
  exists cells, pgs. split_and!; simpl.
  - by eapply writer_inv_same.
  - by apply Forall_app_2; [|constructor].
  - rewrite concat_app. simpl. rewrite app_nil_r, <- !app_assoc. do 2 f_equal.
    transitivity (take (posn + length (take capacity bs)) (splice buf posn (take capacity bs))).
    + symmetry. apply splice_take; [done|]. rewrite Hlen. unfold capacity, posn. lia.
    + apply take_ge. rewrite Hlen, Hsp. unfold capacity, posn. lia.
Qed.

(** The last, partial copy into the buffer. *)
Lemma fill_part d0 v0 st acc bs buf :
  written d0 v0 st acc -> toi_writer_buffer st = Some buf ->
  let posn := Z.to_nat (toi_writer_buffer_posn st) in
  (length bs <= Z.to_nat PAGE_SIZE - posn)%nat ->
  written d0 v0 (st {{ toi_writer_buffer := Some (splice buf posn bs);
                       toi_writer_buffer_posn :=
                         toi_writer_buffer_posn st + Z.of_nat (length bs) }}) (acc ++ bs).
Proof.
  intros (cells & pgs & buf' & Hinv & Hb' & Hfull & Hposn & Hq & ->) Hb posn Hlen.
  rewrite Hb in Hb'. injection Hb' as <-.
  exists cells, pgs, (splice buf posn bs). split_and!; simpl; auto; try lia.
  - by eapply writer_inv_same.
  - apply splice_full; [done|]. unfold posn in *. lia.
  - rewrite <- !app_assoc. do 2 f_equal.
    replace (Z.to_nat (toi_writer_buffer_posn st + Z.of_nat (length bs)))
      with (posn + length bs)%nat by (unfold posn; lia).
    rewrite splice_take; [done..|unfold posn in *; lia].
Qed.

(** A fresh buffer continues the stream. *)
Lemma queued_written d0 v0 st bs :
  queued d0 v0 st bs -> toi_writer_buffer st = Some zero_page ->
  written d0 v0 (st {{ toi_writer_buffer_posn := 0 }}) bs.
Proof.
  intros (cells & pgs & Hinv & Hq & ->) Hb. exists cells, pgs, zero_page.
  split_and!; simpl; auto using zero_page_full; try (unfold PAGE_SIZE; lia).
  - by eapply writer_inv_same.
  - by rewrite app_nil_r.
Qed.

(** One round of [toi_rw_buffer] when writing. *)
Lemma write_buffer_round fuel bs st buf :
  bs <> [] -> toi_writer_buffer st = Some buf ->
  let posn := Z.to_nat (toi_writer_buffer_posn st) in
  let capacity := (Z.to_nat PAGE_SIZE - posn)%nat in
  write_buffer (S fuel) bs st =
    if (length bs <=? capacity)%nat then
      Some (st {{ toi_writer_buffer := Some (splice buf posn bs);
                  toi_writer_buffer_posn :=
                    toi_writer_buffer_posn st + Z.of_nat (length bs) }}, 0)
    else
      match toi_bio_get_new_page
              (st {{ bio_queue := bio_queue st ++ [splice buf posn (take capacity bs)];
                     toi_writer_buffer := None }}) with
      | Some (st', r) =>
          if r =? 0 then write_buffer fuel (drop capacity bs) (st' {{ toi_writer_buffer_posn := 0 }})
          else Some (st', r)
      | None => None
      end.
Proof.
  intros Hne Hb posn capacity. destruct bs as [|b bs]; [done|].
  cbn [write_buffer]. unfold bind, get, modify, ret, or_return, toi_bio_queue_write. rewrite Hb.
  unfold posn, capacity. destruct (_ <=? _)%nat; [done|]. simpl.
  destruct (toi_bio_get_new_page _) as [[st' r]|]; [|done].
  by destruct (r =? 0).
Qed.

Lemma write_buffer_ok d0 v0 fuel bs st st' acc :
  written d0 v0 st acc -> layout_apart (toi_devinfo st) v0 ->
  write_buffer fuel bs st = Some (st', 0) -> written d0 v0 st' (acc ++ bs) /\ kept st st'.
Proof.
  revert bs st acc. induction fuel as [|fuel IH]; intros bs st acc Hw Hlay Hwb;
    (destruct (decide (bs = [])) as [->|Hne];
     [injection Hwb as <-; rewrite app_nil_r; split; [done|apply kept_refl]|]);
    [by destruct bs|].
  pose proof Hw as (cells & pgs & buf & Hinv & Hb & Hfull & Hposn & Hq & Hacc).
  rewrite (write_buffer_round _ _ _ _ Hne Hb) in Hwb.
  destruct (Nat.leb_spec (length bs) (Z.to_nat PAGE_SIZE - Z.to_nat (toi_writer_buffer_posn st))).
  { injection Hwb as <-. split; [by apply fill_part|by split]. }
  set (capacity := (Z.to_nat PAGE_SIZE - Z.to_nat (toi_writer_buffer_posn st))%nat) in *.
  pose proof (fill_and_queue _ _ _ _ bs _ _ _ Hinv Hb Hfull Hposn Hq Hacc ltac:(lia)) as Hq1.
  fold capacity in Hq1. set (st1 := set_field _ _ _) in Hq1, Hwb.
  destruct (toi_bio_get_new_page st1) as [[st2 r]|] eqn:Hg; [|done].
  destruct (Z.eqb_spec r 0) as [->|]; [|by injection Hwb].
  destruct (get_new_page_ok _ _ _ _ _ Hq1 Hlay eq_refl Hg) as (Hq2 & Hk & Hb2 & _).
  pose proof (queued_written _ _ _ _ Hq2 Hb2) as Hw2.
  apply (IH _ _ _ Hw2) in Hwb as [Hw3 Hk3]; [|simpl; by rewrite (k_dev _ _ Hk)].
  rewrite <- app_assoc, take_drop in Hw3. split; [done|].
  eapply kept_trans; [|eapply kept_trans; [exact Hk|]]; [by split|].
  eapply kept_trans; [|exact Hk3]. by split.
Qed.

Lemma written_bytes d0 v0 st acc :
  written d0 v0 st acc -> (Z.to_nat (toi_writer_buffer_posn st) <= length acc)%nat.
Proof.
  intros (cells & pgs & buf & Hinv & Hb & Hfull & Hposn & Hq & Hacc).
  rewrite (written_length _ _ _ _ _ _ _ Hinv Hfull Hposn Hq Hacc). lia.
Qed.

Lemma write_buffer_total d0 v0 fuel bs st acc all vend :
  written d0 v0 st acc -> layout_apart (toi_devinfo st) v0 -> current_stream st <> 0 ->
  pages (toi_devinfo st) v0 all vend ->
  (length acc + length bs <= Z.to_nat PAGE_SIZE * length all)%nat ->
  (length bs + (if decide (toi_writer_buffer_posn st = PAGE_SIZE) then 1 else 0) < fuel)%nat ->
  exists st', write_buffer fuel bs st = Some (st', 0).
Proof.
  revert bs st acc. induction fuel as [|fuel IH]; intros bs st acc Hw Hlay Hs Hall Hlen Hfuel; [lia|].
  destruct (decide (bs = [])) as [->|Hne]; [simpl; eauto|].
  pose proof Hw as (cells & pgs & buf & Hinv & Hb & Hfull & Hposn & Hq & Hacc).
  rewrite (write_buffer_round _ _ _ _ Hne Hb).
  destruct (Nat.leb_spec (length bs) (Z.to_nat PAGE_SIZE - Z.to_nat (toi_writer_buffer_posn st))).
  { eauto. }
  set (capacity := (Z.to_nat PAGE_SIZE - Z.to_nat (toi_writer_buffer_posn st))%nat) in *.
  pose proof (fill_and_queue _ _ _ _ bs _ _ _ Hinv Hb Hfull Hposn Hq Hacc ltac:(lia)) as Hq1.
  fold capacity in Hq1. set (st1 := set_field _ _ _) in Hq1 |- *.
  assert (length (take capacity bs) = capacity) by (rewrite length_take; lia).
  destruct (get_new_page_total _ _ _ _ all vend Hq1) as (st2 & Hg); auto.
  { rewrite length_app. lia. }
  rewrite Hg. simpl.
  destruct (get_new_page_ok _ _ _ _ _ Hq1 Hlay eq_refl Hg) as (Hq2 & Hk & Hb2 & _).
  apply (IH _ _ _ (queued_written _ _ _ _ Hq2 Hb2)); simpl.
  - by rewrite (k_dev _ _ Hk).
  - by rewrite (k_stream _ _ Hk).
  - by rewrite (k_dev _ _ Hk).
  - rewrite length_app, length_drop. lia.
  - rewrite length_drop.
    case_decide as Hp; [lia|]. unfold capacity. unfold PAGE_SIZE in *. lia.
Qed.

(** ** Whole pages of the image *)

Lemma written_queued d0 v0 st acc :
  written d0 v0 st acc ->
  exists pre buf, queued d0 v0 st pre /\ toi_writer_buffer st = Some buf /\ full_page buf /\
    0 <= toi_writer_buffer_posn st <= PAGE_SIZE /\
    acc = pre ++ take (Z.to_nat (toi_writer_buffer_posn st)) buf.
Proof.
  intros (cells & pgs & buf & Hinv & Hb & Hfull & Hposn & Hq & ->).
  exists (concat pgs ++ concat (bio_queue st)), buf. rewrite <- app_assoc.
  split_and!; auto; try lia. by exists cells, pgs.
Qed.

Lemma queued_written_buf d0 v0 st pre buf :
  queued d0 v0 st pre -> toi_writer_buffer st = Some buf -> full_page buf ->
  0 <= toi_writer_buffer_posn st <= PAGE_SIZE ->
  written d0 v0 st (pre ++ take (Z.to_nat (toi_writer_buffer_posn st)) buf).
Proof.
  intros (cells & pgs & Hinv & Hq & ->) Hb Hf Hp. exists cells, pgs, buf.
  rewrite <- app_assoc. split_and!; auto; lia.
Qed.

Lemma flush_written d0 v0 st st' acc :
  written d0 v0 st acc -> layout_apart (toi_devinfo st) v0 ->
  toi_bio_queue_flush_pages st = Some (st', 0) ->
  written d0 v0 st' acc /\ kept st st' /\ bio_queue st' = [].
Proof.
  intros (pre & buf & Hq & Hb & Hf & Hp & ->)%written_queued Hlay Hfl.
  destruct (flush_queued _ _ _ _ _ Hq Hlay Hfl) as (Hq' & Hk & Hnil & Hb' & Hp').
  split_and!; auto. rewrite <- Hp'. apply queued_written_buf; congruence.
Qed.

Lemma flush_queued_total d0 v0 st bs all vend :
  queued d0 v0 st bs -> current_stream st <> 0 -> pages (toi_devinfo st) v0 all vend ->
  (length bs <= Z.to_nat PAGE_SIZE * length all)%nat ->
  exists st', toi_bio_queue_flush_pages st = Some (st', 0).
Proof.
  intros (cells & pgs & Hinv & Hq & ->) Hs Hall Hlen.
  rewrite length_app, !concat_full_length in Hlen by (auto; apply Hinv).
  rewrite <- (Forall2_length (wi_disk _ _ _ _ _ Hinv)) in Hlen.
  assert (length cells + length (bio_queue st) <= length all)%nat as Hl
    by (apply (Nat.mul_le_mono_pos_l _ _ (Z.to_nat PAGE_SIZE)); [apply page_positive|lia]).
  destruct (pages_split _ _ _ _ _ _ Hall (wi_pages _ _ _ _ _ Hinv)) as (rest & -> & Hrest); [lia|].
  rewrite length_app in Hl. apply (flush_total st rest vend); try apply Hinv; auto; lia.
Qed.

Definition record_bytes (pfn : Z) (buffer : page) (buf_size : Z) : list Z :=
  le_bytes 8 pfn ++ le_bytes 4 buf_size ++ take (Z.to_nat buf_size) buffer.

(** One chunk, given room on the tape. *)
Lemma rw_buffer_write_spec d0 v0 st acc bs all vend :
  written d0 v0 st acc -> layout_apart (toi_devinfo st) v0 -> current_stream st <> 0 ->
  pages (toi_devinfo st) v0 all vend ->
  (length acc + length bs <= Z.to_nat PAGE_SIZE * length all)%nat ->
  exists st', toi_rw_buffer_write bs st = Some (st', 0) /\ written d0 v0 st' (acc ++ bs) /\ kept st st'.
Proof.
  intros Hw Hlay Hs Hall Hlen. unfold toi_rw_buffer_write.
  destruct (write_buffer_total d0 v0 (S (S (length bs))) bs st acc all vend) as (st' & Hwb); auto.
  { case_decide; lia. }
  exists st'. split; [done|]. by eapply write_buffer_ok.
Qed.

Lemma bio_write_page_spec d0 v0 st acc pfn buffer buf_size all vend :
  written d0 v0 st acc -> layout_apart (toi_devinfo st) v0 -> current_stream st <> 0 ->
  test_result_state TOI_ABORTED (toi_result st) = false ->
  pages (toi_devinfo st) v0 all vend ->
  (length acc + length (record_bytes pfn buffer buf_size) <= Z.to_nat PAGE_SIZE * length all)%nat ->
  exists st', toi_bio_write_page pfn buffer buf_size st = Some (st', 0) /\
    written d0 v0 st' (acc ++ record_bytes pfn buffer buf_size) /\ kept st st'.
Proof.
  intros Hw Hlay Hs Hab Hall Hlen. unfold toi_bio_write_page, record_bytes in *.
  rewrite !length_app in Hlen.
  assert (filter_speed_test st = false) as -> by (destruct Hw as (? & ? & ? & Hinv & _); apply Hinv).
  rewrite Hab.
  destruct (rw_buffer_write_spec d0 v0 st acc (le_bytes 8 pfn) all vend) as (s1 & H1 & Hw1 & Hk1); auto; [lia|].
  destruct (rw_buffer_write_spec d0 v0 s1 (acc ++ le_bytes 8 pfn) (le_bytes 4 buf_size) all vend)
    as (s2 & H2 & Hw2 & Hk2); rewrite ?(k_dev _ _ Hk1), ?(k_stream _ _ Hk1), ?length_app; auto; [lia|].
  pose proof (kept_trans _ _ _ Hk1 Hk2) as Hk12.
  destruct (rw_buffer_write_spec d0 v0 s2 ((acc ++ le_bytes 8 pfn) ++ le_bytes 4 buf_size)
      (take (Z.to_nat buf_size) buffer) all vend)
    as (s3 & H3 & Hw3 & Hk3); rewrite ?(k_dev _ _ Hk12), ?(k_stream _ _ Hk12), ?length_app; auto; [lia|].
  pose proof (kept_trans _ _ _ Hk12 Hk3) as Hk. rewrite <- !app_assoc in Hw3.
  unfold bind, get, ret. rewrite H1. cbn [Z.eqb]. rewrite H2. cbn [Z.eqb]. rewrite H3. cbn [Z.eqb].
  destruct (is_queue_flusher s3); [|exists s3; split_and!; auto].
  pose proof (written_queued _ _ _ _ Hw3) as (pre & buf & Hq & _ & _ & _ & Hpre).
  assert (length pre <= Z.to_nat PAGE_SIZE * length all)%nat as Hpl.
  { assert (length (pre ++ take (Z.to_nat (toi_writer_buffer_posn s3)) buf) =
      length (acc ++ le_bytes 8 pfn ++ le_bytes 4 buf_size ++ take (Z.to_nat buf_size) buffer)) as He
      by (by rewrite <- Hpre).
    rewrite !length_app in He. lia. }
  destruct (flush_queued_total _ _ _ _ all vend Hq) as (s4 & H4);
    rewrite ?(k_dev _ _ Hk), ?(k_stream _ _ Hk); auto.
  rewrite H4. cbn [Z.eqb negb].
  destruct (flush_written d0 v0 s3 s4 _ Hw3) as (Hw4 & Hk4 & _);
    [by rewrite (k_dev _ _ Hk)|done|].
  exists s4. split_and!; auto. by eapply kept_trans.
Qed.

(** A sequence of pages, stopping at the first error. *)
Fixpoint write_image (l : list (Z * page * Z)) : M bio_state Z :=
  match l with
  | [] => ret 0
  | (pfn, buffer, buf_size) :: l' =>
      bind (toi_bio_write_page pfn buffer buf_size) (fun r => or_return r (write_image l'))
  end.

Definition image_bytes (l : list (Z * page * Z)) : list Z :=
  flat_map (fun '(pfn, buffer, buf_size) => record_bytes pfn buffer buf_size) l.

Lemma write_image_spec d0 v0 l st acc all vend :
  written d0 v0 st acc -> layout_apart (toi_devinfo st) v0 -> current_stream st <> 0 ->
  test_result_state TOI_ABORTED (toi_result st) = false ->
  pages (toi_devinfo st) v0 all vend ->
  (length acc + length (image_bytes l) <= Z.to_nat PAGE_SIZE * length all)%nat ->
  exists st', write_image l st = Some (st', 0) /\
    written d0 v0 st' (acc ++ image_bytes l) /\ kept st st'.
Proof.
  revert st acc. induction l as [|[[pfn buffer] size] l IH]; intros st acc Hw Hlay Hs Hab Hall Hlen.
  { exists st. cbn [image_bytes flat_map]. rewrite app_nil_r. split_and!; auto using kept_refl. }
  cbn [image_bytes flat_map] in *. fold (image_bytes l) in *. rewrite length_app in Hlen.
  destruct (bio_write_page_spec d0 v0 st acc pfn buffer size all vend) as (s1 & H1 & Hw1 & Hk1); auto; [lia|].
  destruct (IH s1 (acc ++ record_bytes pfn buffer size)) as (s2 & H2 & Hw2 & Hk2);
    rewrite ?(k_dev _ _ Hk1), ?(k_stream _ _ Hk1), ?(k_result _ _ Hk1), ?length_app; auto; [lia|].
  exists s2. rewrite <- app_assoc in Hw2. split_and!; auto; [|by eapply kept_trans].
  cbn [write_image]. unfold bind, or_return. rewrite H1. exact H2.
Qed.

(** All of [acc], padded to whole pages, is on disk, and the tape stands on
    the last page written. *)
Record on_disk (d0 : disk) (v0 : start) (st : bio_state) (acc : list Z) (cells : list cell)
    (pgs : list page) : Prop := {
  od_inv : writer_inv d0 v0 st cells pgs;
  od_bytes : exists pad, concat pgs = acc ++ pad /\ (length pad < Z.to_nat PAGE_SIZE)%nat
}.

(** The last, partly filled buffer is queued before the final flush. *)
Definition push_buffer (st : bio_state) : bio_state :=
  if toi_writer_buffer_posn st =? 0 then st
  else match toi_writer_buffer st with
       | Some buf => st {{ bio_queue := bio_queue st ++ [buf]; toi_writer_buffer := None }}
       | None => st
       end.

Lemma push_buffer_queued d0 v0 st acc :
  written d0 v0 st acc ->
  exists bs pad, queued d0 v0 (push_buffer st) bs /\ bs = acc ++ pad /\ kept st (push_buffer st) /\
    (length pad < Z.to_nat PAGE_SIZE)%nat.
Proof.
  intros (pre & buf & (cells & pgs & Hinv & Hq & ->) & Hb & Hf & Hp & ->)%written_queued.
  unfold push_buffer. destruct (Z.eqb_spec (toi_writer_buffer_posn st) 0) as [E|E].
  - rewrite E. exists (concat pgs ++ concat (bio_queue st)), []. rewrite !app_nil_r.
    split_and!; auto using kept_refl, page_positive. by exists cells, pgs.
  - rewrite Hb. exists ((concat pgs ++ concat (bio_queue st)) ++ buf),
      (drop (Z.to_nat (toi_writer_buffer_posn st)) buf).
    rewrite <- (app_assoc _ (take _ _)), take_drop. split_and!; try done.
    + exists cells, pgs. split_and!; simpl; [by eapply writer_inv_same|by apply Forall_app_2; [|constructor]|].
      by rewrite concat_app, <- app_assoc; simpl; rewrite app_nil_r.
    + rewrite length_drop, Hf. pose proof page_positive. lia.
Qed.

(** Where the position of a finished stream is saved. *)
Definition end_slot (stream : Z) : nat := if stream =? 2 then 1%nat else 3%nat.

Definition short_chains (p : toi_extent_iterate_state) : Prop :=
  Forall (fun c => Z.of_nat (length (chain_exts c)) < 2 ^ 31) (it_chains p).

(** A position that can be saved. *)
Definition savable (p : toi_extent_iterate_state) : Prop :=
  wf_iter p /\ toi_extent_state_eof p = false /\ short_chains p /\
  (current_chain p = -1 -> current_offset p = 0).

Lemma save_fields p sv :
  toi_extent_state_save p = Some sv ->
  chain_num sv = current_chain p /\ saved_offset sv = current_offset p.
Proof.
  unfold toi_extent_state_save. destruct (_ =? -1); [by intros [= <-]|].
  destruct (it_chains p !! _); [|done]. destruct (count_to _ _ _ _); [|done]. by intros [= <-].
Qed.

Lemma savable_save p : savable p -> exists sv, toi_extent_state_save p = Some sv /\
  chain_num sv = current_chain p /\ saved_offset sv = current_offset p.
Proof.
  intros (Hwf & He & Hs & Ho).
  destruct (save_restore_spec p Hwf He Hs Ho) as (sv & Hsv & _).
  exists sv. split; [done|]. by apply save_fields.
Qed.

Definition good_cell (n : Z) (c : cell) : Prop := c = (-1, 0) \/ 0 <= fst c < n.

Lemma writer_savable d0 v0 st cells pgs :
  writer_inv d0 v0 st cells pgs -> short_chains (toi_writer_posn st) ->
  good_cell (num_chains (toi_writer_posn st)) (start_cell v0) -> savable (toi_writer_posn st).
Proof.
  intros Hinv Hsh Hg.
  assert (good_cell (num_chains (toi_writer_posn st)) (here st)) as Hh.
  { pose proof (wi_here _ _ _ _ _ Hinv) as Hl. destruct cells as [|c cs] using rev_ind.
    - simpl in Hl. by injection Hl as <-.
    - rewrite app_comm_cons, last_snoc in Hl. injection Hl as <-. right.
      pose proof (wi_range _ _ _ _ _ Hinv) as Hr. by apply Forall_app in Hr as [_ [? _]%Forall_cons_1]. }
  split_and!; try apply Hinv; auto.
  - unfold toi_extent_state_eof. apply Z.eqb_neq. unfold here in Hh.
    destruct Hh as [[= E _]|Hh]; [unfold num_chains; lia|simpl in Hh; lia].
  - intros E. unfold here in Hh. destruct Hh as [[= _ ?]|Hh]; [done|simpl in Hh; lia].
Qed.

Lemma queued_pages d0 v0 st bs :
  queued d0 v0 st bs -> exists m, length bs = (Z.to_nat PAGE_SIZE * m)%nat.
Proof.
  intros (cells & pgs & Hinv & Hq & ->). exists (length pgs + length (bio_queue st))%nat.
  rewrite length_app, !concat_full_length by (auto; apply Hinv). lia.
Qed.

Lemma padded_room (n m a pad : nat) :
  (0 < n)%nat -> (a + pad = n * m)%nat -> (pad < n)%nat ->
  forall k, (a <= n * k)%nat -> (a + pad <= n * k)%nat.
Proof. intros. assert (m <= k)%nat by nia. nia. Qed.

(** Closing a written stream. *)
Lemma rw_cleanup_write_spec d0 v0 st acc all vend :
  written d0 v0 st acc -> layout_apart (toi_devinfo st) v0 ->
  (current_stream st = 1 \/ current_stream st = 2) ->
  test_result_state TOI_ABORTED (toi_result st) = false ->
  pages (toi_devinfo st) v0 all vend -> (length acc <= Z.to_nat PAGE_SIZE * length all)%nat ->
  short_chains (toi_writer_posn st) ->
  good_cell (num_chains (toi_writer_posn st)) (start_cell v0) ->
  exists st' cells pgs sv, toi_rw_cleanup WRITE st = Some (st', 0) /\
    on_disk d0 v0 st' acc cells pgs /\
    toi_writer_posn_save st' = <[end_slot (current_stream st) := sv]> (toi_writer_posn_save st) /\
    toi_extent_state_save (toi_writer_posn st') = Some sv /\
    here st' = (chain_num sv, saved_offset sv) /\
    toi_devinfo st' = toi_devinfo st /\
    it_chains (toi_writer_posn st') = it_chains (toi_writer_posn st) /\
    savable (toi_writer_posn st') /\ bio_queue st' = [] /\ readahead_list st' = [] /\
    toi_result st' = toi_result st /\ (memory st = [] -> memory st' = []).
Proof.
  intros Hw Hlay Hs Hab Hall Hlen Hsh Hg.
  destruct (push_buffer_queued _ _ _ _ Hw) as (bs & pad & Hq & Hbs & Hk & Hpad).
  assert (length bs <= Z.to_nat PAGE_SIZE * length all)%nat as Hroom.
  { destruct (queued_pages _ _ _ _ Hq) as (m & Hm). rewrite Hbs, length_app in *.
    eapply padded_room; eauto using page_positive. }
  assert (current_stream (push_buffer st) <> 0) by (rewrite (k_stream _ _ Hk); lia).
  destruct (flush_queued_total _ _ _ _ all vend Hq) as (s1 & Hf); rewrite ?(k_dev _ _ Hk); auto.
  destruct (flush_queued d0 v0 _ s1 _ Hq) as ((cells & pgs & Hinv & _ & Hb1) & Hk1 & Hnil & _);
    [by rewrite (k_dev _ _ Hk)|done|].
  pose proof (kept_trans _ _ _ Hk Hk1) as Hk01.
  assert (savable (toi_writer_posn s1)) as Hsv.
  { eapply writer_savable; [exact Hinv|unfold short_chains|unfold num_chains];
      rewrite (k_chains _ _ Hk01); auto. }
  destruct (savable_save _ Hsv) as (sv & Hsave & Hcn & Hso).
  set (s2 := s1 {{ toi_writer_posn_save := <[end_slot (current_stream st) := sv]> (toi_writer_posn_save s1);
                   readahead_list := []; current_stream := 0 }}).
  exists s2, cells, pgs, sv. split_and!.
  - assert ((if negb (toi_writer_buffer_posn st =? 0) && negb (test_result_state TOI_ABORTED (toi_result st))
             then toi_bio_queue_write else ret ()) st = Some (push_buffer st, ())) as Hpush.
    { unfold push_buffer, toi_bio_queue_write. rewrite Hab. destruct (_ =? 0); [done|].
      destruct Hw as (? & ? & buf & _ & Hbuf & _). simpl. by rewrite Hbuf. }
    assert ((if current_stream st =? 2 then save_posn 1
             else if current_stream st =? 1 then save_posn 3 else ret ()) s1
      = Some (s1 {{ toi_writer_posn_save :=
                      <[end_slot (current_stream st) := sv]> (toi_writer_posn_save s1) }}, ())) as Hpos.
    { unfold end_slot, save_posn. destruct Hs as [->| ->]; simpl; by rewrite Hsave. }
    unfold toi_rw_cleanup, bind, get, or_return. cbn [WRITE]. rewrite Hpush, Hf. cbn [Z.eqb].
    rewrite Hpos. unfold toi_finish_all_io, toi_bio_queue_flush_pages. unfold s2. simpl. by rewrite Hnil.
  - split; [|exists pad; rewrite Hnil, app_nil_r in Hb1; split; [congruence|done]].
    destruct Hinv as [[]]. split; simpl; auto. split; simpl; auto. by rewrite length_insert.
  - simpl. by rewrite (k_saves _ _ Hk01).
  - done.
  - unfold here. simpl. by rewrite Hcn, Hso.
  - simpl. apply Hk01.
  - simpl. apply Hk01.
  - done.
  - done.
  - done.
  - simpl. apply Hk01.
  - simpl. apply Hk01.
Qed.
