(* ===== verification/BlockIORead.v ===== *)
(** * Reading a stream back

    Readahead moves along the same tape as the writer did, from the saved
    start of the stream to its saved end; the theorems at the end say that
    the pages and header chunks read are those written. *)

From S2P Require Import Prelude HeaderStream Extents States BlockIO BlockIOFacts.
From stdpp Require Import numbers base list.
#[local] Open Scope Z_scope.
#[local] Arguments Z.to_nat : simpl never.
#[local] Arguments Nat.mul : simpl never.

(** The pages [pgs], at the cells [cells], are still to be read; the stream
    ends at the last of them, where the saved position stands. *)
Record reader_inv (st : bio_state) (cells : list cell) (pgs : list page) : Prop := {
  ri_tape : wf_tape st;
  ri_extra : extra_page_forward st = false;
  ri_filter : filter_speed_test st = false;
  ri_queue : bio_queue st = [];
  ri_memory : memory st = [];
  ri_pages : exists v', pages (toi_devinfo st) (view st) cells v';
  ri_disk : Forall2 (fun c p =>
    disk_read (the_disk st) (fst (place (toi_devinfo st) c)) (snd (place (toi_devinfo st) c)) = p)
    cells pgs;
  ri_full : Forall full_page pgs;
  ri_end : exists sv, toi_writer_posn_save st !! compare_to (current_stream st) = Some sv /\
    0 <= saved_offset sv < 2 ^ 31 /\
    list.last (here st :: cells) = Some (chain_num sv, saved_offset sv);
  ri_here : good_cell (num_chains (toi_writer_posn st)) (here st);
  ri_distinct : NoDup (here st :: cells);
  ri_more : cells <> [] -> more_readahead st = true
}.

Lemma at_barrier_here st sv :
  toi_writer_posn_save st !! compare_to (current_stream st) = Some sv ->
  0 <= saved_offset sv < 2 ^ 31 ->
  at_barrier st = Some (bool_decide (here st = (chain_num sv, saved_offset sv))).
Proof.
  intros Hs Ho. unfold at_barrier. rewrite Hs, s32_small, u64_small by lia. f_equal.
  unfold here. apply eq_true_iff_eq. rewrite andb_true_iff, !Z.eqb_eq, bool_decide_eq_true.
  split; [intros [-> ->]; done|by intros [= -> ->]].
Qed.

Lemma throttle_idle b st : bio_queue st = [] -> throttle_if_needed b st = Some (st, 0).
Proof.
  intros Hq. unfold throttle_if_needed, toi_bio_queue_flush_pages. simpl.
  rewrite Hq. simpl. by destruct (_ && _ && _).
Qed.

Lemma blocks_to_skip_defined st :
  wf_tape st -> good_cell (num_chains (toi_writer_posn st)) (here st) ->
  exists n, blocks_to_skip st = Some n.
Proof.
  intros Hwf Hg. unfold blocks_to_skip. unfold here in Hg.
  destruct (Z.eqb_spec (current_chain (toi_writer_posn st)) (-1)); [eauto|].
  destruct Hg as [[= E _]|Hg]; [done|]. simpl in Hg.
  destruct (Z.ltb_spec (current_chain (toi_writer_posn st)) 0); [lia|].
  destruct (lookup_lt_is_Some_2 (toi_devinfo st) (Z.to_nat (current_chain (toi_writer_posn st))))
    as [d ->]; [|simpl; eauto].
  rewrite (wt_devs _ Hwf). unfold num_chains in Hg. lia.
Qed.

(** One page of readahead. *)
Lemma start_one_readahead_page dedicated st c cells p pgs :
  reader_inv st (c :: cells) (p :: pgs) ->
  exists q n,
    let st' := st {{ toi_writer_posn := q; toi_io_done := n;
                     readahead_list := readahead_list st ++ [p] }} in
    toi_start_one_readahead dedicated st = Some (st', 0) /\ reader_inv st' cells pgs /\
    it_chains q = it_chains (toi_writer_posn st).
Proof.
  intros [Hwf Hx Hfs Hq Hmem (v' & Hpg) Hdisk Hfull (sv & Hsv & Hso & Hlast) Hgood Hnd Hmore].
  inversion Hpg as [|? ? rest ? ? Hn Hpg']; simplify_eq.
  inversion Hdisk as [|? ? ? ? Hrd Hdisk']; simplify_eq. apply Forall_cons_1 in Hfull as [_ Hfull].
  assert (at_barrier st = Some false) as Hbar.
  { rewrite (at_barrier_here _ _ Hsv Hso). rewrite bool_decide_eq_false_2; [done|].
    intros Hh. apply NoDup_cons in Hnd as [Hni _]. apply Hni. rewrite Hh.
    rewrite last_cons_cons in Hlast. apply last_Some_elem_of in Hlast. done. }
  destruct (advance_ok READ true st c rest Hwf Hn) as (q & Ha & Hm); [by right; left|].
  pose proof Hm as (_ & Hch & Hmc & Hmo & Hmr).
  destruct (next_page_device _ _ _ Hwf Hn) as (d & Hd & Hpl).
  exists q, (s32 (toi_io_done st + 1)). cbv zeta. split_and!; [|split|done].
  - unfold toi_start_one_readahead, bind. rewrite throttle_idle by done.
    unfold or_return. cbn [Z.eqb]. rewrite Hmem.
    assert (st {{ memory := [] }} = st) as Hst by (destruct st; simpl in *; by subst).
    unfold readahead_page. replace (if dedicated then _ else _) with (Some (@nil bool)) by (by destruct dedicated).
    rewrite Hst. unfold toi_bio_rw_page, go_next_page, bind, get, or_return. rewrite Ha.
    simpl. rewrite Hx. simpl. rewrite Hmc, Hd. unfold toi_do_io. simpl. unfold submit. simpl.
    rewrite Hfs, Hmo, Hpl. simpl. by rewrite ?Hx, ?Hfs, ?Hmem.
  - by apply (moved_wf_tape st _ c rest Hwf).
  - done.
  - done.
  - done.
  - done.
  - exists v'. unfold view. simpl. by rewrite Hmc, Hmr.
  - done.
  - done.
  - exists sv. rewrite last_cons_cons in Hlast. split_and!; auto; try lia.
    by replace (here _) with c by (unfold here; simpl; rewrite Hmc, Hmo; by destruct c).
  - right. unfold num_chains, here. simpl. rewrite Hch, Hmc. by eapply next_page_range.
  - apply NoDup_cons in Hnd as [_ Hnd].
    by replace (here _) with c by (unfold here; simpl; rewrite Hmc, Hmo; by destruct c).
  - intros _. by apply Hmore.
Qed.

(** At the end of the stream. *)
Lemma start_one_readahead_end dedicated st :
  reader_inv st [] [] ->
  toi_start_one_readahead dedicated st = Some (st {{ more_readahead := false }}, - ENODATA) /\
  reader_inv (st {{ more_readahead := false }}) [] [].
Proof.
  intros [Hwf Hx Hfs Hq Hmem (v' & Hpg) Hdisk Hfull (sv & Hsv & Hso & Hlast) Hgood Hnd Hmore].
  assert (here st = (chain_num sv, saved_offset sv)) as Hhere by exact (inj Some _ _ Hlast).
  split.
  - unfold toi_start_one_readahead, bind. rewrite throttle_idle by done.
    unfold or_return. cbn [Z.eqb]. rewrite Hmem.
    assert (st {{ memory := [] }} = st) as Hst by (destruct st; simpl in *; by subst).
    unfold readahead_page. replace (if dedicated then _ else _) with (Some (@nil bool)) by (by destruct dedicated).
    rewrite Hst. unfold toi_bio_rw_page, go_next_page, bind, get, or_return, advance.
    rewrite (at_barrier_here _ _ Hsv Hso), Hhere, bool_decide_eq_true_2 by done.
    destruct (blocks_to_skip_defined st Hwf Hgood) as [n ->]. done.
  - split; simpl; auto; [by apply (wf_tape_same st)|by eauto|exists sv; split_and!; auto; lia].
Qed.

(** What the reading operations leave alone. *)
Record rkept (st st' : bio_state) : Prop := {
  rk_dev : toi_devinfo st' = toi_devinfo st;
  rk_saves : toi_writer_posn_save st' = toi_writer_posn_save st;
  rk_chains : it_chains (toi_writer_posn st') = it_chains (toi_writer_posn st);
  rk_stream : current_stream st' = current_stream st;
  rk_disk : the_disk st' = the_disk st;
  rk_result : toi_result st' = toi_result st;
  rk_flusher : is_queue_flusher st' = is_queue_flusher st
}.

Lemma rkept_refl st : rkept st st.
Proof. by split. Qed.

Lemma rkept_trans a b c : rkept a b -> rkept b c -> rkept a c.
Proof. intros [] []. split; congruence. Qed.

(** Readahead moves pages from the tape to the list, in order. *)
Definition read_ahead (st st' : bio_state) (pgs pgs' : list page) : Prop :=
  readahead_list st' ++ pgs' = readahead_list st ++ pgs /\ rkept st st' /\
  toi_writer_buffer st' = toi_writer_buffer st /\
  toi_writer_buffer_posn st' = toi_writer_buffer_posn st.

Lemma read_ahead_trans a b c pa pb pc :
  read_ahead a b pa pb -> read_ahead b c pb pc -> read_ahead a c pa pc.
Proof.
  intros (?&?&?&?) (?&?&?&?). split_and!; try congruence. by eapply rkept_trans.
Qed.

Lemma pages_length devs v cs v' : pages devs v cs v' -> (length cs <= length (snd v))%nat.
Proof.
  induction 1 as [|v c rest cs v' Hn _ IH]; simpl; [lia|].
  unfold next_page in Hn. destruct (page_cells _ _) as [[|k]|]; try done.
  destruct (drop k (snd v)) as [|c' r] eqn:Hd; [done|]. simplify_eq.
  assert (length (drop k (snd v)) = S (length rest)) as Hl by (by rewrite Hd).
  rewrite length_drop in Hl. simpl in IH. lia.
Qed.

Lemma readahead_loop_spec n dedicated k st cells pgs :
  reader_inv st cells pgs -> (length cells < n)%nat ->
  exists st' cells' pgs', readahead_loop n dedicated k st = Some (st', 0) /\
    reader_inv st' cells' pgs' /\ read_ahead st st' pgs pgs' /\
    (dedicated = true -> cells' = []).
Proof.
  revert k st cells pgs. induction n as [|n IH]; intros k st cells pgs Hinv Hn; [lia|].
  cbn [readahead_loop]. unfold bind, get. destruct cells as [|c cells], pgs as [|p pgs];
    try (pose proof (Forall2_length _ _ _ (ri_disk _ _ _ Hinv)) as Hl; simpl in Hl; lia).
  - destruct (start_one_readahead_end dedicated st Hinv) as [-> Hinv'].
    eexists _, [], []. split; [done|]. by split_and!.
  - destruct (start_one_readahead_page dedicated st c cells p pgs Hinv) as (q & io & Hs & Hinv' & Hch).
    cbv zeta in *. rewrite Hs. cbn [Z.eqb negb].
    set (st1 := set_field _ _ _) in *.
    assert (read_ahead st st1 (p :: pgs) pgs) as Hra.
    { split_and!; [simpl; by rewrite <- app_assoc|by split|done..]. }
    destruct (more_readahead st1 && _) eqn:Hgo.
    + destruct (IH (k + 1) st1 cells pgs Hinv') as (st' & cells' & pgs' & -> & ? & Hra' & ?);
        [simpl in Hn; lia|].
      exists st', cells', pgs'. split_and!; auto. by eapply read_ahead_trans.
    + exists st1, cells, pgs. split_and!; auto. intros ->. destruct cells; [done|].
      rewrite (ri_more _ _ _ Hinv') in Hgo; done.
Qed.

Lemma start_new_readahead_spec dedicated st cells pgs :
  reader_inv st cells pgs ->
  exists st' cells' pgs', toi_start_new_readahead dedicated st = Some (st', 0) /\
    reader_inv st' cells' pgs' /\ read_ahead st st' pgs pgs' /\
    (dedicated = true -> cells' = []).
Proof.
  intros Hinv. unfold toi_start_new_readahead.
  destruct (more_readahead st) eqn:Hm.
  - apply readahead_loop_spec with (1 := Hinv). destruct (ri_pages _ _ _ Hinv) as (v' & Hp).
    pose proof (pages_length _ _ _ _ Hp) as Hl. unfold view in Hl. simpl in Hl.
    unfold readahead_rounds. lia.
  - exists st, cells, pgs. split_and!; [done..|by split_and!; auto using rkept_refl|].
    intros _. destruct cells; [done|]. by rewrite (ri_more _ _ _ Hinv) in Hm.
Qed.

(** The next page of the stream reaches the buffer; without readahead there
    must be no page read ahead already. *)
Lemma get_next_page_read_spec nora st cells pgs p rest buf :
  reader_inv st cells pgs -> readahead_list st ++ pgs = p :: rest ->
  toi_writer_buffer st = Some buf -> (nora = true -> readahead_list st = []) ->
  exists st' cells' pgs', toi_bio_get_next_page_read nora st = Some (st', 0) /\
    reader_inv st' cells' pgs' /\ readahead_list st' ++ pgs' = rest /\
    toi_writer_buffer st' = Some p /\ rkept st st' /\
    toi_writer_buffer_posn st' = toi_writer_buffer_posn st /\
    (nora = true -> readahead_list st' = []).
Proof.
  intros Hinv Hlist Hbuf Hnora. unfold toi_bio_get_next_page_read, bind, get.
  assert (readahead_list st = [] -> exists st1 c cells1 pgs1,
    toi_start_one_readahead false st = Some (st1, 0) /\ cells = c :: cells1 /\
    reader_inv st1 cells1 pgs1 /\ readahead_list st1 = [p] /\ pgs1 = rest /\
    rkept st st1 /\ toi_writer_buffer st1 = Some buf /\
    toi_writer_buffer_posn st1 = toi_writer_buffer_posn st) as Hone.
  { intros Hnil. rewrite Hnil in Hlist. simpl in Hlist. subst pgs.
    destruct cells as [|c cells]; [pose proof (Forall2_length _ _ _ (ri_disk _ _ _ Hinv)) as Hl; simpl in Hl; lia|].
    destruct (start_one_readahead_page false st c cells p rest Hinv) as (q & io & Hs & Hinv' & Hch).
    cbv zeta in *. eexists _, c, cells, rest. split; [exact Hs|].
    split_and!; [done|exact Hinv'|simpl; by rewrite Hnil|done|split; simpl; auto|done..]. }
  assert (forall st1 cells1 pgs1, reader_inv st1 cells1 pgs1 ->
    readahead_list st1 ++ pgs1 = p :: rest -> readahead_list st1 <> [] ->
    toi_writer_buffer st1 = Some buf ->
    exists st', match readahead_list st1, toi_writer_buffer st1 with
      | p :: rest, Some _ =>
          Some (st1 {{ toi_writer_buffer := Some p; readahead_list := rest }}, 0)
      | _, _ => None
      end = Some (st', 0) /\ reader_inv st' cells1 pgs1 /\ readahead_list st' ++ pgs1 = rest /\
      toi_writer_buffer st' = Some p /\ rkept st1 st' /\
      toi_writer_buffer_posn st' = toi_writer_buffer_posn st1 /\
      readahead_list st1 = p :: readahead_list st') as Htake.
  { intros st1 cells1 pgs1 Hi Hl Hne Hb. destruct (readahead_list st1) as [|p1 l1]; [done|].
    rewrite Hb. injection Hl as -> Hl. eexists. split; [done|]. split_and!; try done.
    destruct Hi as [Hwf ? ? ? ? ? ? ? ? ? ? ?]. split; simpl; auto. by apply (wf_tape_same st1). }
  destruct nora.
  - destruct (Hone (Hnora eq_refl)) as (st1 & c & cells1 & pgs1 & -> & -> & Hi1 & Hl1 & -> & Hk1 & Hb1 & Hp1).
    cbn [Z.eqb negb]. rewrite Hl1. cbn [ret Z.eqb negb].
    destruct (Htake st1 cells1 rest Hi1) as (st' & Ht & Hi' & Hl' & Hb' & Hk' & Hp' & Hhd); auto;
      [by rewrite Hl1|by rewrite Hl1|].
    rewrite Hl1, Hb1 in Ht. unfold ret. rewrite Hl1, Hb1, Ht.
    exists st', cells1, rest. split_and!; auto; [by eapply rkept_trans|congruence|].
    intros _. rewrite Hl1 in Hhd. by injection Hhd.
  - cbn [ret Z.eqb negb]. destruct (readahead_list st) as [|p1 l1] eqn:Hra.
    + destruct (Hone eq_refl) as (st1 & c & cells1 & pgs1 & Hs & -> & Hi1 & Hl1 & -> & Hk1 & Hb1 & Hp1).
      rewrite (ri_more _ _ _ Hinv) by done. rewrite Hs. cbn [Z.eqb negb].
      destruct (Htake st1 cells1 rest Hi1) as (st' & Ht & Hi' & Hl' & Hb' & Hk' & Hp' & Hhd); auto;
        [by rewrite Hl1|by rewrite Hl1|].
      rewrite Ht. exists st', cells1, rest. split_and!; auto; [by eapply rkept_trans|congruence|done].
    + destruct (Htake st cells pgs Hinv) as (st' & Ht & Hi' & Hl' & Hb' & Hk' & Hp' & Hhd);
        [by rewrite Hra|by rewrite Hra|done|].
      rewrite Hra, Hbuf in Ht. unfold ret. cbn [Z.eqb negb]. rewrite Hra, Hbuf, Ht.
      exists st', cells, pgs. by split_and!.
Qed.

(** ** Byte chunks *)

(** The next bytes of the stream are [bs]: in the buffer, read ahead, or
    still on disk. *)
Definition pending (nora : bool) (st : bio_state) (bs : list Z) : Prop :=
  exists cells pgs buf tail,
    reader_inv st cells pgs /\ toi_writer_buffer st = Some buf /\ full_page buf /\
    0 <= toi_writer_buffer_posn st <= PAGE_SIZE /\
    (nora = true -> readahead_list st = []) /\ Forall full_page (readahead_list st) /\
    drop (Z.to_nat (toi_writer_buffer_posn st)) buf ++ concat (readahead_list st) ++ concat pgs
      = bs ++ tail.

Lemma read_buffer_round fuel n nora acc st buf :
  n <> 0%nat -> toi_writer_buffer st = Some buf ->
  let posn := Z.to_nat (toi_writer_buffer_posn st) in
  let capacity := (Z.to_nat PAGE_SIZE - posn)%nat in
  read_buffer (S fuel) n nora acc st =
    if (n <=? capacity)%nat then
      Some (st {{ toi_writer_buffer_posn := toi_writer_buffer_posn st + Z.of_nat n }},
            (acc ++ take n (drop posn buf), 0))
    else
      match toi_bio_get_next_page_read nora st with
      | Some (st', r) =>
          if negb (r =? 0) then Some (st', (acc ++ drop posn buf, r))
          else read_buffer fuel (n - capacity) nora (acc ++ drop posn buf)
                 (st' {{ toi_writer_buffer_posn := 0 }})
      | None => None
      end.
Proof.
  intros Hn Hb posn capacity. destruct n as [|n]; [done|].
  cbn [read_buffer]. unfold bind, get, modify, ret. rewrite Hb.
  unfold posn, capacity. destruct (_ <=? _)%nat; [done|].
  destruct (toi_bio_get_next_page_read nora st) as [[st' r]|]; [|done].
  by destruct (negb (r =? 0)).
Qed.

Lemma reader_inv_posn st cells pgs n :
  reader_inv st cells pgs -> reader_inv (st {{ toi_writer_buffer_posn := n }}) cells pgs.
Proof.
  intros [Hwf ? ? ? ? ? ? ? ? ? ? ?]. split; simpl; auto. by apply (wf_tape_same st).
Qed.

(** The whole request lies in the buffer. *)
Lemma pending_in_buffer nora st bs rest buf :
  pending nora st (bs ++ rest) -> toi_writer_buffer st = Some buf ->
  let posn := Z.to_nat (toi_writer_buffer_posn st) in
  (length bs <= Z.to_nat PAGE_SIZE - posn)%nat ->
  take (length bs) (drop posn buf) = bs /\
  pending nora (st {{ toi_writer_buffer_posn := toi_writer_buffer_posn st + Z.of_nat (length bs) }}) rest.
Proof.
  intros (cells & pgs & buf' & tail & Hinv & Hb' & Hfull & Hposn & Hnora & Hra & Heq) Hb posn Hle.
  rewrite Hb in Hb'. injection Hb' as <-. fold posn in Heq.
  assert (length bs <= length (drop posn buf))%nat as Hl by (rewrite length_drop, Hfull; lia).
  assert (take (length bs) (drop posn buf) = bs) as Ht.
  { apply (f_equal (take (length bs))) in Heq. rewrite take_app_le in Heq by done.
    by rewrite <- app_assoc, take_app_length in Heq. }
  split; [done|]. exists cells, pgs, buf, tail.
  split_and!; simpl; auto; try lia; [by apply reader_inv_posn|].
  replace (Z.to_nat (toi_writer_buffer_posn st + Z.of_nat (length bs)))
    with (posn + length bs)%nat by (unfold posn; lia).
  rewrite <- drop_drop. apply (f_equal (drop (length bs))) in Heq.
  rewrite drop_app_le in Heq by done. by rewrite <- app_assoc, drop_app_length in Heq.
Qed.

(** The buffer is used up and the next page fetched. *)
Lemma pending_next_page nora st bs rest buf :
  pending nora st (bs ++ rest) -> toi_writer_buffer st = Some buf ->
  let posn := Z.to_nat (toi_writer_buffer_posn st) in
  let capacity := (Z.to_nat PAGE_SIZE - posn)%nat in
  (capacity < length bs)%nat ->
  take capacity bs = drop posn buf /\
  exists st', toi_bio_get_next_page_read nora st = Some (st', 0) /\ rkept st st' /\
    pending nora (st' {{ toi_writer_buffer_posn := 0 }}) (drop capacity bs ++ rest).
Proof.
  intros (cells & pgs & buf' & tail & Hinv & Hb' & Hfull & Hposn & Hnora & Hra & Heq) Hb posn capacity Hlt.
  rewrite Hb in Hb'. injection Hb' as <-. fold posn in Heq.
  assert (length (drop posn buf) = capacity) as Hcap by (rewrite length_drop, Hfull; done).
  assert (take capacity bs = drop posn buf) as Ht.
  { apply (f_equal (take capacity)) in Heq. rewrite take_app_length' in Heq by done.
    rewrite <- app_assoc, take_app_le in Heq by lia. done. }
  split; [done|].
  assert (concat (readahead_list st) ++ concat pgs = drop capacity bs ++ rest ++ tail) as Heq2.
  { apply (f_equal (drop capacity)) in Heq. rewrite drop_app_length' in Heq by done.
    rewrite <- app_assoc, drop_app_le in Heq by lia. done. }
  destruct (readahead_list st ++ pgs) as [|p rest_pgs] eqn:Hl.
  { apply (f_equal (concat (A := Z))) in Hl. rewrite concat_app, Heq2 in Hl. simpl in Hl.
    apply (f_equal length) in Hl. rewrite length_app, length_drop in Hl. simpl in Hl. lia. }
  destruct (get_next_page_read_spec nora st cells pgs p rest_pgs buf Hinv Hl Hb Hnora)
    as (st' & cells' & pgs' & Hg & Hinv' & Hl' & Hb'' & Hk & Hp' & Hn').
  exists st'. split_and!; auto. exists cells', pgs', p, tail.
  assert (Forall full_page (readahead_list st ++ pgs)) as Hall
    by (apply Forall_app; split; [done|apply Hinv]).
  rewrite Hl in Hall. apply Forall_cons_1 in Hall as [Hpf Hall]. rewrite <- Hl' in Hall.
  apply Forall_app in Hall as [? ?].
  split_and!; simpl; auto; try (unfold PAGE_SIZE; lia); [by apply reader_inv_posn|].
  assert (concat (readahead_list st') ++ concat pgs' = concat rest_pgs) as ->
    by (by rewrite <- Hl', concat_app).
  change (Z.to_nat 0) with 0%nat. rewrite drop_0.
  change (p ++ concat rest_pgs) with (concat (p :: rest_pgs)). rewrite <- Hl, concat_app, Heq2.
  by rewrite app_assoc.
Qed.

Lemma read_buffer_spec fuel nora acc bs rest st :
  pending nora st (bs ++ rest) ->
  (length bs + (if decide (toi_writer_buffer_posn st = PAGE_SIZE) then 1 else 0) < fuel)%nat ->
  exists st', read_buffer fuel (length bs) nora acc st = Some (st', (acc ++ bs, 0)) /\
    pending nora st' rest /\ rkept st st'.
Proof.
  revert acc bs st. induction fuel as [|fuel IH]; intros acc bs st Hp Hf; [lia|].
  destruct (decide (bs = [])) as [->|Hne].
  { exists st. rewrite app_nil_r. split_and!; auto using rkept_refl. }
  pose proof Hp as (_ & _ & buf & _ & _ & Hb & Hfull & Hposn & _).
  rewrite (read_buffer_round fuel (length bs) nora acc st buf); [|by destruct bs|done].
  set (posn := Z.to_nat (toi_writer_buffer_posn st)).
  set (capacity := (Z.to_nat PAGE_SIZE - posn)%nat).
  destruct (Nat.leb_spec (length bs) capacity) as [Hle|Hgt].
  - destruct (pending_in_buffer nora st bs rest buf Hp Hb Hle) as [Ht Hp'].
    fold posn in Ht. rewrite Ht. eexists. split; [done|]. split; [exact Hp'|]. by split.
  - destruct (pending_next_page nora st bs rest buf Hp Hb Hgt) as (Ht & st' & -> & Hk & Hp').
    cbn [Z.eqb negb]. fold posn capacity in Ht, Hp'.
    assert (length bs - capacity = length (drop capacity bs))%nat as -> by (by rewrite length_drop).
    destruct (IH (acc ++ drop posn buf) (drop capacity bs) _ Hp') as (st2 & Hr & Hp2 & Hk2).
    { simpl. rewrite length_drop. unfold capacity, posn in *. case_decide; [lia|].
      unfold PAGE_SIZE in *. lia. }
    exists st2. rewrite Hr, <- Ht, <- app_assoc, take_drop. split_and!; auto.
    eapply rkept_trans; [exact Hk|]. eapply rkept_trans; [|exact Hk2]. by split.
Qed.

(** ** Whole pages *)


Lemma start_new_pending dedicated st bs :
  pending false st bs ->
  exists st', toi_start_new_readahead dedicated st = Some (st', 0) /\ pending false st' bs /\
    rkept st st'.
Proof.
  intros (cells & pgs & buf & tail & Hinv & Hb & Hfull & Hposn & _ & Hra & Heq).
  destruct (start_new_readahead_spec dedicated st cells pgs Hinv)
    as (st' & cells' & pgs' & Hs & Hinv' & (Hl & Hk & Hb' & Hp') & _).
  exists st'. split_and!; auto. exists cells', pgs', buf, tail. rewrite Hb', Hp'.
  assert (Forall full_page (readahead_list st' ++ pgs')) as Hall
    by (rewrite Hl; apply Forall_app; split; [done|apply Hinv]).
  apply Forall_app in Hall as [? _].
  split_and!; auto; try lia. rewrite <- Heq. f_equal.
  apply (f_equal (concat (A := Z))) in Hl. by rewrite !concat_app in Hl.
Qed.

Lemma rw_buffer_read_spec nora bs rest st :
  pending nora st (bs ++ rest) ->
  exists st', toi_rw_buffer_read (length bs) nora st = Some (st', (bs, 0)) /\
    pending nora st' rest /\ rkept st st'.
Proof.
  intros Hp. unfold toi_rw_buffer_read.
  destruct (read_buffer_spec (S (S (length bs))) nora [] bs rest st Hp) as (st' & Hr & ?).
  { case_decide; lia. }
  exists st'. rewrite Hr. done.
Qed.

Lemma bio_read_page_spec st pfn buffer buf_size rest :
  pending false st (record_bytes pfn buffer buf_size ++ rest) ->
  0 <= pfn < 2 ^ 64 -> 0 <= buf_size < 2 ^ 32 -> buf_size <= Z.of_nat (length buffer) ->
  exists st', toi_bio_read_page st =
      Some (st', (pfn, buf_size, take (Z.to_nat buf_size) buffer, 0)) /\
    pending false st' rest /\ rkept st st'.
Proof.
  intros Hp Hpfn Hsz Hlen. unfold toi_bio_read_page, bind, get.
  assert (exists s0, (if is_queue_flusher st then toi_start_new_readahead false else ret 0) st
    = Some (s0, 0) /\ pending false s0 (record_bytes pfn buffer buf_size ++ rest) /\ rkept st s0)
    as (s0 & -> & Hp0 & Hk0).
  { destruct (is_queue_flusher st); [by apply start_new_pending|].
    exists st. split_and!; auto using rkept_refl. }
  cbn [Z.eqb negb]. unfold record_bytes in Hp0. rewrite <- !app_assoc in Hp0.
  apply rw_buffer_read_spec in Hp0 as (s1 & H1 & Hp1 & Hk1).
  rewrite length_le_bytes in H1. rewrite H1. cbn [fst snd Z.eqb negb].
  apply rw_buffer_read_spec in Hp1 as (s2 & H2 & Hp2 & Hk2).
  rewrite length_le_bytes in H2. rewrite H2. cbn [fst snd Z.eqb negb].
  rewrite le_val_bytes4. unfold u32 at 1. rewrite Z.mod_small by lia.
  apply rw_buffer_read_spec in Hp2 as (s3 & H3 & Hp3 & Hk3).
  rewrite length_take_le in H3 by lia. rewrite H3. cbn [fst snd Z.eqb negb].
  exists s3. rewrite le_val_bytes8, u64_small by lia. unfold u32. rewrite Z.mod_small by lia.
  split_and!; auto. eauto using rkept_trans.
Qed.

(** Read [n] pages, stopping at the first error. *)
Fixpoint read_image (n : nat) : M bio_state (list (Z * Z * list Z) * Z) :=
  match n with
  | O => ret ([], 0)
  | S n' =>
      bind toi_bio_read_page (fun '(pfn, size, bytes, r) =>
        if negb (r =? 0) then ret ([], r)
        else bind (read_image n') (fun '(l, r') => ret ((pfn, size, bytes) :: l, r')))
  end.

(** What a page must be for its record to be faithful: a 64-bit frame number
    and a size that fits the buffer and an unsigned int. *)
Definition wf_entry (e : Z * page * Z) : Prop :=
  let '(pfn, buffer, buf_size) := e in
  0 <= pfn < 2 ^ 64 /\ 0 <= buf_size < 2 ^ 32 /\ buf_size <= Z.of_nat (length buffer).

Definition entry_read (e : Z * page * Z) : Z * Z * list Z :=
  let '(pfn, buffer, buf_size) := e in (pfn, buf_size, take (Z.to_nat buf_size) buffer).

Lemma read_image_spec l st rest :
  Forall wf_entry l -> pending false st (image_bytes l ++ rest) ->
  exists st', read_image (length l) st = Some (st', (map entry_read l, 0)) /\
    pending false st' rest /\ rkept st st'.
Proof.
  revert st. induction l as [|[[pfn buffer] size] l IH]; intros st Hwf Hp.
  { exists st. split_and!; auto using rkept_refl. }
  apply Forall_cons_1 in Hwf as [(?&?&?) Hwf].
  cbn [image_bytes flat_map] in Hp. fold (image_bytes l) in Hp. rewrite <- app_assoc in Hp.
  destruct (bio_read_page_spec _ _ _ _ _ Hp) as (s1 & Hr1 & Hp1 & Hk1); auto.
  destruct (IH s1 Hwf Hp1) as (s2 & Hr2 & Hp2 & Hk2).
  exists s2. cbn [length read_image]. unfold bind. rewrite Hr1. cbn [Z.eqb negb]. rewrite Hr2.
  split_and!; auto. by eapply rkept_trans.
Qed.

(** ** The cells of a tape are distinct *)

Definition cell_lt (a b : cell) : Prop := fst a < fst b \/ fst a = fst b /\ snd a < snd b.

Fixpoint sorted_cells (c : cell) (l : list cell) : Prop :=
  match l with [] => True | x :: l' => cell_lt c x /\ sorted_cells x l' end.

Lemma cell_lt_trans a b c : cell_lt a b -> cell_lt b c -> cell_lt a c.
Proof. unfold cell_lt. lia. Qed.

Lemma sorted_cells_weaken a c l : cell_lt a c -> sorted_cells c l -> sorted_cells a l.
Proof. destruct l; simpl; [done|]. intros ? [? ?]. split; [by eapply cell_lt_trans|done]. Qed.

Lemma sorted_cells_forall c l : sorted_cells c l -> Forall (cell_lt c) l.
Proof.
  revert c. induction l as [|x l IH]; intros c Hs; constructor; [apply Hs|].
  apply IH. eapply sorted_cells_weaken; apply Hs.
Qed.

Lemma sorted_cells_NoDup c l : sorted_cells c l -> NoDup (c :: l).
Proof.
  revert c. induction l as [|x l IH]; intros c Hs; [apply NoDup_singleton|].
  apply NoDup_cons. split; [|apply IH; by destruct Hs].
  intros Hin. pose proof (sorted_cells_forall _ _ Hs) as Hf.
  rewrite Forall_forall in Hf. specialize (Hf _ Hin). unfold cell_lt in Hf. lia.
Qed.

Lemma sorted_cells_drop k c l :
  sorted_cells c l -> match drop k l with [] => True | x :: l' => cell_lt c x /\ sorted_cells x l' end.
Proof.
  revert c l. induction k as [|k IH]; intros c l Hs; [rewrite drop_0; by destruct l|].
  destruct l as [|x l]; [done|]. destruct Hs as [Hx Hs]. specialize (IH _ _ Hs). simpl.
  destruct (drop k l) as [|y m]; [done|]. destruct IH. split; [by eapply cell_lt_trans|done].
Qed.

Lemma pages_sorted devs v cs v' c :
  pages devs v cs v' -> sorted_cells c (snd v) -> sorted_cells c cs.
Proof.
  intros Hp. revert c. induction Hp as [|v x rest cs v' Hn _ IH]; intros c Hs; simpl; [done|].
  unfold next_page in Hn. destruct (page_cells _ _) as [[|k]|]; try done.
  pose proof (sorted_cells_drop k _ _ Hs) as Hd. destruct (drop k (snd v)); simplify_eq.
  destruct Hd. split; [done|]. by apply IH.
Qed.

Lemma exts_blocks_ascending lo l : wf_from lo l -> ascending lo (exts_blocks l).
Proof.
  revert lo. induction l as [|e l IH]; intros lo Hwf; [done|].
  destruct Hwf as (?&?&Hl). cbn [exts_blocks flat_map]. fold (exts_blocks l).
  unfold ext_blocks, ext_len. apply ascending_weaken with (ext_start e); [|done].
  apply ascending_app with (ext_end e + 1); [apply ascending_seqZ| |lia|by apply IH].
  intros x Hx%elem_of_seqZ. lia.
Qed.

Lemma wf_from_drop l i e :
  wf_from 0 l -> l !! i = Some e -> wf_from (ext_end e + 1) (drop (S i) l).
Proof.
  intros Hwf Hi. apply split_at in Hi as (l1 & l2 & -> & _ & _ & _ & -> & _).
  apply wf_from_app in Hwf as [_ (_ & _ & Hwf)]. done.
Qed.

Lemma map_tape_sorted n o l cs :
  (forall c k, fst c < k -> sorted_cells c (tape_from k cs)) -> ascending (o + 1) l ->
  sorted_cells (n, o) (map (pair n) l ++ tape_from (n + 1) cs).
Proof.
  intros Ht. revert o. induction l as [|x l IH]; intros o Ha; simpl.
  - apply Ht. simpl. lia.
  - destruct Ha as [? Ha]. split; [right; simpl; lia|]. by apply IH.
Qed.

Lemma tape_sorted cs :
  Forall (fun c => wf_from 0 (chain_exts c)) cs ->
  forall c k, fst c < k -> sorted_cells c (tape_from k cs).
Proof.
  induction 1 as [|ch cs Hch _ IH]; intros c k Hk; [done|]. cbn [tape_from].
  pose proof (exts_blocks_ascending 0 _ Hch) as Ha. unfold chain_blocks.
  destruct (exts_blocks (chain_exts ch)) as [|b l]; [apply IH; lia|].
  destruct Ha as [_ Ha]. simpl. split; [by left|]. by apply map_tape_sorted.
Qed.

Lemma rest_of_sorted p :
  wf_iter p -> sorted_cells (current_chain p, current_offset p) (rest_of p).
Proof.
  intros Hwf. unfold rest_of. pose proof (wfi_chains _ Hwf) as Hch.
  apply map_tape_sorted; [apply tape_sorted; by apply Forall_drop|].
  unfold rest_in_chain. destruct (current_extent p) as [i|] eqn:Hi; [|done].
  destruct (exts_of (it_chains p) (current_chain p) !! i) as [e|] eqn:He; [|done].
  destruct (wf_iter_extent _ _ _ Hwf Hi He) as (? & ? & ? & ? & Hs).
  apply ascending_app with (ext_end e + 1); [apply ascending_seqZ| |lia|].
  - intros x Hx%elem_of_seqZ. lia.
  - apply exts_blocks_ascending. by eapply wf_from_drop.
Qed.

(** ** Positions over relocated chains *)

Lemma restore_relocated p p2 sv q :
  map chain_exts (it_chains p2) = map chain_exts (it_chains p) ->
  toi_extent_state_restore p sv = Some q ->
  toi_extent_state_restore p2 sv =
    Some (IterState (it_chains p2) (current_chain q) (current_extent q) (current_offset q)).
Proof.
  intros Hm. unfold toi_extent_state_restore.
  destruct (chain_num sv =? -1); [by intros [= <-]|]. destruct (_ <? 0); [done|].
  destruct (it_chains p !! Z.to_nat (chain_num sv)) as [c|] eqn:Hc; [|done].
  destruct (relocated_lookup _ _ _ _ Hm Hc) as (c2 & -> & ->).
  destruct (follow _ _ _); [|done]. by intros [= <-].
Qed.

Lemma wf_iter_relocated p cs2 :
  wf_iter p -> map chain_exts cs2 = map chain_exts (it_chains p) ->
  wf_iter (IterState cs2 (current_chain p) (current_extent p) (current_offset p)).
Proof.
  intros [Hc Hr Hp] Hm.
  assert (length cs2 = length (it_chains p)) as Hl
    by (by rewrite <- (length_map chain_exts cs2), Hm, length_map).
  assert (exts_of cs2 (current_chain p) = exts_of (it_chains p) (current_chain p)) as He.
  { unfold exts_of. destruct (_ <? 0); [done|].
    destruct (it_chains p !! Z.to_nat (current_chain p)) as [c|] eqn:Hi.
    - by destruct (relocated_lookup _ _ _ _ Hm Hi) as (c2 & -> & ->).
    - apply lookup_ge_None in Hi. rewrite <- Hl in Hi. by apply lookup_ge_None in Hi as ->. }
  split; simpl.
  - assert (Forall (wf_from 0) (map chain_exts cs2)) as Hf
      by (rewrite Hm; by apply Forall_map). exact (proj1 (List.Forall_map chain_exts (wf_from 0) cs2) Hf).
  - unfold num_chains in *. simpl. by rewrite Hl.
  - unfold num_chains in *. simpl. rewrite He, Hl. done.
Qed.

(** ** A stream from end to end *)

(** Nothing in flight, and allocations succeed. *)
Record idle (st : bio_state) : Prop := {
  id_extra : extra_page_forward st = false;
  id_filter : filter_speed_test st = false;
  id_queue : bio_queue st = [];
  id_memory : memory st = [];
  id_readahead : readahead_list st = []
}.

Definition start_of (p : toi_extent_iterate_state) : start :=
  Start (current_chain p, current_offset p) (current_chain p, rest_of p).

(** The stream [s] can be written from its saved start [p0]: pages do not
    overlap on disk and block numbers fit the barrier's [int]. *)
Record stream_ready (s : Z) (st : bio_state) (p0 : toi_extent_iterate_state) : Prop := {
  sr_stream : s = 1 \/ s = 2;
  sr_tape : wf_tape st;
  sr_idle : idle st;
  sr_start : exists sv, toi_writer_posn_save st !! Z.to_nat s = Some sv /\
    toi_extent_state_restore (toi_writer_posn st) sv = Some p0;
  sr_savable : savable p0;
  sr_blocks : Forall (fun c => 0 <= snd c < 2 ^ 31) ((current_chain p0, current_offset p0) :: rest_of p0);
  sr_apart : layout_apart (toi_devinfo st) (start_of p0)
}.

(** [r] is a state of a kernel that has reloaded the image's metadata: the
    same devices, extents and saved positions over the same disk. *)
Record reloaded (st r : bio_state) : Prop := {
  rl_dev : toi_devinfo r = toi_devinfo st;
  rl_saves : toi_writer_posn_save r = toi_writer_posn_save st;
  rl_chains : map chain_exts (it_chains (toi_writer_posn r)) =
              map chain_exts (it_chains (toi_writer_posn st));
  rl_disk : the_disk r = the_disk st;
  rl_idle : idle r
}.

Lemma restore_chains p sv q : toi_extent_state_restore p sv = Some q -> it_chains q = it_chains p.
Proof.
  unfold toi_extent_state_restore. intros H. repeat case_match; by simplify_eq.
Qed.

(** The stream [s] of [st], open for writing since its saved start [p0], has
    taken the bytes [acc]. *)
Record opened (s : Z) (st : bio_state) (p0 : toi_extent_iterate_state) (st1 : bio_state) (acc : list Z) : Prop := {
  op_written : written (the_disk st) (start_of p0) st1 acc;
  op_stream : current_stream st1 = s;
  op_dev : toi_devinfo st1 = toi_devinfo st;
  op_saves : toi_writer_posn_save st1 = toi_writer_posn_save st;
  op_chains : it_chains (toi_writer_posn st1) = it_chains (toi_writer_posn st);
  op_result : toi_result st1 = toi_result st;
  op_memory : memory st1 = []
}.

Lemma opened_kept s st p0 st1 acc st2 acc' :
  opened s st p0 st1 acc -> written (the_disk st) (start_of p0) st2 acc' -> kept st1 st2 -> opened s st p0 st2 acc'.
Proof. intros [_ ? ? ? ? ? Hm] Hw []. split; auto; congruence. Qed.

Lemma rw_init_write s st p0 :
  stream_ready s st p0 -> exists st1, toi_rw_init WRITE s st = Some (st1, 0) /\ opened s st p0 st1 [].
Proof.
  intros [Hs Hwf [Hx Hfs Hq Hm Hra] (sv & Hsv & Hr) (Hwi & He & Hsh & Ho) Hb Hap].
  pose proof (restore_chains _ _ _ Hr) as Hch.
  unfold toi_rw_init. rewrite (proj2 (Z.eqb_neq s 0)) by lia. simpl. rewrite Hsv, Hr.
  unfold toi_get_zeroed_page. simpl. rewrite Hm. eexists. split; [done|].
  split; simpl; auto. exists [], [], zero_page.
  split_and!; simpl; auto using zero_page_full; rewrite ?Hq; try (unfold PAGE_SIZE; lia); auto.
  split; simpl; auto; [|constructor].
  destruct Hwf. split; simpl; auto; by rewrite Hch.
Qed.

Lemma pages_sublist devs v cs v' : pages devs v cs v' -> cs `sublist_of` snd v.
Proof.
  induction 1 as [v|v x rest cs v' Hn _ IH]; [apply sublist_nil_l|].
  unfold next_page in Hn. destruct (page_cells _ _) as [[|k]|]; try done.
  destruct (drop k (snd v)) as [|y m] eqn:Hd; simplify_eq.
  transitivity (drop k (snd v)); [|apply sublist_drop]. rewrite Hd. by apply sublist_skip.
Qed.

Lemma pages_incl devs v cs v' c : pages devs v cs v' -> c ∈ cs -> c ∈ snd v.
Proof. intros Hp Hc. eapply elem_of_sublist; [done|]. by eapply pages_sublist. Qed.

Lemma savable_good p :
  savable p -> good_cell (num_chains p) (current_chain p, current_offset p).
Proof.
  intros ([_ Hr _] & He & _ & Ho). unfold toi_extent_state_eof in He. apply Z.eqb_neq in He.
  unfold good_cell. simpl. destruct (Z.eq_dec (current_chain p) (-1)) as [E|E].
  - left. by rewrite E, Ho.
  - right. lia.
Qed.

(** ** A closed stream *)

(** The stream [s] of [st] holds the bytes [acc], in the pages at [cells]
    between its saved start and its saved end. *)
Record closed (s : Z) (cells : list cell) (st : bio_state) (acc : list Z) : Prop := {
  cl_stream : s = 1 \/ s = 2;
  cl_devs : length (toi_devinfo st) = length (it_chains (toi_writer_posn st));
  cl_bpp : Forall2 (fun d l => l <> [] -> 0 < blocks_per_page d) (toi_devinfo st)
             (map chain_exts (it_chains (toi_writer_posn st)));
  cl_saves : length (toi_writer_posn_save st) = 4%nat;
  cl_data : exists sv p0 v' pgs pad sve,
    toi_writer_posn_save st !! Z.to_nat s = Some sv /\ toi_extent_state_restore (toi_writer_posn st) sv = Some p0 /\
    savable p0 /\ Forall (fun c => 0 <= snd c < 2 ^ 31) ((current_chain p0, current_offset p0) :: rest_of p0) /\
    pages (toi_devinfo st) (start_of p0) cells v' /\
    Forall2 (fun c p =>
      disk_read (the_disk st) (fst (place (toi_devinfo st) c)) (snd (place (toi_devinfo st) c)) = p) cells pgs /\
    Forall full_page pgs /\ concat pgs = acc ++ pad /\
    toi_writer_posn_save st !! end_slot s = Some sve /\
    list.last ((current_chain p0, current_offset p0) :: cells) = Some (chain_num sve, saved_offset sve)
}.

(** It does not depend on where the chains are in memory, nor on the disk
    outside its pages. *)
Lemma closed_relocated s cells st r acc :
  closed s cells st acc -> toi_devinfo r = toi_devinfo st ->
  map chain_exts (it_chains (toi_writer_posn r)) = map chain_exts (it_chains (toi_writer_posn st)) ->
  length (toi_writer_posn_save r) = 4%nat ->
  toi_writer_posn_save r !! Z.to_nat s = toi_writer_posn_save st !! Z.to_nat s ->
  toi_writer_posn_save r !! end_slot s = toi_writer_posn_save st !! end_slot s ->
  Forall (fun c => let a := place (toi_devinfo st) c in
    disk_read (the_disk r) (fst a) (snd a) = disk_read (the_disk st) (fst a) (snd a)) cells ->
  closed s cells r acc.
Proof.
  intros [Hs Hdv Hbp _ (sv & p0 & v' & pgs & pad & sve & Hsv & Hr & Hsav & Hb & Hpg & Hdk & Hfull & Hacc & Hsve & Hlast)]
    Hd Hc Hl Hs1 Hs2 Hdisk.
  assert (length (it_chains (toi_writer_posn r)) = length (it_chains (toi_writer_posn st))) as Hlen
    by (by rewrite <- (length_map chain_exts), Hc, length_map).
  split; rewrite ?Hd, ?Hc, ?Hlen, ?Hs1, ?Hs2; auto.
  pose proof (restore_relocated _ _ _ _ Hc Hr) as Hr2. pose proof (restore_chains _ _ _ Hr) as Hch.
  set (p1 := IterState (it_chains (toi_writer_posn r)) (current_chain p0) (current_extent p0) (current_offset p0)) in *.
  assert (rest_of p1 = rest_of p0) as Hrest by (apply rest_of_relocated; simpl; auto; by rewrite Hch).
  assert (savable p1) as Hsav1.
  { destruct Hsav as (Hwi & He & Hsh & Ho). split_and!; auto.
    - apply (wf_iter_relocated p0); [done|by rewrite Hch].
    - unfold toi_extent_state_eof, num_chains in *. simpl. by rewrite Hlen, <- Hch.
    - unfold short_chains in *. rewrite Hch in Hsh. simpl.
      apply (List.Forall_map chain_exts (fun l => Z.of_nat (length l) < 2 ^ 31)). rewrite Hc. by apply Forall_map. }
  exists sv, p1, v', pgs, pad, sve. unfold start_of. rewrite Hrest. split_and!; auto.
  clear -Hdk Hdisk. induction Hdk; [done|]. apply Forall_cons_1 in Hdisk as [? ?]. constructor; [congruence|auto].
Qed.

(** Opening a closed stream for reading. *)
Lemma closed_open s cells r acc :
  closed s cells r acc -> idle r ->
  exists r1, toi_rw_init READ s r = Some (r1, 0) /\ pending false r1 acc /\ toi_devinfo r1 = toi_devinfo r /\
    toi_writer_posn_save r1 = toi_writer_posn_save r /\ the_disk r1 = the_disk r /\ toi_result r1 = toi_result r /\
    it_chains (toi_writer_posn r1) = it_chains (toi_writer_posn r).
Proof.
  intros [Hs Hdv Hbp Hl4 (sv & p0 & v' & pgs & pad & sve & Hsv & Hr & Hsav & Hb & Hpg & Hdk & Hfull & Hacc & Hsve & Hlast)]
    [Hx Hfs Hq Hm Hra].
  pose proof (restore_chains _ _ _ Hr) as Hch. pose proof (savable_good _ Hsav) as Hgood.
  assert (sorted_cells (current_chain p0, current_offset p0) cells) as Hsort.
  { eapply pages_sorted; [exact Hpg|]. simpl. by apply rest_of_sorted, Hsav. }
  assert (0 <= saved_offset sve < 2 ^ 31) as Hsmall.
  { rewrite Forall_forall in Hb. apply (Hb (chain_num sve, saved_offset sve)).
    apply last_Some_elem_of in Hlast. apply elem_of_cons in Hlast as [?|Hin]; apply elem_of_cons; [by left|right].
    eapply pages_incl in Hin; [|exact Hpg]. done. }
  unfold toi_rw_init. rewrite (proj2 (Z.eqb_neq s 0)) by lia. simpl.
  rewrite Hsv, Hr. unfold toi_get_zeroed_page. simpl. rewrite Hm. eexists. split; [done|]. split; [|simpl; by rewrite Hch].
  exists cells, pgs, zero_page, pad.
  split_and!; simpl; auto using zero_page_full; rewrite ?Hra; try (unfold PAGE_SIZE; lia); auto.
  split; simpl; auto.
  - split; simpl; rewrite ?Hch; auto. apply Hsav.
  - exists v'. exact Hpg.
  - exists sve. split_and!; auto; try lia.
    replace (compare_to s) with (end_slot s) by (by destruct Hs as [->| ->]). done.
  - by apply sorted_cells_NoDup.
Qed.

(** What closing a written stream leaves: the bytes are in its pages, nothing
    else on disk changed, and the tape stands on the last page. *)
Record finished (s : Z) (st : bio_state) (p0 : toi_extent_iterate_state) (all : list cell) (acc : list Z)
    (st3 : bio_state) (cells : list cell) : Prop := {
  fi_closed : closed s cells st3 acc;
  fi_prefix : cells `prefix_of` all;
  fi_length : (Z.to_nat PAGE_SIZE * length cells < length acc + Z.to_nat PAGE_SIZE)%nat;
  fi_frame a : Forall (fun c => apart (place (toi_devinfo st) c) a) cells ->
    disk_read (the_disk st3) (fst a) (snd a) = disk_read (the_disk st) (fst a) (snd a);
  fi_idle : idle st3;
  fi_tape : wf_tape st3;
  fi_savable : savable (toi_writer_posn st3);
  fi_dev : toi_devinfo st3 = toi_devinfo st;
  fi_chains : it_chains (toi_writer_posn st3) = it_chains (toi_writer_posn st);
  fi_result : toi_result st3 = toi_result st;
  fi_saves : exists sv, toi_extent_state_save (toi_writer_posn st3) = Some sv /\
    toi_writer_posn_save st3 = <[end_slot s := sv]> (toi_writer_posn_save st);
  fi_pages : pages (toi_devinfo st) (start_of p0) cells (view st3);
  fi_last : list.last ((current_chain p0, current_offset p0) :: cells) = Some (here st3)
}.

(** Closing a stream that was written. *)
Lemma rw_cleanup_closed s st p0 st2 acc all vend :
  stream_ready s st p0 -> opened s st p0 st2 acc -> test_result_state TOI_ABORTED (toi_result st) = false ->
  pages (toi_devinfo st) (start_of p0) all vend -> (length acc <= Z.to_nat PAGE_SIZE * length all)%nat ->
  exists st3 cells, toi_rw_cleanup WRITE st2 = Some (st3, 0) /\ finished s st p0 all acc st3 cells.
Proof.
  intros Hsr [Hw Hst Hd Hv Hc Hres Hm] Hab Hall Hlen.
  destruct (sr_start _ _ _ Hsr) as (sv0 & Hsv0 & Hr). pose proof (restore_chains _ _ _ Hr) as Hch.
  destruct (rw_cleanup_write_spec _ _ st2 _ all vend Hw)
    as (st3 & cells & pgs & sv & H3 & [Hinv (pad & Hpad & Hshort)] & Hsv3 & Hsave & Hh3 & Hd3 & Hc3 & Hsav3 & Hq3 & Hra3 & Hr3 & Hm3);
    rewrite ?Hd, ?Hst, ?Hres; auto; [apply Hsr|apply Hsr| | |].
  { unfold short_chains. rewrite Hc, <- Hch. apply Hsr. }
  { unfold num_chains. rewrite Hc, <- Hch. by apply (savable_good p0), Hsr. }
  rewrite Hst in Hsv3. rewrite Hv in Hsv3.
  assert (toi_devinfo st3 = toi_devinfo st) as Hd' by congruence.
  assert (it_chains (toi_writer_posn st3) = it_chains (toi_writer_posn st)) as Hc' by congruence.
  pose proof (wi_pages _ _ _ _ _ Hinv) as Hpg. rewrite Hd' in Hpg.
  pose proof (wi_tape _ _ _ _ _ Hinv) as Hwt3.
  exists st3, cells. split; [done|].
  assert (closed s cells st3 acc) as Hclosed.
  { split; try apply Hsr; try apply Hwt3.
    exists sv0, p0, (view st3), pgs, pad, sv. rewrite Hsv3, Hd'. split_and!; try apply Hsr; try apply Hinv; auto.
    - rewrite list_lookup_insert_ne; [done|]. by destruct (sr_stream _ _ _ Hsr) as [->| ->].
    - rewrite (restore_relocated _ (toi_writer_posn st3) _ _ (f_equal (map chain_exts) Hc') Hr).
      rewrite Hc', <- Hch. by destruct p0.
    - rewrite <- Hd'. apply Hinv.
    - apply list_lookup_insert_eq. rewrite (wt_saves _ (sr_tape _ _ _ Hsr)).
      destruct (sr_stream _ _ _ Hsr) as [->| ->]; unfold end_slot; simpl; lia.
    - rewrite <- Hh3. apply Hinv. }
  pose proof (concat_full_length _ (wi_full _ _ _ _ _ Hinv)) as Hcl.
  rewrite Hpad, length_app, <- (Forall2_length _ _ _ (wi_disk _ _ _ _ _ Hinv)) in Hcl.
  split; auto; try apply Hinv; try congruence.
  - destruct (pages_split (toi_devinfo st) (start_of p0) all vend cells (view st3)) as (rest & -> & _);
      [done|done| |by eexists]. pose proof page_positive.
    pose proof (padded_room _ _ _ _ page_positive Hcl Hshort _ Hlen). nia.
  - lia.
  - rewrite <- Hd'. apply Hinv.
  - split; auto; apply Hinv.
  - eauto.
Qed.

(** ** The stream after

    The end of the stream of pageset 2 is saved as the start of that of
    pageset 1. *)

Lemma pages_rest devs v cs v' : pages devs v cs v' -> snd v' `sublist_of` snd v.
Proof.
  induction 1 as [v|v x rest cs v' Hn _ IH]; [done|].
  unfold next_page in Hn. destruct (page_cells _ _) as [[|k]|]; try done.
  destruct (drop k (snd v)) as [|y m] eqn:Hd; simplify_eq. simpl in IH.
  transitivity (drop k (snd v)); [|apply sublist_drop]. rewrite Hd. by apply sublist_cons.
Qed.

Lemma layout_apart_rest devs v cs v' : layout_apart devs v -> pages devs v cs v' -> layout_apart devs v'.
Proof.
  intros Hl Hp cs' v'' Hp' i j a b Hij Hi Hj.
  apply (Hl (cs ++ cs') v'' (pages_app _ _ _ _ _ _ Hp Hp') (length cs + i)%nat (length cs + j)%nat a b); [lia|..];
    rewrite lookup_app_r, Nat.add_comm, Nat.add_sub by lia; done.
Qed.

Lemma layout_apart_cross devs v cs v1 cs' v2 :
  layout_apart devs v -> pages devs v cs v1 -> pages devs v1 cs' v2 ->
  Forall (fun a => Forall (fun c => apart (place devs c) (place devs a)) cs') cs.
Proof.
  intros Hl Hp Hp'. apply Forall_forall. intros a [i Hi]%list_elem_of_lookup.
  apply Forall_forall. intros c [j Hj]%list_elem_of_lookup.
  pose proof (lookup_lt_Some _ _ _ Hi).
  apply (Hl (cs ++ cs') v2 (pages_app _ _ _ _ _ _ Hp Hp') (length cs + j)%nat i); [lia|..].
  - rewrite lookup_app_r by lia. by replace (length cs + j - length cs)%nat with j by lia.
  - by rewrite lookup_app_l.
Qed.

Lemma stream_follows st p0 all acc st3 cells :
  stream_ready 2 st p0 -> finished 2 st p0 all acc st3 cells -> stream_ready 1 st3 (toi_writer_posn st3).
Proof.
  intros Hsr [Hcl _ _ _ Hid Hwt Hsav Hd Hc Hr (sv & Hsv & Hs) Hpg Hlast].
  destruct (save_restore_spec (toi_writer_posn st3)) as (sv' & Hsv' & Hres); [apply Hsav..|].
  rewrite Hsv in Hsv'. injection Hsv' as <-. split; auto.
  - exists sv. split.
    + rewrite Hs. apply list_lookup_insert_eq. rewrite (wt_saves _ (sr_tape _ _ _ Hsr)). unfold end_slot. simpl. lia.
    + rewrite Hres by done. by destruct (toi_writer_posn st3).
  - pose proof (sr_blocks _ _ _ Hsr) as Hb. rewrite Forall_forall in Hb. apply Forall_forall. intros c [->|Hin]%elem_of_cons; apply Hb.
    + change (here st3 ∈ (current_chain p0, current_offset p0) :: rest_of p0).
      apply last_Some_elem_of in Hlast. apply elem_of_cons in Hlast as [->|Hin]; [by left|right].
      exact (pages_incl _ _ _ _ _ Hpg Hin).
    + right. apply pages_rest in Hpg. eapply elem_of_sublist; [exact Hin|exact Hpg].
  - rewrite Hd. eapply layout_apart_rest; [apply Hsr|exact Hpg].
Qed.

(** Writing, closing, and reading back after a reload. *)
Lemma stream_written_read s st p0 l all vend :
  stream_ready s st p0 -> Forall wf_entry l ->
  test_result_state TOI_ABORTED (toi_result st) = false ->
  pages (toi_devinfo st) (start_of p0) all vend ->
  (length (image_bytes l) <= Z.to_nat PAGE_SIZE * length all)%nat ->
  exists st1 st2 st3,
    toi_rw_init WRITE s st = Some (st1, 0) /\ write_image l st1 = Some (st2, 0) /\
    toi_rw_cleanup WRITE st2 = Some (st3, 0) /\
    (forall a, Forall (fun c => apart (place (toi_devinfo st) c) a) all ->
       disk_read (the_disk st3) (fst a) (snd a) = disk_read (the_disk st) (fst a) (snd a)) /\
    forall r, reloaded st3 r ->
      exists r1 r2, toi_rw_init READ s r = Some (r1, 0) /\
        read_image (length l) r1 = Some (r2, (map entry_read l, 0)).
Proof.
  intros Hsr Hl Hab Hall Hlen.
  destruct (rw_init_write s st p0 Hsr) as (st1 & H1 & Hop).
  assert (s <> 0) as Hs0 by (destruct (sr_stream _ _ _ Hsr); lia).
  destruct (write_image_spec _ _ l st1 [] all vend (op_written _ _ _ _ _ Hop)) as (st2 & H2 & Hw2 & Hk);
    rewrite ?(op_dev _ _ _ _ _ Hop), ?(op_stream _ _ _ _ _ Hop), ?(op_result _ _ _ _ _ Hop); auto; [apply Hsr|].
  destruct (rw_cleanup_closed s st p0 st2 (image_bytes l) all vend) as (st3 & cells & H3 & Hfin);
    auto; [by eapply opened_kept|]. destruct (fi_prefix _ _ _ _ _ _ _ Hfin) as [rest ->].
  exists st1, st2, st3. split_and!; auto.
  - intros a Ha. apply (fi_frame _ _ _ _ _ _ _ Hfin). by apply Forall_app in Ha as [? _].
  - intros r [Hrd Hrs Hrc Hrk Hid].
    assert (closed s cells r (image_bytes l)) as Hcr.
    { apply (closed_relocated s cells st3); auto; rewrite ?Hrs, ?Hrk; auto; [apply Hfin|apply (fi_tape _ _ _ _ _ _ _ Hfin)|]. by apply Forall_true. }
    destruct (closed_open s cells r _ Hcr Hid) as (r1 & Hr1 & Hp & _).
    rewrite <- (app_nil_r (image_bytes l)) in Hp.
    destruct (read_image_spec l r1 [] Hl Hp) as (r2 & Hr2 & _). eauto.
Qed.

(** C3: A page stream round trip, from the writer to a rebooted kernel.  From
    a saved start with room for the image, opening the stream for writing,
    writing every (page frame, buffer) record, and closing it all succeed and
    touch no disk page other than the stream's; a kernel that has reloaded the
    chains, the saved positions and the devices then opens the stream and,
    through readahead, reads exactly the records written, in order. *)
Theorem stream_roundtrip s st p0 l all vend :
  stream_ready s st p0 -> Forall wf_entry l ->
  test_result_state TOI_ABORTED (toi_result st) = false ->
  pages (toi_devinfo st) (start_of p0) all vend ->
  (length (image_bytes l) <= Z.to_nat PAGE_SIZE * length all)%nat ->
  exists st1 st2 st3,
    toi_rw_init WRITE s st = Some (st1, 0) /\ write_image l st1 = Some (st2, 0) /\
    toi_rw_cleanup WRITE st2 = Some (st3, 0) /\
    (forall a, Forall (fun c => apart (place (toi_devinfo st) c) a) all ->
       disk_read (the_disk st3) (fst a) (snd a) = disk_read (the_disk st) (fst a) (snd a)) /\
    forall r, reloaded st3 r ->
      exists r1 r2, toi_rw_init READ s r = Some (r1, 0) /\
        read_image (length l) r1 = Some (r2, (map entry_read l, 0)).
Proof. apply stream_written_read. Qed.

(** Page-sized blocks at different places of their devices do not overlap, so
    a layout of distinct swap pages satisfies [layout_apart]. *)
Lemma whole_page_layout devs p :
  Forall (fun c => exists d, devs !! Z.to_nat (fst c) = Some d /\ bmap_shift d = 3) (rest_of p) ->
  NoDup (map (place devs) (rest_of p)) -> layout_apart devs (start_of p).
Proof.
  intros Hd Hnd cs v' Hp i j a b Hij Ha Hb.
  apply pages_sublist in Hp. cbn [start_view start_of snd] in Hp.
  assert (NoDup (map (place devs) cs)) as Hnc.
  { eapply sublist_NoDup; [exact Hnd|]. by apply (fmap_sublist (place devs)). }
  assert (place devs a <> place devs b) as Hne.
  { intros E. apply Hij. apply (NoDup_lookup (map (place devs) cs) i j (place devs a) Hnc);
      rewrite list_lookup_fmap, ?Ha, ?Hb; simpl; congruence. }
  assert (forall k c, cs !! k = Some c -> exists x, snd (place devs c) = x * 8) as Hpl.
  { intros k c Hk. apply list_elem_of_lookup_2 in Hk. rewrite Forall_forall in Hd.
    destruct (Hd c) as (d & Hdd & Hsh); [by eapply elem_of_sublist|].
    exists (snd c). unfold place. rewrite Hdd, Hsh. simpl. by rewrite Z.shiftl_mul_pow2. }
  destruct (Hpl _ _ Ha) as [x Hx], (Hpl _ _ Hb) as [y Hy].
  unfold apart, SECTORS_PER_PAGE. destruct (place devs a) as [da oa], (place devs b) as [db ob].
  simpl in *. destruct (Z.eq_dec da db) as [->|]; [|by left]. right.
  assert (x <> y) by congruence. lia.
Qed.

(** Two swap devices; the stream starts after the block 3 of the first. *)
Definition sample_posn : toi_extent_iterate_state :=
  IterState [Chain 4 1 [Ext 3 6] None; Chain 2 1 [Ext 9 10] None] (-1) None 0.

Definition sample_state : bio_state :=
  BioState sample_posn [SavedState 0 0 3; SavedState 0 0 3; SavedState 0 0 3; SavedState 0 0 3]
    [BdevInfo 1 1 3 1 false; BdevInfo 2 2 3 1 false] None 0 [] [] true false 0 (fun _ _ => []) 0 0 0 0 0 [] []
    false false 0 false [].

Definition sample_image : list (Z * page * Z) := [(17, [1; 2; 3], 3); (18, [4; 5], 1)].

Definition sample_start : toi_extent_iterate_state :=
  IterState (it_chains sample_posn) 0 (Some 0%nat) 3.

Lemma sample_ready : stream_ready 1 sample_state sample_start.
Proof.
  assert (wf_iter sample_posn) as Hwf.
  { split; simpl; [repeat constructor; simpl; lia|unfold num_chains; simpl; lia|auto]. }
  assert (wf_iter sample_start) as Hwf'.
  { split; simpl; [apply Hwf|unfold num_chains; simpl; lia|].
    exists (Ext 3 6). split; [done|simpl; lia]. }
  split; auto.
  - by split; [|repeat constructor..|].
  - by split.
  - exists (SavedState 0 0 3). done.
  - split_and!; [done|done|by repeat constructor|by intros [=]].
  - repeat constructor; simpl; lia.
  - apply whole_page_layout.
    + by repeat (constructor; [eexists; split; reflexivity|]).
    + by apply (bool_decide_unpack _).
Qed.

Lemma stream_roundtrip_witness :
  exists st1 st2 st3,
    toi_rw_init WRITE 1 sample_state = Some (st1, 0) /\ write_image sample_image st1 = Some (st2, 0) /\
    toi_rw_cleanup WRITE st2 = Some (st3, 0) /\
    (forall a, Forall (fun c => apart (place (toi_devinfo sample_state) c) a) [(0, 4); (0, 5)] ->
       disk_read (the_disk st3) (fst a) (snd a) = disk_read (the_disk sample_state) (fst a) (snd a)) /\
    forall r, reloaded st3 r ->
      exists r1 r2, toi_rw_init READ 1 r = Some (r1, 0) /\
        read_image (length sample_image) r1 = Some (r2, (map entry_read sample_image, 0)).
Proof.
  apply (stream_roundtrip 1 sample_state sample_start sample_image [(0, 4); (0, 5)] (0, [(0, 6); (1, 9); (1, 10)])).
  - apply sample_ready.
  - repeat constructor; simpl; lia.
  - done.
  - by repeat (econstructor; [reflexivity|]); constructor.
  - simpl. unfold PAGE_SIZE. lia.
Defined.

(** ** The section barrier's width *)

(** [go_next_page] keeps the saved end offset in an [int], so a stream
    whose last block is numbered 2^31 or more is not recognised as ended:
    standing on its saved end, the reader moves on to the next page of the
    tape, into the following stream, instead of returning -ENODATA. *)
Theorem barrier_truncated st sv c rest :
  wf_tape st -> extra_page_forward st = false ->
  toi_writer_posn_save st !! compare_to (current_stream st) = Some sv ->
  here st = (chain_num sv, saved_offset sv) -> 2 ^ 31 <= saved_offset sv < 2 ^ 63 ->
  next_page (toi_devinfo st) (view st) = Some (c, rest) ->
  exists st', go_next_page READ true st = Some (st', 0) /\ here st' = c /\ view st' = (fst c, rest).
Proof.
  intros Hwf Hx Hsv Hh Ho Hn.
  assert (at_barrier st = Some false) as Hb.
  { unfold at_barrier. rewrite Hsv. f_equal. apply andb_false_intro2, Z.eqb_neq.
    unfold here in Hh. injection Hh as _ ->. pose proof (s32_bounds (saved_offset sv)).
    unfold u64. destruct (Z.lt_ge_cases (s32 (saved_offset sv)) 0); [|rewrite Z.mod_small; lia].
    rewrite <- (Z.mod_add _ 1), Z.mod_small; lia. }
  destruct (advance_ok READ true st c rest Hwf Hn) as (q & Ha & (_ & _ & Hc & Hof & Hr));
    [by right; left|].
  exists (st {{ toi_writer_posn := q }}). split_and!.
  - unfold go_next_page, bind, get, or_return. rewrite Ha. cbn [Z.eqb]. simpl. by rewrite Hx.
  - unfold here. simpl. rewrite Hc, Hof. by destruct c.
  - unfold view. simpl. by rewrite Hc, Hr.
Qed.

Definition high_blocks : bio_state :=
  sample_state {{ toi_writer_posn := IterState [Chain 9 1 [Ext (2 ^ 31) (2 ^ 31 + 8)] None;
                                                Chain 1 1 [Ext 3 3] None] 0 (Some 0%nat) (2 ^ 31 + 4);
                  toi_writer_posn_save := [SavedState 0 0 0; SavedState 0 0 (2 ^ 31);
                    SavedState 0 0 (2 ^ 31); SavedState 0 0 (2 ^ 31 + 4)];
                  current_stream := 1 }}.

Lemma barrier_truncated_witness :
  exists st', go_next_page READ true high_blocks = Some (st', 0) /\ here st' = (0, 2 ^ 31 + 5) /\
    view st' = (0, [(0, 2 ^ 31 + 6); (0, 2 ^ 31 + 7); (0, 2 ^ 31 + 8); (1, 3)]).
Proof.
  apply (barrier_truncated high_blocks (SavedState 0 0 (2 ^ 31 + 4))); try done.
  split; try done; [|by repeat constructor].
  split; simpl; [repeat constructor; simpl; lia|unfold num_chains; simpl; lia|].
  exists (Ext (2 ^ 31) (2 ^ 31 + 8)). split; [done|simpl; lia].
Defined.

(** ** The block layer as header writer and reader

    [None] is a crashed kernel: nothing is written or delivered any more. *)

Section HeaderInstances.
Context (d0 : disk) (v0 : start).

Lemma written_accounting st st' bs :
  written d0 v0 st bs ->
  toi_writer_posn st' = toi_writer_posn st -> toi_devinfo st' = toi_devinfo st ->
  toi_writer_posn_save st' = toi_writer_posn_save st -> the_disk st' = the_disk st ->
  extra_page_forward st' = extra_page_forward st ->
  filter_speed_test st' = filter_speed_test st ->
  toi_writer_buffer st' = toi_writer_buffer st -> bio_queue st' = bio_queue st ->
  toi_writer_buffer_posn st' = toi_writer_buffer_posn st -> written d0 v0 st' bs.
Proof.
  intros (cells & pgs & buf & Hi & Hb & Hf & Hp & Hq & ->) ? ? ? ? ? ? E1 E2 E3.
  exists cells, pgs, buf. rewrite E1, E2, E3. split_and!; auto; try lia. by eapply writer_inv_same.
Qed.

(** Charging the owner of a chunk moves nothing. *)
Lemma charge_owner_written o n st st' b bs :
  charge_owner o n st = (st', b) -> written d0 v0 st bs ->
  written d0 v0 st' bs /\ toi_devinfo st' = toi_devinfo st.
Proof.
  unfold charge_owner. intros H Hw.
  repeat case_match; simplify_eq; split; auto; by eapply written_accounting.
Qed.

Lemma header_chunk_write_ok o bs st st' acc :
  written d0 v0 st acc -> layout_apart (toi_devinfo st) v0 ->
  _toi_rw_header_chunk_write o bs st = Some (st', 0) ->
  written d0 v0 st' (acc ++ bs) /\ toi_devinfo st' = toi_devinfo st.
Proof.
  intros Hw Hl. unfold _toi_rw_header_chunk_write.
  destruct (charge_owner o _ st) as [st1 ok] eqn:Hch.
  destruct (charge_owner_written _ _ _ _ _ _ Hch Hw) as [Hw1 Hd1].
  destruct ok; cycle 1.
  { intros [= <- Hz]. destruct bs; [|done]. by rewrite app_nil_r. }
  unfold bind, toi_rw_buffer_write. destruct (write_buffer _ bs st1) as [[st2 r]|] eqn:Hb; [|done].
  simpl. intros [= <- ->].
  destruct (write_buffer_ok _ _ _ _ _ _ _ Hw1 ltac:(by rewrite Hd1) Hb) as [Hw2 Hk].
  split; [by eapply written_accounting|]. simpl. by rewrite (k_dev _ _ Hk).
Qed.

Definition bio_hw_chunk (o : owner) (bs : list Z) (w : option bio_state) : option bio_state * Z :=
  match w with
  | None => (None, -1)
  | Some st =>
      match _toi_rw_header_chunk_write o bs st with
      | None => (None, -1)
      | Some (st', r) => (Some st', r)
      end
  end.

Definition bio_hw_content (w : option bio_state) (bs : list Z) : Prop :=
  match w with
  | None => False
  | Some st => written d0 v0 st bs /\ layout_apart (toi_devinfo st) v0
  end.

Lemma bio_hw_chunk_ok o bs w w' acc :
  bio_hw_content w acc -> bio_hw_chunk o bs w = (w', 0) -> bio_hw_content w' (acc ++ bs).
Proof.
  destruct w as [st|]; [|done]. intros [Hw Hl]. unfold bio_hw_chunk.
  destruct (_toi_rw_header_chunk_write o bs st) as [[st' r]|] eqn:Hc; intros [=]. subst.
  destruct (header_chunk_write_ok _ _ _ _ _ Hw Hl Hc) as [? Hd]. split; [done|by rewrite Hd].
Qed.

Definition bio_header_writer : HeaderWriter (option bio_state) :=
  {| hw_chunk := bio_hw_chunk; hw_content := bio_hw_content; hw_chunk_ok := bio_hw_chunk_ok |}.
End HeaderInstances.

Lemma pending_accounting nora st st' bs :
  pending nora st bs ->
  st' = st {{ unowned := unowned st'; total_header_bytes := total_header_bytes st' }} ->
  pending nora st' bs.
Proof.
  intros (cells & pgs & buf & tail & [Hwf ? ? ? ? ? ? ? ? ? ? ?] & ? & ? & ? & ? & ? & ?) ->.
  exists cells, pgs, buf, tail. split_and!; simpl; auto; try lia.
  split; simpl; auto. by apply (wf_tape_same st).
Qed.

Lemma header_chunk_read_ok nora bs rest st :
  pending nora st (bs ++ rest) ->
  exists st', _toi_rw_header_chunk_read None (length bs) nora st = Some (st', (bs, 0)) /\
    pending nora st' rest.
Proof.
  intros Hp. unfold _toi_rw_header_chunk_read, charge_owner.
  set (st1 := st {{ unowned := _ }}).
  assert (pending nora st1 (bs ++ rest)) as Hp1 by (by apply (pending_accounting nora st)).
  assert (exists st2, (if nora then ret 0 else toi_start_new_readahead false) st1 = Some (st2, 0) /\
            pending nora st2 (bs ++ rest)) as (st2 & Hs & Hp2).
  { destruct nora; [by exists st1|].
    destruct (start_new_pending false st1 _ Hp1) as (st2 & ? & ? & _). eauto. }
  destruct (rw_buffer_read_spec nora bs rest st2 Hp2) as (st3 & Hr & Hp3 & _).
  eexists. unfold bind. rewrite Hs. cbn [Z.eqb]. rewrite Hr. split; [done|].
  by apply (pending_accounting nora st3).
Qed.

(** [rw_header_chunk_noreadahead] when [nora], [rw_header_chunk] otherwise. *)
Definition bio_hr_chunk (nora : bool) (n : nat) (r : option bio_state)
    : option bio_state * (list Z * Z) :=
  match r with
  | None => (None, ([], -1))
  | Some st =>
      match _toi_rw_header_chunk_read None n nora st with
      | None => (None, ([], -1))
      | Some (st', out) => (Some st', out)
      end
  end.

Definition bio_hr_pending (nora : bool) (r : option bio_state) (bs : list Z) : Prop :=
  match r with None => False | Some st => pending nora st bs end.

Lemma bio_hr_chunk_ok nora bs rest r :
  bio_hr_pending nora r (bs ++ rest) ->
  exists r', bio_hr_chunk nora (length bs) r = (r', (bs, 0)) /\ bio_hr_pending nora r' rest.
Proof.
  destruct r as [st|]; [|done]. intros Hp.
  destruct (header_chunk_read_ok _ _ _ _ Hp) as (st' & Hr & ?). exists (Some st').
  unfold bio_hr_chunk. by rewrite Hr.
Qed.

Definition bio_header_reader (nora : bool) : HeaderReader (option bio_state) :=
  {| hr_chunk := bio_hr_chunk nora; hr_pending := bio_hr_pending nora;
     hr_chunk_ok := bio_hr_chunk_ok nora |}.
