(* ===== verification/Vsprintf.v ===== *)
(** * Numbers as text: lib/vsprintf.c, lib/ctype.c

    What the parameters and the sysfs files of TuxOnIce are read and written
    with: [strict_strtoul] and its relatives, and [number], which prints the
    integers of printk and sprintf, with the division-free decimal conversion
    it uses.

    A string is the list of its characters, unsigned, without the NUL; where
    the code looks beyond the last character it finds 0. *)

From S2P Require Import Prelude.
From stdpp Require Import numbers base list sets.
#[local] Open Scope Z_scope.

(** ** Classes of characters *)

Definition _U : Z := 0x01.
Definition _L : Z := 0x02.
Definition _D : Z := 0x04.
Definition _C : Z := 0x08.
Definition _P : Z := 0x10.
Definition _S : Z := 0x20.
Definition _X : Z := 0x40.
Definition _SP : Z := 0x80.

Definition _ctype : list Z :=
  replicate 9 _C ++ replicate 5 (Z.lor _C _S) ++ replicate 18 _C ++
  [Z.lor _S _SP] ++ replicate 15 _P ++ replicate 10 _D ++ replicate 7 _P ++
  replicate 6 (Z.lor _U _X) ++ replicate 20 _U ++ replicate 6 _P ++
  replicate 6 (Z.lor _L _X) ++ replicate 20 _L ++ replicate 4 _P ++ [_C] ++
  replicate 32 0 ++ [Z.lor _S _SP] ++ replicate 31 _P ++
  replicate 23 _U ++ [_P] ++ replicate 7 _U ++ [_L] ++ replicate 23 _L ++ [_P] ++ replicate 8 _L.

Definition ismask (c : Z) : Z := nth (Z.to_nat c) _ctype 0.
Definition isdigit (c : Z) : bool := negb (Z.land (ismask c) _D =? 0).
Definition isxdigit (c : Z) : bool := negb (Z.land (ismask c) (Z.lor _D _X) =? 0).
Definition isupper (c : Z) : bool := negb (Z.land (ismask c) _U =? 0).
Definition isspace (c : Z) : bool := negb (Z.land (ismask c) _S =? 0).

Definition tolower (c : Z) : Z := if isupper c then c + 32 else c.

(** ** Reading *)

(** Works only for digits and letters. *)
Definition TOLOWER (c : Z) : Z := Z.lor c 0x20.

Definition at_ (s : list Z) (i : nat) : Z := nth i s 0.

Definition simple_guess_base (cp : list Z) : Z :=
  if at_ cp 0 =? 48 then if (TOLOWER (at_ cp 1) =? 120) && isxdigit (at_ cp 2) then 16 else 8
  else 10.

Definition digit_value (c : Z) : Z := if isdigit c then c - 48 else TOLOWER c - 97 + 10.

(** The loop: the value so far, and the characters left. *)
Fixpoint digits_loop (base : Z) (cp : list Z) (result : Z) : Z * list Z :=
  match cp with
  | [] => (result, [])
  | c :: cp' =>
      if negb (isxdigit c) then (result, cp)
      else if base <=? digit_value c then (result, cp)
      else digits_loop base cp' (u64 (result * base + digit_value c))
  end.

Definition simple_strtoul (cp : list Z) (base : Z) : Z * list Z :=
  let base := if base =? 0 then simple_guess_base cp else base in
  let cp := if (base =? 16) && (at_ cp 0 =? 48) && (TOLOWER (at_ cp 1) =? 120) then drop 2 cp else cp in
  digits_loop base cp 0.

(** -EINVAL is [None]. *)
Definition strict_strtoul (cp : list Z) (base : Z) : option Z :=
  if bool_decide (cp = []) then None
  else
    let '(val, tail) := simple_strtoul cp base in
    if (length tail =? length cp)%nat then None
    else if bool_decide (tail = []) || bool_decide (tail = [10]) then Some val
    else None.

Definition simple_strtol (cp : list Z) (base : Z) : Z * list Z :=
  if at_ cp 0 =? 45 then let '(v, tail) := simple_strtoul (drop 1 cp) base in (s64 (- v), tail)
  else let '(v, tail) := simple_strtoul cp base in (s64 v, tail).

Definition strict_strtol (cp : list Z) (base : Z) : option Z :=
  if at_ cp 0 =? 45 then (fun v => s64 (- s64 v)) <$> strict_strtoul (drop 1 cp) base
  else s64 <$> strict_strtoul cp base.

(** ** Writing in decimal *)

(** The characters as they are put down, the least significant first. *)
Definition put_dec_trunc (q : Z) : list Z :=
  let d1 := Z.land (Z.shiftr q 4) 0xf in
  let d2 := Z.land (Z.shiftr q 8) 0xf in
  let d3 := Z.shiftr q 12 in
  let d0 := 6 * (d3 + d2 + d1) + Z.land q 0xf in
  let q := Z.shiftr (d0 * 0xcd) 11 in
  let d0 := d0 - 10 * q in
  let d1 := q + 9 * d3 + 5 * d2 + d1 in
  d0 + 48 ::
  (if d1 =? 0 then []
   else
     let q := Z.shiftr (d1 * 0xcd) 11 in
     let d1 := d1 - 10 * q in
     let d2 := q + 2 * d2 in
     d1 + 48 ::
     (if (d2 =? 0) && (d3 =? 0) then []
      else
        let q := Z.shiftr (d2 * 0xd) 7 in
        let d2 := d2 - 10 * q in
        let d3 := q + 4 * d3 in
        d2 + 48 ::
        (if d3 =? 0 then []
         else
           let q := Z.shiftr (d3 * 0xcd) 11 in
           let d3 := d3 - 10 * q in
           d3 + 48 :: (if q =? 0 then [] else [q + 48])))).

Definition put_dec_full (q : Z) : list Z :=
  let d1 := Z.land (Z.shiftr q 4) 0xf in
  let d2 := Z.land (Z.shiftr q 8) 0xf in
  let d3 := Z.shiftr q 12 in
  let d0 := 6 * (d3 + d2 + d1) + Z.land q 0xf in
  let q := Z.shiftr (d0 * 0xcd) 11 in
  let d0 := d0 - 10 * q in
  let d1 := q + 9 * d3 + 5 * d2 + d1 in
  let q := Z.shiftr (d1 * 0xcd) 11 in
  let d1 := d1 - 10 * q in
  let d2 := q + 2 * d2 in
  let q := Z.shiftr (d2 * 0xd) 7 in
  let d2 := d2 - 10 * q in
  let d3 := q + 4 * d3 in
  let q := Z.shiftr (d3 * 0xcd) 11 in
  let d3 := d3 - 10 * q in
  [d0 + 48; d1 + 48; d2 + 48; d3 + 48; q + 48].

(** Every round takes five digits; a 64-bit number has at most twenty. *)
Fixpoint put_dec_loop (fuel : nat) (num : Z) : list Z :=
  match fuel with
  | O => []
  | S fuel' =>
      if num <? 100000 then put_dec_trunc num
      else put_dec_full (num mod 100000) ++ put_dec_loop fuel' (num / 100000)
  end.

Definition put_dec (num : Z) : list Z := put_dec_loop 4 num.

(** ** Writing *)

Definition ZEROPAD : Z := 1.
Definition SIGN : Z := 2.
Definition PLUS : Z := 4.
Definition SPACE : Z := 8.
Definition LEFT : Z := 16.
Definition SMALL : Z := 32.
Definition SPECIAL : Z := 64.

Record printf_spec := PrintfSpec { flags : Z; field_width : Z; base : Z; precision : Z }.

Definition has (f flag : Z) : bool := negb (Z.land f flag =? 0).

(** The table [digits], upper case. *)
Definition digit_char (v : Z) : Z := if v <? 10 then v + 48 else v + 55.

Fixpoint power_loop (fuel : nat) (shift locase num : Z) : list Z :=
  match fuel with
  | O => []
  | S fuel' =>
      let c := Z.lor (digit_char (Z.land num (Z.ones shift))) locase in
      let num := Z.shiftr num shift in
      c :: (if num =? 0 then [] else power_loop fuel' shift locase num)
  end.

Definition times (n c : Z) : list Z := repeat c (Z.to_nat n).

(** The whole text; what does not fit the buffer is not written but counted. *)
Definition number (num : Z) (spec : printf_spec) : list Z :=
  let need_pfx := has (flags spec) SPECIAL && negb (base spec =? 10) in
  let locase := Z.land (flags spec) SMALL in
  let f := if has (flags spec) LEFT then Z.ldiff (flags spec) ZEROPAD else flags spec in
  let negative := has f SIGN && (s64 num <? 0) in
  let sign :=
    if negb (has f SIGN) then []
    else if s64 num <? 0 then [45]
    else if has f PLUS then [43]
    else if has f SPACE then [32] else [] in
  let num := if negative then u64 (- s64 num) else num in
  let prefix := if need_pfx then if base spec =? 16 then [48; Z.lor 88 locase] else [48] else [] in
  let width := field_width spec - Z.of_nat (length sign) - Z.of_nat (length prefix) in
  let tmp :=
    if num =? 0 then [48]
    else if negb (base spec =? 10) then power_loop 22 (if base spec =? 16 then 4 else 3) locase num
    else put_dec num in
  let i := Z.of_nat (length tmp) in
  let precision := Z.max i (precision spec) in
  let width := width - precision in
  let lead := negb (has f (ZEROPAD + LEFT)) in
  (if lead then times width 32 else []) ++ sign ++ prefix ++
  (if lead || has f LEFT then [] else times width (if has f ZEROPAD then 48 else 32)) ++
  times (precision - i) 48 ++ rev tmp ++
  (if has f LEFT then times width 32 else []).

(** ** The reference: digits of a number, the least significant first *)

Fixpoint digits_of (fuel : nat) (b n : Z) : list Z :=
  match fuel with
  | O => []
  | S fuel' => if n <? b then [n] else n mod b :: digits_of fuel' b (n / b)
  end.

(** The value of digits, the most significant first. *)
Definition value_of (b : Z) (ds : list Z) (acc : Z) : Z := foldl (fun v d => v * b + d) acc ds.

Definition five_digits (q : Z) : list Z := [q mod 10; q / 10 mod 10; q / 100 mod 10; q / 1000 mod 10; q / 10000 mod 10].

(** The two ways to divide by ten, good for the numbers they are used on. *)
Lemma tenth_cd x : 0 <= x <= 1000 -> Z.shiftr (x * 0xcd) 11 = x / 10.
Proof.
  intros Hx. rewrite Z.shiftr_div_pow2 by lia. change (2 ^ 11) with 2048.
  symmetry. apply (Z.div_unique _ _ _ (x * 0xcd - 2048 * (x / 10))); Z.div_mod_to_equations; lia.
Qed.

Lemma tenth_d x : 0 <= x <= 68 -> Z.shiftr (x * 0xd) 7 = x / 10.
Proof.
  intros Hx. rewrite Z.shiftr_div_pow2 by lia. change (2 ^ 7) with 128.
  pose proof (Z.div_mod x 10 ltac:(lia)). pose proof (Z.mod_pos_bound x 10 ltac:(lia)).
  symmetry. apply (Z.div_unique _ _ _ (x * 0xd - 128 * (x / 10))); [|lia].
  assert (x / 10 <= 5 \/ x mod 10 <= 8) as [?|?] by lia; lia.
Qed.

(** The hexadecimal digits of a number below 100000, and what is carried from
    one decimal digit to the next. *)
Lemma carries q :
  0 <= q < 100000 ->
  let d1 := Z.land (Z.shiftr q 4) 0xf in
  let d2 := Z.land (Z.shiftr q 8) 0xf in
  let d3 := Z.shiftr q 12 in
  let x0 := 6 * (d3 + d2 + d1) + Z.land q 0xf in
  let x1 := x0 / 10 + 9 * d3 + 5 * d2 + d1 in
  let x2 := x1 / 10 + 2 * d2 in
  let x3 := x2 / 10 + 4 * d3 in
  0 <= x0 <= 1000 /\ 0 <= x1 <= 1000 /\ 0 <= x2 <= 68 /\ 0 <= x3 <= 1000 /\ 0 <= d2 /\ 0 <= d3 /\
  q mod 10 = x0 - 10 * (x0 / 10) /\ q / 10 mod 10 = x1 - 10 * (x1 / 10) /\ q / 100 mod 10 = x2 - 10 * (x2 / 10) /\
  q / 1000 mod 10 = x3 - 10 * (x3 / 10) /\ q / 10000 = x3 / 10 /\
  (x1 = 0 <-> q < 10) /\ (x2 = 0 /\ d3 = 0 <-> q < 100) /\ (x3 = 0 <-> q < 1000) /\ (x3 / 10 = 0 <-> q < 10000).
Proof.
  intros Hq d1 d2 d3 x0 x1 x2 x3.
  assert (q = 4096 * d3 + 256 * d2 + 16 * d1 + Z.land q 0xf /\ 0 <= d1 <= 15 /\ 0 <= d2 <= 15 /\ 0 <= d3 <= 24 /\
          0 <= Z.land q 0xf <= 15) as (Eq & H1 & H2 & H3 & H0).
  { unfold d1, d2, d3. assert (forall z, Z.land z 15 = z mod 16) as E by (intros z; apply (Z.land_ones z 4); lia).
    rewrite !E, !Z.shiftr_div_pow2 by lia.
    change (2 ^ 8) with (16 * 16). change (2 ^ 12) with (16 * (16 * 16)). change (2 ^ 4) with 16.
    rewrite <- !Z.div_div by lia. clear x0 x1 x2 x3 d1 d2 d3. Z.div_mod_to_equations. lia. }
  clearbody d1 d2 d3; set (n0 := Z.land q 0xf) in *. clearbody n0. subst q x0 x1 x2 x3.
  set (x0 := 6 * (d3 + d2 + d1) + n0). set (a0 := x0 / 10).
  assert (0 <= x0 - 10 * a0 < 10) as Ha0 by (unfold a0; Z.div_mod_to_equations; lia).
  set (x1 := a0 + 9 * d3 + 5 * d2 + d1). set (a1 := x1 / 10).
  assert (0 <= x1 - 10 * a1 < 10) as Ha1 by (unfold a1; Z.div_mod_to_equations; lia).
  set (x2 := a1 + 2 * d2). set (a2 := x2 / 10).
  assert (0 <= x2 - 10 * a2 < 10) as Ha2 by (unfold a2; Z.div_mod_to_equations; lia).
  set (x3 := a2 + 4 * d3). set (a3 := x3 / 10).
  assert (0 <= x3 - 10 * a3 < 10) as Ha3 by (unfold a3; Z.div_mod_to_equations; lia).
  clearbody a0 a1 a2 a3. unfold x3, x2, x1, x0 in *. clear x0 x1 x2 x3.
  split_and!; Z.div_mod_to_equations; lia.
Qed.

Lemma put_dec_full_ok q : 0 <= q < 100000 -> put_dec_full q = map (Z.add 48) (five_digits q).
Proof.
  intros Hq. destruct (carries q Hq) as (B0 & B1 & B2 & B3 & _ & _ & E0 & E1 & E2 & E3 & E4 & _).
  unfold put_dec_full. cbv zeta. rewrite (tenth_cd (_ + Z.land q 15)) by exact B0.
  rewrite tenth_cd by exact B1. rewrite tenth_d by exact B2. rewrite tenth_cd by exact B3.
  unfold five_digits. cbn [map]. rewrite E0, E1, E2, E3, (Z.mod_small (q / 10000)) by (Z.div_mod_to_equations; lia).
  rewrite E4. repeat (f_equal; [apply Z.add_comm|]). f_equal. apply Z.add_comm.
Qed.

Lemma put_dec_trunc_ok q : 0 <= q < 100000 -> put_dec_trunc q = map (Z.add 48) (digits_of 5 10 q).
Proof.
  intros Hq. destruct (carries q Hq) as (B0 & B1 & B2 & B3 & N2 & N3 & E0 & E1 & E2 & E3 & E4 & Z1 & Z2 & Z3 & Z4).
  unfold put_dec_trunc. cbv zeta. rewrite (tenth_cd (_ + Z.land q 15)) by exact B0.
  rewrite tenth_cd by exact B1. rewrite tenth_d by exact B2. rewrite tenth_cd by exact B3.
  cbn [digits_of]. rewrite !Z.div_div by lia. change (10 * 10) with 100. change (100 * 10) with 1000.
  change (1000 * 10) with 10000. rewrite <- E0.
  assert (forall n b, 0 <= n -> 1 < b -> (n <? b) = true -> n mod b = n) as Hsmall by (intros; breflect; apply Z.mod_small; lia).
  destruct (q <? 10) eqn:C1.
  { rewrite (proj2 (Z.eqb_eq _ 0)) by (breflect; apply Z1; lia). cbn [map]. rewrite Hsmall by (done || lia).
    by rewrite Z.add_comm. }
  rewrite (proj2 (Z.eqb_neq _ 0)) by (breflect; rewrite Z1; lia). rewrite <- E1.
  destruct (q / 10 <? 10) eqn:C2.
  { assert (q < 100) as Hs by (breflect; Z.div_mod_to_equations; lia). apply Z2 in Hs as [-> ->]. cbn [Z.eqb andb map].
    rewrite (Z.mod_small (q / 10)) by (breflect; Z.div_mod_to_equations; lia). by rewrite !(Z.add_comm 48). }
  rewrite (proj2 (andb_false_iff _ _)).
  2:{ rewrite !Z.eqb_neq. assert (~ q < 100) as Hs by (breflect; Z.div_mod_to_equations; lia).
      rewrite <- Z2 in Hs. lia. }
  rewrite <- E2. destruct (q / 100 <? 10) eqn:C3.
  { assert (q < 1000) as Hs by (breflect; Z.div_mod_to_equations; lia). apply Z3 in Hs as ->. cbn [Z.eqb map].
    rewrite (Z.mod_small (q / 100)) by (breflect; Z.div_mod_to_equations; lia). by rewrite !(Z.add_comm 48). }
  rewrite (proj2 (Z.eqb_neq _ 0)).
  2:{ rewrite Z3. breflect. Z.div_mod_to_equations. lia. }
  rewrite <- E3. destruct (q / 1000 <? 10) eqn:C4.
  { assert (q < 10000) as Hs by (breflect; Z.div_mod_to_equations; lia). apply Z4 in Hs as ->. cbn [Z.eqb map].
    rewrite (Z.mod_small (q / 1000)) by (breflect; Z.div_mod_to_equations; lia). by rewrite !(Z.add_comm 48). }
  rewrite (proj2 (Z.eqb_neq _ 0)).
  2:{ rewrite Z4. breflect. Z.div_mod_to_equations. lia. }
  rewrite (proj2 (Z.ltb_lt (q / 10000) 10)) by (Z.div_mod_to_equations; lia). cbn [map].
  rewrite E4. by rewrite !(Z.add_comm 48).
Qed.

(** More fuel than digits changes nothing. *)
Lemma digits_of_enough f g b n : 1 < b -> (0 < f)%nat -> 0 <= n < b ^ Z.of_nat f -> digits_of (f + g) b n = digits_of f b n.
Proof.
  intros Hb. revert n. induction f as [|f IH]; intros n Hf Hn; [lia|]. simpl plus. cbn [digits_of].
  destruct (n <? b) eqn:E; [done|]. breflect. f_equal.
  rewrite Nat2Z.inj_succ, Z.pow_succ_r in Hn by lia. apply IH.
  - destruct f; [|lia]. simpl in Hn. lia.
  - split; [apply Z.div_pos; lia|]. apply Z.div_lt_upper_bound; lia.
Qed.

(** Taking five digits at once. *)
Lemma digits_of_five fuel n :
  100000 <= n -> digits_of (5 + fuel) 10 n = five_digits (n mod 100000) ++ digits_of fuel 10 (n / 100000).
Proof.
  intros Hn. simpl plus. cbn [digits_of]. rewrite !Z.div_div by lia.
  change (10 * 10) with 100. change (100 * 10) with 1000. change (1000 * 10) with 10000. change (10000 * 10) with 100000.
  rewrite !(proj2 (Z.ltb_ge _ _)) by (Z.div_mod_to_equations; lia).
  assert (forall k j, 0 < k -> 0 < j -> 100000 = 10 * k * j -> n / k mod 10 = n mod 100000 / k mod 10) as Hd.
  { intros k j Hk Hj E. rewrite (Z.div_mod n 100000) at 1 by lia.
    replace (100000 * (n / 100000) + n mod 100000) with (n mod 100000 + (j * (n / 100000)) * 10 * k).
    2:{ replace (j * (n / 100000) * 10 * k) with (10 * k * j * (n / 100000)) by ring. rewrite <- E. lia. }
    rewrite Z.div_add, Z.mod_add by lia. done. }
  unfold five_digits. cbn [app]. rewrite (Hd 10 1000), (Hd 100 100), (Hd 1000 10), (Hd 10000 1) by lia.
  f_equal. rewrite <- (Z.div_1_r n) at 1. rewrite (Hd 1 10000) by lia. by rewrite Z.div_1_r.
Qed.

Lemma put_dec_loop_ok fuel n :
  (0 < fuel)%nat -> 0 <= n < 100000 ^ Z.of_nat fuel ->
  put_dec_loop fuel n = map (Z.add 48) (digits_of (5 * fuel) 10 n).
Proof.
  revert n. induction fuel as [|fuel IH]; intros n Hf Hn; [lia|]. cbn [put_dec_loop].
  destruct (n <? 100000) eqn:E; breflect.
  - rewrite put_dec_trunc_ok by lia. f_equal. replace (5 * S fuel)%nat with (5 + 5 * fuel)%nat by lia.
    symmetry. apply (digits_of_enough 5); lia.
  - replace (5 * S fuel)%nat with (5 + 5 * fuel)%nat by lia. rewrite digits_of_five, map_app by lia.
    rewrite put_dec_full_ok by (apply Z.mod_pos_bound; lia). f_equal. apply IH.
    + destruct fuel; [|lia]. simpl in Hn. lia.
    + rewrite Nat2Z.inj_succ, Z.pow_succ_r in Hn by lia. split; [apply Z.div_pos; lia|]. apply Z.div_lt_upper_bound; lia.
Qed.

(** The decimal conversion without divisions is the decimal conversion:
    for every 64-bit number [put_dec] puts down exactly the digits that
    dividing by ten gives, least significant first, with no leading zero. *)
Theorem put_dec_correct (n : Z) (Hn : 0 <= n < 2 ^ 64) : put_dec n = map (Z.add 48) (digits_of 20 10 n).
Proof. apply (put_dec_loop_ok 4); [lia|]. change (100000 ^ Z.of_nat 4) with (10 ^ 20). lia. Qed.

Lemma put_dec_correct_witness : put_dec 18446744073709551615 = map (Z.add 48) (digits_of 20 10 18446744073709551615).
Proof. apply (put_dec_correct 18446744073709551615). lia. Defined.

(** ** Reading what was written *)

Lemma digits_of_bounds fuel b n : 1 < b -> 0 <= n -> n < b ^ Z.of_nat fuel -> Forall (fun d => 0 <= d < b) (digits_of fuel b n).
Proof.
  intros Hb. revert n. induction fuel as [|fuel IH]; intros n H0 Hn; cbn [digits_of]; [constructor|].
  destruct (n <? b) eqn:E; breflect; [repeat constructor; lia|]. constructor; [apply Z.mod_pos_bound; lia|].
  rewrite Nat2Z.inj_succ, Z.pow_succ_r in Hn by lia.
  apply IH; [apply Z.div_pos; lia|]. apply Z.div_lt_upper_bound; lia.
Qed.

Lemma value_of_app b l k acc : value_of b (l ++ k) acc = value_of b k (value_of b l acc).
Proof. apply foldl_app. Qed.

Lemma value_of_digits fuel b n :
  1 < b -> (0 < fuel)%nat -> 0 <= n < b ^ Z.of_nat fuel -> value_of b (rev (digits_of fuel b n)) 0 = n.
Proof.
  intros Hb. revert n. induction fuel as [|fuel IH]; intros n Hf Hn; [lia|]. cbn [digits_of].
  destruct (n <? b) eqn:E; [done|]. breflect. cbn [rev]. rewrite value_of_app.
  rewrite Nat2Z.inj_succ, Z.pow_succ_r in Hn by lia. rewrite IH.
  - unfold value_of. simpl. rewrite Z.mul_comm. symmetry. apply Z.div_mod. lia.
  - destruct fuel; [|lia]. simpl in Hn. lia.
  - split; [apply Z.div_pos; lia|]. apply Z.div_lt_upper_bound; lia.
Qed.

Lemma value_of_grows b ds acc : 1 < b -> 0 <= acc -> Forall (fun d => 0 <= d < b) ds -> acc <= value_of b ds acc.
Proof.
  intros Hb Ha Hd. revert acc Ha. induction Hd as [|d ds Hd _ IH]; intros acc Ha; [done|].
  unfold value_of in *. simpl. etransitivity; [|apply IH; nia]. nia.
Qed.

(** A way to write digits that the readers understand. *)
Definition legible (b : Z) (ch : Z -> Z) : Prop :=
  forall d, 0 <= d < b -> isxdigit (ch d) = true /\ digit_value (ch d) = d /\ TOLOWER (ch d) <> 120 /\ (ch d = 48 <-> d = 0).

Lemma digits_loop_ok b ch ds tail acc :
  1 < b -> legible b ch -> Forall (fun d => 0 <= d < b) ds -> 0 <= acc -> value_of b ds acc < 2 ^ 64 ->
  digits_loop b (map ch ds ++ tail) acc = digits_loop b tail (value_of b ds acc).
Proof.
  intros Hb Hch Hd. revert acc. induction Hd as [|d ds Hd Hds IH]; intros acc Ha Hv; [done|].
  cbn [map app digits_loop]. destruct (Hch d Hd) as (-> & -> & _). cbn [negb].
  rewrite (proj2 (Z.leb_gt _ _)) by lia.
  pose proof (value_of_grows b ds (acc * b + d) Hb ltac:(nia) Hds) as Hg. unfold value_of in *. simpl in Hv |- *.
  rewrite u64_small by nia. apply IH; [nia|done].
Qed.

Lemma power_loop_digits fuel shift locase n :
  0 <= n -> 0 < shift ->
  power_loop fuel shift locase n = map (fun d => Z.lor (digit_char d) locase) (digits_of fuel (2 ^ shift) n).
Proof.
  intros Hn Hs. revert n Hn. induction fuel as [|fuel IH]; intros n Hn; [done|]. cbn [power_loop digits_of].
  rewrite Z.land_ones, Z.shiftr_div_pow2 by lia. pose proof (Z.pow_pos_nonneg 2 shift ltac:(lia) ltac:(lia)).
  destruct (n <? 2 ^ shift) eqn:E; breflect.
  - by rewrite Z.div_small, Z.mod_small by lia.
  - assert (1 <= n / 2 ^ shift) by (apply Z.div_le_lower_bound; lia).
    rewrite (proj2 (Z.eqb_neq _ 0)) by lia. cbn [map]. f_equal. apply IH. lia.
Qed.

(** The digits [number] works out, in one of its three bases. *)
Definition number_digits (num b locase : Z) : list Z :=
  if num =? 0 then [48]
  else if negb (b =? 10) then power_loop 22 (if b =? 16 then 4 else 3) locase num
  else put_dec num.

Definition number_prefix (f b : Z) : list Z :=
  if has f SPECIAL && negb (b =? 10) then if b =? 16 then [48; Z.lor 88 (Z.land f SMALL)] else [48] else [].

Lemma number_shape num f b :
  f ∈ [0; SMALL; SPECIAL; SPECIAL + SMALL] ->
  number num (PrintfSpec f (-1) b (-1)) = number_prefix f b ++ rev (number_digits num b (Z.land f SMALL)).
Proof.
  intros Hf. unfold number. cbn [flags field_width base precision].
  assert (has f LEFT = false /\ has f SIGN = false /\ has f (ZEROPAD + LEFT) = false) as (-> & -> & ->)
    by (set_unfold; intuition subst; reflexivity).
  cbn [andb negb orb]. cbv iota zeta. fold (number_digits num b (Z.land f SMALL)). fold (number_prefix f b).
  unfold times. rewrite (Z.max_l (Z.of_nat _) (-1)), Z.sub_diag by lia. cbn [app].
  match goal with |- context [repeat 32 (Z.to_nat ?w)] => replace (Z.to_nat w) with O by lia end.
  change (Z.to_nat 0) with O. destruct (has f LEFT); cbn [repeat app]; by rewrite app_nil_r.
Qed.

Lemma legible_digits b locase : b ∈ [8; 10; 16] -> locase ∈ [0; 32] -> legible b (fun d => Z.lor (digit_char d) locase).
Proof.
  intros Hb Hl d Hd.
  assert (d ∈ seqZ 0 16) as Hin by (apply elem_of_seqZ; set_unfold; lia).
  vm_compute in Hin. set_unfold. intuition subst; try lia; vm_compute; intuition discriminate.
Qed.

Lemma legible_dec : legible 10 (Z.add 48).
Proof.
  intros d Hd. assert (d ∈ seqZ 0 10) as Hin by (apply elem_of_seqZ; lia).
  vm_compute in Hin. set_unfold. intuition subst; vm_compute; intuition discriminate.
Qed.

Lemma number_digits_ok n b locase :
  0 <= n < 2 ^ 64 -> b ∈ [8; 10; 16] -> locase ∈ [0; 32] ->
  exists ch fuel, legible b ch /\ (0 < fuel)%nat /\ n < b ^ Z.of_nat fuel /\
    number_digits n b locase = map ch (digits_of fuel b n).
Proof.
  intros Hn Hb Hl. unfold number_digits. destruct (n =? 0) eqn:E0; breflect.
  { subst n. exists (fun d => Z.lor (digit_char d) locase), 1%nat. split; [by apply legible_digits|].
    set_unfold. destruct Hb as [->|[->|[->|[]]]], Hl as [->|[->|[]]]; repeat split; lia. }
  apply elem_of_cons in Hb as [->|Hb]; [|apply elem_of_cons in Hb as [->|Hb]; [|apply list_elem_of_singleton in Hb as ->]].
  - exists (fun d => Z.lor (digit_char d) locase), 22%nat. split; [apply legible_digits; set_solver|].
    split; [lia|]. split; [lia|]. apply (power_loop_digits 22 3); lia.
  - exists (Z.add 48), 20%nat. split; [apply legible_dec|]. split; [lia|]. split; [lia|].
    apply (put_dec_loop_ok 4); [lia|]. change (100000 ^ Z.of_nat 4) with (10 ^ 20). lia.
  - exists (fun d => Z.lor (digit_char d) locase), 22%nat. split; [apply legible_digits; set_solver|].
    split; [lia|]. split; [lia|]. apply (power_loop_digits 22 4); lia.
Qed.

(** What may follow the number. *)
Definition newline : list (list Z) := [[]; [10]].

Lemma digits_end b nl v : nl ∈ newline -> digits_loop b nl v = (v, nl).
Proof. intros H. unfold newline in H. set_unfold. destruct H as [->|[->|[]]]; reflexivity. Qed.

(** No character of a number is taken for the x of a prefix. *)
Lemma no_x b ch ds nl i :
  legible b ch -> Forall (fun d => 0 <= d < b) ds -> nl ∈ newline -> TOLOWER (at_ (map ch ds ++ nl) i) <> 120.
Proof.
  intros Hch Hd Hnl. unfold at_. destruct (decide (i < length (map ch ds))%nat) as [Hi|Hi].
  - rewrite app_nth1 by done. assert (In (nth i (map ch ds) 0) (map ch ds)) as H by by apply nth_In.
    apply in_map_iff in H as (d & <- & H). rewrite Forall_forall in Hd. apply Hch, Hd. by apply list_elem_of_In.
  - rewrite app_nth2 by lia. unfold newline in Hnl. set_unfold. destruct Hnl as [->|[->|[]]]; destruct (i - _)%nat as [|[|]]; done.
Qed.

(** Digits after which nothing else comes are read whole. *)
Lemma strict_accepts cp ds base b ch nl :
  simple_strtoul cp base = digits_loop b (map ch ds ++ nl) 0 ->
  (length (map ch ds ++ nl) <= length cp)%nat -> ds <> [] ->
  1 < b -> legible b ch -> Forall (fun d => 0 <= d < b) ds -> nl ∈ newline -> value_of b ds 0 < 2 ^ 64 ->
  strict_strtoul cp base = Some (value_of b ds 0).
Proof.
  intros E Hlen Hne Hb Hch Hd Hnl Hv. unfold strict_strtoul. rewrite E.
  rewrite digits_loop_ok, digits_end by (done || lia).
  assert (0 < length ds)%nat by (destruct ds; simpl; [done|lia]).
  rewrite length_app, length_map in Hlen.
  rewrite bool_decide_eq_false_2 by (intros ->; simpl in *; lia).
  rewrite (proj2 (Nat.eqb_neq _ _)) by lia.
  unfold newline in Hnl. set_unfold. destruct Hnl as [->|[->|[]]]; reflexivity.
Qed.

(** The first digit of a number that is not zero. *)
Lemma first_digit fuel b n :
  1 < b -> 0 < n -> n < b ^ Z.of_nat fuel -> exists d ds, rev (digits_of fuel b n) = d :: ds /\ d <> 0.
Proof.
  intros Hb. revert n. induction fuel as [|fuel IH]; intros n H0 Hn; [simpl in Hn; lia|]. cbn [digits_of].
  destruct (n <? b) eqn:E; breflect; [exists n, []; simpl; split; [done|lia]|].
  rewrite Nat2Z.inj_succ, Z.pow_succ_r in Hn by lia.
  destruct (IH (n / b)) as (d & ds & E' & Hd).
  - apply Z.div_str_pos. lia.
  - apply Z.div_lt_upper_bound; lia.
  - exists d, (ds ++ [n mod b]). cbn [rev]. by rewrite E'.
Qed.

Lemma plain_base cp b : b <> 0 -> TOLOWER (at_ cp 1) <> 120 -> simple_strtoul cp b = digits_loop b cp 0.
Proof.
  intros H0 H1. unfold simple_strtoul. rewrite (proj2 (Z.eqb_neq b 0)) by done.
  by rewrite (proj2 (Z.eqb_neq (TOLOWER _) _)), andb_false_r by done.
Qed.

(** Bases are guessed from the prefix. *)
Lemma guess_hex c x cp :
  c = 48 -> TOLOWER x = 120 -> isxdigit (at_ cp 0) = true -> simple_strtoul (c :: x :: cp) 0 = digits_loop 16 cp 0.
Proof.
  intros -> Hx Hc. unfold simple_strtoul, simple_guess_base, at_ in *. cbn [nth Z.eqb Pos.eqb] in *.
  by rewrite Hx, Hc.
Qed.

Lemma guess_oct cp : TOLOWER (at_ cp 0) <> 120 -> simple_strtoul (48 :: cp) 0 = digits_loop 8 cp 0.
Proof.
  intros H. unfold simple_strtoul, simple_guess_base, at_ in *. cbn [nth Z.eqb Pos.eqb].
  by rewrite (proj2 (Z.eqb_neq (TOLOWER _) _)) by done.
Qed.

Lemma guess_dec c cp : c <> 48 -> simple_strtoul (c :: cp) 0 = digits_loop 10 (c :: cp) 0.
Proof.
  intros H. unfold simple_strtoul, simple_guess_base, at_ in *. cbn [nth].
  by rewrite (proj2 (Z.eqb_neq c 48)) by done.
Qed.

(** What is printed, as digits the readers understand. *)
Lemma printed n b sm :
  0 <= n < 2 ^ 64 -> b ∈ [8; 10; 16] -> sm ∈ [0; SMALL] ->
  exists ch ds, legible b ch /\ ds <> [] /\ Forall (fun d => 0 <= d < b) ds /\ value_of b ds 0 = n /\
    (0 < n -> exists d ds', ds = d :: ds' /\ d <> 0) /\
    rev (number_digits n b sm) = map ch ds.
Proof.
  intros Hn Hb Hs. destruct (number_digits_ok n b sm Hn Hb Hs) as (ch & fuel & Hch & Hf & Hlt & ->).
  assert (1 < b) by (set_unfold; lia).
  exists ch, (rev (digits_of fuel b n)). split_and!; try done.
  - destruct fuel; [lia|]. cbn [digits_of]. destruct (n <? b); [done|]. cbn [rev]. by destruct (rev _).
  - apply Forall_rev. apply digits_of_bounds; lia.
  - apply value_of_digits; lia.
  - intros. apply first_digit; lia.
  - by rewrite <- map_rev.
Qed.

Lemma number_reads (n b sm : Z) (nl : list Z) :
  0 <= n < 2 ^ 64 -> b ∈ [8; 10; 16] -> sm ∈ [0; SMALL] -> nl ∈ newline ->
  strict_strtoul (number n (PrintfSpec sm (-1) b (-1)) ++ nl) b = Some n /\
  strict_strtoul (number n (PrintfSpec (SPECIAL + sm) (-1) b (-1)) ++ nl) 0 = Some n.
Proof.
  intros Hn Hb Hs Hnl. destruct (printed n b sm Hn Hb Hs) as (ch & ds & Hch & Hne & Hd & Hv & Hfirst & E).
  assert (1 < b) by (set_unfold; lia).
  pose proof (no_x b ch ds nl) as Hx.
  rewrite !number_shape by (set_unfold; intuition subst; auto).
  assert (Z.land sm SMALL = sm /\ Z.land (SPECIAL + sm) SMALL = sm) as [-> ->]
    by (set_unfold; intuition subst; reflexivity).
  rewrite E. unfold number_prefix.
  assert (has sm SPECIAL = false /\ has (SPECIAL + sm) SPECIAL = true) as [-> ->]
    by (set_unfold; intuition subst; reflexivity).
  cbn [andb app]. rewrite <- Hv. split.
  { apply (strict_accepts _ ds b b ch nl); try done; [|lia]. apply plain_base; [lia|]. by apply Hx. }
  assert (b = 8 \/ b = 10 \/ b = 16) as [->|[->| ->]] by (clear - Hb; set_unfold; tauto); cbn [Z.eqb Pos.eqb negb app].
  - apply (strict_accepts _ ds 0 8 ch nl); try done; [by apply guess_oct, Hx|simpl; lia|lia].
  - destruct (decide (n = 0)) as [->|]. { rewrite <- E, Hv. unfold newline in Hnl. set_unfold. by destruct Hnl as [->|[->|[]]]. }
    destruct Hfirst as (d & ds' & -> & Hd0); [lia|].
    apply (strict_accepts _ (d :: ds') 0 10 ch nl); try done; [|lia]. cbn [map app]. apply guess_dec.
    intros Hz. apply Hd0, Hch; [|done]. by inversion Hd.
  - apply (strict_accepts _ ds 0 16 ch nl); try done; [|simpl; lia|lia]. apply guess_hex; [done| |].
    + clear - Hs. set_unfold. by destruct Hs as [->|[->|[]]].
    + destruct ds as [|d ds']; [done|]. apply Hch. by inversion Hd.
Qed.

(** What the kernel prints the kernel reads back: a 64-bit number written
    by [number] in octal, decimal or hexadecimal, in either case, is read as
    that number by [strict_strtoul] in that base, and with its prefix
    also when the base is left to be guessed; a final newline is allowed. *)
Theorem number_strtoul_roundtrip (n b sm : Z) (nl : list Z) :
  0 <= n < 2 ^ 64 -> b ∈ [8; 10; 16] -> sm ∈ [0; SMALL] -> nl ∈ newline ->
  strict_strtoul (number n (PrintfSpec sm (-1) b (-1)) ++ nl) b = Some n /\
  strict_strtoul (number n (PrintfSpec (SPECIAL + sm) (-1) b (-1)) ++ nl) 0 = Some n.
Proof. apply number_reads. Qed.

Lemma number_strtoul_roundtrip_witness :
  strict_strtoul (number 48879 (PrintfSpec SMALL (-1) 16 (-1)) ++ [10]) 16 = Some 48879 /\
  strict_strtoul (number 48879 (PrintfSpec (SPECIAL + SMALL) (-1) 16 (-1)) ++ [10]) 0 = Some 48879.
Proof. apply (number_strtoul_roundtrip 48879 16 SMALL [10]); [lia|unfold newline; set_solver..]. Defined.

(** Every character of a printed number is a digit, or belongs to its prefix. *)
Lemma number_chars n b sm :
  0 <= n < 2 ^ 64 -> b ∈ [8; 10; 16] -> sm ∈ [0; SMALL] ->
  Forall (fun c => isxdigit c = true) (number n (PrintfSpec sm (-1) b (-1))).
Proof.
  intros Hn Hb Hs. rewrite number_shape by (set_unfold; intuition subst; auto).
  assert (number_prefix sm b = [] /\ Z.land sm SMALL = sm) as [-> ->] by (set_unfold; intuition subst; reflexivity).
  destruct (printed n b sm Hn Hb Hs) as (ch & ds & Hch & _ & Hd & _ & _ & ->). cbn [app].
  induction Hd as [|d ds Hd _ IH]; constructor; [|done]. by apply Hch.
Qed.
