(* ===== verification/AllocatorIO.v ===== *)
(** * What the storage allocators share

    tuxonice_swap.c and tuxonice_file.c stand on the block I/O layer in the
    same way: the chains the layer walks, the bytes their bootstrap data have
    in the header, the way a chain is loaded while the header that holds it is
    being read, and the arithmetic of the space a page takes. *)

From S2P Require Import Prelude HeaderStream Extents States BlockIO BlockIOFacts BlockIORead.
From stdpp Require Import numbers base list strings.
#[local] Open Scope Z_scope.
#[local] Open Scope step_scope.

Definition bytes_of (s : string) : list Z :=
  map (fun c => Z.of_nat (Ascii.nat_of_ascii c)) (String.list_ascii_of_string s).

(** ** Pointers, memory, signatures *)

Definition IS_ERR (p : Z) : bool := (-4096 <? p) && (p <? 0).

(** Whether the next small allocation succeeds. *)
Definition toi_kzalloc : M bio_state bool := fun b =>
  match memory b with
  | [] => Some (b, true)
  | ok :: rest => Some (b {{ memory := rest }}, ok)
  end.

(** [blkdev_put] drops one reference. *)
Fixpoint remove_one (x : Z) (l : list Z) : list Z :=
  match l with
  | [] => []
  | y :: l' => if y =? x then l' else y :: remove_one x l'
  end.

Definition null_bdev_info : toi_bdev_info := BdevInfo 0 0 0 0 false.

Definition tuxonice_signature : list Z := [0xed; 0xc3; 0x02; 0xe9; 0x98; 0x56; 0xe5; 0x0c].

(** [!memcmp(sig, header, strlen(sig))] *)
Definition starts_with (sig header : list Z) : bool := bool_decide (take (length sig) header = sig).

(** ** The chains *)

Fixpoint forward_pages (n : nat) : M bio_state Z :=
  match n with
  | O => ret 0
  | S n' =>
      r <-- go_next_page WRITE false;;
      if r =? 0 then forward_pages n' else ret (- ENOSPC)
  end.

(** [apply_header_reservation]: the header has the first [n] pages; what
    follows them is the start of the second stream. *)
Definition reserve_pages (n : nat) : M bio_state Z :=
  modify (fun b => b {{ toi_writer_posn := toi_extent_state_goto_start (toi_writer_posn b) }});;;
  r <-- forward_pages n;;
  or_return r (save_posn 2;;; ret 0).

(** [block_chain], the chains the block layer walks. *)
Definition block_chain (b : bio_state) : list hibernate_extent_chain := it_chains (toi_writer_posn b).

Definition set_block_chain (cs : list hibernate_extent_chain) (b : bio_state) : bio_state :=
  let p := toi_writer_posn b in
  b {{ toi_writer_posn := IterState cs (current_chain p) (current_extent p) (current_offset p) }}.

(** The values of a chain, the macro run with enough fuel. *)
Definition chain_values (c : hibernate_extent_chain) : option (list Z) :=
  toi_extent_for_each (S (length (chain_blocks c))) c.

(** ** Storage accounting *)

(** Each stored page is preceded by an unsigned long and an int. *)
Definition raw_to_real (raw : Z) : Z :=
  let result := s64 (raw - u64 (u64 (raw * (sizeof_long + sizeof_int)) +
                      (PAGE_SIZE + sizeof_long + sizeof_int + 1)) /
                      (PAGE_SIZE + sizeof_long + sizeof_int)) in
  if result <? 0 then 0 else result.

(** ** Bootstrap data *)

Definition saved_state_bytes (sv : hibernate_extent_iterate_saved_state) : list Z :=
  le_bytes 4 (chain_num sv) ++ le_bytes 4 (extent_num sv) ++ le_bytes 8 (saved_offset sv).

Definition bdev_info_bytes (d : toi_bdev_info) : list Z :=
  le_bytes 8 (bdev d) ++ le_bytes 4 (dev_t d) ++ le_bytes 4 (bmap_shift d) ++
  le_bytes 4 (blocks_per_page d) ++ le_bytes 4 (if ignored d then 1 else 0).

(** [toi_serialise_extent_chain] over the block layer; the disk and start the
    writer contract speaks of play no part in what is written. *)
Definition serialise_block_chain (o : owner) (c : hibernate_extent_chain) : M bio_state Z := fun b =>
  match toi_serialise_extent_chain (H := bio_header_writer (the_disk b) (Start (0, 0) (0, [])))
          o c (Some b) with
  | (Some b', r) => Some (b', r)
  | (None, _) => None
  end.

Definition decode_saved_state (bs : list Z) : hibernate_extent_iterate_saved_state :=
  SavedState (s32 (le_val (take 4 bs))) (s32 (le_val (take 4 (drop 4 bs))))
    (le_val (take 8 (drop 8 bs))).

Definition decode_bdev_info (bs : list Z) : toi_bdev_info :=
  BdevInfo (le_val (take 8 bs)) (le_val (take 4 (drop 8 bs))) (s32 (le_val (take 4 (drop 12 bs))))
    (s32 (le_val (take 4 (drop 16 bs)))) (negb (s32 (le_val (take 4 (drop 20 bs))) =? 0)).

Fixpoint chunks {A} (decode : list Z -> A) (size n : nat) (bs : list Z) : list A :=
  match n with
  | O => []
  | S n' => decode (take size bs) :: chunks decode size n' (drop size bs)
  end.

Definition sizeof_saves : nat := 64.

(** [toi_load_extent_chain] on [block_chain[i]]: every extent is linked into
    the array as it is read, so that the next page of the header can be
    found through the extents already loaded. *)
Fixpoint load_block_extents (i n : nat) (first : bool) : M bio_state Z :=
  match n with
  | O => ret 0
  | S n' =>
      ok <-- toi_kzalloc;;
      if negb ok then ret (- ENOMEM)
      else
        r <-- _toi_rw_header_chunk_read None 16 true;;
        if snd r =? 0 then
          let e := Ext (le_val (take 8 (fst r))) (le_val (drop 8 (fst r))) in
          modify (fun b => set_block_chain
            (alter (fun c => Chain (chain_size c) (num_extents c)
                               (if first then [e] else chain_exts c ++ [e]) (last_touched c)) i
                   (block_chain b)) b);;;
          load_block_extents i n' false
        else ret 1
  end.

Definition load_block_chain (i : nat) : M bio_state Z :=
  r <-- _toi_rw_header_chunk_read None 8 true;;
  if snd r =? 0 then
    let num := s32 (le_val (drop 4 (fst r))) in
    modify (fun b => set_block_chain
      (alter (fun c => Chain (s32 (le_val (take 4 (fst r)))) num (chain_exts c) (last_touched c)) i
             (block_chain b)) b);;;
    load_block_extents i (Z.to_nat num) true
  else ret 1.

(** ** Parameters *)

(** The device name, and the text after the colon that ends it: the scan
    stops at ':', '@', or after 250 characters. *)
Fixpoint split_colon (n : nat) (seen rest : list Z) : list Z * option (list Z) :=
  match rest with
  | [] => (seen, None)
  | c :: rest' =>
      if c =? 58 then (seen, Some rest')
      else if (c =? 64) || (n =? 0)%nat then (seen ++ rest, None)
      else split_colon (pred n) (seen ++ [c]) rest'
  end.
