(* ===== verification/AllocatorFacts.v ===== *)
(** * Facts about what the allocators share

    The pages of the tape are walked, set aside for the header and saved in
    the same way by both storage allocators, an image of as many pages as
    [raw_to_real] promises fits the pages it is worked out from, and the
    fields of a signature page are set one by one. *)

From S2P Require Import Prelude HeaderStream Extents States BlockIO BlockIOFacts BlockIORead AllocatorIO.
From stdpp Require Import numbers base list.
#[local] Open Scope Z_scope.
#[local] Arguments Z.to_nat : simpl never.
#[local] Arguments Nat.mul : simpl never.

(** ** Chains *)

(** A range whose numbers are not in a chain overlaps none of its extents. *)
Lemma range_free_disjoint c lo hi :
  wf_chain c -> lo <= hi -> (forall x, lo <= x <= hi -> x ∉ chain_blocks c) ->
  range_free (chain_exts c) lo hi.
Proof.
  intros Hwf Hlh Hd. apply Forall_forall. intros e He.
  destruct (wf_from_elem _ _ _ (wf_sorted _ Hwf) He) as [? ?].
  destruct (Z.lt_ge_cases hi (ext_start e)); [by left|].
  destruct (Z.lt_ge_cases (ext_end e) lo); [by right|]. exfalso.
  apply (Hd (Z.max lo (ext_start e))); [lia|].
  unfold chain_blocks, exts_blocks. apply list_elem_of_In, in_flat_map. exists e.
  split; [by apply list_elem_of_In|]. apply list_elem_of_In. unfold ext_blocks, ext_len.
  apply elem_of_seqZ. lia.
Qed.

Lemma chain_blocks_NoDup c : wf_chain c -> NoDup (chain_blocks c).
Proof. intros Hw. eapply ascending_NoDup, (exts_blocks_ascending 0), Hw. Qed.

(** Chains of small block numbers have short extent lists. *)
Lemma wf_from_short lo l n :
  wf_from lo l -> (forall b, b ∈ exts_blocks l -> b < n) -> lo <= n -> Z.of_nat (length l) <= n - lo.
Proof.
  revert lo. induction l as [|e l IH]; intros lo Hwf Hb Hlo; cbn [length]; [lia|].
  destruct Hwf as (? & ? & Hl).
  assert (ext_end e < n) as Hend.
  { apply Hb. cbn [exts_blocks flat_map]. apply elem_of_app. left. unfold ext_blocks, ext_len.
    apply elem_of_seqZ. lia. }
  pose proof (IH _ Hl ltac:(intros b ?; apply Hb; cbn [exts_blocks flat_map]; apply elem_of_app; by right) ltac:(lia)).
  lia.
Qed.

Lemma tape_from_elem k cs i c b :
  cs !! i = Some c -> b ∈ chain_blocks c -> (k + Z.of_nat i, b) ∈ tape_from k cs.
Proof.
  revert k i. induction cs as [|d cs IH]; intros k i Hi Hb; [done|]. cbn [tape_from]. apply elem_of_app.
  destruct i as [|i].
  - injection Hi as ->. left. rewrite Z.add_0_r. apply (list_elem_of_fmap_2 (pair k)). done.
  - right. replace (k + Z.of_nat (S i)) with (k + 1 + Z.of_nat i) by lia. by apply IH.
Qed.

(** ** Walking the tape *)

Lemma forward_pages_spec b cells v :
  wf_tape b -> extra_page_forward b = false -> pages (toi_devinfo b) (view b) cells v ->
  exists p, (forall j, forward_pages (length cells + j) b = forward_pages j (b {{ toi_writer_posn := p }})) /\
    wf_iter p /\ it_chains p = block_chain b /\ (current_chain p, rest_of p) = v /\
    list.last (here b :: cells) = Some (current_chain p, current_offset p).
Proof.
  intros Hwf Hx Hp. remember (view b) as v0 eqn:Hv.
  remember (toi_devinfo b) as devs eqn:Hdv. revert b Hwf Hx Hv Hdv.
  induction Hp as [v0|v0 c rest cells v Hn _ IH]; intros b Hwf Hx -> ->; cbn [forward_pages length].
  - exists (toi_writer_posn b). split_and!; [intros j; by destruct b|apply Hwf|done..].
  - destruct (advance_ok WRITE false b c rest Hwf Hn) as (q & Ha & Hm); [by left|].
    pose proof Hm as (Hq & Hqc & Hcc & Hco & Hr).
    assert (go_next_page WRITE false b = Some (b {{ toi_writer_posn := q }}, 0)) as Hg.
    { unfold go_next_page, bind, get, or_return. rewrite Ha. cbn [Z.eqb].
      change (extra_page_forward (b {{ toi_writer_posn := q }})) with (extra_page_forward b). by rewrite Hx. }
    destruct (IH (b {{ toi_writer_posn := q }})) as (p & Hf & Hp1 & Hp2 & Hp3 & Hp4);
      [by eapply (moved_wf_tape b _ c rest)|done|unfold view; simpl; congruence|done|].
    exists p. split_and!; auto.
    + intros j. cbn [Nat.add forward_pages]. unfold bind. rewrite Hg. cbn [Z.eqb]. by rewrite Hf.
    + rewrite Hp2. unfold block_chain. simpl. done.
    + rewrite last_cons_cons. rewrite <- Hp4. f_equal. f_equal. unfold here. simpl.
      rewrite Hcc, Hco. by destruct c.
Qed.

(** Running out of tape. *)
Lemma go_next_page_end b :
  wf_tape b -> next_page (toi_devinfo b) (view b) = None -> good_cell (num_chains (toi_writer_posn b)) (here b) ->
  exists p, go_next_page WRITE false b = Some (b {{ toi_writer_posn := p }}, - ENODATA) /\
    it_chains p = it_chains (toi_writer_posn b).
Proof.
  intros Hwf Hnone Hg. destruct (blocks_to_skip_defined b Hwf Hg) as [n Hn].
  destruct (at_barrier_defined b Hwf) as [a Ha].
  assert (0 < n) as Hpos.
  { unfold blocks_to_skip in Hn. destruct (_ =? -1); [injection Hn as <-; lia|].
    destruct (Z.ltb_spec (current_chain (toi_writer_posn b)) 0); [done|].
    destruct (toi_devinfo b !! _) as [d|] eqn:Hd; simplify_eq/=. by eapply current_bpp. }
  unfold next_page, view in Hnone. cbn [fst snd] in Hnone. rewrite page_cells_skip, Hn in Hnone. cbn [fmap option_fmap option_map] in Hnone.
  destruct (Z.to_nat n) as [|k] eqn:Hk; [lia|].
  destruct (next_blocks_spec (S k) _ (wt_iter _ Hwf)) as (_ & Hc & _ & He).
  assert (rest_of (toi_writer_posn b) !! k = None) as Hr.
  { rewrite <- (Nat.add_0_r k), <- lookup_drop. by destruct (drop k _). }
  rewrite Hr in He. exists (next_blocks (S k) (toi_writer_posn b)). split; [|done].
  unfold go_next_page, advance, bind, or_return. rewrite Hn, Ha, Hk. cbn [andb].
  change (toi_extent_state_eof (next_blocks (S k) (toi_writer_posn b)) = true) in He. by rewrite He.
Qed.

(** ** Setting the header aside *)

Section Reserve.
Context (b : bio_state).

Definition at_start : bio_state := b {{ toi_writer_posn := toi_extent_state_goto_start (toi_writer_posn b) }}.

Context (Hwf : wf_tape at_start) (Hx : extra_page_forward b = false).
Context (Hshort : Forall (fun c => Z.of_nat (length (chain_exts c)) < 2 ^ 31) (block_chain b)).

(** Positions reached from the start can be saved. *)
Lemma reached_savable p cells v :
  wf_iter p -> it_chains p = block_chain b -> pages (toi_devinfo b) (-1, tape (block_chain b)) cells v ->
  list.last ((-1, 0) :: cells) = Some (current_chain p, current_offset p) -> savable p.
Proof using Hshort.
  intros Hw Hc Hp Hl.
  assert (good_cell (num_chains p) (current_chain p, current_offset p)) as Hg.
  { apply last_Some_elem_of, elem_of_cons in Hl as [->|Hin]; [by left|right].
    unfold num_chains. rewrite Hc. apply (pages_incl _ _ _ _ _ Hp) in Hin.
    apply (tape_from_chain 0) in Hin. simpl. lia. }
  split_and!; auto.
  - unfold toi_extent_state_eof. apply Z.eqb_neq.
    destruct Hg as [[= -> _]|Hg]; [unfold num_chains|]; simpl in *; lia.
  - unfold short_chains. by rewrite Hc.
  - intros E. destruct Hg as [[= _ ->]|Hg]; [done|]. simpl in Hg. lia.
Qed.

Lemma at_start_view : view at_start = (-1, tape (block_chain b)).
Proof using. unfold view. cbn [toi_writer_posn set_field at_start]. by rewrite goto_start_rest. Qed.

Lemma reserve_pages_ok cells v :
  pages (toi_devinfo b) (-1, tape (block_chain b)) cells v ->
  exists p sv, reserve_pages (length cells) b =
      Some (b {{ toi_writer_posn := p; toi_writer_posn_save := <[2%nat := sv]> (toi_writer_posn_save b) }}, 0) /\
    savable p /\ it_chains p = block_chain b /\ toi_extent_state_restore p sv = Some p /\
    (current_chain p, rest_of p) = v /\
    list.last ((-1, 0) :: cells) = Some (current_chain p, current_offset p).
Proof using Hwf Hx Hshort.
  intros Hp. destruct (forward_pages_spec at_start cells v Hwf) as (p & Hf & Hpw & Hpc & Hv & Hl);
    [done|by rewrite at_start_view|].
  specialize (Hf 0%nat). rewrite Nat.add_0_r in Hf.
  assert (savable p) as Hsv by (by eapply reached_savable).
  destruct (save_restore_spec p) as (sv & Hsave & Hrest); [apply Hsv..|].
  exists p, sv. split_and!; auto; [|rewrite (Hrest p eq_refl); by destruct p].
  unfold reserve_pages, bind, modify. fold at_start. rewrite Hf. cbn [forward_pages].
  unfold ret, or_return. cbn [Z.eqb]. unfold save_posn.
  change (toi_writer_posn (at_start {{ toi_writer_posn := p }})) with p. rewrite Hsave. done.
Qed.

Lemma reserve_pages_short cells v k :
  pages (toi_devinfo b) (-1, tape (block_chain b)) cells v -> next_page (toi_devinfo b) v = None ->
  (length cells < k)%nat ->
  exists p, reserve_pages k b = Some (b {{ toi_writer_posn := p }}, - ENOSPC) /\ it_chains p = block_chain b.
Proof using Hwf Hx Hshort.
  intros Hp Hnone Hk. destruct (forward_pages_spec at_start cells v Hwf) as (p & Hf & Hpw & Hpc & Hv & Hl);
    [done|by rewrite at_start_view|].
  assert (savable p) as Hsv by (by eapply reached_savable).
  destruct (go_next_page_end (at_start {{ toi_writer_posn := p }})) as (q & Hq & Hqc).
  - destruct Hwf as [? ? ? ?]. split; auto; cbn [toi_writer_posn set_field toi_devinfo at_start] in *; by rewrite Hpc.
  - change (view (at_start {{ toi_writer_posn := p }})) with (current_chain p, rest_of p). by rewrite Hv.
  - by apply savable_good.
  - exists q. split; [|by rewrite Hqc]. unfold reserve_pages, bind, modify. fold at_start.
    replace k with (length cells + S (k - length cells - 1))%nat by lia.
    rewrite Hf. cbn [forward_pages]. unfold bind. by rewrite Hq.
Qed.
End Reserve.

(** ** Storage needed for an image *)

Lemma raw_to_real_nonneg raw : 0 <= raw < 2 ^ 50 ->
  0 <= raw_to_real raw /\ raw_to_real raw * (PAGE_SIZE + 12) <= raw * PAGE_SIZE.
Proof.
  intros Hr. unfold raw_to_real, sizeof_long, sizeof_int, PAGE_SIZE.
  rewrite (u64_small (raw * (8 + 4))), u64_small by lia.
  set (q := (_ / _)). assert (4108 * q <= raw * 12 + 4109 < 4108 * (q + 1)) as Hq.
  { pose proof (Z.div_mod (raw * (8 + 4) + (4096 + 8 + 4 + 1)) (4096 + 8 + 4) ltac:(lia)).
    pose proof (Z.mod_pos_bound (raw * (8 + 4) + (4096 + 8 + 4 + 1)) (4096 + 8 + 4) ltac:(lia)).
    fold q in H. lia. }
  rewrite s64_small by lia. destruct (Z.ltb_spec (raw - q) 0); lia.
Qed.

Lemma record_bytes_length pfn buffer size :
  0 <= size <= PAGE_SIZE -> Z.of_nat (length (record_bytes pfn buffer size)) <= PAGE_SIZE + 12.
Proof.
  intros Hs. unfold record_bytes. rewrite !length_app, !length_le_bytes, length_take. lia.
Qed.

(** An image of as many pages as [raw_to_real] promises fits the raw pages. *)
Lemma image_fits raw l :
  0 <= raw < 2 ^ 50 -> Z.of_nat (length l) <= raw_to_real raw ->
  Forall (fun e => 0 <= snd e <= PAGE_SIZE) l ->
  Z.of_nat (length (image_bytes l)) <= PAGE_SIZE * raw.
Proof.
  intros Hr Hl Hf. destruct (raw_to_real_nonneg raw Hr) as [_ Hb].
  assert (Z.of_nat (length (image_bytes l)) <= Z.of_nat (length l) * (PAGE_SIZE + 12)) as Hi.
  { clear -Hf. induction Hf as [|[[pfn buffer] size] l Hs _ IH]; [done|].
    cbn [image_bytes flat_map]. fold (image_bytes l).
    pose proof (record_bytes_length pfn buffer size Hs). rewrite length_app. cbn [length]. lia. }
  unfold PAGE_SIZE in *. lia.
Qed.

(** ** Overwriting part of a page *)

Section Splice.
Context (p : page) (pos : nat) (bs : list Z) (Hfit : (pos + length bs <= length p)%nat).

Lemma splice_length : length (splice p pos bs) = length p.
Proof. unfold splice. rewrite !length_app, length_take, length_drop. lia. Qed.

Lemma splice_lookup_in i :
  (pos <= i < pos + length bs)%nat -> splice p pos bs !! i = bs !! (i - pos)%nat.
Proof.
  intros ?. unfold splice. rewrite lookup_app_r; rewrite length_take_le by lia; [|lia].
  by rewrite lookup_app_l by lia.
Qed.

Lemma splice_lookup_out i :
  (i < pos \/ pos + length bs <= i)%nat -> splice p pos bs !! i = p !! i.
Proof.
  intros [?|?]; unfold splice.
  - rewrite lookup_app_l by (rewrite length_take_le; lia). by rewrite lookup_take_lt.
  - rewrite lookup_app_r; rewrite length_take_le by lia; [|lia].
    rewrite lookup_app_r by lia. rewrite lookup_drop. f_equal. lia.
Qed.

Lemma field_splice_same n : n = length bs -> take n (drop pos (splice p pos bs)) = bs.
Proof.
  intros ->. unfold splice. rewrite drop_app_length' by (rewrite length_take_le; lia).
  by rewrite take_app_length.
Qed.

Lemma field_splice_other q n :
  (q + n <= pos \/ pos + length bs <= q)%nat ->
  take n (drop q (splice p pos bs)) = take n (drop q p).
Proof.
  intros Hd. apply list_eq. intros i. destruct (decide (i < n)%nat).
  - rewrite !lookup_take_lt, !lookup_drop by done. apply splice_lookup_out. lia.
  - by rewrite !lookup_take_ge by lia.
Qed.
End Splice.
