(* ===== verification/SwapStorage.v ===== *)
(** * The swap allocator: kernel/power/tuxonice_swap.c

    Swap entries are taken from the running kernel's swap map, their disk
    blocks become the extent chains of the block I/O layer, and the first
    page of the resume device carries the signature that says whether an
    image exists.

    [block_chain] and [devinfo] are the arrays the block layer walks through
    the pointers [toi_writer_posn.chains] and [toi_devinfo]; they are stored
    once, inside [bio].  The kernel's swap map (mm/swapfile.c) is reached only
    through the contract [SwapMap]. *)

From S2P Require Import Prelude HeaderStream Extents States BlockIO BlockIOFacts BlockIORead Vsprintf AllocatorIO.
From stdpp Require Import numbers base list strings.
#[local] Open Scope Z_scope.
#[local] Open Scope step_scope.

(** CONFIG_MIGRATION keeps the last two of the 32 swap types. *)
Definition MAX_SWAPFILES : nat := 30.

(** ** Swap entries (include/linux/swapops.h) *)

Definition SWP_TYPE_SHIFT : Z := 59.

Definition swp_type (e : Z) : Z := Z.shiftr e SWP_TYPE_SHIFT.
Definition swp_offset (e : Z) : Z := Z.land e (Z.ones SWP_TYPE_SHIFT).

#[global] Arguments swp_type : simpl never.
#[global] Arguments swp_offset : simpl never.

(** ** The contract of mm/swapfile.c *)

(** What the allocator looks at in a [swap_info_struct]; [si_ram] is a disk
    name beginning with "ram", [si_writeok] both SWP_USED and SWP_WRITEOK. *)
Record swap_info_struct := SwapInfo {
  si_bdev : Z;
  si_ram : bool;
  si_file : bool;
  si_writeok : bool;
  si_pages : Z;
  si_inuse : Z;
  si_max : Z
}.

Definition si_device (si : swap_info_struct) : Z * bool * bool * Z :=
  (si_bdev si, si_ram si, si_file si, si_max si).

(** An entry of an open device. *)
Definition live (infos : list swap_info_struct) (e : Z) : bool :=
  match infos !! Z.to_nat (swp_type e) with
  | Some si => (0 <? si_bdev si) && (swp_offset e <? si_max si)
  | None => false
  end.

(** [get_swap_page] hands out an entry nobody uses, on an open device, or 0;
    [swap_free] gives one back; neither opens or closes a device. *)
Class SwapMap (mm : Type) := {
  swap_info : mm -> list swap_info_struct;
  get_swap_page : mm -> mm * Z;
  swap_free : Z -> mm -> mm;
  in_use : mm -> Z -> bool;
  swap_room : mm -> nat;
  swap_info_length m : length (swap_info m) = MAX_SWAPFILES;
  get_swap_page_ok m m' e : get_swap_page m = (m', e) -> e <> 0 ->
    0 < e < 2 ^ 64 /\ (0 <= swp_type e < Z.of_nat MAX_SWAPFILES) /\ in_use m e = false /\
    (forall x, in_use m' x = bool_decide (x = e) || in_use m x) /\
    (swap_room m' < swap_room m)%nat;
  get_swap_page_none m m' : get_swap_page m = (m', 0) -> forall x, in_use m' x = in_use m x;
  swap_free_ok m e x : in_use (swap_free e m) x = in_use m x && negb (bool_decide (x = e));
  get_swap_page_devices m m' e : get_swap_page m = (m', e) ->
    map si_device (swap_info m') = map si_device (swap_info m);
  get_swap_page_live m m' e : get_swap_page m = (m', e) -> e <> 0 -> live (swap_info m) e = true;
  swap_free_devices m e : map si_device (swap_info (swap_free e m)) = map si_device (swap_info m)
}.

(** A swap map with a list of free entries, the simplest model of the
    contract. *)
Record plain_map := PlainMap {
  pm_info : list swap_info_struct;
  pm_free : list Z;
  pm_used : list Z
}.

Definition null_swap_info : swap_info_struct := SwapInfo 0 false false false 0 0 0.

Definition plain_info (m : plain_map) : list swap_info_struct :=
  take MAX_SWAPFILES (pm_info m ++ repeat null_swap_info MAX_SWAPFILES).

Lemma plain_info_length m : length (plain_info m) = MAX_SWAPFILES.
Proof. unfold plain_info. rewrite length_take, length_app, repeat_length. lia. Qed.

Definition valid_entry (infos : list swap_info_struct) (e : Z) : bool :=
  (0 <? e) && (e <? 2 ^ 64) && (swp_type e <? Z.of_nat MAX_SWAPFILES) && live infos e.

Fixpoint take_free (infos : list swap_info_struct) (free used : list Z) : list Z * list Z * Z :=
  match free with
  | [] => ([], used, 0)
  | e :: free' =>
      if valid_entry infos e && negb (bool_decide (e ∈ used)) then (free', e :: used, e)
      else take_free infos free' used
  end.

Lemma take_free_ok infos free used free' used' e :
  take_free infos free used = (free', used', e) ->
  (e = 0 /\ used' = used) \/
  valid_entry infos e = true /\ (e ∉ used) /\ used' = e :: used /\ (length free' < length free)%nat.
Proof.
  revert free' used' e. induction free as [|x free IH]; intros free' used' e; cbn [take_free].
  - intros [= <- <- <-]. by left.
  - destruct (valid_entry infos x) eqn:Hv; [|intros Ht%IH; simpl; intuition lia].
    case_bool_decide; simpl; [intros Ht%IH; intuition lia|].
    intros [= <- <- <-]. right. split_and!; auto.
Qed.

Definition plain_get (m : plain_map) : plain_map * Z :=
  match take_free (plain_info m) (pm_free m) (pm_used m) with
  | (free, used, e) => (PlainMap (pm_info m) free used, e)
  end.

Definition plain_free (e : Z) (m : plain_map) : plain_map :=
  PlainMap (pm_info m) (pm_free m ++ [e]) (filter (fun x => x <> e) (pm_used m)).

#[export] Instance plain_swap_map : SwapMap plain_map.
Proof.
  refine {| swap_info := plain_info; get_swap_page := plain_get; swap_free := plain_free;
            in_use m e := bool_decide (e ∈ pm_used m); swap_room m := length (pm_free m);
            swap_info_length := plain_info_length |}; unfold plain_get.
  - intros m m' e. destruct (take_free (plain_info m) (pm_free m) (pm_used m)) as [[f u] x] eqn:Ht.
    intros [= <- ->] Hne.
    destruct (take_free_ok _ _ _ _ _ _ Ht) as [[? _]|(Hv & Hn & -> & Hl)]; [done|].
    unfold valid_entry in Hv. breflect. split_and!; auto.
    + unfold swp_type. by apply Z.shiftr_nonneg, Z.lt_le_incl.
    + by apply bool_decide_eq_false.
    + intros y. cbn [pm_used]. destruct (decide (y = e)) as [->|].
      * by rewrite !bool_decide_eq_true_2 by (by try left).
      * rewrite (bool_decide_eq_false_2 (y = e)) by done. apply bool_decide_ext.
        rewrite elem_of_cons. naive_solver.
  - intros m m'. destruct (take_free (plain_info m) (pm_free m) (pm_used m)) as [[f u] x] eqn:Ht.
    intros [= <- ->] y. by destruct (take_free_ok _ _ _ _ _ _ Ht) as [[_ ->]|(Hv & _)].
  - intros m e x. cbn [plain_free pm_used]. destruct (decide (x = e)) as [->|].
    + rewrite (bool_decide_eq_true_2 (e = e)) by done. rewrite andb_false_r.
      apply bool_decide_eq_false. rewrite list_elem_of_filter. naive_solver.
    + rewrite (bool_decide_eq_false_2 (x = e)), andb_true_r by done. apply bool_decide_ext.
      rewrite list_elem_of_filter. naive_solver.
  - intros m m' e. destruct (take_free (plain_info m) (pm_free m) (pm_used m)) as [[f u] x]. by intros [= <- _].
  - intros m m' e. destruct (take_free (plain_info m) (pm_free m) (pm_used m)) as [[f u] x] eqn:Ht.
    intros [= <- ->] Hne.
    destruct (take_free_ok _ _ _ _ _ _ Ht) as [[? _]|(Hv & _)]; [done|].
    unfold valid_entry in Hv. by breflect.
  - done.
Defined.

(** What the allocator asks of the rest of the kernel: where a swap page is
    on its device, device lookup and [swapon]. *)
Record swap_env (mm : Type) := SwapEnv {
  map_swap_page : Z -> Z -> Z;
  open_by_devnum : Z -> Z;
  name_to_dev_t : list Z -> Z;
  file_rdev : list Z -> option Z;
  sys_swapon : list Z -> mm -> mm * Z;
  sys_swapoff : list Z -> mm -> mm;
  toi_swapops : nat
}.
Arguments map_swap_page {mm}. Arguments open_by_devnum {mm}. Arguments name_to_dev_t {mm}.
Arguments file_rdev {mm}. Arguments sys_swapon {mm}.
Arguments sys_swapoff {mm}. Arguments toi_swapops {mm}.

(** ** State *)

Record swap_state (mm : Type) := SwapState {
  bio : bio_state;
  swap_mm : mm;
  current_signature_page : option page;
  no_image_signature_contents : list Z;
  swapextents : hibernate_extent_chain;
  header_dev_t : Z;
  header_block_device : Z;
  headerblock : Z;
  swapfilename : list Z;
  toi_swapon_status : bool;
  header_pages_reserved : Z;
  swap_pages_allocated : Z;
  resume_firstblock : Z;
  resume_swap_dev_t : Z;
  resume_block_device : Z;
  bdevs_opened : list (option (Z * Z));   (* device number and device *)
  bdev_refs : list Z;                     (* references held on devices *)
  toi_state : Z;
  nr_hibernates : Z
}.
Arguments SwapState {mm}.
Arguments bio {mm}. Arguments swap_mm {mm}. Arguments current_signature_page {mm}.
Arguments no_image_signature_contents {mm}. Arguments swapextents {mm}.
Arguments header_dev_t {mm}. Arguments header_block_device {mm}. Arguments headerblock {mm}.
Arguments swapfilename {mm}. Arguments toi_swapon_status {mm}.
Arguments header_pages_reserved {mm}. Arguments swap_pages_allocated {mm}.
Arguments resume_firstblock {mm}. Arguments resume_swap_dev_t {mm}.
Arguments resume_block_device {mm}. Arguments bdevs_opened {mm}. Arguments bdev_refs {mm}.
Arguments toi_state {mm}. Arguments nr_hibernates {mm}.

#[export] Instance swap_state_eta {mm} : Eta (swap_state mm) := fun s =>
  SwapState (bio s) (swap_mm s) (current_signature_page s) (no_image_signature_contents s)
    (swapextents s) (header_dev_t s) (header_block_device s) (headerblock s) (swapfilename s)
    (toi_swapon_status s) (header_pages_reserved s) (swap_pages_allocated s)
    (resume_firstblock s) (resume_swap_dev_t s) (resume_block_device s) (bdevs_opened s)
    (bdev_refs s) (toi_state s) (nr_hibernates s).

Definition in_bio {mm A} (m : M bio_state A) : M (swap_state mm) A := fun s =>
  match m (bio s) with
  | Some (b, a) => Some (s {{ bio := b }}, a)
  | None => None
  end.

Definition in_mm {mm} (f : mm -> mm) : M (swap_state mm) unit :=
  modify (fun s => s {{ swap_mm := f (swap_mm s) }}).

(** [to_add]: the range gathered per swap device but not yet in
    [swapextents], or nothing. *)
Abbreviation ranges := (list (option (Z * Z))).

Section Operations.
Context {mm : Type} `{SwapMap mm} (env : swap_env mm).
Abbreviation st := (swap_state mm).

(** ** Devices *)

Definition close_bdev (i : nat) : M st unit := fun s =>
  match bdevs_opened s !! i with
  | None => None
  | Some None => Some (s, tt)
  | Some (Some (_, b)) =>
      Some (s {{ bdev_refs := remove_one b (bdev_refs s);
                 bdevs_opened := <[i := None]> (bdevs_opened s) }}, tt)
  end.

Fixpoint close_from (i n : nat) : M st unit :=
  match n with
  | O => ret tt
  | S n' => close_bdev i;;; close_from (S i) n'
  end.

Definition close_bdevs : M st unit :=
  close_from 0 (MAX_SWAPFILES + 2);;;
  modify (fun s => s {{ resume_block_device := 0; header_block_device := 0 }}).

Definition open_new_bdev (index : nat) (device : Z) : M st Z :=
  let b := open_by_devnum env device in
  if IS_ERR b || (b =? 0) then ret (- EINVAL)
  else
    ok <-- in_bio toi_kzalloc;;
    if ok : bool then
      modify (fun s => s {{ bdev_refs := b :: bdev_refs s;
                            bdevs_opened := <[index := Some (device, b)]> (bdevs_opened s) }});;;
      ret b
    else ret (- ENOMEM).

Definition open_bdev (index : nat) (device : Z) : M st Z := fun s =>
  match bdevs_opened s !! index with
  | None => None
  | Some None => open_new_bdev index device s
  | Some (Some (d, b)) =>
      if d =? device then Some (s, b)
      else (close_bdev index;;; open_new_bdev index device) s
  end.

Definition enable_swapfile : M st unit := fun s =>
  match swapfilename s with
  | [] => Some (s, tt)
  | name =>
      let '(m, r) := sys_swapon env name (swap_mm s) in
      Some (if r =? 0 then s {{ swap_mm := m; toi_swapon_status := true }}
            else s {{ swap_mm := m }}, tt)
  end.

Definition disable_swapfile : M st unit := fun s =>
  if toi_swapon_status s
  then Some (s {{ swap_mm := sys_swapoff env (swapfilename s) (swap_mm s);
                  toi_swapon_status := false }}, tt)
  else Some (s, tt).

Definition try_to_parse_resume_device (commandline : list Z) : M st Z :=
  let named := name_to_dev_t env commandline in
  let d := if named =? 0 then default 0 (file_rdev env commandline) else named in
  modify (fun s => s {{ resume_swap_dev_t := d }});;;
  if d =? 0 then ret 1
  else
    b <-- open_bdev MAX_SWAPFILES d;;
    modify (fun s => s {{ resume_block_device := b }});;;
    ret (if IS_ERR b then 1 else 0).

Definition toi_swap_noresume_reset : M st unit :=
  in_bio (toi_rw_cleanup READ);;;
  in_bio (toi_set_devinfo (repeat null_bdev_info MAX_SWAPFILES)).

(** ** The signature page *)

(** [struct sig_data]: device at 0, sector at 8, resume_attempted at 16,
    orig_sig_type at 20. *)
Definition sizeof_sig_data : nat := 24.
Definition sig_device (p : page) : Z := le_val (take 4 p).
Definition sig_sector (p : page) : Z := le_val (take 8 (drop 8 p)).
Definition sig_resume_attempted (p : page) : Z := s32 (le_val (take 4 (drop 16 p))).
Definition sig_orig_sig_type (p : page) : Z := s32 (le_val (take 4 (drop 20 p))).

Definition set_sig_device (v : Z) (p : page) : page := splice p 0 (le_bytes 4 v).
Definition set_sig_sector (v : Z) (p : page) : page := splice p 8 (le_bytes 8 v).
Definition set_resume_attempted (v : Z) (p : page) : page := splice p 16 (le_bytes 4 v).
Definition set_orig_sig_type (v : Z) (p : page) : page := splice p 20 (le_bytes 4 v).

(** [swh.magic.magic], the last ten bytes. *)
Definition magic_offset : nat := 4086.
Definition magic (p : page) : list Z := drop magic_offset p.
Definition set_magic (bs : list Z) (p : page) : page := splice p magic_offset bs.

Definition sigs : list (list Z) :=
  [bytes_of "SWAP-SPACE"; bytes_of "SWAPSPACE2"; bytes_of "S1SUSP"; bytes_of "S2SUSP";
   bytes_of "S1SUSPEND"].

Fixpoint sig_type (l : list (list Z)) (type : Z) (header : list Z) : option Z :=
  match l with
  | [] => None
  | sig :: l' => if starts_with sig header then Some type else sig_type l' (type + 1) header
  end.

(** A transfer on a null or error pointer crashes. *)
Definition bdev_page_io (writing : bool) (b pos : Z) (p : page) : M st (page * Z) :=
  if b <=? 0 then bug else in_bio (toi_bdev_page_io writing b pos p).

Definition get_current_signature : M st Z :=
  cur <-- get current_signature_page;;
  p <-- (match cur with Some p => ret (Some p) | None => in_bio toi_get_zeroed_page end);;
  match p with
  | None => ret (- ENOMEM)
  | Some p =>
      s <-- get (fun s => s);;
      r <-- bdev_page_io READ (resume_block_device s) (resume_firstblock s) p;;
      modify (fun s => s {{ current_signature_page := Some (fst r) }});;;
      ret (snd r)
  end.

Definition parse_signature : M st Z :=
  result <-- get_current_signature;;
  or_return result (fun s =>
    match current_signature_page s with
    | None => None
    | Some p =>
        match sig_type sigs 0 (magic p) with
        | Some type => Some (s, type)
        | None =>
            if starts_with tuxonice_signature (magic p) then
              let w := clear_toi_state TOI_RESUMED_BEFORE (toi_state s) in
              Some (s {{ header_dev_t := sig_device p;
                         toi_state := if sig_resume_attempted p =? 0 then w
                                      else set_toi_state TOI_RESUMED_BEFORE w;
                         headerblock := sig_sector p }}, 10)
            else Some (s, -1)
        end
    end).

Definition forget_signatures : M st unit :=
  modify (fun s => s {{ current_signature_page := None }}).

Inductive signature_change := IMAGE_SIGNATURE | NO_IMAGE_SIGNATURE | TRIED_RESUME | NO_TRIED_RESUME.

(** The details of the header's first page go into the signature. *)
Definition image_signature (p : page) : M st page :=
  modify (fun s => s {{ no_image_signature_contents := take sizeof_sig_data p;
    bio := (bio s) {{ toi_writer_posn := toi_extent_state_goto_start (toi_writer_posn (bio s)) }} }});;;
  _ <-- in_bio (go_next_page WRITE true);;
  s <-- get (fun s => s);;
  let posn := toi_writer_posn (bio s) in
  match (if current_chain posn <? 0 then None
         else swap_info (swap_mm s) !! Z.to_nat (current_chain posn)) with
  | None => bug
  | Some si =>
      if si_bdev si <=? 0 then bug
      else
        let p := set_resume_attempted 0 (set_sig_sector (current_offset posn)
                   (set_sig_device (si_bdev si) p)) in
        type <-- parse_signature;;
        ret (set_magic tuxonice_signature (set_orig_sig_type type p))
  end.

Definition write_modified_signature (modification : signature_change) : M st Z :=
  result <-- get_current_signature;;
  or_return result (
    new <-- in_bio toi_get_zeroed_page;;
    cur <-- get current_signature_page;;
    match new, cur with
    | None, _ => ret (- ENOMEM)
    | Some _, None => bug
    | Some _, Some p =>
        p' <-- (match modification with
                | IMAGE_SIGNATURE => image_signature p
                | NO_IMAGE_SIGNATURE =>
                    orig <-- get no_image_signature_contents;;
                    ret (splice (set_magic (bytes_of (if sig_orig_sig_type p =? 0
                           then "SWAP-SPACE" else "SWAPSPACE2")) p) 0 orig)
                | TRIED_RESUME => ret (set_resume_attempted 1 p)
                | NO_TRIED_RESUME => ret (set_resume_attempted 0 p)
                end);;
        s <-- get (fun s => s);;
        r <-- bdev_page_io WRITE (resume_block_device s) (resume_firstblock s) p';;
        modify (fun s => s {{ current_signature_page := Some p' }});;;
        ret (snd r)
    end).

(** ** Header space and block chains *)

Definition apply_header_reservation : M st Z :=
  n <-- get header_pages_reserved;;
  in_bio (reserve_pages (Z.to_nat n)).

Definition toi_swap_reserve_header_space (request : Z) : M st unit :=
  modify (fun s => s {{ header_pages_reserved := request }}).

Definition free_block_chains : M bio_state unit :=
  modify (fun b => set_block_chain
    (map (fun c => match chain_exts c with [] => c | _ => toi_put_extent_chain c end)
         (block_chain b)) b).

Definition add_blocks_to_extent_chain (chain start end_ : Z) : M bio_state Z := fun b =>
  match (if chain <? 0 then None else block_chain b !! Z.to_nat chain) with
  | None => None
  | Some c =>
      (ok <-- toi_kzalloc;;
       let '(c', r) := toi_add_to_extent_chain ok c (u64 start) (u64 end_) in
       modify (fun b => set_block_chain (<[Z.to_nat chain := c']> (block_chain b)) b);;;
       if r =? 0 then ret 0 else free_block_chains;;; ret (- ENOMEM)) b
  end.

(** The locals [extent_min], [extent_max] and [last_chain], all [int]. *)
Record run := Run { extent_min : Z; extent_max : Z; last_chain : Z }.

Definition flush_run (r : run) : M bio_state Z :=
  if -1 <? extent_min r
  then add_blocks_to_extent_chain (last_chain r) (extent_min r) (extent_max r)
  else ret 0.

(** One round of the loop of [get_main_pool_phys_params]. *)
Definition extend_run (address : Z) (r : run) : M bio_state (run * Z) := fun b =>
  let swapfilenum := swp_type address in
  let new_sector := map_swap_page env swapfilenum (swp_offset address) in
  match toi_devinfo b !! Z.to_nat swapfilenum with
  | None => None
  | Some d =>
      if ignored d then Some (b, (r, 0))
      else if (new_sector =? u64 (s32 (extent_max r + 1))) && (u32 (last_chain r) =? swapfilenum)
      then Some (b, (Run (extent_min r) (s32 (extent_max r + 1)) (last_chain r), 0))
      else
        (res <-- flush_run r;;
         ret (if res =? 0 then Run (s32 new_sector) (s32 new_sector) (s32 swapfilenum) else r,
              if res =? 0 then 0 else - ENOMEM)) b
  end.

Fixpoint extend_runs (l : list Z) (r : run) : M bio_state Z :=
  match l with
  | [] => res <-- flush_run r;; ret (if res =? 0 then 0 else - ENOMEM)
  | a :: l' =>
      x <-- extend_run a r;;
      or_return (snd x) (extend_runs l' (fst x))
  end.

Definition get_main_pool_phys_params : M st Z :=
  in_bio free_block_chains;;;
  c <-- get swapextents;;
  match chain_values c with
  | None => bug
  | Some l =>
      r <-- in_bio (extend_runs l (Run (-1) (-1) (-1)));;
      or_return r apply_header_reservation
  end.

(** ** Storage accounting *)

Definition toi_swap_storage_allocated (s : st) : Z :=
  s32 (raw_to_real (swap_pages_allocated s - header_pages_reserved s)).

(** The free pages of swap that is not backed by RAM ([freeswap]). *)
Definition si_swapinfo_no_compcache (s : st) : Z :=
  foldl (fun free si => if si_writeok si && negb (si_ram si)
                        then u64 (free + u32 (si_pages si - si_inuse si)) else free)
        0 (swap_info (swap_mm s)).

Definition toi_swap_storage_available (s : st) : Z :=
  s32 (raw_to_real (s64 (si_swapinfo_no_compcache s) + swap_pages_allocated s - header_pages_reserved s)).

Definition toi_swap_initialise (starting_cycle : bool) : M st Z :=
  if negb starting_cycle then ret 0
  else
    enable_swapfile;;;
    s <-- get (fun s => s);;
    if negb (resume_swap_dev_t s =? 0) && (resume_block_device s =? 0) then
      b <-- open_bdev MAX_SWAPFILES (resume_swap_dev_t s);;
      modify (fun s => s {{ resume_block_device := b }});;;
      ret (if IS_ERR b then 1 else 0)
    else ret 0.

Definition toi_swap_cleanup (ending_cycle : bool) : M st unit :=
  (if ending_cycle then disable_swapfile else ret tt);;;
  close_bdevs;;;
  forget_signatures.

(** ** Taking and returning swap *)

Definition free_entries (l : list Z) (m : mm) : mm := foldl (fun m e => swap_free e m) m l.

Definition toi_swap_release_storage : M st Z :=
  modify (fun s => s {{ header_pages_reserved := 0; swap_pages_allocated := 0 }});;;
  c <-- get swapextents;;
  match chain_exts c with
  | [] => ret 0
  | _ =>
      match chain_values c with
      | None => bug
      | Some l =>
          in_mm (free_entries l);;;
          modify (fun s => s {{ swapextents := toi_put_extent_chain c }});;;
          in_bio free_block_chains;;;
          ret 0
      end
  end.

(** [for (j = min; j <= max; j++)] with an [int] counter: the comparison
    is between unsigned longs. *)
Fixpoint free_range_loop (fuel : nat) (j max : Z) (m : mm) : mm :=
  match fuel with
  | O => m
  | S fuel' =>
      if u64 j <=? max then free_range_loop fuel' (s32 (j + 1)) max (swap_free (u64 j) m) else m
  end.

(** An [int] takes at most 2^32 values before it repeats one. *)
Definition free_swap_range (min max : Z) (m : mm) : mm :=
  free_range_loop (Z.to_nat (2 ^ 32)) (s32 min) max m.

(** The device table is refreshed from the swap devices before allocating. *)
Definition refresh_devinfo (si : swap_info_struct) (d : toi_bdev_info) : toi_bdev_info :=
  if si_bdev si =? 0 then d
  else if si_ram si then d {{ ignored := true }}
  else BdevInfo (si_bdev si) (si_bdev si) 3 1 false.

Definition refresh_devinfos : M st unit :=
  modify (fun s => s {{ bio := (bio s) {{ toi_devinfo :=
    zip_with refresh_devinfo (swap_info (swap_mm s)) (toi_devinfo (bio s)) }} }}).

Definition not_ignored (s : st) (i : nat) : bool :=
  match toi_devinfo (bio s) !! i with Some d => negb (ignored d) | None => true end.

Definition count_if (b : bool) (n : Z) : Z := if b then n else 0.

Definition add_swap_extent (r : Z * Z) : M st Z :=
  ok <-- in_bio toi_kzalloc;;
  c <-- get swapextents;;
  let '(c', res) := toi_add_to_extent_chain ok c (fst r) (snd r) in
  modify (fun s => s {{ swapextents := c' }});;;
  ret res.

(** The loop of [toi_swap_allocate_storage]. *)
Fixpoint get_swap_pages (fuel : nat) (pages_to_get : Z) (to_add : ranges) (gotten : Z)
    : M st (ranges * Z) :=
  match fuel with
  | O => bug
  | S fuel' => fun s =>
      if gotten <? pages_to_get then
        let '(m, entry) := get_swap_page (swap_mm s) in
        let s := s {{ swap_mm := m }} in
        let i := Z.to_nat (swp_type entry) in
        if entry =? 0 then Some (s, (to_add, gotten))
        else
          match to_add !! i with
          | None => None
          | Some None =>
              get_swap_pages fuel' pages_to_get (<[i := Some (entry, entry)]> to_add)
                (gotten + count_if (not_ignored s i) 1) s
          | Some (Some (lo, hi)) =>
              if entry =? u64 (hi + 1) then
                get_swap_pages fuel' pages_to_get (<[i := Some (lo, entry)]> to_add)
                  (gotten + count_if (not_ignored s i) 1) s
              else
                (res <-- add_swap_extent (lo, hi);;
                 if res =? 0 then
                   get_swap_pages fuel' pages_to_get (<[i := Some (entry, entry)]> to_add)
                     (gotten + count_if (not_ignored s i) 1)
                 else
                   in_mm (free_swap_range lo hi);;;
                   in_mm (swap_free entry);;;
                   ret (<[i := None]> to_add,
                        s32 (gotten - count_if (not_ignored s i) (hi - lo + 1)))) s
          end
      else Some (s, (to_add, gotten))
  end.

(** The ranges still held are added; the first failure stops. *)
Fixpoint add_ranges (i : nat) (to_add : ranges) (gotten : Z) : M st Z :=
  match to_add with
  | [] => ret gotten
  | None :: l => add_ranges (S i) l gotten
  | Some (lo, hi) :: l =>
      res <-- add_swap_extent (lo, hi);;
      if res =? 0 then add_ranges (S i) l gotten
      else
        in_mm (free_swap_range lo hi);;;
        s <-- get (fun s => s);;
        ret (s32 (gotten - count_if (not_ignored s i) (hi - lo + 1)))
  end.

Definition pages_wanted (s : st) (request : Z) : Z :=
  let extra_pages := s32 (u64 (u64 (request * (sizeof_long + sizeof_int)) + PAGE_SIZE - 1) / PAGE_SIZE) in
  s32 (request + extra_pages - chain_size (swapextents s) + header_pages_reserved s).

Definition toi_swap_allocate_storage (request : Z) : M st Z := fun s =>
  let pages_to_get := pages_wanted s request in
  if pages_to_get <? 1 then apply_header_reservation s
  else
    (refresh_devinfos;;;
     x <-- get_swap_pages (S (swap_room (swap_mm s))) pages_to_get (repeat None MAX_SWAPFILES) 0;;
     gotten <-- add_ranges 0 (fst x) (snd x);;
     modify (fun s => s {{ swap_pages_allocated := swap_pages_allocated s + gotten }});;;
     result2 <-- get_main_pool_phys_params;;
     ret (if gotten <? pages_to_get then - ENOSPC else result2)) s.

(** ** The image header *)

Definition refresh_dev_t (si : swap_info_struct) (d : toi_bdev_info) : toi_bdev_info :=
  d {{ dev_t := if si_file si then si_bdev si else 0 }}.

Definition rw_header_chunk (bs : list Z) : M st Z :=
  in_bio (_toi_rw_header_chunk_write (Some (toi_swapops env)) bs).

(** The results of the serialisations are ignored. *)
Fixpoint serialise_block_chains (l : list hibernate_extent_chain) : M bio_state unit :=
  match l with
  | [] => ret tt
  | c :: l' => _ <-- serialise_block_chain (Some (toi_swapops env)) c;; serialise_block_chains l'
  end.

Definition toi_swap_write_header_init : M st Z :=
  _ <-- in_bio (toi_rw_init WRITE 0);;
  in_bio (modify (fun b => b {{ toi_writer_buffer_posn := 0 }}));;;
  contents <-- get no_image_signature_contents;;
  result <-- rw_header_chunk contents;;
  or_return result (
    modify (fun s => s {{ bio := (bio s) {{ toi_devinfo :=
      zip_with refresh_dev_t (swap_info (swap_mm s)) (toi_devinfo (bio s)) }} }});;;
    saves <-- get (fun s => toi_writer_posn_save (bio s));;
    result <-- rw_header_chunk (flat_map saved_state_bytes saves);;
    or_return result (
      devs <-- get (fun s => toi_devinfo (bio s));;
      result <-- rw_header_chunk (flat_map bdev_info_bytes devs);;
      or_return result (
        chains <-- get (fun s => block_chain (bio s));;
        in_bio (serialise_block_chains chains);;;
        ret 0))).

Definition toi_swap_write_header_cleanup : M st Z :=
  result <-- in_bio write_header_chunk_finish;;
  or_return result (write_modified_signature IMAGE_SIGNATURE).

(** Opening the devices of the image, whose old pointers are dropped; [i] is
    the first of [n] entries. *)
Fixpoint restore_bdevs (i n : nat) : M st Z :=
  match n with
  | O => ret 0
  | S n' => fun s =>
      match toi_devinfo (bio s) !! i with
      | None => None
      | Some d =>
          let set b s := s {{ bio := (bio s) {{ toi_devinfo :=
            alter (fun d => d {{ bdev := b }}) i (toi_devinfo (bio s)) }} }} in
          let s := set 0 s in
          if (dev_t d =? 0) || ignored d then restore_bdevs (S i) n' s
          else if dev_t d =? resume_swap_dev_t s then
            restore_bdevs (S i) n' (set (resume_block_device s) s)
          else if dev_t d =? header_dev_t s then
            restore_bdevs (S i) n' (set (header_block_device s) s)
          else
            (b <-- open_bdev i (dev_t d);;
             if IS_ERR b then ret b
             else modify (set b);;; restore_bdevs (S i) n') s
      end
  end.

Fixpoint load_block_chains (i n : nat) : M bio_state Z :=
  match n with
  | O => ret 0
  | S n' => r <-- load_block_chain i;; or_return r (load_block_chains (S i) n')
  end.

Definition sizeof_devinfo : nat := (24 * MAX_SWAPFILES)%nat.

(** The bootstrap data at the start of the header's first page. *)
Definition bootstrap (buf : page) (s : st) : st :=
  let rest := drop sizeof_sig_data buf in
  s {{ no_image_signature_contents := take sizeof_sig_data buf;
       bio := (bio s) {{ toi_writer_buffer := Some buf;
                         toi_writer_posn_save := chunks decode_saved_state 16 4 rest;
                         toi_devinfo := chunks decode_bdev_info 24 MAX_SWAPFILES (drop sizeof_saves rest);
                         toi_writer_buffer_posn :=
                           Z.of_nat (sizeof_sig_data + sizeof_saves + sizeof_devinfo) }} }}.

Definition toi_swap_read_header_init : M st Z :=
  in_bio (modify (fun b => b {{ toi_writer_buffer_posn := 0 }}));;;
  s <-- get (fun s => s);;
  if header_dev_t s =? 0 then ret (- EINVAL)
  else
    b <-- (if header_dev_t s =? resume_swap_dev_t s then ret (resume_block_device s)
           else open_bdev (MAX_SWAPFILES + 1) (header_dev_t s));;
    modify (fun s => s {{ header_block_device := b }});;;
    if negb (header_dev_t s =? resume_swap_dev_t s) && IS_ERR b then ret b
    else
      in_bio toi_read_header_init;;;
      buf <-- get (fun s => toi_writer_buffer (bio s));;
      match buf with
      | None => bug
      | Some buf =>
          r <-- bdev_page_io READ b (Z.shiftl (headerblock s) 3) buf;;
          or_return (snd r) (
            modify (bootstrap (fst r));;;
            result <-- restore_bdevs 0 MAX_SWAPFILES;;
            or_return result (in_bio (
              modify (fun b => b {{ toi_writer_posn := toi_extent_state_goto_start (toi_writer_posn b) }});;;
              set_extra_page_forward;;;
              load_block_chains 0 MAX_SWAPFILES)))
      end.

Definition toi_swap_read_header_cleanup : M st Z :=
  _ <-- in_bio (toi_rw_cleanup READ);; ret 0.

Definition toi_swap_memory_needed : Z := 1.

Definition toi_swap_storage_needed (s : st) : Z :=
  foldl (fun result c => s32 (s32 (result + 2 * sizeof_int) + 2 * sizeof_long * num_extents c))
    (Z.of_nat (sizeof_sig_data + sizeof_saves + sizeof_devinfo)) (block_chain (bio s)).

(** ** Is there an image? *)

(** -1 is "don't know". *)
Definition toi_swap_image_exists : M st Z :=
  s <-- get (fun s => s);;
  if resume_swap_dev_t s =? 0 then ret (-1)
  else
    b <-- (if resume_block_device s =? 0 then
             b <-- open_bdev MAX_SWAPFILES (resume_swap_dev_t s);;
             modify (fun s => s {{ resume_block_device := b }});;; ret b
           else ret 1);;
    if IS_ERR b then ret (-1)
    else
      signature_found <-- parse_signature;;
      ret (if (signature_found =? - ENOMEM) || (signature_found =? -1) then -1
           else if signature_found =? 10 then 1
           else 0).

Definition toi_swap_remove_image : M st Z :=
  n <-- get nr_hibernates;;
  _ <-- (if n =? 0 then ret 0 else toi_swap_release_storage);;
  exists_ <-- toi_swap_image_exists;;
  if exists_ =? 0 then ret 0 else write_modified_signature NO_IMAGE_SIGNATURE.

Definition toi_swap_mark_resume_attempted (mark : bool) : M st Z :=
  d <-- get resume_swap_dev_t;;
  if d =? 0 then ret (- ENODEV)
  else write_modified_signature (if mark then TRIED_RESUME else NO_TRIED_RESUME).

(** ** The resume= parameter *)

Definition toi_swap_parse_sig_location (commandline : list Z) : M st Z :=
  let is_swap := starts_with (bytes_of "swap:") commandline in
  if negb is_swap && negb (starts_with (bytes_of "/dev/") commandline) then ret 1
  else
    let commandline := if is_swap then drop 5 commandline else commandline in
    let '(devstart, firstblock) := split_colon 250 [] commandline in
    let block := match firstblock with
                 | None => Some 0
                 | Some t => s32 <$> strict_strtoul t 0
                 end in
    modify (fun s => s {{ resume_firstblock := default (resume_firstblock s) (u64 <$> block);
      toi_state := clear_toi_state TOI_CAN_RESUME (clear_toi_state TOI_CAN_HIBERNATE (toi_state s)) }});;;
    temp_result <-- (match block with
                     | None => ret (- EINVAL)
                     | Some _ => try_to_parse_resume_device devstart
                     end);;
    if negb (temp_result =? 0) then ret (- EINVAL)
    else
      signature_found <-- toi_swap_image_exists;;
      if signature_found =? -1 then ret (- EINVAL)
      else
        modify (fun s => s {{ toi_state :=
          set_toi_state TOI_CAN_RESUME (set_toi_state TOI_CAN_HIBERNATE (toi_state s)) }});;;
        ret 0.
End Operations.
