(* ===== verification/SwapSignature.v ===== *)
(** * The swap signature page

    Marking the swap header with the image signature, recording resume
    attempts and removing the image: the page that swapon sees afterwards is
    the one that was there before. *)

From S2P Require Import Prelude HeaderStream Extents States BlockIO BlockIOFacts BlockIORead AllocatorIO AllocatorFacts SwapStorage.
From stdpp Require Import numbers base list strings.
#[local] Open Scope Z_scope.
#[local] Arguments Z.to_nat : simpl never.
#[local] Arguments Nat.mul : simpl never.

(** ** Image pages *)

(** [Q] is the header page [P] of swap format [k] marked with an image whose
    header starts at sector [o] of device [d]. *)
Record img_page (P : page) (k d o a : Z) (Q : page) : Prop := {
  ip_full : full_page Q;
  ip_magic : take 8 (magic Q) = tuxonice_signature;
  ip_device : sig_device Q = d;
  ip_sector : sig_sector Q = o;
  ip_tried : sig_resume_attempted Q = a;
  ip_type : sig_orig_sig_type Q = k;
  ip_middle : forall i, (24 <= i < magic_offset)%nat -> Q !! i = P !! i
}.

(** A page of swap space in the old ([k = 0]) or new ([k = 1]) format. *)
Definition swap_page (P : page) (k : Z) : Prop :=
  full_page P /\ (k = 0 /\ magic P = bytes_of "SWAP-SPACE" \/ k = 1 /\ magic P = bytes_of "SWAPSPACE2").

Lemma page_length (p : page) : full_page p -> length p = (magic_offset + 10)%nat.
Proof. unfold full_page. intros ->. reflexivity. Qed.

Lemma magic_after_sig : (24 <= magic_offset)%nat.
Proof. unfold magic_offset. lia. Qed.

Ltac page_size :=
  repeat rewrite splice_length; rewrite ?length_le_bytes;
  try change (length tuxonice_signature) with 8%nat;
  pose proof magic_after_sig; lia.

Lemma mark_image P k d o :
  swap_page P k -> 0 <= d < 2 ^ 32 -> 0 <= o < 2 ^ 64 ->
  img_page P k d o 0
    (set_magic tuxonice_signature (set_orig_sig_type k
      (set_resume_attempted 0 (set_sig_sector o (set_sig_device d P))))).
Proof.
  intros [Hf Hk] Hd Ho. pose proof (page_length P Hf) as Hl.
  unfold set_magic, set_orig_sig_type, set_resume_attempted, set_sig_sector, set_sig_device.
  set (p1 := splice P 0 (le_bytes 4 d)). assert (length p1 = (magic_offset + 10)%nat) as H1 by (unfold p1; page_size).
  set (p2 := splice p1 8 (le_bytes 8 o)). assert (length p2 = (magic_offset + 10)%nat) as H2 by (unfold p2; page_size).
  set (p3 := splice p2 16 (le_bytes 4 0)). assert (length p3 = (magic_offset + 10)%nat) as H3 by (unfold p3; page_size).
  set (p4 := splice p3 20 (le_bytes 4 k)). assert (length p4 = (magic_offset + 10)%nat) as H4 by (unfold p4; page_size).
  split.
  - unfold full_page. rewrite splice_length by page_size. rewrite H4. done.
  - unfold magic. apply field_splice_same; page_size.
  - unfold sig_device. rewrite <- (drop_0 (splice _ _ _)).
    rewrite field_splice_other by page_size. unfold p4. rewrite field_splice_other by page_size.
    unfold p3. rewrite field_splice_other by page_size. unfold p2. rewrite field_splice_other by page_size.
    unfold p1. rewrite field_splice_same by page_size.
    rewrite le_val_bytes4. by apply Z.mod_small.
  - unfold sig_sector. rewrite field_splice_other by page_size. unfold p4.
    rewrite field_splice_other by page_size. unfold p3. rewrite field_splice_other by page_size.
    unfold p2. rewrite field_splice_same by page_size.
    rewrite le_val_bytes8. by apply u64_small.
  - unfold sig_resume_attempted. rewrite field_splice_other by page_size. unfold p4.
    rewrite field_splice_other by page_size. unfold p3.
    rewrite field_splice_same by page_size. done.
  - unfold sig_orig_sig_type. rewrite field_splice_other by page_size. unfold p4.
    rewrite field_splice_same by page_size.
    destruct Hk as [[-> _]|[-> _]]; done.
  - intros i Hi. rewrite splice_lookup_out by page_size. unfold p4, p3, p2, p1.
    rewrite !splice_lookup_out by page_size. done.
Qed.

Lemma mark_tried P k d o a a' Q :
  img_page P k d o a Q -> (a' = 0 \/ a' = 1) -> img_page P k d o a' (set_resume_attempted a' Q).
Proof.
  intros [Hf Hm Hd Ho Ha Ht Hmid] Ha'. pose proof (page_length Q Hf) as Hl.
  unfold set_resume_attempted.
  split.
  - unfold full_page. by rewrite splice_length by page_size.
  - unfold magic in *. by rewrite field_splice_other by page_size.
  - unfold sig_device in *. rewrite <- (drop_0 (splice _ _ _)).
    by rewrite field_splice_other by page_size.
  - unfold sig_sector in *. by rewrite field_splice_other by page_size.
  - unfold sig_resume_attempted. rewrite field_splice_same by page_size.
    by destruct Ha' as [-> | ->].
  - unfold sig_orig_sig_type in *. by rewrite field_splice_other by page_size.
  - intros i Hi. rewrite splice_lookup_out by page_size. by apply Hmid.
Qed.

(** The magic restored from the format, and the first bytes from the copy
    made when hibernating, give the original page. *)
Lemma restore_page P k d o a Q :
  swap_page P k -> img_page P k d o a Q ->
  splice (set_magic (bytes_of (if sig_orig_sig_type Q =? 0 then "SWAP-SPACE" else "SWAPSPACE2")) Q) 0
    (take sizeof_sig_data P) = P.
Proof.
  intros [Hf Hk] [Hfq _ _ _ _ Ht Hmid]. rewrite Ht. pose proof magic_after_sig.
  pose proof (page_length P Hf) as Hp. pose proof (page_length Q Hfq) as Hq.
  set (sg := bytes_of _). assert (magic P = sg) as Hs by (destruct Hk as [[-> ->]|[-> ->]]; done).
  assert (length sg = 10%nat) as Hlen by (rewrite <- Hs; unfold magic; rewrite length_drop; lia).
  assert (length (take sizeof_sig_data P) = 24%nat) as H24
    by (unfold sizeof_sig_data; rewrite length_take; lia).
  assert (length (set_magic sg Q) = (magic_offset + 10)%nat) as Hsm
    by (unfold set_magic; rewrite splice_length by lia; done).
  apply list_eq. intros i. destruct (decide (i < 24)%nat).
  { rewrite splice_lookup_in by lia. rewrite Nat.sub_0_r, lookup_take_lt by (unfold sizeof_sig_data; lia). done. }
  rewrite splice_lookup_out by lia. unfold set_magic.
  destruct (decide (magic_offset <= i)%nat).
  - destruct (decide (i < magic_offset + 10)%nat); [|by rewrite !lookup_ge_None_2 by (rewrite ?splice_length; lia)].
    rewrite splice_lookup_in by lia. rewrite <- Hs. unfold magic. rewrite lookup_drop.
    f_equal. lia.
  - rewrite splice_lookup_out by lia. apply Hmid. lia.
Qed.

Lemma starts_with_eq sig h : starts_with sig h = true <-> take (length sig) h = sig.
Proof. unfold starts_with. by rewrite bool_decide_eq_true. Qed.

Lemma swap_page_type P k : swap_page P k -> sig_type sigs 0 (magic P) = Some k.
Proof. intros [_ [[-> ->]|[-> ->]]]; reflexivity. Qed.

(** The image signature is none of the known swap formats. *)
Lemma img_page_type P k d o a Q : img_page P k d o a Q ->
  sig_type sigs 0 (magic Q) = None /\ starts_with tuxonice_signature (magic Q) = true.
Proof.
  intros Hi. pose proof (ip_magic _ _ _ _ _ _ Hi) as Hm. split; [|by apply starts_with_eq].
  destruct (magic Q) as [|b h]; [done|]. injection Hm as -> _.
  unfold sigs. cbn [sig_type].
  repeat match goal with |- context [starts_with ?sg ?h] =>
    destruct (starts_with sg h) eqn:E;
    [apply starts_with_eq in E; cbn in E; discriminate E|clear E] end.
  done.
Qed.

(** ** The operations on the signature page *)

Section Signature.
Context {mm : Type} `{SwapMap mm} (env : swap_env mm).

(** The device of the signature can be read and written. *)
Record sig_io (s : swap_state mm) : Prop := {
  io_device : 0 < resume_block_device s;
  io_filter : filter_speed_test (bio s) = false;
  io_memory : memory (bio s) = []
}.

(** The signature page on disk. *)
Definition sig_on_disk (s : swap_state mm) : page :=
  disk_read (the_disk (bio s)) (resume_block_device s) (resume_firstblock s).

(** [s'] is [s] with some I/O done and the signature page in memory. *)
Definition sig_read (s s' : swap_state mm) : Prop :=
  exists n, s' = s {{ current_signature_page := Some (sig_on_disk s);
                      bio := (bio s) {{ toi_io_done := n }} }}.

Lemma bdev_page_io_read s p :
  sig_io s -> exists n, bdev_page_io READ (resume_block_device s) (resume_firstblock s) p s =
    Some (s {{ bio := (bio s) {{ toi_io_done := n }} }}, (sig_on_disk s, 0)).
Proof.
  intros [Hd Hf Hm]. exists (s32 (toi_io_done (bio s) + 1)). unfold bdev_page_io.
  rewrite (proj2 (Z.leb_gt _ _)) by done. unfold in_bio, toi_bdev_page_io, submit. simpl.
  by rewrite Hf.
Qed.

Lemma bdev_page_io_write s p :
  sig_io s -> exists n, bdev_page_io WRITE (resume_block_device s) (resume_firstblock s) p s =
    Some (s {{ bio := (bio s) {{ toi_io_done := n; the_disk :=
      disk_write (the_disk (bio s)) (resume_block_device s) (resume_firstblock s) p }} }}, (p, 0)).
Proof.
  intros [Hd Hf Hm]. exists (s32 (toi_io_done (bio s) + 1)). unfold bdev_page_io.
  rewrite (proj2 (Z.leb_gt _ _)) by done. unfold in_bio, toi_bdev_page_io, submit. simpl.
  by rewrite Hf.
Qed.

Lemma get_current_signature_spec s :
  sig_io s -> exists s', get_current_signature s = Some (s', 0) /\ sig_read s s'.
Proof.
  intros Hio. pose proof Hio as [Hd Hf Hm]. unfold get_current_signature, bind, get.
  destruct (current_signature_page s) as [p|]; cbn [ret].
  - destruct (bdev_page_io_read s p Hio) as [n Hr]. rewrite Hr. eexists. split; [done|]. by exists n.
  - unfold in_bio, toi_get_zeroed_page. rewrite Hm. simpl.
    set (s1 := s {{ bio := bio s }}).
    assert (sig_io s1) as Hio1 by by split.
    destruct (bdev_page_io_read s1 zero_page Hio1) as [n Hr].
    unfold s1 in Hr at 1 2 3. simpl in Hr. fold s1. unfold bind. rewrite Hr.
    eexists. split; [done|]. by exists n.
Qed.
Lemma sig_read_io s s' : sig_io s -> sig_read s s' -> sig_io s' /\ sig_on_disk s' = sig_on_disk s.
Proof. intros [? ? ?] [n ->]. split; [by split|done]. Qed.

Lemma sig_read_page s s' : sig_read s s' -> current_signature_page s' = Some (sig_on_disk s).
Proof. by intros [n ->]. Qed.

Lemma parse_swap_page s k :
  sig_io s -> swap_page (sig_on_disk s) k ->
  exists s', parse_signature s = Some (s', k) /\ sig_read s s'.
Proof.
  intros Hio Hp. destruct (get_current_signature_spec s Hio) as (s' & Hg & Hr). exists s'.
  split; [|done]. unfold parse_signature, bind, or_return. rewrite Hg. cbn [Z.eqb].
  by rewrite (sig_read_page _ _ Hr), (swap_page_type _ _ Hp).
Qed.

Lemma parse_img_page s P k d o a :
  sig_io s -> img_page P k d o a (sig_on_disk s) ->
  exists s1 w, parse_signature s =
      Some (s1 {{ header_dev_t := d; toi_state := w; headerblock := o }}, 10) /\
    sig_read s s1 /\ test_toi_state TOI_RESUMED_BEFORE w = negb (a =? 0).
Proof.
  intros Hio Hp. destruct (get_current_signature_spec s Hio) as (s1 & Hg & Hr).
  destruct (img_page_type _ _ _ _ _ _ Hp) as [Ht Hs]. destruct Hp as [_ _ Hd Ho Ha _ _].
  unfold parse_signature, bind, or_return. rewrite Hg. cbn [Z.eqb].
  rewrite (sig_read_page _ _ Hr), Ht, Hs, Hd, Ho, Ha.
  eexists s1, _. split_and!; [done|done|].
  destruct (a =? 0); [by rewrite test_clear_state|by rewrite test_set_state].
Qed.

(** ** An image in place *)

(** The header page [P] of [s0] carries an image in [s]; nothing else on the
    disks has changed. *)
Record imaged (s0 : swap_state mm) (P : page) (k d o a : Z) (s : swap_state mm) : Prop := {
  im_io : sig_io s;
  im_page : img_page P k d o a (sig_on_disk s);
  im_saved : no_image_signature_contents s = take sizeof_sig_data P;
  im_named : resume_swap_dev_t s <> 0;
  im_device : resume_block_device s = resume_block_device s0;
  im_firstblock : resume_firstblock s = resume_firstblock s0;
  im_frame : forall l, apart (resume_block_device s0, resume_firstblock s0) l ->
    disk_read (the_disk (bio s)) (fst l) (snd l) = disk_read (the_disk (bio s0)) (fst l) (snd l)
}.

(** [s'] is [s] with [p] written as the signature page, both on disk and in
    memory. *)
Definition sig_wrote (s : swap_state mm) (p : page) (s' : swap_state mm) : Prop :=
  exists n, s' = s {{ current_signature_page := Some p; bio := (bio s) {{ toi_io_done := n;
    the_disk := disk_write (the_disk (bio s)) (resume_block_device s) (resume_firstblock s) p }} }}.

(** The page that a modification other than marking the image writes. *)
Definition modified (change : signature_change) (contents : list Z) (p : page) : page :=
  match change with
  | IMAGE_SIGNATURE => p
  | NO_IMAGE_SIGNATURE =>
      splice (set_magic (bytes_of (if sig_orig_sig_type p =? 0
                                   then "SWAP-SPACE" else "SWAPSPACE2")) p) 0 contents
  | TRIED_RESUME => set_resume_attempted 1 p
  | NO_TRIED_RESUME => set_resume_attempted 0 p
  end.

Lemma write_modified_spec change s :
  sig_io s -> change <> IMAGE_SIGNATURE ->
  exists s', write_modified_signature change s = Some (s', 0) /\
    sig_wrote s (modified change (no_image_signature_contents s) (sig_on_disk s)) s'.
Proof.
  intros Hio Hc. destruct (get_current_signature_spec s Hio) as (s1 & Hg & Hr).
  destruct (sig_read_io _ _ Hio Hr) as [Hio1 Hd1]. pose proof (sig_read_page _ _ Hr) as Hp1.
  unfold write_modified_signature, bind, or_return. rewrite Hg. cbn [Z.eqb].
  unfold in_bio at 1, toi_get_zeroed_page. rewrite (io_memory _ Hio1).
  assert (s1 {{ bio := bio s1 }} = s1) as E by (by destruct s1). rewrite E. clear E.
  unfold get. rewrite Hp1.
  set (p' := modified change (no_image_signature_contents s) (sig_on_disk s)).
  assert (forall (m : M (swap_state mm) page), m s1 = Some (s1, p') ->
    exists s', bind m (fun p' => bind (get (fun s => s)) (fun s =>
        bind (bdev_page_io WRITE (resume_block_device s) (resume_firstblock s) p') (fun r =>
        bind (modify (fun s => s {{ current_signature_page := Some p' }})) (fun _ => ret (snd r))))) s1
      = Some (s', 0) /\ sig_wrote s p' s') as Hrest.
  { intros m Hm. unfold bind at 1. rewrite Hm. unfold bind, get.
    destruct (bdev_page_io_write s1 p' Hio1) as [n Hw]. rewrite Hw.
    eexists. split; [done|]. destruct Hr as [n0 ->]. by exists n. }
  destruct change; [done| | |]; apply Hrest; [|done..].
  unfold bind, get, ret. f_equal. f_equal. unfold p', modified. f_equal. by destruct Hr as [n0 ->].
Qed.

Lemma sig_wrote_frame s p s' :
  sig_wrote s p s' -> full_page p ->
  sig_on_disk s' = p /\
  forall l, apart (resume_block_device s, resume_firstblock s) l ->
    disk_read (the_disk (bio s')) (fst l) (snd l) = disk_read (the_disk (bio s)) (fst l) (snd l).
Proof.
  intros [n ->] Hf. split; [by apply disk_read_same|]. intros [d o] Ha. simpl.
  by apply disk_read_other.
Qed.

Lemma imaged_wrote s0 P k d o a a' s p s' :
  imaged s0 P k d o a s -> sig_wrote s p s' -> img_page P k d o a' p ->
  imaged s0 P k d o a' s'.
Proof.
  intros [[? ? ?] Hp Hs Hn Hd Hf Hfr] Hw Hip.
  destruct (sig_wrote_frame _ _ _ Hw (ip_full _ _ _ _ _ _ Hip)) as [Hp' Hfr'].
  destruct Hw as [n Hw]. split; [subst; by split|by rewrite Hp'|subst; done..|].
  intros l Ha. rewrite Hfr', Hfr by (by rewrite ?Hd, ?Hf). done.
Qed.

Lemma imaged_read s0 P k d o a s s1 w x y :
  imaged s0 P k d o a s -> sig_read s s1 ->
  imaged s0 P k d o a (s1 {{ header_dev_t := x; toi_state := w; headerblock := y }}).
Proof. intros [[? ? ?] Hp Hs Hn Hd Hf Hfr] [n ->]. by split. Qed.

Lemma imaged_mark s0 P k d o a s m :
  imaged s0 P k d o a s ->
  exists s', toi_swap_mark_resume_attempted m s = Some (s', 0) /\
    imaged s0 P k d o (if m then 1 else 0) s'.
Proof.
  intros Hi. unfold toi_swap_mark_resume_attempted, bind, get.
  rewrite (proj2 (Z.eqb_neq _ _)) by (by eapply im_named).
  destruct (write_modified_spec (if m then TRIED_RESUME else NO_TRIED_RESUME) s) as (s' & Hw & Hs);
    [apply Hi|by destruct m|].
  exists s'. split; [done|]. eapply imaged_wrote; [done..|].
  destruct m; simpl; eapply mark_tried; eauto using im_page.
Qed.

Lemma imaged_exists s0 P k d o a s :
  imaged s0 P k d o a s ->
  exists s', toi_swap_image_exists env s = Some (s', 1) /\ imaged s0 P k d o a s' /\
    header_dev_t s' = d /\ headerblock s' = o /\
    test_toi_state TOI_RESUMED_BEFORE (toi_state s') = negb (a =? 0).
Proof.
  intros Hi. destruct (parse_img_page s P k d o a) as (s1 & w & Hp & Hr & Hb); [apply Hi..|].
  pose proof (io_device _ (im_io _ _ _ _ _ _ _ Hi)).
  exists (s1 {{ header_dev_t := d; toi_state := w; headerblock := o }}).
  split_and!; [|by eapply imaged_read|done..].
  unfold toi_swap_image_exists, bind, get.
  rewrite (proj2 (Z.eqb_neq _ _)) by (by eapply im_named).
  rewrite (proj2 (Z.eqb_neq (resume_block_device s) 0)) by lia.
  unfold ret. change (IS_ERR 1) with false. cbv beta iota. by rewrite Hp.
Qed.

Lemma imaged_removed s0 P k d o a s :
  swap_page P k -> sig_on_disk s0 = P -> imaged s0 P k d o a s ->
  exists s', write_modified_signature NO_IMAGE_SIGNATURE s = Some (s', 0) /\
    forall l, l = (resume_block_device s0, resume_firstblock s0) \/
      apart (resume_block_device s0, resume_firstblock s0) l ->
      disk_read (the_disk (bio s')) (fst l) (snd l) = disk_read (the_disk (bio s0)) (fst l) (snd l).
Proof.
  intros Hp H0 Hi. destruct (write_modified_spec NO_IMAGE_SIGNATURE s) as (s' & Hw & Hs); [apply Hi|done|].
  exists s'. split; [done|]. destruct Hi as [_ Hip Hsv _ Hd Hf Hfr].
  cbn [modified] in Hs. rewrite Hsv, (restore_page P k d o a _ Hp Hip) in Hs.
  destruct (sig_wrote_frame _ _ _ Hs (proj1 Hp)) as [Hd' Hfr'].
  intros l [->|Ha]; [|by rewrite Hfr', Hfr by (by rewrite ?Hd, ?Hf)].
  cbn [fst snd]. transitivity P; [|done]. rewrite <- Hd'. unfold sig_on_disk.
  destruct Hs as [n ->]. cbn. by rewrite Hd, Hf.
Qed.

(** The header starts at sector [o] of device [d]: the first block of the
    tape, with header space reserved. *)
Record can_mark (s : swap_state mm) (d o : Z) : Prop := {
  cm_io : sig_io s;
  cm_named : resume_swap_dev_t s <> 0;
  cm_tape : wf_tape (bio s);
  cm_extra : extra_page_forward (bio s) = false;
  cm_stream : current_stream (bio s) = 0;
  cm_reserved : exists sv, toi_writer_posn_save (bio s) !! 2%nat = Some sv /\ chain_num sv <> -1;
  cm_first : exists c rest si, tape (block_chain (bio s)) = (c, o) :: rest /\
    swap_info (swap_mm s) !! Z.to_nat c = Some si /\ si_bdev si = d /\ 0 < d < 2 ^ 32
}.

Lemma go_first_page b c o rest :
  wf_tape b -> extra_page_forward b = false -> current_stream b = 0 ->
  (exists sv, toi_writer_posn_save b !! 2%nat = Some sv /\ chain_num sv <> -1) ->
  tape (block_chain b) = (c, o) :: rest ->
  exists p, go_next_page WRITE true
      (b {{ toi_writer_posn := toi_extent_state_goto_start (toi_writer_posn b) }}) =
    Some (b {{ toi_writer_posn := p }}, 0) /\ moved (toi_writer_posn b) p (c, o) rest.
Proof.
  intros Hwf Hx Hs (sv & Hsv & Hne) Ht.
  set (b1 := b {{ toi_writer_posn := _ }}).
  assert (wf_tape b1) as Hwf1.
  { destruct Hwf as [Hi]. split; auto. apply goto_start_wf, Hi. }
  destruct (advance_ok WRITE true b1 (c, o) rest Hwf1) as (p & Ha & Hm).
  - unfold next_page, view. cbn [fst snd page_cells]. change (current_chain _) with (-1). cbn [Z.eqb].
    change (rest_of (toi_writer_posn b1)) with (rest_of (toi_extent_state_goto_start (toi_writer_posn b))).
    rewrite goto_start_rest. unfold page_cells. cbn [Z.eqb]. unfold block_chain in Ht. by rewrite Ht.
  - right. left. unfold at_barrier. change (current_stream b1) with (current_stream b). rewrite Hs.
    change (toi_writer_posn_save b1) with (toi_writer_posn_save b). cbn [compare_to Z.eqb].
    rewrite Hsv. f_equal. apply andb_false_intro1. apply Z.eqb_neq. simpl. lia.
  - exists p. unfold go_next_page, bind, get, or_return. rewrite Ha. cbn [Z.eqb]. simpl. rewrite Hx. done.
Qed.

Lemma tape_block_range k cs n b :
  Forall (fun c => wf_from 0 (chain_exts c)) cs -> (n, b) ∈ tape_from k cs -> 0 <= b < 2 ^ 64.
Proof.
  intros Hwf. revert k. induction Hwf as [|c cs Hc _ IH]; intros k Hin; [by apply elem_of_nil in Hin|].
  cbn [tape_from] in *. apply elem_of_app in Hin as [Hin|Hin]; [|by eapply IH].
  apply list_elem_of_In, in_map_iff in Hin as (x & [= <- <-] & Hx%list_elem_of_In).
  unfold chain_blocks, exts_blocks in Hx.
  apply list_elem_of_In, in_flat_map in Hx as (e & He & Hx).
  apply list_elem_of_In in He. apply list_elem_of_In in Hx.
  destruct (wf_from_elem _ _ _ Hc He). unfold ext_blocks, ext_len in Hx. apply elem_of_seqZ in Hx. lia.
Qed.

(** What marking the image changes besides the signature page. *)
Lemma image_signature_spec s P k d o :
  sig_on_disk s = P -> swap_page P k -> can_mark s d o ->
  exists s' p', image_signature P s = Some (s', p') /\ img_page P k d o 0 p' /\
    sig_io s' /\ the_disk (bio s') = the_disk (bio s) /\
    resume_block_device s' = resume_block_device s /\ resume_firstblock s' = resume_firstblock s /\
    resume_swap_dev_t s' = resume_swap_dev_t s /\
    no_image_signature_contents s' = take sizeof_sig_data P.
Proof.
  intros HP Hp [[Hd0 Hf Hm] Hn Hwf Hx Hst Hres (c & rest & si & Ht & Hsi & Hd & Hr)].
  destruct (go_first_page _ _ _ _ Hwf Hx Hst Hres Ht) as (q & Hq & (_ & _ & Hqc & Hqo & _)).
  cbn [fst snd] in *.
  assert (0 <= c) as Hc by (apply (tape_from_chain 0 (block_chain (bio s)) c o); fold (tape (block_chain (bio s))); rewrite Ht; by left).
  assert (0 <= o < 2 ^ 64) as Ho.
  { apply (tape_block_range 0 (block_chain (bio s)) c); [apply (wt_iter _ Hwf)|].
    fold (tape (block_chain (bio s))). rewrite Ht. by left. }
  set (s1 := s {{ no_image_signature_contents := take sizeof_sig_data P;
                  bio := (bio s) {{ toi_writer_posn := q }} }}).
  assert (sig_io s1) as Hio1 by by split.
  destruct (parse_swap_page s1 k Hio1) as (s2 & Hps & Hr2); [by rewrite <- HP in Hp|].
  destruct (sig_read_io _ _ Hio1 Hr2) as [Hio2 _].
  exists s2, (set_magic tuxonice_signature (set_orig_sig_type k
      (set_resume_attempted 0 (set_sig_sector o (set_sig_device d P))))).
  split; [|split; [apply mark_image; auto; lia|split; [done|destruct Hr2 as [n ->]; by split_and!]]].
  set (b0 := (bio s) {{ toi_writer_posn := toi_extent_state_goto_start (toi_writer_posn (bio s)) }}) in *.
  assert (in_bio (go_next_page WRITE true)
    (s {{ no_image_signature_contents := take sizeof_sig_data P; bio := b0 }}) = Some (s1, 0)) as Hgo.
  { unfold in_bio. change (bio (s {{ no_image_signature_contents := _; bio := b0 }})) with b0.
    by rewrite Hq. }
  unfold image_signature, bind, modify, get. fold b0. rewrite Hgo.
  change (toi_writer_posn (bio s1)) with q. change (swap_mm s1) with (swap_mm s).
  rewrite Hqc, Hqo, (proj2 (Z.ltb_ge c 0)), Hsi, Hd, (proj2 (Z.leb_gt d 0)) by lia.
  by rewrite Hps.
Qed.

Lemma write_image_signature s P k d o :
  sig_on_disk s = P -> swap_page P k -> can_mark s d o ->
  exists s', write_modified_signature IMAGE_SIGNATURE s = Some (s', 0) /\ imaged s P k d o 0 s'.
Proof.
  intros HP Hp Hcm. pose proof (cm_io _ _ _ Hcm) as Hio.
  destruct (get_current_signature_spec s Hio) as (s1 & Hg & Hr1).
  destruct (sig_read_io _ _ Hio Hr1) as [Hio1 Hd1].
  assert (can_mark s1 d o) as Hcm1.
  { destruct Hcm as [_ Hn Hwf Hx Hst Hres Hfi]. destruct Hr1 as [n ->]. split; auto.
    by apply (wf_tape_same (bio s)). }
  destruct (image_signature_spec s1 P k d o) as (s2 & p' & Hi & Hip & Hio2 & Hdk & Hrb & Hrf & Hrd & Hno);
    [by rewrite Hd1|done|done|].
  destruct (bdev_page_io_write s2 p' Hio2) as [n Hw].
  set (s3 := s2 {{ current_signature_page := Some p'; bio := (bio s2) {{ toi_io_done := n;
    the_disk := disk_write (the_disk (bio s2)) (resume_block_device s2) (resume_firstblock s2) p' }} }}).
  exists s3. split.
  - unfold write_modified_signature, bind, or_return. rewrite Hg. cbn [Z.eqb].
    unfold in_bio at 1, toi_get_zeroed_page. rewrite (io_memory _ Hio1).
    assert (s1 {{ bio := bio s1 }} = s1) as E by (by destruct s1). rewrite E. clear E.
    unfold get. rewrite (sig_read_page _ _ Hr1), HP, Hi, Hw. done.
  - assert (sig_wrote s2 p' s3) as Hw3 by (by exists n).
    destruct (sig_wrote_frame _ _ _ Hw3 (ip_full _ _ _ _ _ _ Hip)) as [Hd3 Hfr].
    rewrite Hrb, Hrf, Hdk in Hfr. destruct Hr1 as [n1 ->].
    split; [destruct Hio2; by split|by rewrite Hd3|done|simpl; rewrite Hrd; apply Hcm|done|done|done].
Qed.

(** Recording resume attempts, one boot after another. *)
Fixpoint mark_all (marks : list bool) : M (swap_state mm) Z := fun s =>
  match marks with
  | [] => Some (s, 0)
  | m :: marks' =>
      match toi_swap_mark_resume_attempted m s with
      | Some (s', 0) => mark_all marks' s'
      | other => other
      end
  end.

Lemma imaged_mark_all s0 P k d o a s marks :
  imaged s0 P k d o a s ->
  exists s', mark_all marks s = Some (s', 0) /\
    imaged s0 P k d o (match list.last marks with Some m => if m then 1 else 0 | None => a end) s'.
Proof.
  revert a s. induction marks as [|m marks IH]; intros a s Hi; [by exists s|].
  destruct (imaged_mark _ _ _ _ _ _ _ m Hi) as (s1 & Hm & Hi1). cbn [mark_all]. rewrite Hm.
  destruct (IH _ _ Hi1) as (s2 & Hs & Hi2). exists s2. split; [done|].
  rewrite last_cons. by destruct (list.last marks).
Qed.

(** A kernel started later on the same disks, with the same resume= device,
    that has read the copy of the page's first bytes from the image header. *)
Record rebooted (s r : swap_state mm) : Prop := {
  rb_io : sig_io r;
  rb_disk : the_disk (bio r) = the_disk (bio s);
  rb_device : resume_block_device r = resume_block_device s;
  rb_firstblock : resume_firstblock r = resume_firstblock s;
  rb_named : resume_swap_dev_t r <> 0;
  rb_contents : no_image_signature_contents r = no_image_signature_contents s;
  rb_first : nr_hibernates r = 0
}.

Lemma imaged_rebooted s0 P k d o a s r :
  imaged s0 P k d o a s -> rebooted s r -> imaged s0 P k d o a r.
Proof.
  intros [_ Hp Hs _ Hd Hf Hfr] [Hio Hk Hd' Hf' Hn Hc _].
  split; auto; unfold sig_on_disk in *; rewrite ?Hk, ?Hd', ?Hf', ?Hc; auto.
Qed.


(** Removing an image from a device whose first page carries no
    signature TuxOnIce knows (so that [toi_swap_image_exists] answers -1,
    "don't know") overwrites that page with a swap signature. *)
Theorem remove_image_unknown s :
  sig_io s -> resume_swap_dev_t s <> 0 -> nr_hibernates s = 0 ->
  full_page (sig_on_disk s) -> length (no_image_signature_contents s) = sizeof_sig_data ->
  sig_type sigs 0 (magic (sig_on_disk s)) = None ->
  starts_with tuxonice_signature (magic (sig_on_disk s)) = false ->
  exists s1 s2, toi_swap_image_exists env s = Some (s1, -1) /\
    toi_swap_remove_image env s = Some (s2, 0) /\
    (magic (sig_on_disk s2) = bytes_of "SWAP-SPACE" \/ magic (sig_on_disk s2) = bytes_of "SWAPSPACE2") /\
    sig_on_disk s2 <> sig_on_disk s.
Proof.
  intros Hio Hn Hnr Hf Hc Ht Hs.
  destruct (get_current_signature_spec s Hio) as (s1 & Hg & Hr).
  destruct (sig_read_io _ _ Hio Hr) as [Hio1 Hd1].
  assert (toi_swap_image_exists env s = Some (s1, -1)) as He.
  { unfold toi_swap_image_exists, bind, get. rewrite (proj2 (Z.eqb_neq _ _)) by done.
    pose proof (io_device _ Hio). rewrite (proj2 (Z.eqb_neq (resume_block_device s) 0)) by lia.
    unfold ret. change (IS_ERR 1) with false. cbv beta iota.
    unfold parse_signature, bind, or_return. rewrite Hg. cbn [Z.eqb].
    by rewrite (sig_read_page _ _ Hr), Ht, Hs. }
  destruct (write_modified_spec NO_IMAGE_SIGNATURE s1 Hio1) as (s2 & Hw & Hs2); [done|].
  set (p' := modified _ _ _) in Hs2.
  set (sg := bytes_of (if sig_orig_sig_type (sig_on_disk s1) =? 0 then "SWAP-SPACE" else "SWAPSPACE2")).
  assert (length sg = 10%nat) as Hsg by (unfold sg; by destruct (_ =? 0)).
  pose proof (page_length _ Hf) as Hl. pose proof magic_after_sig as H24.
  assert (no_image_signature_contents s1 = no_image_signature_contents s) as Hns by (by destruct Hr as [? ->]).
  assert (length (set_magic sg (sig_on_disk s)) = (magic_offset + 10)%nat) as Hlm
    by (unfold set_magic; rewrite splice_length; lia).
  assert (full_page p' /\ magic p' = sg) as [Hfp Hmp].
  { unfold p', modified. fold sg. rewrite Hns, Hd1. unfold sizeof_sig_data in Hc. split.
    - unfold full_page. rewrite splice_length by lia. rewrite Hlm. done.
    - unfold magic. rewrite <- (firstn_all2 (n := 10) (drop _ (splice _ _ _))).
      2: { rewrite length_drop, splice_length by lia. lia. }
      rewrite field_splice_other by lia. unfold set_magic. apply field_splice_same; lia. }
  destruct (sig_wrote_frame _ _ _ Hs2 Hfp) as [Hd2 _].
  assert (sg = bytes_of "SWAP-SPACE" \/ sg = bytes_of "SWAPSPACE2") as Hor
    by (unfold sg; destruct (_ =? 0); auto).
  exists s1, s2. split_and!.
  - done.
  - unfold toi_swap_remove_image, bind, get. rewrite Hnr. cbn [Z.eqb ret]. by rewrite He.
  - by rewrite Hd2, Hmp.
  - intros E. rewrite <- E, Hd2, Hmp in Ht. by destruct Hor as [-> | ->].
Qed.
End Signature.

(** ** A machine with one swap partition *)

Definition sample_devices : list swap_info_struct := [SwapInfo 7 false true true 100 0 100].

Definition sample_map : plain_map := PlainMap sample_devices (seqZ 1 40) [].

Definition sample_env : swap_env plain_map :=
  SwapEnv plain_map (fun _ o => o) (fun d => d) (fun _ => 7) (fun _ => None)
    (fun _ m => (m, - EINVAL)) (fun _ m => m) 0.

Definition swap_chains : list hibernate_extent_chain :=
  Chain 5 1 [Ext 3 7] None :: repeat empty_chain (MAX_SWAPFILES - 1).

Definition swap_devs : list toi_bdev_info :=
  BdevInfo 7 7 3 1 false :: repeat null_bdev_info (MAX_SWAPFILES - 1).

(** The first page of the partition is a new-format swap header. *)
Definition sample_header : page := repeat 0 magic_offset ++ bytes_of "SWAPSPACE2".

Definition sample_disk : disk := disk_write (fun _ _ => repeat 0 512) 7 0 sample_header.

Definition sample_swap : swap_state plain_map :=
  SwapState (BioState (IterState swap_chains (-1) None 0)
      [SavedState 0 0 4; SavedState 0 0 4; SavedState 0 0 4; SavedState 0 0 4]
      swap_devs None 0 [] [] true false 0 sample_disk 0 0 0 0 0 [] [] false false 0 false [])
    sample_map None (repeat 0 sizeof_sig_data) empty_chain 0 0 0 [] false 2 5 0 7 7
    (repeat None (MAX_SWAPFILES + 2)) [] 0 0.

Lemma sample_header_full : full_page sample_header.
Proof. reflexivity. Qed.

Lemma sample_sig : sig_on_disk sample_swap = sample_header.
Proof. apply disk_read_same, sample_header_full. Qed.

Lemma sample_can_mark : can_mark sample_swap 7 3.
Proof.
  split; try done.
  - split; simpl; try done.
    + split; simpl; [repeat constructor; simpl; lia|unfold num_chains; simpl; lia|auto].
    + repeat constructor; try done; lia.
  - exists (SavedState 0 0 4). done.
  - exists 0, [(0, 4); (0, 5); (0, 6); (0, 7)], (SwapInfo 7 false true true 100 0 100).
    split_and!; try done; lia.
Qed.


(** The same machine with an empty first page. *)
Definition blank_swap : swap_state plain_map :=
  sample_swap {{ bio := (bio sample_swap) {{ the_disk := disk_write (fun _ _ => []) 7 0 zero_page }} }}.

Lemma blank_sig : sig_on_disk blank_swap = zero_page.
Proof. apply disk_read_same, zero_page_full. Qed.

Lemma remove_image_unknown_witness :
  exists s1 s2, toi_swap_image_exists sample_env blank_swap = Some (s1, -1) /\
    toi_swap_remove_image sample_env blank_swap = Some (s2, 0) /\
    (magic (sig_on_disk s2) = bytes_of "SWAP-SPACE" \/ magic (sig_on_disk s2) = bytes_of "SWAPSPACE2") /\
    sig_on_disk s2 <> sig_on_disk blank_swap.
Proof.
  apply (remove_image_unknown sample_env blank_swap); rewrite ?blank_sig; try done.
Defined.
