(* ===== verification/SwapAlloc.v ===== *)
(** * Allocating swap for the image

    Swap entries taken from the swap map are gathered into ranges and then
    into the chain [swapextents]; their disk blocks become the block chains
    that the block I/O layer walks.  The theorems follow the entries from the
    swap map to the tape. *)

From S2P Require Import Prelude HeaderStream Extents States BlockIO BlockIOFacts BlockIORead AllocatorIO AllocatorFacts SwapStorage SwapSignature.
From stdpp Require Import numbers base list.
#[local] Open Scope Z_scope.
#[local] Arguments Z.to_nat : simpl never.
#[local] Arguments Nat.mul : simpl never.

(** ** Ranges of entries *)

Definition range_entries (r : option (Z * Z)) : list Z :=
  match r with Some (lo, hi) => seqZ lo (hi - lo + 1) | None => [] end.

Definition held (l : ranges) : list Z := concat (map range_entries l).

Lemma held_insert l i x y :
  l !! i = Some y -> range_entries y ++ held (<[i := x]> l) ≡ₚ range_entries x ++ held l.
Proof.
  intros Hi. unfold held. rewrite <- (take_drop_middle l i y Hi) at 2.
  rewrite insert_take_drop by (by eapply lookup_lt_Some). rewrite !map_app, !concat_app.
  cbn [map concat]. set (a := concat (map range_entries (take i l))).
  set (b := concat (map range_entries (drop (S i) l))).
  rewrite !(Permutation_app_swap_app _ a). apply Permutation_app_head.
  apply Permutation_app_swap_app.
Qed.

Lemma held_none n : held (repeat None n) = [].
Proof. unfold held. by induction n. Qed.

Lemma range_entries_snoc lo hi :
  lo <= hi -> range_entries (Some (lo, hi + 1)) ≡ₚ hi + 1 :: range_entries (Some (lo, hi)).
Proof.
  intros ?. cbn [range_entries]. replace (hi + 1 - lo + 1) with (hi - lo + 1 + 1) by lia.
  rewrite seqZ_split by lia. replace (lo + (hi - lo + 1)) with (hi + 1) by lia.
  symmetry. apply Permutation_cons_append.
Qed.

Lemma range_entries_single e : range_entries (Some (e, e)) = [e].
Proof. cbn [range_entries]. by replace (e - e + 1) with 1 by lia. Qed.

(** ** Gathering entries *)

Section Alloc.
Context {mm : Type} `{SwapMap mm} (env : swap_env mm).

Definition usable (devs : list toi_bdev_info) (e : Z) : bool :=
  match devs !! Z.to_nat (swp_type e) with Some d => negb (ignored d) | None => true end.

Definition count_usable (devs : list toi_bdev_info) (l : list Z) : Z :=
  Z.of_nat (length (filter (fun e => usable devs e = true) l)).

Definition wf_range (r : option (Z * Z)) : Prop :=
  match r with Some (lo, hi) => 0 <= lo /\ lo <= hi < 2 ^ 64 | None => True end.

Definition wf_entry_no (e : Z) : Prop :=
  0 < e < 2 ^ 64 /\ 0 <= swp_type e < Z.of_nat MAX_SWAPFILES.

(** The same devices in two swap tables. *)
Lemma devices_lookup infos infos' i si :
  map si_device infos' = map si_device infos -> infos !! i = Some si ->
  exists si', infos' !! i = Some si' /\ si_bdev si' = si_bdev si /\ si_ram si' = si_ram si /\
    si_max si' = si_max si.
Proof.
  intros Hm Hi. assert ((map si_device infos') !! i = Some (si_device si)) as Hl
    by (rewrite Hm, list_lookup_fmap, Hi; done).
  rewrite list_lookup_fmap in Hl. destruct (infos' !! i) as [si'|]; [|done].
  exists si'. injection Hl as Hb Hr _ Hm'. auto.
Qed.

Lemma live_same infos infos' e :
  map si_device infos' = map si_device infos -> live infos' e = true -> live infos e = true.
Proof.
  intros Hm. unfold live. destruct (infos' !! Z.to_nat (swp_type e)) as [si|] eqn:Hi; [|done].
  by destruct (devices_lookup _ _ _ _ (eq_sym Hm) Hi) as (si' & -> & -> & _ & ->).
Qed.

(** Since [s0], the entries [new] have been taken; those not yet in the chain
    are in the ranges [to_add]. *)
Record alloc_inv (s0 s : swap_state mm) (to_add : ranges) (gotten : Z) (new : list Z) : Prop := {
  ai_same : s = s0 {{ swapextents := swapextents s; swap_mm := swap_mm s }};
  ai_memory : memory (bio s0) = [];
  ai_chain : wf_chain (swapextents s);
  ai_length : length to_add = MAX_SWAPFILES;
  ai_ranges : Forall wf_range to_add;
  ai_entries : chain_blocks (swapextents s) ++ held to_add ≡ₚ new ++ chain_blocks (swapextents s0);
  ai_nodup : NoDup (new ++ chain_blocks (swapextents s0));
  ai_in_use : forall x, in_use (swap_mm s) x = bool_decide (x ∈ new) || in_use (swap_mm s0) x;
  ai_owned : Forall (fun x => in_use (swap_mm s0) x = true) (chain_blocks (swapextents s0));
  ai_fresh : Forall (fun x => in_use (swap_mm s0) x = false /\ wf_entry_no x /\
                              live (swap_info (swap_mm s0)) x = true) new;
  ai_gotten : gotten = count_usable (toi_devinfo (bio s0)) new;
  ai_devices : map si_device (swap_info (swap_mm s)) = map si_device (swap_info (swap_mm s0))
}.

Lemma alloc_inv_memory s0 s to_add gotten new :
  alloc_inv s0 s to_add gotten new -> memory (bio s) = [].
Proof. intros Hi. rewrite (ai_same _ _ _ _ _ Hi). apply Hi. Qed.

(** A freshly taken entry is in no range and no chain. *)
Lemma alloc_inv_take s0 s to_add gotten new m e s' to_add' :
  alloc_inv s0 s to_add gotten new -> get_swap_page (swap_mm s) = (m, e) -> e <> 0 ->
  s' = s {{ swapextents := swapextents s'; swap_mm := m }} -> wf_chain (swapextents s') ->
  length to_add' = MAX_SWAPFILES -> Forall wf_range to_add' ->
  chain_blocks (swapextents s') ++ held to_add' ≡ₚ
    e :: chain_blocks (swapextents s) ++ held to_add ->
  alloc_inv s0 s' to_add' (gotten + count_if (usable (toi_devinfo (bio s0)) e) 1) (e :: new).
Proof.
  intros [Hs Hm Hc Hl Hr He Hn Hu Ho Hf Hg Hd] Hget Hne Hs' Hc' Hl' Hr' He'.
  destruct (get_swap_page_ok _ _ _ Hget Hne) as (He1 & He2 & Hfree & Hu' & _).
  assert (swap_mm s' = m) as Hm' by (by rewrite Hs').
  assert (in_use (swap_mm s0) e = false /\ e ∉ new) as [Hfree0 Hnew].
  { rewrite Hu in Hfree. apply orb_false_iff in Hfree as [Hb ?]. split; [done|].
    by apply bool_decide_eq_false in Hb. }
  split; auto.
  - rewrite Hs' at 1. rewrite Hs. simpl. by rewrite Hm'.
  - rewrite He', He. done.
  - cbn [app]. apply NoDup_cons. split; [|done]. rewrite elem_of_app. intros [?|Hin]; [done|].
    rewrite Forall_forall in Ho. rewrite (Ho _ Hin) in Hfree0. done.
  - intros x. rewrite Hm', Hu', Hu. rewrite orb_assoc. f_equal. rewrite <- bool_decide_or.
    apply bool_decide_ext. by rewrite elem_of_cons.
  - constructor; [|done]. split_and!; [done|by split|]. eapply live_same; [exact Hd|]. by eapply get_swap_page_live.
  - unfold count_usable, count_if in *. rewrite filter_cons.
    destruct (usable _ e); simpl; lia.
  - rewrite Hm'. by rewrite (get_swap_page_devices _ _ _ Hget).
Qed.

(** Adding a held range to the chain. *)
Lemma add_swap_extent_spec (s : swap_state mm) lo hi :
  memory (bio s) = [] -> wf_chain (swapextents s) -> (0 <= lo /\ lo <= hi < 2 ^ 64) ->
  (forall x, lo <= x <= hi -> x ∉ chain_blocks (swapextents s)) ->
  exists c, add_swap_extent (lo, hi) s = Some (s {{ swapextents := c }}, 0) /\
    wf_chain c /\ chain_blocks c ≡ₚ chain_blocks (swapextents s) ++ range_entries (Some (lo, hi)).
Proof.
  intros Hm Hc Hr Hd.
  destruct (add_to_extent_chain_spec true (swapextents s) lo hi Hc Hr) as (c & r & Ha & [[-> [? ?]]|(_ & ? & _)]);
    [by apply range_free_disjoint; auto; lia| |done].
  exists c. split_and!; auto. unfold add_swap_extent, bind, get, modify, in_bio, toi_kzalloc. rewrite Hm.
  cbn [swapextents set_field fst snd]. rewrite Ha. by destruct s.
Qed.

(** A range of the invariant is disjoint from the chain. *)
Lemma alloc_inv_disjoint s0 s to_add gotten new i lo hi :
  alloc_inv s0 s to_add gotten new -> to_add !! i = Some (Some (lo, hi)) ->
  (0 <= lo /\ lo <= hi < 2 ^ 64) /\
  (forall x, lo <= x <= hi -> x ∉ chain_blocks (swapextents s)).
Proof.
  intros Hi Hl. pose proof (Forall_lookup_1 _ _ _ _ (ai_ranges _ _ _ _ _ Hi) Hl) as Hw. split; [done|].
  intros x Hx Hin. pose proof (ai_nodup _ _ _ _ _ Hi) as Hn.
  rewrite <- (ai_entries _ _ _ _ _ Hi) in Hn. apply NoDup_app in Hn as (_ & Hn & _).
  apply (Hn x Hin). unfold held. apply list_elem_of_In, in_concat.
  exists (range_entries (Some (lo, hi))). split.
  - apply in_map, list_elem_of_In. by eapply list_elem_of_lookup_2.
  - apply list_elem_of_In. cbn [range_entries]. apply elem_of_seqZ. lia.
Qed.

(** With fuel above the room left in the swap map, the loop ends: with the
    pages wanted, or with the swap map exhausted. *)
Lemma get_swap_pages_spec fuel n s0 s to_add gotten new :
  (swap_room (swap_mm s) < fuel)%nat -> alloc_inv s0 s to_add gotten new -> gotten <= n ->
  exists s' to_add' gotten' new',
    get_swap_pages fuel n to_add gotten s = Some (s', (to_add', gotten')) /\
    alloc_inv s0 s' to_add' gotten' new' /\ gotten' <= n /\
    (gotten' < n -> exists m, get_swap_page m = (swap_mm s', 0)).
Proof.
  revert s to_add gotten new. induction fuel as [|fuel IH]; intros s to_add gotten new Hf Hi Hgn; [lia|].
  cbn [get_swap_pages]. destruct (Z.ltb_spec gotten n) as [Hlt|Hge];
    [|exists s, to_add, gotten, new; split_and!; auto; lia].
  destruct (get_swap_page (swap_mm s)) as [m e] eqn:Hget.
  destruct (Z.eqb_spec e 0) as [->|Hne].
  { exists (s {{ swap_mm := m }}), to_add, gotten, new. split_and!; auto; [|by exists (swap_mm s)].
    pose proof (get_swap_page_none _ _ Hget) as Hu. pose proof (get_swap_page_devices _ _ _ Hget) as Hd.
    destruct Hi as [Hs]. split; auto; simpl.
    - exact (f_equal (set_field swap_mm (fun _ => m)) Hs).
    - intros x. by rewrite Hu.
    - by rewrite Hd. }
  destruct (get_swap_page_ok _ _ _ Hget Hne) as (He1 & He2 & _ & _ & Hroom).
  set (i := Z.to_nat (swp_type e)). set (s1 := s {{ swap_mm := m }}).
  assert (not_ignored s1 i = usable (toi_devinfo (bio s0)) e) as Hni.
  { unfold not_ignored, usable. change (bio s1) with (bio s). fold i.
    by rewrite (f_equal bio (ai_same _ _ _ _ _ Hi)). }
  rewrite Hni.
  assert (forall s' to_add', s' = s {{ swapextents := swapextents s'; swap_mm := m }} ->
    wf_chain (swapextents s') -> length to_add' = MAX_SWAPFILES -> Forall wf_range to_add' ->
    chain_blocks (swapextents s') ++ held to_add' ≡ₚ e :: chain_blocks (swapextents s) ++ held to_add ->
    exists s'' to_add'' gotten' new',
    get_swap_pages fuel n to_add' (gotten + count_if (usable (toi_devinfo (bio s0)) e) 1) s'
      = Some (s'', (to_add'', gotten')) /\
    alloc_inv s0 s'' to_add'' gotten' new' /\ gotten' <= n /\
    (gotten' < n -> exists m, get_swap_page m = (swap_mm s'', 0))) as Hgo.
  { intros s' to_add' Hs' Hc' Hl' Hr' Hp'. apply (IH s' to_add' _ (e :: new)).
    - assert (swap_mm s' = m) as -> by (by rewrite Hs'). lia.
    - by eapply alloc_inv_take.
    - unfold count_if. destruct (usable _ _); lia. }
  destruct (lookup_lt_is_Some_2 to_add i) as [r Hr]; [rewrite (ai_length _ _ _ _ _ Hi); lia|].
  rewrite Hr. pose proof (ai_length _ _ _ _ _ Hi) as Hl. pose proof (ai_ranges _ _ _ _ _ Hi) as Hrs.
  destruct r as [[lo hi]|].
  - destruct (alloc_inv_disjoint _ _ _ _ _ _ _ _ Hi Hr) as [Hlh Hdj].
    destruct (Z.eqb_spec e (u64 (hi + 1))) as [Heq|Hneq].
    + assert (e = hi + 1) as ->.
      { destruct (Z.eq_dec hi (2 ^ 64 - 1)) as [->|]; [by rewrite Z.sub_add in Heq|]. by rewrite u64_small in Heq by lia. }
      apply Hgo; auto; [apply Hi|by rewrite length_insert|apply Forall_insert; auto; simpl; lia|].
      pose proof (held_insert to_add i (Some (lo, hi + 1)) _ Hr) as Hh.
      rewrite (range_entries_snoc lo hi) in Hh by lia.
      cbn [app] in Hh. rewrite Permutation_middle in Hh. apply Permutation_app_inv_l in Hh.
      rewrite Hh. symmetry. apply Permutation_middle.
    + destruct (add_swap_extent_spec s1 lo hi) as (c & Ha & Hc & Hcb);
        [apply (alloc_inv_memory _ _ _ _ _ Hi)|apply Hi|done|done|].
      unfold bind. rewrite Ha. cbn [Z.eqb].
      apply Hgo; auto; [by rewrite length_insert|apply Forall_insert; auto; simpl; lia|].
      pose proof (held_insert to_add i (Some (e, e)) _ Hr) as Hh. rewrite range_entries_single in Hh.
      cbn [swapextents set_field]. rewrite Hcb, <- app_assoc, Hh. symmetry. apply Permutation_middle.
  - apply Hgo; auto; [apply Hi|by rewrite length_insert|apply Forall_insert; auto; simpl; lia|].
    pose proof (held_insert to_add i (Some (e, e)) _ Hr) as Hh. rewrite range_entries_single in Hh.
    cbn [range_entries app] in Hh. rewrite Hh. symmetry. apply Permutation_middle.
Qed.

Lemma add_ranges_spec i l gotten (s : swap_state mm) total :
  memory (bio s) = [] -> wf_chain (swapextents s) -> Forall wf_range l ->
  chain_blocks (swapextents s) ++ held l ≡ₚ total -> NoDup total ->
  exists c, add_ranges i l gotten s = Some (s {{ swapextents := c }}, gotten) /\
    wf_chain c /\ chain_blocks c ≡ₚ total.
Proof.
  revert i s. induction l as [|r l IH]; intros i s Hm Hc Hr Ht Hn.
  { exists (swapextents s). unfold held in Ht. simpl in Ht. rewrite app_nil_r in Ht.
    split_and!; auto. by destruct s. }
  apply Forall_cons_1 in Hr as [Hw Hr]. unfold held in Ht. cbn [map concat] in Ht. fold (held l) in Ht.
  destruct r as [[lo hi]|]; [|by apply IH].
  destruct (add_swap_extent_spec s lo hi Hm Hc Hw) as (c & Ha & Hc' & Hcb).
  { intros x Hx Hin. rewrite <- Ht in Hn. apply NoDup_app in Hn as (_ & Hn & _).
    apply (Hn x Hin), elem_of_app. left. cbn [range_entries]. apply elem_of_seqZ. lia. }
  destruct (IH (S i) (s {{ swapextents := c }})) as (c' & Hr' & ? & ?); auto.
  { cbn [swapextents set_field]. by rewrite Hcb, <- app_assoc. }
  exists c'. cbn [add_ranges]. unfold bind. rewrite Ha. cbn [Z.eqb]. rewrite Hr'. by destruct s.
Qed.

(** ** From entries to disk blocks *)

Definition cell_of (e : Z) : cell := (swp_type e, map_swap_page env (swp_type e) (swp_offset e)).

(** The run of blocks being gathered. *)
Definition run_cells (r : run) : list cell :=
  if -1 <? extent_min r
  then map (pair (last_chain r)) (seqZ (extent_min r) (extent_max r - extent_min r + 1)) else [].

Definition wf_run (r : run) : Prop :=
  r = Run (-1) (-1) (-1) \/
  (0 <= extent_min r /\ extent_min r <= extent_max r < 2 ^ 31 - 1 /\
   0 <= last_chain r < Z.of_nat MAX_SWAPFILES).

(** What the swap layer promises of the blocks of usable entries: on the
    disks they are distinct, and their numbers are representable. *)
Record good_entries (devs : list toi_bdev_info) (l : list Z) : Prop := {
  ge_no : Forall (fun e => 0 <= swp_type e < Z.of_nat MAX_SWAPFILES) l;
  ge_small : Forall (fun e => usable devs e = true -> 0 <= snd (cell_of e) < 2 ^ 31 - 1) l;
  ge_distinct : NoDup (map cell_of (filter (fun e => usable devs e = true) l))
}.

Lemma tape_insert k cs i c c' new :
  cs !! i = Some c -> chain_blocks c' ≡ₚ chain_blocks c ++ new ->
  tape_from k (<[i := c']> cs) ≡ₚ map (pair (k + Z.of_nat i)) new ++ tape_from k cs.
Proof.
  revert k i. induction cs as [|d cs IH]; intros k i Hi Hc; [done|]. destruct i as [|i]; cbn [tape_from list_insert insert].
  - injection Hi as ->. change (<[0%nat := c']> (c :: cs)) with (c' :: cs). cbn [tape_from].
    rewrite Hc, map_app, Z.add_0_r, <- app_assoc. apply Permutation_app_swap_app.
  - change (<[S i := c']> (d :: cs)) with (d :: <[i := c']> cs). cbn [tape_from].
    rewrite (IH (k + 1) i Hi Hc). replace (k + 1 + Z.of_nat i) with (k + Z.of_nat (S i)) by lia.
    apply Permutation_app_swap_app.
Qed.

(** The entries [done] have become blocks of the chains and of the run. *)
Record chains_inv (b0 b : bio_state) (done : list Z) (r : run) : Prop := {
  ci_same : b = set_block_chain (block_chain b) b0;
  ci_memory : memory b0 = [];
  ci_length : length (block_chain b) = MAX_SWAPFILES;
  ci_chains : Forall wf_chain (block_chain b);
  ci_run : wf_run r;
  ci_cells : tape (block_chain b) ++ run_cells r ≡ₚ
    map cell_of (filter (fun e => usable (toi_devinfo b0) e = true) done)
}.

Lemma add_blocks_spec (b : bio_state) n lo hi :
  memory b = [] -> Forall wf_chain (block_chain b) -> length (block_chain b) = MAX_SWAPFILES ->
  0 <= n < Z.of_nat MAX_SWAPFILES -> (0 <= lo /\ lo <= hi < 2 ^ 31) ->
  NoDup (tape (block_chain b) ++ map (pair n) (seqZ lo (hi - lo + 1))) ->
  exists cs, add_blocks_to_extent_chain n lo hi b = Some (set_block_chain cs b, 0) /\
    Forall wf_chain cs /\ length cs = MAX_SWAPFILES /\
    tape cs ≡ₚ tape (block_chain b) ++ map (pair n) (seqZ lo (hi - lo + 1)).
Proof.
  intros Hm Hwf Hl Hn Hr Hnd.
  destruct (lookup_lt_is_Some_2 (block_chain b) (Z.to_nat n)) as [c Hc]; [lia|].
  pose proof (Forall_lookup_1 _ _ _ _ Hwf Hc) as Hwc.
  destruct (add_to_extent_chain_spec true c lo hi Hwc) as (c' & r & Ha & [[-> [Hw' Hb']]|(_ & ? & _)]);
    [lia| | |done].
  { apply range_free_disjoint; [done|lia|]. intros x Hx Hin. apply NoDup_app in Hnd as (_ & Hnd & _).
    apply (Hnd (n, x)).
    - replace n with (0 + Z.of_nat (Z.to_nat n)) by lia. by eapply tape_from_elem.
    - apply (list_elem_of_fmap_2 (pair n)), elem_of_seqZ. lia. }
  exists (<[Z.to_nat n := c']> (block_chain b)). split_and!.
  - unfold add_blocks_to_extent_chain. rewrite (proj2 (Z.ltb_ge n 0)), Hc by lia.
    unfold bind, toi_kzalloc. rewrite Hm, !u64_small, Ha by lia. done.
  - by apply Forall_insert.
  - by rewrite length_insert.
  - unfold tape. rewrite (tape_insert 0 _ _ c c' _ Hc Hb').
    replace (0 + Z.of_nat (Z.to_nat n)) with n by lia. apply Permutation_app_comm.
Qed.

Lemma flush_run_spec b0 b l r :
  chains_inv b0 b l r ->
  NoDup (map cell_of (filter (fun e => usable (toi_devinfo b0) e = true) l)) ->
  exists b', flush_run r b = Some (b', 0) /\ chains_inv b0 b' l (Run (-1) (-1) (-1)).
Proof.
  intros [Hs Hm Hl Hw Hr Hc] Hnd. unfold flush_run, run_cells in *.
  destruct (Z.ltb_spec (-1) (extent_min r)) as [Hlt|Hge].
  - destruct Hr as [->|(Hr1 & Hr2 & Hr3)]; [by simpl in Hlt|].
    destruct (add_blocks_spec b (last_chain r) (extent_min r) (extent_max r)) as (cs & Ha & Hw' & Hl' & Ht);
      auto; [by rewrite Hs|lia|by rewrite Hc|].
    exists (set_block_chain cs b). split; [done|]. split; auto; [|by left|].
    + rewrite Hs. done.
    + change (block_chain (set_block_chain cs b)) with cs. unfold run_cells. simpl.
      by rewrite app_nil_r, Ht, Hc.
  - exists b. split; [done|]. split; auto; by left.
Qed.

Lemma extend_run_spec b0 b l a rest r :
  chains_inv b0 b l r -> length (toi_devinfo b0) = MAX_SWAPFILES ->
  good_entries (toi_devinfo b0) (l ++ a :: rest) ->
  exists b' r', extend_run env a r b = Some (b', (r', 0)) /\ chains_inv b0 b' (l ++ [a]) r'.
Proof.
  intros Hi Hdl [Hno Hsm Hnd].
  apply Forall_app in Hno as [_ Hno]. apply Forall_cons_1 in Hno as [Hty _].
  apply Forall_app in Hsm as [_ Hsm]. apply Forall_cons_1 in Hsm as [Hsm _].
  assert (toi_devinfo b = toi_devinfo b0) as Hdev by (by rewrite (f_equal toi_devinfo (ci_same _ _ _ _ Hi))).
  destruct (lookup_lt_is_Some_2 (toi_devinfo b0) (Z.to_nat (swp_type a))) as [d Hd]; [lia|].
  assert (usable (toi_devinfo b0) a = negb (ignored d)) as Hu by (unfold usable; by rewrite Hd).
  unfold extend_run. rewrite Hdev, Hd. destruct (ignored d) eqn:Hig.
  { exists b, r. split; [done|]. destruct Hi as [? ? ? ? ? Hc]. split; auto. rewrite Hc.
    rewrite list.filter_app, map_app, filter_cons_False, app_nil_r; [done|by rewrite Hu]. }
  cbn [negb] in Hu. specialize (Hsm Hu). unfold cell_of in Hsm. cbn [snd] in Hsm.
  set (sec := map_swap_page env (swp_type a) (swp_offset a)) in *.
  assert (map cell_of (filter (fun e => usable (toi_devinfo b0) e = true) (l ++ [a])) =
          map cell_of (filter (fun e => usable (toi_devinfo b0) e = true) l) ++ [cell_of a]) as Hnew.
  { by rewrite list.filter_app, filter_cons_True, map_app by done. }
  destruct ((sec =? u64 (s32 (extent_max r + 1))) && (u32 (last_chain r) =? swp_type a)) eqn:Hcont.
  - apply andb_true_iff in Hcont as [Hc1 Hc2]. breflect.
    destruct Hi as [Hs Hm Hl Hw [->|(Hr1 & Hr2 & Hr3)] Hc];
      [change (4294967295 = swp_type a) in Hc2; unfold MAX_SWAPFILES in Hty; lia|].
    unfold u32 in Hc2. rewrite Z.mod_small in Hc2 by (unfold MAX_SWAPFILES in *; lia).
    rewrite s32_small, u64_small in Hc1 by lia.
    eexists b, _. split; [done|]. rewrite s32_small by lia.
    split; auto; [right; simpl; lia|].
    rewrite Hnew, <- Hc, <- app_assoc. apply Permutation_app_head.
    unfold run_cells. cbn [extent_min extent_max last_chain].
    rewrite (proj2 (Z.ltb_lt _ _)) by lia.
    replace (extent_max r + 1 - extent_min r + 1) with (extent_max r - extent_min r + 1 + 1) by lia.
    rewrite seqZ_split, map_app by lia.
    replace (extent_min r + (extent_max r - extent_min r + 1)) with sec by lia.
    unfold cell_of. fold sec. by rewrite Hc2.
  - destruct (flush_run_spec b0 b l r Hi) as (b' & Hf & [Hs Hm Hl Hw _ Hc]).
    { eapply sublist_NoDup; [exact Hnd|]. apply (fmap_sublist cell_of).
      rewrite list.filter_app. by apply sublist_inserts_r. }
    eexists b', _. unfold bind. rewrite Hf. cbn [Z.eqb]. split; [done|].
    rewrite !s32_small by (unfold MAX_SWAPFILES in *; lia).
    split; auto; [right; simpl; lia|].
    rewrite Hnew, <- Hc, <- app_assoc. apply Permutation_app_head.
    unfold run_cells. cbn [extent_min extent_max last_chain].
    rewrite (proj2 (Z.ltb_lt _ _)) by lia. by replace (sec - sec + 1) with 1 by lia.
Qed.

Lemma extend_runs_spec b0 b l rest r :
  chains_inv b0 b l r -> length (toi_devinfo b0) = MAX_SWAPFILES ->
  good_entries (toi_devinfo b0) (l ++ rest) ->
  exists b', extend_runs env rest r b = Some (b', 0) /\
    chains_inv b0 b' (l ++ rest) (Run (-1) (-1) (-1)).
Proof.
  revert b l r. induction rest as [|a rest IH]; intros b l r Hi Hd Hg; cbn [extend_runs]; unfold bind.
  - rewrite app_nil_r in *. destruct (flush_run_spec b0 b l r Hi) as (b' & Hf & Hi'); [apply Hg|].
    rewrite Hf. exists b'. by split.
  - destruct (extend_run_spec b0 b l a rest r Hi Hd Hg) as (b1 & r1 & He & Hi1). rewrite He.
    unfold or_return. cbn [fst snd Z.eqb]. rewrite cons_middle, app_assoc in Hg |- *. by apply IH.
Qed.

(** Emptied chains hold no blocks. *)
Definition emptied (cs : list hibernate_extent_chain) : list hibernate_extent_chain :=
  map (fun c => match chain_exts c with [] => c | _ => toi_put_extent_chain c end) cs.

Lemma emptied_wf cs : Forall wf_chain cs -> Forall wf_chain (emptied cs).
Proof.
  induction 1 as [|c cs Hc _ IH]; [constructor|]. constructor; [|done].
  destruct (chain_exts c); auto using put_wf.
Qed.

Lemma emptied_tape k cs : tape_from k (emptied cs) = [].
Proof.
  revert k. induction cs as [|c cs IH]; intros k; [done|]. cbn [emptied map tape_from]. fold (emptied cs).
  rewrite IH, app_nil_r. unfold chain_blocks. by destruct (chain_exts c) eqn:E; rewrite ?E.
Qed.

Lemma chain_values_spec c : wf_chain c -> chain_values c = Some (chain_blocks c).
Proof. intros Hw. unfold chain_values. apply for_each_blocks; [apply Hw|lia]. Qed.

(** The disk blocks of all usable entries, and nothing else. *)
Lemma main_pool_blocks (s : swap_state mm) :
  memory (bio s) = [] -> wf_chain (swapextents s) -> Forall wf_chain (block_chain (bio s)) ->
  length (block_chain (bio s)) = MAX_SWAPFILES -> length (toi_devinfo (bio s)) = MAX_SWAPFILES ->
  good_entries (toi_devinfo (bio s)) (chain_blocks (swapextents s)) ->
  exists cs, get_main_pool_phys_params env s =
      apply_header_reservation (s {{ bio := set_block_chain cs (bio s) }}) /\
    Forall wf_chain cs /\ length cs = MAX_SWAPFILES /\
    tape cs ≡ₚ map cell_of (filter (fun e => usable (toi_devinfo (bio s)) e = true)
                                   (chain_blocks (swapextents s))).
Proof.
  intros Hm Hc Hcs Hl Hd Hg.
  set (b1 := set_block_chain (emptied (block_chain (bio s))) (bio s)).
  assert (chains_inv (bio s) b1 [] (Run (-1) (-1) (-1))) as Hi.
  { split; auto; change (block_chain b1) with (emptied (block_chain (bio s))).
    - unfold emptied. by rewrite length_map.
    - by apply emptied_wf.
    - by left.
    - unfold tape. by rewrite emptied_tape. }
  destruct (extend_runs_spec _ _ _ (chain_blocks (swapextents s)) _ Hi Hd Hg) as (b2 & He & Hi2).
  destruct Hi2 as [Hs _ Hl2 Hw2 _ Hc2]. unfold run_cells in Hc2. rewrite app_nil_r in Hc2.
  exists (block_chain b2). split_and!; auto.
  unfold get_main_pool_phys_params, bind at 1. unfold in_bio at 1, free_block_chains, modify.
  fold (emptied (block_chain (bio s))). fold b1. unfold bind, get.
  change (swapextents (s {{ bio := b1 }})) with (swapextents s).
  rewrite (chain_values_spec _ Hc). unfold in_bio. change (bio (s {{ bio := b1 }})) with b1.
  rewrite He. unfold or_return. cbn [Z.eqb]. by rewrite <- Hs.
Qed.

(** ** The header's pages *)

(** With one page to the block, the pages from the start are the cells of
    the tape. *)
Lemma pages_take devs n l k :
  Forall (fun c => 0 <= fst c /\ exists d, devs !! Z.to_nat (fst c) = Some d /\ blocks_per_page d = 1) l ->
  (n = -1 \/ 0 <= n /\ exists d, devs !! Z.to_nat n = Some d /\ blocks_per_page d = 1) ->
  exists m, pages devs (n, l) (take k l) (m, drop k l) /\
    (m = -1 \/ 0 <= m /\ exists d, devs !! Z.to_nat m = Some d /\ blocks_per_page d = 1).
Proof.
  revert n k. induction l as [|c l IH]; intros n k Hl Hn; destruct k as [|k].
  1-3: exists n; rewrite ?take_0, ?take_nil, ?drop_0, ?drop_nil; split; [constructor|done].
  apply Forall_cons_1 in Hl as [Hc Hl].
  destruct (IH (fst c) k Hl) as (m & Hp & Hm); [by right|].
  exists m. split; [|done]. cbn [take drop]. econstructor; [|exact Hp].
  unfold next_page, page_cells. cbn [fst snd]. destruct Hn as [->|(Hn & d & Hd & Hb)]; [done|].
  rewrite (proj2 (Z.eqb_neq n (-1))), (proj2 (Z.ltb_ge n 0)), Hd by lia. simpl. rewrite Hb. done.
Qed.

(** ** The allocator's invariant *)

(** The device table entry of a swap device in use. *)
Definition entry_device (infos : list swap_info_struct) (devs : list toi_bdev_info) (e : Z) : Prop :=
  exists si d, infos !! Z.to_nat (swp_type e) = Some si /\ devs !! Z.to_nat (swp_type e) = Some d /\
    live infos e = true /\ ignored d = si_ram si /\
    (si_ram si = false -> d = BdevInfo (si_bdev si) (si_bdev si) 3 1 false).

(** What the swap layer promises of [map_swap_page]: entries of the devices
    that are not RAM have different blocks, with numbers below 2^31 - 1. *)
Record swap_layout (infos : list swap_info_struct) : Prop := {
  sl_small e si : infos !! Z.to_nat (swp_type e) = Some si -> live infos e = true ->
    si_ram si = false -> 0 < e < 2 ^ 64 -> 0 <= snd (cell_of e) < 2 ^ 31 - 1;
  sl_distinct e1 e2 si1 si2 :
    infos !! Z.to_nat (swp_type e1) = Some si1 -> infos !! Z.to_nat (swp_type e2) = Some si2 ->
    live infos e1 = true -> live infos e2 = true -> si_ram si1 = false -> si_ram si2 = false ->
    0 < e1 < 2 ^ 64 -> 0 < e2 < 2 ^ 64 ->
    (si_bdev si1, snd (cell_of e1)) = (si_bdev si2, snd (cell_of e2)) -> e1 = e2
}.

(** The invariant of the allocator between its operations. *)
Record swap_inv (s : swap_state mm) : Prop := {
  si_memory : memory (bio s) = [];
  si_extents : wf_chain (swapextents s);
  si_owned : Forall (fun e => in_use (swap_mm s) e = true) (chain_blocks (swapextents s));
  si_entries : Forall (fun e => wf_entry_no e /\
      entry_device (swap_info (swap_mm s)) (toi_devinfo (bio s)) e) (chain_blocks (swapextents s));
  si_count : swap_pages_allocated s = count_usable (toi_devinfo (bio s)) (chain_blocks (swapextents s));
  si_devs : length (toi_devinfo (bio s)) = MAX_SWAPFILES;
  si_chains : Forall wf_chain (block_chain (bio s));
  si_nchains : length (block_chain (bio s)) = MAX_SWAPFILES;
  si_tape : tape (block_chain (bio s)) ≡ₚ
    map cell_of (filter (fun e => usable (toi_devinfo (bio s)) e = true) (chain_blocks (swapextents s)));
  si_saves : length (toi_writer_posn_save (bio s)) = 4%nat;
  si_idle : idle (bio s)
}.

Lemma entry_device_usable infos devs e :
  entry_device infos devs e -> usable devs e = true ->
  exists si, infos !! Z.to_nat (swp_type e) = Some si /\ si_ram si = false /\ live infos e = true /\
    devs !! Z.to_nat (swp_type e) = Some (BdevInfo (si_bdev si) (si_bdev si) 3 1 false).
Proof.
  intros (si & d & Hi & Hd & Hb & Hr & He) Hu. unfold usable in Hu. rewrite Hd in Hu.
  exists si. rewrite Hr in Hu. destruct (si_ram si); [done|]. split_and!; auto. by rewrite <- He.
Qed.

Section Invariant.
Context (s : swap_state mm) (Hinv : swap_inv s) (Hlay : swap_layout (swap_info (swap_mm s))).

Lemma inv_cell c :
  c ∈ tape (block_chain (bio s)) ->
  exists e si, c = cell_of e /\ e ∈ chain_blocks (swapextents s) /\
    usable (toi_devinfo (bio s)) e = true /\ wf_entry_no e /\
    swap_info (swap_mm s) !! Z.to_nat (swp_type e) = Some si /\ si_ram si = false /\
    live (swap_info (swap_mm s)) e = true /\
    toi_devinfo (bio s) !! Z.to_nat (swp_type e) = Some (BdevInfo (si_bdev si) (si_bdev si) 3 1 false).
Proof using Hinv.
  intros Hc. rewrite (si_tape _ Hinv) in Hc.
  apply list_elem_of_In, in_map_iff in Hc as (e & <- & He%list_elem_of_In).
  apply list_elem_of_filter in He as [Hu He].
  pose proof (si_entries _ Hinv) as Hen. rewrite Forall_forall in Hen. destruct (Hen _ He) as [Hw Hd].
  destruct (entry_device_usable _ _ _ Hd Hu) as (si & ? & ? & ? & ?). exists e, si. by split_and!.
Qed.

Lemma inv_cells :
  Forall (fun c => 0 <= fst c /\ 0 <= snd c < 2 ^ 31 - 1 /\
    exists d, toi_devinfo (bio s) !! Z.to_nat (fst c) = Some d /\ blocks_per_page d = 1 /\ bmap_shift d = 3)
    (tape (block_chain (bio s))).
Proof using Hinv Hlay.
  apply Forall_forall. intros c Hc. destruct (inv_cell c Hc) as (e & si & -> & _ & _ & [Hw0 Hw] & Hi & Hr & Hv & Hd).
  pose proof (sl_small _ Hlay e si Hi Hv Hr Hw0). cbn [cell_of fst]. split_and!; try lia. eexists. by rewrite Hd.
Qed.

Lemma inv_places : NoDup (map (place (toi_devinfo (bio s))) (tape (block_chain (bio s)))).
Proof using Hinv Hlay.
  set (devs := toi_devinfo (bio s)). set (us := filter (fun e => usable devs e = true) (chain_blocks (swapextents s))).
  assert (map (place devs) (tape (block_chain (bio s))) ≡ₚ map (fun e => place devs (cell_of e)) us) as Hp.
  { rewrite (si_tape _ Hinv), map_map. done. }
  rewrite Hp. apply (NoDup_fmap_2_strong (fun e => place devs (cell_of e))).
  - intros e1 e2 H1 H2 Heq. apply list_elem_of_filter in H1 as [Hu1 H1], H2 as [Hu2 H2].
    pose proof (si_entries _ Hinv) as Hen. rewrite Forall_forall in Hen.
    destruct (Hen _ H1) as [[Ht1 _] Hd1], (Hen _ H2) as [[Ht2 _] Hd2].
    destruct (entry_device_usable _ _ _ Hd1 Hu1) as (si1 & Hi1 & Hr1 & ? & Hv1).
    destruct (entry_device_usable _ _ _ Hd2 Hu2) as (si2 & Hi2 & Hr2 & ? & Hv2).
    apply (sl_distinct _ Hlay e1 e2 si1 si2); auto.
    unfold place in Heq. cbn [cell_of fst snd] in *. fold devs in Hv1, Hv2. rewrite Hv1, Hv2 in Heq.
    cbn [bdev bmap_shift] in Heq. rewrite !Z.shiftl_mul_pow2 in Heq by lia.
    injection Heq as Hb Hs. f_equal; [done|]. lia.
  - apply list.NoDup_filter, chain_blocks_NoDup, Hinv.
Qed.

Lemma inv_short : Forall (fun c => Z.of_nat (length (chain_exts c)) < 2 ^ 31) (block_chain (bio s)).
Proof using Hinv Hlay.
  apply Forall_lookup. intros i c Hc. pose proof (Forall_lookup_1 _ _ _ _ (si_chains _ Hinv) Hc) as Hw.
  pose proof (wf_from_short 0 (chain_exts c) (2 ^ 31 - 1) (wf_sorted _ Hw)) as Hs.
  enough (Z.of_nat (length (chain_exts c)) <= 2 ^ 31 - 1 - 0) by lia. apply Hs; [|lia]. intros b Hb.
  pose proof (inv_cells) as Hcs. rewrite Forall_forall in Hcs.
  apply (Hcs (0 + Z.of_nat i, b)). by eapply tape_from_elem.
Qed.

(** The tape is well-formed at any position over the block chains. *)
Lemma inv_wf_tape b p :
  toi_devinfo b = toi_devinfo (bio s) -> it_chains p = block_chain (bio s) -> wf_iter p ->
  length (toi_writer_posn_save b) = 4%nat -> wf_tape (b {{ toi_writer_posn := p }}).
Proof using Hinv Hlay.
  intros Hd Hc Hp Hs. split; cbn [toi_writer_posn set_field toi_devinfo]; auto; rewrite Hd, Hc.
  - by rewrite (si_devs _ Hinv), (si_nchains _ Hinv).
  - apply Forall2_same_length_lookup_2.
    { rewrite length_map. by rewrite (si_devs _ Hinv), (si_nchains _ Hinv). }
    intros i d l Hdi Hl Hne. rewrite list_lookup_fmap in Hl.
    destruct (block_chain (bio s) !! i) as [c|] eqn:Hci; [|done]. injection Hl as <-.
    destruct (chain_exts c) as [|e l] eqn:He; [done|].
    pose proof (Forall_lookup_1 _ _ _ _ (si_chains _ Hinv) Hci) as Hw.
    destruct (wf_from_elem _ _ e (wf_sorted _ Hw)) as [? ?]; [rewrite He; by left|].
    pose proof inv_cells as Hcs. rewrite Forall_forall in Hcs.
    destruct (Hcs (0 + Z.of_nat i, ext_start e)) as (_ & _ & d' & Hd' & Hb & _).
    { eapply tape_from_elem; [done|]. unfold chain_blocks. rewrite He. cbn [exts_blocks flat_map].
      apply elem_of_app. left. unfold ext_blocks, ext_len. apply elem_of_seqZ. lia. }
    cbn [fst] in Hd'. rewrite Z.add_0_l, Nat2Z.id, Hdi in Hd'. injection Hd' as <-. lia.
Qed.

Lemma inv_start_pages k :
  exists m, pages (toi_devinfo (bio s)) (-1, tape (block_chain (bio s)))
    (take k (tape (block_chain (bio s)))) (m, drop k (tape (block_chain (bio s)))).
Proof using Hinv Hlay.
  destruct (pages_take (toi_devinfo (bio s)) (-1) (tape (block_chain (bio s))) k) as (m & Hp & _);
    [|by left|by exists m].
  eapply Forall_impl; [exact inv_cells|]. intros c (? & _ & d & ? & ? & _). eauto.
Qed.

Definition start_posn : toi_extent_iterate_state := toi_extent_state_goto_start (toi_writer_posn (bio s)).

Lemma start_wf : wf_iter start_posn.
Proof using Hinv.
  apply goto_start_wf. eapply Forall_impl; [apply (si_chains _ Hinv)|]. intros c Hc. apply Hc.
Qed.

Lemma inv_at_start : wf_tape (at_start (bio s)).
Proof using Hinv Hlay. apply inv_wf_tape; auto using start_wf; apply Hinv. Qed.

Lemma header_reserved k :
  header_pages_reserved s = Z.of_nat k -> (k <= length (tape (block_chain (bio s))))%nat ->
  exists p sv, apply_header_reservation s =
      Some (s {{ bio := (bio s) {{ toi_writer_posn := p;
                   toi_writer_posn_save := <[2%nat := sv]> (toi_writer_posn_save (bio s)) }} }}, 0) /\
    savable p /\ it_chains p = block_chain (bio s) /\ toi_extent_state_restore p sv = Some p /\
    rest_of p = drop k (tape (block_chain (bio s))) /\
    list.last ((-1, 0) :: take k (tape (block_chain (bio s)))) = Some (current_chain p, current_offset p).
Proof using Hinv Hlay.
  intros Hk Hle. destruct (inv_start_pages k) as [m Hp].
  destruct (reserve_pages_ok (bio s) inv_at_start (id_extra _ (si_idle _ Hinv)) inv_short _ _ Hp)
    as (p & sv & Hr & Hsv & Hc & Hrest & Hv & Hl).
  rewrite length_take_le in Hr by done. injection Hv as _ Hv.
  exists p, sv. split_and!; auto.
  unfold apply_header_reservation, bind, get. rewrite Hk, Nat2Z.id. unfold in_bio. by rewrite Hr.
Qed.

Lemma header_too_big k :
  header_pages_reserved s = Z.of_nat k -> (length (tape (block_chain (bio s))) < k)%nat ->
  exists p, apply_header_reservation s =
      Some (s {{ bio := (bio s) {{ toi_writer_posn := p }} }}, - ENOSPC) /\
    it_chains p = block_chain (bio s).
Proof using Hinv Hlay.
  intros Hk Hlt. destruct (inv_start_pages (length (tape (block_chain (bio s))))) as [m Hp].
  rewrite firstn_all, drop_ge in Hp by done.
  destruct (reserve_pages_short (bio s) inv_at_start (id_extra _ (si_idle _ Hinv)) inv_short _ _ k Hp)
    as (p & Hr & Hc); [|done|].
  { unfold next_page. cbn [snd]. destruct (page_cells _ _) as [[|n]|]; [done| |done]. by rewrite drop_nil. }
  exists p. split; [|done].
  unfold apply_header_reservation, bind, get. rewrite Hk, Nat2Z.id. unfold in_bio. by rewrite Hr.
Qed.

(** The header pages have been set aside: slot 2 holds the position after
    them, the writer's current one. *)
Definition header_placed (b : bio_state) (k : nat) : Prop :=
  exists sv, toi_writer_posn_save b !! 2%nat = Some sv /\ savable (toi_writer_posn b) /\
    toi_extent_state_restore (toi_writer_posn b) sv = Some (toi_writer_posn b) /\
    rest_of (toi_writer_posn b) = drop k (tape (block_chain b)) /\
    list.last ((-1, 0) :: take k (tape (block_chain b))) =
      Some (current_chain (toi_writer_posn b), current_offset (toi_writer_posn b)).

Lemma swap_inv_posn p sl :
  it_chains p = block_chain (bio s) -> length sl = 4%nat ->
  swap_inv (s {{ bio := (bio s) {{ toi_writer_posn := p; toi_writer_posn_save := sl }} }}).
Proof using Hinv.
  intros Hp Hl. destruct Hinv as [? ? ? ? ? ? Hc Hn Ht ? [? ? ? ? ?]].
  assert (block_chain (bio (s {{ bio := (bio s) {{ toi_writer_posn := p; toi_writer_posn_save := sl }} }}))
    = block_chain (bio s)) as E by exact Hp.
  split; auto; rewrite ?E; auto. by split.
Qed.

(** Setting the header aside succeeds exactly when the tape is long enough. *)
Lemma apply_header_reservation_spec k :
  header_pages_reserved s = Z.of_nat k ->
  exists p sl r, apply_header_reservation s =
      Some (s {{ bio := (bio s) {{ toi_writer_posn := p; toi_writer_posn_save := sl }} }}, r) /\
    it_chains p = block_chain (bio s) /\ length sl = 4%nat /\
    (r = 0 /\ (k <= length (tape (block_chain (bio s))))%nat /\
       header_placed ((bio s) {{ toi_writer_posn := p; toi_writer_posn_save := sl }}) k \/
     r = - ENOSPC /\ (length (tape (block_chain (bio s))) < k)%nat).
Proof using Hinv Hlay.
  intros Hk. destruct (decide (k <= length (tape (block_chain (bio s))))%nat) as [Hle|Hgt].
  - destruct (header_reserved k Hk Hle) as (p & sv & Ha & Hsv & Hc & Hr & Hrest & Hl).
    eexists p, _, 0. split; [exact Ha|]. split; [done|].
    rewrite length_insert. split; [apply Hinv|]. left. split_and!; auto.
    exists sv. unfold block_chain. cbn [toi_writer_posn toi_writer_posn_save set_field]. rewrite Hc.
    split_and!; auto. apply list_lookup_insert_eq. rewrite (si_saves _ Hinv). lia.
  - destruct (header_too_big k Hk ltac:(lia)) as (p & Ha & Hc).
    exists p, (toi_writer_posn_save (bio s)), (- ENOSPC). split_and!; [|done|apply Hinv|right; split; [done|lia]].
    rewrite Ha. by destruct s as [[] ? ? ? ? ? ? ? ? ? ? ? ? ? ? ? ? ? ?].
Qed.

(** ** The second stream starts after the header *)
Lemma header_placed_ready k b :
  header_placed b k -> block_chain b = block_chain (bio s) -> toi_devinfo b = toi_devinfo (bio s) ->
  length (toi_writer_posn_save b) = 4%nat -> idle b ->
  stream_ready 2 b (toi_writer_posn b).
Proof using Hinv Hlay.
  intros (sv & Hsl & Hsv & Hr & Hrest & Hl) Hc Hd Hl4 Hidle. pose proof Hsv as (Hw & _).
  pose proof inv_cells as Hcells.
  assert (rest_of (toi_writer_posn b) `sublist_of` tape (block_chain (bio s))) as Hsub
    by (rewrite Hrest, Hc; apply sublist_drop).
  split; auto.
  - pose proof (inv_wf_tape b (toi_writer_posn b) Hd Hc Hw Hl4) as Ht. by destruct b.
  - by exists sv.
  - rewrite Forall_forall in Hcells. apply Forall_forall. intros c Hin.
    apply elem_of_cons in Hin as [->|Hin].
    + apply last_Some_elem_of, elem_of_cons in Hl as [E|Hin]; [injection E as -> ->; simpl; lia|].
      eapply elem_of_sublist in Hin; [|apply sublist_take]. rewrite Hc in Hin.
      destruct (Hcells _ Hin) as (_ & ? & _). lia.
    + eapply elem_of_sublist in Hin; [|exact Hsub]. destruct (Hcells _ Hin) as (_ & ? & _). lia.
  - apply whole_page_layout.
    + apply Forall_forall. intros c Hin. eapply elem_of_sublist in Hin; [|exact Hsub].
      rewrite Forall_forall in Hcells. destruct (Hcells _ Hin) as (_ & _ & d & Hdd & _ & ?).
      exists d. by rewrite Hd.
    + rewrite Hd. eapply sublist_NoDup; [exact inv_places|]. by apply (fmap_sublist (place _)).
Qed.
End Invariant.

(** ** Allocating *)

Definition refreshed (s : swap_state mm) : swap_state mm :=
  s {{ bio := (bio s) {{ toi_devinfo :=
         zip_with refresh_devinfo (swap_info (swap_mm s)) (toi_devinfo (bio s)) }} }}.

Lemma refreshed_lookup infos devs i si d :
  infos !! i = Some si -> devs !! i = Some d ->
  zip_with refresh_devinfo infos devs !! i = Some (refresh_devinfo si d).
Proof. intros Hi Hd. by rewrite lookup_zip_with, Hi, Hd. Qed.

Lemma refreshed_usable infos devs e :
  entry_device infos devs e -> usable (zip_with refresh_devinfo infos devs) e = usable devs e.
Proof.
  intros (si & d & Hi & Hd & Hb & Hr & _). unfold usable.
  rewrite (refreshed_lookup _ _ _ _ _ Hi Hd), Hd, Hr. unfold refresh_devinfo.
  unfold live in Hb. rewrite Hi in Hb. breflect. rewrite (proj2 (Z.eqb_neq (si_bdev si) 0)) by lia. by destruct (si_ram si).
Qed.

(** A live entry's device is in the refreshed table. *)
Lemma refreshed_device infos devs e :
  live infos e = true -> length devs = length infos ->
  entry_device infos (zip_with refresh_devinfo infos devs) e.
Proof.
  intros Hv Hl. pose proof Hv as Hb. unfold live in Hb.
  destruct (infos !! Z.to_nat (swp_type e)) as [si|] eqn:Hi; [|done]. breflect.
  destruct (lookup_lt_is_Some_2 devs (Z.to_nat (swp_type e))) as [d Hd];
    [rewrite Hl; by eapply lookup_lt_Some|].
  exists si, (refresh_devinfo si d). split_and!; auto; [by apply refreshed_lookup|..];
    unfold refresh_devinfo; rewrite (proj2 (Z.eqb_neq (si_bdev si) 0)) by lia;
    by destruct (si_ram si).
Qed.

Lemma entry_device_live infos devs e : entry_device infos devs e -> live infos e = true.
Proof. by intros (si & d & _ & _ & Hb & _). Qed.

Lemma filter_usable_ext devs devs' l :
  Forall (fun e => usable devs' e = usable devs e) l ->
  filter (fun e => usable devs' e = true) l = filter (fun e => usable devs e = true) l.
Proof. intros Hf. apply filter_bool_ext. intros e He. rewrite Forall_forall in Hf. auto. Qed.

Lemma refreshed_inv s : swap_inv s -> swap_inv (refreshed s).
Proof.
  intros [? ? ? He Hct Hd ? ? Ht ? [? ? ? ? ?]].
  assert (length (swap_info (swap_mm s)) = MAX_SWAPFILES) as Hil by apply swap_info_length.
  assert (Forall (fun e => usable (toi_devinfo (bio (refreshed s))) e = usable (toi_devinfo (bio s)) e)
            (chain_blocks (swapextents s))) as Hu.
  { eapply Forall_impl; [exact He|]. intros e [_ Hde]. by apply refreshed_usable. }
  split; auto.
  - eapply Forall_impl; [exact He|]. intros e [? Hde]. split; [done|].
    apply refreshed_device; [by eapply entry_device_live|]. by rewrite Hd.
  - cbn [swap_pages_allocated swapextents refreshed set_field]. rewrite Hct. unfold count_usable.
    by rewrite <- (filter_usable_ext _ _ _ Hu).
  - cbn. rewrite length_zip_with. rewrite Hil, Hd. done.
  - cbn [swapextents refreshed set_field]. rewrite (filter_usable_ext _ _ _ Hu). done.
  - by split.
Qed.

(** Equal devices carry the layout and the entries' devices over. *)
Lemma entry_device_same infos infos' devs e :
  map si_device infos' = map si_device infos -> entry_device infos devs e -> entry_device infos' devs e.
Proof.
  intros Hm (si & d & Hi & Hd & Hb & Hr & He).
  destruct (devices_lookup _ _ _ _ Hm Hi) as (si' & Hi' & Hb' & Hr' & _).
  exists si', d. rewrite Hb', Hr'. split_and!; auto. by apply (live_same _ infos).
Qed.

Lemma swap_layout_same infos infos' :
  map si_device infos' = map si_device infos -> swap_layout infos -> swap_layout infos'.
Proof.
  intros Hm [Hs Hd]. split.
  - intros e si Hi Hv Hr Hn. destruct (devices_lookup _ _ _ _ (eq_sym Hm) Hi) as (si' & Hi' & _ & Hr' & _).
    eapply Hs; [done|by eapply live_same|congruence|done].
  - intros e1 e2 si1 si2 H1 H2 Hv1 Hv2 Hr1 Hr2 Ht1 Ht2 Heq.
    destruct (devices_lookup _ _ _ _ (eq_sym Hm) H1) as (si1' & Hi1 & Hb1 & Hr1' & _).
    destruct (devices_lookup _ _ _ _ (eq_sym Hm) H2) as (si2' & Hi2 & Hb2 & Hr2' & _).
    eapply (Hd e1 e2); eauto using live_same; congruence.
Qed.

(** Entries of live devices whose blocks are laid out well. *)
Lemma layout_good infos devs l :
  swap_layout infos -> NoDup l -> Forall (fun e => wf_entry_no e /\ entry_device infos devs e) l ->
  good_entries devs l.
Proof.
  intros Hlay Hn Hl. rewrite Forall_forall in Hl. split.
  - apply Forall_forall. intros e He. apply (Hl _ He).
  - apply Forall_forall. intros e He Hu. destruct (Hl _ He) as [[? _] Hd].
    destruct (entry_device_usable _ _ _ Hd Hu) as (si & Hi & Hr & Hv & _). by eapply sl_small.
  - apply (NoDup_fmap_2_strong cell_of); [|by apply list.NoDup_filter].
    intros e1 e2 H1 H2 Heq. apply list_elem_of_filter in H1 as [Hu1 H1], H2 as [Hu2 H2].
    destruct (Hl _ H1) as [[Ht1 _] Hd1], (Hl _ H2) as [[Ht2 _] Hd2].
    destruct (entry_device_usable _ _ _ Hd1 Hu1) as (si1 & Hi1 & Hr1 & ? & _).
    destruct (entry_device_usable _ _ _ Hd2 Hu2) as (si2 & Hi2 & Hr2 & ? & _).
    apply (sl_distinct _ Hlay e1 e2 si1 si2); auto.
    pose proof (f_equal fst Heq) as Hf. cbn [cell_of fst] in Hf.
    rewrite Hf, Hi2 in Hi1. injection Hi1 as ->. by rewrite Heq.
Qed.

Lemma allocate_entries s request :
  swap_inv s -> 0 < pages_wanted s request ->
  exists c m gotten new,
    (x <-- get_swap_pages (S (swap_room (swap_mm s))) (pages_wanted s request)
             (repeat None MAX_SWAPFILES) 0;;
     add_ranges 0 (fst x) (snd x))%step (refreshed s) =
      Some ((refreshed s) {{ swapextents := c; swap_mm := m }}, gotten) /\
    wf_chain c /\ chain_blocks c ≡ₚ new ++ chain_blocks (swapextents s) /\ NoDup (chain_blocks c) /\
    (forall x, in_use m x = bool_decide (x ∈ new) || in_use (swap_mm s) x) /\
    Forall (fun x => in_use (swap_mm s) x = false /\ wf_entry_no x /\
                     live (swap_info (swap_mm s)) x = true) new /\
    gotten = count_usable (toi_devinfo (bio (refreshed s))) new /\ gotten <= pages_wanted s request /\
    map si_device (swap_info m) = map si_device (swap_info (swap_mm s)).
Proof.
  intros Hinv Hw. pose proof (refreshed_inv s Hinv) as Hi.
  assert (alloc_inv (refreshed s) (refreshed s) (repeat None MAX_SWAPFILES) 0 []) as Ha.
  { split; auto; try apply Hi.
    - by apply Forall_forall; intros r ?%list_elem_of_In%repeat_spec; subst.
    - by rewrite held_none, app_nil_r.
    - apply chain_blocks_NoDup, Hi. }
  destruct (get_swap_pages_spec (S (swap_room (swap_mm s))) (pages_wanted s request) (refreshed s)
              (refreshed s) (repeat None MAX_SWAPFILES) 0 [])
    as (s1 & ta & g & new & Hg & Ha1 & Hle & _);
    [change (swap_mm (refreshed s)) with (swap_mm s); lia|done|lia|].
  destruct (add_ranges_spec 0 ta g s1 (new ++ chain_blocks (swapextents s))) as (c & Hr & Hc & Hcb);
    [by eapply alloc_inv_memory|apply Ha1..|].
  exists c, (swap_mm s1), g, new. unfold bind. rewrite Hg. cbn [fst snd]. rewrite Hr.
  split_and!; auto; try apply Ha1.
  - f_equal. f_equal. pose proof (ai_same _ _ _ _ _ Ha1) as E. rewrite E at 1. done.
  - by apply chain_blocks_NoDup.
Qed.

(** Once the entries are in the chain, the blocks follow. *)
Lemma main_pool_inv (s : swap_state mm) c m gotten new :
  swap_inv s -> swap_layout (swap_info (swap_mm s)) ->
  wf_chain c -> chain_blocks c ≡ₚ new ++ chain_blocks (swapextents s) -> NoDup (chain_blocks c) ->
  (forall x, in_use m x = bool_decide (x ∈ new) || in_use (swap_mm s) x) ->
  Forall (fun x => in_use (swap_mm s) x = false /\ wf_entry_no x /\
                   live (swap_info (swap_mm s)) x = true) new ->
  gotten = count_usable (toi_devinfo (bio (refreshed s))) new ->
  map si_device (swap_info m) = map si_device (swap_info (swap_mm s)) ->
  let s1 := (refreshed s) {{ swapextents := c; swap_mm := m;
                             swap_pages_allocated := swap_pages_allocated s + gotten }} in
  exists cs, get_main_pool_phys_params env s1 =
      apply_header_reservation (s1 {{ bio := set_block_chain cs (bio s1) }}) /\
    swap_inv (s1 {{ bio := set_block_chain cs (bio s1) }}).
Proof.
  intros Hinv. pose proof (si_devs _ Hinv) as Hdl0. revert Hinv.
  intros [Hmem Hex Hown Hent Hct Hdl Hch Hnc Htp Hsv [Hi1 Hi2 Hi3 Hi4 Hi5]]%refreshed_inv Hlay Hc Hcb Hnd Hu Hnew Hg Hdv s1.
  assert (Forall (fun e => wf_entry_no e /\ entry_device (swap_info m) (toi_devinfo (bio (refreshed s))) e)
            (chain_blocks c)) as Hent1.
  { rewrite Hcb. apply Forall_app. split.
    - eapply Forall_impl; [exact Hnew|]. intros e (_ & Hw & Hl). split; [done|].
      apply (entry_device_same _ _ _ _ Hdv), refreshed_device; [done|].
      by rewrite swap_info_length.
    - eapply Forall_impl; [exact Hent|]. intros e [Hw Hd]. split; [done|].
      by apply (entry_device_same _ _ _ _ Hdv). }
  destruct (main_pool_blocks s1) as (cs & Hgm & Hcs & Hcl & Hct1); auto.
  { change (good_entries (toi_devinfo (bio (refreshed s))) (chain_blocks c)).
    eapply (layout_good (swap_info m)); auto. by eapply swap_layout_same. }
  exists cs. split; [done|]. split; auto.
  - change (Forall (fun e => in_use m e = true) (chain_blocks c)). rewrite Hcb. apply Forall_app. split.
    + apply Forall_forall. intros e He. rewrite Hu. by rewrite bool_decide_eq_true_2.
    + eapply Forall_impl; [exact Hown|]. intros e He. rewrite Hu. change (in_use (swap_mm s) e = true) in He.
      by rewrite He, orb_true_r.
  - change (swap_pages_allocated s + gotten = count_usable (toi_devinfo (bio (refreshed s))) (chain_blocks c)).
    change (swap_pages_allocated s = count_usable (toi_devinfo (bio (refreshed s))) (chain_blocks (swapextents s))) in Hct.
    rewrite Hct, Hg. unfold count_usable. rewrite Hcb, list.filter_app, length_app. lia.
  - by split.
Qed.

Lemma allocate_storage_spec s request k :
  swap_inv s -> swap_layout (swap_info (swap_mm s)) -> header_pages_reserved s = Z.of_nat k ->
  exists s' r new, toi_swap_allocate_storage env request s = Some (s', r) /\ swap_inv s' /\
    swap_layout (swap_info (swap_mm s')) /\
    chain_blocks (swapextents s') ≡ₚ new ++ chain_blocks (swapextents s) /\
    (forall x, in_use (swap_mm s') x = bool_decide (x ∈ new) || in_use (swap_mm s) x) /\
    Forall (fun x => in_use (swap_mm s) x = false) new /\
    header_pages_reserved s' = Z.of_nat k /\ toi_result (bio s') = toi_result (bio s) /\
    (r = 0 /\ swap_pages_allocated s + pages_wanted s request <= swap_pages_allocated s' /\
       header_placed (bio s') k /\ (k <= length (tape (block_chain (bio s'))))%nat
     \/ r = - ENOSPC).
Proof.
  intros Hinv Hlay Hk. unfold toi_swap_allocate_storage.
  destruct (Z.ltb_spec (pages_wanted s request) 1) as [Hlt|Hge].
  - destruct (apply_header_reservation_spec s Hinv Hlay k Hk) as (p & sl & r & Ha & Hc & Hl & Hr).
    eexists _, r, []. split; [exact Ha|]. split; [by apply swap_inv_posn|]. split_and!; auto.
    destruct Hr as [(-> & Hle & Hp)|[-> _]]; [left|by right]. split_and!; auto; [simpl; lia|].
    change (block_chain (bio _)) with (it_chains p). by rewrite Hc.
  - destruct (allocate_entries s request Hinv ltac:(lia))
      as (c & m & g & new & He & Hc & Hcb & Hnd & Hu & Hnew & Hg & Hgle & Hdv).
    destruct (main_pool_inv s c m g new Hinv Hlay Hc Hcb Hnd Hu Hnew Hg Hdv) as (cs & Hm & Hi1).
    set (s1 := (refreshed s) {{ swapextents := c; swap_mm := m;
                 swap_pages_allocated := swap_pages_allocated s + g }}) in *.
    set (s2 := s1 {{ bio := set_block_chain cs (bio s1) }}) in *.
    assert (swap_layout (swap_info (swap_mm s2))) as Hlay2 by (by eapply swap_layout_same).
    destruct (apply_header_reservation_spec s2 Hi1 Hlay2 k Hk) as (p & sl & r & Ha & Hpc & Hl & Hr).
    eexists _, (if g <? pages_wanted s request then - ENOSPC else r), new. split.
    { unfold refresh_devinfos, bind at 1, modify. fold (refreshed s).
      unfold bind in He |- *. destruct (get_swap_pages _ _ _ _ _) as [[s0 x]|]; [|done].
      rewrite He. unfold modify.
      match goal with |- context [get_main_pool_phys_params env ?x] => change x with s1 end.
      rewrite Hm. fold s2. rewrite Ha. done. }
    split; [by apply swap_inv_posn|]. split_and!; auto.
    { eapply Forall_impl; [exact Hnew|]. by intros x [? _]. }
    destruct (Z.ltb_spec g (pages_wanted s request)); [by right|].
    destruct Hr as [(-> & Hle & Hp)|[-> _]]; [left|by right]. split_and!; auto; [simpl; lia|].
    change (block_chain (bio _)) with (it_chains p). by rewrite Hpc.
Qed.

(** ** Releasing *)

Lemma free_entries_spec l (m : mm) x :
  in_use (free_entries l m) x = in_use m x && negb (bool_decide (x ∈ l)) /\
  map si_device (swap_info (free_entries l m)) = map si_device (swap_info m).
Proof.
  revert m. induction l as [|e l IH]; intros m; cbn [free_entries foldl].
  - rewrite bool_decide_eq_false_2 by apply not_elem_of_nil. by rewrite andb_true_r.
  - destruct (IH (swap_free e m)) as [Hu Hd]. fold (free_entries l (swap_free e m)).
    rewrite Hu, Hd, swap_free_ok, swap_free_devices. split; [|done].
    rewrite <- andb_assoc, <- negb_orb, <- bool_decide_or. do 2 f_equal. apply bool_decide_ext.
    by rewrite elem_of_cons.
Qed.

Lemma release_storage_spec (s : swap_state mm) :
  swap_inv s ->
  exists s', toi_swap_release_storage s = Some (s', 0) /\ swap_inv s' /\
    chain_exts (swapextents s') = [] /\ tape (block_chain (bio s')) = [] /\
    swap_pages_allocated s' = 0 /\ header_pages_reserved s' = 0 /\
    forall x, in_use (swap_mm s') x =
      in_use (swap_mm s) x && negb (bool_decide (x ∈ chain_blocks (swapextents s))).
Proof.
  intros [Hmem Hex Hown Hent Hct Hdl Hch Hnc Htp Hsv Hid].
  unfold toi_swap_release_storage, bind, modify, get.
  cbn [swapextents set_field]. destruct (chain_exts (swapextents s)) as [|e l] eqn:Hex0.
  - assert (chain_blocks (swapextents s) = []) as Hb by (unfold chain_blocks; by rewrite Hex0).
    rewrite Hb in Htp. assert (tape (block_chain (bio s)) = []) as Ht by (by apply Permutation_nil_r).
    eexists. split; [done|]. split_and!; auto.
    + split; auto; cbn [swapextents set_field]; rewrite Hb; [done|].
      change (tape (block_chain (bio s)) ≡ₚ []). by rewrite Ht.
    + intros x. cbn [swap_mm set_field]. rewrite Hb, bool_decide_eq_false_2 by apply not_elem_of_nil. by rewrite andb_true_r.
  - rewrite (chain_values_spec _ Hex). unfold in_mm, in_bio, free_block_chains, modify. eexists. split; [reflexivity|].
    fold (emptied (block_chain (bio s))). destruct Hid.
    split_and!; auto.
    + split; auto; try done; [by apply put_wf|by apply emptied_wf| |].
      * change (length (emptied (block_chain (bio s))) = MAX_SWAPFILES). unfold emptied. by rewrite length_map.
      * change (tape (emptied (block_chain (bio s))) ≡ₚ []). unfold tape. by rewrite emptied_tape.
    + change (tape (emptied (block_chain (bio s))) = []). apply emptied_tape.
    + intros x. cbn [swap_mm set_field]. apply free_entries_spec.
Qed.
End Alloc.

Section Properties.
Context {mm : Type} `{SwapMap mm} (env : swap_env mm).



Lemma drop_pages s k :
  swap_inv env s -> swap_layout env (swap_info (swap_mm s)) -> header_placed (bio s) k ->
  exists vend, pages (toi_devinfo (bio s)) (start_of (toi_writer_posn (bio s)))
    (drop k (tape (block_chain (bio s)))) vend.
Proof.
  intros Hi Hl (sv & _ & Hsv & _ & Hrest & Hlast).
  pose proof (inv_cells env s Hi Hl) as Hc.
  destruct (pages_take (toi_devinfo (bio s)) (current_chain (toi_writer_posn (bio s)))
    (drop k (tape (block_chain (bio s)))) (length (drop k (tape (block_chain (bio s))))))
    as (m & Hp & _).
  - apply Forall_drop. eapply Forall_impl; [exact Hc|]. intros c (? & _ & d & ? & ? & _). eauto.
  - apply last_Some_elem_of, elem_of_cons in Hlast as [E|Hin]; [injection E; auto|right].
    eapply elem_of_sublist in Hin; [|apply sublist_take]. rewrite Forall_forall in Hc.
    destruct (Hc _ Hin) as (? & _ & d & ? & ? & _). eauto.
  - rewrite firstn_all in Hp. unfold start_of. simpl. rewrite Hrest. eauto.
Qed.

(** C13: The storage the allocator reports holds an image.  When
    [toi_swap_allocate_storage] has returned 0, any image of at most
    [toi_swap_storage_allocated] pages, compressed or not, can be written to
    the second stream, which is then closed; and a kernel that has reloaded
    the metadata reads it back. *)
Theorem allocated_storage_holds_image s request k s' l :
  swap_inv env s -> swap_layout env (swap_info (swap_mm s)) -> header_pages_reserved s = Z.of_nat k ->
  toi_swap_allocate_storage env request s = Some (s', 0) -> swap_pages_allocated s' < 2 ^ 31 ->
  Z.of_nat (length l) <= toi_swap_storage_allocated s' ->
  Forall (fun e => wf_entry e /\ snd e <= PAGE_SIZE) l ->
  test_result_state TOI_ABORTED (toi_result (bio s)) = false ->
  exists st1 st2 st3, toi_rw_init WRITE 2 (bio s') = Some (st1, 0) /\
    write_image l st1 = Some (st2, 0) /\ toi_rw_cleanup WRITE st2 = Some (st3, 0) /\
    forall r, reloaded st3 r ->
      exists r1 r2, toi_rw_init READ 2 r = Some (r1, 0) /\
        read_image (length l) r1 = Some (r2, (map entry_read l, 0)).
Proof.
  intros Hi Hl Hk Ha Hb Hlen Hent Hab.
  destruct (allocate_storage_spec env s request k Hi Hl Hk)
    as (s0 & r & new & Ha' & Hi1 & Hl1 & _ & _ & _ & Hk1 & Hres & Hr).
  rewrite Ha in Ha'. injection Ha' as <- <-. destruct Hr as [(_ & _ & Hp & Hkt)|?]; [|done].
  assert (Z.of_nat (length (tape (block_chain (bio s')))) = swap_pages_allocated s') as Htl.
  { rewrite (si_count _ _ Hi1), (si_tape _ _ Hi1), length_map. done. }
  destruct (drop_pages s' k Hi1 Hl1 Hp) as [vend Hpg].
  assert (stream_ready 2 (bio s') (toi_writer_posn (bio s'))) as Hready
    by (eapply header_placed_ready; eauto; apply Hi1).
  destruct (stream_written_read 2 (bio s') (toi_writer_posn (bio s')) l
    (drop k (tape (block_chain (bio s')))) vend Hready) as (st1 & st2 & st3 & ? & ? & ? & _ & ?);
    [by eapply Forall_impl; [exact Hent|intros ? [? _]]|by rewrite Hres|done| |by exists st1, st2, st3].
  set (raw := swap_pages_allocated s' - Z.of_nat k).
  assert (0 <= raw < 2 ^ 31) as Hraw by lia.
  assert (toi_swap_storage_allocated s' = raw_to_real raw) as Hst.
  { unfold toi_swap_storage_allocated. rewrite Hk1. fold raw.
    destruct (raw_to_real_nonneg raw ltac:(lia)) as [? ?]. unfold PAGE_SIZE in *. apply s32_small. lia. }
  pose proof (image_fits raw l ltac:(lia) ltac:(lia)) as Hfit.
  rewrite length_drop.
  assert (Z.of_nat (length (image_bytes l)) <= PAGE_SIZE * raw) as Hf.
  { apply Hfit. eapply Forall_impl; [exact Hent|]. intros [[pfn buf] size] [(? & ? & ?) ?]. simpl in *. lia. }
  unfold PAGE_SIZE in *. lia.
Qed.

Lemma free_range_loop_low fuel j max (m : mm) x :
  - 2 ^ 31 <= j < 2 ^ 31 -> max < 2 ^ 64 - 2 ^ 31 -> 2 ^ 31 <= x ->
  in_use (free_range_loop fuel j max m) x = in_use m x.
Proof.
  revert j m. induction fuel as [|fuel IH]; intros j m Hj Hmax Hx; [done|]. cbn [free_range_loop].
  destruct (Z.leb_spec (u64 j) max) as [Hle|]; [|done].
  assert (0 <= j) as Hpos.
  { destruct (Z.lt_ge_cases j 0); [|done]. unfold u64 in Hle.
    rewrite <- (Z.mod_add _ 1), Z.mod_small in Hle; lia. }
  rewrite IH by (auto; apply s32_bounds). rewrite swap_free_ok, u64_small by lia.
  rewrite bool_decide_eq_false_2 by lia. apply andb_true_r.
Qed.

(** [free_swap_range] counts with an [int], so for entries of any swap
    device but the first (numbers of 2^59 and more) it frees none of the
    range it is given, and instead frees entries of the first device. *)
Theorem free_swap_range_wrong_device min max (m : mm) :
  2 ^ 59 <= min <= max -> max < 2 ^ 64 - 2 ^ 31 ->
  (forall x, min <= x <= max -> in_use (free_swap_range min max m) x = in_use m x) /\
  (0 <= s32 min -> in_use (free_swap_range min max m) (s32 min) = false).
Proof.
  intros Hmm Hmax. pose proof (s32_bounds min) as Hb. split.
  - intros x Hx. apply free_range_loop_low; lia.
  - intros Hp. unfold free_swap_range. destruct (Z.to_nat (2 ^ 32)) as [|fuel] eqn:Hf; [lia|].
    cbn [free_range_loop]. rewrite u64_small by lia. rewrite (proj2 (Z.leb_le _ _)) by lia.
    assert (forall fuel j (m : mm) x, in_use m x = false -> in_use (free_range_loop fuel j max m) x = false) as Hstay.
    { clear. induction fuel as [|fuel IH]; intros j m x Hx; [done|]. cbn [free_range_loop].
      destruct (_ <=? _); [|done]. apply IH. by rewrite swap_free_ok, Hx. }
    apply Hstay. rewrite swap_free_ok, bool_decide_eq_true_2 by done. apply andb_false_r.
Qed.
End Properties.

(** ** A fresh machine *)

Definition fresh_swap : swap_state plain_map :=
  sample_swap {{ bio := (bio sample_swap) {{ toi_writer_posn :=
                   IterState (repeat empty_chain MAX_SWAPFILES) (-1) None 0;
                   toi_devinfo := repeat null_bdev_info MAX_SWAPFILES }};
                 swap_pages_allocated := 0 }}.

Lemma empty_chains_wf n : Forall wf_chain (repeat empty_chain n).
Proof.
  apply Forall_forall. intros c ?%list_elem_of_In%repeat_spec. subst. by split.
Qed.

Lemma fresh_inv : swap_inv sample_env fresh_swap.
Proof.
  split; try done. apply empty_chains_wf.
Qed.

Lemma swp_split e1 e2 : swp_type e1 = swp_type e2 -> swp_offset e1 = swp_offset e2 -> e1 = e2.
Proof.
  unfold swp_type, swp_offset, SWP_TYPE_SHIFT. rewrite !Z.land_ones, !Z.shiftr_div_pow2 by lia.
  intros Ht Ho. rewrite (Z.div_mod e1 (2 ^ 59)), (Z.div_mod e2 (2 ^ 59)) by lia. congruence.
Qed.

Lemma sample_layout : swap_layout sample_env (swap_info (swap_mm fresh_swap)).
Proof.
  assert (forall e, live (swap_info (swap_mm fresh_swap)) e = true -> 0 < e < 2 ^ 64 ->
            swp_type e = 0 /\ 0 <= swp_offset e < 100) as Hl.
  { intros e He Hr. unfold live in He. change (swap_info (swap_mm fresh_swap)) with (plain_info sample_map) in He.
    assert (0 <= swp_type e) as Ht by (unfold swp_type; apply Z.shiftr_nonneg; lia).
    assert (0 <= swp_offset e) as Ho by (unfold swp_offset; apply Z.land_nonneg; lia).
    destruct (Z.to_nat (swp_type e)) as [|n] eqn:En.
    - cbn [plain_info sample_map pm_info sample_devices app take MAX_SWAPFILES lookup list_lookup] in He.
      simpl in He. breflect. lia.
    - exfalso. destruct (plain_info sample_map !! S n) as [si|] eqn:Hsi; [|done].
      assert (Forall (fun si => si_bdev si = 0) (tail (plain_info sample_map))) as Hf by by repeat constructor.
      change (tail (plain_info sample_map) !! n = Some si) in Hsi.
      rewrite (Forall_lookup_1 _ _ _ _ Hf Hsi) in He. done. }
  split.
  - intros e si _ Hv _ Hr. destruct (Hl e Hv Hr) as [_ Ho]. cbn. lia.
  - intros e1 e2 si1 si2 _ _ Hv1 Hv2 _ _ Hr1 Hr2 Heq.
    destruct (Hl e1 Hv1 Hr1) as [Ht1 _], (Hl e2 Hv2 Hr2) as [Ht2 _].
    injection Heq as _ Ho. change (swp_offset e1 = swp_offset e2) in Ho.
    apply swp_split; congruence.
Qed.



(** The machine after a request for five pages. *)
Definition allocated_swap : swap_state plain_map :=
  match toi_swap_allocate_storage sample_env 5 fresh_swap with
  | Some (s, _) => s
  | None => fresh_swap
  end.

Lemma allocated_swap_ok :
  toi_swap_allocate_storage sample_env 5 fresh_swap = Some (allocated_swap, 0).
Proof.
  unfold allocated_swap. destruct (toi_swap_allocate_storage sample_env 5 fresh_swap) as [[s r]|] eqn:E.
  - assert (match toi_swap_allocate_storage sample_env 5 fresh_swap with
            | Some (_, r) => r =? 0 | None => false end = true) as Hr by (vm_compute; reflexivity).
    rewrite E in Hr. apply Z.eqb_eq in Hr. by subst.
  - assert (match toi_swap_allocate_storage sample_env 5 fresh_swap with
            | Some _ => true | None => false end = true) as Hr by (vm_compute; reflexivity).
    by rewrite E in Hr.
Qed.

Lemma allocated_storage_holds_image_witness :
  exists st1 st2 st3, toi_rw_init WRITE 2 (bio allocated_swap) = Some (st1, 0) /\
    write_image sample_image st1 = Some (st2, 0) /\ toi_rw_cleanup WRITE st2 = Some (st3, 0) /\
    forall r, reloaded st3 r ->
      exists r1 r2, toi_rw_init READ 2 r = Some (r1, 0) /\
        read_image (length sample_image) r1 = Some (r2, (map entry_read sample_image, 0)).
Proof.
  apply (allocated_storage_holds_image sample_env fresh_swap 5 2 allocated_swap sample_image).
  - apply fresh_inv.
  - apply sample_layout.
  - reflexivity.
  - apply allocated_swap_ok.
  - vm_compute. reflexivity.
  - vm_compute. discriminate.
  - repeat constructor; simpl; unfold PAGE_SIZE; lia.
  - reflexivity.
Defined.

Lemma free_swap_range_wrong_device_witness :
  (forall x, 2 ^ 59 + 5 <= x <= 2 ^ 59 + 6 ->
     in_use (free_swap_range (2 ^ 59 + 5) (2 ^ 59 + 6) sample_map) x = in_use sample_map x) /\
  (0 <= s32 (2 ^ 59 + 5) ->
     in_use (free_swap_range (2 ^ 59 + 5) (2 ^ 59 + 6) sample_map) (s32 (2 ^ 59 + 5)) = false).
Proof. apply (free_swap_range_wrong_device (2 ^ 59 + 5) (2 ^ 59 + 6) sample_map); lia. Defined.
