(* ===== verification/FileStorage.v ===== *)
(** * The file allocator: kernel/power/tuxonice_file.c

    An image is kept in the blocks of an existing file, or on a whole block
    device: the pages of the target whose blocks are contiguous become the
    extent chain of the block I/O layer, and the target's first page carries a
    signature that says whether an image exists and where its header starts.

    [block_chain] and [devinfo] are variables of this allocator, which the
    block layer reaches through the pointers [toi_writer_posn.chains] and
    [toi_devinfo] once [__test_toi_file_target] has set them ([attached]). *)

From S2P Require Import Prelude HeaderStream Extents States BlockIO BlockIOFacts BlockIORead Vsprintf AllocatorIO.
From stdpp Require Import numbers base list strings.
#[local] Open Scope Z_scope.
#[local] Open Scope step_scope.

(** ** Files *)

Inductive file_kind := S_IFSOCK | S_IFLNK | S_IFREG | S_IFBLK | S_IFDIR | S_IFCHR | S_IFIFO.

(** What is looked at in an inode.  [bmap] is the function of that name: the
    disk block of a block of the file, 0 when there is none. *)
Record inode := Inode {
  i_kind : file_kind;
  i_size : Z;
  i_blkbits : Z;
  bmap : Z -> Z;
  i_bdev : Z;          (* I_BDEV: the device that a block device node is *)
  i_sb_bdev : Z        (* i_sb->s_bdev: the device the file is on *)
}.

(** The rest of the kernel: opening files and devices.  [vfs_stat] is the
    device number of a node, [bd_sects] the size of a partition or a disk,
    [None] without one; [bd_claim] tells whether claiming succeeds. *)
Record file_env := FileEnv {
  filp_open : list Z -> option inode;
  name_to_dev_t : list Z -> Z;
  vfs_stat : list Z -> option Z;
  toi_open_by_devnum : Z -> Z;
  bd_inode : Z -> inode;
  bd_dev : Z -> Z;
  bd_claim : Z -> bool;
  bd_sects : Z -> option Z;
  bdevname : Z -> list Z;
  toi_fileops : nat
}.

(** ** State *)

Record file_state := FileState {
  bio : bio_state;
  attached : bool;
  block_chain : hibernate_extent_chain;
  devinfo : toi_bdev_info;
  toi_file_target : list Z;
  target_inode : option inode;
  target_file : bool;
  toi_file_target_bdev : Z;
  resume_file_dev_t : Z;
  used_devt : bool;
  setting_toi_file_target : bool;
  target_firstblock : Z;
  target_header_start : Z;
  target_storage_available : Z;
  target_claim : bool;
  header_pages_reserved : Z;
  main_pages_allocated : Z;
  main_pages_requested : Z;
  is_active : bool;            (* toiActiveAllocator == &toi_fileops *)
  toi_state : Z;
  resume_file : list Z;
  open_files : Z;              (* files opened and not closed *)
  bdev_refs : list Z;          (* references taken on devices *)
  bdev_claims : list Z         (* devices claimed *)
}.

#[export] Instance file_state_eta : Eta file_state := fun s =>
  FileState (bio s) (attached s) (block_chain s) (devinfo s) (toi_file_target s) (target_inode s)
    (target_file s) (toi_file_target_bdev s) (resume_file_dev_t s) (used_devt s)
    (setting_toi_file_target s) (target_firstblock s) (target_header_start s)
    (target_storage_available s) (target_claim s) (header_pages_reserved s)
    (main_pages_allocated s) (main_pages_requested s) (is_active s) (toi_state s) (resume_file s)
    (open_files s) (bdev_refs s) (bdev_claims s).

Abbreviation st := file_state.

(** The block layer as it sees the variables of the allocator. *)
Definition seen (s : st) : bio_state :=
  if attached s then (set_block_chain [block_chain s] (bio s)) {{ toi_devinfo := [devinfo s] }} else bio s.

(** An operation of the block layer; it changes the allocator's variables
    through its pointers. *)
Definition in_bio {A} (m : M bio_state A) : M st A := fun s =>
  match m (seen s) with
  | None => None
  | Some (b, a) =>
      Some (if attached s then
              s {{ bio := b;
                   block_chain := default (block_chain s) (AllocatorIO.block_chain b !! 0%nat);
                   devinfo := default (devinfo s) (toi_devinfo b !! 0%nat) }}
            else s {{ bio := b }}, a)
  end.

Section Operations.
Context (env : file_env) (attempt_to_parse_resume_device : M st unit).

(** ** The target *)

Definition set_devinfo (b target_blkbits : Z) : M st unit :=
  modify (fun s => s {{ devinfo :=
    if target_blkbits =? 0 then (devinfo s) {{ bdev := b; bmap_shift := 0; blocks_per_page := 0 }}
    else (devinfo s) {{ bdev := b; bmap_shift := target_blkbits - 9;
                        blocks_per_page := Z.shiftl 1 (PAGE_SHIFT - target_blkbits) }} }}).

Definition toi_file_storage_available (s : st) : Z :=
  match target_inode s with
  | None => 0
  | Some i =>
      match i_kind i with
      | S_IFSOCK | S_IFCHR | S_IFIFO => -1
      | S_IFREG => s32 (raw_to_real (target_storage_available s))
      | S_IFBLK =>
          match bd_sects env (toi_file_target_bdev s) with
          | None => 0
          | Some sects => s32 (raw_to_real (s32 (Z.shiftr sects (PAGE_SHIFT - 9))))
          end
      | S_IFDIR | S_IFLNK => s32 (raw_to_real 0)
      end
  end.

(** The number of a block of the file is worked out as an [int]. *)
Definition file_block (bpp page_num j : Z) : Z := u64 (s32 (page_num * bpp + j)).

(** Blocks [j], ... of page [page_num], [n] of them, after block [last]. *)
Fixpoint contiguous_from (i : inode) (bpp page_num : Z) (n : nat) (j last : Z) : bool :=
  match n with
  | O => true
  | S n' =>
      let this := bmap i (file_block bpp page_num j) in
      if (this =? 0) || (negb (last =? 0) && negb (u64 (last + 1) =? this)) then false
      else contiguous_from i bpp page_num n' (j + 1) this
  end.

Definition has_contiguous_blocks (i : inode) (bpp page_num : Z) : bool :=
  contiguous_from i bpp page_num (Z.to_nat bpp) 0 0.

Definition is_normal_file (i : inode) : bool :=
  match i_kind i with S_IFREG => true | _ => false end.

(** The whole pages of a file. *)
Definition file_pages (i : inode) : list Z := seqZ 0 (Z.shiftr (i_size i) PAGE_SHIFT).

(** [target_is_normal_file] of no inode is a null pointer. *)
Definition size_ignoring_ignored_pages (s : st) : option Z :=
  match target_inode s with
  | None => None
  | Some i =>
      Some (if negb (is_normal_file i) then toi_file_storage_available s
            else Z.of_nat (length (filter (fun p => has_contiguous_blocks i (blocks_per_page (devinfo s)) p = true)
                                     (file_pages i))))
  end.

(** ** The block list *)

Definition __populate_block_list (min max : Z) : M st Z :=
  ok <-- in_bio toi_kzalloc;;
  s <-- get (fun s => s);;
  let '(c, r) := toi_add_to_extent_chain ok (block_chain s) (u64 min) (u64 max) in
  modify (fun s => s {{ block_chain := c }});;;
  ret r.

Definition apply_header_reservation : M st Z :=
  n <-- get header_pages_reserved;;
  in_bio (reserve_pages (Z.to_nat n)).

(** The loop over the pages of the file, with its locals [extent_min] and
    [extent_max], both [int]. *)
Fixpoint populate_pages (i : inode) (pages : list Z) (extent_min extent_max : Z) : M st Z :=
  match pages with
  | [] => if -1 <? extent_min then __populate_block_list extent_min extent_max else ret 0
  | p :: pages' =>
      s <-- get (fun s => s);;
      let bpp := blocks_per_page (devinfo s) in
      if negb (has_contiguous_blocks i bpp p) then populate_pages i pages' extent_min extent_max
      else
        let new_sector := bmap i (file_block bpp p 0) in
        if new_sector =? Z.shiftr (target_firstblock s) (bmap_shift (devinfo s))
        then populate_pages i pages' extent_min extent_max
        else if new_sector =? u64 (s32 (extent_max + 1))
        then populate_pages i pages' extent_min (s32 (extent_max + bpp))
        else
          r <-- (if -1 <? extent_min then __populate_block_list extent_min extent_max else ret 0);;
          or_return r (populate_pages i pages' (s32 new_sector) (s32 (s32 new_sector + bpp - 1)))
  end.

Definition populate_block_list : M st Z :=
  modify (fun s => match chain_exts (block_chain s) with
                   | [] => s
                   | _ => s {{ block_chain := toi_put_extent_chain (block_chain s) }}
                   end);;;
  s <-- get (fun s => s);;
  match target_inode s with
  | None => bug
  | Some i =>
      let bpp := blocks_per_page (devinfo s) in
      r <-- (if negb (is_normal_file i) then
               if 0 <? target_storage_available s
               then __populate_block_list bpp (s32 ((target_storage_available s + 1) * bpp - 1))
               else ret 0
             else populate_pages i (file_pages i) (-1) (-1));;
      or_return r apply_header_reservation
  end.

(** ** Opening and closing *)

Definition toi_file_cleanup : M st unit :=
  s <-- get (fun s => s);;
  let b := toi_file_target_bdev s in
  (if negb (b =? 0) then
     (if target_claim s
      then modify (fun s => s {{ bdev_claims := remove_one b (bdev_claims s); target_claim := false }})
      else ret tt);;;
     (if used_devt s
      then modify (fun s => s {{ bdev_refs := remove_one b (bdev_refs s); used_devt := false }})
      else ret tt);;;
     modify (fun s => s {{ toi_file_target_bdev := 0; target_inode := None }});;;
     set_devinfo 0 0;;;
     modify (fun s => s {{ target_storage_available := 0 }})
   else ret tt);;;
  (if target_file s then modify (fun s => s {{ open_files := open_files s - 1 }}) else ret tt);;;
  modify (fun s => s {{ target_file := false }}).

(** Opening a device takes a reference. *)
Definition open_device (d : Z) : M st Z :=
  let b := toi_open_by_devnum env d in
  modify (fun s => s {{ toi_file_target_bdev := b;
                        bdev_refs := if IS_ERR b then bdev_refs s else b :: bdev_refs s }});;;
  ret b.

Definition reopen_resume_devt : M st unit :=
  d <-- get resume_file_dev_t;;
  b <-- open_device d;;
  if IS_ERR b then ret tt
  else
    modify (fun s => s {{ target_inode := Some (bd_inode env b) }});;;
    set_devinfo b (i_blkbits (bd_inode env b)).

(** The part of [toi_file_get_target_info] that finds the inode. *)
Definition open_target (target : list Z) (resume_param : bool) : M st (option inode) :=
  match filp_open env target with
  | Some i =>
      modify (fun s => s {{ target_file := true; open_files := open_files s + 1; target_inode := Some i }});;;
      ret (Some i)
  | None =>
      modify (fun s => s {{ target_file := false }});;;
      if negb resume_param then ret None
      else
        let d := name_to_dev_t env target in
        modify (fun s => s {{ resume_file_dev_t := d }});;;
        if d =? 0 then
          (match vfs_stat env target with
           | None => ret tt
           | Some rdev => modify (fun s => s {{ resume_file_dev_t := rdev }})
           end);;;
          ret None
        else
          b <-- open_device d;;
          if IS_ERR b then ret None
          else
            modify (fun s => s {{ used_devt := true; target_inode := Some (bd_inode env b) }});;;
            ret (Some (bd_inode env b))
  end.

(** The device of a file that was opened by its name. *)
Definition find_device (i : inode) : M st unit :=
  (match i_kind i with
   | S_IFBLK =>
       modify (fun s => s {{ toi_file_target_bdev := i_bdev i }});;;
       if bd_claim env (i_bdev i)
       then modify (fun s => s {{ target_claim := true; bdev_claims := i_bdev i :: bdev_claims s }})
       else ret tt
   | _ => modify (fun s => s {{ toi_file_target_bdev := i_sb_bdev i }})
   end);;;
  fun s =>
    if toi_file_target_bdev s =? 0 then None
    else Some (s {{ resume_file_dev_t := bd_dev env (toi_file_target_bdev s) }}, tt).

Definition toi_file_get_target_info (target : list Z) (get_size resume_param : bool) : M st unit :=
  open <-- get target_file;;
  (if open : bool then toi_file_cleanup else ret tt);;;
  if bool_decide (target = []) then ret tt
  else
    found <-- open_target target resume_param;;
    match found with
    | None => ret tt
    | Some i =>
        match i_kind i with
        | S_IFLNK | S_IFDIR | S_IFSOCK | S_IFIFO =>
            modify (fun s => s {{ target_inode := None;
                                  open_files := if target_file s then open_files s - 1 else open_files s;
                                  target_file := false }});;;
            set_devinfo 0 0;;;
            modify (fun s => s {{ target_storage_available := 0 }})
        | _ =>
            used <-- get used_devt;;
            (if negb used then find_device i else ret tt);;;
            b <-- get toi_file_target_bdev;;
            set_devinfo b (i_blkbits i);;;
            (if get_size then fun s =>
               match size_ignoring_ignored_pages s with
               | None => None
               | Some n => Some (s {{ target_storage_available := s32 n }}, tt)
               end
             else ret tt);;;
            if negb resume_param
            then modify (fun s => s {{ target_firstblock := u64 (Z.shiftl (bmap i 0) (bmap_shift (devinfo s))) }})
            else ret tt
        end
    end.

Definition toi_file_noresume_reset : M st unit :=
  _ <-- in_bio (toi_rw_cleanup READ);; ret tt.

(** ** The signature *)

Definition HaveImage : list Z := bytes_of "HaveImage" ++ [10].
Definition NoImage : list Z := bytes_of "TuxOnIce" ++ [10].

(** [struct toi_file_header]: the signature at 0, resumed_before at 12,
    first_header_block at 16, have_image at 24. *)
Definition hdr_resumed_before (p : page) : Z := s32 (le_val (take 4 (drop 12 p))).
Definition hdr_first_header_block (p : page) : Z := le_val (take 8 (drop 16 p)).
Definition hdr_have_image (p : page) : Z := s32 (le_val (take 4 (drop 24 p))).

Definition set_hdr_sig (p : page) : page := splice p 0 tuxonice_signature.
Definition set_hdr_resumed_before (v : Z) (p : page) : page := splice p 12 (le_bytes 4 v).
Definition set_hdr_first_header_block (v : Z) (p : page) : page := splice p 16 (le_bytes 8 v).
Definition set_hdr_have_image (v : Z) (p : page) : page := splice p 24 (le_bytes 4 v).

Definition parse_signature (header : page) : M st Z :=
  let have_image := starts_with HaveImage header in
  let no_image_header := starts_with NoImage header in
  let binary_sig := starts_with tuxonice_signature header in
  if no_image_header || (binary_sig && (hdr_have_image header =? 0)) then ret 0
  else if negb have_image && negb binary_sig then ret (-1)
  else
    modify (fun s => s {{
      toi_state := if hdr_resumed_before header =? 0 then clear_toi_state TOI_RESUMED_BEFORE (toi_state s)
                   else set_toi_state TOI_RESUMED_BEFORE (toi_state s);
      target_header_start := hdr_first_header_block header }});;;
    ret 1.

Definition prepare_signature (current_header : page) (first_header_block : Z) : page :=
  set_hdr_have_image 1 (set_hdr_first_header_block first_header_block
    (set_hdr_resumed_before 0 (set_hdr_sig current_header))).

(** ** Storage *)

Definition toi_file_storage_allocated (s : st) : Z :=
  match target_inode s with
  | None => 0
  | Some i => s32 (raw_to_real (if is_normal_file i then target_storage_available s else main_pages_requested s))
  end.

Definition toi_file_release_storage : M st Z :=
  modify (fun s => s {{ block_chain := toi_put_extent_chain (block_chain s); header_pages_reserved := 0;
                        main_pages_allocated := 0; main_pages_requested := 0 }});;;
  ret 0.

Definition toi_file_reserve_header_space (request : Z) : M st unit :=
  modify (fun s => s {{ header_pages_reserved := request }}).

Definition extra_pages (main_space_requested : Z) : Z :=
  s32 (DIV_ROUND_UP (u64 (main_space_requested * (sizeof_long + sizeof_int))) PAGE_SIZE).

Definition toi_file_allocate_storage (main_space_requested : Z) : M st Z :=
  s <-- get (fun s => s);;
  let pages_to_get := s32 (main_space_requested + extra_pages main_space_requested + header_pages_reserved s) in
  let blocks_to_get := s32 (pages_to_get - chain_size (block_chain s)) in
  if blocks_to_get <? 1 then apply_header_reservation
  else
    result <-- populate_block_list;;
    or_return result (
      size <-- get (fun s => chain_size (block_chain s));;
      modify (fun s => s {{ main_pages_requested := main_space_requested;
                            main_pages_allocated := s32 (main_space_requested + extra_pages main_space_requested) }});;;
      ret (if size <? pages_to_get then - ENOSPC else 0)).

(** ** The header of the image *)

Definition rw_header_chunk (bs : list Z) : M st Z :=
  in_bio (_toi_rw_header_chunk_write (Some (toi_fileops env)) bs).

(** The result of the serialisation is ignored. *)
Definition toi_file_write_header_init : M st Z :=
  _ <-- in_bio (toi_rw_init WRITE 0);;
  in_bio (modify (fun b => b {{ toi_writer_buffer_posn := 0 }}));;;
  saves <-- get (fun s => toi_writer_posn_save (bio s));;
  result <-- rw_header_chunk (flat_map saved_state_bytes saves);;
  or_return result (
    d <-- get devinfo;;
    result <-- rw_header_chunk (bdev_info_bytes d);;
    or_return result (
      c <-- get block_chain;;
      _ <-- in_bio (serialise_block_chain (Some (toi_fileops env)) c);;
      ret 0)).

(** The page for the signature is used without a look at whether there is
    one; it is only a null pointer once it is read into. *)
Definition toi_file_write_header_cleanup : M st Z :=
  sig_page <-- in_bio toi_get_zeroed_page;;
  result <-- in_bio write_header_chunk_finish;;
  result <-- (or_return result (
    _ <-- in_bio (
      modify (fun b => b {{ toi_writer_posn := toi_extent_state_goto_start (toi_writer_posn b) }});;;
      go_next_page WRITE true);;
    match sig_page with
    | None => bug
    | Some p =>
        s <-- get (fun s => s);;
        r <-- in_bio (toi_bdev_page_io READ (toi_file_target_bdev s) (target_firstblock s) p);;
        or_return (snd r) (
          let header := prepare_signature (fst r)
            (u64 (Z.shiftl (current_offset (toi_writer_posn (bio s))) (bmap_shift (devinfo s)))) in
          r <-- in_bio (toi_bdev_page_io WRITE (toi_file_target_bdev s) (target_firstblock s) header);;
          ret (snd r))
    end));;
  result2 <-- in_bio toi_finish_all_io;;
  ret (if result =? 0 then result2 else result).

(** The bootstrap data at the start of the header's first page. *)
Definition sizeof_devinfo : nat := 24.

Definition bootstrap (buf : page) (s : st) : st :=
  let d := decode_bdev_info (take sizeof_devinfo (drop sizeof_saves buf)) in
  s {{ bio := (bio s) {{ toi_writer_buffer := Some buf;
                         toi_writer_posn_save := chunks decode_saved_state 16 4 buf;
                         toi_writer_buffer_posn := Z.of_nat (sizeof_saves + sizeof_devinfo) }};
       devinfo := d {{ bdev := bdev (devinfo s) }} }}.

(** The chain is loaded through the block layer's pointer to it. *)
Definition toi_file_read_header_init : M st Z :=
  in_bio toi_read_header_init;;;
  s <-- get (fun s => s);;
  match toi_writer_buffer (bio s) with
  | None => bug
  | Some buf =>
      r <-- in_bio (toi_bdev_page_io READ (toi_file_target_bdev s) (target_header_start s) buf);;
      if negb (snd r =? 0) then
        _ <-- in_bio (toi_rw_cleanup READ);; ret (snd r)
      else
        modify (bootstrap (fst r));;;
        in_bio (
          modify (fun b => b {{ toi_writer_posn := toi_extent_state_goto_start (toi_writer_posn b) }});;;
          set_extra_page_forward);;;
        if attached s then in_bio (load_block_chain 0) else bug
  end.

Definition toi_file_read_header_cleanup : M st Z :=
  _ <-- in_bio (toi_rw_cleanup READ);; ret 0.

(** ** Is there an image? *)

Inductive signature_operation := GET_IMAGE_EXISTS | INVALIDATE | MARK_RESUME_ATTEMPTED | UNMARK_RESUME_ATTEMPTED.

(** What [op] makes of a page whose signature was parsed with [result]. *)
Definition changed_header (op : signature_operation) (result : Z) (header : page) : option page :=
  match op with
  | GET_IMAGE_EXISTS => None
  | INVALIDATE =>
      if result =? -1 then None
      else Some (set_hdr_have_image 0 (set_hdr_resumed_before 0 (set_hdr_sig header)))
  | MARK_RESUME_ATTEMPTED => if result =? 1 then Some (set_hdr_resumed_before 1 header) else None
  | UNMARK_RESUME_ATTEMPTED => if result =? 1 then Some (set_hdr_resumed_before 0 header) else None
  end.

Definition toi_file_signature_op (op : signature_operation) : M st Z :=
  s <-- get (fun s => s);;
  let b := toi_file_target_bdev s in
  if (b =? 0) || IS_ERR b then ret (-1)
  else
    cur <-- in_bio toi_get_zeroed_page;;
    match cur with
    | None => ret (- ENOMEM)
    | Some cur =>
        r <-- in_bio (toi_bdev_page_io READ b (target_firstblock s) cur);;
        result <-- (or_return (snd r) (
          result <-- parse_signature (fst r);;
          match changed_header op result (fst r) with
          | None => ret result
          | Some header =>
              let result := match op with INVALIDATE => 1 | _ => result end in
              io <-- in_bio (toi_bdev_page_io WRITE b (target_firstblock s) header);;
              ret (if snd io =? 0 then result else snd io)
          end));;
        result2 <-- in_bio toi_finish_all_io;;
        ret (if result =? 0 then result2 else result)
    end.

Definition toi_file_storage_needed (s : st) : Z :=
  s32 (Z.of_nat (length (toi_file_target s)) + 1 + Z.of_nat (sizeof_saves + sizeof_devinfo) + 2 * sizeof_int +
       2 * sizeof_long * num_extents (block_chain s)).

Definition toi_file_remove_image : M st Z :=
  _ <-- toi_file_release_storage;; toi_file_signature_op INVALIDATE.

Definition toi_file_image_exists : M st Z :=
  b <-- get toi_file_target_bdev;;
  (if b =? 0 then reopen_resume_devt else ret tt);;;
  toi_file_signature_op GET_IMAGE_EXISTS.

Definition toi_file_mark_resume_attempted (mark : bool) : M st Z :=
  toi_file_signature_op (if mark then MARK_RESUME_ATTEMPTED else UNMARK_RESUME_ATTEMPTED).

(** ** Parameters *)

(** [%lx] *)
Definition lx (n : Z) : list Z := number n (PrintfSpec SMALL (-1) 16 (-1)).

(** What goes after "file:" for a device and the first block of the file. *)
Definition location (b sector shift : Z) : list Z :=
  bytes_of "/dev/" ++ bdevname env b ++
  (if sector =? 0 then [] else bytes_of ":0x" ++ lx (u64 (Z.shiftl sector shift))).

Definition toi_file_set_resume_param : M st unit :=
  buffer <-- in_bio toi_get_zeroed_page;;
  buffer2 <-- in_bio toi_get_zeroed_page;;
  s <-- get (fun s => s);;
  match target_inode s with
  | None => bug
  | Some i =>
      match buffer, buffer2 with
      | Some _, Some _ =>
          let b := toi_file_target_bdev s in
          (if negb (b =? 0) then
             set_devinfo b (i_blkbits i);;;
             modify (fun s => s {{ resume_file := bytes_of "file:" ++ location b (bmap i 0) (bmap_shift (devinfo s)) }})
           else
             modify (fun s => s {{ resume_file := bytes_of "file:" ++ toi_file_target s ++
                                                  bytes_of " is not a valid target." }}));;;
          attempt_to_parse_resume_device
      | _, _ => ret tt
      end
  end.

Definition __test_toi_file_target (target : list Z) (resume_param : bool) : M st Z :=
  toi_file_get_target_info target false resume_param;;;
  found <-- toi_file_signature_op GET_IMAGE_EXISTS;;
  if -1 <? found then
    (if negb resume_param then toi_file_set_resume_param else ret tt);;;
    modify (fun s => s {{ attached := true }});;;
    (if negb resume_param
     then modify (fun s => s {{ toi_state := set_toi_state TOI_CAN_HIBERNATE (toi_state s) }})
     else ret tt);;;
    ret 0
  else
    modify (fun s => s {{ toi_state := clear_toi_state TOI_CAN_HIBERNATE (toi_state s) }});;;
    ret 1.

Definition test_toi_file_target : M st unit :=
  modify (fun s => s {{ setting_toi_file_target := true }});;;
  target <-- get toi_file_target;;
  _ <-- __test_toi_file_target target false;;
  modify (fun s => s {{ setting_toi_file_target := false }}).

(** The [while] loops of the parser: what is passed over, and what follows;
    [n] characters of the 250 are left. *)
Fixpoint scan_to (stop : Z -> bool) (n : nat) (seen rest : list Z) : list Z * list Z :=
  match rest with
  | [] => (seen, [])
  | c :: rest' =>
      if stop c || (n =? 0)%nat then (seen, rest) else scan_to stop (pred n) (seen ++ [c]) rest'
  end.

(** What follows the character, if the text starts with it. *)
Definition after_char (c : Z) (l : list Z) : option (list Z) :=
  match l with
  | x :: l' => if x =? c then Some l' else None
  | [] => None
  end.

(** The device name, the text after the colon, and the text after the at. *)
Definition split_location (commandline : list Z) : list Z * option (list Z) * option (list Z) :=
  let '(dev, r1) := scan_to (fun c => (c =? 58) || (c =? 64)) 250 [] commandline in
  match after_char 58 r1 with
  | Some r1 =>
      let '(block, r2) := scan_to (fun c => c =? 64) (250 - S (length dev)) [] r1 in
      match after_char 64 r2 with
      | Some size => (dev, Some block, Some size)
      | None => (dev, Some r1, None)
      end
  | None =>
      let '(more, r2) := scan_to (fun c => c =? 64) (250 - length dev) [] r1 in
      match after_char 64 r2 with
      | Some size => (dev ++ more, None, Some size)
      | None => (commandline, None, None)
      end
  end.

Definition SECTOR_SIZE : Z := 512.

(** One-based: the position of the lowest bit, 0 without one. *)
Definition ffs (x : Z) : Z := if x =? 0 then 0 else Z.log2 (Z.land x (- x)) + 1.

Definition parse_fail (result : Z) : M st Z :=
  modify (fun s => s {{ toi_state := clear_toi_state TOI_CAN_HIBERNATE (toi_state s) }});;; ret result.

(** From the test of the target that was found to the end. *)
Definition test_location (target : list Z) (target_blocksize : Z) : M st Z :=
  toi_file_get_target_info target false true;;;
  b <-- get toi_file_target_bdev;;
  if (b =? 0) || IS_ERR b then
    modify (fun s => s {{ toi_file_target_bdev := 0 }});;; parse_fail (-1)
  else
    (if negb (target_blocksize =? 0) then set_devinfo b (ffs target_blocksize) else ret tt);;;
    result <-- __test_toi_file_target target true;;
    if result =? 0 then ret 0 else parse_fail result.

Definition toi_file_parse_sig_location (commandline : list Z) (only_writer : bool) : M st Z :=
  let is_file := starts_with (bytes_of "file:") commandline in
  if negb is_file && negb only_writer then ret 1
  else
    let commandline := if is_file then drop 5 commandline else commandline in
    b <-- get toi_file_target_bdev;;
    if negb (b =? 0) then ret 0
    else
      let '(target, colon, at_symbol) := split_location commandline in
      s <-- get (fun s => s);;
      (if negb (setting_toi_file_target s)
       then _ <-- __test_toi_file_target (toi_file_target s) true;; ret tt else ret tt);;;
      match (match colon with None => Some 0 | Some t => strict_strtoul t 0 end) with
      | None => parse_fail (- EINVAL)
      | Some block =>
          modify (fun s => s {{ target_firstblock := u64 (s32 block) }});;;
          match (match at_symbol with None => Some 0 | Some t => strict_strtoul t 0 end) with
          | None => parse_fail (- EINVAL)
          | Some block_size =>
              if negb (Z.land (s32 block_size) (SECTOR_SIZE - 1) =? 0) then parse_fail (- EINVAL)
              else test_location target (s32 block_size)
          end
      end.

(** ** Module entry points *)

Definition toi_file_save_config_info (s : st) : list Z * Z :=
  (toi_file_target s ++ [0], Z.of_nat (length (toi_file_target s)) + 1).

(** [strlcpy] of a string. *)
Definition toi_file_load_config_info (str : list Z) (size : Z) : M st unit :=
  modify (fun s => if size =? 0 then s else s {{ toi_file_target := take (Z.to_nat (size - 1)) str }}).

Definition toi_file_initialise (starting_cycle : Z) : M st Z :=
  s <-- get (fun s => s);;
  let starting := negb (starting_cycle =? 0) in
  if starting && negb (is_active s) then ret 0
  else if starting && negb (Z.land starting_cycle SYSFS_HIBERNATE =? 0) && bool_decide (toi_file_target s = [])
  then ret 1
  else
    (if bool_decide (toi_file_target s = []) then ret tt
     else toi_file_get_target_info (toi_file_target s) starting false);;;
    if starting then
      r <-- toi_file_image_exists;; ret (if r =? -1 then 1 else 0)
    else ret 0.
End Operations.
