(* ===== verification/FileStorageFacts.v ===== *)
(** * Facts about the file allocator

    Which blocks of the disk an image may be written to: the target, page by
    page, and nothing else. *)

From S2P Require Import Prelude HeaderStream Extents States BlockIO BlockIOFacts BlockIORead Vsprintf AllocatorIO AllocatorFacts FileStorage.
From stdpp Require Import numbers base list strings sorting.
#[local] Open Scope Z_scope.
#[local] Arguments Z.to_nat : simpl never.

(** ** The pages of the target *)

(** A file whose blocks are each elsewhere on the disk, all with numbers that
    are [int]s. *)
Record good_file (i : inode) (bpp : Z) : Prop := {
  gf_bpp : 0 < bpp <= 8;
  gf_size : 0 <= Z.shiftr (i_size i) PAGE_SHIFT /\ Z.shiftr (i_size i) PAGE_SHIFT * bpp < 2 ^ 31;
  gf_bmap : forall k, 0 <= bmap i k < 2 ^ 31 - 8;
  gf_apart : forall j k, bmap i j = bmap i k -> bmap i j <> 0 -> j = k
}.

Section Pages.
Context (i : inode) (bpp : Z) (Hi : good_file i bpp).

Definition first_of (p : Z) : Z := bmap i (file_block bpp p 0).

(** The pages an image can use: those of contiguous blocks, but the one with
    the signature. *)
Definition used_page (sig p : Z) : bool := has_contiguous_blocks i bpp p && negb (first_of p =? sig).

Definition used_pages (sig : Z) : list Z := filter (fun p => used_page sig p = true) (file_pages i).

Definition blocks_at (b : Z) : list Z := seqZ b bpp.

Lemma file_block_small p j : p ∈ file_pages i -> 0 <= j < bpp -> file_block bpp p j = p * bpp + j.
Proof using Hi.
  intros Hp Hj. apply elem_of_seqZ in Hp. destruct Hi as [? [? ?] _ _]. unfold file_block.
  rewrite s32_small, u64_small by nia. done.
Qed.

Lemma contiguous_from_spec p n j last :
  contiguous_from i bpp p n j last = true -> last <> 0 -> 0 <= last < 2 ^ 31 ->
  forall k, 0 <= k < Z.of_nat n -> bmap i (file_block bpp p (j + k)) = last + 1 + k.
Proof using Hi.
  revert j last. induction n as [|n IH]; intros j last Hc Hl Hb k Hk; [lia|]. cbn [contiguous_from] in Hc.
  rewrite u64_small, (proj2 (Z.eqb_neq last 0)) in Hc by lia. cbn [negb andb] in Hc.
  destruct (_ =? 0) eqn:E0; [done|]. destruct (last + 1 =? _) eqn:E1; [|done]. cbn [orb negb] in Hc. breflect.
  destruct (Z.eq_dec k 0) as [->|]; [rewrite Z.add_0_r; lia|].
  replace (j + k) with (j + 1 + (k - 1)) by lia.
  pose proof (gf_bmap _ _ Hi (file_block bpp p j)).
  rewrite (IH (j + 1) (bmap i (file_block bpp p j))); [lia|done|lia..].
Qed.

(** A page of contiguous blocks is on the disk in one piece. *)
Lemma contiguous_page p :
  has_contiguous_blocks i bpp p = true ->
  first_of p <> 0 /\ forall j, 0 <= j < bpp -> bmap i (file_block bpp p j) = first_of p + j.
Proof using Hi.
  intros Hc. pose proof (gf_bpp _ _ Hi) as Hb. unfold has_contiguous_blocks in Hc.
  destruct (Z.to_nat bpp) as [|n] eqn:En; [lia|]. cbn [contiguous_from] in Hc. cbn [Z.eqb negb andb] in Hc.
  rewrite orb_false_r in Hc. destruct (bmap i (file_block bpp p 0) =? 0) eqn:E0; [done|]. breflect.
  split; [done|]. intros j Hj. destruct (Z.eq_dec j 0) as [->|]; [unfold first_of; lia|].
  pose proof (gf_bmap _ _ Hi (file_block bpp p 0)).
  replace j with (0 + 1 + (j - 1)) at 1 by lia.
  rewrite (contiguous_from_spec p n (0 + 1) (first_of p)); unfold first_of; try lia; done.
Qed.

(** Blocks of different pages are different. *)
Lemma pages_disjoint p q x :
  p ∈ file_pages i -> q ∈ file_pages i ->
  has_contiguous_blocks i bpp p = true -> has_contiguous_blocks i bpp q = true ->
  x ∈ blocks_at (first_of p) -> x ∈ blocks_at (first_of q) -> p = q.
Proof using Hi.
  intros Hp Hq Cp Cq Hxp Hxq. apply elem_of_seqZ in Hxp, Hxq.
  destruct (contiguous_page p Cp) as [Fp Bp], (contiguous_page q Cq) as [Fq Bq].
  pose proof (gf_bmap _ _ Hi (file_block bpp p 0)) as Rp. fold (first_of p) in Rp.
  assert (file_block bpp p (x - first_of p) = file_block bpp q (x - first_of q)) as E.
  { apply (gf_apart _ _ Hi); rewrite Bp by lia; [rewrite Bq by lia; lia|lia]. }
  rewrite !file_block_small in E by (done || lia). nia.
Qed.

Lemma pages_blocks_NoDup l :
  NoDup l -> l ⊆ file_pages i -> Forall (fun p => has_contiguous_blocks i bpp p = true) l ->
  NoDup (flat_map blocks_at (map first_of l)).
Proof using Hi.
  induction 1 as [|p l Hp Hl IH]; intros Hs Hc; [constructor|]. cbn [map flat_map].
  apply Forall_cons_1 in Hc as [Cp Cl]. apply NoDup_app. split_and!.
  - apply NoDup_seqZ.
  - intros x Hx Hin. apply list_elem_of_In, in_flat_map in Hin as (f & Hf & Hxf).
    apply in_map_iff in Hf as (q & <- & Hq%list_elem_of_In). rewrite Forall_forall in Cl.
    apply Hp. rewrite (pages_disjoint p q x); auto; [apply Hs; by left|apply Hs; by right|by apply list_elem_of_In].
  - apply IH; [|done]. intros x Hx. apply Hs. by right.
Qed.
End Pages.

(** ** Gathering the blocks *)

(** [s1] is [s] with another block chain; the block layer may have been shown
    the chain in between. *)
Definition rechained (s s1 : file_state) : Prop :=
  exists b c, s1 = s {{ bio := b; block_chain := c }} /\
    (b = bio s \/ attached s = true /\ exists cs ds, b = (set_block_chain cs (bio s)) {{ toi_devinfo := ds }}).

Lemma rechained_refl s : rechained s s.
Proof. exists (bio s), (block_chain s). split; [by destruct s|by left]. Qed.

Lemma rechained_trans s s1 s2 : rechained s s1 -> rechained s1 s2 -> rechained s s2.
Proof.
  intros (b & c & -> & Hb) (b' & c' & -> & Hb'). exists b', c'. split; [done|].
  change (bio (s {{ bio := b; block_chain := c }})) with b in Hb'.
  change (attached (s {{ bio := b; block_chain := c }})) with (attached s) in Hb'.
  destruct Hb' as [->|(Ha & cs & ds & ->)]; [done|]. right. split; [done|]. exists cs, ds.
  by destruct Hb as [->|(_ & cs' & ds' & ->)].
Qed.

Lemma rechained_set s s1 c : rechained s s1 -> rechained s (s1 {{ block_chain := c }}).
Proof. intros (b & c' & -> & Hb). by exists b, c. Qed.

(** What stays. *)
Lemma rechained_same s s1 :
  rechained s s1 -> memory (bio s1) = memory (bio s) /\ devinfo s1 = devinfo s /\
    target_firstblock s1 = target_firstblock s.
Proof. intros (b & c & -> & [->|(_ & cs & ds & ->)]); done. Qed.

Lemma rechained_seen s s1 : rechained s s1 -> seen s1 = seen (s {{ block_chain := block_chain s1 }}).
Proof.
  intros (b & c & -> & Hb).
  change (seen (s {{ bio := b; block_chain := c }})) with
    (if attached s then (set_block_chain [c] b) {{ toi_devinfo := [devinfo s] }} else b).
  change (seen (s {{ block_chain := _ }})) with
    (if attached s then (set_block_chain [c] (bio s)) {{ toi_devinfo := [devinfo s] }} else bio s).
  destruct Hb as [->|(-> & cs & ds & ->)]; done.
Qed.

Lemma seen_memory s : memory (seen s) = memory (bio s).
Proof. unfold seen. by destruct (attached s). Qed.

Lemma kzalloc_seen s :
  memory (bio s) = [] -> exists s1, in_bio toi_kzalloc s = Some (s1, true) /\ rechained s s1 /\ block_chain s1 = block_chain s.
Proof.
  intros Hm. unfold in_bio, toi_kzalloc. rewrite seen_memory, Hm. unfold seen. destruct (attached s) eqn:Ha.
  - exists (s {{ bio := (set_block_chain [block_chain s] (bio s)) {{ toi_devinfo := [devinfo s] }};
                 block_chain := block_chain s }}).
    split; [by destruct s|]. split; [|done]. eexists _, _. split; [done|]. right. split; [done|]. by eexists _, _.
  - exists s. split; [by destruct s|]. split; [apply rechained_refl|done].
Qed.

(** The blocks of the run that is being gathered. *)
Definition run_blocks (extent_min extent_max : Z) : list Z :=
  if -1 <? extent_min then seqZ extent_min (extent_max - extent_min + 1) else [].

Definition good_run (extent_min extent_max : Z) : Prop :=
  extent_min = -1 /\ extent_max = -1 \/ 0 <= extent_min /\ extent_min <= extent_max < 2 ^ 31 - 1.

Lemma populate_one s lo hi :
  memory (bio s) = [] -> wf_chain (block_chain s) -> 0 <= lo -> lo <= hi < 2 ^ 31 ->
  NoDup (chain_blocks (block_chain s) ++ seqZ lo (hi - lo + 1)) ->
  exists s1, __populate_block_list lo hi s = Some (s1, 0) /\ rechained s s1 /\
    wf_chain (block_chain s1) /\ chain_blocks (block_chain s1) ≡ₚ chain_blocks (block_chain s) ++ seqZ lo (hi - lo + 1).
Proof.
  intros Hm Hw Hlo Hhi Hnd. destruct (kzalloc_seen s Hm) as (s1 & Hk & Hr & Hc).
  destruct (add_to_extent_chain_spec true (block_chain s) lo hi Hw) as (c & r & Ha & [[-> [Hwc Hbc]]|(_ & ? & _)]);
    [lia| | |done].
  { apply range_free_disjoint; [done|lia|]. intros x Hx Hin. apply NoDup_app in Hnd as (_ & Hnd & _).
    apply (Hnd x Hin), elem_of_seqZ. lia. }
  exists (s1 {{ block_chain := c }}). split_and!; auto.
  - unfold __populate_block_list, bind, get. rewrite Hk, Hc, !u64_small, Ha by lia. done.
  - by apply rechained_set.
Qed.

(** Flushing a run. *)
Lemma flush_file_run s lo hi :
  memory (bio s) = [] -> wf_chain (block_chain s) -> good_run lo hi ->
  NoDup (chain_blocks (block_chain s) ++ run_blocks lo hi) ->
  exists s1, (if -1 <? lo then __populate_block_list lo hi else ret 0) s = Some (s1, 0) /\ rechained s s1 /\
    wf_chain (block_chain s1) /\ chain_blocks (block_chain s1) ≡ₚ chain_blocks (block_chain s) ++ run_blocks lo hi.
Proof.
  intros Hm Hw Hr Hnd. unfold run_blocks in *. destruct (Z.ltb_spec (-1) lo).
  - apply populate_one; auto; destruct Hr; lia.
  - exists s. rewrite app_nil_r. split_and!; auto using rechained_refl. 
Qed.

Section Populate.
Context (i : inode) (s0 : file_state).
Let bpp := blocks_per_page (devinfo s0).
Let sig := Z.shiftr (target_firstblock s0) (bmap_shift (devinfo s0)).
Context (Hi : good_file i bpp) (Hm : memory (bio s0) = []).

Definition taken (l : list Z) : list Z :=
  flat_map (blocks_at bpp) (map (first_of i bpp) (filter (fun p => used_page i bpp sig p = true) l)).

Lemma taken_app l k : taken (l ++ k) = taken l ++ taken k.
Proof. unfold taken. by rewrite list.filter_app, map_app, flat_map_app. Qed.

Lemma taken_NoDup l : l `sublist_of` file_pages i -> NoDup (taken l).
Proof using Hi.
  intros Hl. apply pages_blocks_NoDup; auto.
  - apply list.NoDup_filter. eapply sublist_NoDup; [|done]. apply NoDup_seqZ.
  - intros p [_ Hp]%list_elem_of_filter. by eapply elem_of_sublist.
  - apply Forall_forall. intros p [Hp _]%list_elem_of_filter. unfold used_page in Hp. by apply andb_true_iff in Hp as [? _].
Qed.

Lemma populate_pages_spec pages l s lo hi :
  file_pages i = l ++ pages -> rechained s0 s -> wf_chain (block_chain s) -> good_run lo hi ->
  chain_blocks (block_chain s) ++ run_blocks lo hi ≡ₚ taken l ->
  exists s1, populate_pages i pages lo hi s = Some (s1, 0) /\ rechained s0 s1 /\
    wf_chain (block_chain s1) /\ chain_blocks (block_chain s1) ≡ₚ taken (file_pages i).
Proof using Hi Hm.
  revert l s lo hi. induction pages as [|p pages IH]; intros l s lo hi El Hs Hw Hr Hb; cbn [populate_pages].
  - rewrite app_nil_r in El. rewrite El. pose proof (rechained_same _ _ Hs) as (Hms & _).
    destruct (flush_file_run s lo hi) as (s1 & Hf & Hs1 & Hw1 & Hb1);
      [congruence|done|done|rewrite Hb; apply taken_NoDup; by rewrite El|].
    exists s1. split_and!; eauto using rechained_trans. by rewrite Hb1, Hb.
  - assert (p ∈ file_pages i) as Hp by (rewrite El; apply elem_of_app; right; by left).
    pose proof (rechained_same _ _ Hs) as (Hms & Ed & Et).
    unfold bind at 1, get. rewrite Ed, Et. fold bpp. fold (first_of i bpp p). fold sig.
    rewrite cons_middle, app_assoc in El.
    assert (used_page i bpp sig p = has_contiguous_blocks i bpp p && negb (first_of i bpp p =? sig)) as Hu by done.
    destruct (has_contiguous_blocks i bpp p) eqn:Hc; cbn [negb andb] in Hu |- *.
    2:{ apply (IH (l ++ [p])); auto. rewrite taken_app, Hb. unfold taken at 3. rewrite filter_cons_False by (by rewrite Hu).
        by rewrite app_nil_r. }
    destruct (first_of i bpp p =? sig); cbn [negb] in Hu.
    { apply (IH (l ++ [p])); auto. rewrite taken_app, Hb. unfold taken at 3. rewrite filter_cons_False by (by rewrite Hu).
      by rewrite app_nil_r. }
    assert (taken [p] = seqZ (first_of i bpp p) bpp) as Htp.
    { unfold taken. rewrite filter_cons_True by done. simpl. by rewrite app_nil_r. }
    pose proof (gf_bmap _ _ Hi (file_block bpp p 0)) as Hsmall. fold (first_of i bpp p) in Hsmall.
    pose proof (gf_bpp _ _ Hi) as Hbpp. destruct (contiguous_page i bpp Hi p Hc) as [Hne _].
    destruct (first_of i bpp p =? u64 (s32 (hi + 1))) eqn:Ecat; breflect.
    + destruct Hr as [[-> ->]|[? ?]]; [by change (u64 (s32 (-1 + 1))) with 0 in Ecat|].
      rewrite s32_small, u64_small in Ecat by lia. rewrite s32_small by lia.
      apply (IH (l ++ [p])); auto; [right; lia|]. rewrite taken_app, <- Hb, Htp, <- app_assoc.
      apply Permutation_app_head. unfold run_blocks. rewrite (proj2 (Z.ltb_lt _ _)) by lia.
      replace (hi + bpp - lo + 1) with ((hi - lo + 1) + bpp) by lia. rewrite seqZ_split by lia.
      by replace (lo + (hi - lo + 1)) with (first_of i bpp p) by lia.
    + destruct (flush_file_run s lo hi) as (s1 & Hf & Hs1 & Hw1 & Hb1);
        [congruence|done|done|rewrite Hb; apply taken_NoDup; rewrite El, <- app_assoc; by apply sublist_inserts_r|].
      unfold bind at 1. rewrite Hf. unfold or_return. cbn [Z.eqb]. rewrite !s32_small by (rewrite ?s32_small by lia; lia).
      apply (IH (l ++ [p])); auto; [by eapply rechained_trans|right; lia|].
      rewrite taken_app, Htp, Hb1, Hb. apply Permutation_app_head. unfold run_blocks.
      rewrite (proj2 (Z.ltb_lt _ _)) by lia. by replace (_ - _ + 1) with bpp by lia.
Qed.
End Populate.

(** ** The chain is the file, page by page *)

(** Where the pages of an image go, in order. *)
Definition image_pages (i : inode) (s : file_state) : list Z :=
  let bpp := blocks_per_page (devinfo s) in
  merge_sort Z.le (map (first_of i bpp)
    (used_pages i bpp (Z.shiftr (target_firstblock s) (bmap_shift (devinfo s))))).

Lemma pages_ascending bpp fs lo :
  0 < bpp -> StronglySorted Z.le fs -> NoDup (flat_map (blocks_at bpp) fs) -> (forall f, f ∈ fs -> lo <= f) ->
  ascending lo (flat_map (blocks_at bpp) fs).
Proof.
  intros Hb Hs. revert lo. induction Hs as [|f fs Hs IH Hf]; intros lo Hnd Hlo; [done|]. cbn [flat_map] in *.
  apply NoDup_app in Hnd as (_ & Hx & Hnd). pose proof (Hlo f ltac:(by left)).
  apply ascending_app with (mid := f + bpp); [|intros x Hin; apply elem_of_seqZ in Hin; lia|lia|].
  - eapply ascending_weaken; [apply ascending_seqZ|done].
  - apply IH; [done|]. intros g Hg. rewrite Forall_forall in Hf. specialize (Hf g Hg).
    destruct (Z.lt_ge_cases g (f + bpp)); [|done]. exfalso. apply (Hx g); [apply elem_of_seqZ; lia|].
    apply list_elem_of_In, in_flat_map. exists g. split; [by apply list_elem_of_In|].
    apply list_elem_of_In, elem_of_seqZ. lia.
Qed.

Lemma flat_map_perm {A B} (f : A -> list B) l k : l ≡ₚ k -> flat_map f l ≡ₚ flat_map f k.
Proof.
  induction 1; simpl; [done|by apply Permutation_app_head|apply Permutation_app_swap_app|by etransitivity].
Qed.

Lemma chain_is_pages i s c :
  good_file i (blocks_per_page (devinfo s)) -> wf_chain c ->
  chain_blocks c ≡ₚ taken i s (file_pages i) ->
  chain_blocks c = flat_map (blocks_at (blocks_per_page (devinfo s))) (image_pages i s).
Proof.
  intros Hi Hw Hp. assert (taken i s (file_pages i) ≡ₚ
    flat_map (blocks_at (blocks_per_page (devinfo s))) (image_pages i s)) as Ht.
  { apply flat_map_perm. unfold image_pages, used_pages. by rewrite merge_sort_Permutation. }
  apply (ascending_unique 0 0); [apply exts_blocks_ascending, Hw| |by rewrite Hp].
  apply pages_ascending; [apply Hi|apply StronglySorted_merge_sort; [apply _..]|rewrite <- Ht; by apply taken_NoDup|].
  intros f Hf. unfold image_pages in Hf. rewrite merge_sort_Permutation in Hf.
  apply list_elem_of_In, in_map_iff in Hf as (p & <- & _). apply Hi.
Qed.

(** ** Walking it *)

Lemma tl_blocks bpp f : 0 < bpp -> blocks_at bpp f = f :: seqZ (f + 1) (bpp - 1).
Proof. intros. unfold blocks_at. rewrite seqZ_cons by lia. do 2 f_equal; lia. Qed.

Section Walk.
Context (d : toi_bdev_info) (bpp : Z) (Hd : blocks_per_page d = bpp) (Hb : 0 < bpp).

(** The tape after the first block of page [f]. *)
Definition after_page (f : Z) (fs : list Z) : Z * list cell :=
  (0, map (pair 0) (seqZ (f + 1) (bpp - 1) ++ flat_map (blocks_at bpp) fs)).

(** What the next page is when the pages [fs] are to come. *)
Definition page_to_come (fs : list Z) : option (cell * list cell) :=
  match fs with
  | [] => None
  | f :: fs' => Some ((0, f), snd (after_page f fs'))
  end.

Lemma next_after f fs : next_page [d] (after_page f fs) = page_to_come fs.
Proof using Hd Hb.
  unfold next_page, after_page. cbn [fst snd]. change (page_cells [d] 0) with (Some (Z.to_nat (blocks_per_page d))).
  rewrite Hd. destruct (Z.to_nat bpp) as [|n] eqn:En; [lia|].
  rewrite map_app, drop_app_ge; rewrite length_map, length_seqZ; [|lia].
  replace (n - Z.to_nat (bpp - 1))%nat with O by lia. rewrite drop_0. destruct fs as [|g fs]; [done|].
  cbn [flat_map]. rewrite (tl_blocks bpp g) by lia. done.
Qed.

Lemma walk_pages fs1 fs2 f :
  exists v, pages [d] (after_page f (fs1 ++ fs2)) (map (pair 0) fs1) v /\ next_page [d] v = page_to_come fs2 /\
    (fst v = 0).
Proof using Hd Hb.
  revert f. induction fs1 as [|g fs1 IH]; intros f.
  - exists (after_page f fs2). split_and!; [constructor|apply next_after|done].
  - destruct (IH g) as (v & Hp & Hn & H0). exists v. split_and!; auto.
    cbn [map]. econstructor; [rewrite next_after; reflexivity|exact Hp].
Qed.

Lemma walk_from_start fs1 fs2 :
  exists v, pages [d] (-1, map (pair 0) (flat_map (blocks_at bpp) (fs1 ++ fs2))) (map (pair 0) fs1) v /\
    next_page [d] v = page_to_come fs2.
Proof using Hd Hb.
  assert (forall fs, next_page [d] (-1, map (pair 0) (flat_map (blocks_at bpp) fs)) = page_to_come fs) as Hn.
  { intros [|f fs]; [done|]. unfold next_page, page_cells. cbn [fst snd Z.eqb drop flat_map].
    rewrite (tl_blocks bpp f) by lia. done. }
  destruct fs1 as [|f fs1].
  - eexists. split; [constructor|]. apply Hn.
  - destruct (walk_pages fs1 fs2 f) as (v & Hp & Hv & _). exists v. split; [|done].
    cbn [map]. econstructor; [rewrite Hn; reflexivity|exact Hp].
Qed.
End Walk.

(** All the pages to come. *)
Lemma walk_on d bpp v fs :
  blocks_per_page d = bpp -> 0 < bpp -> next_page [d] v = page_to_come bpp fs ->
  exists vend, pages [d] v (map (pair 0) fs) vend /\ next_page [d] vend = None.
Proof.
  intros Hd Hb Hn. destruct fs as [|f fs]; [exists v; split; [constructor|done]|].
  destruct (walk_pages d bpp Hd Hb fs [] f) as (vend & Hp & He & _). rewrite app_nil_r in Hp.
  exists vend. split; [|done]. cbn [map]. econstructor; [exact Hn|exact Hp].
Qed.

Lemma pages_rest_sublist devs v cs v' : pages devs v cs v' -> snd v' `sublist_of` snd v.
Proof.
  induction 1 as [v|v x rest cs v' Hn _ IH]; [done|]. cbn [snd] in IH. rewrite IH.
  unfold next_page in Hn. destruct (page_cells _ _) as [[|k]|]; try done.
  destruct (drop k (snd v)) as [|y m] eqn:Hd; simplify_eq.
  transitivity (drop k (snd v)); [|apply sublist_drop]. rewrite Hd. by apply sublist_cons.
Qed.

Lemma pages_prefix devs v all vend cs v' :
  pages devs v all vend -> next_page devs vend = None -> pages devs v cs v' -> cs `prefix_of` all.
Proof.
  intros Ha Hend. revert cs v'. induction Ha as [v|v c rest all vend Hn _ IH]; intros cs v' Hp.
  - inversion Hp; [done|congruence].
  - inversion Hp as [|? c' rest' cs' ? Hn' Hp']; subst; [apply prefix_nil|].
    rewrite Hn in Hn'. injection Hn' as <- <-. apply prefix_cons. by eapply IH.
Qed.

(** Pages of a file do not overlap. *)
Lemma pages_gap bpp fs a b f g :
  0 < bpp -> NoDup (flat_map (blocks_at bpp) fs) -> fs !! a = Some f -> fs !! b = Some g -> (a < b)%nat ->
  f + bpp <= g \/ g + bpp <= f.
Proof.
  intros Hb. revert a b. induction fs as [|h fs IH]; intros a b Hnd Ha Hg Hlt; [done|].
  cbn [flat_map] in Hnd. apply NoDup_app in Hnd as (_ & Hx & Hnd). destruct b as [|b]; [lia|].
  destruct a as [|a]; [|apply (IH a b); auto; lia]. injection Ha as ->.
  destruct (Z.lt_ge_cases g (f + bpp)); [|by left]. destruct (Z.lt_ge_cases f (g + bpp)); [|by right].
  exfalso. apply (Hx (Z.max f g)); [apply elem_of_seqZ; lia|].
  apply list_elem_of_In, in_flat_map. exists g. split; [by apply list_elem_of_In; eapply list_elem_of_lookup_2|].
  apply list_elem_of_In, elem_of_seqZ. lia.
Qed.

(** ** A target that is ready *)

Abbreviation bpp_of s := (blocks_per_page (devinfo s)).

(** The pages that the chain holds: none yet, or all of them. *)
Definition holds (s : file_state) (fs : list Z) : Prop :=
  wf_chain (block_chain s) /\ chain_blocks (block_chain s) = flat_map (blocks_at (bpp_of s)) fs.

Record file_ready (i : inode) (s : file_state) : Prop := {
  fr_attached : attached s = true;
  fr_inode : target_inode s = Some i;
  fr_normal : is_normal_file i = true;
  fr_blkbits : 9 <= i_blkbits i <= 12;
  fr_shift : bmap_shift (devinfo s) = i_blkbits i - 9;
  fr_bpp : bpp_of s = 2 ^ (12 - i_blkbits i);
  fr_file : good_file i (bpp_of s);
  fr_chain : exists fs, holds s fs /\ (fs = [] \/ fs = image_pages i s);
  fr_idle : idle (bio s);
  fr_saves : length (toi_writer_posn_save (bio s)) = 4%nat
}.

(** What a block number of a page is in sectors: pages of eight. *)
Lemma ready_sectors i s : file_ready i s -> bpp_of s * 2 ^ bmap_shift (devinfo s) = 8.
Proof.
  intros Hr. destruct Hr as [_ _ _ Hb -> -> _ _ _ _]. rewrite <- Z.pow_add_r by lia.
  by replace (12 - i_blkbits i + (i_blkbits i - 9)) with 3 by lia.
Qed.

Section Ready.
Context (i : inode) (s : file_state) (fs : list Z).
Context (Hr : file_ready i s) (Hh : holds s fs) (Hfs : fs = [] \/ fs = image_pages i s).

Lemma ready_bpp : 0 < bpp_of s <= 8.
Proof using Hr. apply (fr_file _ _ Hr). Qed.

Lemma ready_seen : seen s = (set_block_chain [block_chain s] (bio s)) {{ toi_devinfo := [devinfo s] }}.
Proof using Hr. unfold seen. by rewrite (fr_attached _ _ Hr). Qed.

Lemma ready_tape : tape [block_chain s] = map (pair 0) (flat_map (blocks_at (bpp_of s)) fs).
Proof using Hh. unfold tape. cbn [tape_from]. rewrite app_nil_r. by destruct Hh as [_ ->]. Qed.

Lemma ready_NoDup : NoDup (flat_map (blocks_at (bpp_of s)) fs).
Proof using Hh. destruct Hh as [Hw <-]. by apply chain_blocks_NoDup. Qed.

Lemma ready_small f : f ∈ fs -> 0 <= f < 2 ^ 31 - 8.
Proof using Hr Hfs.
  intros Hf. destruct Hfs as [E|E]; rewrite E in Hf; [by apply elem_of_nil in Hf|]. unfold image_pages in Hf.
  rewrite merge_sort_Permutation in Hf. apply list_elem_of_In, in_map_iff in Hf as (p & <- & _).
  apply (fr_file _ _ Hr).
Qed.

Lemma ready_blocks b : b ∈ flat_map (blocks_at (bpp_of s)) fs -> 0 <= b < 2 ^ 31.
Proof using Hr Hfs.
  intros Hb. apply list_elem_of_In, in_flat_map in Hb as (f & Hf%list_elem_of_In & Hb%list_elem_of_In).
  apply elem_of_seqZ in Hb. pose proof (ready_small f Hf). pose proof ready_bpp. lia.
Qed.

Lemma ready_at_start : wf_tape (at_start (seen s)).
Proof using Hr Hh.
  rewrite ready_seen. split.
  - apply goto_start_wf. repeat constructor. apply Hh.
  - done.
  - constructor; [|constructor]. intros _. apply ready_bpp.
  - apply (fr_saves _ _ Hr).
Qed.

Lemma ready_short : Forall (fun c => Z.of_nat (length (chain_exts c)) < 2 ^ 31) (AllocatorIO.block_chain (seen s)).
Proof using Hr Hh Hfs.
  rewrite ready_seen. constructor; [|constructor]. destruct Hh as [Hw Hb].
  pose proof (wf_from_short 0 (chain_exts (block_chain s)) (2 ^ 31 - 1) (wf_sorted _ Hw)) as H.
  enough (Z.of_nat (length (chain_exts (block_chain s))) <= 2 ^ 31 - 1 - 0) by lia. apply H; [|lia].
  intros b Hin. change (b ∈ chain_blocks (block_chain s)) in Hin. rewrite Hb in Hin.
  apply list_elem_of_In, in_flat_map in Hin as (f & Hf%list_elem_of_In & Hx%list_elem_of_In).
  apply elem_of_seqZ in Hx. pose proof (ready_small f Hf). pose proof ready_bpp. lia.
Qed.

(** The header is set aside exactly when the file has that many pages. *)
Lemma file_header_spec k :
  header_pages_reserved s = Z.of_nat k ->
  exists p sl r, apply_header_reservation s =
      Some (s {{ bio := (seen s) {{ toi_writer_posn := p; toi_writer_posn_save := sl }} }}, r) /\
    it_chains p = [block_chain s] /\ length sl = 4%nat /\
    (r = 0 /\ (k <= length fs)%nat /\ savable p /\
       (exists sv, sl !! 2%nat = Some sv /\ toi_extent_state_restore p sv = Some p) /\
       pages [devinfo s] (-1, tape [block_chain s]) (map (pair 0) (take k fs)) (current_chain p, rest_of p) /\
       next_page [devinfo s] (current_chain p, rest_of p) = page_to_come (bpp_of s) (drop k fs) /\
       list.last ((-1, 0) :: map (pair 0) (take k fs)) = Some (current_chain p, current_offset p)
     \/ r = - ENOSPC /\ (length fs < k)%nat).
Proof using Hr Hh Hfs.
  intros Hk. pose proof ready_bpp as Hbpp.
  assert (forall p sl r, it_chains p = [block_chain s] ->
            reserve_pages k (seen s) = Some ((seen s) {{ toi_writer_posn := p; toi_writer_posn_save := sl }}, r) ->
            apply_header_reservation s = Some (s {{ bio := (seen s) {{ toi_writer_posn := p; toi_writer_posn_save := sl }} }}, r)) as Hin.
  { intros p sl r Hc E. unfold apply_header_reservation, bind, get. rewrite Hk, Nat2Z.id. unfold in_bio. rewrite E.
    rewrite (fr_attached _ _ Hr). unfold AllocatorIO.block_chain.
    change (toi_writer_posn ((seen s) {{ toi_writer_posn := p; toi_writer_posn_save := sl }})) with p. rewrite Hc.
    rewrite ready_seen. by destruct s. }
  assert (AllocatorIO.block_chain (seen s) = [block_chain s] /\ toi_devinfo (seen s) = [devinfo s] /\
          extra_page_forward (seen s) = false /\ length (toi_writer_posn_save (seen s)) = 4%nat) as (Ec & Ed & Ex & El).
  { rewrite ready_seen. split_and!; try done; [apply (id_extra _ (fr_idle _ _ Hr))|apply (fr_saves _ _ Hr)]. }
  destruct (decide (k <= length fs)%nat) as [Hle|Hgt].
  - destruct (walk_from_start (devinfo s) (bpp_of s) eq_refl ltac:(lia) (take k fs) (drop k fs)) as (v & Hp & Hn).
    rewrite take_drop, <- ready_tape in Hp.
    destruct (reserve_pages_ok (seen s) ready_at_start Ex ready_short (map (pair 0) (take k fs)) v)
      as (p & sv & E & Hsv & Hc & Hre & Hv & Hl); [by rewrite Ec, Ed|].
    rewrite length_map, length_take_le in E by done. rewrite Ec in Hc.
    eexists p, _, 0. split; [by apply Hin|]. split; [done|]. rewrite length_insert. split; [done|]. left.
    rewrite Hv. split_and!; auto. exists sv. split; [|done]. apply list_lookup_insert_eq. rewrite El. lia.
  - destruct (walk_from_start (devinfo s) (bpp_of s) eq_refl ltac:(lia) fs []) as (v & Hp & Hn).
    rewrite app_nil_r, <- ready_tape in Hp.
    destruct (reserve_pages_short (seen s) ready_at_start Ex ready_short (map (pair 0) fs) v k) as (p & E & Hc);
      [by rewrite Ec, Ed|by rewrite Ed|rewrite length_map; lia|]. rewrite Ec in Hc.
    exists p, (toi_writer_posn_save (seen s)), (- ENOSPC). split; [apply Hin; [done|]|].
    { rewrite E. by destruct (seen s). }
    split; [done|]. split; [done|]. right. split; [done|lia].
Qed.
End Ready.

(** ** Allocating *)

(** The writer stands after the first [k] pages, the start of stream 2. *)
Record file_placed (s : file_state) (fs : list Z) (k : nat) : Prop := {
  fp_own : seen s = bio s;
  fp_chain : AllocatorIO.block_chain (bio s) = [block_chain s];
  fp_dev : toi_devinfo (bio s) = [devinfo s];
  fp_savable : savable (toi_writer_posn (bio s));
  fp_saved : exists sv, toi_writer_posn_save (bio s) !! 2%nat = Some sv /\
    toi_extent_state_restore (toi_writer_posn (bio s)) sv = Some (toi_writer_posn (bio s));
  fp_pages : pages [devinfo s] (-1, tape [block_chain s]) (map (pair 0) (take k fs)) (BlockIOFacts.view (bio s));
  fp_next : next_page [devinfo s] (BlockIOFacts.view (bio s)) = page_to_come (bpp_of s) (drop k fs);
  fp_here : list.last ((-1, 0) :: map (pair 0) (take k fs)) = Some (here (bio s))
}.

Lemma image_pages_length i s :
  good_file i (bpp_of s) -> Z.of_nat (length (image_pages i s)) * bpp_of s < 2 ^ 31.
Proof.
  intros [Hb [Hs Hn] _ _]. unfold image_pages. rewrite merge_sort_Permutation, length_map.
  unfold used_pages. pose proof (length_filter (fun p => used_page i (bpp_of s)
    (Z.shiftr (target_firstblock s) (bmap_shift (devinfo s))) p = true) (file_pages i)) as Hl.
  unfold file_pages at 2 in Hl. rewrite length_seqZ in Hl. nia.
Qed.

Lemma flat_blocks_length bpp fs : 0 <= bpp -> Z.of_nat (length (flat_map (blocks_at bpp) fs)) = Z.of_nat (length fs) * bpp.
Proof.
  intros Hb. induction fs as [|f fs IH]; [done|]. cbn [flat_map length]. rewrite length_app. unfold blocks_at at 1. rewrite length_seqZ. nia.
Qed.

Lemma holds_size i s fs :
  good_file i (bpp_of s) -> holds s fs -> fs = [] \/ fs = image_pages i s ->
  chain_size (block_chain s) = Z.of_nat (length fs) * bpp_of s.
Proof.
  intros Hi [Hw Hb] Hfs. pose proof (gf_bpp _ _ Hi). rewrite (wf_size _ Hw).
  rewrite <- (flat_blocks_length (bpp_of s) fs), <- Hb by lia. unfold chain_blocks.
  rewrite (exts_blocks_length 0) by apply Hw. apply s32_small.
  pose proof (exts_blocks_length 0 _ (wf_sorted _ Hw)) as E. fold (chain_blocks (block_chain s)) in E.
  rewrite Hb, flat_blocks_length in E by lia. rewrite <- E.
  destruct Hfs as [->| ->]; [simpl; lia|]. pose proof (image_pages_length i s Hi). nia.
Qed.

(** Other chains of the same pages leave a target ready. *)
Lemma ready_rechained i s s1 fs :
  file_ready i s -> rechained s s1 -> holds s1 fs -> fs = [] \/ fs = image_pages i s -> file_ready i s1.
Proof.
  intros [Ha Hn Hk Hb Hsh Hp Hf _ [? ? ? ? ?] Hs] (b & c & -> & Hbb) Hh Hfs.
  split; try done; [by exists fs|..]; destruct Hbb as [->|(_ & cs & ds & ->)]; done.
Qed.

Lemma put_chain_empty s :
  wf_chain (block_chain s) ->
  exists c, modify (fun s => match chain_exts (block_chain s) with
                   | [] => s
                   | _ => s {{ block_chain := toi_put_extent_chain (block_chain s) }}
                   end) s = Some (s {{ block_chain := c }}, tt) /\ wf_chain c /\ chain_blocks c = [].
Proof.
  intros Hw. unfold modify. destruct (chain_exts (block_chain s)) eqn:E.
  - exists (block_chain s). split; [by destruct s|]. split; [done|]. unfold chain_blocks. by rewrite E.
  - eexists. split; [done|]. split; [by apply put_wf|done].
Qed.

(** What reserving and populating leave alone. *)
Definition same_target (s s' : file_state) : Prop :=
  devinfo s' = devinfo s /\ target_firstblock s' = target_firstblock s /\
  header_pages_reserved s' = header_pages_reserved s /\ toi_result (bio s') = toi_result (bio s) /\
  the_disk (bio s') = the_disk (bio s).

Lemma same_target_pages i s s' : same_target s s' -> image_pages i s' = image_pages i s.
Proof. intros (Hd & Ht & _). unfold image_pages. by rewrite Hd, Ht. Qed.

Lemma reserve_in_file i s fs k :
  file_ready i s -> holds s fs -> fs = [] \/ fs = image_pages i s -> header_pages_reserved s = Z.of_nat k ->
  exists s' r, apply_header_reservation s = Some (s', r) /\ file_ready i s' /\ holds s' fs /\ same_target s s' /\
    (r = 0 /\ (k <= length fs)%nat /\ file_placed s' fs k \/ r = - ENOSPC /\ (length fs < k)%nat).
Proof.
  intros Hr Hh Hfs Hk. destruct (file_header_spec i s fs Hr Hh Hfs k Hk) as (p & sl & r & Ha & Hc & Hl & Hres).
  pose proof (ready_seen i s Hr) as Es. rewrite Es in Ha.
  set (b := ((set_block_chain [block_chain s] (bio s)) {{ toi_devinfo := [devinfo s] }})
              {{ toi_writer_posn := p; toi_writer_posn_save := sl }}) in *.
  exists (s {{ bio := b }}), r. split; [done|]. split; [|split; [done|split; [done|]]].
  - destruct Hr as [? ? ? ? ? ? ? _ [? ? ? ? ?] ?]. split; try done. by exists fs.
  - destruct Hres as [(-> & Hle & Hsv & Hsaved & Hp & Hn & Hl')|?]; [left|by right]. split_and!; auto.
    split; auto.
    unfold seen. change (attached (s {{ bio := b }})) with (attached s). rewrite (fr_attached _ _ Hr).
    change (block_chain (s {{ bio := b }})) with (block_chain s). rewrite <- Hc. unfold b.
    destruct p. by destruct s as [[]].
Qed.

Lemma populate_block_list_spec i s k :
  file_ready i s -> header_pages_reserved s = Z.of_nat k ->
  exists s' r, populate_block_list s = Some (s', r) /\ file_ready i s' /\ holds s' (image_pages i s) /\ same_target s s' /\
    (r = 0 /\ (k <= length (image_pages i s))%nat /\ file_placed s' (image_pages i s) k
     \/ r = - ENOSPC /\ (length (image_pages i s) < k)%nat).
Proof.
  intros Hr Hk. destruct (fr_chain _ _ Hr) as (fs & [Hw _] & _).
  destruct (put_chain_empty s Hw) as (c & Hput & Hwc & Hbc). unfold populate_block_list, bind at 1. rewrite Hput.
  unfold bind at 1, get. change (target_inode (s {{ block_chain := c }})) with (target_inode s).
  rewrite (fr_inode _ _ Hr), (fr_normal _ _ Hr). cbn [negb].
  assert (rechained s (s {{ block_chain := c }})) as Hrc by apply rechained_set, rechained_refl.
  destruct (populate_pages_spec i s (fr_file _ _ Hr) (id_memory _ (fr_idle _ _ Hr)) (file_pages i) []
    (s {{ block_chain := c }}) (-1) (-1)) as (s1 & Hp & Hs1 & Hw1 & Hb1); auto; [by left| |].
  { change (chain_blocks c ++ [] ≡ₚ []). by rewrite Hbc. }
  unfold bind. rewrite Hp. unfold or_return. cbn [Z.eqb].
  pose proof (rechained_same _ _ Hs1) as (_ & Hd1 & Ht1).
  assert (holds s1 (image_pages i s)) as Hh1.
  { split; [done|]. rewrite Hd1. apply chain_is_pages; [apply (fr_file _ _ Hr)|done..]. }
  assert (same_target s s1) as Hsame by (destruct Hs1 as (b & c1 & -> & [->|(_ & ? & ? & ->)]); by split_and!).
  destruct (reserve_in_file i s1 (image_pages i s) k) as (s' & r & Ha & Hr' & Hh' & Hs' & Hres); auto.
  - eapply ready_rechained; eauto.
  - right. symmetry. by apply same_target_pages.
  - destruct Hsame as (_ & _ & -> & _). done.
  - exists s', r. split; [done|]. split; [done|]. split; [done|]. split; [|done].
    destruct Hsame as (? & ? & ? & ? & ?), Hs' as (? & ? & ? & ? & ?). split_and!; congruence.
Qed.

Lemma extra_pages_small request : 0 <= request < 2 ^ 30 -> 0 <= extra_pages request < 2 ^ 22.
Proof.
  intros Hr. unfold extra_pages, sizeof_long, sizeof_int, DIV_ROUND_UP, PAGE_SIZE.
  rewrite u64_small by lia. rewrite Z.quot_div_nonneg by lia.
  assert (0 <= (request * (8 + 4) + 4096 - 1) / 4096 < 2 ^ 22) by (split; [apply Z.div_pos; lia|apply Z.div_lt_upper_bound; lia]).
  rewrite s32_small by lia. lia.
Qed.

Lemma allocate_in_file i s k request :
  file_ready i s -> header_pages_reserved s = Z.of_nat k -> 0 <= request < 2 ^ 30 -> Z.of_nat k < 2 ^ 29 ->
  0 < request + Z.of_nat k ->
  exists s' r, toi_file_allocate_storage request s = Some (s', r) /\ file_ready i s' /\ holds s' (image_pages i s) /\
    same_target s s' /\ (r = 0 /\ file_placed s' (image_pages i s) k \/ r = - ENOSPC) /\
    (r = 0 <-> (k <= length (image_pages i s))%nat /\
       request + extra_pages request + Z.of_nat k <= Z.of_nat (length (image_pages i s)) * bpp_of s).
Proof.
  intros Hr Hk Hreq Hkb Hpos. pose proof (extra_pages_small request Hreq) as Hex.
  destruct (fr_chain _ _ Hr) as (fs & Hh & Hfs). pose proof (fr_file _ _ Hr) as Hi.
  pose proof (holds_size i s fs Hi Hh Hfs) as Hsz. pose proof (image_pages_length i s Hi) as Hlen.
  pose proof (gf_bpp _ _ Hi) as Hbpp.
  unfold toi_file_allocate_storage, bind at 1, get at 1. rewrite Hk, Hsz.
  rewrite (s32_small (request + extra_pages request + Z.of_nat k)) by lia.
  assert (0 <= Z.of_nat (length fs) * bpp_of s < 2 ^ 31) as Hfb by (destruct Hfs as [->| ->]; simpl length; nia).
  rewrite s32_small by lia. destruct (Z.ltb_spec (request + extra_pages request + Z.of_nat k - Z.of_nat (length fs) * bpp_of s) 1).
  - destruct Hfs as [->| ->]; [simpl in *; lia|].
    destruct (reserve_in_file i s _ k Hr Hh (or_intror eq_refl) Hk) as (s' & r & Ha & Hr' & Hh' & Hs' & Hres).
    exists s', r. do 4 (split; [done|]). split; [destruct Hres as [(-> & _ & ?)|[-> _]]; auto|].
    destruct Hres as [(-> & ? & _)|[-> ?]]; unfold ENOSPC; lia.
  - destruct (populate_block_list_spec i s k Hr Hk) as (s' & r & Hp & Hr' & Hh' & Hs' & Hres).
    unfold bind at 1. rewrite Hp. unfold or_return.
    destruct Hres as [(-> & Hle & Hpl)|[-> Hlt]]; cbn [Z.eqb Z.opp].
    2:{ exists s', (- ENOSPC). do 4 (split; [done|]). split; [by right|]. unfold ENOSPC; lia. }
    unfold bind, get, modify, ret.
    assert (chain_size (block_chain s') = Z.of_nat (length (image_pages i s)) * bpp_of s) as Hsz'.
    { pose proof Hs' as (Hd & _). rewrite <- Hd. apply (holds_size i s'); [apply (fr_file _ _ Hr')|done|].
      right. symmetry. by apply same_target_pages. }
    rewrite Hsz'. eexists _, _. split; [reflexivity|].
    set (s2 := s' {{ main_pages_requested := _; main_pages_allocated := _ }}).
    assert (file_ready i s2) as Hr2 by (by destruct Hr').
    do 3 (split; [done|]).
    destruct (Z.ltb_spec (Z.of_nat (length (image_pages i s)) * bpp_of s) (request + extra_pages request + Z.of_nat k)).
    + split; [by right|]. unfold ENOSPC. lia.
    + split; [|lia]. left. split; [done|]. by destruct Hpl.
Qed.

(** ** The image in the file *)

Section Placed.
Context (i : inode) (s : file_state) (fs : list Z) (k : nat).
Context (Hr : file_ready i s) (Hh : holds s fs) (Hfs : fs = [] \/ fs = image_pages i s).
Context (Hp : file_placed s fs k).

Lemma placed_rest : rest_of (toi_writer_posn (bio s)) `sublist_of` map (pair 0) (flat_map (blocks_at (bpp_of s)) fs).
Proof using Hh Hp.
  pose proof (pages_rest_sublist _ _ _ _ (fp_pages _ _ _ Hp)) as H. cbn [snd BlockIOFacts.view] in H.
  by rewrite (ready_tape s fs Hh) in H.
Qed.

Lemma placed_to_come :
  exists vend, pages [devinfo s] (BlockIOFacts.view (bio s)) (map (pair 0) (drop k fs)) vend /\
    next_page [devinfo s] vend = None.
Proof using Hr Hp. apply (walk_on _ (bpp_of s)); [done|apply (ready_bpp i s Hr)|apply (fp_next _ _ _ Hp)]. Qed.

Lemma placed_apart : layout_apart [devinfo s] (start_of (toi_writer_posn (bio s))).
Proof using Hr Hh Hp.
  destruct placed_to_come as (vend & Hall & Hend). intros cs v' Hcs a b x y Hne Hx Hy.
  destruct (pages_prefix _ _ _ _ _ _ Hall Hend Hcs) as [tail Et].
  assert (forall j c, cs !! j = Some c -> exists f, c = (0, f) /\ fs !! (k + j)%nat = Some f) as Hcell.
  { intros j c Hj. apply (lookup_app_l_Some _ tail) in Hj. rewrite <- Et, list_lookup_fmap, lookup_drop in Hj.
    destruct (fs !! (k + j)%nat) as [f|]; simplify_eq/=. by exists f. }
  destruct (Hcell a x Hx) as (f & -> & Hf), (Hcell b y Hy) as (g & -> & Hg).
  pose proof (ready_bpp i s Hr) as Hb. pose proof (ready_NoDup s fs Hh) as Hnd.
  assert (f + bpp_of s <= g \/ g + bpp_of s <= f) as Hgap.
  { destruct (decide (a < b)%nat).
    - apply (pages_gap (bpp_of s) fs (k + a) (k + b)); auto; lia.
    - destruct (pages_gap (bpp_of s) fs (k + b) (k + a) g f); auto; try lia. }
  right. change (place [devinfo s] (0, f)) with (bdev (devinfo s), Z.shiftl f (bmap_shift (devinfo s))).
  change (place [devinfo s] (0, g)) with (bdev (devinfo s), Z.shiftl g (bmap_shift (devinfo s))). cbn [snd].
  pose proof (fr_blkbits _ _ Hr). pose proof (fr_shift _ _ Hr) as Hsh.
  rewrite !Z.shiftl_mul_pow2 by lia. pose proof (ready_sectors i s Hr) as H8. unfold SECTORS_PER_PAGE.
  set (e := 2 ^ bmap_shift (devinfo s)) in *. assert (0 < e) by (apply Z.pow_pos_nonneg; lia). nia.
Qed.

Lemma placed_ready : stream_ready 2 (bio s) (toi_writer_posn (bio s)).
Proof using Hr Hh Hfs Hp.
  pose proof (ready_bpp i s Hr) as Hb. pose proof (fp_chain _ _ _ Hp) as Hc.
  split; auto; try apply Hp.
  - split; [apply (fp_savable _ _ _ Hp)|..|apply (fr_saves _ _ Hr)].
    + rewrite (fp_dev _ _ _ Hp). unfold AllocatorIO.block_chain in Hc. by rewrite Hc.
    + rewrite (fp_dev _ _ _ Hp). unfold AllocatorIO.block_chain in Hc. rewrite Hc.
      constructor; [|constructor]. intros _. apply Hb.
  - apply (fr_idle _ _ Hr).
  - apply Forall_forall. intros c Hc'. apply elem_of_cons in Hc' as [->|Hin].
    + pose proof (fp_here _ _ _ Hp) as Hl. apply last_Some_elem_of, elem_of_cons in Hl as [E|Hin].
      * unfold here in E. rewrite E. simpl. lia.
      * apply list_elem_of_In, in_map_iff in Hin as (f & E & Hf). unfold here in E. rewrite <- E. cbn [snd].
        assert (f ∈ fs) as Hf' by (eapply elem_of_sublist; [by apply list_elem_of_In|apply sublist_take]).
        pose proof (ready_small i s fs Hr Hfs f Hf'). lia.
    + eapply elem_of_sublist in Hin; [|exact placed_rest].
      apply list_elem_of_In, in_map_iff in Hin as (x & <- & Hx%list_elem_of_In).
      apply (ready_blocks i s fs Hr Hfs x Hx).
  - rewrite (fp_dev _ _ _ Hp). exact placed_apart.
Qed.
End Placed.

(** ** Properties *)


(** C10: an image stays in its file.  Once storage has been allocated, any
    image that fits the pages after the header can be written to the second
    stream, which is then closed.  Only pages of the file that hold
    contiguous blocks, and not the signature, are changed on the disk; and a
    kernel that has reloaded the metadata reads the image back. *)
Theorem image_kept_in_file i s k request s' l :
  file_ready i s -> header_pages_reserved s = Z.of_nat k -> 0 <= request < 2 ^ 30 -> Z.of_nat k < 2 ^ 29 ->
  0 < request + Z.of_nat k ->
  toi_file_allocate_storage request s = Some (s', 0) ->
  Forall wf_entry l -> (length (image_bytes l) <= Z.to_nat PAGE_SIZE * (length (image_pages i s) - k))%nat ->
  test_result_state TOI_ABORTED (toi_result (bio s)) = false ->
  exists st1 st2 st3, toi_rw_init WRITE 2 (seen s') = Some (st1, 0) /\
    write_image l st1 = Some (st2, 0) /\ toi_rw_cleanup WRITE st2 = Some (st3, 0) /\
    (forall a, (forall p, p ∈ file_pages i ->
                 used_page i (bpp_of s) (Z.shiftr (target_firstblock s) (bmap_shift (devinfo s))) p = true ->
                 apart (bdev (devinfo s), Z.shiftl (first_of i (bpp_of s) p) (bmap_shift (devinfo s))) a) ->
       disk_read (the_disk st3) (fst a) (snd a) = disk_read (the_disk (bio s)) (fst a) (snd a)) /\
    forall r, reloaded st3 r ->
      exists r1 r2, toi_rw_init READ 2 r = Some (r1, 0) /\
        read_image (length l) r1 = Some (r2, (map entry_read l, 0)).
Proof.
  intros Hr Hk Hreq Hkb Hpos Ha Hl Hfit Hab.
  destruct (allocate_in_file i s k request Hr Hk Hreq Hkb Hpos) as (s0 & r & Ha' & Hr' & Hh & Hs & Hres & _).
  rewrite Ha in Ha'. injection Ha' as <- <-. destruct Hres as [[_ Hp]|?]; [|done].
  pose proof (same_target_pages i _ _ Hs) as Ei. destruct Hs as (Hd & Ht & _ & Htr & Hdk).
  assert (image_pages i s = [] \/ image_pages i s = image_pages i s') as Hfs by (right; by rewrite Ei).
  destruct (placed_to_come i s' _ k Hr' Hp) as (vend & Hall & _).
  rewrite (fp_own _ _ _ Hp).
  destruct (stream_written_read 2 (bio s') (toi_writer_posn (bio s')) l (map (pair 0) (drop k (image_pages i s))) vend)
    as (st1 & st2 & st3 & H1 & H2 & H3 & Hframe & Hread); auto.
  - by apply (placed_ready i s' (image_pages i s) k).
  - by rewrite Htr.
  - by rewrite (fp_dev _ _ _ Hp).
  - by rewrite length_map, length_drop.
  - exists st1, st2, st3. do 3 (split; [done|]). split; [|done].
    intros a Hap. rewrite Hframe, Hdk; [done|]. rewrite (fp_dev _ _ _ Hp), Hd. apply Forall_forall.
    intros c Hc. apply list_elem_of_In, in_map_iff in Hc as (f & <- & Hf%list_elem_of_In).
    eapply elem_of_sublist in Hf; [|apply sublist_drop]. unfold image_pages in Hf. rewrite merge_sort_Permutation in Hf.
    apply list_elem_of_In, in_map_iff in Hf as (p & <- & Hq%list_elem_of_In).
    apply list_elem_of_filter in Hq as [Hu Hin]. by apply Hap.
Qed.

(** A file of eight pages on a filesystem with blocks of 1K: six pages in one
    piece, one scattered, and one elsewhere. *)
Module SampleFile.

Definition sample_bmap (k : Z) : Z :=
  if (0 <=? k) && (k <? 24) then 100 + k
  else if (24 <=? k) && (k <? 28) then 200 + 2 * (k - 24)
  else if (28 <=? k) && (k <? 32) then 40 + (k - 28)
  else 0.

Definition sample_inode : inode := Inode S_IFREG 32768 10 sample_bmap 0 7.

Definition sample_bio : bio_state :=
  BioState (IterState [empty_chain] (-1) None 0)
    [SavedState 0 0 0; SavedState 0 0 0; SavedState 0 0 0; SavedState 0 0 0]
    [BdevInfo 7 0 1 4 false] None 0 [] [] true false 0 (fun _ _ => repeat 0 512) 0 0 0 0 0 [] [] false false 0 false [].

Definition sample_file : file_state :=
  FileState sample_bio true empty_chain (BdevInfo 7 0 1 4 false) (bytes_of "/image") (Some sample_inode) true 7 7 false
    false 200 0 8 false 2 0 0 true 0 [] 1 [] [].

Lemma sample_good : good_file sample_inode 4.
Proof.
  split; [lia|vm_compute; split; [discriminate|reflexivity]| |].
  - intros k. cbn [bmap sample_inode]. unfold sample_bmap.
    repeat match goal with |- context [if ?b then _ else _] => destruct b eqn:? end; breflect; lia.
  - intros j k. cbn [bmap sample_inode]. unfold sample_bmap.
    repeat match goal with |- context [if ?b then _ else _] => destruct b eqn:? end; breflect; lia.
Qed.

Lemma sample_file_ready : file_ready sample_inode sample_file.
Proof.
  split; try done; [apply sample_good|]. exists []. split; [|by left]. split; [by split|done].
Qed.
End SampleFile.


Definition allocated_file : file_state :=
  match toi_file_allocate_storage 3 SampleFile.sample_file with Some (s, _) => s | None => SampleFile.sample_file end.

Lemma image_kept_in_file_witness :
  exists st1 st2 st3, toi_rw_init WRITE 2 (seen allocated_file) = Some (st1, 0) /\
    write_image sample_image st1 = Some (st2, 0) /\ toi_rw_cleanup WRITE st2 = Some (st3, 0) /\
    (forall a, (forall p, p ∈ file_pages SampleFile.sample_inode ->
                 used_page SampleFile.sample_inode 4 100 p = true ->
                 apart (7, Z.shiftl (first_of SampleFile.sample_inode 4 p) 1) a) ->
       disk_read (the_disk st3) (fst a) (snd a) =
       disk_read (the_disk (bio SampleFile.sample_file)) (fst a) (snd a)) /\
    forall r, reloaded st3 r ->
      exists r1 r2, toi_rw_init READ 2 r = Some (r1, 0) /\
        read_image (length sample_image) r1 = Some (r2, (map entry_read sample_image, 0)).
Proof.
  apply (image_kept_in_file SampleFile.sample_inode SampleFile.sample_file 2 3 allocated_file sample_image);
    [apply SampleFile.sample_file_ready|reflexivity|lia|lia|lia|vm_compute; reflexivity| | |reflexivity].
  - repeat constructor; simpl; lia.
  - apply Nat.leb_le. vm_compute. reflexivity.
Defined.

(** The size of the chain is in blocks, and is compared with pages: with
    blocks of 1K a request for 20 pages is granted although the file has only
    six, two of them for the header. *)
Lemma small_blocks_overcommit :
  (exists s', toi_file_allocate_storage 20 SampleFile.sample_file = Some (s', 0)) /\
  length (image_pages SampleFile.sample_inode SampleFile.sample_file) = 6%nat.
Proof. split; [eexists; vm_compute; reflexivity|vm_compute; reflexivity]. Qed.
