(* ===== verification/FileSignature.v ===== *)
(** * The signature of a file

    The first page of the target says whether it holds an image: the
    operations on it, from the header's end to the removal of the image, and
    the resume parameter that leads a booting kernel to it. *)

From S2P Require Import Prelude HeaderStream Extents States BlockIO BlockIOFacts BlockIORead Vsprintf AllocatorIO AllocatorFacts FileStorage.
From stdpp Require Import numbers base list strings sets.
#[local] Open Scope Z_scope.
#[local] Open Scope step_scope.
#[local] Arguments Z.to_nat : simpl never.

(** ** Reading and writing the signature *)

(** Operations that leave the chains and the devices alone. *)
Lemma in_bio_ok {A} (m : M bio_state A) s b a :
  m (seen s) = Some (b, a) -> AllocatorIO.block_chain b = AllocatorIO.block_chain (seen s) ->
  toi_devinfo b = toi_devinfo (seen s) ->
  in_bio m s = Some (s {{ bio := b }}, a) /\ seen (s {{ bio := b }}) = b.
Proof.
  intros Hm Hc Hd. unfold in_bio. rewrite Hm. unfold seen in *.
  change (attached (s {{ bio := b }})) with (attached s).
  change (block_chain (s {{ bio := b }})) with (block_chain s).
  change (devinfo (s {{ bio := b }})) with (devinfo s). change (bio (s {{ bio := b }})) with b.
  destruct (attached s) eqn:Ha; [|done]. change (AllocatorIO.block_chain _) with [block_chain s] in Hc at 2.
  change (toi_devinfo _) with [devinfo s] in Hd at 2. rewrite Hc, Hd. split; [by destruct s|].
  unfold AllocatorIO.block_chain in Hc. unfold set_block_chain. rewrite <- Hc, <- Hd.
  destruct b as [[? ? ? ?]]. done.
Qed.

Definition sig_value (p : page) : Z :=
  if starts_with NoImage p || (starts_with tuxonice_signature p && (hdr_have_image p =? 0)) then 0
  else if negb (starts_with HaveImage p) && negb (starts_with tuxonice_signature p) then -1
  else 1.

Definition parsed (p : page) (s : file_state) : file_state :=
  if sig_value p =? 1 then
    s {{ toi_state := if hdr_resumed_before p =? 0 then clear_toi_state TOI_RESUMED_BEFORE (toi_state s)
                      else set_toi_state TOI_RESUMED_BEFORE (toi_state s);
         target_header_start := hdr_first_header_block p }}
  else s.

Lemma parse_signature_spec p s : parse_signature p s = Some (parsed p s, sig_value p).
Proof.
  unfold parse_signature, parsed, sig_value.
  destruct (starts_with NoImage p || _); [done|]. by destruct (negb (starts_with HaveImage p) && _).
Qed.

(** Nothing is queued, and memory is to be had. *)
Record quiet (b : bio_state) : Prop := {
  q_memory : memory b = [];
  q_queue : bio_queue b = [];
  q_filter : filter_speed_test b = false
}.

Lemma seen_quiet s : quiet (bio s) -> quiet (seen s).
Proof. intros [? ? ?]. unfold seen. by destruct (attached s). Qed.

Lemma seen_disk s : the_disk (seen s) = the_disk (bio s).
Proof. unfold seen. by destruct (attached s). Qed.

(** The page the signature is on. *)
Definition sig_page (s : file_state) : page := disk_read (the_disk (bio s)) (toi_file_target_bdev s) (target_firstblock s).

(** The block layer after some transfers. *)
Definition transferred (n : Z) (d : disk) (b : bio_state) : bio_state := b {{ toi_io_done := n; the_disk := d }}.

Lemma transfer_read s b pos p :
  quiet (seen s) -> in_bio (toi_bdev_page_io READ b pos p) s =
    Some (s {{ bio := transferred (s32 (toi_io_done (seen s) + 1)) (the_disk (seen s)) (seen s) }},
          (disk_read (the_disk (seen s)) b pos, 0)) /\
  seen (s {{ bio := transferred (s32 (toi_io_done (seen s) + 1)) (the_disk (seen s)) (seen s) }}) =
    transferred (s32 (toi_io_done (seen s) + 1)) (the_disk (seen s)) (seen s).
Proof.
  intros [_ _ Hf]. apply in_bio_ok; [|done..]. unfold toi_bdev_page_io, bind, submit. rewrite Hf. cbn [READ].
  by destruct (seen s).
Qed.

Lemma transfer_write s b pos p :
  quiet (seen s) -> let b' := transferred (s32 (toi_io_done (seen s) + 1)) (disk_write (the_disk (seen s)) b pos p) (seen s) in
  in_bio (toi_bdev_page_io WRITE b pos p) s = Some (s {{ bio := b' }}, (p, 0)) /\ seen (s {{ bio := b' }}) = b'.
Proof.
  intros [_ _ Hf] b'. apply in_bio_ok; [|done..]. unfold toi_bdev_page_io, bind, submit. by rewrite Hf.
Qed.

Lemma quiet_transferred n d b : quiet b -> quiet (transferred n d b).
Proof. by intros [? ? ?]. Qed.

Lemma finish_quiet s : quiet (seen s) -> in_bio toi_finish_all_io s = Some (s {{ bio := seen s }}, 0).
Proof.
  intros [_ Hq _]. apply in_bio_ok; [|done..]. unfold toi_finish_all_io, toi_bio_queue_flush_pages, bind, get. by rewrite Hq.
Qed.

Lemma page_quiet s :
  quiet (seen s) -> in_bio toi_get_zeroed_page s = Some (s {{ bio := seen s }}, Some zero_page) /\
  seen (s {{ bio := seen s }}) = seen s.
Proof. intros [Hm _ _]. apply in_bio_ok; [|done..]. unfold toi_get_zeroed_page. by rewrite Hm. Qed.

Lemma parsed_bio p s b : parsed p (s {{ bio := b }}) = (parsed p s) {{ bio := b }}.
Proof. unfold parsed. by destruct (sig_value p =? 1). Qed.

Lemma seen_parsed p s b : seen ((parsed p s) {{ bio := b }}) = seen (s {{ bio := b }}).
Proof. unfold parsed. by destruct (sig_value p =? 1). Qed.

Lemma seen_own p s n d : seen ((parsed p s) {{ bio := transferred n d (seen s) }}) = transferred n d (seen s).
Proof.
  rewrite seen_parsed. unfold seen. change (attached (s {{ bio := _ }})) with (attached s).
  by destruct (attached s).
Qed.

Lemma if_zero (r : Z) : (if r =? 0 then 0 else r) = r.
Proof. by destruct (Z.eqb_spec r 0). Qed.

(** What an operation returns. *)
Definition op_result (op : signature_operation) (p : page) : Z :=
  match op with
  | INVALIDATE => if sig_value p =? -1 then -1 else 1
  | _ => sig_value p
  end.

Definition op_disk (op : signature_operation) (s : file_state) : disk :=
  match changed_header op (sig_value (sig_page s)) (sig_page s) with
  | None => the_disk (bio s)
  | Some h => disk_write (the_disk (bio s)) (toi_file_target_bdev s) (target_firstblock s) h
  end.

Lemma signature_op_spec op s :
  quiet (bio s) -> 0 < toi_file_target_bdev s ->
  exists n, toi_file_signature_op op s =
    Some ((parsed (sig_page s) s) {{ bio := transferred n (op_disk op s) (seen s) }}, op_result op (sig_page s)).
Proof.
  intros Hq%seen_quiet Hb. unfold toi_file_signature_op, bind at 1, get.
  unfold IS_ERR. rewrite (proj2 (Z.eqb_neq (toi_file_target_bdev s) 0)), (proj2 (Z.ltb_ge (toi_file_target_bdev s) 0)) by lia.
  rewrite andb_false_r. cbn [orb].
  destruct (page_quiet s Hq) as [Hp Es]. unfold bind at 1. rewrite Hp.
  set (s1 := s {{ bio := seen s }}) in *. unfold bind at 1.
  assert (quiet (seen s1)) as Hq1 by (by rewrite Es).
  destruct (transfer_read s1 (toi_file_target_bdev s) (target_firstblock s) zero_page Hq1) as [Hrd Es2]. rewrite Hrd.
  rewrite Es in *. rewrite seen_disk. cbn [fst snd]. fold (sig_page s). set (P := sig_page s) in *.
  set (b2 := transferred (s32 (toi_io_done (seen s) + 1)) (the_disk (bio s)) (seen s)) in *.
  change (s1 {{ bio := b2 }}) with (s {{ bio := b2 }}) in *.
  assert (quiet b2) as Hq2 by (by apply quiet_transferred).
  unfold or_return. cbn [Z.eqb]. unfold bind. rewrite parse_signature_spec, parsed_bio.
  assert (seen ((parsed P s) {{ bio := b2 }}) = b2) as E2 by apply seen_own.
  destruct (changed_header op (sig_value P) P) as [h|] eqn:Hch.
  - destruct (transfer_write ((parsed P s) {{ bio := b2 }}) (toi_file_target_bdev s) (target_firstblock s) h) as [Hw E3];
      [by rewrite E2|]. cbv beta zeta iota. rewrite Hw. unfold ret. cbn [snd Z.eqb]. rewrite E2 in *.
    rewrite finish_quiet by (rewrite E3; by apply quiet_transferred). rewrite E3.
    assert (op_disk op s = disk_write (the_disk (bio s)) (toi_file_target_bdev s) (target_firstblock s) h) as ->
      by (unfold op_disk; by fold P; rewrite Hch).
    assert (op_result op P = match op with INVALIDATE => 1 | _ => sig_value P end) as ->
      by (destruct op; cbn [changed_header op_result] in *; try done; by destruct (sig_value P =? -1)).
    eexists. rewrite if_zero. reflexivity.
  - unfold ret. rewrite finish_quiet by (by rewrite E2). rewrite E2.
    assert (op_disk op s = the_disk (bio s)) as -> by (unfold op_disk; by fold P; rewrite Hch).
    assert (op_result op P = sig_value P) as ->.
    { destruct op; cbn [changed_header op_result] in *; try done. destruct (sig_value P =? -1) eqn:E; [|done]. by breflect. }
    eexists. rewrite if_zero. reflexivity.
Qed.

(** ** Headers *)

(** A page with our signature, the fields of its header, and the rest. *)
Record file_sig (resumed first have : Z) (rest : list Z) (p : page) : Prop := {
  fs_full : full_page p;
  fs_sig : take 8 p = tuxonice_signature;
  fs_resumed : hdr_resumed_before p = resumed;
  fs_first : hdr_first_header_block p = first;
  fs_have : hdr_have_image p = have;
  fs_rest : drop 28 p = rest
}.

Lemma page_4096 (p : page) : full_page p -> length p = 4096%nat.
Proof. intros ->. reflexivity. Qed.

Ltac in_page := repeat rewrite splice_length; rewrite ?length_le_bytes; change (length tuxonice_signature) with 8%nat; lia.

Lemma drop_splice (p : page) pos bs q :
  (pos + length bs <= q)%nat -> (pos + length bs <= length p)%nat -> drop q (splice p pos bs) = drop q p.
Proof. intros H1 H2. apply list_eq. intros j. rewrite !lookup_drop. apply splice_lookup_out; lia. Qed.

Lemma set_resumed_ok a b first have rest p :
  file_sig a first have rest p -> 0 <= b < 2 ^ 31 -> file_sig b first have rest (set_hdr_resumed_before b p).
Proof.
  intros [Hf%page_4096 Hs _ Hh Hi Hr] Hb. unfold set_hdr_resumed_before, hdr_resumed_before, hdr_first_header_block, hdr_have_image in *.
  split; unfold full_page, hdr_resumed_before, hdr_first_header_block, hdr_have_image.
  - rewrite splice_length by in_page. by rewrite Hf.
  - rewrite <- (drop_0 (splice _ _ _)). rewrite field_splice_other by in_page. by rewrite drop_0.
  - rewrite field_splice_same by in_page. rewrite le_val_bytes4, s32_u32. apply s32_small. lia.
  - by rewrite field_splice_other by in_page.
  - by rewrite field_splice_other by in_page.
  - by rewrite drop_splice by in_page.
Qed.

(** The first eight bytes and the flag of an image, whatever was there. *)
Lemma written_ok p v :
  full_page p -> 0 <= v < 2 ^ 31 ->
  file_sig 0 (hdr_first_header_block p) v (drop 28 p) (set_hdr_have_image v (set_hdr_resumed_before 0 (set_hdr_sig p))).
Proof.
  intros Hf%page_4096 Hv. unfold set_hdr_have_image, set_hdr_resumed_before, set_hdr_sig.
  set (p1 := splice p 0 tuxonice_signature). assert (length p1 = 4096%nat) as H1 by (unfold p1; in_page).
  set (p2 := splice p1 12 (le_bytes 4 0)). assert (length p2 = 4096%nat) as H2 by (unfold p2; in_page).
  assert (take 8 (drop 0 p2) = tuxonice_signature) as Hs.
  { unfold p2. rewrite field_splice_other by in_page. unfold p1. by rewrite field_splice_same by in_page. }
  split; unfold full_page, hdr_resumed_before, hdr_first_header_block, hdr_have_image.
  - rewrite splice_length by in_page. by rewrite H2.
  - rewrite <- (drop_0 (splice _ _ _)). by rewrite field_splice_other by in_page.
  - rewrite field_splice_other by in_page. unfold p2. rewrite field_splice_same by in_page. reflexivity.
  - rewrite field_splice_other by in_page. unfold p2. rewrite field_splice_other by in_page.
    unfold p1. by rewrite field_splice_other by in_page.
  - rewrite field_splice_same by in_page. rewrite le_val_bytes4, s32_u32. apply s32_small. lia.
  - rewrite drop_splice by in_page. unfold p2. rewrite drop_splice by in_page. unfold p1. by rewrite drop_splice by in_page.
Qed.

Lemma header_prepared p first :
  full_page p -> 0 <= first < 2 ^ 64 -> file_sig 0 first 1 (drop 28 p) (prepare_signature p first).
Proof.
  intros Hf%page_4096 Hv. unfold prepare_signature, set_hdr_have_image, set_hdr_first_header_block, set_hdr_resumed_before, set_hdr_sig.
  set (p1 := splice p 0 tuxonice_signature). assert (length p1 = 4096%nat) as H1 by (unfold p1; in_page).
  set (p2 := splice p1 12 (le_bytes 4 0)). assert (length p2 = 4096%nat) as H2 by (unfold p2; in_page).
  set (p3 := splice p2 16 (le_bytes 8 first)). assert (length p3 = 4096%nat) as H3 by (unfold p3; in_page).
  split; unfold full_page, hdr_resumed_before, hdr_first_header_block, hdr_have_image.
  - rewrite splice_length by in_page. by rewrite H3.
  - rewrite <- (drop_0 (splice _ _ _)). rewrite field_splice_other by in_page.
    unfold p3. rewrite field_splice_other by in_page. unfold p2. rewrite field_splice_other by in_page.
    unfold p1. by rewrite field_splice_same by in_page.
  - rewrite field_splice_other by in_page. unfold p3. rewrite field_splice_other by in_page.
    unfold p2. rewrite field_splice_same by in_page. reflexivity.
  - rewrite field_splice_other by in_page. unfold p3. rewrite field_splice_same by in_page.
    rewrite le_val_bytes8. by apply u64_small.
  - rewrite field_splice_same by in_page. reflexivity.
  - rewrite drop_splice by in_page. unfold p3. rewrite drop_splice by in_page.
    unfold p2. rewrite drop_splice by in_page. unfold p1. by rewrite drop_splice by in_page.
Qed.

Lemma sig_value_ok a first have rest p :
  file_sig a first have rest p -> sig_value p = if have =? 0 then 0 else 1.
Proof.
  intros [Hf%page_4096 Hs _ _ Hh _]. rewrite <- (take_drop 8 p), Hs in Hh |- *. unfold sig_value. rewrite Hh.
  set (t := drop 8 p). change (starts_with NoImage (tuxonice_signature ++ t)) with false.
  change (starts_with HaveImage (tuxonice_signature ++ t)) with false.
  change (starts_with tuxonice_signature (tuxonice_signature ++ t)) with true. cbn [orb andb negb].
  by destruct (have =? 0).
Qed.

(** ** What input and output leave alone *)

Record keeps (b b' : bio_state) : Prop := {
  kp_dev : toi_devinfo b' = toi_devinfo b;
  kp_chains : AllocatorIO.block_chain b' = AllocatorIO.block_chain b;
  kp_saves : toi_writer_posn_save b' = toi_writer_posn_save b;
  kp_filter : filter_speed_test b' = filter_speed_test b;
  kp_stream : current_stream b' = current_stream b;
  kp_extra : extra_page_forward b = false -> extra_page_forward b' = false
}.

Lemma keeps_trans b b1 b2 : keeps b b1 -> keeps b1 b2 -> keeps b b2.
Proof. intros [] []. split; try congruence. auto. Qed.

Lemma next_chains p : it_chains (fst (toi_extent_state_next p)) = it_chains p.
Proof. unfold toi_extent_state_next. repeat case_match; done. Qed.

Lemma next_blocks_chains n p : it_chains (next_blocks n p) = it_chains p.
Proof. revert p. induction n as [|n IH]; intros p; [done|]. cbn [next_blocks]. by rewrite IH, next_chains. Qed.

Lemma advance_keeps w sb b b' r : advance w sb b = Some (b', r) -> keeps b b' /\ bio_queue b' = bio_queue b.
Proof.
  unfold advance. destruct (blocks_to_skip b) as [n|]; [|done]. destruct (at_barrier b) as [a|]; [|done].
  destruct (sb && a); [destruct w; [destruct (current_stream b =? 0)|]|]; cbv beta zeta;
    try (intros [= <- _]; split; [split; try done|done]; apply next_blocks_chains).
Qed.

Lemma go_next_page_keeps w sb b b' r : go_next_page w sb b = Some (b', r) -> keeps b b' /\ bio_queue b' = bio_queue b.
Proof.
  unfold go_next_page, bind at 1. destruct (advance w sb b) as [[b1 r1]|] eqn:E1; [|done].
  destruct (advance_keeps _ _ _ _ _ E1) as [K1 Q1]. unfold or_return. destruct (r1 =? 0); [|by intros [= <- _]].
  unfold bind, get, modify. destruct (extra_page_forward b1); [|by intros [= <- _]].
  intros [K2 Q2]%advance_keeps. split; [|by rewrite Q2].
  eapply keeps_trans; [exact K1|]. eapply keeps_trans; [|exact K2]. by split.
Qed.

Lemma rw_page_keeps w p b b' r : toi_bio_rw_page w p false b = Some (b', r) -> keeps b b' /\ bio_queue b' = bio_queue b.
Proof.
  unfold toi_bio_rw_page, bind at 1. destruct (go_next_page w true b) as [[b1 r1]|] eqn:E1; [|done].
  destruct (go_next_page_keeps _ _ _ _ _ E1) as [K1 Q1]. unfold or_return. destruct (r1 =? 0); [|by intros [= <- _]].
  destruct (toi_devinfo b1 !! _) as [d|]; [|done]. unfold toi_do_io, bind, submit, ret.
  destruct (filter_speed_test b1); [|destruct w]; intros [= <- _];
    destruct K1; split; try done; by split.
Qed.

Lemma flush_loop_keeps q r b b' r' :
  flush_loop q r b = Some (b', r') -> bio_queue b = q -> keeps b b' /\ bio_queue b' = [].
Proof.
  revert r b. induction q as [|p q IH]; intros r b; cbn [flush_loop]; [intros [= <- _] ?; by split|].
  unfold bind at 1, modify. unfold bind. intros E Hq.
  assert (keeps b (b {{ bio_queue := q }})) as K0 by by split.
  destruct (r =? 0).
  - destruct (toi_bio_rw_page WRITE p false (b {{ bio_queue := q }})) as [[b1 r1]|] eqn:E1; [|done].
    destruct (rw_page_keeps _ _ _ _ _ E1) as [K1 Q1].
    destruct (IH _ _ E) as [K2 Q2]; [by rewrite Q1|]. split; [|done].
    eapply keeps_trans; [exact K0|]. by eapply keeps_trans.
  - destruct (IH _ _ E) as [K2 Q2]; [done|]. split; [|done]. by eapply keeps_trans.
Qed.

Lemma finish_keeps b b' r : write_header_chunk_finish b = Some (b', r) -> keeps b b' /\ bio_queue b' = [].
Proof.
  unfold write_header_chunk_finish, bind at 1, get. unfold bind at 1.
  assert (forall b1, keeps b b1 -> (result <-- toi_finish_all_io;;
    modify (fun st => st {{ unowned := 0; total_header_bytes := 0 }});;; ret result)%step b1 = Some (b', r) ->
    keeps b b' /\ bio_queue b' = []) as H.
  { intros b1 K1. unfold toi_finish_all_io, toi_bio_queue_flush_pages, bind, get, modify, ret.
    destruct (flush_loop (bio_queue b1) 0 b1) as [[b2 r2]|] eqn:E; [|done]. intros [= <- _].
    destruct (flush_loop_keeps _ _ _ _ _ E eq_refl) as [K2 Q2].
    pose proof (keeps_trans _ _ _ K1 K2) as []. split; [by split|done]. }
  destruct (negb (toi_writer_buffer_posn b =? 0)).
  - unfold toi_bio_queue_write. destruct (toi_writer_buffer b); [|done]. apply H. by split.
  - apply H. by split.
Qed.

(** Sectors of 512 bytes. *)
Definition disk_ok (d : disk) : Prop := forall dev x, length (d dev x) = SECTOR.

Lemma disk_ok_write d dev x p : disk_ok d -> full_page p -> disk_ok (disk_write d dev x p).
Proof.
  intros Hd Hp%page_4096 dev' y. unfold disk_write.
  destruct ((dev' =? dev) && (x <=? y) && (y <? x + SECTORS_PER_PAGE)) eqn:E; [|done].
  breflect. unfold SECTORS_PER_PAGE, SECTOR in *. rewrite length_take, length_drop, Hp. lia.
Qed.

Lemma disk_ok_read d dev x : disk_ok d -> full_page (disk_read d dev x).
Proof.
  intros Hd. unfold full_page, disk_read. change (seqZ 0 SECTORS_PER_PAGE) with [0; 1; 2; 3; 4; 5; 6; 7].
  cbn [flat_map]. rewrite !length_app, !Hd. reflexivity.
Qed.

Lemma advance_disk w sb b b' r : advance w sb b = Some (b', r) -> the_disk b' = the_disk b.
Proof.
  unfold advance. destruct (blocks_to_skip b) as [n|]; [|done]. destruct (at_barrier b) as [a|]; [|done].
  destruct (sb && a); [destruct w; [destruct (current_stream b =? 0)|]|]; cbv beta zeta; by intros [= <- _].
Qed.

Lemma go_next_page_disk w sb b b' r : go_next_page w sb b = Some (b', r) -> the_disk b' = the_disk b.
Proof.
  unfold go_next_page, bind at 1. destruct (advance w sb b) as [[b1 r1]|] eqn:E1; [|done].
  apply advance_disk in E1. unfold or_return. destruct (r1 =? 0); [|by intros [= <- _]].
  unfold bind, get, modify. destruct (extra_page_forward b1); [|by intros [= <- _]].
  intros E2%advance_disk. by rewrite E2.
Qed.

Lemma flush_loop_disk q r b b' r' :
  flush_loop q r b = Some (b', r') -> Forall full_page q -> disk_ok (the_disk b) -> disk_ok (the_disk b').
Proof.
  revert r b. induction q as [|p q IH]; intros r b; cbn [flush_loop]; [by intros [= <- _]|].
  unfold bind at 1, modify. unfold bind. intros E [Hp Hq]%Forall_cons_1 Hd.
  destruct (r =? 0); [|by apply (IH _ _ E)].
  destruct (toi_bio_rw_page WRITE p false (b {{ bio_queue := q }})) as [[b1 r1]|] eqn:E1; [|done].
  apply (IH _ _ E); [done|]. unfold toi_bio_rw_page, bind at 1 in E1.
  destruct (go_next_page WRITE true (b {{ bio_queue := q }})) as [[b2 r2]|] eqn:E2; [|done].
  apply go_next_page_disk in E2. change (the_disk (b {{ bio_queue := q }})) with (the_disk b) in E2.
  unfold or_return in E1. destruct (r2 =? 0); [|injection E1 as <- _; by rewrite E2].
  destruct (toi_devinfo b2 !! _) as [d|]; [|done]. unfold toi_do_io, bind, submit, ret in E1.
  destruct (filter_speed_test b2); injection E1 as <- _; cbn [the_disk set_field]; rewrite E2; [done|].
  by apply disk_ok_write.
Qed.

Lemma finish_disk b b' r :
  write_header_chunk_finish b = Some (b', r) -> Forall full_page (bio_queue b) ->
  (forall p, toi_writer_buffer b = Some p -> full_page p) -> disk_ok (the_disk b) -> disk_ok (the_disk b').
Proof.
  unfold write_header_chunk_finish, bind at 1, get. unfold bind at 1. intros E Hq Hb Hd. revert E.
  assert (forall b1, Forall full_page (bio_queue b1) -> disk_ok (the_disk b1) -> (result <-- toi_finish_all_io;;
    modify (fun st => st {{ unowned := 0; total_header_bytes := 0 }});;; ret result)%step b1 = Some (b', r) ->
    disk_ok (the_disk b')) as H.
  { intros b1 Hq1 Hd1. unfold toi_finish_all_io, toi_bio_queue_flush_pages, bind, get, modify, ret.
    destruct (flush_loop (bio_queue b1) 0 b1) as [[b2 r2]|] eqn:E; [|done]. intros [= <- _].
    by apply (flush_loop_disk _ _ _ _ _ E). }
  destruct (negb (toi_writer_buffer_posn b =? 0)).
  - unfold toi_bio_queue_write. destruct (toi_writer_buffer b) as [p|]; [|done]. apply H; [|done].
    apply Forall_app. split; [done|]. constructor; auto.
  - by apply H.
Qed.

(** An operation of the layer that keeps these things keeps the allocator's
    variables. *)
Lemma in_bio_keeps {A} (m : M bio_state A) s s' a :
  in_bio m s = Some (s', a) -> (forall b b' x, m b = Some (b', x) -> keeps b b') ->
  exists b, m (seen s) = Some (b, a) /\ s' = s {{ bio := b }} /\ seen s' = b /\ keeps (seen s) b.
Proof.
  intros E K. unfold in_bio in E. destruct (m (seen s)) as [[b x]|] eqn:Em; [|done].
  pose proof (K _ _ _ Em) as Kb. destruct (in_bio_ok m s b x Em (kp_chains _ _ Kb) (kp_dev _ _ Kb)) as [E' Es].
  unfold in_bio in E'. rewrite Em in E'. rewrite E' in E. injection E as <- <-. by exists b.
Qed.

Lemma zeroed_page_keeps b b' p : toi_get_zeroed_page b = Some (b', p) -> keeps b b' /\ the_disk b' = the_disk b /\
  bio_queue b' = bio_queue b /\ toi_writer_buffer b' = toi_writer_buffer b.
Proof. unfold toi_get_zeroed_page. destruct (memory b); intros [= <- _]; by repeat split. Qed.

(** Moving to the first page of the chain. *)
Lemma first_page b c e l sv :
  AllocatorIO.block_chain b = [c] -> chain_exts c = e :: l -> extra_page_forward b = false -> current_stream b = 0 ->
  toi_writer_posn_save b !! 2%nat = Some sv -> chain_num sv <> -1 ->
  (modify (fun b => b {{ toi_writer_posn := toi_extent_state_goto_start (toi_writer_posn b) }});;;
   go_next_page WRITE true)%step b =
  Some (b {{ toi_writer_posn := IterState [c] 0 (Some 0%nat) (ext_start e) }}, 0).
Proof.
  intros Hc He Hx Hs Hsv Hn. unfold bind at 1, modify. unfold go_next_page, bind at 1.
  set (b1 := b {{ toi_writer_posn := _ }}).
  assert (advance WRITE true b1 = Some (b {{ toi_writer_posn := IterState [c] 0 (Some 0%nat) (ext_start e) }}, 0)) as Ha.
  { unfold advance. change (blocks_to_skip b1) with (Some 1).
    assert (at_barrier b1 = Some false) as ->.
    { unfold at_barrier. change (toi_writer_posn_save b1) with (toi_writer_posn_save b).
      change (current_stream b1) with (current_stream b). rewrite Hs. change (compare_to 0) with 2%nat. rewrite Hsv.
      change (current_chain (toi_writer_posn b1)) with (-1). by rewrite (proj2 (Z.eqb_neq (-1) (chain_num sv))) by lia. }
    cbn [andb]. change (Z.to_nat 1) with 1%nat. cbn [next_blocks].
    assert (fst (toi_extent_state_next (toi_writer_posn b1)) = IterState [c] 0 (Some 0%nat) (ext_start e)) as En.
    { unfold b1. cbn [toi_writer_posn set_field]. unfold toi_extent_state_goto_start. unfold AllocatorIO.block_chain in Hc. rewrite Hc.
      unfold toi_extent_state_next. change (Z.to_nat (current_chain (IterState [c] (-1) None 0) + 1)) with O.
      cbn. by rewrite He. }
    rewrite En. done. }
  rewrite Ha. unfold or_return. cbn [Z.eqb]. unfold bind, get.
  change (extra_page_forward (b {{ toi_writer_posn := _ }})) with (extra_page_forward b). by rewrite Hx.
Qed.

(** The header has been put together, in pages that have been set aside. *)
Record header_written (s : file_state) (e : hibernate_extent) : Prop := {
  hw_attached : attached s = true;
  hw_chain : exists l, chain_exts (block_chain s) = e :: l;
  hw_filter : filter_speed_test (bio s) = false;
  hw_extra : extra_page_forward (bio s) = false;
  hw_stream : current_stream (bio s) = 0;
  hw_pages : exists sv, toi_writer_posn_save (bio s) !! 2%nat = Some sv /\ chain_num sv <> -1;
  hw_disk : disk_ok (the_disk (bio s));
  hw_queue : Forall full_page (bio_queue (bio s));
  hw_buffer : forall p, toi_writer_buffer (bio s) = Some p -> full_page p
}.

(** Where the header starts, in sectors. *)
Definition header_sector (s : file_state) (e : hibernate_extent) : Z := u64 (Z.shiftl (ext_start e) (bmap_shift (devinfo s))).

Lemma seen_written s e : header_written s e -> header_written (s {{ bio := seen s }}) e.
Proof.
  intros [Ha Hc ? ? ? ? ? ? ?]. split; try done; change (bio (s {{ bio := seen s }})) with (seen s);
    unfold seen; rewrite Ha; done.
Qed.

(** Writing the signature once the header is on the disk [d]. *)
Lemma put_signature s p :
  filter_speed_test (bio s) = false -> seen s = bio s -> bio_queue (bio s) = [] ->
  exists b, (s' <-- get (fun s => s);;
    r <-- in_bio (toi_bdev_page_io READ (toi_file_target_bdev s') (target_firstblock s') p);;
    or_return (snd r) (
      let header := prepare_signature (fst r)
        (u64 (Z.shiftl (current_offset (toi_writer_posn (bio s'))) (bmap_shift (devinfo s')))) in
      r <-- in_bio (toi_bdev_page_io WRITE (toi_file_target_bdev s') (target_firstblock s') header);;
      ret (snd r)))%step s = Some (s {{ bio := b }}, 0) /\ seen (s {{ bio := b }}) = b /\ bio_queue b = [] /\
    the_disk b = disk_write (the_disk (bio s)) (toi_file_target_bdev s) (target_firstblock s)
      (prepare_signature (sig_page s) (u64 (Z.shiftl (current_offset (toi_writer_posn (bio s))) (bmap_shift (devinfo s))))).
Proof.
  intros Hw Es Hq. unfold bind at 1, get. unfold bind at 1.
  destruct (in_bio_ok (toi_bdev_page_io READ (toi_file_target_bdev s) (target_firstblock s) p) s
    (transferred (s32 (toi_io_done (bio s) + 1)) (the_disk (bio s)) (bio s)) (sig_page s, 0)) as [E1 S1].
  { rewrite Es. unfold toi_bdev_page_io, bind, submit. rewrite Hw. unfold sig_page. cbn [READ]. by destruct (bio s). }
  { by rewrite Es. }
  { by rewrite Es. }
  rewrite E1. unfold or_return. cbn [fst snd Z.eqb]. cbv zeta. unfold bind.
  set (b1 := transferred _ _ _) in *. set (h := prepare_signature _ _).
  destruct (in_bio_ok (toi_bdev_page_io WRITE (toi_file_target_bdev s) (target_firstblock s) h) (s {{ bio := b1 }})
    (transferred (s32 (toi_io_done b1 + 1)) (disk_write (the_disk b1) (toi_file_target_bdev s) (target_firstblock s) h) b1)
    (h, 0)) as [E2 S2].
  { rewrite S1. unfold toi_bdev_page_io, bind, submit. change (filter_speed_test b1) with (filter_speed_test (bio s)).
    by rewrite Hw. }
  { by rewrite S1. }
  { by rewrite S1. }
  rewrite E2. eexists. split; [reflexivity|]. split_and!; [exact S2|exact Hq|done].
Qed.

Lemma header_cleanup_spec s s1 e :
  header_written s e -> toi_file_write_header_cleanup s = Some (s1, 0) ->
  exists b d, s1 = s {{ bio := b }} /\ disk_ok d /\
    the_disk b = disk_write d (toi_file_target_bdev s) (target_firstblock s)
      (prepare_signature (disk_read d (toi_file_target_bdev s) (target_firstblock s)) (header_sector s e)).
Proof.
  intros Hw0. pose proof (seen_written _ _ Hw0) as Hw. unfold toi_file_write_header_cleanup.
  intros (sa & pg & Ea & E)%bind_inv.
  apply in_bio_keeps in Ea as (ba & Ea & -> & Sa & Ka); [|intros ? ? ? E'; apply (zeroed_page_keeps _ _ _ E')].
  apply zeroed_page_keeps in Ea as (_ & Da & Qa & Ba). apply bind_inv in E as (sb & r & Eb & E).
  apply in_bio_keeps in Eb as (bb & Eb & -> & Sb & Kb); [|intros ? ? ? E'; apply (finish_keeps _ _ _ E')].
  rewrite Sa in Eb, Kb. destruct (finish_keeps _ _ _ Eb) as [_ Qb].
  assert (disk_ok (the_disk bb)) as Db by (apply (finish_disk _ _ _ Eb); rewrite ?Qa, ?Ba, ?Da; apply Hw).
  apply bind_inv in E as (sd & r2 & Ed & E). apply bind_inv in E as (se & r3 & Ee & [= -> Er]).
  destruct (r2 =? 0) eqn:Er2; breflect; [|lia]. subst r2 r3. unfold or_return in Ed. destruct (r =? 0) eqn:Er; breflect.
  2:{ injection Ed as _ ->. done. }
  destruct (hw_chain _ _ Hw0) as [l Hc]. destruct (hw_pages _ _ Hw) as (sv & Hsv & Hn).
  pose proof (keeps_trans _ _ _ Ka Kb) as K.
  assert (AllocatorIO.block_chain bb = [block_chain s]) as Cb.
  { rewrite (kp_chains _ _ K). unfold seen. by rewrite (hw_attached _ _ Hw0). }
  change (s {{ bio := ba }} {{ bio := bb }}) with (s {{ bio := bb }}) in *.
  pose proof (first_page bb (block_chain s) e l sv Cb Hc (kp_extra _ _ K (hw_extra _ _ Hw))
    (eq_trans (kp_stream _ _ K) (hw_stream _ _ Hw)) (eq_trans (f_equal (.!! 2%nat) (kp_saves _ _ K)) Hsv) Hn) as Hf.
  set (bc := bb {{ toi_writer_posn := IterState [block_chain s] 0 (Some 0%nat) (ext_start e) }}) in *.
  destruct (in_bio_ok _ (s {{ bio := bb }}) bc 0 ltac:(rewrite Sb; exact Hf)) as [Ec Sc]; [by rewrite Sb, Cb|by rewrite Sb|].
  rewrite (bind_step _ _ _ _ _ Ec) in Ed. change (s {{ bio := bb }} {{ bio := bc }}) with (s {{ bio := bc }}) in *.
  destruct pg as [p|]; [|done].
  destruct (put_signature (s {{ bio := bc }}) p) as (b & Ep & Sp & Qp & Dp);
    [exact (eq_trans (kp_filter _ _ K) (hw_filter _ _ Hw))|done|exact Qb|].
  pose proof (eq_trans (eq_sym Ep) Ed) as [= <-].
  change (s {{ bio := bc }} {{ bio := b }}) with (s {{ bio := b }}) in *.
  destruct (in_bio_ok toi_finish_all_io (s {{ bio := b }}) b 0) as [E' _]; try by rewrite Sp.
  { rewrite Sp. unfold toi_finish_all_io, toi_bio_queue_flush_pages, bind, get. by rewrite Qp. }
  pose proof (eq_trans (eq_sym E') Ee) as [= <-]. exists b, (the_disk bb). split_and!; auto.
Qed.

(** ** The signature as a state machine *)

(** Whether there is an image, and whether resuming from it was tried. *)
Inductive image_state := NoImageThere | ImageThere (tried : bool).

Inductive request := AskExists | MarkTried (mark : bool) | Remove.

Definition answer (q : request) (a : image_state) : image_state * Z :=
  match q, a with
  | AskExists, NoImageThere => (NoImageThere, 0)
  | AskExists, ImageThere t => (ImageThere t, 1)
  | MarkTried _, NoImageThere => (NoImageThere, 0)
  | MarkTried m, ImageThere _ => (ImageThere m, 1)
  | Remove, _ => (NoImageThere, 1)
  end.

Fixpoint answers (l : list request) (a : image_state) : image_state * list Z :=
  match l with
  | [] => (a, [])
  | q :: l' => let '(a1, r) := answer q a in let '(a2, rs) := answers l' a1 in (a2, r :: rs)
  end.

Section Machine.
Context (env : file_env).

Definition perform (q : request) : M file_state Z :=
  match q with
  | AskExists => toi_file_image_exists env
  | MarkTried m => toi_file_mark_resume_attempted m
  | Remove => toi_file_remove_image
  end.

Fixpoint perform_all (l : list request) : M file_state (list Z) :=
  match l with
  | [] => ret []
  | q :: l' => r <-- perform q;; rs <-- perform_all l';; ret (r :: rs)
  end.

(** The disk says [a]; the image's header starts at [first]. *)
Definition shows (first : Z) (rest : list Z) (a : image_state) (p : page) : Prop :=
  match a with
  | NoImageThere => file_sig 0 first 0 rest p
  | ImageThere t => file_sig (if t then 1 else 0) first 1 rest p
  end.

Record sig_at (dev pos first : Z) (rest : list Z) (a : image_state) (s : file_state) : Prop := {
  sa_quiet : quiet (bio s);
  sa_dev : toi_file_target_bdev s = dev;
  sa_pos : target_firstblock s = pos;
  sa_page : shows first rest a (sig_page s)
}.

Lemma parsed_place p s b : toi_file_target_bdev ((parsed p s) {{ bio := b }}) = toi_file_target_bdev s /\
  target_firstblock ((parsed p s) {{ bio := b }}) = target_firstblock s.
Proof. unfold parsed. by destruct (sig_value p =? 1). Qed.

Definition request_op (q : request) : signature_operation :=
  match q with
  | AskExists => GET_IMAGE_EXISTS
  | MarkTried m => if m then MARK_RESUME_ATTEMPTED else UNMARK_RESUME_ATTEMPTED
  | Remove => INVALIDATE
  end.

(** One operation on the page. *)
Lemma machine_page q first rest a p :
  shows first rest a p ->
  op_result (request_op q) p = snd (answer q a) /\
  shows first rest (fst (answer q a)) (default p (changed_header (request_op q) (sig_value p) p)).
Proof.
  intros Hp. assert (full_page p /\ hdr_first_header_block p = first /\ drop 28 p = rest) as (Hf & <- & <-)
    by (destruct a; destruct Hp; done).
  destruct a as [|t]; cbn [shows] in Hp; pose proof (sig_value_ok _ _ _ _ _ Hp) as Hv; cbn [Z.eqb] in Hv;
    unfold op_result; destruct q as [|[]|]; cbn [request_op changed_header answer fst snd]; rewrite ?Hv; cbn [Z.eqb default];
    (split; [done|]); cbn [shows]; auto;
    first [apply (written_ok p 0); [done|lia] | by eapply (set_resumed_ok _ 1); [exact Hp|lia] | by eapply (set_resumed_ok _ 0); [exact Hp|lia]].
Qed.

(** What an operation that has seen an image leaves in memory. *)
Definition noted (first : Z) (a : image_state) (s : file_state) : Prop :=
  match a with
  | NoImageThere => True
  | ImageThere t => target_header_start s = first /\ test_toi_state TOI_RESUMED_BEFORE (toi_state s) = t
  end.

Lemma op_at q dev pos first rest a s :
  0 < dev -> sig_at dev pos first rest a s ->
  exists s', toi_file_signature_op (request_op q) s = Some (s', snd (answer q a)) /\
    sig_at dev pos first rest (fst (answer q a)) s' /\ noted first a s'.
Proof.
  intros Hd [Hq Ed Ep Hp]. destruct (signature_op_spec (request_op q) s Hq) as [n Hs]; [by rewrite Ed|].
  destruct (machine_page q first rest a (sig_page s) Hp) as [Hr Hnew]. rewrite Hr in Hs.
  eexists. split; [exact Hs|]. set (s' := _ {{ bio := _ }}).
  destruct (parsed_place (sig_page s) s (transferred n (op_disk (request_op q) s) (seen s))) as [E1 E2].
  split; [split|].
  - apply (quiet_transferred n), seen_quiet, Hq.
  - by rewrite <- Ed.
  - by rewrite <- Ep.
  - unfold sig_page at 1. unfold s'. rewrite E1, E2.
    change (the_disk (bio ((parsed (sig_page s) s) {{ bio := transferred n (op_disk (request_op q) s) (seen s) }})))
      with (op_disk (request_op q) s).
    unfold op_disk. destruct (changed_header (request_op q) (sig_value (sig_page s)) (sig_page s)) as [h|] eqn:Hc; [|exact Hnew].
    cbn [default] in Hnew. rewrite disk_read_same; [done|]. by destruct (fst (answer q a)); destruct Hnew.
  - destruct a as [|t]; [done|]. cbn [shows] in Hp. pose proof (sig_value_ok _ _ _ _ _ Hp) as Hv. cbn [Z.eqb] in Hv.
    destruct Hp as [_ _ Hre Hfi _ _]. unfold noted, s', parsed. rewrite Hv. cbn [Z.eqb Pos.eqb].
    split; [exact Hfi|]. cbn [toi_state set_field]. rewrite Hre.
    destruct t; cbn [Z.eqb]; [rewrite test_set_state|rewrite test_clear_state]; by rewrite bool_decide_eq_true_2.
Qed.

Lemma perform_at q dev pos first rest a s :
  0 < dev -> sig_at dev pos first rest a s ->
  exists s', perform q s = Some (s', snd (answer q a)) /\
    sig_at dev pos first rest (fst (answer q a)) s' /\ noted first a s'.
Proof.
  intros Hd Hs. destruct q as [|m|]; cbn [perform].
  - unfold toi_file_image_exists, bind, get. rewrite (sa_dev _ _ _ _ _ _ Hs), (proj2 (Z.eqb_neq dev 0)) by lia.
    by apply (op_at AskExists).
  - by apply (op_at (MarkTried m)).
  - unfold toi_file_remove_image, bind, toi_file_release_storage, modify. apply (op_at Remove); [done|].
    destruct Hs as [? ? ? ?]. by split.
Qed.

Lemma perform_all_at l dev pos first rest a s :
  0 < dev -> sig_at dev pos first rest a s ->
  exists s', perform_all l s = Some (s', snd (answers l a)) /\ sig_at dev pos first rest (fst (answers l a)) s'.
Proof.
  intros Hd. revert a s. induction l as [|q l IH]; intros a s Hs; cbn [perform_all answers]; [by exists s|].
  destruct (perform_at q dev pos first rest a s Hd Hs) as (s1 & E1 & Hs1 & _).
  destruct (answer q a) as [a1 r]. cbn [fst snd] in *. destruct (IH a1 s1 Hs1) as (s2 & E2 & Hs2).
  destruct (answers l a1) as [a2 rs]. cbn [fst snd] in *.
  exists s2. rewrite (bind_step _ _ _ _ _ E1), (bind_step _ _ _ _ _ E2). done.
Qed.

(** A kernel that looks at the same place of the same disk. *)
Record looks_at (s r : file_state) : Prop := {
  la_quiet : quiet (bio r);
  la_dev : toi_file_target_bdev r = toi_file_target_bdev s;
  la_pos : target_firstblock r = target_firstblock s;
  la_disk : the_disk (bio r) = the_disk (bio s)
}.

(** C9: the signature of a file is a state machine.  Once
    [toi_file_write_header_cleanup] has returned 0, a kernel that looks at the
    target's first page finds an image that was not tried, whose header starts
    at the first page of the chain.  From then on any sequence of questions,
    marks and removals is answered as the machine answers it: a mark is
    remembered, an image that was removed stays removed, and none of them
    changes a byte of the page after the header. *)
Theorem file_signature_machine s s1 r e l :
  header_written s e -> 0 < toi_file_target_bdev s -> toi_file_write_header_cleanup s = Some (s1, 0) -> looks_at s1 r ->
  exists r1 r2, perform AskExists r = Some (r1, 1) /\ target_header_start r1 = header_sector s e /\
    test_toi_state TOI_RESUMED_BEFORE (toi_state r1) = false /\
    perform_all l r1 = Some (r2, snd (answers l (ImageThere false))) /\
    shows (header_sector s e) (drop 28 (sig_page r)) (fst (answers l (ImageThere false))) (sig_page r2).
Proof.
  intros Hw Hd Hc [Hq Ed Ep Edisk]. destruct (header_cleanup_spec s s1 e Hw Hc) as (b & d & -> & Hok & Hb).
  change (toi_file_target_bdev (s {{ bio := b }})) with (toi_file_target_bdev s) in Ed.
  change (target_firstblock (s {{ bio := b }})) with (target_firstblock s) in Ep.
  change (the_disk (bio (s {{ bio := b }}))) with (the_disk b) in Edisk.
  pose proof (disk_ok_read d (toi_file_target_bdev s) (target_firstblock s) Hok) as Hfull.
  pose proof (header_prepared _ (header_sector s e) Hfull (u64_bounds _)) as Hfs.
  assert (sig_page r = prepare_signature (disk_read d (toi_file_target_bdev s) (target_firstblock s)) (header_sector s e)) as Epage.
  { unfold sig_page. rewrite Edisk, Hb, Ed, Ep. apply disk_read_same, Hfs. }
  assert (sig_at (toi_file_target_bdev s) (target_firstblock s) (header_sector s e) (drop 28 (sig_page r)) (ImageThere false) r) as Hs.
  { split; auto. rewrite Epage, (fs_rest _ _ _ _ _ Hfs). exact Hfs. }
  destruct (perform_at AskExists _ _ _ _ _ _ Hd Hs) as (r1 & E1 & Hs1 & Hn1 & Hn2).
  destruct (perform_all_at l _ _ _ _ _ _ Hd Hs1) as (r2 & E2 & Hs2).
  exists r1, r2. split_and!; auto. apply Hs2.
Qed.
End Machine.

(** ** The resume parameter *)

Lemma scan_through stop n seen l tail :
  Forall (fun c => stop c = false) l -> (length l <= n)%nat ->
  scan_to stop n seen (l ++ tail) = scan_to stop (n - length l) (seen ++ l) tail.
Proof.
  intros Hl. revert n seen. induction Hl as [|c l Hc _ IH]; intros n seen Hn; cbn [app length] in *.
  - by rewrite Nat.sub_0_r, app_nil_r.
  - cbn [scan_to]. rewrite Hc. destruct n as [|n]; [lia|]. cbn [orb Nat.eqb pred Nat.sub].
    rewrite IH by lia. by rewrite <- app_assoc.
Qed.

Lemma scan_suffix stop n seen rest : exists p, rest = p ++ snd (scan_to stop n seen rest).
Proof.
  revert n seen. induction rest as [|c rest IH]; intros n seen; cbn [scan_to]; [by exists []|].
  destruct (stop c || _); [by exists []|]. destruct (IH (pred n) (seen ++ [c])) as [p E].
  exists (c :: p). cbn [app]. by rewrite <- E.
Qed.

(** Text in which no block size follows. *)
Lemma scan_no_at n rest :
  Forall (fun c => c <> 64) rest -> after_char 64 (snd (scan_to (fun c => c =? 64) n [] rest)) = None.
Proof.
  intros Hr. destruct (scan_suffix (fun c => c =? 64) n [] rest) as [p Ep].
  rewrite Ep in Hr. apply Forall_app in Hr as [_ Hr]. destruct (snd _) as [|c l]; [done|].
  apply Forall_cons_1 in Hr as [Hc _]. cbn [after_char]. by rewrite (proj2 (Z.eqb_neq c 64)).
Qed.

Definition plain_name (name : list Z) : Prop :=
  Forall (fun c => c <> 58 /\ c <> 64) name /\ (length name <= 250)%nat.

Lemma split_device name block :
  plain_name name -> Forall (fun c => c <> 64) block ->
  split_location (name ++ 58 :: block) = (name, Some block, None).
Proof.
  intros [Hn Hl] Hb. unfold split_location.
  rewrite scan_through; [|eapply Forall_impl; [exact Hn|intros c [? ?]; by rewrite !(proj2 (Z.eqb_neq _ _))]|done].
  cbn [scan_to Z.eqb Pos.eqb orb app after_char].
  pose proof (scan_no_at (250 - S (length name)) block Hb) as Hs.
  destruct (scan_to (fun c => c =? 64) (250 - S (length name)) [] block) as [p r]. cbn [snd] in Hs. by rewrite Hs.
Qed.

Lemma split_bare name : plain_name name -> split_location name = (name, None, None).
Proof.
  intros [Hn Hl]. unfold split_location. rewrite <- (app_nil_r name) at 1.
  rewrite scan_through; [|eapply Forall_impl; [exact Hn|intros c [? ?]; by rewrite !(proj2 (Z.eqb_neq _ _))]|done].
  done.
Qed.

(** What is printed for a place on a device. *)
Lemma location_split env b sector shift :
  plain_name (bytes_of "/dev/" ++ bdevname env b) ->
  split_location (location env b sector shift) =
    (bytes_of "/dev/" ++ bdevname env b,
     if sector =? 0 then None else Some (48 :: 120 :: lx (u64 (Z.shiftl sector shift))), None).
Proof.
  intros Hn. unfold location. destruct (sector =? 0).
  - rewrite app_nil_r. by apply split_bare.
  - change (bytes_of ":0x" ++ lx (u64 (Z.shiftl sector shift))) with (58 :: 48 :: 120 :: lx (u64 (Z.shiftl sector shift))).
    rewrite app_assoc. apply split_device; [done|]. do 2 (constructor; [done|]).
    eapply Forall_impl; [apply (number_chars _ 16 SMALL); [apply u64_bounds|set_solver..]|].
    intros c Hc ->. by vm_compute in Hc.
Qed.

Lemma lx_reads n : 0 <= n < 2 ^ 64 -> strict_strtoul (48 :: 120 :: lx n) 0 = Some n.
Proof.
  intros Hn. destruct (number_reads n 16 SMALL [] Hn) as [_ H]; [set_solver..|].
  rewrite app_nil_r, number_shape in H by set_solver. unfold lx. rewrite number_shape by set_solver. exact H.
Qed.

(** A kernel that is starting: nothing is open, and the device has a number
    but no node yet. *)
Record booting (env : file_env) (name : list Z) (d dev : Z) (r : file_state) : Prop := {
  bo_bdev : toi_file_target_bdev r = 0;
  bo_file : target_file r = false;
  bo_target : toi_file_target r = [];
  bo_setting : setting_toi_file_target r = false;
  bo_used : used_devt r = false;
  bo_attached : attached r = false;
  bo_quiet : quiet (bio r);
  bo_open : filp_open env name = None;
  bo_number : name_to_dev_t env name = d /\ d <> 0;
  bo_device : toi_open_by_devnum env d = dev /\ 0 < dev;
  bo_kind : i_kind (bd_inode env dev) = S_IFBLK
}.

Definition with_device (env : file_env) (d dev : Z) (r : file_state) : file_state :=
  r {{ target_file := false; resume_file_dev_t := d; toi_file_target_bdev := dev; bdev_refs := dev :: bdev_refs r;
       used_devt := true; target_inode := Some (bd_inode env dev) }}.

Definition opened (env : file_env) (d dev : Z) (r : file_state) : file_state :=
  let r1 := with_device env d dev r in
  let bits := i_blkbits (bd_inode env dev) in
  r1 {{ devinfo :=
    if bits =? 0 then (devinfo r1) {{ bdev := dev; bmap_shift := 0; blocks_per_page := 0 }}
    else (devinfo r1) {{ bdev := dev; bmap_shift := bits - 9; blocks_per_page := Z.shiftl 1 (PAGE_SHIFT - bits) }} }}.

Lemma open_at_boot env name d dev r :
  target_file r = false -> name <> [] -> filp_open env name = None -> name_to_dev_t env name = d -> d <> 0 ->
  toi_open_by_devnum env d = dev -> 0 < dev -> i_kind (bd_inode env dev) = S_IFBLK ->
  toi_file_get_target_info env name false true r = Some (opened env d dev r, tt).
Proof.
  intros Hf Hn Ho Hd Hd0 Hdev Hpos Hk. unfold toi_file_get_target_info, bind at 1, get. rewrite Hf.
  unfold bind at 1, ret at 1. rewrite bool_decide_eq_false_2 by done.
  assert (open_target env name true r = Some (with_device env d dev r, Some (bd_inode env dev))) as Ho'.
  { unfold open_target. rewrite Ho. unfold bind, modify. cbn [negb]. rewrite Hd, (proj2 (Z.eqb_neq d 0)) by done.
    unfold open_device, bind, modify, ret. rewrite Hdev.
    assert (IS_ERR dev = false) as -> by (unfold IS_ERR; rewrite (proj2 (Z.ltb_ge dev 0)) by lia; apply andb_false_r).
    by destruct r. }
  rewrite (bind_step _ _ _ _ _ Ho'), Hk. unfold opened. set (r1 := with_device env d dev r).
  rewrite (bind_step (get used_devt) _ r1 r1 true) by done. cbn [negb].
  rewrite (bind_step (ret tt) _ r1 r1 tt) by done. rewrite (bind_step (get toi_file_target_bdev) _ r1 r1 dev) by done.
  clearbody r1. reflexivity.
Qed.

Lemma opened_facts env d dev r :
  let r' := opened env d dev r in
  target_file r' = false /\ toi_file_target_bdev r' = dev /\ bdev_refs r' = dev :: bdev_refs r /\ bio r' = bio r /\
  target_firstblock r' = target_firstblock r.
Proof. done. Qed.

(** The test of a device that is open: by the signature it carries. *)
Lemma test_opened env attempt name d dev r :
  target_file r = false -> name <> [] -> filp_open env name = None -> name_to_dev_t env name = d -> d <> 0 ->
  toi_open_by_devnum env d = dev -> 0 < dev -> i_kind (bd_inode env dev) = S_IFBLK -> quiet (bio r) ->
  exists r', __test_toi_file_target env attempt name true r =
      Some (r', if sig_value (disk_read (the_disk (bio r)) dev (target_firstblock r)) =? -1 then 1 else 0) /\
    toi_file_target_bdev r' = dev /\ bdev_refs r' = dev :: bdev_refs r /\ target_firstblock r' = target_firstblock r.
Proof.
  intros Hf Hn Ho Hd Hd0 Hdev Hpos Hk Hq. unfold __test_toi_file_target.
  rewrite (bind_step _ _ _ _ _ (open_at_boot env name d dev r Hf Hn Ho Hd Hd0 Hdev Hpos Hk)).
  destruct (opened_facts env d dev r) as (_ & Eb & Er & Ebio & Et). set (r1 := opened env d dev r) in *. clearbody r1.
  destruct (signature_op_spec GET_IMAGE_EXISTS r1) as [n Hs]; [by rewrite Ebio|by rewrite Eb|].
  rewrite (bind_step _ _ _ _ _ Hs). unfold sig_page. rewrite Eb, Et, Ebio. set (P := disk_read _ dev _).
  destruct (parsed_place P r1 (transferred n (op_disk GET_IMAGE_EXISTS r1) (seen r1))) as [E1 E2].
  assert (bdev_refs ((parsed P r1) {{ bio := transferred n (op_disk GET_IMAGE_EXISTS r1) (seen r1) }}) = bdev_refs r1) as E3
    by (unfold parsed; by destruct (sig_value P =? 1)).
  set (r2 := (parsed P r1) {{ bio := _ }}) in *. clearbody r2. cbn [op_result].
  assert (sig_value P = -1 \/ sig_value P = 0 \/ sig_value P = 1) as [->|[->| ->]]
    by (unfold sig_value; repeat case_match; auto); cbn [Z.ltb Z.compare negb];
    (eexists; split; [reflexivity|]; split_and!); first [exact (eq_trans E1 Eb)|exact (eq_trans E3 Er)|exact (eq_trans E2 Et)].
Qed.

(** Without a target there is nothing to test. *)
Lemma test_nothing env attempt r :
  toi_file_target_bdev r = 0 -> target_file r = false ->
  __test_toi_file_target env attempt [] true r =
    Some (r {{ toi_state := clear_toi_state TOI_CAN_HIBERNATE (toi_state r) }}, 1).
Proof.
  intros Hb Hf. unfold __test_toi_file_target, toi_file_get_target_info, toi_file_signature_op, bind, get.
  rewrite Hf. unfold ret at 1 2. rewrite bool_decide_eq_true_2 by done. unfold ret. by rewrite Hb.
Qed.

Section ResumeParameter.
Context (env : file_env) (attempt : M file_state unit).
Context (Hkeep : forall s s', attempt s = Some (s', tt) -> resume_file s' = resume_file s).

(** What [toi_file_set_resume_param] leaves in [resume_file]. *)
Lemma set_resume_param_text s s1 i :
  target_inode s = Some i -> 0 < toi_file_target_bdev s -> quiet (bio s) ->
  9 <= i_blkbits i -> toi_file_set_resume_param env attempt s = Some (s1, tt) ->
  resume_file s1 = bytes_of "file:" ++ location env (toi_file_target_bdev s) (bmap i 0) (i_blkbits i - 9).
Proof using Hkeep.
  intros Hi Hb Hq%seen_quiet Hbits. unfold toi_file_set_resume_param.
  destruct (page_quiet s Hq) as [E1 S1]. rewrite (bind_step _ _ _ _ _ E1).
  destruct (page_quiet (s {{ bio := seen s }})) as [E2 S2]; [by rewrite S1|]. rewrite (bind_step _ _ _ _ _ E2).
  intros (s2 & x & E & E3)%bind_inv. injection E as <- <-. cbn [target_inode set_field] in E3. rewrite Hi in E3.
  apply bind_inv in E3 as (s3 & [] & E3 & E4). apply Hkeep in E4. rewrite E4. clear E4 s1.
  cbn [toi_file_target_bdev set_field] in E3. rewrite (proj2 (Z.eqb_neq (toi_file_target_bdev s) 0)) in E3 by lia.
  cbn [negb] in E3. unfold set_devinfo in E3. rewrite (proj2 (Z.eqb_neq (i_blkbits i) 0)) in E3 by lia.
  apply bind_inv in E3 as (s4 & [] & E3 & E4). injection E3 as <-. injection E4 as <-. reflexivity.
Qed.

End ResumeParameter.

(** A file on the second disk, and the kernel that boots after. *)
Module SampleTarget.

Definition node : inode := Inode S_IFBLK 0 12 (fun _ => 0) 7 0.

Definition sample_env : file_env :=
  FileEnv (fun _ => None) (fun _ => 8) (fun _ => None) (fun _ => 7) (fun _ => node) (fun _ => 8) (fun _ => true)
    (fun _ => None) (fun _ => bytes_of "sdb1") 0.

Definition sample_inode : inode := Inode S_IFREG 32768 12 (fun k => if (0 <=? k) && (k <? 8) then 100 + k else 0) 0 7.

Definition sample_chain : hibernate_extent_chain := Chain 7 1 [Ext 101 107] None.

Definition sample_bio : bio_state :=
  BioState (IterState [sample_chain] 0 (Some 0%nat) 102)
    [SavedState 0 0 101; SavedState 0 0 102; SavedState 0 0 102; SavedState 0 0 102]
    [BdevInfo 7 0 3 1 false] None 0 [] [] true false 0 (fun _ _ => repeat 0 512) 0 0 0 0 0 [] [] false false 0 false [].

Definition sample_file : file_state :=
  FileState sample_bio true sample_chain (BdevInfo 7 0 3 1 false) (bytes_of "/image") (Some sample_inode) true 7 8 false
    false 800 0 8 false 2 0 0 true 0 [] 1 [] [].

Definition booted : file_state :=
  FileState sample_bio false empty_chain null_bdev_info [] None false 0 0 false false 0 0 0 false 0 0 0 false 0 [] 0 [] [].

(** The image's header is complete. *)
Definition marked : file_state :=
  match toi_file_write_header_cleanup sample_file with Some (s, _) => s | None => sample_file end.

Definition looking : file_state := booted {{ bio := bio marked; toi_file_target_bdev := 7; target_firstblock := 800 }}.

Lemma sample_written : header_written sample_file (Ext 101 107).
Proof.
  split; try done; [by exists []|by exists (SavedState 0 0 102)].
Qed.

Definition with_param : file_state :=
  match toi_file_set_resume_param sample_env (ret tt) sample_file with Some (s, _) => s | None => sample_file end.

Lemma sample_booting : booting sample_env (bytes_of "/dev/sdb1") 8 7 booted.
Proof. by split. Qed.
End SampleTarget.

Lemma file_signature_machine_witness :
  exists r1 r2, perform SampleTarget.sample_env AskExists SampleTarget.looking = Some (r1, 1) /\
    target_header_start r1 = 808 /\ test_toi_state TOI_RESUMED_BEFORE (toi_state r1) = false /\
    perform_all SampleTarget.sample_env [MarkTried true; AskExists; Remove; AskExists] r1 = Some (r2, [1; 1; 1; 0]) /\
    shows 808 (drop 28 (sig_page SampleTarget.looking)) NoImageThere (sig_page r2).
Proof.
  apply (file_signature_machine SampleTarget.sample_env SampleTarget.sample_file SampleTarget.marked SampleTarget.looking
    (Ext 101 107) [MarkTried true; AskExists; Remove; AskExists]);
    [apply SampleTarget.sample_written|reflexivity|vm_compute; reflexivity|by split].
Defined.

