(* ===== verification/Modules.v ===== *)
(** * The module registry: kernel/power/tuxonice_modules.c

    Filters (compression), allocators (swap, file) and helpers register
    themselves here; the core walks the lists to size the header, to
    initialise and clean up, and to find the next stage of the pipeline a
    page goes through.

    A [struct toi_module_ops] is identified by a number; [ops] is the memory
    that holds the structures and the three lists hold their numbers, in the
    order of the kernel's linked lists.  What a module's own functions answer
    comes from [module_env]; the calls that have effects of their own
    ([initialise], [cleanup]) are recorded in [events]. *)

From S2P Require Import Prelude States.
From stdpp Require Import numbers base list strings gmap.
#[local] Open Scope Z_scope.
#[local] Open Scope step_scope.

Inductive module_type := FILTER_MODULE | WRITER_MODULE | MISC_MODULE | MISC_HIDDEN_MODULE | INVALID_MODULE.

#[export] Instance module_type_eq_dec : EqDecision module_type.
Proof. solve_decision. Defined.

(** The fields the registry uses; a function pointer that may be [NULL] is an
    option with the function's answer, or a flag saying whether it is set. *)
Record toi_module_ops := ModuleOps {
  type : module_type;
  name : string;
  directory : option string;
  shared_directory : option string;
  dir_kobj : Z;
  enabled : bool;
  early : bool;
  initialised : bool;
  memory_needed : option Z;
  storage_needed : option Z;
  expected_compression : option Z;
  has_initialise : bool;
  has_cleanup : bool;
  header_requested : Z;
  header_used : Z;
  has_sysfs_data : bool;
  num_sysfs_entries : nat
}.

#[export] Instance toi_module_ops_eta : Eta toi_module_ops := fun m =>
  ModuleOps (type m) (name m) (directory m) (shared_directory m) (dir_kobj m) (enabled m)
    (early m) (initialised m) (memory_needed m) (storage_needed m) (expected_compression m)
    (has_initialise m) (has_cleanup m) (header_requested m) (header_used m) (has_sysfs_data m)
    (num_sysfs_entries m).

(** Calls to a module's [initialise] and [cleanup]. *)
Inductive event := Initialised (id : nat) (starting_cycle : bool) | CleanedUp (id : nat) (finishing_cycle : bool).

Record registry := Registry {
  ops : gmap nat toi_module_ops;
  toi_modules : list nat;
  toi_filters : list nat;
  toiAllocators : list nat;
  toi_num_filters : Z;
  toiNumAllocators : Z;
  toi_num_modules : Z;
  toiActiveAllocator : option nat;
  reg_state : Z;                     (* toi_state *)
  sysfs_files : list (nat * nat);    (* files registered: module, entry *)
  sysfs_dirs : list Z;               (* directories made: their kobjects *)
  module_refs : gmap nat Z;          (* references held on modules *)
  events : list event
}.

#[export] Instance registry_eta : Eta registry := fun r =>
  Registry (ops r) (toi_modules r) (toi_filters r) (toiAllocators r) (toi_num_filters r)
    (toiNumAllocators r) (toi_num_modules r) (toiActiveAllocator r) (reg_state r)
    (sysfs_files r) (sysfs_dirs r) (module_refs r) (events r).

(** What the rest of the kernel and the modules answer. *)
Record module_env := ModuleEnv {
  sysfs_result : nat -> nat -> Z;      (* toi_register_sysfs_file *)
  sysdir : string -> Z;                (* kobject_create_and_add; 0 is NULL *)
  tuxonice_kobj : Z;
  initialise : nat -> bool -> Z;
  try_module_get : nat -> bool
}.

(** Dereferencing a module pointer. *)
Definition module (id : nat) : M registry toi_module_ops := fun r =>
  match ops r !! id with Some m => Some (r, m) | None => None end.

Definition update_module (id : nat) (f : toi_module_ops -> toi_module_ops) : M registry unit :=
  modify (fun r => r {{ ops := alter f id (ops r) }}).

Fixpoint for_each {A S : Type} (l : list A) (body : A -> M S unit) : M S unit :=
  match l with
  | [] => ret tt
  | x :: l' => body x;;; for_each l' body
  end.

Definition list_del (id : nat) (l : list nat) : list nat := filter (fun x => x <> id) l.
Definition list_move_tail (id : nat) (l : list nat) : list nat := list_del id l ++ [id].

(** ** Header space, memory, compression *)

Definition sizeof_module_header : Z := 56.

(** Not counted: disabled modules and allocators other than the active one. *)
Definition counts_in_header (active : option nat) (id : nat) (m : toi_module_ops) : bool :=
  enabled m && negb (bool_decide (type m = WRITER_MODULE) && negb (bool_decide (active = Some id))).

Fixpoint header_storage_loop (l : list nat) (bytes : Z) : M registry Z :=
  match l with
  | [] => ret bytes
  | id :: l' =>
      m <-- module id;;
      active <-- get toiActiveAllocator;;
      match (if counts_in_header active id m then storage_needed m else None) with
      | None => header_storage_loop l' bytes
      | Some n =>
          let this := s32 (n + sizeof_module_header + sizeof_int) in
          update_module id (fun m => m {{ header_requested := this }});;;
          header_storage_loop l' (s32 (bytes + this))
      end
  end.

Definition toi_header_storage_for_modules : M registry Z :=
  l <-- get toi_modules;;
  bytes <-- header_storage_loop l 0;;
  ret (s64 (bytes + sizeof_module_header)).

Fixpoint memory_loop (ms : list toi_module_ops) (bytes : Z) : Z :=
  match ms with
  | [] => bytes
  | m :: ms' =>
      memory_loop ms' (match (if enabled m then memory_needed m else None) with
                       | Some n => s64 (bytes + s32 n) | None => bytes end)
  end.

Fixpoint modules_of (l : list nat) : M registry (list toi_module_ops) :=
  match l with
  | [] => ret []
  | id :: l' => m <-- module id;; ms <-- modules_of l';; ret (m :: ms)
  end.

(** [DIV_ROUND_UP] of a long by an unsigned long is unsigned. *)
Definition toi_memory_for_modules : M registry Z :=
  l <-- get toi_modules;;
  ms <-- modules_of l;;
  ret (u64 (u64 (memory_loop ms 0) + PAGE_SIZE - 1) / PAGE_SIZE).

Definition toi_expected_compression_ratio : M registry Z :=
  l <-- get toi_modules;;
  ms <-- modules_of l;;
  ret (foldl (fun ratio m =>
    match (if enabled m then expected_compression m else None) with
    | Some e => s32 (ratio * e) ÷ 100
    | None => ratio
    end) 100 ms).

(** ** Looking modules up *)

(** [strcmp] on a [NULL] directory crashes. *)
Fixpoint find_given_dir (dir : string) (l : list nat) : M registry (option nat) :=
  match l with
  | [] => ret None
  | id :: l' =>
      m <-- module id;;
      match directory m with
      | None => bug
      | Some d => if bool_decide (dir = d) then ret (Some id) else find_given_dir dir l'
      end
  end.

Definition toi_find_module_given_dir (dir : string) : M registry (option nat) :=
  l <-- get toi_modules;; find_given_dir dir l.

Fixpoint find_given_name (nm : string) (l : list nat) : M registry (option nat) :=
  match l with
  | [] => ret None
  | id :: l' =>
      m <-- module id;;
      if bool_decide (nm = name m) then ret (Some id) else find_given_name nm l'
  end.

Definition toi_find_module_given_name (nm : string) : M registry (option nat) :=
  l <-- get toi_modules;; find_given_name nm l.

(** ** Registration *)

Definition is_root (dir : string) : bool := String.prefix "[ROOT]" dir.

Definition unregister_files (id n : nat) : M registry unit :=
  modify (fun r => r {{ sysfs_files := filter (fun f => ~ (fst f = id /\ (snd f < n)%nat)) (sysfs_files r) }}).

(** [kobject_put] on a directory; nothing to do for [NULL]. *)
Definition remove_toi_sysdir (kobj : Z) : M registry unit :=
  if kobj =? 0 then ret tt
  else modify (fun r => r {{ sysfs_dirs := filter (fun k => k <> kobj) (sysfs_dirs r) }}).

(** Only a module with a directory of its own removes it. *)
Definition remove_directory (m : toi_module_ops) : M registry unit :=
  match shared_directory m, directory m with
  | None, Some dir => if is_root dir then ret tt else remove_toi_sysdir (dir_kobj m)
  | _, _ => ret tt
  end.

(** Taking a module of type [t] off the lists; an active allocator that goes
    takes the ability to hibernate and resume with it. *)
Definition delist (id : nat) (t : module_type) (r : registry) : registry :=
  let r := match t with
    | FILTER_MODULE => r {{ toi_filters := list_del id (toi_filters r);
                            toi_num_filters := s32 (toi_num_filters r - 1) }}
    | WRITER_MODULE =>
        let r := r {{ toiAllocators := list_del id (toiAllocators r);
                      toiNumAllocators := s32 (toiNumAllocators r - 1) }} in
        if bool_decide (toiActiveAllocator r = Some id) then
          r {{ toiActiveAllocator := None;
               reg_state := clear_toi_state TOI_CAN_HIBERNATE
                              (clear_toi_state TOI_CAN_RESUME (reg_state r)) }}
        else r
    | _ => r
    end in
  r {{ toi_modules := list_del id (toi_modules r); toi_num_modules := s32 (toi_num_modules r - 1) }}.

Definition toi_unregister_module (id : nat) : M registry unit :=
  m <-- module id;;
  (if dir_kobj m =? 0 then ret tt else unregister_files id (num_sysfs_entries m));;;
  remove_directory m;;;
  match type m with
  | INVALID_MODULE => ret tt
  | t => modify (delist id t)
  end.

Definition enlist (id : nat) (t : module_type) (r : registry) : registry :=
  let r := match t with
    | FILTER_MODULE => r {{ toi_filters := toi_filters r ++ [id];
                            toi_num_filters := s32 (toi_num_filters r + 1) }}
    | WRITER_MODULE => r {{ toiAllocators := toiAllocators r ++ [id];
                            toiNumAllocators := s32 (toiNumAllocators r + 1) }}
    | _ => r
    end in
  r {{ toi_modules := toi_modules r ++ [id]; toi_num_modules := s32 (toi_num_modules r + 1) }}.

(** Rearranging the lists when the configuration is reloaded. *)
Definition move_tail (id : nat) (t : module_type) (r : registry) : registry :=
  let r := match t with
    | FILTER_MODULE =>
        if toi_num_filters r >? 1 then r {{ toi_filters := list_move_tail id (toi_filters r) }} else r
    | WRITER_MODULE =>
        if toiNumAllocators r >? 1 then r {{ toiAllocators := list_move_tail id (toiAllocators r) }} else r
    | _ => r
    end in
  if toi_num_filters r + toiNumAllocators r >? 1
  then r {{ toi_modules := list_move_tail id (toi_modules r) }} else r.

Definition toi_move_module_tail (id : nat) : M registry unit :=
  m <-- module id;;
  match type m with
  | INVALID_MODULE => ret tt
  | t => modify (move_tail id t)
  end.

Section Register.
Context (env : module_env).

Definition make_toi_sysdir (dir : string) : M registry Z :=
  let kobj := sysdir env dir in
  (if kobj =? 0 then ret tt else modify (fun r => r {{ sysfs_dirs := sysfs_dirs r ++ [kobj] }}));;;
  ret kobj.

(** The files of a module, entry [i] first, [n] of them. *)
Fixpoint register_files (id i n : nat) : M registry Z :=
  match n with
  | O => ret 0
  | S n' =>
      let result := sysfs_result env id i in
      if result =? 0 then
        modify (fun r => r {{ sysfs_files := sysfs_files r ++ [(id, i)] }});;;
        register_files id (S i) n'
      else ret result
  end.

Definition register_sysfs (id : nat) (m : toi_module_ops) : M registry Z :=
  if match directory m, shared_directory m with None, None => true | _, _ => false end
     || negb (has_sysfs_data m) || (num_sysfs_entries m =? 0)%nat
  then ret 0
  else
    let files kobj :=
      update_module id (fun m => m {{ dir_kobj := kobj }});;;
      if kobj =? 0 then bug    (* sysfs_create_file *)
      else register_files id 0 (num_sysfs_entries m) in
    match shared_directory m, directory m with
    | Some dir, _ =>
        shared <-- toi_find_module_given_dir dir;;
        match shared with
        | None => toi_unregister_module id;;; ret (- ENODEV)
        | Some p => mp <-- module p;; files (dir_kobj mp)
        end
    | None, Some dir =>
        kobj <-- (if is_root dir then ret (tuxonice_kobj env) else make_toi_sysdir dir);;
        files kobj
    | None, None => ret 0
    end.

Definition toi_register_module (id : nat) : M registry Z :=
  update_module id (fun m => m {{ enabled := true }});;;
  m <-- module id;;
  found <-- toi_find_module_given_name (name m);;
  match found with
  | Some _ => ret (- EBUSY)
  | None =>
      match type m with
      | INVALID_MODULE => ret (- EINVAL)
      | t => modify (enlist id t);;; register_sysfs id m
      end
  end.

(** ** A cycle of work *)

Definition cleanup_one (finishing_cycle : bool) (id : nat) : M registry unit :=
  m <-- module id;;
  if negb (enabled m) || negb (initialised m) then ret tt
  else
    (if has_cleanup m
     then modify (fun r => r {{ events := events r ++ [CleanedUp id finishing_cycle] }})
     else ret tt);;;
    update_module id (fun m => m {{ initialised := false }}).

Definition toi_cleanup_modules (finishing_cycle : bool) : M registry unit :=
  l <-- get toi_modules;; for_each l (cleanup_one finishing_cycle).

Fixpoint initialise_loop (starting_cycle early_ : bool) (l : list nat) : M registry Z :=
  match l with
  | [] => ret 0
  | id :: l' =>
      update_module id (fun m => m {{ header_requested := 0; header_used := 0 }});;;
      m <-- module id;;
      if negb (enabled m) || negb (Bool.eqb (early m) early_) || negb (has_initialise m)
      then initialise_loop starting_cycle early_ l'
      else
        let result := initialise env id starting_cycle in
        modify (fun r => r {{ events := events r ++ [Initialised id starting_cycle] }});;;
        if result =? 0 then
          update_module id (fun m => m {{ initialised := true }});;;
          initialise_loop starting_cycle early_ l'
        else toi_cleanup_modules starting_cycle;;; ret result
  end.

Definition toi_initialise_modules (starting_cycle early_ : bool) : M registry Z :=
  l <-- get toi_modules;; initialise_loop starting_cycle early_ l.

(** ** The pipeline *)

Fixpoint next_filter_loop (l : list nat) (last sought : option nat) : M registry (option nat) :=
  match l with
  | [] => get toiActiveAllocator
  | id :: l' =>
      m <-- module id;;
      if negb (enabled m) then next_filter_loop l' last sought
      else if bool_decide (last = sought) || bool_decide (sought = None) then ret (Some id)
      else next_filter_loop l' (Some id) sought
  end.

Definition toi_get_next_filter (filter_sought : option nat) : M registry (option nat) :=
  l <-- get toi_filters;; next_filter_loop l None filter_sought.

(** ** References *)

Definition module_put (id : nat) : M registry unit :=
  modify (fun r => r {{ module_refs := alter (fun n => n - 1) id (module_refs r) }}).

(** The gets are reversed up to, not including, the module that failed. *)
Fixpoint put_until (l : list nat) (stop : nat) : M registry unit :=
  match l with
  | [] => ret tt
  | id :: l' => if bool_decide (id = stop) then ret tt else module_put id;;; put_until l' stop
  end.

Fixpoint get_loop (all l : list nat) : M registry Z :=
  match l with
  | [] => ret 0
  | id :: l' =>
      if try_module_get env id then
        modify (fun r => r {{ module_refs := alter (fun n => n + 1) id (module_refs r) }});;;
        get_loop all l'
      else put_until all id;;; ret (- EINVAL)
  end.

Definition toi_get_modules : M registry Z := l <-- get toi_modules;; get_loop l l.

Definition toi_put_modules : M registry unit := l <-- get toi_modules;; for_each l module_put.
End Register.
