(* ===== verification/ModuleFacts.v ===== *)
(** * Facts about the module registry

    The registry's invariant over its life, the order of the filter
    pipeline, and the bracketing of initialisation and references. *)

From S2P Require Import Prelude States Modules.
From stdpp Require Import numbers base list strings gmap.
#[local] Open Scope Z_scope.

(** ** What identifies a module *)

Definition key (r : registry) (id : nat) : option (module_type * string) :=
  (fun m => (type m, name m)) <$> ops r !! id.

Definition is_type (t : module_type) (r : registry) (id : nat) : bool :=
  bool_decide (fst <$> key r id = Some t).

Definition of_type (t : module_type) (r : registry) (l : list nat) : list nat :=
  filter (fun id => is_type t r id = true) l.

(** The lists agree: the filters and the allocators are the modules of those
    types, in the order of the list of all modules. *)
Record wf_registry (r : registry) : Prop := {
  wr_known : Forall (fun id => is_Some (key r id)) (toi_modules r);
  wr_distinct : NoDup (toi_modules r);
  wr_names : NoDup (map (fun id => snd <$> key r id) (toi_modules r));
  wr_valid : Forall (fun id => is_type INVALID_MODULE r id = false) (toi_modules r);
  wr_filters : toi_filters r = of_type FILTER_MODULE r (toi_modules r);
  wr_allocators : toiAllocators r = of_type WRITER_MODULE r (toi_modules r);
  wr_num_filters : toi_num_filters r = Z.of_nat (length (toi_filters r));
  wr_num_allocators : toiNumAllocators r = Z.of_nat (length (toiAllocators r));
  wr_num_modules : toi_num_modules r = Z.of_nat (length (toi_modules r));
  wr_active : forall id, toiActiveAllocator r = Some id -> id ∈ toiAllocators r;
  wr_small : Z.of_nat (length (toi_modules r)) < 2 ^ 31
}.

(** Steps that leave the lists and the identity of modules alone. *)
Record same_lists (r r' : registry) : Prop := {
  sm_key : forall id, key r' id = key r id;
  sm_modules : toi_modules r' = toi_modules r;
  sm_filters : toi_filters r' = toi_filters r;
  sm_allocators : toiAllocators r' = toiAllocators r;
  sm_num_filters : toi_num_filters r' = toi_num_filters r;
  sm_num_allocators : toiNumAllocators r' = toiNumAllocators r;
  sm_num_modules : toi_num_modules r' = toi_num_modules r;
  sm_active : toiActiveAllocator r' = toiActiveAllocator r
}.

#[export] Instance same_lists_preorder : PreOrder same_lists.
Proof.
  split.
  - by intros r; split.
  - intros r1 r2 r3 [] []. split; intros; congruence.
Qed.

Lemma is_type_ext t r r' id : key r' id = key r id -> is_type t r' id = is_type t r id.
Proof. unfold is_type. by intros ->. Qed.

Lemma of_type_ext t r r' l :
  (forall id, id ∈ l -> key r' id = key r id) -> of_type t r' l = of_type t r l.
Proof. intros Hk. apply filter_bool_ext. intros id Hid. by apply is_type_ext, Hk. Qed.

Lemma map_key_ext r r' l :
  (forall id, id ∈ l -> key r' id = key r id) ->
  map (fun id => snd <$> key r' id) l = map (fun id => snd <$> key r id) l.
Proof. intros Hk. apply map_ext_in. intros id Hid%list_elem_of_In. by rewrite Hk. Qed.

Lemma wf_same_lists r r' : wf_registry r -> same_lists r r' -> wf_registry r'.
Proof.
  intros [Hk Hd Hn Hv Hf Ha Hnf Hna Hnm Hac Hs] [Sk Sm Sf Sa Snf Sna Snm Sac].
  split; rewrite ?Sm, ?Sf, ?Sa, ?Snf, ?Sna, ?Snm; auto.
  - eapply Forall_impl; [exact Hk|]. intros id. by rewrite Sk.
  - by rewrite (map_key_ext r) by auto.
  - eapply Forall_impl; [exact Hv|]. intros id. by rewrite (is_type_ext _ r r').
  - by rewrite Hf, (of_type_ext _ r r') by auto.
  - by rewrite Ha, (of_type_ext _ r r') by auto.
  - intros id. rewrite Sac. auto.
Qed.

(** ** Operations that keep the lists *)

Definition keeps {A} (m : M registry A) : Prop :=
  forall r r' a, m r = Some (r', a) -> same_lists r r'.

Lemma keeps_ret {A} (a : A) : keeps (ret a).
Proof. by intros r r' x [= <- _]. Qed.

Lemma keeps_get {A} (f : registry -> A) : keeps (get f).
Proof. by intros r r' x [= <- _]. Qed.

Lemma keeps_bind {A B} (m : M registry A) (k : A -> M registry B) :
  keeps m -> (forall a, keeps (k a)) -> keeps (bind m k).
Proof.
  intros Hm Hk r r' b. unfold bind. destruct (m r) as [[r1 a]|] eqn:E; [|done].
  intros Hb. transitivity r1; [by eapply Hm|by eapply Hk].
Qed.

Lemma keeps_module id : keeps (module id).
Proof. intros r r' m. unfold module. destruct (ops r !! id); [|done]. by intros [= <- _]. Qed.

Lemma keeps_update id f :
  (forall m, type (f m) = type m /\ name (f m) = name m) -> keeps (update_module id f).
Proof.
  intros Hf r r' a. unfold update_module, modify. intros [= <- _]. split; try done.
  intros i. unfold key. simpl. destruct (decide (i = id)) as [->|].
  - rewrite lookup_alter_eq. destruct (ops r !! id) as [m|]; [|done]. simpl. by destruct (Hf m) as [-> ->].
  - by rewrite lookup_alter_ne.
Qed.

Lemma keeps_for_each {A} (l : list A) body :
  (forall x, keeps (body x)) -> keeps (for_each l body).
Proof. intros Hb. induction l; [apply keeps_ret|]. by apply keeps_bind. Qed.

Lemma keeps_if {A} (b : bool) (m1 m2 : M registry A) : keeps m1 -> keeps m2 -> keeps (if b then m1 else m2).
Proof. by destruct b. Qed.

Lemma keeps_modify f : (forall r, same_lists r (f r)) -> keeps (modify f).
Proof. intros Hf r r' a. unfold modify. by intros [= <- _]. Qed.

Create HintDb keeps.
#[export] Hint Resolve keeps_ret keeps_get keeps_module keeps_if : keeps.
#[export] Hint Extern 1 (keeps (bind _ _)) => (apply keeps_bind; [|intro]) : keeps.
#[export] Hint Extern 1 (keeps (update_module _ _)) => (apply keeps_update; by intro) : keeps.
#[export] Hint Extern 1 (keeps (for_each _ _)) => (apply keeps_for_each; intro) : keeps.
#[export] Hint Extern 1 (keeps (modify _)) => (apply keeps_modify; intro; by split) : keeps.

Lemma keeps_cleanup fc : keeps (toi_cleanup_modules fc).
Proof. unfold toi_cleanup_modules, cleanup_one. auto 12 with keeps. Qed.
#[export] Hint Resolve keeps_cleanup : keeps.

Lemma keeps_initialise env sc e : keeps (toi_initialise_modules env sc e).
Proof.
  unfold toi_initialise_modules. apply keeps_bind; [auto with keeps|]. intros l.
  induction l as [|id l IH]; cbn [initialise_loop]; auto 12 with keeps.
Qed.

Lemma keeps_header : keeps toi_header_storage_for_modules.
Proof.
  unfold toi_header_storage_for_modules. apply keeps_bind; [auto with keeps|]. intros l.
  apply keeps_bind; [|auto with keeps]. generalize 0.
  induction l as [|id l IH]; intros b; cbn [header_storage_loop]; [auto with keeps|].
  apply keeps_bind; [auto with keeps|]. intros m. apply keeps_bind; [auto with keeps|]. intros act.
  case_match; auto with keeps.
Qed.

Lemma keeps_put_until l stop : keeps (put_until l stop).
Proof. induction l; cbn [put_until]; unfold module_put; auto 8 with keeps. Qed.
#[export] Hint Resolve keeps_put_until : keeps.

Lemma keeps_get_modules env : keeps (toi_get_modules env).
Proof.
  unfold toi_get_modules. apply keeps_bind; [auto with keeps|]. intros l. generalize l at 1. intros all.
  induction l; cbn [get_loop]; auto 8 with keeps.
Qed.

Lemma keeps_put_modules : keeps toi_put_modules.
Proof. unfold toi_put_modules, module_put. auto 8 with keeps. Qed.

(** ** Deleting from the lists *)

Lemma list_del_notin id l : id ∉ l -> list_del id l = l.
Proof.
  intros Hn. unfold list_del. induction l as [|x l IH]; [done|].
  apply not_elem_of_cons in Hn as [? ?]. rewrite filter_cons_True by congruence. by rewrite IH.
Qed.

Lemma Forall_list_del (P : nat -> Prop) id l : Forall P l -> Forall P (list_del id l).
Proof.
  rewrite !Forall_forall. intros HP x Hx. unfold list_del in Hx.
  apply list_elem_of_filter in Hx as [_ Hx]. auto.
Qed.

Lemma list_del_length id l :
  NoDup l -> id ∈ l -> Z.of_nat (length (list_del id l)) = Z.of_nat (length l) - 1.
Proof.
  induction 1 as [|x l Hx Hnd IH]; intros Hin; [by apply elem_of_nil in Hin|].
  unfold list_del. apply elem_of_cons in Hin as [->|Hin].
  - rewrite filter_cons_False by (intros ?; done). fold (list_del x l). rewrite list_del_notin by done.
    simpl. lia.
  - rewrite filter_cons_True by (intros ->; done). fold (list_del id l).
    cbn [length]. specialize (IH Hin). lia.
Qed.

Lemma of_type_del t r id l : of_type t r (list_del id l) = list_del id (of_type t r l).
Proof.
  unfold of_type, list_del. induction l as [|x l IH]; [done|]. rewrite !filter_cons.
  destruct (decide (x <> id)), (decide (is_type t r x = true)); rewrite ?filter_cons;
    repeat case_decide; try congruence; naive_solver.
Qed.

Lemma of_type_elem t r id l : id ∈ of_type t r l <-> is_type t r id = true /\ id ∈ l.
Proof. unfold of_type. by rewrite list_elem_of_filter. Qed.

Lemma of_type_length t r l : (length (of_type t r l) <= length l)%nat.
Proof. unfold of_type. apply length_filter. Qed.

Lemma of_type_other t r id l : is_type t r id = false -> list_del id (of_type t r l) = of_type t r l.
Proof. intros Ht. apply list_del_notin. rewrite of_type_elem. intros [? _]. congruence. Qed.

Lemma of_type_NoDup t r l : NoDup l -> NoDup (of_type t r l).
Proof. apply list.NoDup_filter. Qed.

Lemma map_del_NoDup {A} (f : nat -> A) id l : NoDup (map f l) -> NoDup (map f (list_del id l)).
Proof.
  intros Hn. eapply sublist_NoDup; [exact Hn|]. apply (fmap_sublist f), sublist_filter.
Qed.

Lemma is_type_unique t t' r id : is_type t r id = true -> t <> t' -> is_type t' r id = false.
Proof.
  unfold is_type. intros H1 Hne. apply bool_decide_eq_true in H1. apply bool_decide_eq_false. congruence.
Qed.

Lemma is_type_of r id m : ops r !! id = Some m -> forall t, is_type t r id = bool_decide (type m = t).
Proof.
  intros Hm t. unfold is_type, key. rewrite Hm. simpl. apply bool_decide_ext. split; congruence.
Qed.

(** ** Unregistering *)

Lemma key_delist id t r i : key (delist id t r) i = key r i.
Proof. unfold delist. by repeat case_match. Qed.

Lemma delist_wf r id t :
  wf_registry r -> id ∈ toi_modules r -> is_type t r id = true -> wf_registry (delist id t r).
Proof.
  intros [Hk Hd Hn Hv Hf Ha Hnf Hna Hnm Hac Hs] Hin Ht.
  set (r' := delist id t r).
  assert (forall i, key r' i = key r i) as Ek by apply key_delist.
  assert (toi_modules r' = list_del id (toi_modules r)) as Em by (unfold r', delist; by repeat case_match).
  assert (toi_num_modules r' = s32 (toi_num_modules r - 1)) as Enm by (unfold r', delist; by repeat case_match).
  assert (forall t', of_type t' r' (list_del id (toi_modules r)) = list_del id (of_type t' r (toi_modules r))) as Eo.
  { intros t'. rewrite <- of_type_del. apply of_type_ext. auto. }
  assert (forall t', t' <> t -> list_del id (of_type t' r (toi_modules r)) = of_type t' r (toi_modules r)) as Hne.
  { intros t' Hne. apply of_type_other. by eapply is_type_unique. }
  assert (forall t', t' = t -> Z.of_nat (length (list_del id (of_type t' r (toi_modules r)))) =
            s32 (Z.of_nat (length (of_type t' r (toi_modules r))) - 1)) as Hlen.
  { intros t' ->. assert (id ∈ of_type t r (toi_modules r)) as Hi by (by rewrite of_type_elem).
    rewrite list_del_length by auto using of_type_NoDup. pose proof (of_type_length t r (toi_modules r)).
    symmetry. apply s32_small. lia. }
  split; rewrite ?Em; auto.
  - eapply Forall_impl; [exact (Forall_list_del _ id _ Hk)|]. intros i. by rewrite Ek.
  - by apply list.NoDup_filter.
  - rewrite (map_key_ext r) by auto. by apply map_del_NoDup.
  - eapply Forall_impl; [exact (Forall_list_del _ id _ Hv)|]. intros i. by rewrite (is_type_ext _ r r').
  - rewrite Eo. unfold r', delist. destruct t; rewrite ?(Hne FILTER_MODULE) by done;
      repeat case_match; simpl; by rewrite Hf.
  - rewrite Eo. unfold r', delist. destruct t; rewrite ?(Hne WRITER_MODULE) by done;
      repeat case_match; simpl; by rewrite Ha.
  - unfold r', delist. destruct t; repeat case_match; simpl; try done. rewrite Hnf, Hf. symmetry. by apply Hlen.
  - unfold r', delist. destruct t; repeat case_match; simpl; try done; rewrite Hna, Ha; symmetry; by apply Hlen.
  - rewrite Enm, Hnm, list_del_length by done. apply s32_small. lia.
  - intros i. unfold r', delist. destruct t; simpl; auto.
    case_bool_decide as Hb; simpl in *; [done|]. intros Hi. apply list_elem_of_filter.
    split; [congruence|by apply Hac].
  - rewrite list_del_length by done. lia.
Qed.

Lemma keeps_unregister_files id n : keeps (unregister_files id n).
Proof. unfold unregister_files. auto with keeps. Qed.
#[export] Hint Resolve keeps_unregister_files : keeps.

Lemma keeps_remove_directory m : keeps (remove_directory m).
Proof. unfold remove_directory, remove_toi_sysdir. repeat case_match; auto with keeps. Qed.
#[export] Hint Resolve keeps_remove_directory : keeps.

Lemma unregister_wf r r' id :
  wf_registry r -> id ∈ toi_modules r -> toi_unregister_module id r = Some (r', tt) -> wf_registry r'.
Proof.
  intros Hw Hin. unfold toi_unregister_module, bind at 1, module.
  destruct (ops r !! id) as [m|] eqn:Hm; [|done]. unfold bind at 1.
  destruct ((if dir_kobj m =? 0 then ret tt else unregister_files id (num_sysfs_entries m)) r)
    as [[r0 u]|] eqn:Hf; [|done]. unfold bind at 1.
  destruct (remove_directory m r0) as [[r1 u']|] eqn:Hr; [|done].
  assert (same_lists r r1) as Hs.
  { transitivity r0; [|by eapply keeps_remove_directory].
    refine (keeps_if (dir_kobj m =? 0) (ret tt) (unregister_files id (num_sysfs_entries m)) _ _ _ _ _ Hf);
      auto with keeps. }
  assert (is_type (type m) r1 id = true) as Ht.
  { rewrite (is_type_ext _ r r1), (is_type_of _ _ _ Hm) by apply Hs. by apply bool_decide_eq_true. }
  apply (wf_same_lists r r1) in Hw; [|done]. rewrite <- (sm_modules _ _ Hs) in Hin.
  destruct (type m); intros [= <-]; auto using delist_wf.
Qed.

(** ** Registering *)

Lemma key_enlist id t r i : key (enlist id t r) i = key r i.
Proof. unfold enlist. by destruct t. Qed.

Lemma of_type_snoc t r l id :
  of_type t r (l ++ [id]) = of_type t r l ++ (if is_type t r id then [id] else []).
Proof.
  unfold of_type. rewrite list.filter_app. f_equal. rewrite filter_cons.
  by destruct (is_type t r id).
Qed.

Lemma enlist_wf r id t nm :
  wf_registry r -> key r id = Some (t, nm) -> t <> INVALID_MODULE ->
  Some nm ∉ map (fun i => snd <$> key r i) (toi_modules r) ->
  Z.of_nat (length (toi_modules r)) + 1 < 2 ^ 31 -> wf_registry (enlist id t r).
Proof.
  intros [Hk Hd Hn Hv Hf Ha Hnf Hna Hnm Hac Hs] Hid Hvt Hname Hroom.
  set (r' := enlist id t r).
  assert (forall i, key r' i = key r i) as Ek by apply key_enlist.
  assert (forall t', is_type t' r' id = bool_decide (t = t')) as Et.
  { intros t'. unfold is_type. rewrite Ek, Hid. simpl. apply bool_decide_ext. split; congruence. }
  assert (id ∉ toi_modules r) as Hni.
  { intros Hi. apply Hname. apply list_elem_of_In, in_map_iff. exists id. rewrite Hid.
    split; [done|by apply list_elem_of_In]. }
  assert (toi_modules r' = toi_modules r ++ [id]) as Em by (unfold r', enlist; by destruct t).
  assert (forall t', of_type t' r' (toi_modules r ++ [id]) =
            of_type t' r (toi_modules r) ++ (if bool_decide (t = t') then [id] else [])) as Eo.
  { intros t'. rewrite of_type_snoc, Et. f_equal. apply of_type_ext. auto. }
  assert (forall t', Z.of_nat (length (of_type t' r (toi_modules r))) + 1 < 2 ^ 31) as Hlen
    by (intros t'; pose proof (of_type_length t' r (toi_modules r)); lia).
  split; rewrite ?Em; auto.
  - apply Forall_app. split; [|by constructor; rewrite ?Ek, ?Hid; eauto].
    eapply Forall_impl; [exact Hk|]. intros i. by rewrite Ek.
  - apply NoDup_app. split_and!; [done| |apply NoDup_singleton].
    by intros i Hi ->%list_elem_of_singleton.
  - rewrite (map_key_ext r) by auto. rewrite map_app. apply NoDup_app. cbn [map]. rewrite Hid.
    split_and!; [done| |apply NoDup_singleton]. by intros i Hi ->%list_elem_of_singleton.
  - apply Forall_app. split; [|constructor; [rewrite Et; by apply bool_decide_eq_false|done]].
    eapply Forall_impl; [exact Hv|]. intros i. by rewrite (is_type_ext _ r r').
  - rewrite Eo, <- Hf. unfold r', enlist. destruct t; simpl; by rewrite ?app_nil_r.
  - rewrite Eo, <- Ha. unfold r', enlist. destruct t; simpl; by rewrite ?app_nil_r.
  - unfold r', enlist. destruct t; simpl; auto. rewrite Hnf, length_app, Hf. simpl.
    specialize (Hlen FILTER_MODULE). rewrite s32_small; lia.
  - unfold r', enlist. destruct t; simpl; auto. rewrite Hna, length_app, Ha. simpl.
    specialize (Hlen WRITER_MODULE). rewrite s32_small; lia.
  - replace (toi_num_modules r') with (s32 (toi_num_modules r + 1)) by (unfold r', enlist; by destruct t).
    rewrite Hnm, length_app. simpl. rewrite s32_small; lia.
  - intros i Hi. assert (toiActiveAllocator r = Some i) as Hi' by (revert Hi; unfold r', enlist; by destruct t).
    specialize (Hac _ Hi'). unfold r', enlist. destruct t; simpl; auto. apply elem_of_app. by left.
  - rewrite length_app. simpl. lia.
Qed.

Lemma find_given_name_spec nm l r r' res :
  find_given_name nm l r = Some (r', res) ->
  r' = r /\ (res = None -> Some nm ∉ map (fun i => snd <$> key r i) l).
Proof.
  revert res. induction l as [|id l IH]; intros res; cbn [find_given_name].
  - intros [= <- <-]. split; [done|]. intros _. apply not_elem_of_nil.
  - unfold bind, module. destruct (ops r !! id) as [m|] eqn:Hm; [|done].
    case_bool_decide as Hb; [intros [= <- <-]; done|]. intros Hf. destruct (IH _ Hf) as [-> Hno].
    split; [done|]. intros Hres. cbn [map]. apply not_elem_of_cons. split; [|by apply Hno].
    unfold key. rewrite Hm. simpl. congruence.
Qed.

Lemma keeps_find_dir dir l : keeps (find_given_dir dir l).
Proof.
  induction l as [|id l IH]; cbn [find_given_dir]; [auto with keeps|].
  apply keeps_bind; [auto with keeps|]. intros m. destruct (directory m); [auto with keeps|].
  by intros ? ? ?.
Qed.

Lemma keeps_register_files env id i n : keeps (register_files env id i n).
Proof. revert i. induction n as [|n IH]; intros i; cbn [register_files]; auto 8 with keeps. Qed.

Lemma register_sysfs_wf env id m r r' res :
  wf_registry r -> id ∈ toi_modules r -> register_sysfs env id m r = Some (r', res) -> wf_registry r'.
Proof.
  intros Hw Hin. unfold register_sysfs. destruct (_ || _); [by intros [= <- _]|].
  assert (forall k, keeps (bind (update_module id (fun m => m {{ dir_kobj := k }}))
                    (fun _ => if k =? 0 then bug else register_files env id 0 (num_sysfs_entries m)))) as Hfiles.
  { intros k. apply keeps_bind; [auto with keeps|]. intros _. apply keeps_if; [done|].
    apply keeps_register_files. }
  destruct (shared_directory m) as [dir|].
  - unfold bind at 1. destruct (toi_find_module_given_dir dir r) as [[r1 sh]|] eqn:Hd; [|done].
    assert (same_lists r r1) as Hs.
    { unfold toi_find_module_given_dir in Hd. eapply (keeps_bind (get toi_modules)); [auto with keeps| |exact Hd].
      intros l. apply keeps_find_dir. }
    destruct sh as [p|].
    + intros Hr. eapply wf_same_lists; [exact Hw|]. transitivity r1; [done|].
      eapply (keeps_bind (module p)); [auto with keeps| |exact Hr]. intros mp. apply Hfiles.
    + unfold bind. destruct (toi_unregister_module id r1) as [[r2 []]|] eqn:Hu; [|done].
      intros [= <- _]. eapply (unregister_wf r1); [by eapply wf_same_lists| |exact Hu].
      by rewrite (sm_modules _ _ Hs).
  - destruct (directory m) as [dir|]; [|by intros [= <- _]].
    intros Hr. eapply wf_same_lists; [exact Hw|].
    eapply (keeps_bind (if is_root dir then _ else make_toi_sysdir env dir)); [|apply Hfiles|exact Hr].
    unfold make_toi_sysdir. auto 8 with keeps.
Qed.

Lemma register_wf env id r r' res :
  wf_registry r -> Z.of_nat (length (toi_modules r)) + 1 < 2 ^ 31 ->
  toi_register_module env id r = Some (r', res) -> wf_registry r'.
Proof.
  intros Hw Hroom. unfold toi_register_module, bind at 1.
  destruct (update_module id (fun m => m {{ enabled := true }}) r) as [[r1 u]|] eqn:Hu; [|done].
  assert (same_lists r r1) as Hs by (eapply keeps_update; [|exact Hu]; done).
  assert (wf_registry r1) as Hw1 by (by eapply wf_same_lists).
  unfold bind at 1, module. destruct (ops r1 !! id) as [m|] eqn:Hm; [|done].
  unfold bind at 1, toi_find_module_given_name, bind at 1, get.
  destruct (find_given_name (name m) (toi_modules r1) r1) as [[r2 f]|] eqn:Hf; [|done].
  destruct (find_given_name_spec _ _ _ _ _ Hf) as [-> Hno]. destruct f as [|]; [by intros [= <- _]|].
  assert (key r1 id = Some (type m, name m)) as Hk by (unfold key; by rewrite Hm).
  rewrite <- (sm_modules _ _ Hs) in Hroom.
  assert (type m <> INVALID_MODULE -> bind (modify (enlist id (type m))) (fun _ => register_sysfs env id m) r1
    = Some (r', res) -> wf_registry r') as Hgo.
  { intros Hty Hr. unfold bind, modify in Hr. eapply register_sysfs_wf; [|..|exact Hr].
    - eapply enlist_wf; eauto.
    - unfold enlist. destruct (type m); simpl; apply elem_of_app; right; by left. }
  destruct (type m); try (by apply Hgo). by intros [= <- _].
Qed.

(** ** Reordering *)

Lemma of_type_move t r id l :
  of_type t r (list_move_tail id l) =
  if is_type t r id then list_move_tail id (of_type t r l) else of_type t r l.
Proof.
  unfold list_move_tail. rewrite of_type_snoc, of_type_del.
  destruct (is_type t r id) eqn:E; [done|]. by rewrite app_nil_r, of_type_other.
Qed.

Lemma list_move_tail_perm id l : NoDup l -> id ∈ l -> list_move_tail id l ≡ₚ l.
Proof.
  intros Hd Hin. unfold list_move_tail. rewrite Permutation_app_comm. simpl.
  apply NoDup_Permutation; [|done|].
  - constructor; [|by apply list.NoDup_filter]. unfold list_del. rewrite list_elem_of_filter. tauto.
  - intros x. rewrite elem_of_cons. unfold list_del. rewrite list_elem_of_filter.
    destruct (decide (x = id)) as [->|]; tauto.
Qed.

(** A list of at most one element is its own rearrangement. *)
Lemma list_move_tail_short id l : id ∈ l -> (length l <= 1)%nat -> list_move_tail id l = l.
Proof.
  destruct l as [|x [|]]; simpl; [by intros ?%elem_of_nil| |lia].
  intros ->%list_elem_of_singleton _. unfold list_move_tail, list_del.
  by rewrite filter_cons_False by (intros ?; done).
Qed.

Lemma key_move id t r i : key (move_tail id t r) i = key r i.
Proof. unfold move_tail. by repeat case_match. Qed.

(** What the two guards on the counters leave of a move. *)
Lemma move_tail_lists r id t :
  wf_registry r -> id ∈ toi_modules r -> is_type t r id = true ->
  let r' := move_tail id t r in
  toi_filters r' = of_type FILTER_MODULE r (toi_modules r') /\
  toiAllocators r' = of_type WRITER_MODULE r (toi_modules r') /\
  toi_modules r' ≡ₚ toi_modules r.
Proof.
  intros Hw Hin Ht r'. pose proof (wr_num_filters r Hw) as Hnf. pose proof (wr_num_allocators r Hw) as Hna.
  rewrite (wr_filters r Hw) in Hnf. rewrite (wr_allocators r Hw) in Hna.
  assert (forall t', t' = t -> (length (of_type t' r (toi_modules r)) <= 1)%nat ->
    list_move_tail id (of_type t' r (toi_modules r)) = of_type t' r (toi_modules r)) as Hshort.
  { intros t' -> Hl. apply list_move_tail_short; [by rewrite of_type_elem|done]. }
  assert (forall t', is_type t' r id = bool_decide (t' = t)) as Et.
  { intros t'. case_bool_decide as E; [by subst|]. by eapply is_type_unique. }
  split_and!.
  - unfold r', move_tail. destruct t; repeat case_match; simpl in *; breflect;
      rewrite ?of_type_move, ?Et; simpl; rewrite ?(wr_filters r Hw); first [done | rewrite ?Hshort; done || lia].
  - unfold r', move_tail. destruct t; repeat case_match; simpl in *; breflect;
      rewrite ?of_type_move, ?Et; simpl; rewrite ?(wr_allocators r Hw); first [done | rewrite ?Hshort; done || lia].
  - unfold r', move_tail. destruct t; repeat case_match; simpl; try done;
      apply list_move_tail_perm; auto; apply Hw.
Qed.

Lemma move_tail_wf r id t :
  wf_registry r -> id ∈ toi_modules r -> is_type t r id = true -> wf_registry (move_tail id t r).
Proof.
  intros Hw Hin Ht. destruct (move_tail_lists r id t Hw Hin Ht) as (Ef & Ea & Hp).
  set (r' := move_tail id t r) in *.
  assert (forall i, key r' i = key r i) as Ek by apply key_move.
  assert (forall t', of_type t' r' (toi_modules r') ≡ₚ of_type t' r (toi_modules r)) as Hpt.
  { intros t'. rewrite (of_type_ext _ r r') by auto. unfold of_type. by rewrite Hp. }
  rewrite <- (of_type_ext _ r r') in Ef by auto. rewrite <- (of_type_ext _ r r') in Ea by auto.
  assert (toi_num_filters r' = toi_num_filters r /\ toiNumAllocators r' = toiNumAllocators r /\
          toi_num_modules r' = toi_num_modules r /\ toiActiveAllocator r' = toiActiveAllocator r)
    as (E1 & E2 & E3 & E4) by (unfold r', move_tail; by repeat case_match).
  destruct Hw as [Hk Hd Hn Hv Hf Ha Hnf Hna Hnm Hac Hs].
  split; rewrite ?E1, ?E2, ?E3, ?E4; auto.
  - rewrite Hp. eapply Forall_impl; [exact Hk|]. intros i. by rewrite Ek.
  - by rewrite Hp.
  - rewrite (map_key_ext r) by auto. change (NoDup ((fun i => snd <$> key r i) <$> toi_modules r')).
    by rewrite Hp.
  - rewrite Hp. eapply Forall_impl; [exact Hv|]. intros i. by rewrite (is_type_ext _ r r').
  - by rewrite Ef, Hpt, Hnf, Hf.
  - by rewrite Ea, Hpt, Hna, Ha.
  - by rewrite Hp.
  - intros i Hi. rewrite Ea, Hpt, <- Ha. auto.
  - by rewrite Hp.
Qed.

Lemma move_module_tail_wf r r' id :
  wf_registry r -> id ∈ toi_modules r -> toi_move_module_tail id r = Some (r', tt) -> wf_registry r'.
Proof.
  intros Hw Hin. unfold toi_move_module_tail, bind, module.
  destruct (ops r !! id) as [m|] eqn:Hm; [|done].
  assert (is_type (type m) r id = true) as Ht by (rewrite (is_type_of _ _ _ Hm); by apply bool_decide_eq_true).
  destruct (type m); intros [= <-]; auto using move_tail_wf.
Qed.

(** ** The registry's life

    The steps other code takes on the registry.  A module's own functions and
    sysfs writes change fields of its structure, but not what it is
    ([sm_key]); a module that is not listed may be loaded or unloaded; the
    allocator probing code selects an active allocator among those listed. *)
Inductive registry_step : registry -> registry -> Prop :=
| step_load r id m :
    id ∉ toi_modules r -> registry_step r (r {{ ops := <[id := m]> (ops r) }})
| step_register env id r r' res :
    Z.of_nat (length (toi_modules r)) + 1 < 2 ^ 31 ->
    toi_register_module env id r = Some (r', res) -> registry_step r r'
| step_unregister id r r' :
    id ∈ toi_modules r -> toi_unregister_module id r = Some (r', tt) -> registry_step r r'
| step_move id r r' :
    id ∈ toi_modules r -> toi_move_module_tail id r = Some (r', tt) -> registry_step r r'
| step_set_enabled id b r r' :
    update_module id (fun m => m {{ enabled := b }}) r = Some (r', tt) -> registry_step r r'
| step_select id r :
    id ∈ toiAllocators r -> registry_step r (r {{ toiActiveAllocator := Some id }})
| step_initialise env sc e r r' res :
    toi_initialise_modules env sc e r = Some (r', res) -> registry_step r r'
| step_cleanup fc r r' :
    toi_cleanup_modules fc r = Some (r', tt) -> registry_step r r'
| step_header r r' res :
    toi_header_storage_for_modules r = Some (r', res) -> registry_step r r'
| step_get env r r' res :
    toi_get_modules env r = Some (r', res) -> registry_step r r'
| step_put r r' :
    toi_put_modules r = Some (r', tt) -> registry_step r r'.

(** The registry at boot: three empty lists. *)
Definition boot_registry (mem : gmap nat toi_module_ops) : registry :=
  Registry mem [] [] [] 0 0 0 None 0 [] [] ∅ [].

Lemma boot_wf mem : wf_registry (boot_registry mem).
Proof. split; simpl; try done; constructor. Qed.

Lemma load_wf r id m :
  wf_registry r -> id ∉ toi_modules r -> wf_registry (r {{ ops := <[id := m]> (ops r) }}).
Proof.
  intros [Hk Hd Hn Hv Hf Ha Hnf Hna Hnm Hac Hs] Hni. set (r' := r {{ ops := _ }}).
  assert (forall i, i ∈ toi_modules r -> key r' i = key r i) as Ek.
  { intros i Hi. unfold key, r'. simpl. by rewrite lookup_insert_ne by (intros ->; done). }
  split; simpl; auto.
  - rewrite Forall_forall in *. intros i Hi. rewrite Ek by done. auto.
  - by rewrite (map_key_ext r).
  - rewrite Forall_forall in *. intros i Hi. rewrite (is_type_ext _ r r') by auto. auto.
  - by rewrite Hf, (of_type_ext _ r r').
  - by rewrite Ha, (of_type_ext _ r r').
Qed.

Lemma registry_step_wf r r' : wf_registry r -> registry_step r r' -> wf_registry r'.
Proof.
  intros Hw Hst. destruct Hst as [r id m Hni|env id r r' res Hroom Hr|id r r' Hin Hr|id r r' Hin Hr|id b r r' Hr
    |id r Hin|env sc e r r' res Hr|fc r r' Hr|r r' res Hr|env r r' res Hr|r r' Hr].
  - by apply load_wf.
  - by eapply register_wf.
  - by eapply unregister_wf.
  - by eapply move_module_tail_wf.
  - eapply wf_same_lists; [exact Hw|]. eapply keeps_update; [|exact Hr]. done.
  - destruct Hw as [Hk Hd Hn Hv Hf Ha Hnf Hna Hnm Hac Hs]. split; simpl; auto. by intros i [= <-].
  - eapply wf_same_lists; [exact Hw|]. by eapply keeps_initialise.
  - eapply wf_same_lists; [exact Hw|]. by eapply keeps_cleanup.
  - eapply wf_same_lists; [exact Hw|]. by eapply keeps_header.
  - eapply wf_same_lists; [exact Hw|]. by eapply keeps_get_modules.
  - eapply wf_same_lists; [exact Hw|]. by eapply keeps_put_modules.
Qed.

(** C23: whatever sequence of loads, registrations (failed ones included),
    unregistrations, reorderings, enable switches, allocator selections,
    initialise / cleanup rounds and reference rounds the registry goes
    through from boot, its lists stay consistent: every listed module exists
    once under a name of its own, the filter and allocator lists are exactly
    the modules of those types in the order of the module list, the counters
    are the lists' lengths, and the active allocator is a listed allocator. *)
Theorem registry_invariant (mem : gmap nat toi_module_ops) (r : registry)
  (Hreach : rtc registry_step (boot_registry mem) r) : wf_registry r.
Proof.
  revert Hreach. generalize (boot_wf mem). generalize (boot_registry mem). intros r0 Hw Hr.
  induction Hr; eauto using registry_step_wf.
Qed.

(** ** The pipeline *)

Definition is_enabled (r : registry) (id : nat) : bool :=
  match ops r !! id with Some m => enabled m | None => false end.

Definition enabled_filters (r : registry) : list nat :=
  filter (fun id => is_enabled r id = true) (toi_filters r).

(** The stages a page goes through: the enabled filters in order, then the
    active allocator. *)
Definition stages (r : registry) : list (option nat) :=
  map Some (enabled_filters r) ++ [toiActiveAllocator r].

Definition known (r : registry) (l : list nat) : Prop := Forall (fun id => is_Some (ops r !! id)) l.

Lemma known_modules r : wf_registry r -> known r (toi_modules r).
Proof.
  intros Hw. eapply Forall_impl; [apply (wr_known r Hw)|]. intros id. unfold key.
  by rewrite fmap_is_Some.
Qed.

Lemma known_filters r : wf_registry r -> known r (toi_filters r) /\ NoDup (toi_filters r).
Proof.
  intros Hw. rewrite (wr_filters r Hw). split; [|apply of_type_NoDup, Hw].
  pose proof (known_modules r Hw) as Hk. unfold known in *. rewrite Forall_forall in *.
  intros id [_ Hin]%of_type_elem. auto.
Qed.

Abbreviation enabled_in r := (filter (fun id => is_enabled r id = true)).

Lemma enabled_in_cons r id l m :
  ops r !! id = Some m ->
  enabled_in r (id :: l) = if enabled m then id :: enabled_in r l else enabled_in r l.
Proof.
  intros Hm. assert (is_enabled r id = enabled m) as E by (unfold is_enabled; by rewrite Hm).
  rewrite filter_cons. rewrite <- E. by destruct (is_enabled r id).
Qed.

(** The stage that follows [f] in [l], the active allocator if none does. *)
Fixpoint stage_after (act : option nat) (f : nat) (l : list nat) : option nat :=
  match l with
  | [] => act
  | x :: l' => if bool_decide (x = f) then hd act (map Some l') else stage_after act f l'
  end.

Lemma next_filter_at r l last s :
  known r l -> last = s \/ s = None ->
  next_filter_loop l last s r = Some (r, hd (toiActiveAllocator r) (map Some (enabled_in r l))).
Proof.
  intros Hk Hs. induction l as [|id l IH]; [done|]. apply Forall_cons_1 in Hk as [[m Hm] Hk].
  cbn [next_filter_loop]. unfold bind, module. rewrite Hm, (enabled_in_cons r id l m Hm).
  destruct (enabled m); simpl; [|by apply IH].
  replace (bool_decide (last = s) || bool_decide (s = None)) with true; [done|].
  symmetry. apply orb_true_iff. rewrite !bool_decide_eq_true. done.
Qed.

Lemma next_filter_seek r l last f :
  known r l -> last <> Some f ->
  next_filter_loop l last (Some f) r = Some (r, stage_after (toiActiveAllocator r) f (enabled_in r l)).
Proof.
  intros Hk. revert last. induction l as [|id l IH]; intros last Hl; [done|].
  apply Forall_cons_1 in Hk as [[m Hm] Hk].
  cbn [next_filter_loop]. unfold bind, module. rewrite Hm, (enabled_in_cons r id l m Hm).
  destruct (enabled m); simpl; [|by apply IH].
  rewrite bool_decide_eq_false_2 by done. simpl. case_bool_decide as Hf.
  - subst. by apply next_filter_at; [|left].
  - apply IH; [done|congruence].
Qed.

Lemma stage_after_lookup act l i f :
  NoDup l -> l !! i = Some f -> (map Some l ++ [act]) !! S i = Some (stage_after act f l).
Proof.
  intros Hd. revert i. induction Hd as [|x l Hx Hd IH]; intros i; [done|]. destruct i as [|i]; simpl.
  - intros [= ->]. rewrite bool_decide_eq_true_2 by done. by destruct l.
  - intros Hi. rewrite bool_decide_eq_false_2; [by apply IH|].
    intros ->. apply Hx. by eapply list_elem_of_lookup_2.
Qed.

Lemma stage_after_absent act l f : f ∉ l -> stage_after act f l = act.
Proof.
  induction l as [|x l IH]; simpl; [done|]. intros [? ?]%not_elem_of_cons.
  rewrite bool_decide_eq_false_2 by congruence. auto.
Qed.

(** The chain built by asking for the next filter, starting from none, is
    the enabled filters in list order followed by the active allocator; a
    filter that is disabled or unknown is followed by the active allocator. *)
Theorem next_filter_pipeline (r : registry) (Hw : wf_registry r) :
  (exists s, stages r !! 0%nat = Some s /\ toi_get_next_filter None r = Some (r, s)) /\
  (forall i f, enabled_filters r !! i = Some f ->
     exists s, stages r !! S i = Some s /\ toi_get_next_filter (Some f) r = Some (r, s)) /\
  (forall f, f ∉ enabled_filters r ->
     toi_get_next_filter (Some f) r = Some (r, toiActiveAllocator r)).
Proof.
  destruct (known_filters r Hw) as [Hk Hd]. unfold toi_get_next_filter, bind, get. split_and!.
  - eexists. rewrite next_filter_at by auto. split; [|done]. unfold stages, enabled_filters.
    by destruct (enabled_in r (toi_filters r)).
  - intros i f Hi. eexists. rewrite next_filter_seek by done. split; [|done].
    apply stage_after_lookup; [|done]. by apply list.NoDup_filter.
  - intros f Hf. rewrite next_filter_seek by done. by rewrite stage_after_absent.
Qed.

(** ** Initialising and cleaning up *)

Definition wants (e : bool) (m : toi_module_ops) : bool :=
  enabled m && Bool.eqb (early m) e && has_initialise m.

(** The modules of [l] whose structure satisfies [p]. *)
Definition such (p : toi_module_ops -> bool) (r : registry) (l : list nat) : list nat :=
  filter (fun id => (match ops r !! id with Some m => p m | None => false end) = true) l.

(** The fields of a module after [initialise_loop], and after [cleanup_one]. *)
Definition after_init (e : bool) (m : toi_module_ops) : toi_module_ops :=
  m {{ header_requested := 0; header_used := 0; initialised := wants e m || initialised m }}.

Definition after_cleanup (m : toi_module_ops) : toi_module_ops :=
  if enabled m && initialised m then m {{ initialised := false }} else m.

Definition cleans (m : toi_module_ops) : bool := enabled m && initialised m && has_cleanup m.

(** [r'] is [r] with the modules of [l] changed by [f] and events [es] more. *)
Definition touched (l : list nat) (f : toi_module_ops -> toi_module_ops) (es : list event) (r r' : registry) : Prop :=
  (forall id, ops r' !! id = if bool_decide (id ∈ l) then f <$> ops r !! id else ops r !! id) /\
  events r' = events r ++ es /\ toi_modules r' = toi_modules r.

Lemma touched_cons id l f es1 es2 r r1 r' :
  id ∉ l -> ops r1 = alter f id (ops r) -> events r1 = events r ++ es1 -> toi_modules r1 = toi_modules r ->
  touched l f es2 r1 r' -> touched (id :: l) f (es1 ++ es2) r r'.
Proof.
  intros Hni Ho He Hm (To & Te & Tm). split_and!; [|by rewrite Te, He, app_assoc|congruence].
  intros i. rewrite To, Ho. destruct (decide (i = id)) as [->|Hne].
  - rewrite bool_decide_eq_false_2 by done. rewrite bool_decide_eq_true_2 by (by left).
    by rewrite lookup_alter_eq.
  - rewrite lookup_alter_ne by done. rewrite (bool_decide_ext (i ∈ id :: l) (i ∈ l)); [done|].
    rewrite elem_of_cons. tauto.
Qed.

(** Changing one module does not change what the filter sees of the others. *)
Lemma filter_ops_ext (p : toi_module_ops -> bool) (r r1 : registry) l :
  (forall i, i ∈ l -> ops r1 !! i = ops r !! i) ->
  such p r1 l =
  such p r l.
Proof. intros Ho. apply filter_bool_ext. intros i Hi. by rewrite Ho. Qed.

Lemma filter_ops_cons (p : toi_module_ops -> bool) (r : registry) id l m :
  ops r !! id = Some m ->
  such p r (id :: l) =
  (if p m then [id] else []) ++
  such p r l.
Proof.
  intros Hm. unfold such. rewrite filter_cons.
  destruct (decide _) as [E|E]; rewrite Hm in E; destruct (p m); congruence || done.
Qed.

Lemma alter_ops_other id (g : toi_module_ops -> toi_module_ops) (o : gmap nat toi_module_ops) (l : list nat) :
  id ∉ l -> forall i, i ∈ l -> alter g id o !! i = o !! i.
Proof. intros Hni i Hi. rewrite lookup_alter_ne; [done|]. by intros ->. Qed.

Lemma cleanup_loop_spec fc l r :
  NoDup l -> known r l ->
  exists r', for_each l (cleanup_one fc) r = Some (r', tt) /\
    touched l after_cleanup (map (fun id => CleanedUp id fc)
      (such cleans r l)) r r'.
Proof.
  intros Hd. revert r. induction Hd as [|id l Hx Hd IH]; intros r Hk.
  - exists r. split; [done|]. split_and!; [|by rewrite app_nil_r|done].
    intros i. by rewrite bool_decide_eq_false_2 by apply not_elem_of_nil.
  - apply Forall_cons_1 in Hk as [[m Hm] Hk]. rewrite (filter_ops_cons cleans r id l m Hm), map_app.
    assert (exists r1, cleanup_one fc id r = Some (r1, tt) /\
      ops r1 = alter after_cleanup id (ops r) /\
      events r1 = events r ++ map (fun id => CleanedUp id fc) (if cleans m then [id] else []) /\
      toi_modules r1 = toi_modules r) as (r1 & E1 & Ho & He & Em).
    { unfold cleanup_one, bind, module, cleans. rewrite Hm.
      assert (negb (enabled m) || negb (initialised m) = negb (enabled m && initialised m)) as ->
        by (by destruct (enabled m), (initialised m)).
      destruct (enabled m && initialised m) eqn:Ei; simpl.
      - destruct (has_cleanup m); eexists; (split; [done|]); simpl; rewrite ?app_nil_r; (split_and!; [|done|done]);
          apply (alter_ext (M := gmap nat)); intros ? ?; simplify_eq; unfold after_cleanup; by rewrite Ei.
      - exists r. rewrite app_nil_r. split_and!; try done. symmetry.
        apply (alter_id (M := gmap nat)). intros ? ?. simplify_eq. unfold after_cleanup. by rewrite Ei. }
    destruct (IH r1) as (r' & E2 & Ht).
    { eapply Forall_impl; [exact Hk|]. intros i. rewrite Ho. by rewrite lookup_alter_is_Some. }
    exists r'. cbn [for_each]. unfold bind. rewrite E1. split; [done|].
    rewrite (filter_ops_ext cleans r r1) in Ht by (rewrite Ho; by apply alter_ops_other).
    eapply touched_cons; eauto.
Qed.

(** Where [initialise_loop] stops: at the first module that wants to be
    initialised and fails.  [r1] is the registry when cleaning up starts. *)
Definition failed_at (env : module_env) (sc e : bool) (r r1 : registry) (l1 : list nat) (id : nat) : Prop :=
  Forall (fun i => initialise env i sc = 0) (such (wants e) r l1) /\
  (exists m, ops r !! id = Some m /\ wants e m = true) /\ initialise env id sc <> 0 /\
  (forall i, ops r1 !! i = if bool_decide (i ∈ l1) then after_init e <$> ops r !! i
    else if bool_decide (i = id) then (fun m => m {{ header_requested := 0; header_used := 0 }}) <$> ops r !! i
    else ops r !! i) /\
  events r1 = events r ++ map (fun i => Initialised i sc) (such (wants e) r l1 ++ [id]) /\
  toi_modules r1 = toi_modules r.

Lemma failed_at_cons env sc e r r1 r2 x l1 id :
  x ∉ l1 -> x <> id -> is_Some (ops r !! x) ->
  (forall m, ops r !! x = Some m -> wants e m = true -> initialise env x sc = 0) ->
  ops r1 = alter (after_init e) x (ops r) ->
  events r1 = events r ++ map (fun i => Initialised i sc) (such (wants e) r [x]) ->
  toi_modules r1 = toi_modules r ->
  failed_at env sc e r1 r2 l1 id -> failed_at env sc e r r2 (x :: l1) id.
Proof.
  intros Hx Hne [m Hm] Hok Ho He Ht (Hall & (mi & Hmi & Hwi) & Hf & Fo & Fe & Ft).
  assert (such (wants e) r1 l1 = such (wants e) r l1) as Es
    by (apply filter_ops_ext; rewrite Ho; by apply alter_ops_other).
  assert (such (wants e) r (x :: l1) = such (wants e) r [x] ++ such (wants e) r l1) as Ec.
  { rewrite !(filter_ops_cons _ _ _ _ _ Hm). by destruct (wants e m). }
  rewrite Ho, lookup_alter_ne in Hmi by done. split_and!; try done; [|by eauto| |..].
  - rewrite Ec, <- Es. apply Forall_app. split; [|done]. rewrite (filter_ops_cons _ _ _ _ _ Hm).
    destruct (wants e m) eqn:E; repeat constructor. by eapply Hok.
  - intros i. rewrite Fo, Ho. destruct (decide (i = x)) as [->|Hi].
    + rewrite lookup_alter_eq, !bool_decide_eq_false_2 by done.
      by rewrite bool_decide_eq_true_2 by (by left).
    + rewrite lookup_alter_ne by done. rewrite (bool_decide_ext (i ∈ x :: l1) (i ∈ l1)); [done|].
      rewrite elem_of_cons. tauto.
  - by rewrite Fe, He, Ec, Es, !map_app, !app_assoc.
  - congruence.
Qed.

Lemma initialise_loop_cons env sc e x l r m :
  ops r !! x = Some m ->
  ((wants e m = true -> initialise env x sc = 0) /\ exists r1,
    initialise_loop env sc e (x :: l) r = initialise_loop env sc e l r1 /\
    ops r1 = alter (after_init e) x (ops r) /\
    events r1 = events r ++ map (fun i => Initialised i sc) (such (wants e) r [x]) /\
    toi_modules r1 = toi_modules r) \/
  (exists r1, failed_at env sc e r r1 [] x /\
    initialise_loop env sc e (x :: l) r =
      (bind (toi_cleanup_modules sc) (fun _ => ret (initialise env x sc))) r1).
Proof.
  intros Hm. cbn [initialise_loop]. unfold bind at 1, update_module at 1, modify at 1.
  unfold bind at 1, module. simpl. rewrite lookup_alter_eq, Hm. simpl.
  assert (negb (enabled m) || negb (Bool.eqb (early m) e) || negb (has_initialise m) = negb (wants e m)) as ->
    by (unfold wants; by destruct (enabled m), (Bool.eqb (early m) e), (has_initialise m)).
  rewrite (filter_ops_cons _ _ _ _ _ Hm). destruct (wants e m) eqn:Ew; simpl.
  - unfold bind at 1, modify. simpl. destruct (initialise env x sc =? 0) eqn:Ei; breflect.
    + left. split; [done|]. eexists. split; [reflexivity|]. simpl. split_and!; try done.
      apply (map_eq (M := gmap nat)). intros i. destruct (decide (i = x)) as [->|].
      * rewrite !lookup_alter_eq, Hm. simpl. unfold after_init. by rewrite Ew.
      * by rewrite !lookup_alter_ne.
    + right. eexists. split; [|reflexivity]. split_and!; simpl; eauto.
      intros i. case_bool_decide as Hi.
      * subst. by rewrite lookup_alter_eq.
      * by rewrite lookup_alter_ne by congruence.
  - left. split; [done|]. eexists. split; [reflexivity|]. simpl. rewrite app_nil_r. split_and!; try done.
    apply (alter_ext (M := gmap nat)). intros ? ?. simplify_eq. unfold after_init. by rewrite Ew.
Qed.

Lemma initialise_loop_spec env sc e l r :
  NoDup l -> known r l ->
  (Forall (fun i => initialise env i sc = 0) (such (wants e) r l) /\
   exists r', initialise_loop env sc e l r = Some (r', 0) /\
     touched l (after_init e) (map (fun i => Initialised i sc) (such (wants e) r l)) r r') \/
  (exists l1 id l2 r1, l = l1 ++ id :: l2 /\ failed_at env sc e r r1 l1 id /\
     initialise_loop env sc e l r = (bind (toi_cleanup_modules sc) (fun _ => ret (initialise env id sc))) r1).
Proof.
  intros Hd. revert r. induction Hd as [|x l Hx Hd IH]; intros r Hk.
  - left. split; [constructor|]. exists r. split; [done|]. split_and!; [|by rewrite app_nil_r|done].
    intros i. by rewrite bool_decide_eq_false_2 by apply not_elem_of_nil.
  - apply Forall_cons_1 in Hk as [[m Hm] Hk].
    destruct (initialise_loop_cons env sc e x l r m Hm) as [(Hok & r1 & -> & Ho & He & Et)|(r1 & Hf & ->)].
    2: { right. exists [], x, l, r1. done. }
    assert (known r1 l) as Hk1.
    { eapply Forall_impl; [exact Hk|]. intros i. rewrite Ho. by rewrite lookup_alter_is_Some. }
    assert (such (wants e) r1 l = such (wants e) r l) as Es
      by (apply filter_ops_ext; rewrite Ho; by apply alter_ops_other).
    destruct (IH r1 Hk1) as [(Hall & r' & -> & Ht)|(l1 & id & l2 & r2 & -> & Hf & ->)]; [left|right].
    + rewrite (filter_ops_cons _ _ _ _ _ Hm), map_app. rewrite Es in Hall, Ht. split.
      * apply Forall_app. split; [|done]. destruct (wants e m); repeat constructor. auto.
      * exists r'. split; [done|]. eapply touched_cons; eauto.
        rewrite He, (filter_ops_cons _ _ _ _ _ Hm). by rewrite app_nil_r.
    + exists (x :: l1), id, l2, r2. split; [done|]. split; [|done].
      apply not_elem_of_app in Hx as [Hx1 [Hx2 _]%not_elem_of_cons].
      eapply failed_at_cons; eauto. intros m' Hm'. by simplify_eq.
Qed.

(** The modules that a failure after [l1] has to clean up. *)
Definition to_clean (e : bool) (r : registry) (l1 : list nat) : list nat :=
  filter (fun i => (match ops r !! i with
    | Some m => enabled m && (initialised m || wants e m && bool_decide (i ∈ l1)) && has_cleanup m
    | None => false end) = true) (toi_modules r).

Lemma failed_to_clean env sc e r r1 l1 id :
  id ∉ l1 -> failed_at env sc e r r1 l1 id -> such cleans r1 (toi_modules r1) = to_clean e r l1.
Proof.
  intros Hni (_ & _ & _ & Fo & _ & Ft). unfold such, to_clean. rewrite Ft. apply filter_bool_ext.
  intros i _. rewrite Fo. case_bool_decide as Hi; [|case_bool_decide as Hid];
    destruct (ops r !! i) as [m|]; simpl; try done; unfold cleans; simpl.
  - by rewrite andb_true_r, (orb_comm (wants e m)).
  - by rewrite andb_false_r, orb_false_r.
  - by rewrite andb_false_r, orb_false_r.
Qed.

(** Initialising the modules is all or nothing.  Either every enabled
    module of the wanted stage that has an initialise function answered 0,
    each was called once, in list order, and each is now marked initialised;
    or some module failed, its error is returned, no module after it was
    called, and every enabled module that had been initialised is cleaned up
    again, the failing one not included: none is left initialised. *)
Theorem initialise_all_or_nothing (env : module_env) (sc e : bool) (r : registry) (Hw : wf_registry r) :
  exists r' res, toi_initialise_modules env sc e r = Some (r', res) /\
  ((res = 0 /\ Forall (fun i => initialise env i sc = 0) (such (wants e) r (toi_modules r)) /\
    events r' = events r ++ map (fun i => Initialised i sc) (such (wants e) r (toi_modules r)) /\
    (forall i m, i ∈ toi_modules r -> ops r !! i = Some m -> ops r' !! i = Some (after_init e m))) \/
   (exists l1 id l2, toi_modules r = l1 ++ id :: l2 /\ res = initialise env id sc /\ res <> 0 /\
    events r' = events r ++ map (fun i => Initialised i sc) (such (wants e) r l1 ++ [id]) ++
                map (fun i => CleanedUp i sc) (to_clean e r l1) /\
    (forall i m, i ∈ toi_modules r -> ops r' !! i = Some m -> enabled m = true -> initialised m = false))).
Proof.
  pose proof (known_modules r Hw) as Hk. pose proof (wr_distinct r Hw) as Hd.
  unfold toi_initialise_modules, bind at 1, get.
  destruct (initialise_loop_spec env sc e _ r Hd Hk)
    as [(Hall & r' & -> & To & Te & _)|(l1 & id & l2 & r1 & El & Hf & ->)].
  - exists r', 0. split; [done|]. left. split_and!; try done. intros i m Hi Hm. rewrite To, Hm.
    by rewrite bool_decide_eq_true_2.
  - assert (id ∉ l1) as Hni.
    { rewrite El in Hd. apply NoDup_app in Hd as (_ & Hd & _). intros Hi. apply (Hd _ Hi). by left. }
    pose proof (failed_to_clean _ _ _ _ _ _ _ Hni Hf) as Hc. destruct Hf as (_ & _ & Hne & Fo & Fe & Ft).
    assert (known r1 (toi_modules r1)) as Hk1.
    { unfold known. rewrite Ft. eapply Forall_impl; [exact Hk|]. intros i. simpl. rewrite Fo.
      repeat case_bool_decide; by rewrite ?fmap_is_Some. }
    destruct (cleanup_loop_spec sc (toi_modules r1) r1) as (r2 & E2 & To & Te & _);
      [by rewrite Ft|done|].
    unfold toi_cleanup_modules, bind, get. rewrite E2. exists r2, (initialise env id sc). split; [done|]. right.
    exists l1, id, l2. split_and!; try done.
    + by rewrite Te, Fe, Hc, app_assoc.
    + intros i m Hi. rewrite To, Ft, bool_decide_eq_true_2 by done.
      destruct (ops r1 !! i) as [m1|]; [|done]. intros [= <-]. unfold after_cleanup.
      destruct (enabled m1 && initialised m1) eqn:E; simpl; [done|]. by intros Hen; rewrite Hen in E.
Qed.

(** ** References *)

Definition bump (d : Z) (l : list nat) (refs : gmap nat Z) : gmap nat Z :=
  foldr (fun id => alter (fun n => n + d) id) refs l.

Lemma alter_twice {A} (f g h : A -> A) (m : gmap nat A) i :
  (forall x, f (g x) = h x) -> alter f i (alter g i m) = alter h i m.
Proof.
  intros Hh. apply (map_eq (M := gmap nat)). intros j. destruct (decide (j = i)) as [->|].
  - rewrite !lookup_alter_eq. destruct (m !! i); [|done]. simpl. by rewrite Hh.
  - by rewrite !lookup_alter_ne.
Qed.

Lemma bump_alter d d' id l refs :
  alter (fun n => n + d') id (bump d l refs) = bump d l (alter (fun n => n + d') id refs).
Proof.
  induction l as [|x l IH]; [done|]. simpl. rewrite <- IH. generalize (bump d l refs). intros m.
  destruct (decide (x = id)) as [->|Hne].
  - rewrite !(alter_twice _ _ (fun n => n + d + d')) by (intros; lia). done.
  - apply (map_eq (M := gmap nat)). intros j.
    destruct (decide (j = id)) as [->|]; [|destruct (decide (j = x)) as [->|]];
      repeat (rewrite lookup_alter_eq || rewrite lookup_alter_ne by done); done.
Qed.

Lemma bump_inverse l refs : bump (-1) l (bump 1 l refs) = refs.
Proof.
  revert refs. induction l as [|x l IH]; intros refs; [done|]. simpl. rewrite <- bump_alter, IH.
  rewrite (alter_twice _ _ (fun n => n)) by (intros; lia). by apply (alter_id (M := gmap nat)).
Qed.

(** The registry with the references of the modules of [l] changed by [d]. *)
Definition bumped (d : Z) (l : list nat) (r : registry) : registry :=
  r {{ module_refs := bump d l (module_refs r) }}.

Lemma bumped_cons d x l r : bumped d (x :: l) r = bumped d l (bumped d [x] r).
Proof. unfold bumped. simpl. by rewrite bump_alter. Qed.

Lemma module_put_bumped id r : module_put id r = Some (bumped (-1) [id] r, tt).
Proof. done. Qed.

Lemma put_until_spec l1 id l2 r : id ∉ l1 -> put_until (l1 ++ id :: l2) id r = Some (bumped (-1) l1 r, tt).
Proof.
  revert r. induction l1 as [|x l1 IH]; intros r; simpl.
  - intros _. rewrite bool_decide_eq_true_2 by done. by destruct r.
  - intros [Hx Hni]%not_elem_of_cons. rewrite bool_decide_eq_false_2 by congruence.
    unfold bind. rewrite module_put_bumped, IH by done. by rewrite <- bumped_cons.
Qed.

Lemma put_modules_spec r : toi_put_modules r = Some (bumped (-1) (toi_modules r) r, tt).
Proof.
  unfold toi_put_modules, bind at 1, get. generalize (toi_modules r). intros l. revert r.
  induction l as [|x l IH]; intros r; cbn [for_each]; [by destruct r|].
  unfold bind. by rewrite module_put_bumped, IH, <- bumped_cons.
Qed.

Lemma get_loop_spec env pre l r :
  NoDup (pre ++ l) ->
  (Forall (fun i => try_module_get env i = true) l /\
    get_loop env (pre ++ l) l (bumped 1 pre r) = Some (bumped 1 (pre ++ l) r, 0)) \/
  (Exists (fun i => try_module_get env i = false) l /\
    get_loop env (pre ++ l) l (bumped 1 pre r) = Some (r, - EINVAL)).
Proof.
  revert pre. induction l as [|x l IH]; intros pre Hd; cbn [get_loop].
  - left. rewrite app_nil_r. split; [constructor|done].
  - destruct (try_module_get env x) eqn:E.
    + assert (pre ++ x :: l = (pre ++ [x]) ++ l) as Ea by (by rewrite <- app_assoc).
      rewrite Ea in *. unfold bind, modify.
      match goal with |- context [get_loop _ _ l ?st] =>
        replace st with (bumped 1 (pre ++ [x]) r) end.
      2: { unfold bumped. simpl. f_equal. rewrite bump_alter. unfold bump. by rewrite foldr_app. }
      destruct (IH _ Hd) as [[Hf Hg]|[Hf Hg]]; [left|right]; (split; [|done]).
      * by constructor.
      * by right.
    + right. split; [by left|]. unfold bind. rewrite put_until_spec.
      * unfold bumped. simpl. rewrite bump_inverse. by destruct r.
      * apply NoDup_app in Hd as (_ & Hd & _). intros Hi. apply (Hd _ Hi). by left.
Qed.

(** Taking references on the modules is all or nothing: success takes one
    on each listed module and [toi_put_modules] then restores the counts;
    when one module cannot be had, [-EINVAL] is returned and every count is
    what it was. *)
Theorem get_modules_all_or_nothing (env : module_env) (r : registry) (Hw : wf_registry r) :
  (Forall (fun i => try_module_get env i = true) (toi_modules r) /\
   exists r', toi_get_modules env r = Some (r', 0) /\
     module_refs r' = bump 1 (toi_modules r) (module_refs r) /\ toi_put_modules r' = Some (r, tt)) \/
  (Exists (fun i => try_module_get env i = false) (toi_modules r) /\
   toi_get_modules env r = Some (r, - EINVAL)).
Proof.
  assert (bumped 1 [] r = r) as E by (by destruct r).
  destruct (get_loop_spec env [] (toi_modules r) r (wr_distinct r Hw)) as [[Hf Hg]|[Hf Hg]];
    rewrite E in Hg; simpl in Hg; [left|right]; (split; [done|]).
  - eexists. split; [exact Hg|]. split; [done|]. rewrite put_modules_spec. unfold bumped. simpl.
    rewrite bump_inverse. by destruct r.
  - exact Hg.
Qed.

(** ** A concrete registry: compressor, a hidden helper, two allocators *)

Definition sample_ops (t : module_type) (nm : string) : toi_module_ops :=
  ModuleOps t nm (Some nm) None 0 false false false None None None true true 0 0 true 1.

Definition sample_memory : gmap nat toi_module_ops :=
  list_to_map [(1%nat, sample_ops FILTER_MODULE "compression"); (2%nat, sample_ops WRITER_MODULE "swap");
               (3%nat, sample_ops WRITER_MODULE "file"); (4%nat, sample_ops MISC_HIDDEN_MODULE "block_io");
               (5%nat, sample_ops FILTER_MODULE "compression")].

(** The file allocator's initialisation fails; so does getting module 4. *)
Definition sample_module_env : module_env :=
  ModuleEnv (fun _ _ => 0) (fun _ => 7) 1 (fun id _ => if (id =? 3)%nat then - EINVAL else 0)
    (fun id => negb (id =? 4)%nat).

(** Run an operation that does not crash. *)
Definition ran {A} (m : M registry A) (r : registry) : registry :=
  match m r with Some (r', _) => r' | None => r end.

Definition sample_registered : registry :=
  foldl (fun r id => ran (toi_register_module sample_module_env id) r) (boot_registry sample_memory)
    [4; 1; 5; 2; 3]%nat.

Definition sample_registry : registry :=
  (ran (toi_move_module_tail 2) sample_registered) {{ toiActiveAllocator := Some 2%nat }}.

Lemma ran_register env id r :
  Z.of_nat (length (toi_modules r)) + 1 < 2 ^ 31 -> rtc registry_step r (ran (toi_register_module env id) r).
Proof.
  intros Hl. unfold ran. destruct (toi_register_module env id r) as [[r' res]|] eqn:E; [|apply rtc_refl].
  apply rtc_once. by eapply step_register.
Qed.

Lemma sample_registered_reachable : rtc registry_step (boot_registry sample_memory) sample_registered.
Proof.
  unfold sample_registered. cbn [foldl].
  do 5 (etrans; [|apply ran_register; vm_compute; reflexivity]). apply rtc_refl.
Qed.

Lemma sample_reachable : rtc registry_step (boot_registry sample_memory) sample_registry.
Proof.
  etrans; [exact sample_registered_reachable|].
  eapply rtc_l with (ran (toi_move_module_tail 2) sample_registered).
  - eapply (step_move 2%nat); [|vm_compute; reflexivity].
    apply (bool_decide_eq_true_1 (2%nat ∈ toi_modules sample_registered)). vm_compute. reflexivity.
  - apply rtc_once, step_select. vm_compute. right. left.
Qed.

Lemma sample_registry_wf : wf_registry sample_registry.
Proof.
  pose proof sample_reachable as Hr. revert Hr. generalize (boot_wf sample_memory).
  generalize (boot_registry sample_memory). intros r0 Hw Hr. induction Hr; eauto using registry_step_wf.
Qed.

Lemma registry_invariant_witness :
  toi_modules sample_registry = [4; 1; 3; 2]%nat /\ toiAllocators sample_registry = [3; 2]%nat /\
  wf_registry sample_registry.
Proof.
  split; [vm_compute; reflexivity|]. split; [vm_compute; reflexivity|].
  apply (registry_invariant sample_memory). exact sample_reachable.
Defined.

Lemma next_filter_pipeline_witness :
  stages sample_registry = [Some 1%nat; Some 2%nat] /\
  toi_get_next_filter (Some 1%nat) sample_registry = Some (sample_registry, Some 2%nat).
Proof.
  split; [vm_compute; reflexivity|].
  destruct (proj1 (proj2 (next_filter_pipeline sample_registry sample_registry_wf)) 0%nat 1%nat) as (s & Hs & ->);
    [vm_compute; reflexivity|].
  vm_compute in Hs. by injection Hs as <-.
Defined.

Lemma initialise_all_or_nothing_witness :
  exists r', toi_initialise_modules sample_module_env true false sample_registry = Some (r', - EINVAL) /\
    events r' = [Initialised 4 true; Initialised 1 true; Initialised 3 true; CleanedUp 4 true; CleanedUp 1 true] /\
    forall i m, i ∈ [4; 1; 3; 2]%nat -> ops r' !! i = Some m -> enabled m = true -> initialised m = false.
Proof.
  destruct (initialise_all_or_nothing sample_module_env true false sample_registry sample_registry_wf)
    as (r' & res & E & [(-> & _)|(l1 & id & l2 & Em & _ & _ & _ & Hi)]).
  - vm_compute in E. discriminate E.
  - assert (res = - EINVAL) as -> by (vm_compute in E; by injection E as _ <-).
    exists r'. split; [exact E|]. split; [vm_compute in E; by injection E as <- |].
    intros i m Hin. apply Hi. vm_compute. exact Hin.
Defined.

Lemma get_modules_all_or_nothing_witness :
  toi_get_modules sample_module_env sample_registry = Some (sample_registry, - EINVAL).
Proof.
  destruct (get_modules_all_or_nothing sample_module_env sample_registry sample_registry_wf)
    as [[Hf _]|[_ H]]; [|exact H].
  exfalso. apply Forall_inv in Hf. vm_compute in Hf. discriminate Hf.
Defined.
