(* ===== verification/CString.v ===== *)
(** * C strings in byte arrays

    [strlen], [strncpy], [strncmp] and [memcpy] (lib/string.c) on the byte arrays the
    modules keep their algorithm names in.  [None] is an access outside the
    array. *)

From S2P Require Import Prelude.
From stdpp Require Import numbers base list.
#[local] Open Scope Z_scope.

(** The characters before the terminating NUL. *)
Fixpoint c_string (a : list Z) : option (list Z) :=
  match a with
  | [] => None
  | b :: a' => if b =? 0 then Some [] else cons b <$> c_string a'
  end.

Definition strlen (a : list Z) : option Z := (fun s => Z.of_nat (length s)) <$> c_string a.

(** At most [n] characters, up to the NUL. *)
Fixpoint c_prefix (n : nat) (a : list Z) : option (list Z) :=
  match n with
  | O => Some []
  | S n' =>
      match a with
      | [] => None
      | b :: a' => if b =? 0 then Some [] else cons b <$> c_prefix n' a'
      end
  end.

(** [strncpy] pads with NULs up to [n]. *)
Definition strncpy (dst src : list Z) (n : nat) : option (list Z) :=
  if (n <=? length dst)%nat then
    s ← c_prefix n src;
    Some (s ++ repeat 0 (n - length s) ++ drop n dst)
  else None.

(** Whether [strncmp] finds the strings equal. *)
Fixpoint strncmp_eq (a b : list Z) (n : nat) : option bool :=
  match n with
  | O => Some true
  | S n' =>
      match a, b with
      | x :: a', y :: b' =>
          if negb (x =? y) then Some false
          else if x =? 0 then Some true
          else strncmp_eq a' b' n'
      | _, _ => None
      end
  end.

(** [memcpy] to the start of a buffer. *)
Definition memcpy (dst bs : list Z) : option (list Z) :=
  if (length bs <=? length dst)%nat then Some (bs ++ drop (length bs) dst) else None.

(** A proper name: terminated inside its array. *)
Lemma c_string_split a s : c_string a = Some s -> exists t, a = s ++ 0 :: t /\ Forall (fun b => b <> 0) s.
Proof.
  revert s. induction a as [|b a IH]; intros s; simpl; [done|].
  destruct (b =? 0) eqn:E; breflect.
  - intros [= <-]. exists a. subst. split; [done|constructor].
  - destruct (c_string a) as [s'|]; [|done]. intros [= <-]. destruct (IH s' eq_refl) as (t & -> & Hf).
    exists t. split; [done|]. by constructor.
Qed.

Lemma c_string_app s t : Forall (fun b => b <> 0) s -> c_string (s ++ 0 :: t) = Some s.
Proof.
  induction 1 as [|b s Hb _ IH]; [done|]. simpl. rewrite (proj2 (Z.eqb_neq b 0)) by done. by rewrite IH.
Qed.

Lemma c_prefix_app s t n :
  Forall (fun b => b <> 0) s -> (length s < n)%nat -> c_prefix n (s ++ 0 :: t) = Some s.
Proof.
  intros Hs. revert n. induction Hs as [|b s Hb _ IH]; intros [|n]; simpl; try lia; [done|].
  intros Hn. rewrite (proj2 (Z.eqb_neq b 0)) by done. by rewrite IH by lia.
Qed.

(** Copying a whole string with its NUL. *)
Lemma strncpy_whole dst s t :
  Forall (fun b => b <> 0) s -> (S (length s) <= length dst)%nat ->
  strncpy dst (s ++ 0 :: t) (S (length s)) = Some (s ++ 0 :: drop (S (length s)) dst).
Proof.
  intros Hs Hl. unfold strncpy. rewrite (proj2 (Nat.leb_le _ _)) by lia.
  rewrite c_prefix_app by (auto; lia). simpl. f_equal. f_equal.
  by replace (S (length s) - length s)%nat with 1%nat by lia.
Qed.

(** Comparing a name with a whole string decides whether they are the same string. *)
Lemma strncmp_whole a sa sb t :
  c_string a = Some sa -> Forall (fun b => b <> 0) sb ->
  strncmp_eq a (sb ++ 0 :: t) (S (length sb)) = Some (bool_decide (sa = sb)).
Proof.
  revert a sa. induction sb as [|y sb IH]; intros a sa Ha Hb;
    (destruct a as [|x a]; [done|]); simpl in Ha |- *.
  - destruct (x =? 0) eqn:E; simpl; [by injection Ha as <-|].
    destruct (c_string a); [|done]. injection Ha as <-. done.
  - apply Forall_cons_1 in Hb as [Hy Hb]. destruct (x =? 0) eqn:E; breflect.
    + injection Ha as <-. subst. by rewrite (proj2 (Z.eqb_neq 0 y)) by congruence.
    + destruct (c_string a) as [s|] eqn:Hs; [|done]. injection Ha as <-.
      destruct (x =? y) eqn:Exy; breflect; simpl.
      * subst. rewrite (IH a s Hs Hb). f_equal. apply bool_decide_ext. split; congruence.
      * rewrite bool_decide_eq_false_2 by congruence. done.
Qed.

Lemma memcpy_take dst bs r : memcpy dst bs = Some r -> take (length bs) r = bs /\ length r = length dst.
Proof.
  unfold memcpy. destruct (_ <=? _)%nat eqn:E; [|done]. apply Nat.leb_le in E. intros [= <-].
  split; [by rewrite take_app_length|]. rewrite length_app, length_drop. lia.
Qed.

(** Overwriting a whole buffer. *)
Lemma memcpy_all dst bs : length bs = length dst -> memcpy dst bs = Some bs.
Proof.
  intros Hl. unfold memcpy. rewrite (proj2 (Nat.leb_le _ _)) by lia. by rewrite drop_ge, app_nil_r by lia.
Qed.
