(* ===== verification/Compression.v ===== *)
(** * The compression filter: kernel/power/tuxonice_compress.c

    One [cpu_context] per online processor, the page path of the filter over
    the next driver of the pipeline, and the configuration it keeps in the
    image header.  The crypto API's compression transforms are the interface
    [comp_alg]; the driver below is the class [PageDriver].  A call on a
    [NULL] buffer, or one that would overrun a buffer, is [None]. *)

From S2P Require Import Prelude States CString BlockIO BlockIOFacts BlockIORead.
From stdpp Require Import numbers base list.
#[local] Open Scope Z_scope.
#[local] Open Scope step_scope.

(** ** The driver below, and the transforms *)

(** [write_page index buffer size]; [read_page buffer] answers the index, the
    size, the buffer's new contents and the result.  [abort_io] is
    [abort_hibernate] with [TOI_FAILED_IO]. *)
Class PageDriver (S : Type) := {
  write_page : Z -> page -> Z -> M S Z;
  read_page : page -> M S (Z * Z * page * Z);
  abort_io : M S unit
}.

(** [crypto_comp_compress] and [crypto_comp_decompress]: source bytes and the
    capacity passed in; result, length passed out, bytes written. *)
Record comp_alg := CompAlg {
  crypto_comp_compress : list Z -> Z -> Z * Z * list Z;
  crypto_comp_decompress : list Z -> Z -> Z * Z * list Z
}.

Record cpu_context := CpuContext {
  page_buffer : option page;
  transform : option comp_alg;
  len : Z;
  output_buffer : option (list Z)
}.

#[export] Instance cpu_context_eta : Eta cpu_context := fun c =>
  CpuContext (page_buffer c) (transform c) (len c) (output_buffer c).

Record compress_state := CompressState {
  contexts : list cpu_context;
  toi_compressor_name : list Z;
  toi_expected_compression : Z;
  toi_compress_bytes_in : Z;
  toi_compress_bytes_out : Z;
  toi_compress_prepare_result : Z;
  compress_enabled : bool;
  compress_memory : list bool;     (* outcomes of the allocations to come *)
  compress_live : Z                (* transforms, pages and buffers held *)
}.

#[export] Instance compress_state_eta : Eta compress_state := fun c =>
  CompressState (contexts c) (toi_compressor_name c) (toi_expected_compression c)
    (toi_compress_bytes_in c) (toi_compress_bytes_out c) (toi_compress_prepare_result c)
    (compress_enabled c) (compress_memory c) (compress_live c).

(** ** Buffers and transforms *)

Definition held (c : cpu_context) : Z :=
  (if transform c is Some _ then 1 else 0) + (if page_buffer c is Some _ then 1 else 0) +
  (if output_buffer c is Some _ then 1 else 0).

Definition empty_context (c : cpu_context) : cpu_context :=
  c {{ page_buffer := None; transform := None; output_buffer := None }}.

Definition toi_compress_cleanup (toi_or_resume : bool) (s : compress_state) : compress_state :=
  if toi_or_resume then
    s {{ contexts := map empty_context (contexts s);
         compress_live := compress_live s - foldr Z.add 0 (map held (contexts s)) }}
  else s.

(** A fresh output buffer, two pages long. *)
Definition fresh_output : list Z := repeat 0 (2 * Z.to_nat PAGE_SIZE).

Definition comp_alloc (mem : list bool) : list bool * bool :=
  match mem with [] => ([], true) | b :: mem' => (mem', b) end.

Section Compress.
(** [crypto_alloc_comp] by name. *)
Context (crypto_alloc_comp : list Z -> option comp_alg).

(** One processor's turn of the loop: its context, the memory left, the
    resources it newly holds, the result. *)
Definition prepare_context (name : list Z) (mem : list bool) (c : cpu_context)
    : cpu_context * list bool * Z * Z :=
  match crypto_alloc_comp name with
  | None => (c {{ transform := None }}, mem, 0, 1)
  | Some alg =>
      let c := c {{ transform := Some alg }} in
      let '(mem, ok) := comp_alloc mem in
      if ok then
        let c := c {{ page_buffer := Some zero_page }} in
        let '(mem, ok) := comp_alloc mem in
        if ok then (c {{ output_buffer := Some fresh_output }}, mem, 3, 0)
        else (c {{ output_buffer := None }}, mem, 2, - ENOMEM)
      else (c {{ page_buffer := None }}, mem, 1, - ENOMEM)
  end.

Fixpoint prepare_contexts (name : list Z) (mem : list bool) (cs : list cpu_context)
    : list cpu_context * list bool * Z * Z :=
  match cs with
  | [] => ([], mem, 0, 0)
  | c :: cs' =>
      let '(c, mem, n, r) := prepare_context name mem c in
      if r =? 0 then
        let '(cs', mem, n', r) := prepare_contexts name mem cs' in (c :: cs', mem, n + n', r)
      else (c :: cs', mem, n, r)
  end.

Definition toi_compress_crypto_prepare (s : compress_state) : option (compress_state * Z) :=
  name ← c_string (toi_compressor_name s);
  match name with
  | [] => Some (s, 1)
  | _ =>
      let '(cs, mem, n, r) := prepare_contexts name (compress_memory s) (contexts s) in
      Some (s {{ contexts := cs; compress_memory := mem; compress_live := compress_live s + n }}, r)
  end.

(** [next_driver] says whether [toi_get_next_filter] found one. *)
Definition toi_compress_init (toi_or_resume next_driver : bool) (s : compress_state)
    : option (compress_state * Z) :=
  if negb toi_or_resume then Some (s, 0)
  else
    let s := s {{ toi_compress_bytes_in := 0; toi_compress_bytes_out := 0 }} in
    if negb next_driver then Some (s, - ECHILD)
    else
      '(s, r) ← toi_compress_crypto_prepare s;
      Some (s {{ toi_compress_prepare_result := r }}, 0).

Definition toi_compress_rw_init (writing : bool) (s : compress_state) : compress_state * Z :=
  if toi_compress_prepare_result s =? 0 then (s, 0)
  else if writing then (s {{ compress_enabled := false }}, 0)
  else (s, - ENODEV).

(** ** The page path *)

Section Pages.
Context {S : Type} `{PageDriver S}.

Definition below {A} (m : M S A) : M (compress_state * S) A := fun '(c, s) =>
  match m s with Some (s', a) => Some ((c, s'), a) | None => None end.

Definition set_context (cpu : nat) (ctx : cpu_context) (s : compress_state) : compress_state :=
  s {{ contexts := <[cpu := ctx]> (contexts s) }}.

(** The transform's run: the context afterwards, its page buffer refilled when the
    data shrank, and the result with the data to pass on. *)
Definition compress_page (ctx : cpu_context) (alg : comp_alg) (buffer : page) (buf_size : Z)
    : option (cpu_context * page * Z) :=
  let '(ret, len', out) := crypto_comp_compress alg (take (Z.to_nat buf_size) buffer) buf_size in
  obuf ← output_buffer ctx;
  obuf ← memcpy obuf out;
  let ctx := ctx {{ len := len'; output_buffer := Some obuf }} in
  if (ret =? 0) && (len' <? buf_size) then
    pbuf ← page_buffer ctx;
    pbuf ← memcpy pbuf (take (Z.to_nat len') obuf);
    Some (ctx {{ page_buffer := Some pbuf }}, pbuf, len')
  else Some (ctx, buffer, buf_size).

Definition toi_compress_write_page (cpu : nat) (index : Z) (buffer : page) (buf_size : Z)
    : M (compress_state * S) Z := fun '(c, s) =>
  ctx ← contexts c !! cpu;
  match transform ctx with
  | None => below (write_page index buffer buf_size) (c, s)
  | Some alg =>
      '(ctx, data, size) ← compress_page ctx alg buffer buf_size;
      let c := (set_context cpu ctx c) {{ toi_compress_bytes_in := u64 (toi_compress_bytes_in c + buf_size);
                 toi_compress_bytes_out := u64 (toi_compress_bytes_out c + len ctx) }} in
      below (write_page index data size) (c, s)
  end.

Definition toi_compress_read_page (cpu : nat) (buffer : page)
    : M (compress_state * S) (Z * Z * page * Z) := fun '(c, s) =>
  ctx ← contexts c !! cpu;
  match transform ctx with
  | None => below (read_page buffer) (c, s)
  | Some alg =>
      '(s, (index, len, buffer, ret)) ← read_page buffer s;
      if negb (ret =? 0) || (len =? PAGE_SIZE) then Some ((c, s), (index, PAGE_SIZE, buffer, ret))
      else
        pbuf ← page_buffer ctx;
        pbuf ← memcpy pbuf (take (Z.to_nat len) buffer);
        let c := set_context cpu (ctx {{ page_buffer := Some pbuf }}) c in
        let '(ret, outlen, out) := crypto_comp_decompress alg (take (Z.to_nat len) pbuf) PAGE_SIZE in
        buffer ← memcpy buffer out;
        if negb (ret =? 0) then below (abort_io;;; Prelude.ret (index, PAGE_SIZE, buffer, ret)) (c, s)
        else if negb (outlen =? PAGE_SIZE) then
          below (abort_io;;; Prelude.ret (index, outlen, buffer, - EIO)) (c, s)
        else Some ((c, s), (index, PAGE_SIZE, buffer, 0))
  end.
End Pages.

(** ** Sizes and configuration *)

Definition toi_compress_memory_needed : Z := 2 * PAGE_SIZE.

Definition toi_compress_storage_needed (s : compress_state) : option Z :=
  (fun n => s32 (4 * sizeof_long + n + 1)) <$> strlen (toi_compressor_name s).

(** The bytes put in the buffer, whose number is the answer. *)
Definition toi_compress_save_config_info (s : compress_state) : option (list Z) :=
  name ← c_string (toi_compressor_name s);
  Some (le_bytes 8 (toi_compress_bytes_in s) ++ le_bytes 8 (toi_compress_bytes_out s) ++
        le_bytes 8 (toi_expected_compression s) ++ le_bytes 8 (Z.of_nat (length name) + 1) ++ name ++ [0]).

Definition field (i : nat) (buffer : list Z) : Z := le_val (take 8 (drop (8 * i) buffer)).

Definition toi_compress_load_config_info (buffer : list Z) (s : compress_state) : option compress_state :=
  let s := s {{ toi_compress_bytes_in := field 0 buffer; toi_compress_bytes_out := field 1 buffer;
                toi_expected_compression := s32 (field 2 buffer) }} in
  let namelen := Z.to_nat (u64 (s32 (field 3 buffer))) in
  same ← strncmp_eq (toi_compressor_name s) (drop 32 buffer) namelen;
  if same : bool then Some s
  else
    let s := toi_compress_cleanup true s in
    name ← strncpy (toi_compressor_name s) (drop 32 buffer) namelen;
    fst <$> toi_compress_crypto_prepare (s {{ toi_compressor_name := name }}).

Definition toi_compress_expected_ratio (s : compress_state) : Z :=
  if compress_enabled s then 100 - toi_expected_compression s else 100.
End Compress.

(** ** The block I/O layer as the next driver *)

Definition bio_read_into (buffer : page) : M bio_state (Z * Z * page * Z) :=
  bind toi_bio_read_page (fun '(pfn, size, bytes, r) =>
    match memcpy buffer bytes with
    | Some buffer => ret (pfn, size, buffer, r)
    | None => bug
    end).

#[export] Instance bio_page_driver : PageDriver bio_state := {
  write_page := toi_bio_write_page;
  read_page := bio_read_into;
  abort_io := modify (fun st =>
    st {{ toi_result := abort_hibernate (ui_loaded st) TOI_FAILED_IO (toi_result st) }})
}.
