(* ===== verification/CompressionFacts.v ===== *)
(** * Facts about the compression filter

    What is written through the filter onto the block I/O layer is read back
    through it page for page, and the configuration saved in the header makes
    the resuming kernel's filter the one that wrote the image. *)

From S2P Require Import Prelude States CString BlockIO BlockIOFacts BlockIORead Compression.
From stdpp Require Import numbers base list.
#[local] Open Scope Z_scope.
#[local] Arguments Z.to_nat : simpl never.
#[local] Arguments Nat.mul : simpl never.

(** ** What the filter asks of a transform

    Compressed data fits the two-page output buffer (the algorithm may ignore
    the capacity it is given), and a page that shrank is decompressed to what
    it was. *)
Class Lossless (alg : comp_alg) : Prop := {
  compress_bound (x : page) : full_page x ->
    (length (crypto_comp_compress alg x PAGE_SIZE).2 <= 2 * Z.to_nat PAGE_SIZE)%nat;
  compress_inverse (x : page) l out : full_page x -> l < PAGE_SIZE ->
    crypto_comp_compress alg x PAGE_SIZE = (0, l, out) ->
    0 <= l <= Z.of_nat (length out) /\
    crypto_comp_decompress alg (take (Z.to_nat l) out) PAGE_SIZE = (0, PAGE_SIZE, x)
}.

(** A context [prepare_context] has filled. *)
Definition ready_context (alg : comp_alg) (c : cpu_context) : Prop :=
  transform c = Some alg /\ (exists pb, page_buffer c = Some pb /\ full_page pb) /\
  exists ob, output_buffer c = Some ob /\ length ob = (2 * Z.to_nat PAGE_SIZE)%nat.

Definition ready (alg : comp_alg) (c : compress_state) : Prop := Forall (ready_context alg) (contexts c).

(** The record passed below for a page. *)
Definition sent (alg : comp_alg) (p : Z * page) (e : Z * page * Z) : Prop :=
  let '(pfn, pg) := p in let '(pfn', data, size) := e in
  pfn' = pfn /\ full_page data /\
  ((size = PAGE_SIZE /\ data = pg) \/
   (0 <= size < PAGE_SIZE /\
    crypto_comp_decompress alg (take (Z.to_nat size) data) PAGE_SIZE = (0, PAGE_SIZE, pg))).

Lemma fresh_output_length : length fresh_output = (2 * Z.to_nat PAGE_SIZE)%nat.
Proof. apply repeat_length. Qed.

Lemma memcpy_ok (dst bs : list Z) :
  (length bs <= length dst)%nat -> memcpy dst bs = Some (bs ++ drop (length bs) dst).
Proof. intros Hl. unfold memcpy. by rewrite (proj2 (Nat.leb_le _ _)). Qed.

Lemma memcpy_page (dst pg : page) : full_page dst -> full_page pg -> memcpy dst pg = Some pg.
Proof.
  unfold full_page. intros Hd Hp. apply memcpy_all. lia.
Qed.

Lemma compress_page_sent alg `{Lossless alg} ctx pfn pg :
  ready_context alg ctx -> full_page pg ->
  exists ctx' data size, compress_page ctx alg pg PAGE_SIZE = Some (ctx', data, size) /\
    ready_context alg ctx' /\ sent alg (pfn, pg) (pfn, data, size).
Proof.
  intros (Ht & (pb & Hpb & Hfpb) & (ob & Hob & Hlob)) Hpg. unfold compress_page.
  pose proof (compress_bound pg Hpg) as Hb. assert (length pg = Z.to_nat PAGE_SIZE) as Hlp by exact Hpg. rewrite (take_ge pg) by (rewrite Hlp; done).
  destruct (crypto_comp_compress alg pg PAGE_SIZE) as [[ret l] out] eqn:E. cbn [snd] in Hb.
  rewrite Hob. cbn [mbind option_bind]. rewrite memcpy_ok by lia. cbn [mbind option_bind].
  destruct ((ret =? 0) && (l <? PAGE_SIZE)) eqn:Hc; breflect.
  - subst. destruct (compress_inverse pg l out Hpg ltac:(done) E) as [Hl Hd]. simpl. rewrite Hpb. simpl.
    rewrite take_app_le by lia. unfold full_page in *.
    assert (length (take (Z.to_nat l) out) = Z.to_nat l) as Hlt by (rewrite length_take; lia).
    rewrite memcpy_ok by lia. simpl. eexists _, _, _. split; [done|].
    assert (length (take (Z.to_nat l) out ++ drop (length (take (Z.to_nat l) out)) pb) = Z.to_nat PAGE_SIZE) as Hfull
      by (rewrite length_app, length_drop; lia).
    split; [split_and!; simpl; eauto|].
    + exists (out ++ drop (length out) ob). split; [done|]. rewrite length_app, length_drop. lia.
    + split_and!; [done|done|]. right. split; [lia|]. rewrite <- Hlt at 1. by rewrite take_app_length.
  - eexists _, _, _. split; [done|]. split.
    + split_and!; simpl; eauto. eexists. split; [done|]. rewrite length_app, length_drop. lia.
    + split_and!; [done|done|]. by left.
Qed.

(** ** Whole images through the filter

    Each page goes through the context of some processor. *)

Fixpoint compress_write_image (l : list (nat * Z * page)) : M (compress_state * bio_state) Z :=
  match l with
  | [] => ret 0
  | (cpu, pfn, pg) :: l' =>
      bind (toi_compress_write_page cpu pfn pg PAGE_SIZE) (fun r => or_return r (compress_write_image l'))
  end.

(** Pages are read by the given processors into the given buffers. *)
Fixpoint compress_read_image (l : list (nat * page))
    : M (compress_state * bio_state) (list (Z * page) * Z) :=
  match l with
  | [] => ret ([], 0)
  | (cpu, buffer) :: l' =>
      bind (toi_compress_read_page cpu buffer) (fun '(pfn, size, pg, r) =>
        if negb (r =? 0) then ret ([], r)
        else bind (compress_read_image l') (fun '(l, r') => ret ((pfn, pg) :: l, r')))
  end.

Definition wf_page (n : nat) (p : nat * Z * page) : Prop :=
  let '(cpu, pfn, pg) := p in (cpu < n)%nat /\ 0 <= pfn < 2 ^ 64 /\ full_page pg.

Lemma ready_insert alg c cpu ctx : ready alg c -> ready_context alg ctx -> ready alg (set_context cpu ctx c).
Proof. intros Hr Hc. unfold ready, set_context. simpl. by apply Forall_insert. Qed.

Lemma length_set_context cpu ctx c : length (contexts (set_context cpu ctx c)) = length (contexts c).
Proof. unfold set_context. simpl. apply length_insert. Qed.

Section Image.
Context (alg : comp_alg) `{Lossless alg}.

Lemma ready_lookup c cpu :
  ready alg c -> (cpu < length (contexts c))%nat ->
  exists ctx, contexts c !! cpu = Some ctx /\ ready_context alg ctx.
Proof.
  intros Hr Hl. destruct (lookup_lt_is_Some_2 _ _ Hl) as [ctx Hc]. exists ctx. split; [done|].
  by eapply Forall_lookup_1.
Qed.

(** Writing a page through the filter is writing some record below. *)
Lemma compress_write_one c cpu pfn pg :
  ready alg c -> (cpu < length (contexts c))%nat -> full_page pg ->
  exists c' data size, sent alg (pfn, pg) (pfn, data, size) /\ ready alg c' /\
    length (contexts c') = length (contexts c) /\ toi_compress_prepare_result c' = toi_compress_prepare_result c /\
    forall st st' r, toi_bio_write_page pfn data size st = Some (st', r) ->
      toi_compress_write_page cpu pfn pg PAGE_SIZE (c, st) = Some ((c', st'), r).
Proof.
  intros Hr Hcpu Hpg. destruct (ready_lookup c cpu Hr Hcpu) as (ctx & Hctx & Hrc).
  destruct (compress_page_sent alg ctx pfn pg Hrc Hpg) as (ctx' & data & size & Hcp & Hrc' & Hsent).
  exists ((set_context cpu ctx' c)
    {{ toi_compress_bytes_in := u64 (toi_compress_bytes_in c + PAGE_SIZE);
       toi_compress_bytes_out := u64 (toi_compress_bytes_out c + len ctx') }}), data, size.
  split_and!; [apply Hsent..|by apply ready_insert|apply length_set_context|done|].
  intros st st' r Hw. unfold toi_compress_write_page. rewrite Hctx. cbn [mbind option_bind].
  rewrite (proj1 Hrc), Hcp. cbn [mbind option_bind]. unfold below. change (@write_page bio_state _) with toi_bio_write_page.
  by rewrite Hw.
Qed.

Lemma compress_write_image_sent l c :
  ready alg c -> Forall (wf_page (length (contexts c))) l ->
  exists es c', Forall2 (sent alg) (map (fun '(_, pfn, pg) => (pfn, pg)) l) es /\ ready alg c' /\
    length (contexts c') = length (contexts c) /\
    forall st st', write_image es st = Some (st', 0) ->
      compress_write_image l (c, st) = Some ((c', st'), 0).
Proof.
  revert c. induction l as [|[[cpu pfn] pg] l IH]; intros c Hr Hl.
  { exists [], c. split_and!; try done. by intros st st' [= <-]. }
  apply Forall_cons_1 in Hl as [(Hcpu & Hpfn & Hpg) Hl].
  destruct (compress_write_one c cpu pfn pg Hr Hcpu Hpg) as (c1 & data & size & Hsent & Hr1 & Hl1 & _ & Hw1).
  destruct (IH c1 Hr1) as (es & c' & Hes & Hr' & Hl' & Hw); [by rewrite Hl1|].
  exists ((pfn, data, size) :: es), c'. split_and!; [by constructor|done|congruence|].
  intros st st' Hwi. cbn [write_image compress_write_image] in *. unfold bind in *.
  destruct (toi_bio_write_page pfn data size st) as [[st1 r]|] eqn:E; [|done]. rewrite (Hw1 _ _ _ E).
  unfold or_return in *. destruct (r =? 0) eqn:Er; [by apply Hw|].
  exfalso. injection Hwi as _ ->. done.
Qed.

(** Reading records the filter wrote gives back the pages. *)
Lemma compress_read_one c cpu buffer st st' pfn pg data size :
  ready alg c -> (cpu < length (contexts c))%nat -> full_page buffer -> full_page pg ->
  sent alg (pfn, pg) (pfn, data, size) ->
  toi_bio_read_page st = Some (st', (entry_read (pfn, data, size), 0)) ->
  exists c', toi_compress_read_page cpu buffer (c, st) = Some ((c', st'), (pfn, PAGE_SIZE, pg, 0)) /\
    ready alg c' /\ length (contexts c') = length (contexts c) /\
    toi_compress_prepare_result c' = toi_compress_prepare_result c.
Proof.
  intros Hr Hcpu Hbuf Hpg (_ & Hdata & Hs) Hread. unfold full_page in *.
  destruct (ready_lookup c cpu Hr Hcpu) as (ctx & Hctx & Hrc).
  pose proof Hrc as (Ht & (pb & Hpb & Hfpb) & Hob). unfold full_page in Hfpb. unfold toi_compress_read_page.
  rewrite Hctx. cbn [mbind option_bind]. rewrite Ht. change (@read_page bio_state _) with bio_read_into.
  unfold bio_read_into at 1, bind. rewrite Hread. cbn [entry_read].
  destruct Hs as [[-> ->]|[Hsz Hd]].
  - rewrite (take_ge pg) by lia. rewrite memcpy_page by done. simpl. exists c. split_and!; done.
  - assert (length (take (Z.to_nat size) data) = Z.to_nat size) as Hlt
      by (rewrite length_take; unfold PAGE_SIZE in *; lia).
    rewrite memcpy_ok by (unfold PAGE_SIZE in *; lia). cbn [mbind option_bind ret].
    rewrite (proj2 (Z.eqb_neq size PAGE_SIZE)) by lia. cbn [Z.eqb negb orb]. rewrite Hpb. cbn [mbind option_bind].
    assert (take (Z.to_nat size) (take (Z.to_nat size) data ++ drop (length (take (Z.to_nat size) data)) buffer)
      = take (Z.to_nat size) data) as -> by (rewrite <- Hlt at 1; by rewrite take_app_length).
    rewrite memcpy_ok by (unfold PAGE_SIZE in *; lia). cbn [mbind option_bind].
    assert (take (Z.to_nat size) (take (Z.to_nat size) data ++ drop (length (take (Z.to_nat size) data)) pb)
      = take (Z.to_nat size) data) as -> by (rewrite <- Hlt at 1; by rewrite take_app_length).
    rewrite Hd, memcpy_page by (unfold full_page; rewrite ?length_app, ?length_drop; unfold PAGE_SIZE in *; lia).
    simpl. eexists. split; [done|]. split; [|by split; [apply length_set_context|]].
    apply ready_insert; [done|]. split_and!; simpl; eauto. eexists. split; [done|]. unfold full_page.
    rewrite length_app, length_drop. unfold PAGE_SIZE in *; lia.
Qed.

Lemma compress_read_image_spec l es readers c st st' :
  ready alg c -> Forall2 (sent alg) l es -> Forall (fun p => full_page (snd p)) l ->
  length readers = length l ->
  Forall (fun '(cpu, buffer) => (cpu < length (contexts c))%nat /\ full_page buffer) readers ->
  read_image (length es) st = Some (st', (map entry_read es, 0)) ->
  exists c', compress_read_image readers (c, st) = Some ((c', st'), (l, 0)).
Proof.
  intros Hr Hs. revert readers c st Hr. induction Hs as [|[pfn pg] [[pfn' data] size] l es Hse Hs IH];
    intros readers c st Hr Hfull Hlen Hrd Hread.
  { destruct readers; [|done]. exists c. cbn in *. by injection Hread as ->. }
  destruct readers as [|[cpu buffer] readers]; [done|].
  apply Forall_cons_1 in Hfull as [Hpg Hfull]. apply Forall_cons_1 in Hrd as [[Hcpu Hbuf] Hrd].
  assert (pfn' = pfn) as -> by apply Hse. cbn [length read_image map] in Hread. unfold bind in Hread.
  destruct (toi_bio_read_page st) as [[st1 [[[p1 s1] b1] r1]]|] eqn:E1; [|done].
  destruct (negb (r1 =? 0)) eqn:Er; [done|].
  destruct (read_image (length es) st1) as [[st2 [l2 r2]]|] eqn:E2; [|done].
  injection Hread as -> -> -> -> -> ->. breflect. subst.
  destruct (compress_read_one c cpu buffer st st1 pfn pg data size) as (c1 & H1 & Hr1 & Hl1 & _); auto.
  destruct (IH readers c1 st1) as (c' & H2); auto; [by rewrite Hl1|].
  exists c'. cbn [compress_read_image]. unfold bind. rewrite H1. cbn [Z.eqb negb]. by rewrite H2.
Qed.
End Image.

Lemma sent_wf alg `{Lossless alg} l es :
  Forall2 (sent alg) l es -> Forall (fun p => 0 <= fst p < 2 ^ 64) l ->
  Forall wf_entry es /\ (length (image_bytes es) <= (12 + Z.to_nat PAGE_SIZE) * length l)%nat.
Proof.
  intros Hs Hl. induction Hs as [|[pfn pg] [[pfn' data] size] l es Hse Hs IH]; [split; [done|simpl; lia]|].
  apply Forall_cons_1 in Hl as [Hp Hl]. destruct (IH Hl) as [Hes Hlen].
  destruct Hse as (-> & Hd & Hc). simpl in Hp. unfold full_page in Hd.
  assert (0 <= size <= PAGE_SIZE) as Hsz by (unfold PAGE_SIZE in *; lia). split.
  - constructor; [|done]. split_and!; try lia; unfold PAGE_SIZE in *; lia.
  - cbn [image_bytes flat_map length]. fold (image_bytes es). unfold record_bytes.
    rewrite !length_app, !length_le_bytes, length_take. lia.
Qed.

(** C21: an image written through the compression filter is read back through
    it.  With any lossless transform, buffers prepared on every processor and
    storage for the uncompressed size, writing the pages through the filter
    onto the block layer succeeds whichever processors handle them, and a
    kernel that has reloaded the storage map reads, on any processors and
    into any buffers, exactly the page frames and the page contents. *)
Theorem compressed_image_roundtrip alg (Hloss : Lossless alg) s st p0 l all vend c c2
  (Hready : stream_ready s st p0) (Hc : ready alg c) (Hc2 : ready alg c2)
  (Hl : Forall (wf_page (length (contexts c))) l)
  (Hab : test_result_state TOI_ABORTED (toi_result st) = false)
  (Hall : pages (toi_devinfo st) (start_of p0) all vend)
  (Hroom : ((12 + Z.to_nat PAGE_SIZE) * length l <= Z.to_nat PAGE_SIZE * length all)%nat) :
  exists st1 c' st2 st3,
    toi_rw_init WRITE s st = Some (st1, 0) /\
    compress_write_image l (c, st1) = Some ((c', st2), 0) /\
    toi_rw_cleanup WRITE st2 = Some (st3, 0) /\
    forall r readers, reloaded st3 r -> length readers = length l ->
      Forall (fun '(cpu, buffer) => (cpu < length (contexts c2))%nat /\ full_page buffer) readers ->
      exists r1 r2 c2', toi_rw_init READ s r = Some (r1, 0) /\
        compress_read_image readers (c2, r1) =
          Some ((c2', r2), (map (fun '(_, pfn, pg) => (pfn, pg)) l, 0)).
Proof.
  destruct (compress_write_image_sent alg l c Hc Hl) as (es & c' & Hs & _ & _ & Hw).
  set (ps := map (fun '(_, pfn, pg) => (pfn, pg)) l) in *.
  assert (length ps = length l) as Hlp by apply length_map.
  assert (Forall (fun p => 0 <= fst p < 2 ^ 64 /\ full_page (snd p)) ps) as Hps.
  { apply Forall_fmap. eapply Forall_impl; [exact Hl|]. by intros [[cpu pfn] pg] (? & ? & ?). }
  destruct (sent_wf alg ps es Hs) as [Hes Hlen].
  { eapply Forall_impl; [exact Hps|]. by intros ? []. }
  destruct (stream_written_read s st p0 es all vend) as (st1 & st2 & st3 & H1 & H2 & H3 & _ & Hread); auto; [lia|].
  exists st1, c', st2, st3. split_and!; auto. intros r readers Hre Hrl Hrd.
  destruct (Hread r Hre) as (r1 & r2 & Hi & Hri).
  destruct (compress_read_image_spec alg ps es readers c2 r1 r2) as (c2' & Hcr); auto; [|lia|eauto 6].
  eapply Forall_impl; [exact Hps|]. by intros ? [].
Qed.

(** A transform that compresses pages of one repeated byte. *)
Definition fill_alg : comp_alg := CompAlg
  (fun x cap => if bool_decide (x = repeat (hd 0 x) (Z.to_nat PAGE_SIZE)) then (0, 1, [hd 0 x]) else (1, cap, []))
  (fun y cap => (0, PAGE_SIZE, repeat (hd 0 y) (Z.to_nat PAGE_SIZE))).

Lemma fill_lossless : Lossless fill_alg.
Proof.
  split.
  - intros x _. cbn [fill_alg crypto_comp_compress]. case_bool_decide; simpl; unfold PAGE_SIZE; lia.
  - intros x l out _ Hl. cbn [fill_alg crypto_comp_compress crypto_comp_decompress].
    case_bool_decide as Hx; [|done]. intros [= <- <-]. split; [simpl; lia|].
    rewrite Hx at 2. done.
Qed.

Definition fill_context : cpu_context :=
  CpuContext (Some zero_page) (Some fill_alg) 0 (Some fresh_output).

Definition sample_compress : compress_state :=
  CompressState [fill_context; fill_context] [102; 0; 0; 0] 0 0 0 0 true [] 6.

Lemma sample_compress_ready : ready fill_alg sample_compress.
Proof.
  assert (ready_context fill_alg fill_context) as Hc; [|by apply Forall_cons_2; [|apply Forall_cons_2]].
  split; [done|]. split; eexists; (split; [reflexivity|]); [apply zero_page_full|apply fresh_output_length].
Qed.

Lemma compressed_image_roundtrip_witness :
  exists st1 c' st2 st3,
    toi_rw_init WRITE 1 sample_state = Some (st1, 0) /\
    compress_write_image [(0%nat, 17, zero_page); (1%nat, 18, zero_page)] (sample_compress, st1)
      = Some ((c', st2), 0) /\
    toi_rw_cleanup WRITE st2 = Some (st3, 0) /\
    forall r readers, reloaded st3 r -> length readers = 2%nat ->
      Forall (fun '(cpu, buffer) => (cpu < 2)%nat /\ full_page buffer) readers ->
      exists r1 r2 c2', toi_rw_init READ 1 r = Some (r1, 0) /\
        compress_read_image readers (sample_compress, r1) =
          Some ((c2', r2), ([(17, zero_page); (18, zero_page)], 0)).
Proof.
  apply (compressed_image_roundtrip fill_alg fill_lossless 1 sample_state sample_start
    [(0%nat, 17, zero_page); (1%nat, 18, zero_page)] [(0, 4); (0, 5); (0, 6)] (0, [(1, 9); (1, 10)])
    sample_compress sample_compress).
  - apply sample_ready.
  - apply sample_compress_ready.
  - apply sample_compress_ready.
  - repeat constructor; simpl; try lia; apply zero_page_full.
  - done.
  - by repeat (econstructor; [reflexivity|]); constructor.
  - simpl length. unfold PAGE_SIZE. lia.
Defined.

(** ** The saved configuration *)

Section Config.
Context (crypto_alloc_comp : list Z -> option comp_alg).

Lemma prepare_context_ready name alg c :
  crypto_alloc_comp name = Some alg ->
  exists c', prepare_context crypto_alloc_comp name [] c = (c', [], 3, 0) /\ ready_context alg c'.
Proof.
  intros Ha. unfold prepare_context. rewrite Ha. simpl. eexists. split; [done|].
  split; [done|]. split; eexists; (split; [reflexivity|]); [apply zero_page_full|apply fresh_output_length].
Qed.

Lemma prepare_contexts_ready name alg cs :
  crypto_alloc_comp name = Some alg ->
  exists cs', prepare_contexts crypto_alloc_comp name [] cs = (cs', [], 3 * Z.of_nat (length cs), 0) /\
    Forall (ready_context alg) cs' /\ length cs' = length cs.
Proof.
  intros Ha. induction cs as [|c cs IH]; [by exists []|].
  destruct IH as (cs' & E & Hr & Hl). destruct (prepare_context_ready name alg c Ha) as (c' & Ec & Hc).
  exists (c' :: cs'). cbn [prepare_contexts]. rewrite Ec. cbn [Z.eqb]. rewrite E.
  split_and!; [|by constructor|simpl; by rewrite Hl]. f_equal. f_equal. cbn [length]. lia.
Qed.

(** Preparing with memory to hand: every context ready, three resources each. *)
Lemma crypto_prepare_ready s nm alg :
  c_string (toi_compressor_name s) = Some nm -> nm <> [] -> crypto_alloc_comp nm = Some alg ->
  compress_memory s = [] ->
  exists cs, toi_compress_crypto_prepare crypto_alloc_comp s =
      Some (s {{ contexts := cs; compress_memory := [];
                 compress_live := compress_live s + 3 * Z.of_nat (length (contexts s)) }}, 0) /\
    Forall (ready_context alg) cs /\ length cs = length (contexts s).
Proof.
  intros Hn Hne Ha Hm. unfold toi_compress_crypto_prepare. rewrite Hn. cbn [mbind option_bind].
  destruct nm as [|b nm]; [done|]. rewrite Hm.
  destruct (prepare_contexts_ready (b :: nm) alg (contexts s) Ha) as (cs & E & Hr & Hl).
  rewrite E. exists cs. done.
Qed.

Lemma ready_held alg cs :
  Forall (ready_context alg) cs -> foldr Z.add 0 (map held cs) = 3 * Z.of_nat (length cs).
Proof.
  induction 1 as [|c cs (Ht & (pb & Hpb & _) & (ob & Hob & _)) _ IH]; [done|].
  cbn [map foldr length]. rewrite IH. unfold held. rewrite Ht, Hpb, Hob. lia.
Qed.

Lemma field_bytes i a b c d tl :
  (i < 4)%nat ->
  field i (le_bytes 8 a ++ le_bytes 8 b ++ le_bytes 8 c ++ le_bytes 8 d ++ tl) =
  u64 (match i with 0%nat => a | 1%nat => b | 2%nat => c | _ => d end).
Proof.
  intros Hi. rewrite <- le_val_bytes8. unfold field. f_equal.
  destruct i as [|[|[|[|]]]]; try lia; cbn [Nat.mul Nat.add];
    repeat (rewrite drop_app_ge by (rewrite length_le_bytes; simpl; lia); rewrite length_le_bytes;
            cbn [Nat.sub]);
    rewrite ?drop_0, take_app_le, take_ge; rewrite ?length_le_bytes; done || lia.
Qed.

(** What the resuming kernel has before the image's configuration is loaded:
    buffers prepared for the transform of its own name, in its 32 bytes. *)
Record booted (s : compress_state) (own : list Z) (alg : comp_alg) : Prop := {
  bt_name : c_string (toi_compressor_name s) = Some own;
  bt_array : length (toi_compressor_name s) = 32%nat;
  bt_alg : crypto_alloc_comp own = Some alg;
  bt_ready : ready alg s;
  bt_live : compress_live s = 3 * Z.of_nat (length (contexts s));
  bt_memory : compress_memory s = []
}.

Lemma save_load_same s nm :
  c_string (toi_compressor_name s) = Some nm -> Forall (fun b => b <> 0) nm -> (length nm < 32)%nat ->
  exists bs, toi_compress_save_config_info s = Some bs /\
    toi_compress_storage_needed s = Some (Z.of_nat (length bs)) /\
    field 0 bs = u64 (toi_compress_bytes_in s) /\ field 1 bs = u64 (toi_compress_bytes_out s) /\
    field 2 bs = u64 (toi_expected_compression s) /\
    Z.to_nat (u64 (s32 (field 3 bs))) = S (length nm) /\ drop 32 bs = nm ++ [0].
Proof.
  intros Hn Hz Hl. unfold toi_compress_save_config_info, toi_compress_storage_needed, strlen. rewrite Hn.
  eexists. split; [reflexivity|]. cbn [fmap option_fmap option_map].
  rewrite !field_bytes by lia. split_and!; auto.
  - f_equal. rewrite !length_app, !length_le_bytes. simpl. rewrite s32_small; unfold sizeof_long; lia.
  - rewrite (u64_small (Z.of_nat _ + 1)), s32_small, u64_small by lia. lia.
Qed.

(** The configuration the filter saves is as long as the storage it asked
    for, and loading it into a booted kernel restores the statistics, the
    expected ratio and the compressor's name and leaves every processor with
    the transform of that name, nothing leaked and nothing lost, whether the
    kernel was set up for that compressor or for another. *)
Theorem compress_config_roundtrip s s2 nm own alg alg2
  (Hname : c_string (toi_compressor_name s) = Some nm) (Hne : nm <> []) (Hlen : (length nm < 32)%nat)
  (Halg : crypto_alloc_comp nm = Some alg)
  (Hin : 0 <= toi_compress_bytes_in s < 2 ^ 64) (Hout : 0 <= toi_compress_bytes_out s < 2 ^ 64)
  (Hexp : - 2 ^ 31 <= toi_expected_compression s < 2 ^ 31)
  (Hboot : booted s2 own alg2) :
  exists bs s3,
    toi_compress_save_config_info s = Some bs /\
    toi_compress_storage_needed s = Some (Z.of_nat (length bs)) /\
    toi_compress_load_config_info crypto_alloc_comp bs s2 = Some s3 /\
    booted s3 nm alg /\
    toi_compress_bytes_in s3 = toi_compress_bytes_in s /\
    toi_compress_bytes_out s3 = toi_compress_bytes_out s /\
    toi_expected_compression s3 = toi_expected_compression s /\
    length (contexts s3) = length (contexts s2).
Proof.
  destruct (c_string_split _ _ Hname) as (t & Ht & Hnz).
  destruct (save_load_same s nm Hname Hnz Hlen) as (bs & Hs & Hn & Hf0 & Hf1 & Hf2 & Hnl & Hd).
  rewrite !u64_small in * by lia.
  exists bs. unfold toi_compress_load_config_info. rewrite Hnl, Hd, Hf0, Hf1, Hf2. cbn [toi_compressor_name].
  simpl. rewrite (strncmp_whole _ own nm [] (bt_name _ _ _ Hboot) Hnz). cbn [mbind option_bind].
  assert (s32 (u64 (toi_expected_compression s)) = toi_expected_compression s) as Hexp'.
  { rewrite <- (Z.add_0_l (u64 _)), s32_u64_add. rewrite Z.add_0_l. by apply s32_small. }
  destruct Hboot as [Bn Ba Bg Br Bl Bm]. case_bool_decide as Hsame.
  - subst. rewrite Halg in Bg. injection Bg as ->. eexists. split_and!; done.
  - rewrite strncpy_whole by (auto; lia). cbn [mbind option_bind]. 
    match goal with |- context [toi_compress_crypto_prepare _ ?x] => set (s1 := x) end.
    destruct (crypto_prepare_ready s1 nm alg) as (cs & -> & Hr & Hcl); auto.
    { simpl. by apply c_string_app. }
    eexists. split_and!; try done; [|by rewrite <- (length_map empty_context (contexts s2))].
    split; simpl; auto.
    + by apply c_string_app.
    + rewrite length_app. simpl. rewrite length_drop. lia.
    + rewrite (ready_held alg2) by done. rewrite Hcl. simpl. rewrite length_map. lia.
Qed.
End Config.

(** Two algorithms: "f", and one that never compresses. *)
Definition plain_alg : comp_alg := CompAlg (fun _ cap => (1, cap, [])) (fun _ cap => (1, cap, [])).

Definition sample_algs (name : list Z) : option comp_alg :=
  if bool_decide (name = [102]) then Some fill_alg
  else if bool_decide (name = [112]) then Some plain_alg else None.

(** A kernel booted for the second one. *)
Definition plain_booted : compress_state :=
  CompressState [CpuContext (Some zero_page) (Some plain_alg) 0 (Some fresh_output)]
    (112 :: repeat 0 31) 0 0 0 0 true [] 3.

Lemma compress_config_roundtrip_witness :
  exists bs s3,
    toi_compress_save_config_info sample_compress = Some bs /\
    toi_compress_load_config_info sample_algs bs plain_booted = Some s3 /\
    booted sample_algs s3 [102] fill_alg.
Proof.
  assert (booted sample_algs plain_booted [112] plain_alg) as Hb.
  { split; try reflexivity. apply Forall_cons_2; [|by apply Forall_nil_2].
    split; [done|]. split; eexists; (split; [reflexivity|]); [apply zero_page_full|apply fresh_output_length]. }
  destruct (compress_config_roundtrip sample_algs sample_compress plain_booted [102] [112] fill_alg plain_alg)
    as (bs & s3 & H1 & _ & H2 & H3 & _); try done; simpl; try lia.
  exists bs, s3. done.
Defined.
