(* ===== verification/Checksum.v ===== *)
(** * Checksums of pageset 2: kernel/power/tuxonice_checksum.c

    While pageset 2 is written a digest of each page is kept in a chain of
    pages; before the atomic copy the digests are compared with the pages'
    contents, and pages that changed are marked to be saved again.

    The chain lives in [frames], the pages the file owns, by address; the
    digest is a parameter. *)

From S2P Require Import Prelude States CString BlockIO MemoryBitmap.
From stdpp Require Import numbers base list gmap.
#[local] Open Scope Z_scope.
#[local] Open Scope step_scope.

Definition CHECKSUM_SIZE : Z := 16.
Definition CHECKSUMS_PER_PAGE : Z := (PAGE_SIZE - 8) / CHECKSUM_SIZE.

(** A processor's transform (set or not) and its copy buffer. *)
Record hash_context := HashContext { has_transform : bool; buf : option page }.

Record checksum_state := ChecksumState {
  hash_contexts : list hash_context;
  checksum_enabled : bool;
  toi_checksum_name : list Z;
  pages_allocated : Z;
  page_list : Z;
  toi_num_resaved : Z;
  this_checksum : Z;
  next_page : Z;
  checksum_index : Z;
  frames : gmap Z page;
  nosave : gset Z;                    (* addresses of PageNosave pages *)
  resave : gset Z;                    (* frame numbers of PageResave pages *)
  page_supply : list (option Z);      (* the pages the allocator will give *)
  ck_result : Z                       (* toi_result *)
}.

#[export] Instance checksum_state_eta : Eta checksum_state := fun s =>
  ChecksumState (hash_contexts s) (checksum_enabled s) (toi_checksum_name s) (pages_allocated s)
    (page_list s) (toi_num_resaved s) (this_checksum s) (next_page s) (checksum_index s)
    (frames s) (nosave s) (resave s) (page_supply s) (ck_result s).

(** ** Buffers and transforms *)

Definition toi_checksum_cleanup (ending_cycle : bool) (s : checksum_state) : checksum_state :=
  if ending_cycle then s {{ hash_contexts := map (fun _ => HashContext false None) (hash_contexts s) }}
  else s.

(** [crypto_alloc_hash] by name, and a page for each processor. *)
Fixpoint hash_prepare (alloc_hash : bool) (pages : list bool) (cs : list hash_context)
    : list hash_context * Z :=
  match cs with
  | [] => ([], 0)
  | c :: cs' =>
      if alloc_hash then
        match pages with
        | false :: _ => (HashContext true (buf c) :: cs', 1)
        | _ =>
            let '(cs', r) := hash_prepare alloc_hash (tail pages) cs' in
            (HashContext true (Some zero_page) :: cs', r)
        end
      else (HashContext false (buf c) :: cs', 1)
  end.

Definition toi_checksum_initialise (starting_cycle : Z) (crypto_alloc_hash : list Z -> bool)
    (pages : list bool) (s : checksum_state) : option (checksum_state * Z) :=
  if (Z.land starting_cycle SYSFS_HIBERNATE =? 0) || negb (checksum_enabled s) then Some (s, 0)
  else
    name ← c_string (toi_checksum_name s);
    match name with
    | [] => Some (s, 1)
    | _ =>
        let '(cs, r) := hash_prepare (crypto_alloc_hash name) pages (hash_contexts s) in
        Some (s {{ hash_contexts := cs }}, r)
    end.

(** ** The chain of pages *)

Definition checksum_pages_needed (pagedir2_size : Z) : Z := s32 (DIV_ROUND_UP pagedir2_size CHECKSUMS_PER_PAGE).

Definition toi_checksum_memory_needed (pagedir2_size : Z) (s : checksum_state) : Z :=
  if checksum_enabled s then s32 (Z.shiftl (checksum_pages_needed pagedir2_size) PAGE_SHIFT) else 0.

Definition toi_checksum_storage_needed (s : checksum_state) : option Z :=
  if checksum_enabled s then (fun n => n + sizeof_int + 1) <$> strlen (toi_checksum_name s) else Some 0.

Definition toi_checksum_save_config_info (s : checksum_state) : option (list Z) :=
  name ← c_string (toi_checksum_name s);
  Some (le_bytes 4 (Z.of_nat (length name) + 1) ++ name ++ [0]).

Definition toi_checksum_load_config_info (buffer : list Z) (s : checksum_state) : option checksum_state :=
  let namelen := Z.to_nat (u64 (s32 (le_val (take 4 buffer)))) in
  name ← strncpy (toi_checksum_name s) (drop 4 buffer) namelen;
  Some (s {{ toi_checksum_name := name }}).

(** Memory of the chain: the word at a page's start, and 16 bytes inside it. *)
Definition first_word (a : Z) (f : gmap Z page) : option Z := (fun p => le_val (take 8 p)) <$> f !! a.

Definition base (a : Z) : Z := a - a mod PAGE_SIZE.
Definition offset (a : Z) : nat := Z.to_nat (a mod PAGE_SIZE).

Definition load_digest (a : Z) (f : gmap Z page) : option (list Z) :=
  (fun p => take 16 (drop (offset a) p)) <$> f !! base a.

Definition store_digest (a : Z) (d : list Z) (f : gmap Z page) : option (gmap Z page) :=
  match f !! base a with
  | Some p => Some (<[base a := splice p (offset a) d]> f)
  | None => None
  end.

Fixpoint free_loop (n : nat) (s : checksum_state) : option checksum_state :=
  match n with
  | O => Some s
  | S n' =>
      next ← first_word (page_list s) (frames s);
      free_loop n' (s {{ nosave := nosave s ∖ {[page_list s]};
                         frames := delete (page_list s) (frames s);
                         page_list := next; pages_allocated := pages_allocated s - 1 }})
  end.

(** The loop ends when the counter reaches 0. *)
Definition free_checksum_pages (s : checksum_state) : option checksum_state :=
  free_loop (Z.to_nat (pages_allocated s)) s.

(** [toi_get_zeroed_page]; an empty supply is a failure. *)
Definition ck_get_page (s : checksum_state) : checksum_state * option Z :=
  (s {{ page_supply := tail (page_supply s) }}, mjoin (head (page_supply s))).

Fixpoint allocate_loop (n : nat) (s : checksum_state) : checksum_state * Z :=
  match n with
  | O => (s, 0)
  | S n' =>
      match ck_get_page s with
      | (s, None) => (s, - ENOMEM)
      | (s, Some new_page) =>
          allocate_loop n' (s {{ nosave := nosave s ∪ {[new_page]};
              frames := <[new_page := splice zero_page 0 (le_bytes 8 (page_list s))]> (frames s);
              page_list := new_page; pages_allocated := pages_allocated s + 1 }})
      end
  end.

Definition allocate_checksum_pages (pagedir2_size : Z) (s : checksum_state) : checksum_state * Z :=
  let pages_needed := checksum_pages_needed pagedir2_size in
  if negb (checksum_enabled s) then (s, 0)
  else
    let '(s, r) := allocate_loop (Z.to_nat (pages_needed - pages_allocated s)) s in
    if r =? 0 then (s {{ next_page := page_list s; checksum_index := 0 }}, 0) else (s, r).

(** ** Storing and comparing *)

(** The step both walks along the chain take; [index] says whether to go on
    in the page. *)
Definition next_slot (index : Z) (s : checksum_state) : option checksum_state :=
  if index mod CHECKSUMS_PER_PAGE =? 0 then
    next ← first_word (next_page s) (frames s);
    Some (s {{ this_checksum := next_page s + 8; next_page := next }})
  else Some (s {{ this_checksum := this_checksum s + CHECKSUM_SIZE }}).

(** 0 is the NULL of a disabled checksum. *)
Definition tuxonice_get_next_checksum (s : checksum_state) : option (checksum_state * Z) :=
  if negb (checksum_enabled s) then Some (s, 0)
  else
    s ← next_slot (checksum_index s) s;
    Some (s {{ checksum_index := s32 (checksum_index s + 1) }}, this_checksum s).

Section Digest.
(** [crypto_hash_digest] on a page: its result and the digest. *)
Context (digest : page -> Z * list Z).

(** The page goes through the processor's buffer. *)
Definition hash_page (cpu : nat) (p : page) (s : checksum_state) : option (checksum_state * (Z * list Z)) :=
  c ← hash_contexts s !! cpu;
  match has_transform c, buf c with
  | true, Some b =>
      b ← memcpy b p;
      Some (s {{ hash_contexts := <[cpu := HashContext true (Some b)]> (hash_contexts s) }}, digest b)
  | _, _ => None
  end.

Definition tuxonice_calc_checksum (cpu : nat) (p : page) (checksum_locn : Z) (s : checksum_state)
    : option (checksum_state * Z) :=
  if negb (checksum_enabled s) then Some (s, 0)
  else
    '(s, (r, d)) ← hash_page cpu p s;
    f ← store_digest checksum_locn d (frames s);
    Some (s {{ frames := f }}, r).

(** [contents] is memory by frame number; [bm] is pageset2_map.  The loop's
    counter [pfn] is an [int]. *)
Fixpoint check_loop (fuel : nat) (cpu : nat) (contents : Z -> page) (abort_on_resave : bool)
    (pfn index : Z) (bm : memory_bitmap) (s : checksum_state) : option (memory_bitmap * checksum_state) :=
  match fuel with
  | O => None
  | S fuel' =>
      if u64 pfn =? BM_END_OF_MAP then Some (bm, s)
      else
        s ← next_slot index s;
        '(s, (ret, current_checksum)) ← hash_page cpu (contents pfn) s;
        if negb (ret =? 0) then Some (bm, s)
        else
          stored ← load_digest (this_checksum s) (frames s);
          let s := if bool_decide (current_checksum = stored) then s
            else s {{ resave := {[pfn]} ∪ resave s; toi_num_resaved := s32 (toi_num_resaved s + 1);
                      ck_result := if abort_on_resave then set_abort_result TOI_RESAVE_NEEDED (ck_result s)
                                   else ck_result s }} in
          '(bm, pfn) ← memory_bm_next_pfn bm;
          check_loop fuel' cpu contents abort_on_resave (s32 pfn) (index + 1) bm s
  end.

Definition check_checksums (fuel : nat) (cpu : nat) (contents : Z -> page) (abort_on_resave : bool)
    (bm : memory_bitmap) (s : checksum_state) : option (memory_bitmap * checksum_state) :=
  if negb (checksum_enabled s) then Some (bm, s)
  else
    let s := s {{ next_page := page_list s; toi_num_resaved := 0; this_checksum := 0 }} in
    '(bm, pfn) ← memory_bm_next_pfn (memory_bm_position_reset bm);
    check_loop fuel cpu contents abort_on_resave (s32 pfn) 0 bm s.

(** The writing side (worker_rw_loop of tuxonice_io.c), page after page: a
    slot for each page of pageset 2 and its digest stored there. *)
Fixpoint store_checksums (cpu : nat) (contents : Z -> page) (l : list Z) (s : checksum_state)
    : option (checksum_state * Z) :=
  match l with
  | [] => Some (s, 0)
  | pfn :: l' =>
      '(s, locn) ← tuxonice_get_next_checksum s;
      '(s, r) ← tuxonice_calc_checksum cpu (contents pfn) locn s;
      if r =? 0 then store_checksums cpu contents l' s else Some (s, r)
  end.
End Digest.
