(* ===== verification/ChecksumFacts.v ===== *)
(** * Facts about the checksums of pageset 2

    The chain of checksum pages is an array of slots that the writing pass
    and the checking pass walk in the same order, so a page is marked to be
    saved again exactly when its digest has changed. *)

From S2P Require Import Prelude States CString BlockIO BlockIOFacts MemoryBitmap Checksum.
From stdpp Require Import numbers base list gmap.
#[local] Open Scope Z_scope.
#[local] Arguments Z.to_nat : simpl never.

Definition per_page : nat := 255.

Lemma per_page_value : CHECKSUMS_PER_PAGE = Z.of_nat per_page.
Proof. reflexivity. Qed.

(** ** The chain as an array of slots *)

Record wf_chain (s : checksum_state) (ps : list Z) : Prop := {
  wc_head : page_list s = nth 0 ps 0;
  wc_next : forall k p, ps !! k = Some p -> first_word p (frames s) = Some (nth (S k) ps 0);
  wc_distinct : NoDup ps;
  wc_aligned : Forall (fun p => 0 < p < 2 ^ 64 /\ p mod PAGE_SIZE = 0) ps;
  wc_frames : Forall (fun p => exists pg, frames s !! p = Some pg /\ full_page pg) ps;
  wc_count : pages_allocated s = Z.of_nat (length ps)
}.

Definition slot (ps : list Z) (i : nat) : Z :=
  nth (i / per_page) ps 0 + 8 + CHECKSUM_SIZE * Z.of_nat (i mod per_page).

(** Where the walk stands before slot [i]. *)
Definition at_slot (s : checksum_state) (ps : list Z) (i : nat) : Prop :=
  next_page s = nth ((i + (per_page - 1)) / per_page) ps 0 /\
  ((i mod per_page <> 0)%nat -> this_checksum s = slot ps (i - 1)).

Lemma nat_cases i :
  (i mod per_page = 0%nat /\ (i + (per_page - 1)) / per_page = i / per_page /\
    (S i + (per_page - 1)) / per_page = S (i / per_page))%nat \/
  (i mod per_page <> 0%nat /\ (i + (per_page - 1)) / per_page = S (i / per_page) /\
    (S i + (per_page - 1)) / per_page = S (i / per_page) /\
    (i - 1) / per_page = i / per_page /\ (i - 1) mod per_page = i mod per_page - 1 /\ i mod per_page < per_page)%nat.
Proof.
  pose proof (Nat.div_mod_eq i per_page) as E. pose proof (Nat.mod_upper_bound i per_page ltac:(done)) as Hb.
  set (q := (i / per_page)%nat) in *. set (m := (i mod per_page)%nat) in *.
  assert (forall a r k, a = per_page * k + r -> r < per_page -> a / per_page = k)%nat as Hd.
  { intros a r k Ha Hr. symmetry. by apply (Nat.div_unique a per_page k r). }
  assert (0 < per_page)%nat by (unfold per_page; lia).
  destruct (decide (m = 0%nat)) as [Hm|Hm]; [left|right].
  - split_and!; [done|apply (Hd _ (per_page - 1)%nat); lia|apply (Hd _ 0%nat); lia].
  - split_and!; [done|apply (Hd _ (m - 1)%nat); lia|apply (Hd _ m); lia|apply (Hd _ (m - 1)%nat); lia| |done].
    symmetry. apply (Nat.mod_unique _ _ q); lia.
Qed.

Lemma index_mod i : (Z.of_nat i mod CHECKSUMS_PER_PAGE =? 0) = bool_decide (i mod per_page = 0)%nat.
Proof.
  rewrite per_page_value, <- Nat2Z.inj_mod. destruct (Z.eqb_spec (Z.of_nat (i mod per_page)) 0);
    [rewrite bool_decide_eq_true_2|rewrite bool_decide_eq_false_2]; lia || done.
Qed.

Lemma slot_page (ps : list Z) i : (i < per_page * length ps)%nat -> exists p, ps !! (i / per_page)%nat = Some p.
Proof.
  intros Hi. apply lookup_lt_is_Some_2. apply Nat.Div0.div_lt_upper_bound. lia.
Qed.

(** One step of the walk. *)
Lemma next_slot_ok s ps i :
  wf_chain s ps -> at_slot s ps i -> (i < per_page * length ps)%nat ->
  next_slot (Z.of_nat i) s =
    Some (s {{ this_checksum := slot ps i; next_page := nth ((S i + (per_page - 1)) / per_page) ps 0 }}).
Proof.
  intros Hw [Hn Ht] Hi. unfold next_slot. rewrite index_mod.
  destruct (slot_page ps i Hi) as [p Hp]. pose proof (nth_lookup_Some _ _ 0 _ Hp) as Hnth.
  destruct (nat_cases i) as [(Hm & E1 & E2)|(Hm & E1 & E2 & E3 & E4 & _)].
  - rewrite bool_decide_eq_true_2, Hn, E1, Hnth, (wc_next _ _ Hw _ _ Hp), E2 by done.
    replace (slot ps i) with (p + 8) by (unfold slot; rewrite Hnth, Hm; lia). done.
  - rewrite bool_decide_eq_false_2 by done. rewrite (Ht Hm). rewrite E2, <- E1, <- Hn.
    assert (slot ps (i - 1) + CHECKSUM_SIZE = slot ps i) as ->.
    { unfold slot. rewrite E3, E4. unfold CHECKSUM_SIZE. lia. }
    by destruct s.
Qed.

(** ** Digests in slots *)

Definition in_page (i : nat) : nat := 8 + 16 * (i mod per_page).

Lemma slot_split s ps i :
  wf_chain s ps -> (i < per_page * length ps)%nat ->
  exists p pg, ps !! (i / per_page)%nat = Some p /\ frames s !! p = Some pg /\ full_page pg /\
    base (slot ps i) = p /\ offset (slot ps i) = in_page i.
Proof.
  intros Hw Hi. destruct (slot_page ps i Hi) as [p Hp].
  destruct (Forall_lookup_1 _ _ _ _ (wc_frames _ _ Hw) Hp) as (pg & Hf & Hfull).
  destruct (Forall_lookup_1 _ _ _ _ (wc_aligned _ _ Hw) Hp) as [_ Hal].
  exists p, pg. split_and!; auto.
  all: unfold base, offset, slot, in_page; rewrite (nth_lookup_Some _ _ 0 _ Hp).
  all: pose proof (Nat.mod_upper_bound i per_page ltac:(done)) as Hb.
  all: assert ((p + 8 + CHECKSUM_SIZE * Z.of_nat (i mod per_page)) mod PAGE_SIZE
         = 8 + CHECKSUM_SIZE * Z.of_nat (i mod per_page)) as ->
       by (rewrite <- Z.add_assoc, Zplus_mod, Hal; unfold PAGE_SIZE, CHECKSUM_SIZE, per_page in *;
           rewrite Z.add_0_l, Z.mod_mod, Z.mod_small by lia; lia).
  - lia.
  - unfold CHECKSUM_SIZE. lia.
Qed.

Lemma in_page_bound i : (8 <= in_page i /\ in_page i + 16 <= Z.to_nat PAGE_SIZE)%nat.
Proof.
  unfold in_page, PAGE_SIZE. pose proof (Nat.mod_upper_bound i per_page ltac:(done)). unfold per_page in *. lia.
Qed.

Lemma take_splice n pg pos bs : (n <= pos)%nat -> full_page pg -> (pos <= Z.to_nat PAGE_SIZE)%nat ->
  take n (splice pg pos bs) = take n pg.
Proof.
  unfold full_page. intros Hn Hf Hp. unfold splice. rewrite take_app_le by (rewrite length_take; lia).
  rewrite take_take. by rewrite Nat.min_l.
Qed.

Lemma splice_same pg pos bs : full_page pg -> (pos <= Z.to_nat PAGE_SIZE)%nat ->
  take (length bs) (drop pos (splice pg pos bs)) = bs.
Proof.
  unfold full_page. intros Hf Hp. unfold splice. rewrite drop_app_ge; rewrite length_take; [|lia].
  rewrite Nat.min_l by lia. by rewrite Nat.sub_diag, drop_0, take_app_length.
Qed.

Lemma splice_other pg pos bs n q : full_page pg -> (pos + length bs <= Z.to_nat PAGE_SIZE)%nat ->
  (q + n <= pos \/ pos + length bs <= q)%nat ->
  take n (drop q (splice pg pos bs)) = take n (drop q pg).
Proof.
  unfold full_page. intros Hf Hp [Hq|Hq].
  - rewrite !take_drop_commute. by rewrite take_splice by (unfold full_page; lia).
  - unfold splice. rewrite !drop_app_ge by (rewrite ?length_take; lia). rewrite drop_drop, length_take.
    do 2 f_equal. lia.
Qed.

(** Storing a digest in a slot. *)
Lemma store_digest_ok s ps i d :
  wf_chain s ps -> (i < per_page * length ps)%nat -> length d = 16%nat ->
  exists f, store_digest (slot ps i) d (frames s) = Some f /\ wf_chain (s {{ frames := f }}) ps /\
    load_digest (slot ps i) f = Some d /\
    forall j, j <> i -> (j < per_page * length ps)%nat ->
      load_digest (slot ps j) f = load_digest (slot ps j) (frames s).
Proof.
  intros Hw Hi Hd. destruct (slot_split s ps i Hw Hi) as (p & pg & Hp & Hf & Hfull & Eb & Eo).
  unfold store_digest. rewrite Eb, Hf. eexists. split; [done|]. rewrite Eo.
  pose proof (in_page_bound i) as [H8 H16].
  assert (full_page (splice pg (in_page i) d)) as Hfull' by (apply splice_full; [done|lia]).
  split_and!.
  - destruct Hw as [Hh Hn Hnd Hal Hfr Hc]. split; simpl; auto.
    + intros k q Hq. rewrite <- (Hn k q Hq). unfold first_word. destruct (decide (q = p)) as [->|].
      * rewrite lookup_insert_eq, Hf. simpl. f_equal. f_equal. apply take_splice; auto; lia.
      * by rewrite lookup_insert_ne by done.
    + rewrite Forall_forall in *. intros q Hq. destruct (decide (q = p)) as [->|].
      * rewrite lookup_insert_eq. eauto.
      * rewrite lookup_insert_ne by done. auto.
  - unfold load_digest. rewrite Eb, Eo, lookup_insert_eq. simpl. f_equal.
    rewrite <- Hd. apply splice_same; [done|lia].
  - intros j Hj Hjl. destruct (slot_split s ps j Hw Hjl) as (p' & pg' & Hp' & Hf' & _ & Eb' & Eo').
    unfold load_digest. rewrite Eb', Eo'. destruct (decide (p' = p)) as [->|].
    + rewrite lookup_insert_eq, Hf. simpl. f_equal. apply splice_other; [done|lia|].
      pose proof (NoDup_lookup _ _ _ _ (wc_distinct _ _ Hw) Hp' Hp) as Eq.
      pose proof (Nat.div_mod_eq i per_page). pose proof (Nat.div_mod_eq j per_page).
      rewrite Hd. unfold in_page. assert (i mod per_page <> j mod per_page)%nat by congruence. lia.
    + by rewrite lookup_insert_ne by done.
Qed.

(** ** The two passes *)

(** The processor's transform and buffer are there. *)
Definition hash_ready (cpu : nat) (s : checksum_state) : Prop :=
  exists c b, hash_contexts s !! cpu = Some c /\ has_transform c = true /\ buf c = Some b /\ full_page b.

(** The first slots hold [ds]. *)
Definition holds (s : checksum_state) (ps : list Z) (ds : list (list Z)) : Prop :=
  forall j d, ds !! j = Some d -> load_digest (slot ps j) (frames s) = Some d.

(** A digest algorithm that works: 16 bytes for every page. *)
Record md (digest : page -> Z * list Z) (dg : page -> list Z) : Prop := {
  md_ok : forall p, full_page p -> digest p = (0, dg p);
  md_length : forall p, length (dg p) = 16%nat
}.

(** What the steps of a pass leave alone. *)
Record pass_frame (s s' : checksum_state) : Prop := {
  pf_list : page_list s' = page_list s;
  pf_count : pages_allocated s' = pages_allocated s;
  pf_enabled : checksum_enabled s' = checksum_enabled s;
  pf_resave : resave s' = resave s;
  pf_num : toi_num_resaved s' = toi_num_resaved s;
  pf_result : ck_result s' = ck_result s
}.

Section Passes.
Context (digest : page -> Z * list Z) (dg : page -> list Z) (Hmd : md digest dg).
Context (cpu : nat) (ps : list Z).

Lemma hash_page_ok p s :
  hash_ready cpu s -> full_page p ->
  exists cs, hash_page digest cpu p s = Some (s {{ hash_contexts := cs }}, (0, dg p)) /\
    hash_ready cpu (s {{ hash_contexts := cs }}).
Proof.
  intros (c & b & Hc & Ht & Hb & Hf) Hp. unfold hash_page. rewrite Hc. cbn [mbind option_bind].
  rewrite Ht, Hb, memcpy_all by (unfold full_page in *; lia). cbn [mbind option_bind]. rewrite (md_ok _ _ Hmd) by done.
  eexists. split; [done|]. exists (HashContext true (Some p)), p. split_and!; simpl; [|done..].
  apply list_lookup_insert_eq. by eapply lookup_lt_Some.
Qed.

(** Storing the digests of [l] from slot [i] on. *)
Lemma store_checksums_ok contents l s i ds :
  wf_chain s ps -> at_slot s ps i -> checksum_enabled s = true -> hash_ready cpu s ->
  checksum_index s = Z.of_nat i -> holds s ps ds -> length ds = i ->
  (i + length l <= per_page * length ps)%nat -> Z.of_nat (i + length l) < 2 ^ 31 ->
  Forall (fun pfn => full_page (contents pfn)) l ->
  exists s', store_checksums digest cpu contents l s = Some (s', 0) /\ wf_chain s' ps /\
    hash_ready cpu s' /\ holds s' ps (ds ++ map (fun pfn => dg (contents pfn)) l) /\ pass_frame s s'.
Proof.
  revert s i ds. induction l as [|pfn l IH]; intros s i ds Hw Ha He Hr Hix Hh Hds Hl Hsmall Hfull.
  { exists s. cbn [map]. rewrite app_nil_r. split_and!; done. }
  apply Forall_cons_1 in Hfull as [Hp Hfull]. cbn [length] in *.
  cbn [store_checksums]. unfold tuxonice_get_next_checksum. rewrite He, Hix, (next_slot_ok s ps i) by (auto; lia).
  cbn [negb mbind option_bind].
  match goal with |- context [tuxonice_calc_checksum _ _ _ _ ?x] => set (s1 := x) end.
  assert (wf_chain s1 ps) as Hw1 by (by destruct Hw).
  destruct (hash_page_ok (contents pfn) s1 Hr Hp) as (cs & Hhash & Hr2).
  unfold tuxonice_calc_checksum. change (checksum_enabled s1) with (checksum_enabled s). rewrite He, Hhash.
  set (s2 := s1 {{ hash_contexts := cs }}) in *. assert (wf_chain s2 ps) as Hw2 by (by destruct Hw1).
  destruct (store_digest_ok s2 ps i (dg (contents pfn)) Hw2) as (f & Hst & Hw3 & Hload & Hother);
    [lia|apply Hmd|].
  cbn [negb mbind option_bind]. match goal with |- context [store_digest ?a] => change a with (slot ps i) end.
  rewrite Hst. cbn [mbind option_bind Z.eqb].
  set (s3 := s2 {{ frames := f }}) in *.
  destruct (IH s3 (S i) (ds ++ [dg (contents pfn)])) as (s' & Hs' & Hw' & Hr' & Hh' & Hf'); auto; try lia.
  - split; [done|]. intros _. simpl. by rewrite Nat.sub_0_r.
  - simpl. rewrite Hix. rewrite s32_small; lia.
  - intros j d. rewrite lookup_app_Some. change (frames s3) with f. intros [Hj|[Hge Hj]].
    + rewrite Hother; [by apply Hh|..]; apply lookup_lt_Some in Hj; lia.
    + apply list_lookup_singleton_Some in Hj as [Hj <-]. replace j with i by lia. done.
  - rewrite length_app. simpl. lia.
  - rewrite Hs'. rewrite <- app_assoc in Hh'. exists s'. split_and!; auto. by destruct Hf'.
Qed.

(** ** Comparing *)

Definition changed (before after : Z -> page) (l : list Z) : list Z :=
  filter (fun pfn => dg (after pfn) <> dg (before pfn)) l.

(** What comparing the page [pfn] does to the marks. *)
Definition compared (abort_on_resave : bool) (before after : Z -> page) (pfn : Z) (s : checksum_state)
    : checksum_state :=
  if bool_decide (dg (after pfn) = dg (before pfn)) then s
  else s {{ resave := {[pfn]} ∪ resave s; toi_num_resaved := s32 (toi_num_resaved s + 1);
            ck_result := if abort_on_resave then set_abort_result TOI_RESAVE_NEEDED (ck_result s)
                         else ck_result s }}.

(** The loop's value of [pfn] and the bitmap's cursor, with [todo] to visit. *)
Definition visiting (bm : memory_bitmap) (pfn : Z) (todo : list Z) : Prop :=
  match todo with
  | [] => pfn = BM_END_OF_MAP
  | p :: t => pfn = p /\ rest_pfns bm = t
  end.

Lemma visiting_next bm todo :
  wf_bitmap bm -> bm_blocks bm <> [] -> rest_pfns bm = todo ->
  exists bm' v, memory_bm_next_pfn bm = Some (bm', v) /\ wf_bitmap bm' /\ bm_blocks bm' = bm_blocks bm /\
    visiting bm' v todo.
Proof.
  intros Hw Hne <-. destruct (next_pfn_spec bm Hw Hne) as (bm' & v & Hn & Hw' & Hb & Hr).
  exists bm', v. split_and!; auto. unfold visiting. destruct (rest_pfns bm); [apply Hr|].
  by destruct Hr as (-> & -> & _).
Qed.

Definition same_marks (s t : checksum_state) : Prop :=
  resave s = resave t /\ toi_num_resaved s = toi_num_resaved t /\ ck_result s = ck_result t.

#[local] Instance same_marks_equiv : Equivalence same_marks.
Proof. unfold same_marks. split; [done|intros ? ?; intuition congruence|intros ? ? ?; intuition congruence]. Qed.

Lemma compared_marks a before after pfn s t :
  same_marks s t -> same_marks (compared a before after pfn s) (compared a before after pfn t).
Proof.
  intros (E1 & E2 & E3). unfold compared. case_bool_decide; [done|].
  split_and!; simpl; by rewrite ?E1, ?E2, ?E3.
Qed.

Lemma foldl_marks a before after l s t :
  same_marks s t ->
  same_marks (foldl (fun s p => compared a before after p s) s l) (foldl (fun s p => compared a before after p s) t l).
Proof. revert s t. induction l; intros s t Hst; [done|]. apply IHl. by apply compared_marks. Qed.

Lemma compared_chain a before after pfn s :
  (wf_chain s ps -> wf_chain (compared a before after pfn s) ps) /\
  frames (compared a before after pfn s) = frames s /\
  (forall i, at_slot s ps i -> at_slot (compared a before after pfn s) ps i) /\
  (hash_ready cpu s -> hash_ready cpu (compared a before after pfn s)).
Proof. unfold compared. case_bool_decide; [done|]. split_and!; try done. by intros []. Qed.

(** The checking pass from slot [i] on. *)
Lemma check_loop_ok a before after todo fuel bm pfn s i :
  wf_bitmap bm -> bm_blocks bm <> [] -> visiting bm pfn todo -> (length todo < fuel)%nat ->
  wf_chain s ps -> at_slot s ps i -> hash_ready cpu s -> (i + length todo <= per_page * length ps)%nat ->
  (forall j p, todo !! j = Some p -> load_digest (slot ps (i + j)) (frames s) = Some (dg (before p))) ->
  Forall (fun p => full_page (after p) /\ 0 <= p < 2 ^ 31) todo ->
  exists bm' s', check_loop digest fuel cpu after a (s32 pfn) (Z.of_nat i) bm s = Some (bm', s') /\
    wf_chain s' ps /\ same_marks s' (foldl (fun s p => compared a before after p s) s todo).
Proof.
  revert fuel bm pfn s i.
  induction todo as [|p todo IH]; intros [|fuel] bm pfn s i Hbm Hne Hv Hf Hw Ha Hr Hl Hd Hall; try (simpl in Hf; lia).
  { simpl in Hv. subst. exists bm, s. done. }
  destruct Hv as [-> Hrest]. apply Forall_cons_1 in Hall as [[Hp Hp31] Hall]. cbn [length] in *.
  cbn [check_loop]. rewrite (s32_small p) by lia. rewrite u64_small by lia.
  rewrite (proj2 (Z.eqb_neq p BM_END_OF_MAP)) by (unfold BM_END_OF_MAP; lia).
  rewrite (next_slot_ok s ps i) by (auto; lia). cbn [mbind option_bind].
  match goal with |- context [hash_page _ _ _ ?x] => set (s1 := x) end.
  destruct (hash_page_ok (after p) s1 Hr Hp) as (cs & Hhash & Hr2). rewrite Hhash.
  set (s2 := s1 {{ hash_contexts := cs }}) in *.
  assert (wf_chain s2 ps) as Hw2 by (by destruct Hw).
  assert (at_slot s2 ps (S i)) as Ha2.
  { split; [done|]. intros _. simpl. by rewrite Nat.sub_0_r. }
  cbn [mbind option_bind Z.eqb negb]. change (this_checksum s2) with (slot ps i). change (frames s2) with (frames s).
  assert (load_digest (slot ps i) (frames s) = Some (dg (before p))) as ->
    by (rewrite <- (Nat.add_0_r i); by apply Hd). cbn [mbind option_bind].
  change (if bool_decide (dg (after p) = dg (before p)) then s2 else _) with (compared a before after p s2).
  destruct (compared_chain a before after p s2) as (Hcw & Hcf & Hca & Hcr).
  destruct (visiting_next bm todo Hbm Hne Hrest) as (bm' & v & Hn & Hbm' & Hb' & Hv'). rewrite Hn.
  cbn [mbind option_bind].
  destruct (IH fuel bm' v (compared a before after p s2) (S i)) as (bm2 & s' & Hc & Hw' & Hm); auto.
  - by rewrite Hb'.
  - lia.
  - lia.
  - intros j q Hj. rewrite Hcf. change (frames s2) with (frames s). rewrite <- (Hd (S j) q) by done.
    f_equal. f_equal. lia.
  - replace (Z.of_nat i + 1) with (Z.of_nat (S i)) by lia. exists bm2, s'. split_and!; [done|done|].
    etrans; [exact Hm|]. cbn [foldl]. by apply foldl_marks, compared_marks.
Qed.

End Passes.

Lemma set_abort_idemp f w : set_abort_result f (set_abort_result f w) = set_abort_result f w.
Proof.
  unfold set_abort_result, set_result_state, set_flag. rewrite !Z.setbit_spec'. rewrite <- !Z.lor_assoc.
  f_equal. apply Z.bits_inj. intros n. rewrite !Z.lor_spec.
  by destruct (Z.testbit _ n), (Z.testbit _ n).
Qed.

(** The marks after the whole pass. *)
Lemma foldl_compared dg a before after l s :
  0 <= toi_num_resaved s -> toi_num_resaved s + Z.of_nat (length l) < 2 ^ 31 ->
  let t := foldl (fun s p => compared dg a before after p s) s l in
  resave t = list_to_set (changed dg before after l) ∪ resave s /\
  toi_num_resaved t = toi_num_resaved s + Z.of_nat (length (changed dg before after l)) /\
  ck_result t = (if a && negb (bool_decide (changed dg before after l = []))
                 then set_abort_result TOI_RESAVE_NEEDED (ck_result s) else ck_result s).
Proof.
  revert s. induction l as [|p l IH]; intros s Hn Hb.
  { cbn. rewrite andb_false_r. split_and!; [set_solver|lia|done]. }
  cbn [foldl length] in *. unfold changed. rewrite filter_cons. fold (changed dg before after l).
  destruct (decide (dg (after p) = dg (before p))) as [E|E].
  - rewrite decide_False by tauto. replace (compared dg a before after p s) with s; [apply IH; lia|].
    unfold compared. by rewrite bool_decide_eq_true_2.
  - rewrite decide_True by done. specialize (IH (s {{ resave := {[p]} ∪ resave s;
      toi_num_resaved := s32 (toi_num_resaved s + 1);
      ck_result := if a then set_abort_result TOI_RESAVE_NEEDED (ck_result s) else ck_result s }})).
    cbn in IH. rewrite s32_small in IH by lia. unfold compared at 2 4 6.
    rewrite (bool_decide_eq_false_2 (dg (after p) = dg (before p))) by done. cbn. rewrite s32_small by lia.
    destruct IH as (-> & -> & ->); [lia..|]. split_and!; [set_solver|cbn [length]; lia|].
    destruct a; [|done]. simpl. case_bool_decide; [done|].
    apply set_abort_idemp.
Qed.

(** ** Allocating and freeing the chain *)

(** The pages the allocator will give: page-aligned, distinct, not in use. *)
Definition given (s : checksum_state) : list Z := omap id (page_supply s).

Record fresh_supply (s : checksum_state) : Prop := {
  fs_distinct : NoDup (given s);
  fs_fresh : Forall (fun p => 0 < p < 2 ^ 64 /\ p mod PAGE_SIZE = 0 /\ frames s !! p = None /\ p ∉ nosave s) (given s)
}.

Lemma new_page_word v : 0 <= v < 2 ^ 64 -> le_val (take 8 (splice zero_page 0 (le_bytes 8 v))) = v.
Proof.
  intros Hv. transitivity (le_val (le_bytes 8 v)); [by f_equal|rewrite le_val_bytes8; by apply u64_small].
Qed.

Lemma wf_chain_page_list s ps : wf_chain s ps -> 0 <= page_list s < 2 ^ 64.
Proof.
  intros Hw. rewrite (wc_head _ _ Hw). destruct ps as [|p ps]; simpl; [lia|].
  pose proof (Forall_inv (wc_aligned _ _ Hw)) as [? _]. lia.
Qed.

(** A page put at the head of the chain. *)
Definition with_page (p : Z) (s : checksum_state) : checksum_state :=
  s {{ nosave := nosave s ∪ {[p]};
       frames := <[p := splice zero_page 0 (le_bytes 8 (page_list s))]> (frames s);
       page_list := p; pages_allocated := pages_allocated s + 1 }}.

Lemma with_page_chain s ps p :
  wf_chain s ps -> 0 < p < 2 ^ 64 -> p mod PAGE_SIZE = 0 -> frames s !! p = None ->
  wf_chain (with_page p s) (p :: ps).
Proof.
  intros Hw Hp Hal Hno. pose proof (wf_chain_page_list s ps Hw) as Hpl.
  destruct Hw as [Hh Hn Hd Ha Hf Hc].
  assert (p ∉ ps) as Hnp.
  { intros Hin. rewrite Forall_forall in Hf. destruct (Hf p Hin) as (pg & Hpg & _). congruence. }
  split; simpl; auto.
  - intros [|k] q; simpl.
    + intros [= <-]. unfold first_word. rewrite lookup_insert_eq. simpl. f_equal. rewrite <- Hh.
      by apply new_page_word.
    + intros Hq. rewrite <- (Hn k q Hq). unfold first_word. rewrite lookup_insert_ne; [done|].
      intros ->. apply Hnp. by eapply list_elem_of_lookup_2.
  - by constructor.
  - constructor.
    + rewrite lookup_insert_eq. eexists. split; [done|]. apply splice_full; [apply zero_page_full|].
      unfold PAGE_SIZE. simpl. lia.
    + rewrite Forall_forall in *. intros q Hq. rewrite lookup_insert_ne; [auto|by intros ->].
  - lia.
Qed.

Lemma with_page_supply s p t :
  fresh_supply s -> page_supply s = Some p :: t ->
  fresh_supply (with_page p (s {{ page_supply := t }})) /\
  (0 < p < 2 ^ 64 /\ p mod PAGE_SIZE = 0 /\ frames s !! p = None /\ p ∉ nosave s).
Proof.
  intros [Hd Hf] E. unfold given in *. rewrite E in *. cbn in Hd, Hf.
  apply NoDup_cons in Hd as [Hp Hd]. apply Forall_cons_1 in Hf as [Hpf Hf]. split; [|done].
  split; unfold given; simpl; [done|]. rewrite Forall_forall in *. intros q Hq.
  destruct (Hf q Hq) as (H1 & H2 & H3 & H4). assert (q <> p) by (intros ->; done).
  rewrite lookup_insert_ne by done. split_and!; try done; [lia..|].
  rewrite elem_of_union, elem_of_singleton. tauto.
Qed.

(** What the loop adds to the chain. *)
Lemma allocate_loop_ok n s ps :
  wf_chain s ps -> fresh_supply s ->
  exists s' r news, allocate_loop n s = (s', r) /\ wf_chain s' (news ++ ps) /\ fresh_supply s' /\
    (r = 0 /\ length news = n \/ r = - ENOMEM /\ (length news < n)%nat) /\
    nosave s' = nosave s ∪ list_to_set news /\ (forall p, p ∈ news -> frames s !! p = None /\ p ∉ nosave s) /\
    (forall p, p ∉ news -> frames s' !! p = frames s !! p) /\
    hash_contexts s' = hash_contexts s /\ checksum_enabled s' = checksum_enabled s.
Proof.
  revert s ps. induction n as [|n IH]; intros s ps Hw Hs; cbn [allocate_loop].
  { exists s, 0, []. split_and!; auto; [set_solver|by intros p ?%elem_of_nil]. }
  unfold ck_get_page. destruct (page_supply s) as [|[p|] t] eqn:E; cbn [head tail mjoin option_join].
  - exists (s {{ page_supply := [] }}), (- ENOMEM), []. split_and!; try done; [by destruct Hw| |right; split; [done|simpl; lia]|set_solver|by intros p ?%elem_of_nil].
    destruct Hs as [Hd Hf]. unfold given in *. rewrite E in *. by split.
  - destruct (with_page_supply s p t Hs E) as [Hs' (Hp & Hal & Hno & Hns)].
    destruct (IH (with_page p (s {{ page_supply := t }})) (p :: ps)) as (s' & r & news & Ha & Hw' & Hs2 & Hr & Hn & Hfr & Hk & Hc & He);
      [apply with_page_chain; auto; by destruct Hw|done|].
    exists s', r, (news ++ [p]). rewrite <- app_assoc. split_and!; auto.
    + rewrite length_app. simpl. destruct Hr as [[-> ?]|[-> ?]]; [left|right]; split; lia || done.
    + rewrite Hn. simpl. set_solver.
    + intros q Hq. apply elem_of_app in Hq as [Hq|Hq%list_elem_of_singleton]; [|by subst].
      destruct (Hfr q Hq) as [H1 H2]. simpl in H1, H2. split; [|set_solver].
      apply lookup_insert_None in H1. tauto.
    + intros q Hq. apply not_elem_of_app in Hq as [Hq1 Hq2]. rewrite Hk by done. simpl.
      rewrite lookup_insert_ne; [done|]. intros ->. apply Hq2. by left.
  - exists (s {{ page_supply := t }}), (- ENOMEM), []. split_and!; try done; [by destruct Hw| |right; split; [done|simpl; lia]|set_solver|by intros p ?%elem_of_nil].
    destruct Hs as [Hd Hf]. unfold given in *. rewrite E in *. by split.
Qed.

Lemma allocate_ok size s ps :
  wf_chain s ps -> fresh_supply s -> checksum_enabled s = true -> 0 <= size -> size < 2 ^ 31 ->
  exists s' r news, allocate_checksum_pages size s = (s', r) /\ wf_chain s' (news ++ ps) /\
    (r = 0 /\ (Z.to_nat size <= per_page * length (news ++ ps))%nat /\ at_slot s' (news ++ ps) 0 /\
     checksum_index s' = 0 \/ r = - ENOMEM) /\
    nosave s' = nosave s ∪ list_to_set news /\ (forall p, p ∈ news -> frames s !! p = None /\ p ∉ nosave s) /\
    (forall p, p ∉ news -> frames s' !! p = frames s !! p) /\
    hash_contexts s' = hash_contexts s /\ checksum_enabled s' = true.
Proof.
  intros Hw Hs He H0 Hb. unfold allocate_checksum_pages. rewrite He. cbn [negb].
  destruct (allocate_loop_ok (Z.to_nat (checksum_pages_needed size - pages_allocated s)) s ps Hw Hs)
    as (s' & r & news & Ha & Hw' & _ & Hr & Hn & Hfr & Hk & Hc & He'). rewrite Ha.
  destruct Hr as [[-> Hl]|[-> Hl]]; cbn [Z.eqb].
  2: { exists s', (- ENOMEM), news. split_and!; auto. congruence. }
  eexists _, 0, news. split; [done|]. split; [by destruct Hw'|]. split_and!; simpl; auto; [|congruence].
  left. split_and!; auto.
  - rewrite (wc_count _ _ Hw) in Hl. rewrite length_app, Hl. unfold checksum_pages_needed in *.
    assert (1 <= CHECKSUMS_PER_PAGE) by (rewrite per_page_value; unfold per_page; lia).
    pose proof (DIV_ROUND_UP_spec size CHECKSUMS_PER_PAGE ltac:(lia) ltac:(lia)) as Hd.
    rewrite per_page_value in *. set (d := DIV_ROUND_UP _ _) in *.
    assert (0 <= d <= size) by (unfold per_page in *; lia).
    rewrite s32_small by lia. unfold per_page in *. lia.
  - split; [|by intros []]. apply (wc_head _ _ Hw').
Qed.

(** Freeing gives every page of the chain back. *)
Lemma free_loop_ok ps s :
  wf_chain s ps ->
  exists s', free_loop (length ps) s = Some s' /\ wf_chain s' [] /\ page_list s' = 0 /\
    nosave s' = nosave s ∖ list_to_set ps /\ (forall p, frames s' !! p = if decide (p ∈ ps) then None else frames s !! p).
Proof.
  revert s. induction ps as [|p ps IH]; intros s Hw.
  { exists s. split_and!; [done|done|apply Hw|set_solver|]. intros q. by rewrite decide_False by apply not_elem_of_nil. }
  pose proof Hw as [Hh Hn Hd Ha Hf Hc]. simpl in Hh. cbn [length free_loop]. rewrite Hh.
  rewrite (Hn 0%nat p) by done. cbn [mbind option_bind].
  apply NoDup_cons in Hd as [Hp Hd].
  match goal with |- context [free_loop _ ?x] => set (s1 := x) end.
  destruct (IH s1) as (s' & Hs' & Hw' & Hpl & Hns & Hfr).
  { split; unfold s1; simpl; auto.
    - intros k q Hq. pose proof (Hn (S k) q Hq) as Hw1. unfold first_word in *.
      rewrite lookup_delete_ne; [exact Hw1|]. intros ->. apply Hp. by eapply list_elem_of_lookup_2.
    - by apply Forall_cons_1 in Ha as [_ Ha].
    - apply Forall_cons_1 in Hf as [_ Hf]. rewrite Forall_forall in *. intros q Hq.
      rewrite lookup_delete_ne; [auto|by intros ->].
    - simpl in Hc. lia. }
  exists s'. split_and!; auto.
  - rewrite Hns. unfold s1. simpl. set_solver.
  - intros q. rewrite Hfr. unfold s1. cbn [frames set_field]. simpl. destruct (decide (q = p)) as [->|Hq].
    + rewrite (decide_True (P := p ∈ p :: ps)) by (by left). by rewrite lookup_delete_eq; destruct (decide _).
    + rewrite lookup_delete_ne by done. destruct (decide (q ∈ ps)); [rewrite decide_True by (by right)|rewrite decide_False]; try done.
      by intros [?|?]%elem_of_cons.
Qed.

(** Allocating and freeing the checksum pages.  From an empty chain and an
    allocator that gives fresh pages, [allocate_checksum_pages] returns 0 with
    slots for every page of pageset 2, or [-ENOMEM] when the allocator ran
    out; either way what was allocated is one well-formed chain of nosave
    pages, and [free_checksum_pages] ends, giving every page back and leaving
    memory and the nosave marks as they were. *)
Theorem checksum_pages_lifecycle size s
  (Hw : wf_chain s []) (Hs : fresh_supply s) (He : checksum_enabled s = true) (Hsize : 0 <= size < 2 ^ 31) :
  exists s1 r ps s2, allocate_checksum_pages size s = (s1, r) /\ wf_chain s1 ps /\
    (r = 0 /\ size <= CHECKSUMS_PER_PAGE * Z.of_nat (length ps) \/ r = - ENOMEM) /\
    Forall (fun p => p ∈ nosave s1) ps /\
    free_checksum_pages s1 = Some s2 /\ wf_chain s2 [] /\ frames s2 = frames s /\ nosave s2 = nosave s.
Proof.
  destruct (allocate_ok size s [] Hw Hs He) as (s1 & r & news & Ha & Hw1 & Hr & Hn & Hfr & Hk & _); [lia..|].
  rewrite app_nil_r in *. destruct (free_loop_ok news s1 Hw1) as (s2 & Hf & Hw2 & _ & Hns & Hfs).
  exists s1, r, news, s2. split_and!; auto.
  - destruct Hr as [(-> & Hl & _)| ->]; [left|by right]. split; [done|]. rewrite per_page_value. lia.
  - apply Forall_forall. intros p Hp. rewrite Hn. set_solver.
  - unfold free_checksum_pages. by rewrite (wc_count _ _ Hw1), Nat2Z.id.
  - apply map_eq. intros p. rewrite Hfs. destruct (decide (p ∈ news)) as [Hp|Hp]; [|by apply Hk].
    symmetry. by apply Hfr.
  - rewrite Hns, Hn. apply set_eq. intros p. rewrite elem_of_difference, elem_of_union, elem_of_list_to_set.
    split; [tauto|]. intros Hp. split; [by left|]. intros Hpn. by destruct (Hfr p Hpn).
Qed.

Lemma changes_found digest dg cpu size s ps bm before after a fuel
  (Hmd : md digest dg) (Hw : wf_chain s ps) (Hs : fresh_supply s) (He : checksum_enabled s = true)
  (Hr : hash_ready cpu s) (Hbm : wf_blocks 0 (bm_blocks bm)) (Hne : bm_blocks bm <> [])
  (Hsize : size = Z.of_nat (length (pfns (bm_blocks bm)))) (Hsmall : size < 2 ^ 31)
  (Hpfns : Forall (fun p => full_page (before p) /\ full_page (after p) /\ 0 <= p < 2 ^ 31) (pfns (bm_blocks bm)))
  (Hfuel : (length (pfns (bm_blocks bm)) < fuel)%nat) :
  (exists s1, allocate_checksum_pages size s = (s1, - ENOMEM)) \/
  exists s1 s2 bm' s3 qs, allocate_checksum_pages size s = (s1, 0) /\
    store_checksums digest cpu before (pfns (bm_blocks bm)) s1 = Some (s2, 0) /\
    check_checksums digest fuel cpu after a bm s2 = Some (bm', s3) /\ wf_chain s3 qs /\
    resave s3 = list_to_set (changed dg before after (pfns (bm_blocks bm))) ∪ resave s2 /\
    toi_num_resaved s3 = Z.of_nat (length (changed dg before after (pfns (bm_blocks bm)))) /\
    ck_result s3 = (if a && negb (bool_decide (changed dg before after (pfns (bm_blocks bm)) = []))
                    then set_abort_result TOI_RESAVE_NEEDED (ck_result s2) else ck_result s2).
Proof.
  set (l := pfns (bm_blocks bm)) in *.
  destruct (allocate_ok size s ps Hw Hs He) as (s1 & r & news & Ha & Hw1 & Hr1 & _ & _ & _ & Hc1 & He1); [lia..|].
  destruct Hr1 as [(-> & Hcap & Hat & Hix)| ->]; [right|left; by eexists].
  destruct (store_checksums_ok digest dg Hmd cpu (news ++ ps) before l s1 0 []) as (s2 & Hst & Hw2 & Hr2 & Hh2 & Hf2);
    auto; try lia.
  { destruct Hr as (c & b & Hcb). exists c, b. by rewrite Hc1. }
  { by intros j d ?. }
  { eapply Forall_impl; [exact Hpfns|]. naive_solver. }
  set (s2' := s2 {{ next_page := page_list s2; toi_num_resaved := 0; this_checksum := 0 }}).
  destruct (visiting_next (memory_bm_position_reset bm) l) as (bm1 & v & Hn & Hbm1 & Hb1 & Hv);
    [by apply reset_wf|done|apply reset_rest|].
  destruct (check_loop_ok digest dg Hmd cpu (news ++ ps) a before after l fuel bm1 v s2' 0) as (bm' & s3 & Hck & Hw3 & Hm);
    auto; try lia.
  { by rewrite Hb1. }
  { by destruct Hw2. }
  { split; [|by intros []]. apply (wc_head _ _ Hw2). }
  { intros j p Hj. simpl. apply Hh2. simpl. by rewrite list_lookup_fmap, Hj. }
  { eapply Forall_impl; [exact Hpfns|]. naive_solver. }
  exists s1, s2, bm', s3, (news ++ ps). split_and!; auto.
  { unfold check_checksums. rewrite (pf_enabled _ _ Hf2), He1. cbn [negb]. rewrite Hn. done. }
  all: destruct Hm as (E1 & E2 & E3);
    destruct (foldl_compared dg a before after l s2') as (F1 & F2 & F3); simpl; try lia;
    rewrite ?E1, ?E2, ?E3, ?F1, ?F2, ?F3; done.
Qed.

(** Freeing the checksum pages leaves the marks. *)
Lemma free_loop_marks n s s' : free_loop n s = Some s' -> resave s' = resave s /\ ck_result s' = ck_result s.
Proof.
  revert s. induction n as [|n IH]; intros s Hs; cbn [free_loop] in Hs; [by injection Hs as <-|].
  destruct (first_word _ _); [|done]. cbn [mbind option_bind] in Hs. by apply IH in Hs.
Qed.

Lemma free_checksum_pages_ok s ps :
  wf_chain s ps -> exists s', free_checksum_pages s = Some s' /\ resave s' = resave s /\ ck_result s' = ck_result s.
Proof.
  intros Hw. destruct (free_loop_ok ps s Hw) as (s' & Hf & _). exists s'. unfold free_checksum_pages.
  rewrite (wc_count _ _ Hw), Nat2Z.id. split; [done|]. by apply free_loop_marks in Hf.
Qed.

(** C22: pages of pageset 2 that changed are found, and only those.  After the
    checksum pages were allocated and a digest of every page of the bitmap
    was stored while it was written, [check_checksums] ends and marks for
    resaving exactly the page frames whose digest is no longer what it was,
    counts them, and requests an abort when it was told to and there are any. *)
Theorem checksums_detect_changes digest dg cpu size s ps bm before after a fuel
  (Hmd : md digest dg) (Hw : wf_chain s ps) (Hs : fresh_supply s) (He : checksum_enabled s = true)
  (Hr : hash_ready cpu s) (Hbm : wf_blocks 0 (bm_blocks bm)) (Hne : bm_blocks bm <> [])
  (Hsize : size = Z.of_nat (length (pfns (bm_blocks bm)))) (Hsmall : size < 2 ^ 31)
  (Hpfns : Forall (fun p => full_page (before p) /\ full_page (after p) /\ 0 <= p < 2 ^ 31) (pfns (bm_blocks bm)))
  (Hfuel : (length (pfns (bm_blocks bm)) < fuel)%nat) :
  (exists s1, allocate_checksum_pages size s = (s1, - ENOMEM)) \/
  exists s1 s2 bm' s3, allocate_checksum_pages size s = (s1, 0) /\
    store_checksums digest cpu before (pfns (bm_blocks bm)) s1 = Some (s2, 0) /\
    check_checksums digest fuel cpu after a bm s2 = Some (bm', s3) /\
    resave s3 = list_to_set (changed dg before after (pfns (bm_blocks bm))) ∪ resave s2 /\
    toi_num_resaved s3 = Z.of_nat (length (changed dg before after (pfns (bm_blocks bm)))) /\
    ck_result s3 = (if a && negb (bool_decide (changed dg before after (pfns (bm_blocks bm)) = []))
                    then set_abort_result TOI_RESAVE_NEEDED (ck_result s2) else ck_result s2).
Proof.
  destruct (changes_found digest dg cpu size s ps bm before after a fuel)
    as [Hno|(s1 & s2 & bm' & s3 & qs & H1 & H2 & H3 & _ & H4)]; auto.
  right. exists s1, s2, bm', s3. auto.
Qed.

(** ** A concrete run: three pages, the second one changes *)

Definition sample_md (p : page) : list Z := le_bytes 16 (hd 0 p).

Lemma sample_md_ok : md (fun p => (0, sample_md p)) sample_md.
Proof. split; [done|]. intros p. apply length_le_bytes. Qed.

Definition sample_checksums : checksum_state :=
  ChecksumState [HashContext true (Some zero_page)] true [109; 100; 52; 0] 0 0 0 0 0 0 ∅ ∅ ∅
    [Some 4096; Some 12288] 0.

Lemma sample_checksums_chain : wf_chain sample_checksums [].
Proof. by split; try constructor. Qed.

Lemma sample_checksums_supply : fresh_supply sample_checksums.
Proof.
  split; [by apply (bool_decide_unpack _)|].
  by repeat (apply Forall_cons_2; [split_and!; done|]).
Qed.

Lemma sample_hash_ready : hash_ready 0 sample_checksums.
Proof. exists (HashContext true (Some zero_page)), zero_page. split_and!; done. Qed.

Definition page_one : page := 1 :: tail zero_page.

Lemma page_one_full : full_page page_one.
Proof. unfold full_page, page_one. pose proof zero_page_full as H. unfold full_page in H. by destruct zero_page. Qed.

Definition sample_after (pfn : Z) : page := if pfn =? 18 then page_one else zero_page.

Lemma checksum_pages_lifecycle_witness :
  exists s1 r ps s2, allocate_checksum_pages 300 sample_checksums = (s1, r) /\ wf_chain s1 ps /\
    (r = 0 /\ 300 <= CHECKSUMS_PER_PAGE * Z.of_nat (length ps) \/ r = - ENOMEM) /\
    Forall (fun p => p ∈ nosave s1) ps /\
    free_checksum_pages s1 = Some s2 /\ wf_chain s2 [] /\ frames s2 = ∅ /\ nosave s2 = ∅.
Proof.
  apply (checksum_pages_lifecycle 300 sample_checksums); [apply sample_checksums_chain|apply sample_checksums_supply|done|lia].
Defined.

Lemma checksums_detect_changes_witness :
  exists s1 s2 bm' s3, allocate_checksum_pages 3 sample_checksums = (s1, 0) /\
    store_checksums (fun p => (0, sample_md p)) 0 (fun _ => zero_page) [16; 18; 39] s1 = Some (s2, 0) /\
    check_checksums (fun p => (0, sample_md p)) 4 0 sample_after true sample s2 = Some (bm', s3) /\
    toi_num_resaved s3 = 1.
Proof.
  destruct (checksums_detect_changes (fun p => (0, sample_md p)) sample_md 0 3 sample_checksums [] sample
    (fun _ => zero_page) sample_after true 4) as [(s1 & E)|(s1 & s2 & bm' & s3 & H1 & H2 & H3 & _ & H4 & _)].
  - apply sample_md_ok.
  - apply sample_checksums_chain.
  - apply sample_checksums_supply.
  - done.
  - apply sample_hash_ready.
  - apply sample_wf.
  - done.
  - vm_compute. reflexivity.
  - lia.
  - change (pfns (bm_blocks sample)) with [16; 18; 39]. unfold sample_after.
    repeat (apply Forall_cons_2; [simpl; split_and!; auto using zero_page_full, page_one_full; lia|]).
    apply Forall_nil_2.
  - vm_compute. lia.
  - vm_compute in E. discriminate E.
  - exists s1, s2, bm', s3. split_and!; auto.
Defined.
