(* ===== verification/BitmapSet.v ===== *)
(** * The page bitmaps as sets of page frames

    The image code uses a [struct memory_bitmap] as a set of page frames,
    through the flag macros of tuxonice_pageflags.h and the iteration
    [memory_bm_next_pfn].  This file states that contract as an abstract
    machine over finite sets and shows that the bitmap code refines it, for
    any sequence of operations; the files that model the image code then use
    sets. *)

From S2P Require Import Prelude MemoryBitmap.
From stdpp Require Import numbers base list gmap sorting.
#[local] Open Scope Z_scope.

Inductive flag_op :=
| SetFlag (pfn : Z)
| ClearFlag (pfn : Z)
| TestFlag (pfn : Z)
| ClearAll
| Walk.                (* reset, then every frame until BM_END_OF_MAP *)

Inductive answer := Done | Bit (b : bool) | Frames (l : list Z).

(** ** The abstract machine *)

Inductive set_step : gset Z -> flag_op -> answer -> gset Z -> Prop :=
| set_set s p : set_step s (SetFlag p) Done ({[p]} ∪ s)
| set_clear s p : set_step s (ClearFlag p) Done (s ∖ {[p]})
| set_test s p : set_step s (TestFlag p) (Bit (bool_decide (p ∈ s))) s
| set_clear_all s : set_step s ClearAll Done ∅
| set_walk s l : ascending 0 l -> (forall q, q ∈ l <-> q ∈ s) -> set_step s Walk (Frames l) s.

Inductive set_run : gset Z -> list flag_op -> list answer -> gset Z -> Prop :=
| run_nil s : set_run s [] [] s
| run_cons s o a s1 os rs s2 : set_step s o a s1 -> set_run s1 os rs s2 -> set_run s (o :: os) (a :: rs) s2.

(** ** The bitmap code *)

Section Concrete.
Context (hw : head_words).

Definition bitmap_step (bm : memory_bitmap) (o : flag_op) : option (memory_bitmap * answer) :=
  match o with
  | SetFlag p => (fun bm => (bm, Done)) <$> memory_bm_set_bit hw bm p
  | ClearFlag p => (fun bm => (bm, Done)) <$> memory_bm_clear_bit hw bm p
  | TestFlag p => (fun '(bm, b) => (bm, Bit b)) <$> memory_bm_test_bit hw bm p
  | ClearAll => (fun bm => (bm, Done)) <$> memory_bm_clear hw (length (pfns (bm_blocks bm))) bm
  | Walk => (fun '(l, bm) => (bm, Frames l)) <$>
              collect (S (length (pfns (bm_blocks bm)))) (memory_bm_position_reset bm)
  end.

Fixpoint bitmap_run (bm : memory_bitmap) (os : list flag_op) : option (memory_bitmap * list answer) :=
  match os with
  | [] => Some (bm, [])
  | o :: os' =>
      match bitmap_step bm o with
      | Some (bm, a) => (fun '(bm, rs) => (bm, a :: rs)) <$> bitmap_run bm os'
      | None => None
      end
  end.

(** ** The refinement relation *)

Record represents (bm : memory_bitmap) (s : gset Z) : Prop := {
  rep_wf : wf_bitmap bm;
  rep_some : bm_blocks bm <> [];
  rep_bits : forall q, q ∈ s <-> bit_of (bm_blocks bm) q = true
}.

(** The frames an operation names are frames of the machine. *)
Definition op_covered (bm : memory_bitmap) (o : flag_op) : Prop :=
  match o with SetFlag p | ClearFlag p | TestFlag p => covers (bm_blocks bm) p | _ => True end.

Lemma updated_represents bm bm' p v s :
  represents bm s -> updated bm bm' p v ->
  represents bm' (if v then {[p]} ∪ s else s ∖ {[p]}) /\ same_cover bm bm'.
Proof.
  intros [Hw Hne Hb] Hu. pose proof (updated_same_cover _ _ _ _ Hu) as Hc. split; [|done].
  destruct Hu as (Hw' & _ & Hbit & _). split; [done|by apply Hc|].
  intros q. rewrite Hbit. destruct (Z.eqb_spec q p) as [->|Hq]; destruct v; set_solver.
Qed.

Lemma bitmap_step_refines bm s o :
  represents bm s -> op_covered bm o ->
  exists bm' a s', bitmap_step bm o = Some (bm', a) /\ set_step s o a s' /\ represents bm' s' /\ same_cover bm bm'.
Proof.
  intros Hr Hc. pose proof Hr as [Hw Hne Hb]. destruct o as [p|p|p| |]; cbn [bitmap_step op_covered] in *.
  - destruct (set_bit_ok hw bm p Hw Hc) as (bm' & -> & Hu).
    destruct (updated_represents _ _ _ _ _ Hr Hu). eexists _, _, _. by split_and!; [|constructor|..].
  - destruct (clear_bit_ok hw bm p Hw Hc) as (bm' & -> & Hu).
    destruct (updated_represents _ _ _ _ _ Hr Hu). eexists _, _, _. by split_and!; [|constructor|..].
  - destruct (test_bit_ok hw bm p Hw Hc) as (bm' & -> & Hw' & Hbl & _).
    exists bm', (Bit (bool_decide (p ∈ s))), s. split_and!.
    + simpl. do 3 f_equal. case_bool_decide as E; rewrite Hb in E; [done|by apply not_true_is_false].
    + constructor.
    + split; rewrite ?Hbl; done.
    + split_and!; rewrite ?Hbl; done.
  - destruct (memory_bm_clear_ok hw (length (pfns (bm_blocks bm))) bm) as (bm' & -> & Hsc & H0); [apply Hw|done|lia|].
    exists bm', Done, ∅. split_and!; [done|constructor| |done]. split; [apply Hsc|by apply Hsc|].
    intros q. rewrite H0. set_solver.
  - pose proof (wfb_blocks _ Hw) as Hwb.
    rewrite collect_ok; [|by apply reset_wf|done|rewrite reset_rest; lia]. rewrite reset_rest.
    exists (memory_bm_position_reset bm), (Frames (pfns (bm_blocks bm))), s. split_and!; [done| | |].
    + constructor; [by apply pfns_ascending|]. intros q. by rewrite elem_of_pfns, Hb.
    + split; [by apply reset_wf|done|done].
    + split_and!; [by apply reset_wf|done|done].
Qed.

(** C27: the bitmap code implements sets of page frames.  Whatever sequence of
    settings, clearings, tests, clears of the whole map and walks over it is
    run on frames the map covers, none hits a [BUG_ON] or runs past the end,
    and the answers are those of an execution of the set machine from the
    set the bitmap represents, a walk returning the elements in increasing
    order; at the end the bitmap represents the machine's set. *)
Theorem bitmap_refines_set (bm : memory_bitmap) (s : gset Z) (os : list flag_op)
  (Hr : represents bm s) (Hc : Forall (op_covered bm) os) :
  exists bm' rs s', bitmap_run bm os = Some (bm', rs) /\ set_run s os rs s' /\ represents bm' s'.
Proof.
  revert bm s Hr Hc. induction os as [|o os IH]; intros bm s Hr Hc.
  { exists bm, [], s. split_and!; [done|constructor|done]. }
  apply Forall_cons_1 in Hc as [Ho Hc].
  destruct (bitmap_step_refines bm s o Hr Ho) as (bm1 & a & s1 & E1 & Hs1 & Hr1 & Hsc).
  destruct (IH bm1 s1 Hr1) as (bm2 & rs & s2 & E2 & Hs2 & Hr2).
  { eapply Forall_impl; [exact Hc|]. intros [p|p|p| |]; simpl; try done; apply Hsc. }
  exists bm2, (a :: rs), s2. cbn [bitmap_run]. rewrite E1, E2. split_and!; [done|by econstructor|done].
Qed.
End Concrete.

Lemma bitmap_refines_set_witness :
  exists bm' s', bitmap_run (HeadWords 1 2) sample [SetFlag 33; ClearFlag 16; TestFlag 33; Walk]
      = Some (bm', [Done; Done; Bit true; Frames [18; 33; 39]]) /\
    set_run (list_to_set [16; 18; 39]) [SetFlag 33; ClearFlag 16; TestFlag 33; Walk]
      [Done; Done; Bit true; Frames [18; 33; 39]] s' /\ represents bm' s'.
Proof.
  destruct (bitmap_refines_set (HeadWords 1 2) sample (list_to_set [16; 18; 39])
    [SetFlag 33; ClearFlag 16; TestFlag 33; Walk]) as (bm' & rs & s' & E & Hs & Hr).
  - split; [apply sample_wf|done|]. intros q. rewrite elem_of_list_to_set.
    change [16; 18; 39] with (pfns (bm_blocks sample)). apply elem_of_pfns, sample_wf.
  - assert (covers (bm_blocks sample) 33) by (right; left; unfold in_block; simpl; lia).
    assert (covers (bm_blocks sample) 16) by (left; unfold in_block; simpl; lia).
    by repeat (apply Forall_cons_2; [done|]).
  - vm_compute in E. injection E as <- <-. eexists _, s'. split; [vm_compute; reflexivity|done].
Defined.

(** ** The order of a walk *)

(** The frames of a set in the order in which [memory_bm_next_pfn] gives
    them. *)
Definition walk (s : gset Z) : list Z := merge_sort Z.le (elements s).

Lemma elem_of_walk s p : p ∈ walk s <-> p ∈ s.
Proof. unfold walk. rewrite (merge_sort_Permutation Z.le). apply elem_of_elements. Qed.

Lemma walk_NoDup s : NoDup (walk s).
Proof. unfold walk. rewrite (merge_sort_Permutation Z.le). apply NoDup_elements. Qed.

Lemma length_walk s : length (walk s) = size s.
Proof. unfold walk. by rewrite (merge_sort_Permutation Z.le). Qed.

Lemma ascending_Sorted lo l : ascending lo l -> StronglySorted Z.le l.
Proof.
  revert lo. induction l as [|x l IH]; intros lo; [constructor|]. intros [_ Ha]. constructor; [by eapply IH|].
  apply Forall_forall. intros y Hy. pose proof (ascending_ge _ _ _ Ha Hy). lia.
Qed.

(** A walk of the abstract machine, and so of the bitmap, is this list. *)
Lemma set_walk_unique s l s' : set_step s Walk (Frames l) s' -> l = walk s.
Proof.
  inversion 1 as [| | | |? ? Ha Hl]; subst. apply (StronglySorted_unique Z.le).
  - by eapply ascending_Sorted.
  - apply (StronglySorted_merge_sort Z.le).
  - apply NoDup_Permutation; [by eapply ascending_NoDup|apply walk_NoDup|].
    intros p. by rewrite Hl, elem_of_walk.
Qed.

Lemma walk_sorted s : StronglySorted Z.lt (walk s).
Proof.
  pose proof (walk_NoDup s) as Hn. assert (StronglySorted Z.le (walk s)) as Hs by apply (StronglySorted_merge_sort Z.le).
  induction Hs as [|x l Hs IH Hx]; constructor.
  - apply IH. by apply NoDup_cons in Hn as [_ ?].
  - apply NoDup_cons in Hn as [Hn _]. apply Forall_forall. intros y Hy. pose proof (proj1 (Forall_forall _ _) Hx y Hy).
    assert (x <> y) by (intros ->; done). lia.
Qed.

Lemma filter_sorted (P : Z -> Prop) `{!forall x, Decision (P x)} l :
  StronglySorted Z.lt l -> StronglySorted Z.lt (filter P l).
Proof.
  induction 1 as [|x l Hs IH Hx]; [constructor|]. rewrite filter_cons. case_decide; [|done]. constructor; [done|].
  apply Forall_forall. intros y [_ Hy]%list_elem_of_filter. by apply (proj1 (Forall_forall _ _) Hx).
Qed.
