(* ===== verification/ImageFlags.v ===== *)
(** * Deciding what goes into the image

    kernel/power/tuxonice_prepare_image.c, from [build_attention_list] to
    [toi_mark_pages_for_pageset2] and from [generate_free_page_map] to
    [toi_recalculate_image_contents]; the page tests of
    kernel/power/snapshot.c it relies on; the flags of tuxonice_pageflags.h.

    The page flags are bitmaps over page frames.  Here each is the set of
    frames whose bit is set; that the bitmap code implements such a set is
    [BitmapSet.bitmap_refines_set].  What the memory manager knows about pages is in
    [mem_env] and [mzone]; the processes are [task]s. *)

From S2P Require Import Prelude States.
From stdpp Require Import numbers base list gmap.
#[local] Open Scope Z_scope.

(** ** Memory as the memory manager describes it *)

Record mem_env := MemEnv {
  pfn_valid : Z -> bool;
  page_zone : Z -> nat;
  PageHighMem : Z -> bool;
  PageReserved : Z -> bool;
  kernel_page_present : Z -> bool;
  pfn_is_nosave : Z -> bool;
  swsusp_page_is_forbidden : Z -> bool;
  swsusp_page_is_free : Z -> bool;
  atomic_copy_mapping : Z -> bool       (* mapping->host->i_flags & S_ATOMIC_COPY *)
}.

(** A populated zone: its frames, whether it is highmem, the free chunks of
    its buddy lists (order, first frame), the pages of the per-processor
    lists, and its LRU lists. *)
Record mzone := MZone {
  zone_id : nat;
  zone_first : Z;
  zone_spanned : Z;
  is_highmem : bool;
  free_area : list (nat * Z);
  pcp_lists : list Z;
  lru_lists : list (list Z)
}.

(** The frames [follow_page] finds in a vma, [None] where there is none. *)
Record vma := Vma { vm_start : Z; vm_special : bool; vm_pages : list (option Z) }.

Record task := Task {
  task_id : nat;
  PF_NOFREEZE : bool;
  PF_KTHREAD : bool;
  has_mm : bool;
  active_mm : list vma       (* [] without an address space *)
}.

(** ** The flags *)

Record page_flags := PageFlags {
  pageset1_map : gset Z;
  pageset1_copy_map : gset Z;
  pageset2_map : gset Z;
  page_resave_map : gset Z;
  nosave_map : gset Z;
  free_map : gset Z
}.

#[export] Instance page_flags_eta : Eta page_flags := fun f =>
  PageFlags (pageset1_map f) (pageset1_copy_map f) (pageset2_map f) (page_resave_map f)
    (nosave_map f) (free_map f).

Definition SetPagePageset1 (p : Z) (f : page_flags) := f {{ pageset1_map := {[p]} ∪ pageset1_map f }}.
Definition SetPagePageset1Copy (p : Z) (f : page_flags) := f {{ pageset1_copy_map := {[p]} ∪ pageset1_copy_map f }}.
Definition ClearPagePageset1Copy (p : Z) (f : page_flags) := f {{ pageset1_copy_map := pageset1_copy_map f ∖ {[p]} }}.
Definition SetPagePageset2 (p : Z) (f : page_flags) := f {{ pageset2_map := {[p]} ∪ pageset2_map f }}.
Definition ClearPagePageset2 (p : Z) (f : page_flags) := f {{ pageset2_map := pageset2_map f ∖ {[p]} }}.
Definition SetPageNosave (p : Z) (f : page_flags) := f {{ nosave_map := {[p]} ∪ nosave_map f }}.
Definition ClearPageNosave (p : Z) (f : page_flags) := f {{ nosave_map := nosave_map f ∖ {[p]} }}.
Definition SetPageNosaveFree (p : Z) (f : page_flags) := f {{ free_map := {[p]} ∪ free_map f }}.
Definition ClearPageNosaveFree (p : Z) (f : page_flags) := f {{ free_map := free_map f ∖ {[p]} }}.

Notation "p ∈? m" := (bool_decide (p ∈ m)) (at level 70).

(** Registered nosave regions (tuxonice_highlevel.c), [first, end) each. *)
Definition mark_nosave_pages (env : mem_env) (regions : list (Z * Z)) (f : page_flags) : page_flags :=
  foldl (fun f r => foldl (fun f p => if pfn_valid env p then SetPageNosave p f else f) f
                      (seqZ (fst r) (snd r - fst r))) f regions.

(** ** Pageset 2 *)

(** The list holds the processes that stay awake, and the current one;
    [allocs] are the outcomes of the allocations. *)
Definition needs_attention (current : nat) (t : task) : bool := PF_NOFREEZE t || (task_id t =? current)%nat.

Definition build_attention_list (current : nat) (tasks : list task) (allocs : list bool)
    : option (list task) :=
  let l := filter (fun t => needs_attention current t = true) tasks in
  if forallb id (take (length l) allocs) then Some l else None.

Definition pageset2_full_page (env : mem_env) (f : page_flags) (p : Z) : page_flags :=
  if atomic_copy_mapping env p then f else SetPagePageset2 p f.

Definition pageset2_full (env : mem_env) (zones : list mzone) (f : page_flags) : page_flags :=
  foldl (fun f z => foldl (fun f lru => foldl (pageset2_full_page env) f lru) f (lru_lists z)) f zones.

Definition mark_page (env : mem_env) (pageset2 : bool) (f : page_flags) (q : option Z) : page_flags :=
  match q with
  | None => f
  | Some p =>
      if negb (pfn_valid env p) then f
      else if atomic_copy_mapping env p then f
      else if pageset2 then SetPagePageset2 p f
      else SetPagePageset1 p (ClearPagePageset2 p f)
  end.

Definition mark_vma (env : mem_env) (pageset2 : bool) (f : page_flags) (v : vma) : page_flags :=
  if (vm_start v =? 0) || vm_special v then f else foldl (mark_page env pageset2) f (vm_pages v).

Definition toi_mark_task_as_pageset (env : mem_env) (t : task) (pageset2 : bool) (f : page_flags) : page_flags :=
  foldl (mark_vma env pageset2) f (active_mm t).

Definition mark_tasks (env : mem_env) (tasks : list task) (pageset2 : bool) (f : page_flags) : page_flags :=
  foldl (fun f t => if negb (has_mm t) || PF_KTHREAD t then f
                    else toi_mark_task_as_pageset env t pageset2 f) f tasks.

Record mark_options := MarkOptions {
  opt_no_pageset2 : bool;      (* TOI_NO_PAGESET2 *)
  no_ps2_needed : bool;
  opt_pageset2_full : bool;    (* TOI_PAGESET2_FULL *)
  opt_aborted : bool           (* TOI_ABORTED *)
}.

Definition toi_mark_pages_for_pageset2 (env : mem_env) (zones : list mzone) (tasks attention_list : list task)
    (o : mark_options) (f : page_flags) : page_flags :=
  let f := f {{ pageset2_map := ∅ }} in
  if opt_no_pageset2 o || no_ps2_needed o then f
  else
    let f := if opt_pageset2_full o then pageset2_full env zones f else mark_tasks env tasks true f in
    foldl (fun f t => if opt_aborted o then f else toi_mark_task_as_pageset env t false f) f attention_list.

(** ** Free pages *)

Definition zone_pfns (z : mzone) : list Z := seqZ (zone_first z) (zone_spanned z).

Definition free_chunk (c : nat * Z) : list Z := seqZ (snd c) (2 ^ Z.of_nat (fst c)).

Definition generate_zone (z : mzone) (f : page_flags) : page_flags :=
  let f := foldl (fun f p => ClearPageNosaveFree p f) f (zone_pfns z) in
  let f := foldl (fun f c => foldl (fun f p => SetPageNosaveFree p f) f (free_chunk c)) f (free_area z) in
  foldl (fun f p => SetPageNosaveFree p f) f (pcp_lists z).

Definition generate_free_page_map (zones : list mzone) (f : page_flags) : page_flags :=
  foldl (fun f z => generate_zone z f) f zones.

(** Free frames from [pfn] on, within the [n] the zone still has. *)
Fixpoint free_run (n : nat) (pfn : Z) (f : page_flags) : nat :=
  match n with
  | O => 0
  | S n' => if pfn ∈? free_map f then S (free_run n' (pfn + 1) f) else 0
  end.

Definition size_of_free_region (z : mzone) (start_pfn : Z) (f : page_flags) : Z :=
  s32 (Z.of_nat (free_run (Z.to_nat (zone_first z + zone_spanned z - start_pfn)) start_pfn f)).

(** ** The pages to save *)

(** [None] is the [BUG_ON]. *)
Definition saveable_page (env : mem_env) (z : mzone) (pfn : Z) : option bool :=
  if negb (pfn_valid env pfn) then Some false
  else if negb (page_zone env pfn =? zone_id z)%nat then Some false
  else if PageHighMem env pfn then None
  else if swsusp_page_is_forbidden env pfn || swsusp_page_is_free env pfn then Some false
  else Some (negb (PageReserved env pfn && (negb (kernel_page_present env pfn) || pfn_is_nosave env pfn))).

Definition saveable_highmem_page (env : mem_env) (z : mzone) (pfn : Z) : option bool :=
  if negb (pfn_valid env pfn) then Some false
  else if negb (page_zone env pfn =? zone_id z)%nat then Some false
  else if negb (PageHighMem env pfn) then None
  else Some (negb (swsusp_page_is_forbidden env pfn || swsusp_page_is_free env pfn || PageReserved env pfn)).

Record pagedir := Pagedir { pd_size : Z; pd_size_high : Z }.

#[export] Instance pagedir_eta : Eta pagedir := fun p => Pagedir (pd_size p) (pd_size_high p).

Definition get_highmem_size (p : pagedir) : Z := pd_size_high p.
Definition get_lowmem_size (p : pagedir) : Z := pd_size p - pd_size_high p.
Definition count_page (high : bool) (p : pagedir) : pagedir :=
  Pagedir (pd_size p + 1) (if high then pd_size_high p + 1 else pd_size_high p).

Record contents := Contents {
  flags : page_flags;
  pagedir1 : pagedir;
  pagedir2 : pagedir;
  num_nosave : Z
}.

#[export] Instance contents_eta : Eta contents := fun c =>
  Contents (flags c) (pagedir1 c) (pagedir2 c) (num_nosave c).

Section Flag.
Context (env : mem_env).

(** A saveable page goes to a pageset; one of pageset 2 that has to be saved
    again also goes to pageset 1. *)
Definition flag_saved (pfn : Z) (c : contents) : contents :=
  let high := PageHighMem env pfn in
  if pfn ∈? pageset2_map (flags c) then
    let c := c {{ pagedir2 := count_page high (pagedir2 c);
                  flags := if high then flags c else SetPagePageset1Copy pfn (flags c) }} in
    if pfn ∈? page_resave_map (flags c) then
      c {{ flags := ClearPagePageset1Copy pfn (SetPagePageset1 pfn (flags c));
           pagedir1 := count_page high (pagedir1 c) }}
    else c
  else c {{ pagedir1 := count_page high (pagedir1 c); flags := SetPagePageset1 pfn (flags c) }}.

Definition flag_page (z : mzone) (pfn : Z) (c : contents) : option contents :=
  if pfn ∈? nosave_map (flags c) then Some (c {{ num_nosave := num_nosave c + 1 }})
  else
    match (if is_highmem z then saveable_highmem_page env z pfn else saveable_page env z pfn) with
    | None => None
    | Some false => Some (c {{ num_nosave := num_nosave c + 1 }})
    | Some true => Some (flag_saved pfn c)
    end.

(** The loop over a zone; a run of free pages is passed at once. *)
Fixpoint flag_loop (fuel : nat) (z : mzone) (loop : Z) (c : contents) : option contents :=
  if zone_spanned z <=? loop then Some c
  else
    match fuel with
    | O => None
    | S fuel' =>
        let pfn := zone_first z + loop in
        if negb (pfn_valid env pfn) then flag_loop fuel' z (loop + 1) c
        else
          let chunk_size := size_of_free_region z pfn (flags c) in
          if negb (chunk_size =? 0) then flag_loop fuel' z (loop + (chunk_size - 1) + 1) c
          else
            match flag_page z pfn c with
            | Some c => flag_loop fuel' z (loop + 1) c
            | None => None
            end
    end.

Fixpoint flag_zones (zones : list mzone) (c : contents) : option contents :=
  match zones with
  | [] => Some c
  | z :: zones' =>
      match flag_loop (Z.to_nat (zone_spanned z)) z 0 c with
      | Some c => flag_zones zones' c
      | None => None
      end
  end.

Definition flag_image_pages (zones : list mzone) (f : page_flags) : option contents :=
  let f := f {{ pageset1_map := ∅ }} in
  let f := generate_free_page_map zones f in
  flag_zones zones (Contents f (Pagedir 0 0) (Pagedir 0 0) 0).
End Flag.

Definition toi_recalculate_image_contents (env : mem_env) (zones : list mzone) (tasks attention_list : list task)
    (o : mark_options) (atomic_copy : bool) (f : page_flags) : option contents :=
  let f := f {{ pageset1_map := ∅ }} in
  let f := if atomic_copy then f
    else toi_mark_pages_for_pageset2 env zones tasks attention_list o
           (foldl (fun f p => ClearPagePageset1Copy p f) f (elements (pageset2_map f))) in
  flag_image_pages env zones f.
