(* ===== verification/ImageFlagsFacts.v ===== *)
(** * Facts about the page flags

    [flag_image_pages], which passes over runs of free pages and counts as it
    goes, computes the two pagesets a page-by-page definition describes. *)

From S2P Require Import Prelude ImageFlags.
From stdpp Require Import numbers base list gmap.
#[local] Open Scope Z_scope.

(** ** What the pagesets should be *)

Definition free_frames (z : mzone) : list Z := flat_map free_chunk (free_area z) ++ pcp_lists z.

(** Zones are disjoint, their free pages are their own, a page's zone says
    whether it is high memory. *)
Record wf_zones (env : mem_env) (zones : list mzone) : Prop := {
  wz_ids : NoDup (map zone_id zones);
  wz_span : Forall (fun z => 0 <= zone_spanned z < 2 ^ 31) zones;
  wz_free : Forall (fun z => Forall (fun p => p ∈ zone_pfns z) (free_frames z)) zones;
  wz_disjoint : forall i j z z' p, zones !! i = Some z -> zones !! j = Some z' ->
    p ∈ zone_pfns z -> p ∈ zone_pfns z' -> i = j;
  wz_high : Forall (fun z => forall p, page_zone env p = zone_id z -> PageHighMem env p = is_highmem z) zones
}.

Definition is_saveable (env : mem_env) (z : mzone) (p : Z) : bool :=
  default false (if is_highmem z then saveable_highmem_page env z p else saveable_page env z p).

(** A frame of the zone that belongs in the image. *)
Definition in_image (env : mem_env) (free nosave : gset Z) (z : mzone) (p : Z) : bool :=
  pfn_valid env p && negb (p ∈? free) && negb (p ∈? nosave) && is_saveable env z p.

Definition zone_image (env : mem_env) (free nosave : gset Z) (z : mzone) : list Z :=
  filter (fun p => in_image env free nosave z p = true) (zone_pfns z).

(** ** One page after the other *)

Section Reference.
Context (env : mem_env).

Definition flag_one (z : mzone) (p : Z) (c : contents) : option contents :=
  if negb (pfn_valid env p) || (p ∈? free_map (flags c)) then Some c else flag_page env z p c.

Fixpoint flag_list (z : mzone) (l : list Z) (c : contents) : option contents :=
  match l with
  | [] => Some c
  | p :: l' => match flag_one z p c with Some c => flag_list z l' c | None => None end
  end.

Lemma flag_list_app z l l' c :
  flag_list z (l ++ l') c = match flag_list z l c with Some c => flag_list z l' c | None => None end.
Proof. revert c. induction l as [|p l IH]; intros c; simpl; [done|]. destruct (flag_one z p c); auto. Qed.

(** Frames that are free or not there change nothing. *)
Lemma flag_list_free z l c : Forall (fun p => p ∈ free_map (flags c)) l -> flag_list z l c = Some c.
Proof.
  induction 1 as [|p l Hp _ IH]; simpl; [done|]. unfold flag_one.
  by rewrite (bool_decide_eq_true_2 _ Hp), orb_true_r.
Qed.

Lemma free_run_spec n p f :
  (free_run n p f <= n)%nat /\ Forall (fun q => q ∈ free_map f) (seqZ p (Z.of_nat (free_run n p f))) /\
  (free_run n p f = 0%nat -> n = 0%nat \/ p ∉ free_map f).
Proof.
  revert p. induction n as [|n IH]; intros p; simpl; [by repeat split; [lia|constructor|left]|].
  case_bool_decide as Hp; [|repeat split; [lia|constructor|by right]].
  destruct (IH (p + 1)) as (Hl & Hf & _). split_and!; [lia| |done].
  rewrite seqZ_cons by lia. constructor; [done|].
  replace (Z.succ p) with (p + 1) by lia. by replace (Z.pred (Z.of_nat (S (free_run n (p + 1) f)))) with (Z.of_nat (free_run n (p + 1) f)) by lia.
Qed.

(** The zone's loop is the page-by-page definition. *)
Lemma flag_loop_list fuel z loop c :
  zone_spanned z < 2 ^ 31 -> 0 <= loop -> zone_spanned z - loop <= Z.of_nat fuel ->
  flag_loop env fuel z loop c = flag_list z (seqZ (zone_first z + loop) (zone_spanned z - loop)) c.
Proof.
  revert loop c. induction fuel as [|fuel IH]; intros loop c Hsp Hl Hf; cbn [flag_loop].
  { rewrite (proj2 (Z.leb_le _ _)) by lia. by rewrite seqZ_nil by lia. }
  destruct (zone_spanned z <=? loop) eqn:E; breflect; [by rewrite seqZ_nil by lia|].
  set (p := zone_first z + loop).
  assert (seqZ p (zone_spanned z - loop) = p :: seqZ (zone_first z + (loop + 1)) (zone_spanned z - (loop + 1))) as Hcons.
  { rewrite seqZ_cons by lia. unfold p. do 2 f_equal; lia. }
  destruct (pfn_valid env p) eqn:Hv; simpl.
  2: { rewrite IH by lia. rewrite Hcons. simpl. unfold flag_one. by rewrite Hv. }
  unfold size_of_free_region. set (n := Z.to_nat (zone_first z + zone_spanned z - p)).
  destruct (free_run_spec n p (flags c)) as (Hle & Hfree & H0). set (k := free_run n p (flags c)) in *.
  assert (Z.of_nat n = zone_spanned z - loop) as Hn by (unfold n, p; lia).
  rewrite s32_small by lia. destruct (Z.of_nat k =? 0) eqn:Ek; breflect; simpl.
  - rewrite Hcons. simpl. unfold flag_one. rewrite Hv. simpl.
    rewrite (bool_decide_eq_false_2 (p ∈ free_map (flags c))) by (destruct (H0 ltac:(lia)); [lia|done]).
    destruct (flag_page env z p c); [|done]. apply IH; lia.
  - rewrite IH by lia.
    replace (zone_spanned z - loop) with (Z.of_nat k + (zone_spanned z - (loop + (Z.of_nat k - 1) + 1))) by lia.
    rewrite seqZ_app by lia. rewrite flag_list_app, (flag_list_free z _ c Hfree). f_equal. f_equal; unfold p; lia.
Qed.

(** ** The sets and the counters *)

Definition counted (l : list Z) (p p' : pagedir) : Prop :=
  pd_size p' = pd_size p + Z.of_nat (length l) /\
  pd_size_high p' = pd_size_high p + Z.of_nat (length (filter (fun q => PageHighMem env q = true) l)).

Definition ps2_of (f : page_flags) (l : list Z) : list Z := filter (fun p => p ∈ pageset2_map f) l.
Definition ps1_of (f : page_flags) (l : list Z) : list Z :=
  filter (fun p => p ∉ pageset2_map f \/ p ∈ page_resave_map f) l.

(** The frames [img] have been flagged between [c] and [c']. *)
Record flagged (img : list Z) (c c' : contents) : Prop := {
  fl_ps2 : pageset2_map (flags c') = pageset2_map (flags c);
  fl_resave : page_resave_map (flags c') = page_resave_map (flags c);
  fl_nosave : nosave_map (flags c') = nosave_map (flags c);
  fl_free : free_map (flags c') = free_map (flags c);
  fl_ps1 : pageset1_map (flags c') = pageset1_map (flags c) ∪ list_to_set (ps1_of (flags c) img);
  fl_copy : forall p, p ∈ pageset1_copy_map (flags c') <->
    (p ∈ pageset1_copy_map (flags c) \/ p ∈ ps2_of (flags c) img /\ PageHighMem env p = false) /\
    ~ (p ∈ ps2_of (flags c) img /\ p ∈ page_resave_map (flags c));
  fl_count1 : counted (ps1_of (flags c) img) (pagedir1 c) (pagedir1 c');
  fl_count2 : counted (ps2_of (flags c) img) (pagedir2 c) (pagedir2 c')
}.

Lemma counted_nil p : counted [] p p.
Proof. split; simpl; lia. Qed.

Lemma counted_app l l' p p1 p2 : counted l p p1 -> counted l' p1 p2 -> counted (l ++ l') p p2.
Proof. intros [E1 E2] [E3 E4]. split; rewrite ?filter_app, length_app; lia. Qed.

Lemma counted_one q p : counted [q] p (count_page (PageHighMem env q) p).
Proof.
  split; simpl; [lia|]. destruct (PageHighMem env q) eqn:E; simpl.
  - rewrite filter_cons_True by done. simpl. lia.
  - rewrite filter_cons_False by congruence. simpl. lia.
Qed.

Lemma flagged_nil c c' : flags c' = flags c -> pagedir1 c' = pagedir1 c -> pagedir2 c' = pagedir2 c -> flagged [] c c'.
Proof.
  intros E1 E2 E3. split; rewrite ?E1, ?E2, ?E3; auto using counted_nil; [set_solver|].
  intros p. unfold ps2_of. simpl. rewrite !elem_of_nil. tauto.
Qed.

Lemma flagged_app l l' c c1 c2 : flagged l c c1 -> flagged l' c1 c2 -> flagged (l ++ l') c c2.
Proof.
  intros [A1 A2 A3 A4 A5 A6 A7 A8] [B1 B2 B3 B4 B5 B6 B7 B8].
  assert (forall x, ps1_of (flags c1) x = ps1_of (flags c) x) as E1 by (intros; unfold ps1_of; by rewrite A1, A2).
  assert (forall x, ps2_of (flags c1) x = ps2_of (flags c) x) as E2 by (intros; unfold ps2_of; by rewrite A1).
  assert (ps1_of (flags c) (l ++ l') = ps1_of (flags c) l ++ ps1_of (flags c) l') as F1 by apply filter_app.
  assert (ps2_of (flags c) (l ++ l') = ps2_of (flags c) l ++ ps2_of (flags c) l') as F2 by apply filter_app.
  rewrite E1 in *. rewrite E2 in *.
  split; try congruence.
  - rewrite B5, A5, F1, list_to_set_app_L. by rewrite assoc_L by apply _.
  - intros p. rewrite B6, A6, F2, elem_of_app, A2. tauto.
  - rewrite F1. by eapply counted_app.
  - rewrite F2. by eapply counted_app.
Qed.

Lemma elem_ps2_one f p q : q ∈ ps2_of f [p] <-> q = p /\ p ∈ pageset2_map f.
Proof. unfold ps2_of. rewrite list_elem_of_filter, list_elem_of_singleton. naive_solver. Qed.

Lemma flag_saved_flagged p c : flagged [p] c (flag_saved env p c).
Proof.
  assert (forall b, (p ∈? pageset2_map (flags c)) = b -> ps2_of (flags c) [p] = if b then [p] else []) as Hps2.
  { intros b <-. unfold ps2_of. rewrite filter_cons. case_decide as E;
      [by rewrite bool_decide_eq_true_2|by rewrite bool_decide_eq_false_2]. }
  assert (ps1_of (flags c) [p] = if negb (p ∈? pageset2_map (flags c)) || (p ∈? page_resave_map (flags c)) then [p] else []) as Hps1.
  { unfold ps1_of. rewrite filter_cons. repeat case_bool_decide; simpl;
      first [rewrite decide_True by tauto | rewrite decide_False by tauto]; done. }
  specialize (Hps2 _ eq_refl). unfold flag_saved.
  assert (page_resave_map (flags (c {{ pagedir2 := count_page (PageHighMem env p) (pagedir2 c);
     flags := if PageHighMem env p then flags c else SetPagePageset1Copy p (flags c) }})) = page_resave_map (flags c)) as ->
    by (by destruct (PageHighMem env p)).
  destruct (p ∈? pageset2_map (flags c)), (p ∈? page_resave_map (flags c)) eqn:Hr; simpl in Hps1, Hps2;
    rewrite ?bool_decide_eq_true, ?bool_decide_eq_false in Hr;
    split; rewrite ?Hps1, ?Hps2; simpl; auto using counted_one, counted_nil;
      try (by destruct (PageHighMem env p)); try (destruct (PageHighMem env p); set_solver);
    intros q; rewrite ?list_elem_of_singleton, ?elem_of_nil; destruct (decide (q = p)) as [->|];
      destruct (PageHighMem env p) eqn:Eh; set_solver.
Qed.

(** A page of the zone, with no [BUG_ON] where page and zone agree on high memory. *)
Lemma flag_one_flagged z p c :
  (page_zone env p = zone_id z -> PageHighMem env p = is_highmem z) ->
  exists c', flag_one z p c = Some c' /\
    flagged (if in_image env (free_map (flags c)) (nosave_map (flags c)) z p then [p] else []) c c'.
Proof.
  intros Hh. unfold flag_one, in_image. destruct (pfn_valid env p) eqn:Hv; simpl;
    [|eexists; split; [done|by apply flagged_nil]].
  case_bool_decide; simpl; [eexists; split; [done|by apply flagged_nil]|].
  unfold flag_page. case_bool_decide; simpl; [eexists; split; [done|by apply flagged_nil]|].
  assert (exists b, (if is_highmem z then saveable_highmem_page env z p else saveable_page env z p) = Some b) as [b Hb].
  { unfold saveable_highmem_page, saveable_page. rewrite Hv. simpl.
    destruct (page_zone env p =? zone_id z)%nat eqn:Ez; simpl; [|destruct (is_highmem z); eauto].
    apply Nat.eqb_eq in Ez. rewrite (Hh Ez). destruct (is_highmem z); simpl; [eauto|].
    destruct (_ || _); eauto. }
  unfold is_saveable. rewrite Hb. destruct b; simpl.
  - eexists. split; [done|]. apply flag_saved_flagged.
  - eexists. split; [done|]. by apply flagged_nil.
Qed.

Lemma flag_list_flagged z l c :
  (forall p, page_zone env p = zone_id z -> PageHighMem env p = is_highmem z) ->
  exists c', flag_list z l c = Some c' /\
    flagged (filter (fun p => in_image env (free_map (flags c)) (nosave_map (flags c)) z p = true) l) c c'.
Proof.
  intros Hh. revert c. induction l as [|p l IH]; intros c; cbn [flag_list].
  { eexists. split; [done|]. by apply flagged_nil. }
  destruct (flag_one_flagged z p c (Hh p)) as (c1 & -> & H1). destruct (IH c1) as (c2 & -> & H2).
  exists c2. split; [done|]. rewrite filter_cons. rewrite (fl_free _ _ _ H1), (fl_nosave _ _ _ H1) in H2.
  pose proof (flagged_app _ _ _ _ _ H1 H2) as H3. by destruct (in_image _ _ _ _ p).
Qed.

(** All zones. *)
Lemma flag_zones_flagged zones c :
  Forall (fun z => forall p, page_zone env p = zone_id z -> PageHighMem env p = is_highmem z) zones ->
  Forall (fun z => 0 <= zone_spanned z < 2 ^ 31) zones ->
  exists c', flag_zones env zones c = Some c' /\
    flagged (flat_map (zone_image env (free_map (flags c)) (nosave_map (flags c))) zones) c c'.
Proof.
  revert c. induction zones as [|z zones IH]; intros c Hh Hs; cbn [flag_zones].
  { eexists. split; [done|]. by apply flagged_nil. }
  apply Forall_cons_1 in Hh as [Hz Hh]. apply Forall_cons_1 in Hs as [Hsz Hs].
  rewrite flag_loop_list by lia. rewrite Z.add_0_r, Z.sub_0_r.
  destruct (flag_list_flagged z (seqZ (zone_first z) (zone_spanned z)) c Hz) as (c1 & -> & H1).
  destruct (IH c1 Hh Hs) as (c2 & -> & H2). exists c2. split; [done|].
  rewrite (fl_free _ _ _ H1), (fl_nosave _ _ _ H1) in H2. simpl. by eapply flagged_app.
Qed.
End Reference.

(** ** The map of free pages *)

Lemma set_free_list l f :
  foldl (fun f p => SetPageNosaveFree p f) f l = f {{ free_map := list_to_set l ∪ free_map f }}.
Proof.
  revert f. induction l as [|p l IH]; intros f; simpl; [destruct f; simpl; f_equal; set_solver|].
  rewrite IH. destruct f; unfold SetPageNosaveFree; simpl; f_equal; set_solver.
Qed.

Lemma clear_free_list l f :
  foldl (fun f p => ClearPageNosaveFree p f) f l = f {{ free_map := free_map f ∖ list_to_set l }}.
Proof.
  revert f. induction l as [|p l IH]; intros f; simpl; [destruct f; simpl; f_equal; set_solver|].
  rewrite IH. destruct f; unfold ClearPageNosaveFree; simpl; f_equal; set_solver.
Qed.

Lemma set_free_chunks l f :
  foldl (fun f c => foldl (fun f p => SetPageNosaveFree p f) f (free_chunk c)) f l =
  f {{ free_map := list_to_set (flat_map free_chunk l) ∪ free_map f }}.
Proof.
  revert f. induction l as [|c l IH]; intros f; simpl; [destruct f; simpl; f_equal; set_solver|].
  rewrite IH, set_free_list, list_to_set_app_L. destruct f; simpl; f_equal; set_solver.
Qed.

Lemma generate_zone_eq z f :
  generate_zone z f =
  f {{ free_map := list_to_set (free_frames z) ∪ (free_map f ∖ list_to_set (zone_pfns z)) }}.
Proof.
  unfold generate_zone. rewrite clear_free_list, set_free_chunks, set_free_list.
  unfold free_frames. rewrite list_to_set_app_L. destruct f; simpl; f_equal; set_solver.
Qed.

Lemma generate_free_maps zones f :
  generate_free_page_map zones f = f {{ free_map := free_map (generate_free_page_map zones f) }}.
Proof.
  unfold generate_free_page_map. revert f. induction zones as [|z zones IH]; intros f; simpl; [by destruct f|].
  rewrite IH, generate_zone_eq. by destruct f.
Qed.

(** Zones that do not reach a frame leave its bit alone. *)
Lemma generate_elsewhere zones f p :
  Forall (fun z => (p ∉ zone_pfns z) /\ Forall (fun q => q ∈ zone_pfns z) (free_frames z)) zones ->
  p ∈ free_map (generate_free_page_map zones f) <-> p ∈ free_map f.
Proof.
  unfold generate_free_page_map. revert f. induction zones as [|z zones IH]; intros f Hz; simpl; [done|].
  apply Forall_cons_1 in Hz as [[Hp Hf] Hz]. rewrite IH, generate_zone_eq by done. simpl.
  rewrite Forall_forall in Hf. rewrite elem_of_union, elem_of_difference, !elem_of_list_to_set. naive_solver.
Qed.

Lemma generate_free_exact env zones f z p :
  wf_zones env zones -> z ∈ zones -> p ∈ zone_pfns z ->
  p ∈ free_map (generate_free_page_map zones f) <-> p ∈ free_frames z.
Proof.
  intros Hw Hz Hp. apply list_elem_of_lookup in Hz as [i Hi].
  rewrite <- (take_drop_middle zones i z Hi). unfold generate_free_page_map. rewrite foldl_app. simpl.
  set (f1 := foldl _ f (take i zones)). fold (generate_free_page_map (drop (S i) zones) (generate_zone z f1)).
  rewrite generate_elsewhere.
  - rewrite generate_zone_eq. simpl. rewrite elem_of_union, elem_of_difference, !elem_of_list_to_set. tauto.
  - apply Forall_lookup_2. intros j z' Hj. rewrite lookup_drop in Hj. split.
    + intros Hp'. pose proof (wz_disjoint _ _ Hw _ _ _ _ _ Hi Hj Hp Hp'). lia.
    + exact (Forall_lookup_1 _ _ _ _ (wz_free _ _ Hw) Hj).
Qed.

(** ** The image *)

(** The frames of the image: of each zone, those that are there, not on a
    free list, not marked nosave, and saveable. *)
Definition image_frames (env : mem_env) (nosave : gset Z) (zones : list mzone) : list Z :=
  flat_map (fun z => zone_image env (list_to_set (free_frames z)) nosave z) zones.

Lemma zone_image_generated env zones f z :
  wf_zones env zones -> z ∈ zones ->
  zone_image env (free_map (generate_free_page_map zones f)) (nosave_map f) z =
  zone_image env (list_to_set (free_frames z)) (nosave_map f) z.
Proof.
  intros Hw Hz. unfold zone_image. apply filter_bool_ext. intros p Hp. unfold in_image.
  do 4 f_equal. apply bool_decide_ext. rewrite elem_of_list_to_set. by eapply generate_free_exact.
Qed.

Lemma zone_image_id env free nosave z p : p ∈ zone_image env free nosave z -> page_zone env p = zone_id z.
Proof.
  unfold zone_image. rewrite list_elem_of_filter. intros [Hi _]. unfold in_image, is_saveable in Hi.
  destruct (page_zone env p =? zone_id z)%nat eqn:E; [by apply Nat.eqb_eq|].
  exfalso. revert Hi. unfold saveable_highmem_page, saveable_page. rewrite E.
  by destruct (pfn_valid env p), (is_highmem z); simpl; rewrite ?andb_false_r.
Qed.

Lemma image_frames_NoDup env nosave zones : wf_zones env zones -> NoDup (image_frames env nosave zones).
Proof.
  intros Hw. pose proof (wz_ids _ _ Hw) as Hids. clear Hw. unfold image_frames.
  induction zones as [|z zones IH]; simpl; [constructor|]. simpl in Hids.
  apply NoDup_cons in Hids as [Hz Hids]. apply NoDup_app. split_and!; auto.
  - apply list.NoDup_filter, NoDup_seqZ.
  - intros p Hp Hp'. apply zone_image_id in Hp. apply list_elem_of_In, in_flat_map in Hp' as (z' & Hz' & Hp').
    apply list_elem_of_In, zone_image_id in Hp'. apply Hz. apply list_elem_of_In, in_map_iff. exists z'.
    split; congruence.
Qed.

Lemma image_generated env zones f :
  wf_zones env zones ->
  flat_map (zone_image env (free_map (generate_free_page_map zones f)) (nosave_map f)) zones =
  image_frames env (nosave_map f) zones.
Proof.
  intros Hw. unfold image_frames. rewrite !flat_map_concat_map. f_equal. apply map_ext_in.
  intros z Hz%list_elem_of_In. by apply zone_image_generated.
Qed.

Lemma counted_from_zero env l p : counted env l (Pagedir 0 0) p ->
  pd_size p = Z.of_nat (length l) /\
  pd_size_high p = Z.of_nat (length (filter (fun q => PageHighMem env q = true) l)).
Proof. by intros [-> ->]. Qed.

Lemma flag_image_pages_spec (env : mem_env) (zones : list mzone) (f : page_flags) (Hw : wf_zones env zones) :
  let img := image_frames env (nosave_map f) zones in
  exists c, flag_image_pages env zones f = Some c /\ NoDup img /\
    (forall p, p ∈ pageset1_map (flags c) <->
       p ∈ img /\ (p ∉ pageset2_map f \/ p ∈ page_resave_map f)) /\
    pd_size (pagedir1 c) = Z.of_nat (length (ps1_of f img)) /\
    pd_size_high (pagedir1 c) = Z.of_nat (length (filter (fun p => PageHighMem env p = true) (ps1_of f img))) /\
    pd_size (pagedir2 c) = Z.of_nat (length (ps2_of f img)) /\
    pd_size_high (pagedir2 c) = Z.of_nat (length (filter (fun p => PageHighMem env p = true) (ps2_of f img))) /\
    (forall p, p ∈ pageset1_copy_map (flags c) <->
       (p ∈ pageset1_copy_map f \/ p ∈ ps2_of f img /\ PageHighMem env p = false) /\
       ~ (p ∈ ps2_of f img /\ p ∈ page_resave_map f)) /\
    pageset2_map (flags c) = pageset2_map f /\ nosave_map (flags c) = nosave_map f.
Proof.
  intros img. unfold flag_image_pages. set (f0 := f {{ pageset1_map := ∅ }}).
  set (c0 := Contents (generate_free_page_map zones f0) (Pagedir 0 0) (Pagedir 0 0) 0).
  destruct (flag_zones_flagged env zones c0) as (c & Hc & Hf); [apply Hw..|].
  assert (flat_map (zone_image env (free_map (flags c0)) (nosave_map (flags c0))) zones = img) as Ei.
  { simpl. rewrite (generate_free_maps zones f0) at 2. simpl. by apply (image_generated env zones f0). }
  rewrite Ei in Hf. exists c. destruct Hf as [F2 Fr Fn _ F1 Fc C1 C2].
  apply counted_from_zero in C1 as [C1 C1h]. apply counted_from_zero in C2 as [C2 C2h].
  assert (forall l, ps1_of (flags c0) l = ps1_of f l /\ ps2_of (flags c0) l = ps2_of f l) as Eps.
  { intros l. simpl. rewrite (generate_free_maps zones f0). done. }
  destruct (Eps img) as [E1 E2]. rewrite E1, ?E2 in *. simpl in F1, F2, Fr, Fn, Fc.
  rewrite (generate_free_maps zones f0) in F1, F2, Fn. simpl in F1, F2, Fn.
  split_and!; auto; [by apply image_frames_NoDup| |].
  - intros p. rewrite F1, elem_of_union, elem_of_list_to_set. unfold ps1_of. rewrite list_elem_of_filter.
    rewrite elem_of_empty. tauto.
  - intros p. rewrite Fc. rewrite (generate_free_maps zones f0). simpl. done.
Qed.


(** A zone of eight frames: 2 and 3 free as a pair, 5 free on a processor's
    list, 7 a hole, 6 nosave; 1 and 4 are in pageset 2, 4 to be saved again. *)
Definition sample_env : mem_env :=
  MemEnv (fun p => p <? 7) (fun _ => 0%nat) (fun _ => false) (fun _ => false) (fun _ => true)
    (fun _ => false) (fun _ => false) (fun _ => false) (fun _ => false).

Definition sample_zone : mzone := MZone 0 0 8 false [(1%nat, 2)] [5] [].

Definition sample_flags : page_flags := PageFlags ∅ ∅ {[1; 4]} {[4]} {[6]} ∅.

Lemma sample_zone_wf : wf_zones sample_env [sample_zone].
Proof.
  split.
  - apply NoDup_singleton.
  - by repeat constructor.
  - apply Forall_singleton. apply Forall_forall. intros p Hp. apply elem_of_seqZ.
    change (p ∈ [2; 3; 5]) in Hp. set_unfold. simpl. lia.
  - intros [|i] [|j] z z' p Hi Hj; by rewrite ?lookup_nil in *.
  - by repeat constructor.
Qed.

