(* ===== verification/PrepareImage.v ===== *)
(** * Preparing the image: kernel/power/tuxonice_prepare_image.c

    The extra pages for the atomic copy, the accounting of what is still
    needed, and the loop that frees memory and allocates storage until the
    image fits.

    What lies outside, the memory manager, the freezer and the active
    allocator, is the class [Machine]: queries and actions on a world [W].
    The file's static variables are the record [prep]. *)

From S2P Require Import Prelude States ImageFlags.
From stdpp Require Import numbers base list gmap.
#[local] Open Scope Z_scope.
#[local] Open Scope step_scope.

Definition MIN_FREE_RAM : Z := 100.
Definition MIN_EXTRA_PAGES_ALLOWANCE : Z := 500.
Definition MAX_ORDER : nat := 11.
Definition MAX_TRIES : Z := 2.

(** Size of [struct toi_header] (tuxonice_io.h). *)
Definition sizeof_toi_header : Z := 536.

Class Machine (W : Type) := {
  (* memory *)
  mm_env : W -> mem_env;
  mm_zones : W -> list mzone;
  mm_tasks : W -> list task;
  mm_current : W -> nat;
  zone_free_pages : W -> mzone -> Z;   (* zone_page_state(zone, NR_FREE_PAGES) *)
  kzalloc : W -> W * bool;
  kfree : W -> W;
  get_free_pages : nat -> W -> W * option Z;
  free_pages : Z -> nat -> W -> W;
  shrink_all_memory : Z -> W -> W;
  drop_pagecache : W -> W;
  (* processes and devices *)
  freeze_processes : W -> W * Z;
  thaw_processes : W -> W;
  thaw_kernel_threads : W -> W;
  toi_go_atomic : W -> W * Z;
  toi_end_atomic : W -> W;
  (* the active allocator *)
  alloc_available : W -> Z;
  alloc_allocated : W -> Z;
  reserve_header_space : Z -> W -> W;
  allocate_storage : Z -> W -> W;
  (* the modules and the bitmaps *)
  memory_for_modules : W -> Z;
  expected_compression_ratio : W -> Z;
  header_storage_for_modules : W -> Z;
  pageflags_space_needed : W -> Z;
  checksum_pages : Z -> W -> W * Z
}.

(** [struct extras]: a block of 2^order pages for the atomic copy. *)
Record extras := Extras { ex_page : Z; ex_order : nat }.

Record prep := Prep {
  image : contents;                   (* page flags, pagedir1, pagedir2, num_nosave *)
  attention_list : list task;
  extras_list : list extras;
  extra_pages_allocated : Z;
  main_storage_allocated : Z;
  storage_available : Z;
  header_storage_needed : Z;
  extra_pd1_pages_allowance : Z;
  image_size_limit : Z;
  ps2_unneeded : bool;                (* no_ps2_needed *)
  action_no_pageset2 : bool;
  action_pageset2_full : bool;
  action_no_ps2_if_unneeded : bool;
  prep_result : Z;                    (* toi_result *)
  prep_ui : bool
}.

#[export] Instance prep_eta : Eta prep := fun p =>
  Prep (image p) (attention_list p) (extras_list p) (extra_pages_allocated p) (main_storage_allocated p)
    (storage_available p) (header_storage_needed p) (extra_pd1_pages_allowance p) (image_size_limit p)
    (ps2_unneeded p) (action_no_pageset2 p) (action_pageset2_full p) (action_no_ps2_if_unneeded p)
    (prep_result p) (prep_ui p).

Definition pages_of (e : extras) : list Z := seqZ (ex_page e) (2 ^ Z.of_nat (ex_order e)).

Section Prepare.
Context {W : Type} `{Machine W}.

Abbreviation state := (prep * W)%type.

Definition my {A} (f : prep -> A) : M state A := get (fun s => f (fst s)).
Definition put (f : prep -> prep) : M state unit := modify (fun s => (f (fst s), snd s)).
Definition ask {A} (f : W -> A) : M state A := get (fun s => f (snd s)).
Definition act (f : W -> W) : M state unit := modify (fun s => (fst s, f (snd s))).
Definition call {A} (f : W -> W * A) : M state A := fun s =>
  let '(w, a) := f (snd s) in Some ((fst s, w), a).

Definition set_abort (f : result_flag) : M state unit :=
  put (fun p => p {{ prep_result := set_abort_result f (prep_result p) }}).

Definition is_aborted : M state bool := my (fun p => test_result_state TOI_ABORTED (prep_result p)).

(** ** Extra pages for the atomic copy *)

Definition release_extras (e : extras) : M state unit :=
  put (fun p => p {{ image := (image p) {{ flags := foldl (fun f q => ClearPageNosave q f) (flags (image p)) (pages_of e) }} }});;;
  act (free_pages (ex_page e) (ex_order e));;;
  act kfree.

Fixpoint release_all (l : list extras) : M state unit :=
  match l with
  | [] => ret tt
  | e :: l' =>
      put (fun p => p {{ extras_list := l' }});;;
      release_extras e;;;
      release_all l'
  end.

Definition toi_free_extra_pagedir_memory : M state unit :=
  l <-- my extras_list;;
  release_all l;;;
  put (fun p => p {{ extra_pages_allocated := 0 }}).

(** [fls]: the position of the last bit set, from 1. *)
Definition fls (n : Z) : nat := if n <=? 0 then 0%nat else Z.to_nat (Z.log2 n + 1).

(** The largest order, from [order] down, of a block no larger than [n]. *)
Fixpoint fit (order : nat) (n : Z) : nat :=
  match order with
  | O => 0%nat
  | S o => if 2 ^ Z.of_nat order >? n then fit o n else order
  end.

(** A block of the order, or of the next smaller one that can be had. *)
Fixpoint try_orders (order : nat) : M state (option (Z * nat)) :=
  virt <-- call (get_free_pages order);;
  match virt, order with
  | Some page, _ => ret (Some (page, order))
  | None, O => ret None
  | None, S o => try_orders o
  end.

Definition keep_extras (page : Z) (order : nat) (p : prep) : prep :=
  let e := Extras page order in
  p {{ extras_list := e :: extras_list p;
       image := (image p) {{ flags := foldl (fun f q => SetPagePageset1Copy q (SetPageNosave q f))
                                        (flags (image p)) (pages_of e) }};
       extra_pages_allocated := extra_pages_allocated p + 2 ^ Z.of_nat order }}.

(** Each round takes at least a page. *)
Fixpoint extra_loop (fuel : nat) (num_to_alloc : Z) (order : nat) : M state Z :=
  if num_to_alloc =? 0 then my extra_pages_allocated
  else
    match fuel with
    | O => bug
    | S fuel' =>
        let order := fit order num_to_alloc in
        entry <-- call kzalloc;;
        if negb entry then my extra_pages_allocated
        else
          got <-- try_orders order;;
          match got with
          | None => act kfree;;; my extra_pages_allocated
          | Some (page, order) =>
              put (keep_extras page order);;;
              extra_loop fuel' (num_to_alloc - 2 ^ Z.of_nat order) order
          end
    end.

Definition toi_allocate_extra_pagedir_memory (extra_pages_needed : Z) : M state Z :=
  allocated <-- my extra_pages_allocated;;
  let num_to_alloc := s32 (extra_pages_needed - allocated) in
  if num_to_alloc <? 1 then ret 0
  else
    let order := if (MAX_ORDER <=? fls num_to_alloc)%nat then (MAX_ORDER - 1)%nat else fls num_to_alloc in
    extra_loop (Z.to_nat num_to_alloc) num_to_alloc order.

(** ** What is still needed *)

(** The free pages of the populated zones in the mask [which]: those on the
    per-cpu lists and those the zone counts. *)
Definition real_nr_free_pages (which : mzone -> bool) (w : W) : Z :=
  foldl (fun result z =>
    if which z then s32 (result + Z.of_nat (length (pcp_lists z)) + zone_free_pages w z) else result) 0 (mm_zones w).

(** With no high memory zone these are the definitions for a kernel without
    CONFIG_HIGHMEM: 0, and the count of all zones. *)
Definition real_nr_free_low_pages : W -> Z := real_nr_free_pages (fun z => negb (is_highmem z)).
Definition real_nr_free_high_pages : W -> Z := real_nr_free_pages is_highmem.

Definition pd1 (p : prep) : pagedir := pagedir1 (image p).
Definition pd2 (p : prep) : pagedir := pagedir2 (image p).

Definition main_storage_needed (use_ecr ignore_extra_pd1_allow : bool) (s : state) : Z :=
  let '(p, w) := s in
  ((pd_size (pd1 p) + pd_size (pd2 p) + (if ignore_extra_pd1_allow then 0 else extra_pd1_pages_allowance p)) *
   (if use_ecr then expected_compression_ratio w else 100)) ÷ 100.

Definition get_header_storage_needed (w : W) : Z :=
  DIV_ROUND_UP (sizeof_toi_header + header_storage_for_modules w + pageflags_space_needed w) PAGE_SIZE.

Definition highpages_ps1_to_free (s : state) : Z :=
  let '(p, w) := s in
  Z.max 0 (DIV_ROUND_UP (get_highmem_size (pd1 p) - get_highmem_size (pd2 p)) 2 - real_nr_free_high_pages w).

Definition lowpages_ps1_to_free (s : state) : Z :=
  let '(p, w) := s in
  Z.max 0 (DIV_ROUND_UP (get_lowmem_size (pd1 p) + extra_pd1_pages_allowance p + MIN_FREE_RAM +
    memory_for_modules w - get_lowmem_size (pd2 p) - real_nr_free_low_pages w - extra_pages_allocated p) 2).

Definition current_image_size (p : prep) : Z := pd_size (pd1 p) + pd_size (pd2 p) + header_storage_needed p.

Definition storage_still_required (s : state) : Z :=
  Z.max 0 (main_storage_needed true true s - storage_available (fst s)).

Definition ram_still_required (s : state) : Z :=
  let '(p, w) := s in
  Z.max 0 (MIN_FREE_RAM + memory_for_modules w - real_nr_free_low_pages w + 2 * extra_pd1_pages_allowance p).

Definition any_to_free (use_image_size_limit : bool) (s : state) : Z :=
  let p := fst s in
  let user_limit := if use_image_size_limit && (image_size_limit p >? 0)
    then Z.max 0 (current_image_size p - s32 (Z.shiftl (image_size_limit p) 8)) else 0 in
  Z.max (Z.max user_limit (storage_still_required s)) (ram_still_required s).

Definition need_pageset2 (s : state) : bool :=
  let '(p, w) := s in
  real_nr_free_low_pages w + extra_pages_allocated p - 2 * extra_pd1_pages_allowance p - MIN_FREE_RAM -
    memory_for_modules w - pd_size (pd1 p) <? pd_size (pd2 p).

Definition amount_needed (use_image_size_limit : bool) (s : state) : Z :=
  Z.max (highpages_ps1_to_free s + lowpages_ps1_to_free s) (any_to_free use_image_size_limit s).

Definition image_not_ready (use_image_size_limit : bool) (s : state) : bool :=
  (amount_needed use_image_size_limit s >? 0) || (main_storage_allocated (fst s) <? main_storage_needed true true s).

(** The flags the failure report sets; its text is not modelled. *)
Definition display_failure_reason : M state unit :=
  st <-- get (fun s => s);;
  if storage_available (fst st) =? 0 then ret tt
  else
    (if storage_still_required st =? 0 then ret tt else set_abort TOI_INSUFFICIENT_STORAGE);;;
    (if ram_still_required st =? 0 then ret tt else set_abort TOI_UNABLE_TO_FREE_ENOUGH_MEMORY);;;
    (if highpages_ps1_to_free st =? 0 then ret tt else set_abort TOI_UNABLE_TO_FREE_ENOUGH_MEMORY);;;
    (if lowpages_ps1_to_free st =? 0 then ret tt else set_abort TOI_UNABLE_TO_FREE_ENOUGH_MEMORY).

(** ** Freeing memory and allocating storage *)

Definition mark_opts (p : prep) : mark_options :=
  MarkOptions (action_no_pageset2 p) (ps2_unneeded p) (action_pageset2_full p)
    (test_result_state TOI_ABORTED (prep_result p)).

Definition recalculate : M state unit := fun '(p, w) =>
  match toi_recalculate_image_contents (mm_env w) (mm_zones w) (mm_tasks w) (attention_list p) (mark_opts p) false
          (flags (image p)) with
  | Some c => Some ((p {{ image := c; storage_available := alloc_available w }}, w), tt)
  | None => None
  end.

Definition get_extra_pd1_allowance : M state unit :=
  orig_num_free <-- ask (real_nr_free_pages (fun _ => true));;
  r <-- call toi_go_atomic;;
  if r =? 0 then
    final <-- ask (real_nr_free_pages (fun _ => true));;
    act toi_end_atomic;;;
    put (fun p => p {{ extra_pd1_pages_allowance :=
      Z.max (orig_num_free - final + MIN_EXTRA_PAGES_ALLOWANCE) MIN_EXTRA_PAGES_ALLOWANCE }})
  else ret tt.

(** More storage may need more header, whose reservation may need more storage. *)
Fixpoint storage_loop (fuel : nat) : M state unit :=
  match fuel with
  | O => bug
  | S fuel' =>
      header <-- my header_storage_needed;;
      let old_header_req := s32 header in
      act (reserve_header_space header);;;
      available <-- ask alloc_available;;
      put (fun p => p {{ storage_available := available }});;;
      wanted <-- get (main_storage_needed false false);;
      act (allocate_storage (Z.min available wanted));;;
      allocated <-- ask alloc_allocated;;
      header <-- ask get_header_storage_needed;;
      put (fun p => p {{ main_storage_allocated := allocated; header_storage_needed := header }});;;
      if header >? old_header_req then storage_loop fuel' else ret tt
  end.

Definition freeze_or_abort : M state Z :=
  r <-- call freeze_processes;;
  (if r =? 0 then ret tt else set_abort TOI_FREEZING_FAILED);;;
  ret r.

Definition update_image (fuel : nat) (ps2_recalc : bool) : M state unit :=
  recalculate;;;
  wanted <-- my (fun p => s32 (pd_size (pd1 p) + extra_pd1_pages_allowance p - get_lowmem_size (pd2 p)));;
  allocated <-- my extra_pages_allocated;;
  early <-- (if wanted >? allocated
             then got <-- toi_allocate_extra_pagedir_memory wanted;; ret (wanted <? got)
             else ret false);;
  if early : bool then ret tt
  else
    (if ps2_recalc then ret tt
     else
       act thaw_kernel_threads;;;
       storage_loop fuel;;;
       freeze_or_abort;;; ret tt);;;
    recalculate.

Definition attempt_to_freeze : M state Z := act thaw_processes;;; freeze_or_abort.

Definition shrink (amount_wanted : Z) : M state unit :=
  act thaw_kernel_threads;;;
  act (shrink_all_memory (amount_wanted + 50));;;
  recalculate;;;
  freeze_or_abort;;;
  ret tt.

Definition eat_memory : M state unit :=
  recalculate;;;
  amount_wanted <-- get (amount_needed true);;
  limit <-- my image_size_limit;;
  if (limit =? -1) && (amount_wanted >? 0) then set_abort TOI_WOULD_EAT_MEMORY
  else
    (if limit =? -2 then act drop_pagecache;;; recalculate else ret tt);;;
    amount_wanted <-- (if limit =? -2 then get (amount_needed true) else ret amount_wanted);;
    stop <-- is_aborted;;
    let eat := (amount_wanted >? 0) && negb stop && negb (limit =? -1) in
    (if eat then shrink amount_wanted else ret tt);;;
    if (limit =? -2) || eat then recalculate else ret tt.

(** ** The whole preparation *)

Definition call_build_attention_list (allocs : list bool) : M state bool :=
  current <-- ask mm_current;;
  tasks <-- ask mm_tasks;;
  match build_attention_list current tasks allocs with
  | Some l => put (fun p => p {{ attention_list := l ++ attention_list p }});;; ret true
  | None => put (fun p => p {{ attention_list := [] }});;; ret false
  end.

(** The [do] loop; [rounds] bounds its repetitions by [MAX_TRIES]. *)
Fixpoint prepare_loop (rounds fuel : nat) (tries : Z) : M state unit :=
  match rounds with
  | O => bug
  | S rounds' =>
      eat_memory;;;
      stop <-- is_aborted;;
      if stop : bool then ret tt
      else
        update_image fuel false;;;
        let tries := tries + 1 in
        again <-- get (image_not_ready true);;
        stop <-- is_aborted;;
        if again && (tries <=? MAX_TRIES) && negb stop then prepare_loop rounds' fuel tries else ret tt
  end.

Definition abort_prepare : M state unit :=
  put (fun p => p {{ prep_result := abort_hibernate (prep_ui p) TOI_UNABLE_TO_PREPARE_IMAGE (prep_result p) }}).

Definition conclude (fuel : nat) (not_ready : bool) : M state unit :=
  stop <-- is_aborted;;
  if stop : bool then ret tt
  else if not_ready then display_failure_reason;;; abort_prepare
  else
    needed <-- get need_pageset2;;
    dont <-- my action_no_ps2_if_unneeded;;
    if negb needed && dont then
      put (fun p => p {{ ps2_unneeded := true }});;;
      update_image fuel true
    else ret tt.

Definition toi_prepare_image (fuel : nat) (allocs : list bool) : M state Z :=
  put (fun p => p {{ main_storage_allocated := 0; ps2_unneeded := false }});;;
  r <-- attempt_to_freeze;;
  if negb (r =? 0) then ret 1
  else
    allowance <-- my extra_pd1_pages_allowance;;
    (if allowance =? 0 then get_extra_pd1_allowance else ret tt);;;
    available <-- ask alloc_available;;
    put (fun p => p {{ storage_available := available }});;;
    if available =? 0 then
      display_failure_reason;;;
      set_abort TOI_NOSTORAGE_AVAILABLE;;;
      ret 1
    else
      listed <-- call_build_attention_list allocs;;
      if negb listed then abort_prepare;;; ret 1
      else
        prepare_loop (Z.to_nat MAX_TRIES) fuel 1;;;
        not_ready <-- get (image_not_ready false);;
        conclude fuel not_ready;;;
        if not_ready : bool then ret 1
        else
          size <-- my (fun p => pd_size (pd2 p));;
          call (checksum_pages size).
End Prepare.
