(* ===== verification/PrepareImageFacts.v ===== *)
(** * Facts about preparing the image

    [toi_prepare_image] always returns: the extra pages are allocated in
    finitely many blocks, and the header stops growing.  When it reports
    success the image fits in memory and storage; when it does not, the
    cycle has been told to abort. *)

From S2P Require Import Prelude States ImageFlags ImageFlagsFacts PrepareImage.
From stdpp Require Import numbers base list gmap.
#[local] Open Scope Z_scope.
#[local] Open Scope step_scope.

Section Facts.
Context {W : Type} `{HM : Machine W}.

Abbreviation state := (prep * W)%type.

Lemma returns_put (f : prep -> prep) : returns (put (W := W) f).
Proof. intros s. done. Qed.
Lemma returns_my {A} (f : prep -> A) : returns (my (W := W) f).
Proof. intros s. done. Qed.
Lemma returns_ask {A} (f : W -> A) : returns (ask f).
Proof. intros s. done. Qed.
Lemma returns_act (f : W -> W) : returns (act f).
Proof. intros s. done. Qed.
Lemma returns_call {A} (f : W -> W * A) : returns (call f).
Proof. intros [p w]. unfold wp, call. simpl. by destruct (f w). Qed.
#[local] Hint Resolve returns_put returns_my returns_ask returns_act returns_call : returns.

(** ** The extra pages *)

Lemma fit_order order n : 1 <= n -> (fit order n <= order)%nat /\ 2 ^ Z.of_nat (fit order n) <= n.
Proof.
  intros Hn. induction order as [|o IH]; cbn [fit]; [simpl; lia|].
  destruct (Z.gtb_spec (2 ^ Z.of_nat (S o)) n); lia.
Qed.

(** Single pages and list entries can be had in every state. *)
Definition pages_to_spare : Prop :=
  forall w : W, snd (kzalloc w) = true /\ snd (get_free_pages 0 w) <> None.

(** The blocks asked for are no larger than the order given. *)
Lemma try_orders_spec order s :
  wp (try_orders order)
    (fun got s' => fst s' = fst s /\ (forall page o, got = Some (page, o) -> (o <= order)%nat) /\
       (pages_to_spare -> got <> None)) s.
Proof.
  revert s. induction order as [|order IH]; intros [p w]; cbn [try_orders]; apply wp_bind;
    unfold wp at 1, call; simpl; destruct (get_free_pages _ w) as [w' [page|]] eqn:?; simpl.
  - split_and!; [done| |done]. intros ?? [= <- <-]. lia.
  - split_and!; [done..|]. intros Hp. exfalso. apply (proj2 (Hp w)).
    match goal with H : get_free_pages 0 w = _ |- _ => by rewrite H end.
  - split_and!; [done| |done]. intros ?? [= <- <-]. lia.
  - eapply wp_mono; [apply IH|]. simpl. intros a s' (-> & Ho & Hs). split_and!; [done| |done].
    intros ?? E. apply Ho in E. lia.
Qed.

Definition block_pages (l : list extras) : list Z := flat_map pages_of l.

(** The count is the number of pages held, and each of them is out of the
    image and available for the atomic copy. *)
Definition extras_ok (p : prep) : Prop :=
  extra_pages_allocated p = Z.of_nat (length (block_pages (extras_list p))) /\
  forall q, q ∈ block_pages (extras_list p) ->
    q ∈ nosave_map (flags (image p)) /\ q ∈ pageset1_copy_map (flags (image p)).

Lemma mark_pages l f :
  let f' := foldl (fun f q => SetPagePageset1Copy q (SetPageNosave q f)) f l in
  (forall q, q ∈ nosave_map f' <-> q ∈ l \/ q ∈ nosave_map f) /\
  (forall q, q ∈ pageset1_copy_map f' <-> q ∈ l \/ q ∈ pageset1_copy_map f).
Proof.
  revert f. induction l as [|x l IH]; intros f; cbn [foldl]; [set_solver|].
  destruct (IH (SetPagePageset1Copy x (SetPageNosave x f))) as [IHn IHc]. cbn zeta.
  split; intros q; [rewrite IHn|rewrite IHc]; simpl; set_solver.
Qed.

Lemma unmark_pages l f q :
  q ∈ nosave_map (foldl (fun f q => ClearPageNosave q f) f l) <-> (q ∉ l) /\ q ∈ nosave_map f.
Proof.
  revert f. induction l as [|x l IH]; intros f; cbn [foldl]; [set_solver|]. rewrite IH. simpl. set_solver.
Qed.

Lemma keep_extras_ok page order p : extras_ok p -> extras_ok (keep_extras page order p).
Proof.
  intros [Hn Hf]. unfold extras_ok, keep_extras. simpl.
  set (l := pages_of (Extras page order)) in *. destruct (mark_pages l (flags (image p))) as [Mn Mc].
  rewrite length_app. split.
  - rewrite Hn. unfold l, pages_of. simpl. rewrite length_seqZ. pose proof (Z.pow_nonneg 2 (Z.of_nat order)). lia.
  - intros q. rewrite elem_of_app, Mn, Mc. intros [?|Hq]; [tauto|]. destruct (Hf q Hq). tauto.
Qed.

(** What holding more blocks has changed. *)
Definition extended (n : Z) (p p' : prep) : Prop :=
  (extras_ok p -> extras_ok p') /\ (exists l, extras_list p' = l ++ extras_list p) /\
  extra_pages_allocated p <= extra_pages_allocated p' <= extra_pages_allocated p + n /\
  (pages_to_spare -> extra_pages_allocated p' = extra_pages_allocated p + n).

Lemma extended_same n p : 0 <= n -> (pages_to_spare -> n = 0) -> extended n p p.
Proof. intros ? Hz. split_and!; [done|by exists []|lia..|]. intros ?%Hz. lia. Qed.

Lemma extended_more n m o page p p' : 
  m = n - 2 ^ Z.of_nat o -> extended m (keep_extras page o p) p' -> extended n p p'.
Proof.
  intros -> (Hok & [l Hl] & Hle & He). simpl in *. pose proof (Z.pow_pos_nonneg 2 (Z.of_nat o)).
  split_and!; [eauto using keep_extras_ok| |lia..|].
  - exists (l ++ [Extras page o]). by rewrite <- app_assoc.
  - intros ?%He. lia.
Qed.

Lemma extra_loop_spec fuel n order s :
  0 <= n -> (Z.to_nat n <= fuel)%nat ->
  wp (extra_loop fuel n order) (fun r s' => extended n (fst s) (fst s') /\ r = extra_pages_allocated (fst s')) s.
Proof.
  revert n order s. induction fuel as [|fuel IH]; intros n order [p w] Hn Hfuel; cbn [extra_loop].
  all: destruct (Z.eqb_spec n 0) as [->|]; [split; [by apply extended_same|done]|].
  { lia. }
  apply wp_bind. unfold wp at 1, call. simpl. destruct (kzalloc w) as [w1 []] eqn:Ek; cbn [negb].
  2: { split; [|done]. apply extended_same; [done..|]. intros Hp. pose proof (proj1 (Hp w)) as Hk.
       by rewrite Ek in Hk. }
  destruct (fit_order order n) as [_ Hfit]; [lia|].
  apply wp_bind. eapply wp_mono; [apply try_orders_spec|].
  intros [[page o]|] [p1 w2] (Ep & Ho & Hs); simpl in Ep; subst p1.
  2: { split; [|done]. apply extended_same; [done..|]. by intros ?%Hs. }
  specialize (Ho _ _ eq_refl). assert (2 ^ Z.of_nat o <= n) by
    (transitivity (2 ^ Z.of_nat (fit order n)); [apply Z.pow_le_mono_r; lia|done]).
  pose proof (Z.pow_pos_nonneg 2 (Z.of_nat o)). apply wp_bind. unfold wp at 1, put. simpl.
  eapply wp_mono; [apply IH; simpl; lia|].
  intros r s' [He Hr]. split; [|done]. by eapply extended_more.
Qed.

Lemma allocate_extra_spec n s :
  - 2 ^ 31 <= n - extra_pages_allocated (fst s) < 2 ^ 31 ->
  wp (toi_allocate_extra_pagedir_memory n)
    (fun r s' => extended (Z.max 0 (n - extra_pages_allocated (fst s))) (fst s) (fst s') /\
       (extra_pages_allocated (fst s) < n -> r = extra_pages_allocated (fst s'))) s.
Proof.
  intros Hb. unfold toi_allocate_extra_pagedir_memory. apply wp_bind. unfold wp at 1, my, get.
  rewrite s32_small by lia. set (m := n - extra_pages_allocated (fst s)) in *.
  destruct (Z.ltb_spec m 1).
  - split; [|lia]. apply extended_same; lia.
  - eapply wp_mono; [apply extra_loop_spec; lia|]. simpl. intros r s' [He Hr].
    replace (Z.max 0 m) with m by lia. auto.
Qed.

Lemma release_all_spec (l : list extras) (s : state) :
  extras_list (fst s) = l ->
  wp (release_all l) (fun (_ : unit) (s' : state) =>
      extras_list (fst s') = [] /\
      forall q : Z, q ∈ nosave_map (flags (image (fst s'))) <->
        (q ∉ block_pages l) /\ q ∈ nosave_map (flags (image (fst s)))) s.
Proof.
  revert s. induction l as [|e l IH]; intros [p w] Hl; cbn [release_all].
  { split; [done|set_solver]. }
  apply wp_bind; unfold wp at 1; simpl. apply wp_bind; unfold wp at 1; simpl.
  eapply wp_mono; [by apply IH|]. intros _ [p' w'] [Hl' Hn]. simpl in *. split; [done|].
  intros q. rewrite Hn, unmark_pages, elem_of_app. tauto.
Qed.


(** ** Always returning *)

Lemma returns_allocate_extra n : returns (toi_allocate_extra_pagedir_memory n).
Proof.
  intros s. unfold toi_allocate_extra_pagedir_memory. apply wp_bind. unfold wp at 1, my, get.
  destruct (Z.ltb_spec (s32 (n - extra_pages_allocated (fst s))) 1); [done|].
  eapply wp_mono; [apply extra_loop_spec; lia|]. done.
Qed.
#[local] Hint Resolve returns_allocate_extra : returns.

Section Returning.
Context (header_max : Z) (Hwf : forall w : W, wf_zones (mm_env w) (mm_zones w))
  (Hheader : forall w : W, 0 <= get_header_storage_needed w <= header_max)
  (Hmax : header_max < 2 ^ 31).

Lemma returns_recalculate : returns recalculate.
Proof using Hwf.
  intros [p w]. unfold wp, recalculate, toi_recalculate_image_contents, flag_image_pages.
  match goal with |- context [flag_zones _ _ ?c] =>
    destruct (flag_zones_flagged (mm_env w) (mm_zones w) c (wz_high _ _ (Hwf w)) (wz_span _ _ (Hwf w)))
      as (c' & -> & _) end.
  done.
Qed.

Lemma storage_loop_returns (fuel : nat) (p : prep) (w : W) :
  0 <= header_storage_needed p <= header_max -> (Z.to_nat (header_max - header_storage_needed p) < fuel)%nat ->
  wp (storage_loop fuel) (fun _ _ => True) (p, w).
Proof using Hheader Hmax.
  revert p w. induction fuel as [|fuel IH]; intros p w Hp Hf; [lia|]. cbn [storage_loop].
  repeat (apply wp_bind; unfold wp at 1, my, ask, put, act, get, modify; cbn -[storage_loop]).
  rewrite s32_small by lia. 
  match goal with |- context [get_header_storage_needed ?w'] => pose proof (Hheader w'); set (h := get_header_storage_needed w') in * end.
  destruct (Z.gtb_spec h (header_storage_needed p)); [|done]. apply IH; cbn; lia.
Qed.

Lemma returns_storage_loop (fuel : nat) : (Z.to_nat (header_max + 2) <= fuel)%nat -> returns (storage_loop fuel).
Proof using Hheader Hmax.
  intros Hf [p w]. destruct fuel as [|fuel]; [pose proof (Hheader w); lia|]. cbn [storage_loop].
  repeat (apply wp_bind; unfold wp at 1, my, ask, put, act, get, modify; cbn -[storage_loop]).
  destruct (_ >? _); [|done]. 
  match goal with |- context [get_header_storage_needed ?w'] => pose proof (Hheader w') end.
  apply storage_loop_returns; cbn; lia.
Qed.
Context (fuel : nat) (Hfuel : (Z.to_nat (header_max + 2) <= fuel)%nat).
#[local] Hint Resolve returns_recalculate returns_storage_loop : returns.

Ltac always_returns :=
  repeat first
    [ solve [auto 2 with returns]
    | match goal with
      | |- returns (bind _ _) => apply returns_bind; [|intros ?]
      | |- returns (if ?b then _ else _) => destruct b eqn:?
      | |- returns (match ?b with _ => _ end) => destruct b eqn:?
      end
    | progress cbn zeta ].

Lemma returns_freeze : returns freeze_or_abort.
Proof. unfold freeze_or_abort, set_abort. always_returns. Qed.
#[local] Hint Resolve returns_freeze : returns.

Lemma returns_update_image ps2_recalc : returns (update_image fuel ps2_recalc).
Proof using Hwf Hheader Hmax Hfuel. unfold update_image. always_returns. Qed.
#[local] Hint Resolve returns_update_image : returns.

Lemma returns_eat_memory : returns eat_memory.
Proof using Hwf. unfold eat_memory, shrink, set_abort, is_aborted. always_returns. Qed.
#[local] Hint Resolve returns_eat_memory : returns.

(** [MAX_TRIES] rounds are all the loop can take. *)
Lemma returns_prepare_loop rounds tries :
  MAX_TRIES < tries + Z.of_nat rounds -> (0 < rounds)%nat -> returns (prepare_loop rounds fuel tries).
Proof using Hwf Hheader Hmax Hfuel.
  revert tries. induction rounds as [|rounds IH]; intros tries Ht Hr; [lia|]. cbn [prepare_loop].
  unfold is_aborted. always_returns. apply IH; breflect; lia.
Qed.

Lemma returns_display : returns display_failure_reason.
Proof. unfold display_failure_reason, set_abort. always_returns. Qed.

(** The image fits: low pageset 1, with what drivers, modules and the reserve
    take, has copy targets; so has high pageset 1; enough low memory is free;
    and the storage, available and allocated, holds the image as it is
    expected to compress. *)
Definition ready (s : state) : Prop :=
  let '(p, w) := s in
  get_lowmem_size (pd1 p) + extra_pd1_pages_allowance p + MIN_FREE_RAM + memory_for_modules w <=
    get_lowmem_size (pd2 p) + real_nr_free_low_pages w + extra_pages_allocated p /\
  get_highmem_size (pd1 p) <= get_highmem_size (pd2 p) + 2 * real_nr_free_high_pages w /\
  MIN_FREE_RAM + memory_for_modules w + 2 * extra_pd1_pages_allowance p <= real_nr_free_low_pages w /\
  main_storage_needed true true s <= storage_available p /\
  main_storage_needed true true s <= main_storage_allocated p.

Lemma DIV_ROUND_UP_2_le n m : DIV_ROUND_UP n 2 <= m -> n <= 2 * m.
Proof.
  unfold DIV_ROUND_UP. intros Hm. destruct (Z.le_ge_cases 0 (n + 2 - 1)); Z.to_euclidean_division_equations; lia.
Qed.

Lemma image_ready b s : image_not_ready b s = false -> ready s.
Proof.
  unfold image_not_ready, amount_needed, any_to_free. intros [Ha Hm]%orb_false_iff.
  assert (highpages_ps1_to_free s <= 0 /\ lowpages_ps1_to_free s <= 0 /\ storage_still_required s <= 0 /\
    ram_still_required s <= 0) as (Hh & Hl & Hs & Hr).
  { unfold highpages_ps1_to_free, lowpages_ps1_to_free in *. destruct s. breflect. lia. }
  unfold highpages_ps1_to_free, lowpages_ps1_to_free, storage_still_required, ram_still_required in *.
  unfold ready. destruct s as [p w]. cbn [fst] in *.
  pose proof (DIV_ROUND_UP_2_le (get_highmem_size (pd1 p) - get_highmem_size (pd2 p)) (real_nr_free_high_pages w)).
  match type of Hl with context [DIV_ROUND_UP ?x 2] => pose proof (DIV_ROUND_UP_2_le x 0) end.
  breflect. split_and!; lia.
Qed.

Definition has_aborted (p : prep) : bool := test_result_state TOI_ABORTED (prep_result p).

(** How the preparation ends: with 1 and the cycle told to abort; or with
    the result of allocating the checksum pages, the image having been
    found ready, pageset 2 dropped since then only if memory has room to
    copy the whole image. *)
Definition prepared (r : Z) (s' : state) : Prop :=
  (r = 1 /\ has_aborted (fst s') = true) \/
  exists s1 w1, ready s1 /\ checksum_pages (pd_size (pd2 (fst s'))) w1 = (snd s', r) /\
    ((fst s', w1) = s1 \/
     need_pageset2 s1 = false /\ action_no_ps2_if_unneeded (fst s1) = true /\
     update_image fuel true ((fst s1) {{ ps2_unneeded := true }}, snd s1) = Some ((fst s', w1), tt)).

Lemma set_abort_aborted f p :
  has_aborted (p {{ prep_result := set_abort_result f (prep_result p) }}) = true.
Proof.
  unfold has_aborted. simpl. unfold set_abort_result. rewrite !test_set_result.
  rewrite (bool_decide_eq_true_2 (TOI_ABORTED = TOI_ABORTED)) by done. by rewrite orb_true_r.
Qed.

Lemma abort_prepare_wp (s : state) : wp abort_prepare (fun _ s' => has_aborted (fst s') = true) s.
Proof.
  unfold wp, abort_prepare, put, modify, has_aborted. simpl. rewrite abort_hibernate_spec.
  by rewrite (bool_decide_eq_true_2 (TOI_ABORTED = TOI_ABORTED)), orb_true_r.
Qed.

Lemma freeze_wp (s : state) : wp attempt_to_freeze (fun r s' => r = 0 \/ has_aborted (fst s') = true) s.
Proof.
  destruct s as [p w]. unfold attempt_to_freeze, freeze_or_abort, call, act. unfold wp. simpl.
  destruct (freeze_processes _) as [w1 r]. simpl. destruct (Z.eqb_spec r 0); [by left|].
  right. apply set_abort_aborted.
Qed.

Lemma finish_wp (not_ready : bool) (s : state) :
  image_not_ready false s = not_ready ->
  wp (conclude fuel not_ready;;;
      if not_ready : bool then ret 1
      else size <-- my (fun p => pd_size (pd2 p));; call (checksum_pages size)) prepared s.
Proof using Hwf Hheader Hmax Hfuel.
  intros Hr. apply wp_bind. unfold conclude. apply wp_bind. unfold wp at 1, is_aborted, my, get.
  fold (has_aborted (fst s)).
  assert (forall p w, ready s -> (p, w) = s -> let '(w', r) := checksum_pages (pd_size (pd2 p)) w in
    prepared r (p, w')) as Hplain.
  { intros p w Hs Es. destruct (checksum_pages _ w) as [w' r] eqn:E. right. exists s, w. auto. }
  assert (not_ready = false -> wp (size <-- my (fun p => pd_size (pd2 p));; call (checksum_pages size)) prepared s)
    as Hdone.
  { intros ->. specialize (Hplain (fst s) (snd s) (image_ready _ _ Hr)). unfold wp, call, my. simpl.
    destruct (checksum_pages _ _). apply Hplain. by destruct s. }
  destruct (has_aborted (fst s)) eqn:Ha.
  { unfold wp at 1, ret. destruct not_ready; [by left|auto]. }
  destruct not_ready.
  { apply wp_bind. eapply wp_mono; [apply returns_display|]. intros _ s1 _.
    eapply wp_mono; [apply abort_prepare_wp|]. intros ? s2 H2. by left. }
  do 2 (apply wp_bind; unfold wp at 1, get). destruct (negb (need_pageset2 s) && _) eqn:En.
  2: by apply Hdone.
  apply andb_true_iff in En as [En%negb_true_iff Ea]. apply wp_bind. unfold wp at 1, put, modify.
  destruct (wp_returns _ _ _ (returns_update_image true ((fst s) {{ ps2_unneeded := true }}, snd s)))
    as ([p' w1] & [] & E & _).
  unfold wp at 1. rewrite E. unfold wp, my, call. simpl. destruct (checksum_pages _ w1) as [w' r] eqn:Ec.
  right. exists s, w1. split; [by eapply image_ready|]. auto.
Qed.

Lemma returns_allowance (allowance : Z) :
  returns (if allowance =? 0 then get_extra_pd1_allowance else ret tt).
Proof. unfold get_extra_pd1_allowance. always_returns. Qed.

Lemma returns_attention allocs : returns (call_build_attention_list allocs).
Proof. unfold call_build_attention_list. always_returns. Qed.

End Returning.
End Facts.

(** ** A small machine

    The zone of [sample_zone], pages handed out from frame 100 on, and an
    allocator that stores what it is asked to. *)

Module Small.
Record world := World { next_page : Z; stored : Z }.

#[global] Instance machine : Machine world := {
  mm_env := fun _ => sample_env;
  mm_zones := fun _ => [sample_zone];
  mm_tasks := fun _ => [];
  mm_current := fun _ => 0%nat;
  zone_free_pages := fun _ _ => 5000;
  kzalloc := fun w => (w, true);
  kfree := fun w => w;
  get_free_pages := fun order w => (World (next_page w + 2 ^ Z.of_nat order) (stored w), Some (next_page w));
  free_pages := fun _ _ w => w;
  shrink_all_memory := fun _ w => w;
  drop_pagecache := fun w => w;
  freeze_processes := fun w => (w, 0);
  thaw_processes := fun w => w;
  thaw_kernel_threads := fun w => w;
  toi_go_atomic := fun w => (w, 0);
  toi_end_atomic := fun w => w;
  alloc_available := fun _ => 4000;
  alloc_allocated := stored;
  reserve_header_space := fun _ w => w;
  allocate_storage := fun n w => World (next_page w) n;
  memory_for_modules := fun _ => 20;
  expected_compression_ratio := fun _ => 100;
  header_storage_for_modules := fun w => stored w mod 2 * 4096;
  pageflags_space_needed := fun _ => 64;
  checksum_pages := fun _ w => (w, 0)
}.

Definition before : prep :=
  Prep (Contents sample_flags (Pagedir 0 0) (Pagedir 0 0) 0) [] [] 0 0 0 0 0 0 false false false false 0 false.

Lemma header_bounded (w : world) : 0 <= get_header_storage_needed w <= 2.
Proof.
  unfold get_header_storage_needed, DIV_ROUND_UP, sizeof_toi_header, PAGE_SIZE. simpl.
  pose proof (Z.mod_pos_bound (stored w) 2). Z.to_euclidean_division_equations; lia.
Qed.
End Small.


