(* ===== verification/Pbes.v ===== *)
(** * Copying and restoring pageset 1

    kernel/power/tuxonice_pagedir.c, the copy of pageset 1
    ([toi_copy_pageset1] of tuxonice_atomic_copy.c), the search for the page
    a frame is loaded to ([copy_page_from_orig_page] of tuxonice_io.c), and
    the loop of arch/x86/power/hibernate_asm_64.S that moves the loaded pages
    to their original places.

    The target has no high memory (CONFIG_HIGHMEM is off): [PageHighMem] is 0
    everywhere, so the branches on it and the list of high pbes are not here.
    Flag maps are sets of frames, walked in ascending order. *)

From S2P Require Import Prelude States BitmapSet.
From stdpp Require Import numbers base list gmap functions sorting.
#[local] Open Scope Z_scope.
#[local] Open Scope step_scope.

(** ** Memory *)

Definition PAGE_OFFSET : Z := 0xffff880000000000.
Definition page_address (pfn : Z) : Z := PAGE_OFFSET + pfn * PAGE_SIZE.
Definition virt_to_pfn (a : Z) : Z := (a - PAGE_OFFSET) / PAGE_SIZE.

Definition sizeof_pbe : Z := 24.
Definition PBES_PER_PAGE : nat := 170.

(** A [struct pbe *]: a frame and an index in it. *)
Record ptr := Ptr { ptr_page : Z; ptr_index : nat }.

(** [struct pbe]; the address 0 is [NULL]. *)
Record pbe := Pbe { address : Z; orig_address : Z; pbe_next : option ptr }.

#[export] Instance pbe_eta : Eta pbe := fun b => Pbe (address b) (orig_address b) (pbe_next b).

Definition null_pbe : pbe := Pbe 0 0 None.

(** What a frame holds: bytes, or an array of pbes. *)
Inductive frame := Data (bytes : list Z) | Pbes (l : list pbe).

Abbreviation memory := (Z -> frame).

(** ** The atomic copy *)

Definition words_per_page : nat := 512.

(** [while (loop >= 0) { *(copyvirt + loop) = *(origvirt + loop); loop--; }],
    a word being eight bytes. *)
Fixpoint copy_words (loop : nat) (orig copy : list Z) : list Z :=
  match loop with
  | O => copy
  | S n => copy_words n orig (take (8 * n) copy ++ take 8 (drop (8 * n) orig) ++ drop (8 * n + 8) copy)
  end.

(** Frames a walk runs out of are a wild [pfn_to_page(BM_END_OF_MAP)]. *)
Fixpoint copy_frames (i : nat) (sources dests : list Z) (m : Z -> list Z) : option (Z -> list Z) :=
  match i with
  | O => Some m
  | S i' =>
      match sources, dests with
      | source :: sources', dest :: dests' =>
          copy_frames i' sources' dests' (<[dest := copy_words words_per_page (m source) (m dest)]> m)
      | _, _ => None
      end
  end.

Definition toi_copy_pageset1 (size : Z) (pageset1_map pageset1_copy_map : gset Z) (m : Z -> list Z)
    : option (Z -> list Z) :=
  copy_frames (Z.to_nat size) (walk pageset1_map) (walk pageset1_copy_map) m.

(** ** Load addresses *)

(** The page allocator: frames it has left, the next one first; [release]
    gives one back. *)
Class PagePool := {
  release : Z -> list Z -> list Z;
  release_perm p l : release p l ≡ₚ p :: l
}.

Record loader := Loader {
  pool : list Z;
  first_conflicting_page : list Z;        (* chained through the pages *)
  copy_map : gset Z;                      (* pageset1_copy_map *)
  ptoi_pfns : option (list Z);            (* the walk of pageset2_map, while loading another image *)
  memory_of : memory;
  restore_pblist : option ptr;
  last_low_pbe_ptr : option ptr;          (* whose [next]; [None]: restore_pblist itself *)
  this_low_pbe : ptr;
  dup_map : list Z;                       (* the walk of dup_map2 *)
  irqs_off : bool;
  cpus_off : bool;
  dup_maps_held : bool
}.

#[export] Instance loader_eta : Eta loader := fun s =>
  Loader (pool s) (first_conflicting_page s) (copy_map s) (ptoi_pfns s) (memory_of s) (restore_pblist s)
    (last_low_pbe_ptr s) (this_low_pbe s) (dup_map s) (irqs_off s) (cpus_off s) (dup_maps_held s).

Section Loading.
Context `{PagePool}.
Context (pageset1_map : gset Z).
Context (no_direct_load : bool).            (* TOI_NO_DIRECT_LOAD *)
Context (raw : list Z -> list pbe).         (* the bytes of a page read as pbes *)

Definition as_pbes (f : frame) : list pbe := match f with Pbes l => l | Data d => raw d end.

Definition toi_free_page (p : Z) (s : loader) : loader := s {{ pool := release p (pool s) }}.

Definition free_conflicting_pages (s : loader) : loader :=
  foldl (fun s p => toi_free_page p s {{ first_conflicting_page := tail (first_conflicting_page s) }}) s
    (first_conflicting_page s).

(** A page of the running system's pageset 2, while another image is loaded. *)
Fixpoint alt_page (l : list Z) : option Z * option (list Z) :=
  match l with
  | [] => (None, None)
  | p :: l' => if decide (p ∈ pageset1_map) then alt_page l' else (Some p, Some l')
  end.

Fixpoint fresh_page (l conflicting : list Z) : option Z * list Z * list Z :=
  match l with
  | [] => (None, [], conflicting)
  | p :: l' => if decide (p ∈ pageset1_map) then fresh_page l' (p :: conflicting) else (Some p, l', conflicting)
  end.

Definition toi_get_nonconflicting_page : M loader (option Z) := fun s =>
  let '(found, rest) := match ptoi_pfns s with Some l => alt_page l | None => (None, None) end in
  let s := s {{ ptoi_pfns := rest }} in
  match found with
  | Some p => Some (s, Some p)
  | None =>
      let '(found, pool', conflicting) := fresh_page (pool s) (first_conflicting_page s) in
      Some (s {{ pool := pool'; first_conflicting_page := conflicting }}, found)
  end.

Definition set_memory (p : Z) (f : frame) (s : loader) : loader := s {{ memory_of := <[p := f]> (memory_of s) }}.

(** [None] is [ERR_PTR(-ENOMEM)]. *)
Definition get_next_pbe (this_pbe : ptr) : M loader (option ptr) :=
  if sizeof_pbe * Z.of_nat (ptr_index this_pbe) + 2 * sizeof_pbe >? PAGE_SIZE then
    new_page <-- toi_get_nonconflicting_page;;
    match new_page with
    | None => ret None
    | Some p => modify (set_memory p (Pbes (replicate PBES_PER_PAGE null_pbe)));;; ret (Some (Ptr p 0))
    end
  else ret (Some (Ptr (ptr_page this_pbe) (S (ptr_index this_pbe)))).

Definition load_direct (pfn : Z) (s : loader) : bool := negb no_direct_load && bool_decide (pfn ∈ copy_map s).

(** [do { page = toi_alloc_page(30, flags); ... } while (page);] *)
Fixpoint take_all (l : list Z) (s : loader) : loader :=
  match l with
  | [] => s
  | p :: l' => take_all l' (s {{ pool := l'; copy_map := {[p]} ∪ copy_map s }})
  end.

Record counts := Counts { lowallocd : Z; low_direct : Z }.

#[export] Instance counts_eta : Eta counts := fun c => Counts (lowallocd c) (low_direct c).

Fixpoint count_pages (pfns : list Z) (c : counts) (s : loader) : counts * loader :=
  match pfns with
  | [] => (c, s)
  | pfn :: pfns' =>
      if decide (pfn ∈ pageset1_map) then
        if no_direct_load then
          count_pages pfns' c (toi_free_page pfn (s {{ copy_map := copy_map s ∖ {[pfn]} }}))
        else count_pages pfns' (c {{ low_direct := low_direct c + 1 }}) s
      else count_pages pfns' (c {{ lowallocd := lowallocd c + 1 }}) s
  end.

(** The next frame of the copy of pageset 1's map that is not loaded directly. *)
Fixpoint next_orig (l : list Z) (s : loader) : option (list Z * Z) :=
  match l with
  | [] => None
  | p :: l' => if load_direct p s then next_orig l' s else Some (l', p)
  end.

Definition take_orig : M loader Z := fun s =>
  match next_orig (dup_map s) s with
  | Some (l, p) => Some (s {{ dup_map := l }}, p)
  | None => None
  end.

(** Writing a pbe, and the pointer to it. *)
Definition write_pbe (at_ptr : ptr) (f : pbe -> pbe) (s : loader) : loader :=
  set_memory (ptr_page at_ptr) (Pbes (alter f (ptr_index at_ptr) (as_pbes (memory_of s (ptr_page at_ptr))))) s.

Definition link (target : ptr) (s : loader) : loader :=
  match last_low_pbe_ptr s with
  | None => s {{ restore_pblist := Some target }}
  | Some q => write_pbe q (fun b => b {{ pbe_next := Some target }}) s
  end.

Definition fill_pbe (orig copy : Z) (s : loader) : loader :=
  let this := this_low_pbe s in
  let s := write_pbe this (fun _ => Pbe copy orig None) s in
  (link this s) {{ last_low_pbe_ptr := Some this }}.

(** The pages used and the pages given back; true on an error pbe. *)
Fixpoint pbe_loop (pfns : list Z) (low_to_free : Z) : M loader bool :=
  match pfns with
  | [] => ret false
  | pfn :: pfns' =>
      if decide (pfn ∈ pageset1_map) then pbe_loop pfns' low_to_free
      else if negb (low_to_free =? 0) then
        modify (fun s => toi_free_page pfn (s {{ copy_map := copy_map s ∖ {[pfn]} }}));;;
        pbe_loop pfns' (s32 (low_to_free - 1))
      else
        orig_page <-- take_orig;;
        modify (fill_pbe (page_address orig_page) (page_address pfn));;;
        this <-- get this_low_pbe;;
        this <-- get_next_pbe this;;
        match this with
        | None => ret true
        | Some q => modify (fun s => s {{ this_low_pbe := q }});;; pbe_loop pfns' low_to_free
        end
  end.

(** [out:] *)
Definition leave (result : Z) : M loader Z :=
  modify (fun s => s {{ dup_maps_held := false; irqs_off := false; cpus_off := false }});;; ret result.

Definition toi_get_pageset1_load_addresses (pagedir1_size : Z) : M loader Z :=
  modify (fun s => s {{ cpus_off := true; irqs_off := true; dup_maps_held := true; dup_map := walk pageset1_map;
                        last_low_pbe_ptr := None }});;;
  low_pbe_page <-- toi_get_nonconflicting_page;;
  match low_pbe_page with
  | None => leave (- ENOMEM)
  | Some p =>
      modify (fun s => s {{ this_low_pbe := Ptr p 0 }});;;
      modify (fun s => take_all (pool s) s);;;
      pfns <-- get (fun s => walk (copy_map s));;
      c <-- (fun s => let '(c, s) := count_pages pfns (Counts 0 0) s in Some (s, c));;
      let low_needed := s32 (s32 pagedir1_size - low_direct c) in
      pfns <-- get (fun s => walk (copy_map s));;
      failed <-- pbe_loop pfns (s32 (lowallocd c - low_needed));;
      if failed : bool then ret (- ENOMEM)
      else
        modify free_conflicting_pages;;;
        leave 0
  end.

(** [boot_kernel_data_buffer] gets the boot kernel's data back through a pbe. *)
Definition add_boot_kernel_data_pbe (boot_kernel_data_buffer : Z) (toi_bkd : list Z) : M loader Z :=
  p <-- toi_get_nonconflicting_page;;
  this <-- get this_low_pbe;;
  modify (write_pbe this (fun b => b {{ address := if p is Some p then page_address p else 0 }}));;;
  match p with
  | None => ret (- ENOMEM)
  | Some p =>
      modify (set_memory p (Data toi_bkd));;;
      modify (link this);;;
      modify (write_pbe this (fun b => b {{ orig_address := boot_kernel_data_buffer; pbe_next := None }}));;;
      ret 0
  end.

(** ** Finding where a frame is loaded *)

(** [__get_cpu_var(last_sought)] and [last_low_page]. *)
Record last_found := LastFound { last_sought : option Z; last_low_page : option Z }.

Definition pbe_at (m : memory) (page : Z) (i : nat) : option pbe :=
  match m page with Pbes l => l !! i | Data d => raw d !! i end.

(** The page of pbes in which to search. *)
Fixpoint find_page (fuel : nat) (m : memory) (page compare : Z) : option Z :=
  match fuel with
  | O => None
  | S fuel' =>
      b ← pbe_at m page (PBES_PER_PAGE - 1);
      match pbe_next b with
      | Some q => if orig_address b <? compare then find_page fuel' m (ptr_page q) compare else Some page
      | None => Some page
      end
  end.

(** The binary search; [Some None] when the range becomes empty. *)
Fixpoint search (fuel : nat) (m : memory) (page compare : Z) (min index max : nat) : option (option Z) :=
  if (max - min =? 0)%nat then Some None
  else
    match fuel with
    | O => None
    | S fuel' =>
        b ← pbe_at m page index;
        if (orig_address b =? 0) || (orig_address b >? compare) then
          search fuel' m page compare min ((index + min) / 2) index
        else if orig_address b =? compare then Some (Some (address b))
        else search fuel' m page compare index ((max + index) / 2) max
    end.

Definition copy_page_from_orig_page (fuel : nat) (orig_page : Z) (c : last_found) (s : loader)
    : option (last_found * option Z) :=
  let compare := page_address orig_page in
  let start :=
    match last_sought c, last_low_page c with
    | Some l, Some p => if l <? orig_page then Some p else ptr_page <$> restore_pblist s
    | _, _ => ptr_page <$> restore_pblist s
    end in
  start ← start;
  page ← find_page fuel (memory_of s) start compare;
  found ← search fuel (memory_of s) page compare 0 (PBES_PER_PAGE / 2) PBES_PER_PAGE;
  match found with
  | Some a => Some (LastFound (Some orig_page) (Some page), Some (virt_to_pfn a))
  | None => Some (LastFound (Some orig_page) (last_low_page c), None)
  end.

(** ** The restore *)

(** [core_restore_code]: follow the list, copying each page to its original
    place. *)
Fixpoint core_restore_code (fuel : nat) (rdx : option ptr) (m : memory) : option memory :=
  match rdx with
  | None => Some m
  | Some q =>
      match fuel, m (ptr_page q) with
      | S fuel', Pbes l =>
          b ← l !! ptr_index q;
          core_restore_code fuel' (pbe_next b) (<[virt_to_pfn (orig_address b) := m (virt_to_pfn (address b))]> m)
      | _, _ => None
      end
  end.
End Loading.
