(* ===== verification/PbesFacts.v ===== *)
(** * Facts about copying and restoring pageset 1

    The atomic copy puts the contents of the n-th frame of pageset 1 into the
    n-th frame of the copy map.  The load addresses give every frame of
    pageset 1 that cannot be loaded in place a frame of its own outside
    pageset 1, with the pbes also outside; the search finds that frame. *)

From S2P Require Import Prelude States BitmapSet Pbes.
From stdpp Require Import numbers base list gmap functions sorting.
#[local] Open Scope Z_scope.
#[local] Open Scope step_scope.
#[local] Arguments Z.mul : simpl never.
#[local] Arguments Z.add : simpl never.
#[local] Arguments Nat.div : simpl never.
#[local] Arguments Nat.modulo : simpl never.
#[local] Arguments PBES_PER_PAGE : simpl never.

(** ** The atomic copy *)

Lemma copy_words_spec n orig copy :
  length orig = length copy -> (8 * n <= length orig)%nat ->
  copy_words n orig copy = take (8 * n) orig ++ drop (8 * n) copy.
Proof.
  revert copy. induction n as [|n IH]; intros copy Hl Hn; [done|]. cbn [copy_words].
  set (copy' := take (8 * n) copy ++ _). assert (length copy' = length copy) as Hl'.
  { unfold copy'. rewrite !length_app, !length_take, !length_drop. lia. }
  rewrite IH by lia. unfold copy'. rewrite drop_app_length' by (rewrite length_take; lia).
  replace (8 * S n)%nat with (8 * n + 8)%nat by lia. rewrite <- (take_take_drop orig), <- app_assoc. done.
Qed.

Lemma copy_words_all orig copy :
  length orig = Z.to_nat PAGE_SIZE -> length copy = Z.to_nat PAGE_SIZE -> copy_words words_per_page orig copy = orig.
Proof.
  intros H1 H2. rewrite copy_words_spec by (rewrite ?H1, ?H2; unfold words_per_page, PAGE_SIZE; lia).
  assert (8 * words_per_page = Z.to_nat PAGE_SIZE)%nat as -> by (unfold words_per_page, PAGE_SIZE; lia).
  rewrite take_ge, drop_ge by lia. apply app_nil_r.
Qed.

Lemma copy_frames_spec i sources dests m :
  (i <= length sources)%nat -> (i <= length dests)%nat -> NoDup dests ->
  (forall p, p ∈ sources -> p ∉ dests) -> (forall p, length (m p) = Z.to_nat PAGE_SIZE) ->
  exists m', copy_frames i sources dests m = Some m' /\
    (forall k p q, (k < i)%nat -> sources !! k = Some p -> dests !! k = Some q -> m' q = m p) /\
    (forall q, q ∉ dests -> m' q = m q).
Proof.
  revert sources dests m. induction i as [|i IH]; intros [|s sources] [|d dests] m Hs Hd Hn Hdis Hlen;
    cbn [copy_frames length] in *; try lia.
  1-4: by (eexists; split_and!; [done|intros; lia|done]).
  apply NoDup_cons in Hn as [Hnd Hn]. rewrite copy_words_all by done.
  assert (s <> d) by (intros ->; apply (Hdis d); left).
  destruct (IH sources dests (<[d := m s]> m)) as (m' & E & Hk & Ho); [lia|lia|done|set_solver| |].
  { intros p. destruct (decide (p = d)) as [->|]; [by rewrite fn_lookup_insert|by rewrite fn_lookup_insert_ne]. }
  exists m'. split_and!; [done| |].
  - intros [|k] p q Hlt Hp Hq; simpl in *.
    + injection Hp as <-. injection Hq as <-. rewrite Ho by done. apply fn_lookup_insert.
    + rewrite (Hk k p q) by (done || lia). apply fn_lookup_insert_ne. intros <-.
      apply (Hdis d); [by apply list_elem_of_further, list_elem_of_lookup_2 with k|left].
  - intros q Hq. rewrite Ho by set_solver. apply fn_lookup_insert_ne. set_solver.
Qed.

(** ** The array of pbes *)

Section Layout.
Context (raw : list Z -> list pbe).
Context (blank : Prop).     (* the first page was blank when it was taken *)

Abbreviation N := PBES_PER_PAGE.

(** The [k]-th pbe of a chain of pages, and what it holds. *)
Definition page_of (pages : list Z) (k : nat) : Z := nth (k / N) pages 0.
Definition slot (pages : list Z) (k : nat) : ptr := Ptr (page_of pages k) (k mod N).
Definition entry (m : memory) (pages : list Z) (k : nat) : option pbe := pbe_at raw m (page_of pages k) (k mod N).

Lemma pbe_at_as m p i : pbe_at raw m p i = as_pbes raw (m p) !! i.
Proof. unfold pbe_at, as_pbes. by destruct (m p). Qed.

(** The first pbes of the pages hold the pairs of [l], chained; those after
    them are blank, in the first page only if it was blank before. *)
Record laid_out (m : memory) (pages : list Z) (l : list (Z * Z)) : Prop := {
  lo_room : (length l <= N * length pages)%nat;
  lo_nodup : NoDup pages;
  lo_size : forall p, p ∈ pages -> length (as_pbes raw (m p)) = N;
  lo_kind : forall k, (k < length l)%nat -> exists bs, m (page_of pages k) = Pbes bs;
  lo_entries : forall k o c, l !! k = Some (o, c) -> entry m pages k =
    Some (Pbe (page_address c) (page_address o) (if (S k <? length l)%nat then Some (slot pages (S k)) else None));
  lo_blank : forall k, (length l <= k < N * length pages)%nat -> blank \/ (N <= k)%nat -> entry m pages k = Some null_pbe
}.

Lemma N_pos : (0 < N)%nat.
Proof. unfold N. lia. Qed.

Lemma page_of_in pages k : (k < N * length pages)%nat -> page_of pages k ∈ pages.
Proof.
  intros Hk. unfold page_of. apply list_elem_of_In, nth_In. apply Nat.Div0.div_lt_upper_bound. lia.
Qed.

Lemma same_slot pages k k' :
  NoDup pages -> (k < N * length pages)%nat -> (k' < N * length pages)%nat ->
  page_of pages k = page_of pages k' -> (k mod N = k' mod N)%nat -> k = k'.
Proof.
  intros Hn Hk Hk' Hp Hm. assert (k / N = k' / N)%nat as Hd.
  { apply NoDup_ListNoDup in Hn. eapply NoDup_nth in Hp; [done|done|..]; apply Nat.Div0.div_lt_upper_bound; lia. }
  rewrite (Nat.div_mod_eq k N), (Nat.div_mod_eq k' N), Hd, Hm. done.
Qed.

Lemma entry_write s m pages k k' f :
  m = memory_of s -> NoDup pages -> (k < N * length pages)%nat -> (k' < N * length pages)%nat ->
  entry (memory_of (write_pbe raw (slot pages k) f s)) pages k' =
  if decide (k = k') then f <$> entry m pages k' else entry m pages k'.
Proof.
  intros -> Hn Hk Hk'. unfold entry. rewrite !pbe_at_as. unfold write_pbe, set_memory. simpl.
  destruct (decide (page_of pages k = page_of pages k')) as [Hp|Hp].
  - rewrite Hp, fn_lookup_insert. simpl. case_decide as E.
    + subst k'. by rewrite list_lookup_alter_eq.
    + rewrite list_lookup_alter_ne; [done|]. intros Hm. by apply E, (same_slot pages).
  - rewrite fn_lookup_insert_ne by done. case_decide; [congruence|done].
Qed.

Lemma write_other s q f p :
  p <> ptr_page q -> memory_of (write_pbe raw q f s) p = memory_of s p.
Proof. intros Hp. unfold write_pbe, set_memory. simpl. by rewrite fn_lookup_insert_ne. Qed.

Lemma write_size s q f p :
  length (as_pbes raw (memory_of (write_pbe raw q f s) p)) = length (as_pbes raw (memory_of s p)).
Proof.
  destruct (decide (p = ptr_page q)) as [->|Hp]; [|by rewrite write_other].
  unfold write_pbe, set_memory. simpl. rewrite fn_lookup_insert. simpl. apply length_alter.
Qed.

Lemma write_kind s q f p :
  (exists bs, memory_of s p = Pbes bs) \/ p = ptr_page q -> exists bs, memory_of (write_pbe raw q f s) p = Pbes bs.
Proof.
  intros Hp. destruct (decide (p = ptr_page q)) as [->|Hne].
  - unfold write_pbe, set_memory. simpl. rewrite fn_lookup_insert. eauto.
  - rewrite write_other by done. destruct Hp as [|]; [done|congruence].
Qed.

(** Only the pages of the array matter. *)
Lemma laid_out_ext m m' pages l :
  (forall p, p ∈ pages -> m' p = m p) -> laid_out m pages l -> laid_out m' pages l.
Proof.
  intros Ha [Hr Hn Hs Hk He Hb].
  assert (forall k, (k < N * length pages)%nat -> m' (page_of pages k) = m (page_of pages k)) as Hpg
    by (intros k Hlt; by apply Ha, page_of_in).
  assert (forall k, (k < N * length pages)%nat -> entry m' pages k = entry m pages k) as Hen.
  { intros k Hlt. unfold entry, pbe_at. by rewrite Hpg. }
  split; auto.
  - intros p Hp. rewrite Ha; auto.
  - intros k Hlt. rewrite Hpg by lia. auto.
  - intros k o c Hk'. pose proof (lookup_lt_Some _ _ _ Hk'). rewrite Hen by lia. eauto.
  - intros k Hk1 Hk2. rewrite Hen by lia. auto.
Qed.

(** What the loader knows while it builds the array. *)
Definition built (s : loader) (pages : list Z) (l : list (Z * Z)) : Prop :=
  laid_out (memory_of s) pages l /\ length pages = S (length l / N) /\
  this_low_pbe s = slot pages (length l) /\
  last_low_pbe_ptr s = (if decide (l = []) then None else Some (slot pages (length l - 1))) /\
  restore_pblist s = (if decide (l = []) then None else Some (slot pages 0)).

Lemma built_room s pages l : built s pages l -> (length l < N * length pages)%nat.
Proof.
  intros (_ & -> & _). pose proof (Nat.mod_upper_bound (length l) N). pose proof (Nat.div_mod_eq (length l) N).
  pose proof N_pos. lia.
Qed.

(** The array after the new pbe is written, and after it is linked. *)
Lemma filled_new s pages l o c :
  built s pages l ->
  let m := memory_of (write_pbe raw (slot pages (length l)) (fun _ => Pbe (page_address c) (page_address o) None) s) in
  forall k, (k < N * length pages)%nat -> entry m pages k =
    if decide (k = length l) then Some (Pbe (page_address c) (page_address o) None) else entry (memory_of s) pages k.
Proof.
  intros Hb m k Hk. pose proof (built_room _ _ _ Hb). destruct Hb as ([_ Hn Hs _ _ _] & _).
  unfold m. rewrite (entry_write s (memory_of s)) by done.
  destruct (decide (length l = k)) as [<-|]; [|by rewrite decide_False].
  rewrite decide_True by done. unfold entry. rewrite pbe_at_as.
  destruct (lookup_lt_is_Some_2 (as_pbes raw (memory_of s (page_of pages (length l)))) (length l mod N)) as [b ->]; [|done].
  rewrite Hs by (by apply page_of_in). apply Nat.mod_upper_bound. pose proof N_pos. lia.
Qed.

Lemma fill_memory s pages l o c :
  built s pages l ->
  let m := memory_of (fill_pbe raw (page_address o) (page_address c) s) in
  forall k, (k < N * length pages)%nat -> entry m pages k =
    if decide (k = length l) then Some (Pbe (page_address c) (page_address o) None)
    else if decide (S k = length l) then (fun b => b {{ pbe_next := Some (slot pages (length l)) }}) <$> entry (memory_of s) pages k
    else entry (memory_of s) pages k.
Proof.
  intros Hb m k Hk. pose proof (built_room _ _ _ Hb) as Hroom. pose proof (filled_new s pages l o c Hb k Hk) as Hnew.
  cbn zeta in Hnew. pose proof Hb as (Hlo & _ & Hthis & Hlast & _). unfold m, fill_pbe, link. cbn zeta. rewrite Hthis.
  set (s1 := write_pbe raw (slot pages (length l)) _ s) in *.
  change (last_low_pbe_ptr s1) with (last_low_pbe_ptr s). rewrite Hlast. destruct (decide (l = [])) as [->|Hl].
  - change (memory_of (?x {{ restore_pblist := ?y; last_low_pbe_ptr := ?z }})) with (memory_of x).
    rewrite Hnew. simpl. repeat case_decide; done || lia.
  - assert (0 < length l)%nat by (destruct l; [done|simpl; lia]).
    change (memory_of (?x {{ last_low_pbe_ptr := ?y }})) with (memory_of x).
    rewrite (entry_write s1 (memory_of s1)) by (done || apply Hlo || lia). rewrite Hnew.
    repeat case_decide; try lia; done.
Qed.

(** Both writes of [fill_pbe] are to pages of the array. *)
Lemma fill_writes s pages l o c (P : loader -> Prop) :
  built s pages l ->
  P (write_pbe raw (slot pages (length l)) (fun _ => Pbe (page_address c) (page_address o) None) s) ->
  (forall s k f, (k <= length l)%nat -> P s -> P (write_pbe raw (slot pages k) f s)) ->
  (forall s r, P s -> P (s {{ restore_pblist := r }})) ->
  (forall s q, P s -> P (s {{ last_low_pbe_ptr := q }})) ->
  P (fill_pbe raw (page_address o) (page_address c) s).
Proof.
  intros (_ & _ & Hthis & Hlast & _) H0 Hw Hr Hq. unfold fill_pbe, link. cbn zeta. rewrite Hthis. apply Hq.
  match goal with |- context [match ?x with _ => _ end] => change x with (last_low_pbe_ptr s) end.
  rewrite Hlast. destruct (decide (l = [])); [by apply Hr|apply Hw; [lia|done]].
Qed.

Lemma fill_laid_out s pages l o c :
  built s pages l ->
  let s' := fill_pbe raw (page_address o) (page_address c) s in
  laid_out (memory_of s') pages (l ++ [(o, c)]) /\
  last_low_pbe_ptr s' = Some (slot pages (length l)) /\ restore_pblist s' = Some (slot pages 0).
Proof.
  intros Hb s'. pose proof (built_room _ _ _ Hb) as Hroom. pose proof (fill_memory s pages l o c Hb) as Hm.
  cbn zeta in Hm. fold s' in Hm. pose proof Hb as (Hlo & _ & Hthis & Hlast & Hhead). destruct Hlo as [_ Hn Hs Hk He Hbl].
  split; [split|split].
  - rewrite length_app. cbn [length]. lia.
  - done.
  - intros p Hp. apply (fill_writes s pages l o c (fun s => length (as_pbes raw (memory_of s p)) = N) Hb); auto.
    + rewrite write_size. auto.
    + intros s0 k f _ <-. apply write_size.
  - intros k Hlt. rewrite length_app in Hlt. cbn [length] in Hlt.
    apply (fill_writes s pages l o c (fun s => exists bs, memory_of s (page_of pages k) = Pbes bs) Hb); auto.
    + apply write_kind. destruct (decide (k = length l)) as [->|]; [by right|left; apply Hk; lia].
    + intros. apply write_kind. by left.
  - intros k o' c' Hl. pose proof (lookup_lt_Some _ _ _ Hl) as Hlt. rewrite length_app in *. cbn [length] in *.
    rewrite Hm by lia. destruct (decide (k = length l)) as [->|].
    + rewrite lookup_app_r, Nat.sub_diag in Hl by lia. injection Hl as <- <-.
      by rewrite (proj2 (Nat.ltb_ge _ _)) by lia.
    + rewrite lookup_app_l in Hl by lia. rewrite (He _ _ _ Hl).
      rewrite (proj2 (Nat.ltb_lt _ (length l + 1))) by lia. destruct (decide (S k = length l)) as [Hc|]; [by rewrite Hc|].
      by rewrite (proj2 (Nat.ltb_lt _ _)) by lia.
  - intros k Hr Hk1. rewrite length_app in Hr. cbn [length] in Hr. rewrite Hm by lia.
    rewrite !decide_False by lia. apply Hbl; [lia|done].
  - unfold s', fill_pbe. simpl. by rewrite Hthis.
  - unfold s', fill_pbe, link. cbn zeta. rewrite Hthis.
    match goal with |- context [match ?x with _ => _ end] => change x with (last_low_pbe_ptr s) end.
    rewrite Hlast. destruct (decide (l = [])) as [->|]; [done|exact Hhead].
Qed.

(** Moving on to the next pbe, in the same page or in a blank one. *)
Lemma next_in_page pages n :
  (0 < n)%nat -> length pages = S ((n - 1) / N) -> (n mod N <> 0)%nat ->
  length pages = S (n / N) /\ slot pages n = Ptr (page_of pages (n - 1)) (S ((n - 1) mod N)).
Proof.
  intros Hn Hp Hm. pose proof N_pos. assert ((n - 1) / N = n / N /\ (n - 1) mod N = n mod N - 1)%nat as [Hd Hr].
  { pose proof (Nat.div_mod_eq n N). pose proof (Nat.mod_upper_bound n N).
    split; symmetry; [apply (Nat.div_unique _ _ _ (n mod N - 1))|apply (Nat.mod_unique _ _ (n / N))]; lia. }
  rewrite Hd in Hp. split; [done|]. unfold slot, page_of. rewrite Hd, Hr. f_equal. lia.
Qed.

Lemma next_page pages n p :
  (0 < n)%nat -> length pages = S ((n - 1) / N) -> (n mod N = 0)%nat ->
  length (pages ++ [p]) = S (n / N) /\ slot (pages ++ [p]) n = Ptr p 0 /\ (n = N * length pages)%nat.
Proof.
  intros Hn Hp Hm. pose proof N_pos. pose proof (Nat.div_mod_eq n N).
  assert (0 < n / N)%nat by (set (q := (n / N)%nat) in *; destruct q; lia).
  assert ((n - 1) / N = n / N - 1)%nat as Hd by (symmetry; apply (Nat.div_unique _ _ _ (N - 1)); nia).
  rewrite length_app. cbn [length]. split_and!; [lia| |nia].
  unfold slot, page_of. rewrite Hm. f_equal. rewrite app_nth2 by lia. by replace (n / N - length pages)%nat with 0%nat by lia.
Qed.

Lemma page_of_app pages p k : (k < N * length pages)%nat -> page_of (pages ++ [p]) k = page_of pages k.
Proof. intros Hk. unfold page_of. apply app_nth1. apply Nat.Div0.div_lt_upper_bound. lia. Qed.

Lemma page_of_last pages p k :
  (N * length pages <= k < N * length (pages ++ [p]))%nat -> page_of (pages ++ [p]) k = p.
Proof.
  intros Hk. rewrite length_app in Hk. cbn [length] in Hk. unfold page_of.
  assert (k / N = length pages)%nat as -> by (symmetry; apply (Nat.div_unique _ _ _ (k - N * length pages)); lia).
  rewrite app_nth2, Nat.sub_diag by lia. done.
Qed.

Lemma laid_out_grow m pages l p :
  laid_out m pages l -> p ∉ pages -> length l = (N * length pages)%nat ->
  laid_out (<[p := Pbes (replicate N null_pbe)]> m) (pages ++ [p]) l.
Proof.
  intros [Hr Hn Hs Hk He Hb] Hp Hl. pose proof N_pos.
  assert (forall k, (k < N * length pages)%nat -> <[p := Pbes (replicate N null_pbe)]> m (page_of (pages ++ [p]) k) = m (page_of pages k)) as Hold.
  { intros k Hlt. rewrite page_of_app by done. apply fn_lookup_insert_ne. intros ->. by apply Hp, page_of_in. }
  split.
  - rewrite length_app. cbn [length]. lia.
  - apply NoDup_app. split_and!; [done|set_solver|apply NoDup_singleton].
  - intros q [Hq| ->%list_elem_of_singleton]%elem_of_app.
    + rewrite fn_lookup_insert_ne by (intros ->; done). auto.
    + rewrite fn_lookup_insert. apply length_replicate.
  - intros k Hlt. rewrite Hold by lia. auto.
  - intros k o c Hk'. pose proof (lookup_lt_Some _ _ _ Hk'). unfold entry, pbe_at. rewrite Hold by lia.
    change (entry m pages k = Some (Pbe (page_address c) (page_address o)
      (if (S k <? length l)%nat then Some (slot (pages ++ [p]) (S k)) else None))).
    rewrite (He _ _ _ Hk'). destruct (Nat.ltb_spec (S k) (length l)); [|done].
    unfold slot. by rewrite page_of_app by lia.
  - intros k Hlt Hk1. unfold entry, pbe_at. rewrite page_of_last by lia. rewrite fn_lookup_insert.
    apply lookup_replicate_2, Nat.mod_upper_bound. lia.
Qed.
End Layout.

(** ** Pages *)

Lemma NoDup_part {A} (l l' : list A) : NoDup l' -> l ⊆+ l' -> NoDup l.
Proof. intros Hn [k Hk]%submseteq_Permutation. rewrite Hk in Hn. by apply NoDup_app in Hn as [? _]. Qed.

Section Facts.
Context `{PagePool}.
Context (ps1 : gset Z) (no_direct : bool) (raw : list Z -> list pbe) (blank : Prop).

Abbreviation N := PBES_PER_PAGE.

(** Frames outside pageset 1, of which the loader can use. *)
Definition outside (l : list Z) : list Z := filter (fun p => p ∉ ps1) l.

(** The frames the loader can still get. *)
Definition frames (s : loader) : list Z := pool s ++ first_conflicting_page s ++ default [] (ptoi_pfns s).

(** The fields in which only the allocation of pages differs. *)
Definition same_but_pages (s s' : loader) : Prop :=
  s' = s {{ pool := pool s'; first_conflicting_page := first_conflicting_page s'; ptoi_pfns := ptoi_pfns s' }}.

Lemma alt_page_spec l :
  let '(found, rest) := alt_page ps1 l in
  match found with Some p => (p ∉ ps1) /\ p :: default [] rest ⊆+ l | None => rest = None end.
Proof.
  induction l as [|p l IH]; cbn [alt_page]; [done|]. case_decide as Hp.
  - destruct (alt_page ps1 l) as [[q|] rest]; [|done]. destruct IH as [? IH]. split; [done|]. by constructor.
  - split; [done|]. done.
Qed.

Lemma fresh_page_spec l conf :
  let '(found, l', conf') := fresh_page ps1 l conf in
  match found with
  | Some p => (p ∉ ps1) /\ p :: l' ++ conf' ≡ₚ l ++ conf /\ length (outside l) = S (length (outside l'))
  | None => l' = [] /\ conf' ≡ₚ l ++ conf /\ outside l = []
  end.
Proof.
  revert conf. induction l as [|p l IH]; intros conf; cbn [fresh_page]; [done|]. unfold outside.
  rewrite filter_cons. fold (outside l). case_decide as Hp.
  - rewrite decide_False by (intros ?; done). specialize (IH (p :: conf)).
    destruct (fresh_page ps1 l (p :: conf)) as [[[q|] l'] conf']; destruct IH as (? & Hperm & ?);
      (split_and!; [done| |done]); rewrite Hperm; symmetry; apply Permutation_middle.
  - by rewrite decide_True.
Qed.

Lemma nonconflicting_spec s :
  exists s' r, toi_get_nonconflicting_page ps1 s = Some (s', r) /\ same_but_pages s s' /\
    match r with
    | Some p => (p ∉ ps1) /\ p :: frames s' ⊆+ frames s /\
        (length (outside (pool s)) <= S (length (outside (pool s'))))%nat
    | None => outside (pool s) = []
    end.
Proof.
  unfold toi_get_nonconflicting_page, frames.
  assert (exists found rest, (match ptoi_pfns s with Some l => alt_page ps1 l | None => (None, None) end) = (found, rest) /\
    match found with Some p => (p ∉ ps1) /\ p :: default [] rest ⊆+ default [] (ptoi_pfns s) | None => rest = None end)
    as (found & rest & -> & Hf).
  { destruct (ptoi_pfns s) as [l|]; [|by eexists _, _]. pose proof (alt_page_spec l) as Ha.
    destruct (alt_page ps1 l) as [found rest]. by eexists _, _. }
  destruct found as [p|].
  - destruct Hf as [Hp Hf]. eexists _, (Some p). split_and!; [done|done|done| |simpl; lia].
    simpl. rewrite Permutation_middle, (Permutation_middle (first_conflicting_page s)). by do 2 apply submseteq_skips_l.
  - subst rest. simpl. pose proof (fresh_page_spec (pool s) (first_conflicting_page s)) as Hfr.
    destruct (fresh_page ps1 (pool s) (first_conflicting_page s)) as [[[p|] l'] conf'].
    + destruct Hfr as (Hp & Hperm & Hl). eexists _, (Some p). split_and!; [done|done|done| |simpl; lia].
      simpl. rewrite app_nil_r, Hperm, (app_assoc (pool s)). apply submseteq_inserts_r. done.
    + destruct Hfr as (-> & Hperm & Ho). by eexists _, None.
Qed.

(** ** Building the array *)

(** The array so far, with the frames in [todo] still to be looked at; every
    frame has one use. *)
Record building (s : loader) (pages : list Z) (l : list (Z * Z)) (todo : list Z) : Prop := {
  bd_built : built raw blank s pages l;
  bd_own : NoDup (frames s ++ pages ++ map snd l ++ todo);
  bd_pages : Forall (fun p => p ∉ ps1) pages;
  bd_targets : Forall (fun x => snd x ∉ ps1) l
}.

(** What the loop leaves alone. *)
Definition kept (s s' : loader) : Prop :=
  (forall p, p ∈ ps1 -> p ∈ copy_map s' <-> p ∈ copy_map s) /\
  irqs_off s' = irqs_off s /\ cpus_off s' = cpus_off s /\ dup_maps_held s' = dup_maps_held s.

Lemma maps_kept_trans s1 s2 s3 : kept s1 s2 -> kept s2 s3 -> kept s1 s3.
Proof.
  intros (H1 & H2 & H3 & H4) (G1 & G2 & G3 & G4). split_and!; try congruence.
  intros p Hp. by rewrite G1, H1.
Qed.

(** The frames that need a pbe. *)
Definition to_map (s : loader) (l : list Z) : list Z := filter (fun p => load_direct no_direct p s = false) l.

Lemma next_orig_spec s l o r :
  to_map s l = o :: r -> exists rest, next_orig no_direct l s = Some (rest, o) /\ to_map s rest = r /\ rest ⊆ l.
Proof.
  unfold to_map. induction l as [|p l IH]; cbn [next_orig]; [done|]. rewrite filter_cons.
  case_decide as Hp; [rewrite Hp|apply not_false_is_true in Hp; rewrite Hp].
  - intros [= -> <-]. exists l. split_and!; [done|done|set_solver].
  - intros (rest & ? & ? & ?)%IH. exists rest. split_and!; [done|done|set_solver].
Qed.

Lemma to_map_kept s s' l :
  (forall p, p ∈ ps1 -> p ∈ copy_map s' <-> p ∈ copy_map s) -> (forall p, p ∈ l -> p ∈ ps1) -> to_map s' l = to_map s l.
Proof.
  intros Hk Hl. unfold to_map. induction l as [|p l IH]; [done|].
  rewrite !filter_cons, IH by set_solver.
  assert (load_direct no_direct p s' = load_direct no_direct p s) as ->; [|done].
  unfold load_direct. f_equal. apply bool_decide_ext. apply Hk. set_solver.
Qed.

Lemma fill_fields s orig copy :
  exists m r, fill_pbe raw orig copy s =
    s {{ memory_of := m; restore_pblist := r; last_low_pbe_ptr := Some (this_low_pbe s) }}.
Proof.
  unfold fill_pbe, link. cbn zeta.
  match goal with |- context [match ?x with _ => _ end] => destruct x end; unfold write_pbe, set_memory; simpl; eauto.
Qed.

Lemma pbe_size_test n :
  (sizeof_pbe * Z.of_nat (n mod N) + 2 * sizeof_pbe >? PAGE_SIZE) = bool_decide (S n mod N = 0)%nat.
Proof.
  unfold sizeof_pbe, PAGE_SIZE. pose proof (Nat.mod_upper_bound n N ltac:(done)) as Hm.
  pose proof (Nat.div_mod_eq n N) as Hd. assert (N = 170%nat) as EN by done.
  destruct (decide (n mod N = 169)%nat) as [E|E].
  - rewrite bool_decide_eq_true_2; [rewrite Z.gtb_ltb; apply Z.ltb_lt; lia|].
    symmetry. apply (Nat.mod_unique _ _ (S (n / N))); lia.
  - rewrite bool_decide_eq_false_2; [rewrite Z.gtb_ltb; apply Z.ltb_ge; lia|].
    assert (S n mod N = S (n mod N))%nat as ->; [|lia].
    symmetry. apply (Nat.mod_unique _ _ (n / N)); lia.
Qed.

(** One frame becomes the load address of [o]. *)
Lemma pbe_step s pages l p todo o rest :
  building s pages l (p :: todo) -> p ∉ ps1 -> next_orig no_direct (dup_map s) s = Some (rest, o) ->
  ((S (length l) mod N = 0)%nat -> outside (pool s) <> []) ->
  exists s' pages', pbe_loop ps1 no_direct raw (p :: todo) 0 s = pbe_loop ps1 no_direct raw todo 0 s' /\
    building s' pages' (l ++ [(o, p)]) todo /\ dup_map s' = rest /\ kept s s' /\
    (length (outside (pool s)) <= length (outside (pool s')) + (S (length l) / N - length l / N))%nat.
Proof.
  intros [Hb Hown Hpg Htg] Hp Ho Hmem. cbn [pbe_loop]. rewrite decide_False by done. cbn [Z.eqb negb].
  unfold take_orig. unfold bind at 1. rewrite Ho.
  set (s0 := s {{ dup_map := rest }}).
  assert (built raw blank s0 pages l) as Hb0 by exact Hb.
  destruct (fill_laid_out raw blank s0 pages l o p Hb0) as (Hlo & Hlast & Hhead).
  destruct (fill_fields s0 (page_address o) (page_address p)) as (m & r & E).
  cbn [bind modify get ret]. rewrite E in *. clear E. simpl in Hlast, Hhead, Hlo.
  destruct Hb as (_ & Hlen & Hthis & _ & _).
  set (s1 := s0 {{ memory_of := m; restore_pblist := r; last_low_pbe_ptr := Some (this_low_pbe s0) }}) in *.
  change (this_low_pbe s1) with (this_low_pbe s). rewrite Hthis. unfold get_next_pbe. cbn [slot ptr_index ptr_page].
  rewrite pbe_size_test. set (l' := l ++ [(o, p)]) in *.
  assert (length l' = S (length l)) as Hl' by (unfold l'; rewrite length_app; cbn [length]; lia).
  assert (Forall (fun x => snd x ∉ ps1) l') as Htg' by (apply Forall_app; split; [done|by apply Forall_singleton]).
  assert (map snd l' = map snd l ++ [p]) as Hsnd by (unfold l'; by rewrite map_app).
  assert (kept s s1) as Hkept by done.
  case_bool_decide as Hm0.
  - destruct (next_page pages (length l') 0) as (_ & _ & Hfull); [lia|rewrite Hl', Nat.sub_succ, Nat.sub_0_r; done|by rewrite Hl'|].
    destruct (nonconflicting_spec s1) as (s2 & [p'|] & E & Hs & Hr); [|by destruct (Hmem Hm0)].
    destruct Hr as (Hp' & Hsub & Hcnt). unfold bind at 1. unfold bind at 1. rewrite E. cbn [bind modify ret].
    set (s' := _ {{ this_low_pbe := Ptr p' 0 }}). exists s', (pages ++ [p']).
    destruct (next_page pages (length l') p') as (Hlen' & Hslot & _); [lia|rewrite Hl', Nat.sub_succ, Nat.sub_0_r; done|by rewrite Hl'|].
    assert (memory_of s' = <[p' := Pbes (replicate N null_pbe)]> m /\ last_low_pbe_ptr s' = Some (this_low_pbe s0) /\
      restore_pblist s' = r /\ dup_map s' = rest /\ frames s' = frames s2 /\ kept s s' /\ pool s' = pool s2)
      as (Em & El & Er & Ed & Ef & Ek & Ep).
    { unfold s', frames, kept. clear -Hs. destruct s2. unfold same_but_pages in Hs. simpl in Hs. injection Hs as -> -> -> -> -> -> -> -> -> . done. }
    assert (NoDup (p' :: frames s2 ++ pages ++ map snd l ++ p :: todo)) as Hnd.
    { eapply NoDup_part; [exact Hown|]. rewrite app_comm_cons. by apply submseteq_skips_r. }
    assert (p' ∉ pages) as Hnp by (apply NoDup_cons in Hnd as [Hnd _]; set_solver).
    split; [done|]. split; [split|split_and!; [done|done|]].
    + split_and!.
      * rewrite Em. by apply laid_out_grow.
      * done.
      * by rewrite Hslot.
      * rewrite El, decide_False by (destruct l; discriminate). change (this_low_pbe s0) with (this_low_pbe s).
        rewrite Hlast, Hl', Nat.sub_succ, Nat.sub_0_r. unfold slot. by rewrite page_of_app by lia.
      * rewrite Er, Hhead, decide_False by (destruct l; discriminate). unfold slot. by rewrite page_of_app by lia.
    + rewrite Ef, Hsnd. eapply NoDup_part; [exact Hnd|]. apply Permutation_submseteq. solve_Permutation.
    + apply Forall_app. split; [done|]. by apply Forall_singleton.
    + done.
    + rewrite Ep. rewrite length_app in Hlen'. cbn [length] in Hlen'. change (pool s1) with (pool s) in Hcnt.
      rewrite <- Hl'. lia.
  - destruct (next_in_page pages (length l')) as (Hlen' & Hslot); [lia|rewrite Hl', Nat.sub_succ, Nat.sub_0_r; done|by rewrite Hl'|].
    rewrite Hl', Nat.sub_succ, Nat.sub_0_r in Hslot. cbn [bind modify ret].
    exists (s1 {{ this_low_pbe := Ptr (page_of pages (length l)) (S (length l mod N)) }}), pages.
    split; [done|]. split; [split|split_and!; [done|done|simpl; lia]].
    + split_and!; [done|done|by rewrite Hl', <- Hslot|..]; rewrite decide_False by (destruct l; discriminate).
      * simpl. by rewrite Hlast, Hl', Nat.sub_succ, Nat.sub_0_r.
      * done.
    + rewrite Hsnd. eapply NoDup_part; [exact Hown|]. apply Permutation_submseteq. 
      change (frames (s1 {{ this_low_pbe := _ }})) with (frames s). solve_Permutation.
    + done.
    + done.
Qed.

Lemma building_skip s pages l p todo : building s pages l (p :: todo) -> building s pages l todo.
Proof.
  intros [Hb Hown Hp Ht]. split; auto. eapply NoDup_part; [exact Hown|].
  do 3 apply submseteq_skips_l. by constructor.
Qed.

(** A frame that is not needed goes back. *)
Definition give_back (p : Z) (s : loader) : loader := toi_free_page p (s {{ copy_map := copy_map s ∖ {[p]} }}).

Lemma building_give_back s pages l p todo :
  building s pages l (p :: todo) -> p ∉ ps1 ->
  building (give_back p s) pages l todo /\ kept s (give_back p s) /\
  length (outside (pool (give_back p s))) = S (length (outside (pool s))).
Proof.
  intros [Hb Hown Hpg Htg] Hp. split; [split; auto|split].
  - eapply NoDup_part; [exact Hown|]. apply Permutation_submseteq. unfold frames. simpl. rewrite release_perm.
    solve_Permutation.
  - split; [|done]. intros q Hq. simpl. set_solver.
  - simpl. unfold outside. rewrite release_perm, filter_cons, decide_True by done. done.
Qed.

Lemma pbe_loop_spec todo f s pages l :
  building s pages l todo -> (forall p, p ∈ dup_map s -> p ∈ ps1) -> 0 <= f < 2 ^ 31 ->
  Z.of_nat (length (outside todo)) = f + Z.of_nat (length (to_map s (dup_map s))) ->
  ((length l + length (to_map s (dup_map s))) / N <= length l / N + length (outside (pool s)) + Z.to_nat f)%nat ->
  exists s' pages' l2, pbe_loop ps1 no_direct raw todo f s = Some (s', false) /\
    building s' pages' (l ++ l2) [] /\ map fst l2 = to_map s (dup_map s) /\ kept s s' /\
    (length l / N + length (outside (pool s)) + Z.to_nat f <=
     length (outside (pool s')) + (length l + length (to_map s (dup_map s))) / N)%nat.
Proof.
  revert f s pages l. induction todo as [|p todo IH]; intros f s pages l Hb Hd Hf Hn Hpg.
  { exists s, pages, []. simpl in Hn. rewrite app_nil_r.
    destruct (to_map s (dup_map s)); [|simpl in Hn; lia]. split_and!; [done|done|done|done|].
    simpl in Hn. rewrite Nat.add_0_r. lia. }
  unfold outside in Hn. rewrite filter_cons in Hn. fold (outside todo) in Hn.
  destruct (decide (p ∈ ps1)) as [Hp|Hp].
  { rewrite decide_False in Hn by auto. cbn [pbe_loop]. rewrite decide_True by done.
    eapply IH; [by eapply building_skip|done..]. }
  rewrite decide_True in Hn by done. cbn [length] in Hn. destruct (Z.eqb_spec f 0) as [->|Hf0].
  - destruct (to_map s (dup_map s)) as [|o r] eqn:Em; [simpl in Hn; lia|]. cbn [length] in *.
    destruct (next_orig_spec s (dup_map s) o r Em) as (rest & Ho & Hrest & Hincl).
    assert (S (length l) / N <= (length l + S (length r)) / N)%nat by (apply Nat.Div0.div_le_mono; lia).
    destruct (pbe_step s pages l p todo o rest Hb Hp Ho) as (s1 & pages1 & -> & Hb1 & Hd1 & Hk1 & Hc1).
    { intros Hm0 He. rewrite He in Hpg. simpl in Hpg.
      pose proof (Nat.div_mod_eq (S (length l)) N). pose proof (Nat.div_mod_eq (length l) N).
      pose proof (Nat.mod_upper_bound (length l) N ltac:(done)). nia. }
    assert (to_map s1 (dup_map s1) = r) as Em1 by (rewrite Hd1, (to_map_kept s s1), Hrest by (apply Hk1 || set_solver); done).
    destruct (IH 0 s1 pages1 (l ++ [(o, p)])) as (s' & pages' & l2 & -> & Hb' & Hm' & Hk' & Hc'); rewrite ?Em1; auto.
    + rewrite Hd1. set_solver.
    + lia.
    + rewrite length_app. cbn [length]. replace (length l + 1 + length r)%nat with (length l + S (length r))%nat by lia.
      replace (length l + 1)%nat with (S (length l)) by lia.
      assert (length l / N <= S (length l) / N)%nat by (apply Nat.Div0.div_le_mono; lia). lia.
    + exists s', pages', ((o, p) :: l2). rewrite <- app_assoc in Hb'. rewrite Em1 in Hm'. split_and!; [done|done| | |].
      * simpl. by rewrite Hm'.
      * by eapply maps_kept_trans.
      * rewrite Em1, length_app in Hc'. cbn [length] in Hc'.
        replace (length l + 1 + length r)%nat with (length l + S (length r))%nat in Hc' by lia.
        replace (length l + 1)%nat with (S (length l)) in Hc' by lia.
        assert (length l / N <= S (length l) / N)%nat by (apply Nat.Div0.div_le_mono; lia). lia.
  - destruct (building_give_back s pages l p todo Hb Hp) as (Hb1 & Hk1 & Hc1).
    cbn [pbe_loop]. rewrite decide_False by done. rewrite (proj2 (Z.eqb_neq f 0)) by done. cbn [negb bind modify].
    fold (give_back p s). rewrite s32_small by lia.
    assert (to_map (give_back p s) (dup_map (give_back p s)) = to_map s (dup_map s)) as Em by (apply to_map_kept; [apply Hk1|done]).
    destruct (IH (f - 1) (give_back p s) pages l) as (s' & pages' & l2 & -> & Hb' & Hm' & Hk' & Hc'); rewrite ?Em; auto; try lia.
    exists s', pages', l2. rewrite Em in Hm', Hc'. split_and!; [done|done|done|by eapply maps_kept_trans|lia].
Qed.

(** ** Counting *)

Definition inside (l : list Z) : list Z := filter (fun p => p ∈ ps1) l.

Lemma length_filter_split {A} (P : A -> Prop) `{!forall x, Decision (P x)} (l : list A) :
  length l = (length (filter P l) + length (filter (fun x => ~ P x) l))%nat.
Proof.
  induction l as [|x l IH]; [done|]. rewrite !filter_cons. cbn [length]. rewrite IH.
  destruct (decide (P x)); [rewrite decide_False by auto|rewrite decide_True by auto]; cbn [length]; lia.
Qed.

Lemma filter_walk_swap (a b : gset Z) :
  length (filter (fun p => p ∈ b) (walk a)) = length (filter (fun p => p ∈ a) (walk b)).
Proof.
  apply Permutation_length, NoDup_Permutation.
  1,2: apply list.NoDup_filter, walk_NoDup.
  intros p. rewrite !list_elem_of_filter, !elem_of_walk. tauto.
Qed.

Lemma walk_perm (a : gset Z) l : NoDup l -> (forall p, p ∈ a <-> p ∈ l) -> walk a ≡ₚ l.
Proof. intros Hn Ha. apply NoDup_Permutation; [apply walk_NoDup|done|]. intros p. by rewrite elem_of_walk. Qed.

Lemma take_all_spec l s :
  pool s = l ->
  exists c, take_all l s = s {{ pool := []; copy_map := c }} /\ forall q, q ∈ c <-> q ∈ l \/ q ∈ copy_map s.
Proof.
  revert s. induction l as [|p l IH]; intros s Hp; cbn [take_all].
  - exists (copy_map s). split; [|set_solver]. destruct s. simpl in *. by subst.
  - destruct (IH (s {{ pool := l; copy_map := {[p]} ∪ copy_map s }})) as (c & -> & Hc); [done|].
    exists c. split; [done|]. intros q. rewrite Hc. simpl. set_solver.
Qed.

(** After the count: the frames kept, those given back, and the numbers. *)
Lemma count_pages_spec pfns c s :
  exists c' s' back, count_pages ps1 no_direct pfns c s = (c', s') /\
    lowallocd c' = lowallocd c + Z.of_nat (length (outside pfns)) /\
    low_direct c' = low_direct c + (if no_direct then 0 else Z.of_nat (length (inside pfns))) /\
    s' = s {{ pool := pool s'; copy_map := copy_map s ∖ list_to_set back }} /\
    pool s' ≡ₚ back ++ pool s /\ back = (if no_direct then inside pfns else []).
Proof.
  revert c s. induction pfns as [|p pfns IH]; intros c s; cbn [count_pages].
  - exists c, s, []. split_and!; [done|simpl; lia|destruct no_direct; simpl; lia| |done|by destruct no_direct].
    destruct s. simpl. f_equal. set_solver.
  - unfold outside, inside. rewrite !filter_cons. fold (outside pfns) (inside pfns).
    destruct (decide (p ∈ ps1)) as [Hp|Hp].
    + rewrite (decide_False (P := p ∉ ps1)) by auto. destruct no_direct.
      * destruct (IH c (toi_free_page p (s {{ copy_map := copy_map s ∖ {[p]} }}))) as (c' & s' & back & -> & H1 & H2 & H3 & H4 & ->).
        exists c', s', (p :: inside pfns). split_and!; [done|done|done| | |done].
        -- rewrite H3 at 1. unfold toi_free_page. destruct s. simpl. f_equal. set_solver.
        -- rewrite H4. simpl. rewrite release_perm. solve_Permutation.
      * destruct (IH (c {{ low_direct := low_direct c + 1 }}) s) as (c' & s' & back & -> & H1 & H2 & H3 & H4 & ->).
        exists c', s', []. split_and!; [done|done| |done..]. simpl in H2. cbn [length]. lia.
    + rewrite (decide_True (P := p ∉ ps1)) by auto.
      destruct (IH (c {{ lowallocd := lowallocd c + 1 }}) s) as (c' & s' & back & -> & H1 & H2 & H3 & H4 & Hb).
      exists c', s', back. split_and!; [done| |done..]. simpl in H1. cbn [length]. lia.
Qed.

Lemma free_conflicting_spec s :
  exists pool', free_conflicting_pages s = s {{ pool := pool'; first_conflicting_page := [] }} /\
    pool' ≡ₚ pool s ++ first_conflicting_page s.
Proof.
  unfold free_conflicting_pages. remember (first_conflicting_page s) as l eqn:E. revert s E.
  induction l as [|p l IH]; intros s E; cbn [foldl].
  - exists (pool s). rewrite app_nil_r. split; [|done]. destruct s. simpl in *. by subst.
  - set (s1 := toi_free_page p _). destruct (IH s1) as (pool' & -> & Hp); [unfold s1; simpl; by rewrite <- E|].
    exists pool'. split; [done|]. rewrite Hp. simpl. rewrite release_perm. apply Permutation_middle.
Qed.

(** Memory suffices: outside pageset 1 there is a free page for each page of
    pageset 1, for their pbes, and one more. *)
Record can_load (s : loader) : Prop := {
  cl_frames : NoDup (frames s);
  cl_copy : copy_map s = ∅;
  cl_list : restore_pblist s = None;
  cl_pages : forall p, length (as_pbes raw (memory_of s p)) = N;
  cl_blank : blank -> forall p, as_pbes raw (memory_of s p) = replicate N null_pbe;
  cl_small : Z.of_nat (length (frames s)) < 2 ^ 31;
  cl_room : (size ps1 + size ps1 / N + 1 <= length (outside (pool s)))%nat
}.

(** The frames that need a pbe, and the numbers of the loop. *)
Lemma to_map_length s pfns back :
  copy_map s = list_to_set pfns ∖ list_to_set back -> NoDup pfns -> back = (if no_direct then inside pfns else []) ->
  length (to_map s (walk ps1)) = (size ps1 - (if no_direct then 0 else length (inside pfns)))%nat /\
  ((if no_direct then 0 else length (inside pfns)) <= size ps1)%nat.
Proof.
  intros Hc Hn ->. rewrite <- length_walk. unfold to_map, load_direct. destruct no_direct; cbn [negb andb].
  - rewrite Nat.sub_0_r. split; [|lia]. f_equal. clear. induction (walk ps1) as [|x l IH]; [done|].
    rewrite filter_cons_True by done. by f_equal.
  - rewrite (length_filter_split (fun p => p ∈ copy_map s) (walk ps1)).
    rewrite filter_walk_swap. assert (walk (copy_map s) ≡ₚ pfns) as Hw.
    { apply walk_perm; [done|]. intros p. rewrite Hc. set_solver. }
    unfold inside. rewrite Hw.
    assert (forall l, filter (fun p => bool_decide (p ∈ copy_map s) = false) l = filter (fun p => p ∉ copy_map s) l) as ->.
    { intros l. apply list_filter_iff. intros p. apply bool_decide_eq_false. }
    lia.
Qed.

(** Counting splits the frames taken into those given back and those kept. *)
Lemma counted_split (c0 : gset Z) back :
  back = (if no_direct then inside (walk c0) else []) ->
  back ++ walk (c0 ∖ list_to_set back) ≡ₚ walk c0 /\
  length (outside (walk (c0 ∖ list_to_set back))) = length (outside (walk c0)).
Proof.
  intros Hb. assert (NoDup back /\ (forall p, p ∈ back -> p ∈ c0 /\ p ∈ ps1)) as [Hn Hin].
  { subst back. destruct no_direct; [|split; [constructor|set_solver]]. unfold inside. split.
    - apply list.NoDup_filter, walk_NoDup.
    - intros p. rewrite list_elem_of_filter, elem_of_walk. tauto. }
  assert (back ++ walk (c0 ∖ list_to_set back) ≡ₚ walk c0) as Hp.
  { apply NoDup_Permutation; [apply NoDup_app; split_and!; [done| |apply walk_NoDup]|apply walk_NoDup|].
    - intros p Hp. rewrite elem_of_walk. set_solver.
    - intros p. rewrite elem_of_app, !elem_of_walk, elem_of_difference, elem_of_list_to_set.
      destruct (decide (p ∈ back)) as [Hi|]; [destruct (Hin p Hi)|]; tauto. }
  split; [done|]. unfold outside. rewrite <- Hp, filter_app, length_app.
  assert (filter (fun p => p ∉ ps1) back = []) as ->; [|done].
  clear -Hin. induction back as [|x back IH]; [done|]. rewrite filter_cons_False by (intros Hx; apply Hx, Hin; left).
  apply IH. set_solver.
Qed.

(** The state when the loop over the frames begins. *)
Lemma load_begin s :
  can_load s ->
  exists s2 p c, building s2 [p] [] (walk (copy_map s2)) /\ dup_map s2 = walk ps1 /\
    (forall n, toi_get_pageset1_load_addresses ps1 no_direct raw n s =
      (failed <-- pbe_loop ps1 no_direct raw (walk (copy_map s2)) (s32 (lowallocd c - s32 (s32 n - low_direct c)));;
       if failed : bool then ret (- ENOMEM) else modify free_conflicting_pages;;; leave 0) s2) /\
    lowallocd c = Z.of_nat (length (outside (walk (copy_map s2)))) /\
    low_direct c = Z.of_nat (size ps1 - length (to_map s2 (walk ps1))) /\
    (length (outside (pool s)) <= S (length (outside (walk (copy_map s2)))))%nat /\
    Z.of_nat (length (outside (walk (copy_map s2)))) < 2 ^ 31.
Proof.
  intros [Hf Hc Hl Hpg Hbk Hsm Hroom]. unfold toi_get_pageset1_load_addresses. unfold bind at 1. cbn [modify].
  set (s0 := s {{ cpus_off := _; irqs_off := _; dup_maps_held := _; dup_map := _; last_low_pbe_ptr := _ }}).
  destruct (nonconflicting_spec s0) as (s1 & r & E & Hs & Hr). change (pool s0) with (pool s) in Hr.
  destruct r as [p|]; [|rewrite Hr in Hroom; simpl in Hroom; lia]. destruct Hr as (Hp & Hsub & Hcnt).
  change (frames s0) with (frames s) in Hsub.
  assert (copy_map s1 = ∅ /\ restore_pblist s1 = None /\ last_low_pbe_ptr s1 = None /\ dup_map s1 = walk ps1 /\ memory_of s1 = memory_of s)
    as (Hc1 & Hl1 & Hla1 & Hd1 & Hm1).
  { clear -Hs Hc Hl. unfold same_but_pages in Hs. destruct s1. simpl in Hs. injection Hs as -> -> -> -> -> -> -> -> ->. done. }
  assert (NoDup (p :: frames s1)) as Hn1 by (by eapply NoDup_part).
  destruct (take_all_spec (pool s1) (s1 {{ this_low_pbe := Ptr p 0 }})) as (c0 & Et & Hc0); [done|].
  set (s1' := s1 {{ this_low_pbe := Ptr p 0 }} {{ pool := []; copy_map := c0 }}) in *.
  destruct (count_pages_spec (walk c0) (Counts 0 0) s1') as (c & s2 & back & Ec & Ha & Hd & Es2 & Hp2 & Hb).
  destruct (counted_split c0 back Hb) as [Hperm Hout].
  assert (walk c0 ≡ₚ pool s1) as Hw.
  { apply walk_perm; [by apply NoDup_cons in Hn1 as [_ (? & _)%NoDup_app]|].
    intros q. rewrite Hc0. simpl. rewrite Hc1. set_solver. }
  assert (copy_map s2 = c0 ∖ list_to_set back /\ this_low_pbe s2 = Ptr p 0 /\ restore_pblist s2 = None /\
    last_low_pbe_ptr s2 = None /\ dup_map s2 = walk ps1 /\ memory_of s2 = memory_of s /\
    frames s2 = pool s2 ++ first_conflicting_page s1 ++ default [] (ptoi_pfns s1))
    as (Gc & Gt & Gr & Gl & Gd & Gm & Gf).
  { clear -Es2 Hc1 Hl1 Hla1 Hd1 Hm1. destruct s2. simpl in Es2. unfold frames. injection Es2 as -> -> -> -> -> -> -> -> -> ->. simpl. by split_and!. }
  assert (length (to_map s2 (walk ps1)) = (size ps1 - (if no_direct then 0 else length (inside (walk c0))))%nat /\
    ((if no_direct then 0 else length (inside (walk c0))) <= size ps1)%nat) as [Hlen Hle].
  { apply (to_map_length s2 (walk c0) back); [|apply walk_NoDup|done]. rewrite Gc. f_equal.
    apply leibniz_equiv. intros q. by rewrite elem_of_list_to_set, elem_of_walk. }
  assert (length (outside (walk c0)) = length (outside (pool s1))) as Ho by (unfold outside; by rewrite Hw).
  exists s2, p, c. rewrite Gc, Hout. split_and!.
  - split.
    + split_and!; [|done|done|done|done]. split; cbn [length].
      * lia.
      * apply NoDup_singleton.
      * intros q _. rewrite Gm. apply Hpg.
      * intros k Hk. lia.
      * intros k o' c' Hk. by rewrite lookup_nil in Hk.
      * intros k Hk [Hk'|Hk']; [|lia]. unfold entry. rewrite pbe_at_as, Gm, (Hbk Hk').
        apply lookup_replicate_2, Nat.mod_upper_bound. done.
    + rewrite Gf, Hp2. simpl. rewrite app_nil_r. eapply NoDup_part; [exact Hn1|]. apply Permutation_submseteq.
      unfold frames. rewrite <- Hw, <- Hperm. solve_Permutation.
    + by apply Forall_singleton.
    + constructor.
  - done.
  - intros n. unfold bind at 1. rewrite E. cbn [bind modify get].
    change (pool (s1 {{ this_low_pbe := Ptr p 0 }})) with (pool s1). rewrite Et. fold s1'. change (copy_map s1') with c0.
    rewrite Ec, Gc. done.
  - simpl in Ha. lia.
  - rewrite Hlen, Hd. simpl. destruct no_direct; lia.
  - lia.
  - rewrite Ho. assert (length (outside (pool s1)) <= length (pool s1))%nat by apply length_filter.
    apply submseteq_length in Hsub. cbn [length] in Hsub. unfold frames in Hsub at 1. rewrite !length_app in Hsub. lia.
Qed.

Lemma load_addresses_ok s :
  can_load s ->
  exists s' pages l, toi_get_pageset1_load_addresses ps1 no_direct raw (Z.of_nat (size ps1)) s = Some (s', 0) /\
    building s' pages l [] /\ map fst l = to_map s' (walk ps1) /\
    irqs_off s' = false /\ cpus_off s' = false /\ dup_maps_held s' = false /\
    (length (outside (pool s)) <= length (outside (pool s')) + (size ps1 + size ps1 / N + 1))%nat.
Proof.
  intros Hcan. pose proof (cl_room _ Hcan). destruct (load_begin s Hcan) as (s2 & p & c & Hb & Hd & -> & Ha & Hlow & Hroom & Hsm).
  set (pfns := walk (copy_map s2)) in *.
  assert (length (to_map s2 (walk ps1)) <= size ps1)%nat as Hle.
  { rewrite <- length_walk. apply length_filter. }
  rewrite (s32_small (Z.of_nat (size ps1))), Hlow, (s32_small (Z.of_nat (size ps1) - _)), s32_small by lia.
  destruct (pbe_loop_spec pfns (lowallocd c - (Z.of_nat (size ps1) - Z.of_nat (size ps1 - length (to_map s2 (walk ps1)))))
    s2 [p] []) as (s3 & pages & l & E & Hb3 & Hfst & Hk & Hcnt); rewrite ?Hd; auto; try lia.
  { intros q. by rewrite elem_of_walk. }
  { cbn [length Nat.add]. assert (length (to_map s2 (walk ps1)) / N <= size ps1 / N)%nat by (by apply Nat.Div0.div_le_mono). lia. }
  rewrite Hd in Hfst. unfold bind at 1. rewrite E. simpl in Hb3. unfold leave. cbn [bind modify ret].
  destruct (free_conflicting_spec s3) as (pool' & -> & Hp).
  eexists _, pages, l. split; [done|]. split; [|split_and!; [|done..|]].
  - destruct Hb3 as [G1 G2 G3 G4]. split; auto. eapply NoDup_part; [exact G2|]. apply Permutation_submseteq.
    unfold frames. simpl. rewrite Hp. solve_Permutation.
  - rewrite Hfst. symmetry. apply to_map_kept; [apply Hk|]. intros q. by rewrite elem_of_walk.
  - simpl. unfold outside at 2. rewrite Hp, filter_app, length_app. fold (outside (pool s3)).
    rewrite Hd in Hcnt. cbn [length Nat.add] in Hcnt.
    assert (length (to_map s2 (walk ps1)) / N <= size ps1 / N)%nat by (by apply Nat.Div0.div_le_mono). lia.
Qed.

End Facts.

(** ** A small machine: pageset 1 is three frames, one of which is free *)

Module SmallLoad.
#[global] Instance lifo : PagePool := {| release := cons; release_perm := fun p l => Permutation_refl _ |}.

Definition ps1 : gset Z := {[ 3; 5; 12 ]}.
Definition raw (_ : list Z) : list pbe := replicate PBES_PER_PAGE null_pbe.
Definition start : loader :=
  Loader [20; 12; 21; 22; 23; 24; 25] [] ∅ None (fun _ => Data []) None None (Ptr 0 0) [] false false false.

Lemma can_start : can_load ps1 raw True start.
Proof.
  split; try done.
  - by apply (bool_decide_unpack _).
  - vm_compute. lia.
Qed.
End SmallLoad.

