(* ===== verification/PbeRestore.v ===== *)
(** * Finding the load addresses, and the restore

    The search over the pages of pbes finds exactly the pair the table
    holds, whatever page it remembers from the last search; and following
    the list of pbes after the image has been loaded puts every page of
    pageset 1 back. *)

From S2P Require Import Prelude States BitmapSet Pbes PbesFacts.
From stdpp Require Import numbers base list gmap functions sorting.
#[local] Open Scope Z_scope.
#[local] Arguments Z.mul : simpl never.
#[local] Arguments Z.add : simpl never.
#[local] Arguments Nat.div : simpl never.
#[local] Arguments Nat.modulo : simpl never.
#[local] Arguments PBES_PER_PAGE : simpl never.

Lemma virt_to_page_address p : virt_to_pfn (page_address p) = p.
Proof.
  unfold virt_to_pfn, page_address, PAGE_SIZE. replace (PAGE_OFFSET + p * 4096 - PAGE_OFFSET) with (p * 4096) by lia.
  by apply Z.div_mul.
Qed.

Lemma page_address_lt p q : page_address p < page_address q <-> p < q.
Proof. unfold page_address, PAGE_SIZE. lia. Qed.

Lemma page_address_pos p : 0 <= p -> 0 < page_address p.
Proof. unfold page_address, PAGE_SIZE, PAGE_OFFSET. lia. Qed.

Lemma sorted_lookup (l : list (Z * Z)) k k' o o' c c' :
  StronglySorted Z.lt (map fst l) ->
  l !! k = Some (o, c) -> l !! k' = Some (o', c') -> (k < k')%nat -> o < o'.
Proof.
  revert k k'. induction l as [|x l IH]; intros k k' Hs Hk Hk' Hlt; [done|].
  simpl in Hs. apply StronglySorted_inv in Hs as [Hs Hf]. destruct k' as [|k'], k as [|k]; simpl in *; try lia.
  - injection Hk as ->. eapply Forall_forall in Hf; [exact Hf|]. apply list_elem_of_In, in_map_iff.
    exists (o', c'). split; [done|]. by apply list_elem_of_In, list_elem_of_lookup_2 with k'.
  - apply (IH k k' Hs Hk Hk'). lia.
Qed.

Section Search.
Context (raw : list Z -> list pbe) (blank : Prop) (m : memory) (pages : list Z) (l : list (Z * Z)).
Context (Hlo : laid_out raw blank m pages l).
Context (Hsorted : StronglySorted Z.lt (map fst l)) (Hpos : Forall (fun x => 0 <= fst x) l).
Context (Htail : forall k, (length l <= k < PBES_PER_PAGE * length pages)%nat -> entry raw m pages k = Some null_pbe).

Abbreviation N := PBES_PER_PAGE.

(** A pbe of the array, relative to the one of [o]. *)
Lemma entry_compare k o c i :
  l !! k = Some (o, c) -> (i < N * length pages)%nat ->
  exists b, entry raw m pages i = Some b /\
    ((i < k)%nat -> 0 < orig_address b < page_address o) /\
    (i = k -> b = Pbe (page_address c) (page_address o) (if (S k <? length l)%nat then Some (slot pages (S k)) else None)) /\
    ((k < i)%nat -> b = null_pbe \/ page_address o < orig_address b).
Proof using Hlo Hsorted Hpos Htail.
  intros Hk Hi. pose proof (lookup_lt_Some _ _ _ Hk) as Hlt.
  destruct (decide (i < length l)%nat) as [Hil|Hil].
  - destruct (lookup_lt_is_Some_2 l i Hil) as [[o' c'] Hi']. rewrite (lo_entries _ _ _ _ _ Hlo _ _ _ Hi').
    eexists. split_and!; [done|..]; simpl.
    + intros Hik. pose proof (sorted_lookup _ _ _ _ _ _ _ Hsorted Hi' Hk Hik). rewrite page_address_lt.
      split; [|done]. apply page_address_pos. by apply (Forall_lookup_1 _ _ _ _ Hpos) in Hi'.
    + intros ->. by simplify_eq.
    + intros Hik. right. rewrite page_address_lt. by eapply (sorted_lookup l).
  - rewrite Htail by lia. exists null_pbe. split_and!; [done|lia|lia|]. by left.
Qed.

Lemma nth_page j i : (i < N)%nat -> page_of pages (N * j + i) = nth j pages 0 /\ ((N * j + i) mod N = i)%nat.
Proof.
  intros Hi. unfold page_of. split.
  - f_equal. symmetry. apply (Nat.div_unique _ _ _ i); lia.
  - symmetry. apply (Nat.mod_unique _ _ j); lia.
Qed.

Lemma pbe_at_nth j i : (i < N)%nat -> pbe_at raw m (nth j pages 0) i = entry raw m pages (N * j + i).
Proof. intros Hi. unfold entry. by destruct (nth_page j i Hi) as [-> ->]. Qed.

Lemma search_found fuel k o c min max :
  l !! k = Some (o, c) -> (min <= k mod N < max)%nat -> (max <= N)%nat -> (max - min <= fuel)%nat ->
  search raw fuel m (page_of pages k) (page_address o) min ((max + min) / 2) max = Some (Some (page_address c)).
Proof using Hlo Hsorted Hpos Htail.
  intros Hk. pose proof (lookup_lt_Some _ _ _ Hk) as Hlt. pose proof (lo_room _ _ _ _ _ Hlo) as Hroom.
  revert min max. induction fuel as [|fuel IH]; intros min max Hr Hmax Hf; [lia|]. cbn [search].
  destruct (Nat.eqb_spec (max - min) 0); [lia|].
  set (index := ((max + min) / 2)%nat).
  assert (min <= index < max)%nat as Hix.
  { unfold index. pose proof (Nat.div_mod_eq (max + min) 2). pose proof (Nat.mod_upper_bound (max + min) 2). lia. }
  assert (min < index \/ max = S min)%nat as Hprog.
  { unfold index in *. pose proof (Nat.div_mod_eq (max + min) 2). pose proof (Nat.mod_upper_bound (max + min) 2). lia. }
  pose proof (Nat.div_mod_eq k N) as Hd. change (page_of pages k) with (nth (k / N) pages 0).
  rewrite pbe_at_nth by lia.
  assert (k / N < length pages)%nat by (apply Nat.Div0.div_lt_upper_bound; lia).
  destruct (entry_compare k o c (N * (k / N) + index) Hk) as (b & -> & Hlow & Heq & Hhigh); [nia|]. cbn [mbind option_bind].
  destruct (lt_eq_lt_dec index (k mod N)) as [[Hc|Hc]|Hc].
  - destruct Hlow as [H0 H1]; [lia|]. rewrite (proj2 (Z.eqb_neq _ 0)), Z.gtb_ltb, (proj2 (Z.ltb_ge _ _)) by lia. cbn [orb].
    rewrite (proj2 (Z.eqb_neq _ _)) by lia. change (nth (k / N) pages 0) with (page_of pages k). apply IH; lia.
  - rewrite Heq by lia. cbn [orig_address address]. rewrite (proj2 (Z.eqb_neq _ 0)), Z.gtb_ltb, Z.ltb_irrefl, Z.eqb_refl; [done|].
    apply (Forall_lookup_1 _ _ _ _ Hpos) in Hk. pose proof (page_address_pos o Hk). lia.
  - assert ((orig_address b =? 0) || (orig_address b >? page_address o) = true) as ->.
    { destruct Hhigh as [->|Hh]; [lia|done|]. rewrite Z.gtb_ltb, (proj2 (Z.ltb_lt _ _) Hh). apply orb_true_r. }
    change (nth (k / N) pages 0) with (page_of pages k). apply IH; lia.
Qed.

Lemma find_page_found fuel k o c j :
  l !! k = Some (o, c) -> (j <= k / N)%nat -> (k / N - j < fuel)%nat ->
  find_page raw fuel m (nth j pages 0) (page_address o) = Some (page_of pages k).
Proof using Hlo Hsorted Hpos Htail.
  intros Hk. pose proof (lookup_lt_Some _ _ _ Hk) as Hlt. pose proof (lo_room _ _ _ _ _ Hlo) as Hroom.
  pose proof (Nat.div_mod_eq k N) as Hd. pose proof (Nat.mod_upper_bound k N ltac:(done)) as Hm.
  assert (k / N < length pages)%nat by (apply Nat.Div0.div_lt_upper_bound; lia).
  revert j. induction fuel as [|fuel IH]; intros j Hj Hf; [lia|]. cbn [find_page].
  rewrite pbe_at_nth by lia.
  destruct (entry_compare k o c (N * j + (N - 1)) Hk) as (b & Hb & Hlow & Heq & Hhigh); [nia|]. rewrite Hb. cbn [mbind option_bind].
  destruct (decide (j = k / N)%nat) as [->|Hne].
  - destruct (pbe_next b) as [q|] eqn:Eq; [|done]. rewrite (proj2 (Z.ltb_ge _ _)); [done|].
    destruct (decide (N * (k / N) + (N - 1) = k)%nat) as [Hk'|Hk'].
    + rewrite (Heq Hk'). done.
    + destruct Hhigh as [->|?]; [lia|done|lia].
  - pose proof N_pos. assert (N * S j <= N * (k / N))%nat as Hjk by (apply Nat.mul_le_mono_l; lia).
    rewrite Nat.mul_succ_r in Hjk.
    destruct Hlow as [_ Hlow]; [lia|]. destruct (lookup_lt_is_Some_2 l (N * j + (N - 1))) as [[o' c'] Hi']; [lia|].
    rewrite (lo_entries _ _ _ _ _ Hlo _ _ _ Hi') in Hb. apply (inj Some) in Hb. subst b. cbn [pbe_next orig_address] in *.
    assert (S (N * j + (N - 1)) < length l)%nat as Hnext by lia. rewrite (proj2 (Nat.ltb_lt _ _) Hnext).
    rewrite (proj2 (Z.ltb_lt _ _) Hlow).
    replace (S (N * j + (N - 1))) with (N * S j + 0)%nat by (rewrite Nat.mul_succ_r; lia).
    unfold slot. cbn [ptr_page]. rewrite (proj1 (nth_page (S j) 0 N_pos)). apply IH; lia.
Qed.

(** What the search remembers is the page of an entry. *)
Definition cache_ok (c : last_found) : Prop :=
  match last_sought c, last_low_page c with
  | Some q, Some p => exists k cp, l !! k = Some (q, cp) /\ p = page_of pages k
  | _, _ => True
  end.

Lemma copy_page_found fuel k o cp c s :
  memory_of s = m -> restore_pblist s = Some (slot pages 0) -> cache_ok c ->
  l !! k = Some (o, cp) -> (N <= fuel)%nat -> (length pages <= fuel)%nat ->
  exists c', copy_page_from_orig_page raw fuel o c s = Some (c', Some cp) /\ cache_ok c'.
Proof using Hlo Hsorted Hpos Htail.
  intros Hm Hr Hc Hk Hf1 Hf2. pose proof (lookup_lt_Some _ _ _ Hk) as Hlt. pose proof (lo_room _ _ _ _ _ Hlo) as Hroom.
  assert (k / N < length pages)%nat by (apply Nat.Div0.div_lt_upper_bound; lia).
  unfold copy_page_from_orig_page. rewrite Hr, Hm. cbn [fmap option_fmap option_map].
  assert (exists j, (j <= k / N)%nat /\
    match last_sought c, last_low_page c with
    | Some q, Some p => if q <? o then Some p else Some (ptr_page (slot pages 0))
    | _, _ => Some (ptr_page (slot pages 0)) end = Some (nth j pages 0)) as (j & Hj & ->).
  { assert (exists j, (j <= k / N)%nat /\ Some (ptr_page (slot pages 0)) = Some (nth j pages 0)) as H0.
    { exists 0%nat. split; [lia|]. unfold slot, page_of. cbn [ptr_page]. do 2 f_equal. }
    unfold cache_ok in Hc. destruct (last_sought c) as [q|], (last_low_page c) as [p|]; try exact H0.
    destruct (Z.ltb_spec q o) as [Hq|]; [|exact H0]. destruct Hc as (k' & cp' & Hk' & ->).
    exists (k' / N)%nat. split; [|done]. apply Nat.Div0.div_le_mono.
    destruct (le_lt_dec k' k) as [|Hgt]; [done|]. pose proof (sorted_lookup _ _ _ _ _ _ _ Hsorted Hk Hk' Hgt). lia. }
  cbn [mbind option_bind]. rewrite (find_page_found fuel k o cp) by (done || lia). cbn [mbind option_bind].
  change (N / 2)%nat with ((N + 0) / 2)%nat. rewrite (search_found fuel k o cp); [|done| |done|lia].
  - cbn [mbind option_bind]. rewrite virt_to_page_address. eexists. split; [done|]. exists k, cp. done.
  - pose proof (Nat.mod_upper_bound k N ltac:(done)). lia.
Qed.

(** ** A frame that is not in the table *)

(** A pbe with the address of a frame is that frame's. *)
Lemma entry_of_orig k o b :
  (k < N * length pages)%nat -> entry raw m pages k = Some b -> orig_address b = page_address o -> 0 <= o ->
  exists c, l !! k = Some (o, c) /\ address b = page_address c.
Proof using Hlo Htail.
  intros Hk Hb Ho Hpo. destruct (decide (k < length l)%nat) as [Hkl|Hkl].
  - destruct (lookup_lt_is_Some_2 l k Hkl) as [[o' c] Hl]. rewrite (lo_entries _ _ _ _ _ Hlo _ _ _ Hl) in Hb.
    apply (inj Some) in Hb. subst b. cbn [orig_address address] in *.
    assert (o' = o) as -> by (unfold page_address, PAGE_SIZE in Ho; lia). eauto.
  - rewrite Htail in Hb by lia. apply (inj Some) in Hb. subst b. simpl in Ho. pose proof (page_address_pos o Hpo). lia.
Qed.

Lemma find_page_in fuel j compare p :
  (j < length pages)%nat -> find_page raw fuel m (nth j pages 0) compare = Some p ->
  exists j', (j' < length pages)%nat /\ p = nth j' pages 0.
Proof using Hlo Htail.
  pose proof (lo_room _ _ _ _ _ Hlo) as Hroom. pose proof N_pos.
  revert j. induction fuel as [|fuel IH]; intros j Hj; [done|]. cbn [find_page]. rewrite pbe_at_nth by lia.
  destruct (entry raw m pages (N * j + (N - 1))) as [b|] eqn:Eb; [|done]. cbn [mbind option_bind].
  destruct (pbe_next b) as [q|] eqn:Eq; [|intros [= <-]; eauto].
  destruct (orig_address b <? compare); [|intros [= <-]; eauto].
  assert (N * j + (N - 1) < length l)%nat as Hlt.
  { destruct (decide (N * j + (N - 1) < length l)%nat); [done|]. rewrite Htail in Eb by nia. simplify_eq. }
  destruct (lookup_lt_is_Some_2 l _ Hlt) as [[o' c'] Hi']. rewrite (lo_entries _ _ _ _ _ Hlo _ _ _ Hi') in Eb.
  apply (inj Some) in Eb. subst b. cbn [pbe_next] in Eq.
  destruct (Nat.ltb_spec (S (N * j + (N - 1))) (length l)) as [Hlt'|]; [|done]. apply (inj Some) in Eq. subst q.
  assert (S (N * j + (N - 1)) = N * S j + 0)%nat as E by (rewrite Nat.mul_succ_r; lia).
  unfold slot. rewrite E. cbn [ptr_page]. rewrite (proj1 (nth_page (S j) 0 N_pos)). apply IH. nia.
Qed.

Lemma search_sound fuel j o min index max a :
  (j < length pages)%nat -> 0 <= o -> (index < max)%nat -> (max <= N)%nat -> (min <= index)%nat ->
  search raw fuel m (nth j pages 0) (page_address o) min index max = Some (Some a) ->
  exists c, (o, c) ∈ l /\ a = page_address c.
Proof using Hlo Htail.
  intros Hj Ho. revert min index max. induction fuel as [|fuel IH]; intros min index max Hi Hm Hmi; cbn [search].
  { by destruct (max - min =? 0)%nat. }
  destruct (Nat.eqb_spec (max - min) 0); [done|]. rewrite pbe_at_nth by lia.
  destruct (entry raw m pages (N * j + index)) as [b|] eqn:Eb; [|done]. cbn [mbind option_bind].
  pose proof (Nat.div_mod_eq (index + min) 2). pose proof (Nat.mod_upper_bound (index + min) 2 ltac:(lia)).
  pose proof (Nat.div_mod_eq (max + index) 2). pose proof (Nat.mod_upper_bound (max + index) 2 ltac:(lia)).
  destruct (_ || _).
  - destruct (decide (min < index)%nat); [apply IH; lia|]. replace index with min by lia.
    destruct fuel; cbn [search]; rewrite Nat.sub_diag; cbn; intros; discriminate.
  - destruct (Z.eqb_spec (orig_address b) (page_address o)) as [E|E].
    + intros [= <-]. destruct (entry_of_orig (N * j + index) o b) as (c & Hc & ->); [nia|done..|].
      exists c. split; [by eapply list_elem_of_lookup_2|done].
    + apply IH; lia.
Qed.

(** Below the frame sought there is a pbe, but none is the frame's: the
    lower end of the range stays below, and the range never gets empty. *)
Lemma search_absent fuel j o min max b :
  (j < length pages)%nat -> 0 <= o -> (forall c, (o, c) ∉ l) -> (min < max)%nat -> (max <= N)%nat ->
  entry raw m pages (N * j + min) = Some b -> orig_address b <> 0 -> orig_address b < page_address o ->
  search raw fuel m (nth j pages 0) (page_address o) min ((max + min) / 2) max = None.
Proof using Hlo Htail.
  intros Hj Ho Habs. revert min max b. induction fuel as [|fuel IH]; intros min max b Hmm Hm Hb Hnz Hlow; cbn [search].
  all: destruct (Nat.eqb_spec (max - min) 0); [lia|].
  { done. }
  pose proof (Nat.div_mod_eq (max + min) 2). pose proof (Nat.mod_upper_bound (max + min) 2 ltac:(lia)).
  set (index := ((max + min) / 2)%nat) in *. rewrite pbe_at_nth by lia.
  destruct (entry raw m pages (N * j + index)) as [b'|] eqn:Eb; [|done]. cbn [mbind option_bind].
  destruct (Z.eqb_spec (orig_address b') 0), (Z.gtb_spec (orig_address b') (page_address o)); cbn [orb].
  1-3: assert (index <> min) by (intros E; rewrite E in Eb; simplify_eq; lia); eapply (IH min index b); eauto; lia.
  destruct (Z.eqb_spec (orig_address b') (page_address o)) as [E|E].
  - destruct (entry_of_orig (N * j + index) o b') as (c & Hc & _); [nia|done..|]. destruct (Habs c).
    by eapply list_elem_of_lookup_2.
  - eapply IH; eauto; lia.
Qed.
End Search.

(** C25: [copy_page_from_orig_page], which starts at the page of pbes it last
    used and does a binary search in a page, finds what the table says.  For a
    frame in the table it returns the frame's load address, whatever the
    search remembers, within as many steps as a page has pbes and the chain
    pages; what it then remembers is right again.  For a frame that is not in
    the table it never returns an address; and when the table is one page
    and its first frame is below the one sought, it does not return at all. *)
Theorem pbe_search_exact (raw : list Z -> list pbe) (blank : Prop) (pages : list Z) (l : list (Z * Z)) (s : loader)
    (o : Z) (c0 : last_found)
    (Hlo : laid_out raw blank (memory_of s) pages l) (Hsorted : StronglySorted Z.lt (map fst l))
    (Hpos : Forall (fun x => 0 <= fst x) l)
    (Htail : forall k, (length l <= k < PBES_PER_PAGE * length pages)%nat -> entry raw (memory_of s) pages k = Some null_pbe)
    (Hhead : restore_pblist s = Some (slot pages 0)) (Hc0 : cache_ok pages l c0) (Ho : 0 <= o) (Hne : l <> []) :
  (forall c fuel, (o, c) ∈ l -> (PBES_PER_PAGE <= fuel)%nat -> (length pages <= fuel)%nat ->
     exists c1, copy_page_from_orig_page raw fuel o c0 s = Some (c1, Some c) /\ cache_ok pages l c1) /\
  (forall fuel c1 c, copy_page_from_orig_page raw fuel o c0 s = Some (c1, Some c) -> (o, c) ∈ l) /\
  ((forall c, (o, c) ∉ l) -> length pages = 1%nat -> (exists o' c', l !! 0%nat = Some (o', c') /\ o' < o) ->
     forall fuel, copy_page_from_orig_page raw fuel o c0 s = None).
Proof.
  pose proof (lo_room _ _ _ _ _ Hlo) as Hroom.
  assert (0 < length l)%nat as Hl0 by (destruct l; [done|simpl; lia]).
  assert (0 < length pages)%nat as Hp0 by (destruct pages; [rewrite Nat.mul_0_r in Hroom; lia|simpl; lia]).
  (* where the search starts *)
  assert (exists j, (j < length pages)%nat /\
    match last_sought c0, last_low_page c0 with
    | Some q, Some p => if q <? o then Some p else Some (ptr_page (slot pages 0))
    | _, _ => Some (ptr_page (slot pages 0)) end = Some (nth j pages 0)) as (j & Hj & Hstart).
  { assert (Some (ptr_page (slot pages 0)) = Some (nth 0 pages 0)) as H0 by done.
    unfold cache_ok in Hc0. destruct (last_sought c0) as [q|], (last_low_page c0) as [p|]; try (exists 0%nat; done).
    destruct (q <? o); [|exists 0%nat; done]. destruct Hc0 as (k & cp & Hk & ->). apply lookup_lt_Some in Hk.
    exists (k / PBES_PER_PAGE)%nat. split; [|done]. apply Nat.Div0.div_lt_upper_bound. lia. }
  split_and!.
  - intros c fuel [k Hk]%list_elem_of_lookup Hf1 Hf2. by eapply copy_page_found.
  - intros fuel c1 c. unfold copy_page_from_orig_page. rewrite Hhead. cbn [fmap option_fmap option_map]. rewrite Hstart.
    cbn [mbind option_bind]. destruct (find_page raw fuel (memory_of s) (nth j pages 0) (page_address o)) as [p|] eqn:Ef; [|done].
    eapply find_page_in in Ef as (j' & Hj' & ->); eauto. cbn [mbind option_bind].
    destruct (search _ _ _ _ _ _ _ _) as [[a|]|] eqn:Es; [|done|done]. cbn [mbind option_bind].
    eapply search_sound in Es as (c' & Hc' & ->); eauto; [|vm_compute; lia..].
    rewrite virt_to_page_address. by intros [= _ <-].
  - intros Habs Hone (o' & c' & Hfirst & Hlt) fuel. assert (j = 0)%nat as -> by lia.
    unfold copy_page_from_orig_page. rewrite Hhead. cbn [fmap option_fmap option_map]. rewrite Hstart.
    cbn [mbind option_bind]. destruct (find_page raw fuel (memory_of s) (nth 0 pages 0) (page_address o)) as [p|] eqn:Ef; [|done].
    eapply find_page_in in Ef as (j' & Hj' & ->); eauto. assert (j' = 0)%nat as -> by lia. cbn [mbind option_bind].
    pose proof (lo_entries _ _ _ _ _ Hlo _ _ _ Hfirst) as He.
    change (PBES_PER_PAGE / 2)%nat with ((PBES_PER_PAGE + 0) / 2)%nat.
    erewrite search_absent; [done|exact Hlo|exact Htail|done|done|done|unfold PBES_PER_PAGE; lia|done|
      rewrite Nat.mul_0_r; exact He|..]; cbn [orig_address].
    + pose proof (proj1 (Forall_forall _ _) Hpos _ (list_elem_of_lookup_2 _ _ _ Hfirst)) as Hp. simpl in Hp.
      pose proof (page_address_pos o' Hp). lia.
    + by apply page_address_lt.
Qed.

(** A table of two frames. *)
Module SmallTable.
Definition raw (_ : list Z) : list pbe := [].
Definition pages : list Z := [100].
Definition pairs : list (Z * Z) := [(3, 7); (5, 9)].
Definition page_100 : list pbe :=
  [Pbe (page_address 7) (page_address 3) (Some (Ptr 100 1)); Pbe (page_address 9) (page_address 5) None] ++
  replicate 168 null_pbe.
Definition table : loader :=
  Loader [] [] ∅ None (fun p => if p =? 100 then Pbes page_100 else Data []) (Some (Ptr 100 0)) None (Ptr 100 2) []
    false false false.

Lemma blank_entry k : (2 <= k < PBES_PER_PAGE * 1)%nat -> entry raw (memory_of table) pages k = Some null_pbe.
Proof.
  intros Hk. unfold entry, page_of. rewrite Nat.mul_1_r in Hk. rewrite Nat.div_small, Nat.mod_small by lia.
  destruct k as [|[|k]]; [lia..|]. change (pbe_at raw (memory_of table) 100 (S (S k))) with (replicate 168 null_pbe !! k).
  apply lookup_replicate_2. unfold PBES_PER_PAGE in Hk. lia.
Qed.

Lemma laid : laid_out raw False (memory_of table) pages pairs.
Proof.
  split.
  - simpl. unfold PBES_PER_PAGE. lia.
  - apply NoDup_singleton.
  - intros p ->%list_elem_of_singleton. reflexivity.
  - intros [|[|k]] Hk; simpl in Hk; [eexists; reflexivity..|lia].
  - intros [|[|[|k]]] o c Hk; simpl in Hk; simplify_eq; reflexivity.
  - intros k Hk _. by apply blank_entry.
Qed.
End SmallTable.

Lemma pbe_search_exact_witness :
  (exists c1, copy_page_from_orig_page SmallTable.raw 170 5 (LastFound (Some 3) (Some 100)) SmallTable.table = Some (c1, Some 9)) /\
  forall fuel, copy_page_from_orig_page SmallTable.raw fuel 4 (LastFound None None) SmallTable.table = None.
Proof.
  assert (StronglySorted Z.lt (map fst SmallTable.pairs)) as Hs by (repeat constructor).
  assert (Forall (fun x => 0 <= fst x) SmallTable.pairs) as Hp by (repeat constructor; simpl; lia).
  split.
  - destruct (pbe_search_exact SmallTable.raw False SmallTable.pages SmallTable.pairs SmallTable.table 5
      (LastFound (Some 3) (Some 100)) SmallTable.laid Hs Hp SmallTable.blank_entry eq_refl) as (H1 & _).
    + exists 0%nat, 7. split; reflexivity.
    + lia.
    + discriminate.
    + destruct (H1 9 170%nat) as (c1 & E & _); [right; left|apply le_n|simpl; lia|]. exists c1. exact E.
  - destruct (pbe_search_exact SmallTable.raw False SmallTable.pages SmallTable.pairs SmallTable.table 4
      (LastFound None None) SmallTable.laid Hs Hp SmallTable.blank_entry eq_refl) as (_ & _ & H3).
    + exact I.
    + lia.
    + discriminate.
    + apply H3; [|reflexivity|exists 3, 7; split; [reflexivity|lia]].
      intros c Hc. apply list_elem_of_In in Hc as [E|[E|[]]]; discriminate.
Defined.

(** ** Following the list *)

Section Restore.
Context (raw : list Z -> list pbe) (blank : Prop) (m0 : memory) (pages : list Z) (l : list (Z * Z)).
Context (Hlo : laid_out raw blank m0 pages l).
Context (Horig : forall o c, (o, c) ∈ l -> (o ∉ pages) /\ o ∉ map snd l).

(** No later pbe has the frame. *)
Definition last_for (i : nat) (o : Z) : Prop := forall j c, (i < j)%nat -> l !! j <> Some (o, c).

Lemma in_fst k o c : l !! k = Some (o, c) -> o ∈ map fst l /\ c ∈ map snd l.
Proof.
  intros Hk%list_elem_of_lookup_2%list_elem_of_In. split; apply list_elem_of_In, in_map_iff; by exists (o, c).
Qed.

Lemma core_restore_from n k fuel m :
  length l = (k + n)%nat -> (n <= fuel)%nat ->
  (forall p, p ∈ pages -> m p = m0 p) -> (forall c, c ∈ map snd l -> m c = m0 c) ->
  exists m', core_restore_code fuel (if (k <? length l)%nat then Some (slot pages k) else None) m = Some m' /\
    (forall i o c, (k <= i)%nat -> l !! i = Some (o, c) -> last_for i o -> m' o = m0 c) /\
    (forall q, q ∉ map fst (drop k l) -> m' q = m q).
Proof using Hlo Horig.
  revert k fuel m. induction n as [|n IH]; intros k fuel m Hl Hf Hp Hc.
  - rewrite (proj2 (Nat.ltb_ge _ _)) by lia. exists m. split_and!; [by destruct fuel| |done].
    intros i o c Hi Hk%lookup_lt_Some. lia.
  - rewrite (proj2 (Nat.ltb_lt _ _)) by lia. destruct fuel as [|fuel]; [lia|].
    destruct (lookup_lt_is_Some_2 l k) as [[o c] Hk]; [lia|].
    pose proof (lo_entries _ _ _ _ _ Hlo _ _ _ Hk) as He. destruct (lo_kind _ _ _ _ _ Hlo k) as [bs Hbs]; [lia|].
    pose proof (lo_room _ _ _ _ _ Hlo). destruct (in_fst _ _ _ Hk) as [Hof Hcs].
    destruct (Horig o c) as [Hop Hos]; [by eapply list_elem_of_lookup_2|].
    cbn [core_restore_code slot ptr_page ptr_index]. rewrite Hp by (apply page_of_in; lia). rewrite Hbs.
    unfold entry, pbe_at in He. rewrite Hbs in He. rewrite He. cbn [mbind option_bind pbe_next orig_address address].
    rewrite !virt_to_page_address, (Hc c Hcs).
    destruct (IH (S k) fuel (<[o := m0 c]> m)) as (m' & -> & Hm & Ho); [lia|lia|..].
    { intros p Hpp. rewrite fn_lookup_insert_ne by (intros ->; done). auto. }
    { intros c' Hc'. rewrite fn_lookup_insert_ne by (intros ->; done). auto. }
    exists m'. split; [done|]. rewrite (drop_S _ _ _ Hk). split.
    + intros i o' c' Hi Hi' Hlast. destruct (decide (i = k)) as [->|].
      * simplify_eq. rewrite Ho; [apply fn_lookup_insert|].
        intros [[o1 c1] [<- [j Hj]%list_elem_of_In%list_elem_of_lookup]]%list_elem_of_In%in_map_iff.
        rewrite lookup_drop in Hj. by apply (Hlast (S k + j)%nat c1); [lia|].
      * apply (Hm i); [lia|done|done].
    + intros q Hq. rewrite Ho by set_solver. apply fn_lookup_insert_ne. set_solver.
Qed.
End Restore.

(** ** The boot kernel's data *)

Section BootData.
Context (raw : list Z -> list pbe).

(** Memories that agree but for one frame. *)
Definition agree_but (q : Z) (m m' : memory) : Prop := forall p, p <> q -> m p = m' p.

Lemma write_agree q at_ptr f s s' :
  ptr_page at_ptr <> q -> agree_but q (memory_of s) (memory_of s') ->
  agree_but q (memory_of (write_pbe raw at_ptr f s)) (memory_of (write_pbe raw at_ptr f s')).
Proof.
  intros Hq Ha p Hp. unfold write_pbe, set_memory. simpl. destruct (decide (ptr_page at_ptr = p)) as [->|Hne].
  - rewrite !fn_lookup_insert. by rewrite Ha.
  - rewrite !fn_lookup_insert_ne by done. auto.
Qed.

Lemma write_compose at_ptr f g s p :
  memory_of (write_pbe raw at_ptr f (write_pbe raw at_ptr g s)) p = memory_of (write_pbe raw at_ptr (f ∘ g) s) p.
Proof.
  unfold write_pbe, set_memory. simpl. destruct (decide (ptr_page at_ptr = p)) as [<-|Hne].
  - rewrite !fn_lookup_insert. simpl. by rewrite list_alter_alter_eq.
  - by rewrite !fn_lookup_insert_ne.
Qed.

Lemma write_commute a b f g s p :
  a <> b -> memory_of (write_pbe raw a f (write_pbe raw b g s)) p = memory_of (write_pbe raw b g (write_pbe raw a f s)) p.
Proof.
  intros Hab. unfold write_pbe, set_memory. simpl. destruct a as [pa i], b as [pb j]. cbn [ptr_page ptr_index].
  destruct (decide (pa = pb)) as [->|Hne].
  - rewrite !fn_lookup_insert. destruct (decide (pb = p)) as [->|]; [|by rewrite !fn_lookup_insert_ne].
    rewrite !fn_lookup_insert. simpl. f_equal. rewrite list_alter_alter, decide_False; [done|congruence].
  - rewrite (fn_lookup_insert_ne _ pb pa), (fn_lookup_insert_ne _ pa pb) by done.
    destruct (decide (pa = p)) as [->|]; [rewrite fn_lookup_insert, fn_lookup_insert_ne, fn_lookup_insert by done; done|].
    rewrite (fn_lookup_insert_ne _ pa p) by done.
    destruct (decide (pb = p)) as [->|]; [by rewrite !fn_lookup_insert|by rewrite !fn_lookup_insert_ne].
Qed.

Context `{PagePool} (ps1 : gset Z) (blank : Prop).

(** What the steps of [add_boot_kernel_data_pbe] write is what [fill_pbe] does. *)
Lemma boot_steps_fill s pages l o q bytes :
  built raw blank s pages l -> q ∉ pages ->
  let this := slot pages (length l) in
  let s1 := write_pbe raw this (fun b => b {{ address := page_address q }}) s in
  let s2 := link raw this (set_memory q (Data bytes) s1) in
  let s' := write_pbe raw this (fun b => b {{ orig_address := page_address o; pbe_next := None }}) s2 in
  let f := fill_pbe raw (page_address o) (page_address q) s in
  agree_but q (memory_of f) (memory_of s') /\ restore_pblist s' = restore_pblist f /\ memory_of s' q = Data bytes.
Proof.
  intros Hb Hq this s1 s2 s' f. pose proof (built_room _ _ _ _ _ Hb) as Hroom.
  pose proof Hb as ([_ Hn _ _ _ _] & _ & Hthis & Hlast & _).
  assert (forall k, (k < PBES_PER_PAGE * length pages)%nat -> page_of pages k <> q) as Hpq.
  { intros k Hk <-. by apply Hq, page_of_in. }
  assert (forall p, memory_of (write_pbe raw this (fun b => b {{ orig_address := page_address o; pbe_next := None }}) s1) p =
    memory_of (write_pbe raw this (fun _ => Pbe (page_address q) (page_address o) None) s) p) as Hthis2.
  { intros p. unfold s1. rewrite write_compose. done. }
  assert (agree_but q (memory_of s1) (memory_of (set_memory q (Data bytes) s1))) as Hset.
  { intros p Hp. symmetry. apply fn_lookup_insert_ne. congruence. }
  unfold s', s2, f, link, fill_pbe, link. cbn zeta. rewrite Hthis. fold this.
  set (w := write_pbe raw this (fun _ => Pbe (page_address q) (page_address o) None) s) in *.
  change (last_low_pbe_ptr (set_memory q (Data bytes) s1)) with (last_low_pbe_ptr s).
  change (last_low_pbe_ptr w) with (last_low_pbe_ptr s).
  rewrite Hlast. assert (forall k g t, (k < PBES_PER_PAGE * length pages)%nat ->
    memory_of (write_pbe raw (slot pages k) g t) q = memory_of t q) as Hkeep.
  { intros k g t Hk. apply write_other. simpl. apply not_eq_sym. auto. }
  assert (memory_of (set_memory q (Data bytes) s1) q = Data bytes) as Hdata by apply fn_lookup_insert.
  destruct (decide (l = [])) as [El|El].
  - split_and!; [|done|unfold this; rewrite Hkeep by done; exact Hdata].
    intros p Hp. change (memory_of w p = memory_of (write_pbe raw this (fun b => b {{ orig_address := page_address o; pbe_next := None }})
      (set_memory q (Data bytes) s1)) p). rewrite <- Hthis2. apply (write_agree q); [by apply Hpq|done|done].
  - assert (0 < length l)%nat by (destruct l; [done|simpl; lia]).
    split_and!; [|done|unfold this; rewrite !Hkeep by lia; exact Hdata].
    intros p Hp. change (memory_of (write_pbe raw (slot pages (length l - 1)) (fun b => b {{ pbe_next := Some this }}) w) p =
      memory_of (write_pbe raw this (fun b => b {{ orig_address := page_address o; pbe_next := None }})
        (write_pbe raw (slot pages (length l - 1)) (fun b => b {{ pbe_next := Some this }}) (set_memory q (Data bytes) s1))) p).
    rewrite write_commute.
    + apply (write_agree q); [apply Hpq; lia| |done]. intros p' Hp'. rewrite <- Hthis2.
      apply (write_agree q); [by apply Hpq|done|done].
    + unfold this, slot. intros [= Hs1 Hs2]. pose proof (same_slot pages (length l) (length l - 1) Hn). lia.
Qed.

(** The boot kernel's data get a pbe of their own, after those of pageset 1. *)
Lemma add_boot_spec s pages l o bytes :
  building ps1 raw blank s pages l [] -> outside ps1 (pool s) <> [] ->
  exists s' q, add_boot_kernel_data_pbe ps1 raw (page_address o) bytes s = Some (s', 0) /\
    laid_out raw blank (memory_of s') pages (l ++ [(o, q)]) /\ restore_pblist s' = Some (slot pages 0) /\
    (q ∉ ps1) /\ (q ∉ pages) /\ (q ∉ map snd l) /\ memory_of s' q = Data bytes /\
    (forall p, p ∉ pages -> p <> q -> memory_of s' p = memory_of s p) /\ q :: frames s' ⊆+ frames s.
Proof.
  intros [Hb Hown Hpg Htg] Hroom. unfold add_boot_kernel_data_pbe.
  destruct (nonconflicting_spec ps1 s) as (s1 & [q|] & E & Hs & Hr); [|done]. destruct Hr as (Hq & Hsub & _).
  unfold bind at 1. rewrite E. cbn [bind modify get ret].
  assert (NoDup (q :: frames s1 ++ pages ++ map snd l ++ [])) as Hnd.
  { eapply NoDup_part; [exact Hown|]. rewrite app_comm_cons. by apply submseteq_skips_r. }
  assert ((q ∉ pages) /\ q ∉ map snd l) as [Hqp Hql] by (apply NoDup_cons in Hnd as [Hnd _]; set_solver).
  assert (built raw blank s1 pages l /\ memory_of s1 = memory_of s) as [Hb1 Hm1].
  { clear -Hs Hb. unfold same_but_pages in Hs. destruct s1. simpl in Hs. injection Hs as -> -> -> -> -> -> -> -> ->. done. }
  pose proof Hb1 as (_ & _ & Hthis & _). rewrite Hthis.
  destruct (boot_steps_fill s1 pages l o q bytes Hb1 Hqp) as (Hag & Hre & Hdata).
  destruct (fill_laid_out raw blank s1 pages l o q Hb1) as (Hlo & _ & Hhead).
  eexists _, q. split; [done|]. split_and!; [|congruence|done|done|done|done| |].
  - eapply laid_out_ext; [|exact Hlo]. intros p Hp. symmetry. apply Hag. by intros ->.
  - intros p Hp Hpq. rewrite <- Hag by done. rewrite <- Hm1. pose proof (built_room _ _ _ _ _ Hb1).
    apply (fill_writes raw blank s1 pages l o q (fun t => memory_of t p = memory_of s1 p) Hb1); auto.
    + apply write_other. intros ->. apply Hp, page_of_in. done.
    + intros t k g Hk <-. apply write_other. intros ->. apply Hp, page_of_in. lia.
  - etrans; [|exact Hsub]. unfold link. by destruct (last_low_pbe_ptr _).
Qed.
End BootData.
