(* ===== verification/ImageIO.v ===== *)
(** * Writing and reading the pagesets: kernel/power/tuxonice_io.c

    From [rw_init_modules] to [read_pageset]: the modules are readied, the
    pages of a pageset go through the pipeline one by one, and the modules
    are cleaned up.  The pipeline, from its first filter on, is the class
    [PageDriver]; the memory pages come from and go to is that of [Pbes].

    One thread does the I/O, as with TOI_NO_MULTITHREADED_IO or on a machine
    with one processor.  Progress messages, the statistics in jiffies and the
    throughput throttle are not here. *)

From S2P Require Import Prelude States BlockIO Compression BitmapSet Pbes.
From stdpp Require Import numbers base list gmap functions.
#[local] Open Scope Z_scope.
#[local] Open Scope step_scope.

(** The variables of the I/O loop; [io_pfns] and [pageset1_pfns] are where
    the walks of io_map and pageset1_map are. *)
Record io := Io {
  io_map : gset Z;
  io_pfns : list Z;
  pageset1_pfns : list Z;
  io_count : Z;
  io_result : Z;
  toi_io_workers : Z;
  last_search : last_found;
  image_memory : loader
}.

#[export] Instance io_eta : Eta io := fun s =>
  Io (io_map s) (io_pfns s) (pageset1_pfns s) (io_count s) (io_result s) (toi_io_workers s) (last_search s)
    (image_memory s).

(** A module of the pipeline as the I/O code sees it. *)
Record rw_module (S : Type) := RwModule {
  rw_enabled : bool;
  rw_init : option (bool -> Z -> M S Z);       (* write, which pageset *)
  rw_cleanup : option (bool -> M S Z)
}.
#[global] Arguments rw_enabled {S}.
#[global] Arguments rw_init {S}.
#[global] Arguments rw_cleanup {S}.

Section ImageIO.
Context {S : Type} `{PageDriver S} `{PagePool}.
Context (aborted : S -> bool).                      (* test_result_state(TOI_ABORTED) *)
Context (note_checksum : Z -> page -> M S Z).       (* the checksum of a page of pageset 2 *)
Context (finish_all_io : M S Z).                    (* toiActiveAllocator->finish_all_io *)
Context (abort_module_init : M S unit).             (* abort_hibernate(TOI_FAILED_MODULE_INIT) *)
Context (set_abort_module_init : M S unit).         (* set_abort_result(TOI_FAILED_MODULE_INIT) *)
Context (abort_module_cleanup : M S unit).
Context (remove_image : M S unit).                  (* toiActiveAllocator->remove_image *)
Context (pageset1_map pageset2_map page_resave_map : gset Z).
Context (no_direct_load stop_resume : bool).
Context (raw : list Z -> list pbe) (search_fuel : nat).

Abbreviation state := (io * S)%type.

Definition lift {A} (m : M S A) : M state A := fun '(s, d) =>
  match m d with Some (d', a) => Some ((s, d'), a) | None => None end.
Definition my {A} (f : io -> A) : M state A := get (fun s => f (fst s)).
Definition put (f : io -> io) : M state unit := modify (fun s => (f (fst s), snd s)).

(** ** Modules *)

Fixpoint init_each (l : list (rw_module S)) (write : bool) (which : Z) : M S bool :=
  match l with
  | [] => ret true
  | m :: l' =>
      match rw_init m with
      | Some f =>
          if rw_enabled m then
            r <-- f write which;; if r =? 0 then init_each l' write which else ret false
          else init_each l' write which
      | None => init_each l' write which
      end
  end.

(** Filters, the allocator, the other modules; the first failure stops it. *)
Definition rw_init_modules (filters others : list (rw_module S)) (allocator : rw_module S) (write : bool) (which : Z)
    : M S Z :=
  ok <-- init_each filters write which;;
  if negb ok then abort_module_init;;; ret 1
  else
    match rw_init allocator with
    | None => bug
    | Some f =>
        r <-- f write which;;
        if negb (r =? 0) then abort_module_init;;; ret 1
        else
          ok <-- init_each others write which;;
          if negb ok then set_abort_module_init;;; ret 1 else ret 0
    end.

Fixpoint cleanup_each (l : list (rw_module S)) (write : bool) (result : Z) : M S Z :=
  match l with
  | [] => ret result
  | m :: l' =>
      match rw_cleanup m with
      | Some f =>
          if rw_enabled m then r <-- f write;; cleanup_each l' write (Z.lor result r)
          else cleanup_each l' write result
      | None => cleanup_each l' write result
      end
  end.

Definition rw_cleanup_modules (filters others : list (rw_module S)) (allocator : rw_module S) (write : bool) : M S Z :=
  r <-- cleanup_each others write 0;;
  r <-- cleanup_each filters write r;;
  match rw_cleanup allocator with
  | None => bug
  | Some f => r' <-- f write;; ret (Z.lor r r')
  end.

(** ** The I/O loop *)

Definition page_bytes (pfn : Z) : M state page := fun '(s, d) =>
  match memory_of (image_memory s) pfn with
  | Data b => Some ((s, d), b)
  | Pbes _ => None
  end.

(** The next frame of io_map; its bit is cleared. *)
Definition take_pfn : M state (option Z) := fun '(s, d) =>
  match io_pfns s with
  | [] => Some ((s, d), None)
  | p :: l => Some ((s {{ io_pfns := l; io_count := io_count s - 1; io_map := io_map s ∖ {[p]} }}, d), Some p)
  end.

Definition next_pageset1_pfn : M state Z := fun '(s, d) =>
  match pageset1_pfns s with
  | [] => Some ((s, d), BM_END_OF_MAP)
  | p :: l => Some ((s {{ pageset1_pfns := l }}, d), p)
  end.

(** How the loop of a worker ends: [break] or the end of the loop, or the
    [return 1] for a checksum that cannot be computed. *)
Inductive ending := Broken | Returned.

Definition more_to_write : M state bool :=
  n <-- my io_count;;
  w <-- my toi_io_workers;;
  a <-- get (fun s => aborted (snd s));;
  ret ((w <=? n) && negb a).

Fixpoint write_loop (fuel : nat) (pageset : Z) : M state ending :=
  match fuel with
  | O => bug
  | Datatypes.S fuel' =>
      pfn <-- take_pfn;;
      match pfn with
      | None => n <-- my io_count;; if n =? 0 then ret Broken else bug
      | Some data_pfn =>
          write_pfn <-- (if pageset =? 1 then next_pageset1_pfn else ret data_pfn);;
          bytes <-- page_bytes data_pfn;;
          c <-- (if pageset =? 2 then lift (note_checksum data_pfn bytes) else ret 0);;
          if negb (c =? 0) then ret Returned
          else
            result <-- lift (write_page write_pfn bytes PAGE_SIZE);;
            if negb (result =? 0) then
              put (fun s => s {{ io_result := result }});;;
              lift abort_io;;;
              ret Broken
            else
              again <-- more_to_write;;
              if again : bool then write_loop fuel' pageset else ret Broken
      end
  end.

(** Put the data of a frame where it belongs: in place, or in the page its
    pbe names. *)
Definition place_page (pageset write_pfn : Z) (bytes : page) : M state unit := fun '(s, d) =>
  let m := image_memory s in
  let direct := negb (pageset =? 1) || load_direct no_direct_load write_pfn m in
  let found :=
    if direct then Some (last_search s, Some write_pfn)
    else copy_page_from_orig_page raw search_fuel write_pfn (last_search s) m in
  match found with
  | Some (c, Some copy_page) =>
      let s := s {{ last_search := c }} in
      if bool_decide (write_pfn ∈ io_map s) then
        Some ((s {{ image_memory := set_memory copy_page (Data bytes) (image_memory s);
                    io_map := io_map s ∖ {[write_pfn]} }}, d), tt)
      else Some ((s {{ io_count := io_count s + 1 }}, d), tt)
  | _ => None                                                     (* BUG_ON(!copy_page) *)
  end.

Fixpoint read_loop (fuel : nat) (pageset : Z) (buffer : page) : M state ending :=
  match fuel with
  | O => bug
  | Datatypes.S fuel' =>
      put (fun s => s {{ io_count := io_count s - 1 }});;;
      if stop_resume then bug                                     (* while (1) schedule(); *)
      else
        got <-- lift (read_page buffer);;
        let '(write_pfn, buf_size, bytes, result) := got in
        if negb (buf_size =? PAGE_SIZE) then lift abort_io;;; ret Broken
        else if negb (result =? 0) then bug                       (* panic *)
        else
          (if bool_decide (write_pfn ∈ page_resave_map) then ret tt else place_page pageset write_pfn bytes);;;
          n <-- my io_count;;
          w <-- my toi_io_workers;;
          if w <=? n then read_loop fuel' pageset bytes else ret Broken
  end.

Definition worker_rw_loop (fuel : nat) (write : bool) (pageset : Z) (buffer : page) : M state unit :=
  put (fun s => s {{ toi_io_workers := toi_io_workers s + 1 }});;;
  e <-- (if write then write_loop fuel pageset else read_loop fuel pageset buffer);;
  match e with
  | Returned => ret tt
  | Broken =>
      put (fun s => s {{ toi_io_workers := toi_io_workers s - 1 }});;;
      w <-- my toi_io_workers;;
      if w =? 0 then lift finish_all_io;;; ret tt else ret tt
  end.

Definition set_up (finish_at : Z) (pageflags : gset Z) (s : io) : io :=
  let todo := take (Z.to_nat finish_at) (walk pageflags) in
  s {{ io_map := list_to_set todo; io_pfns := todo; pageset1_pfns := walk pageset1_map; io_count := finish_at;
       io_result := 0; last_search := LastFound None None }}.

(** The number of pages to go through; what the worker returns is ignored. *)
Definition do_rw_loop (fuel : nat) (write : bool) (finish_at : Z) (pageflags : gset Z) (pageset : Z) (buffer : page)
    : M state Z :=
  if finish_at =? 0 then ret 0
  else if Z.of_nat (length (walk pageflags)) <? finish_at then bug
  else
    put (set_up finish_at pageflags);;;
    worker_rw_loop fuel write pageset buffer;;;
    w <-- my toi_io_workers;;
    if negb (w =? 0) || stop_resume then bug                      (* waits for ever *)
    else
      r <-- my io_result;;
      a <-- get (fun s => aborted (snd s));;
      left_over <-- my (fun s => walk (io_map s));;
      if (r =? 0) && negb a && negb (bool_decide (left_over = [])) then bug else ret r.

(** ** Pagesets *)

Definition write_pageset (fuel : nat) (filters others : list (rw_module S)) (allocator : rw_module S)
    (id size : Z) (pageset1_copy_map : gset Z) (test_speed : bool) (buffer : page) : M state Z :=
  let pageflags :=
    if id =? 1 then (if test_speed then pageset1_map else pageset1_copy_map) else pageset2_map in
  r <-- lift (rw_init_modules filters others allocator true id);;
  error <-- (if negb (r =? 0) then lift abort_module_init;;; ret 1
             else do_rw_loop fuel true size pageflags id buffer);;
  c <-- lift (rw_cleanup_modules filters others allocator true);;
  if negb (c =? 0) && (error =? 0) then lift abort_module_cleanup;;; ret 1 else ret error.

Definition read_pageset (fuel : nat) (filters others : list (rw_module S)) (allocator : rw_module S)
    (id size1 size2 : Z) (overwrittenpagesonly : bool) (buffer : page) : M state Z :=
  let finish_at :=
    if id =? 1 then size1 else if overwrittenpagesonly then Z.min size1 size2 else size2 in
  let pageflags := if id =? 1 then pageset1_map else pageset2_map in
  r <-- lift (rw_init_modules filters others allocator false id);;
  result <-- (if negb (r =? 0) then lift remove_image;;; ret 1
              else do_rw_loop fuel false finish_at pageflags id buffer);;
  c <-- lift (rw_cleanup_modules filters others allocator false);;
  if negb (c =? 0) && (result =? 0) then lift abort_module_cleanup;;; ret 1 else ret result.
End ImageIO.
