(* ===== verification/ImageIOFacts.v ===== *)
(** * Facts about writing and reading the pagesets

    What the pipeline below promises is stated as two classes, [WriteDriver]
    and [ReadDriver]; against them: the loop hands the driver the pages of
    pageset 1 as they were when the atomic copy was made, reading them back
    and following the pbes leaves memory as it was, and the pages of pageset 2
    go to their places. *)

From S2P Require Import Prelude States BlockIO BlockIOFacts Compression BitmapSet Pbes PbesFacts PbeRestore ImageIO.
From stdpp Require Import numbers base list gmap functions sorting.
#[local] Open Scope Z_scope.
#[local] Open Scope step_scope.

(** ** What a driver promises *)

(** A driver that takes the pages [room] says it has room for: [written d l],
    the pages it has.  [note] is what is done with a page before it is handed
    down. *)
Class WriteDriver {S : Type} `{PageDriver S} (aborted : S -> bool) (note : Z -> page -> M S Z) (finish_all_io : M S Z)
    (room : list (Z * page) -> Prop) (written : S -> list (Z * page) -> Prop) := {
  room_app l l' : room (l ++ l') -> room l;
  write_taken d l i b : written d l -> room (l ++ [(i, b)]) ->
    exists d1 d', note i b d = Some (d1, 0) /\ write_page i b PAGE_SIZE d1 = Some (d', 0) /\ written d' (l ++ [(i, b)]);
  write_quiet d l : written d l -> aborted d = false;
  write_finish d l : written d l -> room l -> exists d' r, finish_all_io d = Some (d', r) /\ written d' l
}.

(** A driver with the pages [l] still to be read, each into a whole page. *)
Class ReadDriver {S : Type} `{PageDriver S} (finish_all_io : M S Z) (holds : S -> list (Z * page) -> Prop) := {
  read_given d i b l buffer : holds d ((i, b) :: l) -> full_page buffer ->
    full_page b /\ exists d', read_page buffer d = Some (d', (i, PAGE_SIZE, b, 0)) /\ holds d' l;
  read_finish d l : holds d l -> exists d' r, finish_all_io d = Some (d', r) /\ holds d' l
}.

(** ** The loop around the worker *)

(** A worker that has done all the work ends the loop with success. *)
Lemma do_rw_loop_done {S : Type} `{PageDriver S} (aborted : S -> bool) note_checksum (finish_all_io : M S Z)
    (ps1 resave : gset Z) (no_direct : bool) (raw : list Z -> list pbe) (search_fuel fuel : nat)
    (write : bool) (n : nat) (pageflags : gset Z) (pageset : Z) (buffer : page) s d s1 d1 d2 r :
  (0 < n)%nat -> (n <= size pageflags)%nat -> toi_io_workers s = 0 ->
  (if write then write_loop aborted note_checksum fuel pageset
   else read_loop resave no_direct false raw search_fuel fuel pageset buffer)
    ((set_up ps1 (Z.of_nat n) pageflags s) {{ toi_io_workers := 1 }}, d) = Some ((s1, d1), Broken) ->
  toi_io_workers s1 = 1 -> io_map s1 = ∅ -> io_result s1 = 0 -> finish_all_io d1 = Some (d2, r) ->
  do_rw_loop aborted note_checksum finish_all_io ps1 resave no_direct false raw search_fuel fuel write (Z.of_nat n)
    pageflags pageset buffer (s, d) = Some ((s1 {{ toi_io_workers := 0 }}, d2), 0).
Proof.
  intros Hn Hsz Hw0 El Hw Hm Hr Hf. unfold do_rw_loop, worker_rw_loop.
  rewrite (proj2 (Z.eqb_neq _ _)) by lia. rewrite (proj2 (Z.ltb_ge _ _)) by (rewrite length_walk; lia).
  unfold put, my, modify, bind, get. cbn [fst snd].
  change (toi_io_workers (set_up ps1 (Z.of_nat n) pageflags s)) with (toi_io_workers s). rewrite Hw0. change (0 + 1) with 1.
  rewrite El. simpl. rewrite Hw. unfold lift. simpl. rewrite Hf. simpl. rewrite Hr, Hm. simpl.
  assert (walk ∅ = []) as -> by done. rewrite bool_decide_eq_true_2 by done. by rewrite andb_false_r.
Qed.

(** A reader that leaves frames in [io_map] ends in [BUG]. *)
Lemma do_rw_loop_left {S : Type} `{PageDriver S} (aborted : S -> bool) note_checksum (finish_all_io : M S Z)
    (ps1 resave : gset Z) (no_direct : bool) (raw : list Z -> list pbe) (search_fuel fuel : nat)
    (n : nat) (pageflags : gset Z) (pageset : Z) (buffer : page) s d s1 d1 d2 r :
  (0 < n)%nat -> (n <= size pageflags)%nat -> toi_io_workers s = 0 ->
  read_loop resave no_direct false raw search_fuel fuel pageset buffer
    ((set_up ps1 (Z.of_nat n) pageflags s) {{ toi_io_workers := 1 }}, d) = Some ((s1, d1), Broken) ->
  toi_io_workers s1 = 1 -> io_map s1 <> ∅ -> io_result s1 = 0 -> finish_all_io d1 = Some (d2, r) -> aborted d2 = false ->
  do_rw_loop aborted note_checksum finish_all_io ps1 resave no_direct false raw search_fuel fuel false (Z.of_nat n)
    pageflags pageset buffer (s, d) = None.
Proof.
  intros Hn Hsz Hw0 El Hw Hm Hr Hf Hab. unfold do_rw_loop, worker_rw_loop.
  rewrite (proj2 (Z.eqb_neq _ _)) by lia. rewrite (proj2 (Z.ltb_ge _ _)) by (rewrite length_walk; lia).
  unfold put, my, modify, bind, get. cbn [fst snd].
  change (toi_io_workers (set_up ps1 (Z.of_nat n) pageflags s)) with (toi_io_workers s). rewrite Hw0. change (0 + 1) with 1.
  rewrite El. simpl. rewrite Hw. unfold lift. simpl. rewrite Hf. simpl. rewrite Hr, Hab. simpl.
  rewrite bool_decide_eq_false_2; [done|]. intros Ew. apply Hm. apply leibniz_equiv. intros p.
  rewrite <- elem_of_walk, Ew. set_solver.
Qed.

(** What is done with a page of a pageset before it is written. *)
Definition noting {S : Type} (pageset : Z) (note_checksum : Z -> page -> M S Z) (i : Z) (b : page) : M S Z :=
  if pageset =? 2 then note_checksum i b else ret 0.

Section Writing.
Context {S : Type} `{HD : PageDriver S} (aborted : S -> bool) (note_checksum : Z -> page -> M S Z)
  (finish_all_io : M S Z) (pageset : Z) (room : list (Z * page) -> Prop) (written : S -> list (Z * page) -> Prop)
  `{HW : !WriteDriver aborted (noting pageset note_checksum) finish_all_io room written}.

(** The loop gives the driver the pages of [todo] under the frames of [srcs]. *)
Lemma write_loop_spec (m : Z -> page) todo srcs fuel s d l :
  todo <> [] -> NoDup todo -> length todo = length srcs -> (length todo <= fuel)%nat ->
  io_pfns s = todo -> (if pageset =? 1 then pageset1_pfns s = srcs else todo = srcs) ->
  io_count s = Z.of_nat (length todo) -> toi_io_workers s = 1 ->
  io_map s = list_to_set todo -> memory_of (image_memory s) = (fun p => Data (m p)) -> written d l ->
  room (l ++ zip srcs (map m todo)) ->
  exists s' d', write_loop aborted note_checksum fuel pageset (s, d) = Some ((s', d'), Broken) /\
    written d' (l ++ zip srcs (map m todo)) /\ io_map s' = ∅ /\ toi_io_workers s' = 1 /\ io_result s' = io_result s /\
    image_memory s' = image_memory s.
Proof using HW.
  revert todo srcs s d l. induction fuel as [|fuel IH]; intros todo srcs s d l Hne Hnd Hlen Hf Hp Hs Hc Hw Hm Hmem Hd Hroom.
  { destruct todo; [done|simpl in Hf; lia]. }
  destruct todo as [|p todo]; [done|]. destruct srcs as [|q srcs]; [done|]. cbn [length] in *.
  cbn [zip zip_with map] in Hroom |- *. change ((q, m p) :: ?x) with ([(q, m p)] ++ x) in Hroom |- *. rewrite app_assoc in Hroom |- *.
  destruct (write_taken (aborted := aborted) d l q (m p) Hd (room_app (room := room) _ _ Hroom)) as (d1 & d2 & En & Ew & Hd2).
  apply NoDup_cons in Hnd as [Hpt Hnd].
  assert (exists s1, (write_loop aborted note_checksum (Datatypes.S fuel) pageset (s, d) =
    (again <-- more_to_write aborted;; if again : bool then write_loop aborted note_checksum fuel pageset else ret Broken) (s1, d2)) /\
    io_pfns s1 = todo /\ (if pageset =? 1 then pageset1_pfns s1 = srcs else todo = srcs) /\ io_count s1 = io_count s - 1 /\
    toi_io_workers s1 = toi_io_workers s /\ io_map s1 = list_to_set todo /\ image_memory s1 = image_memory s /\
    io_result s1 = io_result s) as (s1 & -> & Hp1 & Hs1 & Hc1 & Hw1 & Hm1 & Hi1 & Hr1).
  { exists (s {{ io_pfns := todo; io_count := io_count s - 1; io_map := io_map s ∖ {[p]};
                 pageset1_pfns := if pageset =? 1 then srcs else pageset1_pfns s }}).
    split; [|simpl; split_and!; auto; [by destruct (pageset =? 1); [|injection Hs]|rewrite Hm; set_solver]].
    cbn [write_loop]. unfold take_pfn, next_pageset1_pfn, page_bytes, lift. cbn [bind]. rewrite Hp.
    unfold noting in En. destruct (pageset =? 1) eqn:E1.
    - apply Z.eqb_eq in E1. subst pageset. injection En as <-. simpl. rewrite Hs. simpl. by rewrite Hmem, Ew.
    - injection Hs as <- <-. simpl. rewrite Hmem. simpl.
      destruct (pageset =? 2); (rewrite En || injection En as <-); simpl; by rewrite Ew. }
  unfold more_to_write, my, get, bind, ret. cbn [fst snd]. rewrite (write_quiet (aborted := aborted) _ _ Hd2), Hw1, Hw, Hc1, Hc, andb_true_r.
  destruct (Z.leb_spec 1 (Z.of_nat (Datatypes.S (length todo)) - 1)).
  - destruct (IH todo srcs s1 d2 (l ++ [(q, m p)])) as (s' & d' & -> & Hd' & Hm' & Hw' & Hr' & Hi'); auto.
    + destruct todo; [simpl in *; lia|done].
    + lia.
    + lia.
    + congruence.
    + by rewrite Hi1.
    + exists s', d'. split_and!; auto; congruence.
  - destruct todo; [|simpl in *; lia]. destruct srcs; [|simpl in *; lia]. exists s1, d2.
    split_and!; [done|by rewrite app_nil_r|by rewrite Hm1|congruence|done|done].
Qed.

Context (ps1 resave : gset Z) (no_direct : bool) (raw : list Z -> list pbe) (search_fuel : nat).

(** Writing the first [n] frames of a map. *)
Lemma write_pages_spec (m : Z -> page) (n : nat) (pageflags : gset Z) (srcs : list Z) (fuel : nat) (buffer : page) (s : io) (d : S) :
  let todo := take n (walk pageflags) in
  (n <= size pageflags)%nat -> length srcs = n -> (n <= fuel)%nat ->
  (if pageset =? 1 then walk ps1 = srcs else todo = srcs) -> toi_io_workers s = 0 ->
  memory_of (image_memory s) = (fun p => Data (m p)) -> written d [] -> room (zip srcs (map m todo)) ->
  exists s' d', do_rw_loop aborted note_checksum finish_all_io ps1 resave no_direct false raw search_fuel
      fuel true (Z.of_nat n) pageflags pageset buffer (s, d) = Some ((s', d'), 0) /\
    written d' (zip srcs (map m todo)) /\ toi_io_workers s' = 0 /\ image_memory s' = image_memory s.
Proof using HW.
  intros todo Hn Hlen Hf Hsrc Hw Hmem Hd Hroom.
  assert (length todo = n) as Hlt by (unfold todo; rewrite length_take, length_walk; lia).
  destruct (decide (n = 0)%nat) as [E0|E0].
  { exists s, d. subst n. unfold do_rw_loop. rewrite E0. apply length_zero_iff_nil in E0. rewrite E0 in *. done. }
  destruct (write_loop_spec m todo srcs fuel ((set_up ps1 (Z.of_nat n) pageflags s) {{ toi_io_workers := 1 }}) d [])
    as (s1 & d1 & Ew & Hd1 & Hmp & Hw1 & Hr1 & Hi1); auto; try lia.
  { intros E. rewrite E in Hlt. simpl in Hlt. lia. }
  { unfold todo. apply (NoDup_part _ (walk pageflags)); [apply walk_NoDup|]. apply submseteq_take. }
  1, 2, 3, 4: unfold set_up; simpl; rewrite ?Nat2Z.id; auto; try lia.
  simpl in Hd1. destruct (write_finish (aborted := aborted) d1 _ Hd1 Hroom) as (d2 & r & Ef & Hd2).
  exists (s1 {{ toi_io_workers := 0 }}), d2. split; [|done].
  apply (do_rw_loop_done aborted note_checksum finish_all_io ps1 resave no_direct raw search_fuel fuel true
    n pageflags pageset buffer s d s1 d1 d2 r); auto. lia.
Qed.
End Writing.

(** The pages of pageset 1 are read from their copies. *)
Lemma copies_of (ps1 copies : gset Z) (m : Z -> page) :
  ps1 ## copies -> (size ps1 <= size copies)%nat -> (forall p, full_page (m p)) ->
  exists m1, toi_copy_pageset1 (Z.of_nat (size ps1)) ps1 copies m = Some m1 /\ (forall p, p ∉ copies -> m1 p = m p) /\
    zip (walk ps1) (map m1 (take (size ps1) (walk copies))) = map (fun p => (p, m p)) (walk ps1).
Proof.
  intros Hdis Hroom Hlen. unfold toi_copy_pageset1. rewrite Nat2Z.id.
  destruct (copy_frames_spec (size ps1) (walk ps1) (walk copies) m) as (m1 & Em & Hm1 & Hm0);
    [by rewrite length_walk|by rewrite length_walk|apply walk_NoDup| |done|].
  { intros p. rewrite !elem_of_walk. set_solver. }
  exists m1. split; [done|]. split; [intros p Hp; apply Hm0; by rewrite elem_of_walk|].
  apply list_eq. intros i. rewrite list_lookup_fmap, lookup_zip_with, list_lookup_fmap.
  destruct (walk ps1 !! i) as [p|] eqn:Ep; [|done]. simpl. pose proof (lookup_lt_Some _ _ _ Ep) as Hi.
  rewrite length_walk in Hi. rewrite lookup_take_lt by done.
  destruct (lookup_lt_is_Some_2 (walk copies) i) as [q Eq]; [rewrite length_walk; lia|].
  rewrite Eq. simpl. by rewrite (Hm1 i p q).
Qed.

(** The image holds pageset 1 as it was at the moment of the atomic copy.
    When the copy map has a frame outside pageset 1 for each of its frames,
    [toi_copy_pageset1] succeeds and changes no other frame; and from the
    memory it leaves, the I/O loop succeeds and hands the driver exactly one
    page for each frame of pageset 1, in ascending order, with the contents
    the frame had before the copy. *)
Lemma atomic_copy_written {S : Type} `{HD : PageDriver S} (aborted : S -> bool) (note_checksum : Z -> page -> M S Z)
    (finish_all_io : M S Z) (room : list (Z * page) -> Prop) (written : S -> list (Z * page) -> Prop)
    `{HW : !WriteDriver aborted (noting 1 note_checksum) finish_all_io room written}
    (ps1 resave : gset Z) (no_direct : bool) (raw : list Z -> list pbe) (search_fuel : nat) (copies : gset Z) (m : Z -> page) :
  ps1 ## copies -> (size ps1 <= size copies)%nat -> (forall p, full_page (m p)) -> room (map (fun p => (p, m p)) (walk ps1)) ->
  exists m1, toi_copy_pageset1 (Z.of_nat (size ps1)) ps1 copies m = Some m1 /\
    (forall p, p ∉ copies -> m1 p = m p) /\
    forall (fuel : nat) (buffer : page) (s : io) (d : S),
      memory_of (image_memory s) = (fun p => Data (m1 p)) -> toi_io_workers s = 0 -> written d [] ->
      (size ps1 <= fuel)%nat ->
      exists s' d', do_rw_loop aborted note_checksum finish_all_io ps1 resave no_direct false raw search_fuel
          fuel true (Z.of_nat (size ps1)) copies 1 buffer (s, d) = Some ((s', d'), 0) /\
        written d' (map (fun p => (p, m p)) (walk ps1)).
Proof.
  intros Hdis Hsz Hlen Hroom. destruct (copies_of ps1 copies m) as (m1 & Em & Hm0 & Hz); auto.
  exists m1. split; [done|]. split; [done|]. intros fuel buffer s d Hmem Hw Hd Hf.
  destruct (write_pages_spec aborted note_checksum finish_all_io 1 room written ps1 resave no_direct raw search_fuel m1 (size ps1)
    copies (walk ps1) fuel buffer s d) as (s' & d' & E & Hd' & _); auto; [apply length_walk|done|by rewrite Hz|].
  rewrite Hz in Hd'. eauto.
Qed.

(** ** Reading the image back *)

Section Reading.
Context {S : Type} `{HD : PageDriver S} `{HP : PagePool} (aborted : S -> bool) (note_checksum : Z -> page -> M S Z)
  (finish_all_io : M S Z) (holds : S -> list (Z * page) -> Prop) `{HR : !ReadDriver finish_all_io holds}.
Context (ps1 resave : gset Z) (no_direct : bool) (raw : list Z -> list pbe) (blank : Prop) (search_fuel : nat).
Context (Hps1 : forall p, p ∈ ps1 -> 0 <= p) (Hresave : ps1 ## resave).

(** The load addresses are in place; [lo] is the loader they leave. *)
Context (lo : loader) (pages : list Z) (l : list (Z * Z)).
Context (Hbd : building ps1 raw blank lo pages l []) (Hfst : map fst l = to_map no_direct lo (walk ps1)).
Context (Htail : blank \/ (PBES_PER_PAGE <= length l)%nat).
Context (Hfuel : (PBES_PER_PAGE <= search_fuel)%nat) (Hpages : (length pages <= search_fuel)%nat).

(** Where the data of a frame is loaded. *)
Definition target (p : Z) : Z := default p ((list_to_map l : gmap Z Z) !! p).

Lemma fst_nodup : NoDup (map fst l).
Proof. rewrite Hfst. apply list.NoDup_filter, walk_NoDup. Qed.

Lemma in_l_lookup p c : (p, c) ∈ l -> target p = c.
Proof.
  intros Hl. unfold target. assert ((list_to_map l : gmap Z Z) !! p = Some c) as ->; [|done].
  apply elem_of_list_to_map; [apply fst_nodup|done].
Qed.

Lemma in_l_iff p : p ∈ ps1 -> load_direct no_direct p lo = false <-> exists c, (p, c) ∈ l.
Proof.
  intros Hp. assert (p ∈ map fst l <-> load_direct no_direct p lo = false) as <-.
  { rewrite Hfst. unfold to_map. rewrite list_elem_of_filter, elem_of_walk. tauto. }
  rewrite list_elem_of_In, in_map_iff. split.
  - intros ([o c] & <- & Hi%list_elem_of_In). eauto.
  - intros [c Hc]. exists (p, c). split; [done|]. by apply list_elem_of_In.
Qed.

Lemma in_l_facts p c : (p, c) ∈ l -> p ∈ ps1 /\ (c ∉ ps1) /\ (c ∉ pages).
Proof.
  intros Hl. destruct Hbd as [_ Hown _ Htg]. split_and!.
  - assert (p ∈ map fst l) as Hp by (apply list_elem_of_In, in_map_iff; exists (p, c); by rewrite <- list_elem_of_In).
    rewrite Hfst in Hp. apply list_elem_of_filter in Hp as [_ Hp]. by apply elem_of_walk.
  - exact (proj1 (Forall_forall _ _) Htg _ Hl).
  - assert (c ∈ map snd l) by (apply list_elem_of_In, in_map_iff; exists (p, c); by rewrite <- list_elem_of_In).
    apply NoDup_app in Hown as (_ & _ & Hown). apply NoDup_app in Hown as (_ & Hown & _). intros Hc. eapply Hown; [exact Hc|]. set_solver.
Qed.

Lemma target_direct p : p ∈ ps1 -> load_direct no_direct p lo = true -> target p = p.
Proof.
  intros Hp Hd. unfold target. destruct ((list_to_map l : gmap Z Z) !! p) as [c|] eqn:E; [|done].
  apply elem_of_list_to_map_2 in E. assert (load_direct no_direct p lo = false) by (apply in_l_iff; eauto). congruence.
Qed.

Lemma target_inj p q : p ∈ ps1 -> q ∈ ps1 -> target p = target q -> p = q.
Proof.
  intros Hp Hq Ht.
  assert (forall p, p ∈ ps1 -> (target p = p) \/ (p, target p) ∈ l) as Hcase.
  { intros x Hx. destruct (load_direct no_direct x lo) eqn:E; [left; by apply target_direct|].
    apply in_l_iff in E as [c Hc]; [|done]. right. by rewrite (in_l_lookup _ _ Hc). }
  destruct (Hcase p Hp) as [E|E], (Hcase q Hq) as [E'|E'].
  - congruence.
  - apply in_l_facts in E' as (_ & Hn & _). destruct Hn. rewrite <- Ht, E. done.
  - apply in_l_facts in E as (_ & Hn & _). destruct Hn. rewrite Ht, E'. done.
  - destruct Hbd as [_ Hown _ _]. apply NoDup_app in Hown as (_ & _ & Hown). apply NoDup_app in Hown as (_ & _ & Hown).
    rewrite app_nil_r in Hown. apply list_elem_of_lookup in E as [i Hi]. apply list_elem_of_lookup in E' as [j Hj].
    rewrite Ht in Hi. assert (i = j) as ->.
    { eapply (NoDup_lookup (map snd l)); [done|..]; rewrite list_lookup_fmap; [by rewrite Hi|by rewrite Hj]. }
    congruence.
Qed.

(** The loader while the image is read: only memory changes, and not the pbes. *)
Definition loading (x : loader) : Prop :=
  x = lo {{ memory_of := memory_of x }} /\ forall p, p ∈ pages -> memory_of x p = memory_of lo p.

Lemma target_outside p : p ∈ ps1 -> target p ∉ pages.
Proof.
  intros Hp. destruct (load_direct no_direct p lo) eqn:E.
  - rewrite target_direct by done. intros Hi. destruct Hbd as [_ _ Hpg _]. exact (proj1 (Forall_forall _ _) Hpg _ Hi Hp).
  - apply in_l_iff in E as [c Hc]; [|done]. rewrite (in_l_lookup _ _ Hc). by apply in_l_facts in Hc as (_ & _ & ?).
Qed.

Lemma loading_place x p b : loading x -> p ∈ ps1 -> loading (set_memory (target p) (Data b) x).
Proof.
  intros [Hx Hm] Hp. split.
  - rewrite Hx at 1. done.
  - intros q Hq. unfold set_memory. simpl. rewrite fn_lookup_insert_ne; [auto|]. intros <-. by eapply target_outside.
Qed.

(** The data of a frame of pageset 1 ends up at its target. *)
Lemma place_page_spec (s : io) (d : S) (p : Z) (b : page) :
  loading (image_memory s) -> cache_ok pages l (last_search s) -> p ∈ ps1 -> p ∈ io_map s ->
  exists c, cache_ok pages l c /\
    place_page no_direct raw search_fuel 1 p b (s, d) =
      Some ((s {{ last_search := c; image_memory := set_memory (target p) (Data b) (image_memory s);
                  io_map := io_map s ∖ {[p]} }}, d), tt).
Proof.
  intros [Hx Hm] Hc Hp Hio. unfold place_page. cbn [Z.eqb Pos.eqb negb orb].
  assert (load_direct no_direct p (image_memory s) = load_direct no_direct p lo) as -> by (rewrite Hx; done).
  destruct (load_direct no_direct p lo) eqn:E.
  - exists (last_search s). split; [done|]. rewrite (target_direct p) by done. simpl. by rewrite bool_decide_eq_true_2.
  - apply in_l_iff in E as [c Hcl]; [|done]. rewrite (in_l_lookup _ _ Hcl).
    apply list_elem_of_lookup in Hcl as [k Hk].
    destruct Hbd as [(Hlo & Hlen & _ & _ & Hhead) _ _ _].
    assert (laid_out raw blank (memory_of (image_memory s)) pages l) as Hlo' by (by eapply laid_out_ext).
    destruct (copy_page_found raw blank (memory_of (image_memory s)) pages l Hlo') with (fuel := search_fuel) (k := k) (o := p)
      (cp := c) (c := last_search s) (s := image_memory s) as (c' & -> & Hc'); auto.
    + rewrite Hfst. apply filter_sorted, walk_sorted.
    + apply Forall_forall. intros [o c0] Ho. simpl. apply Hps1. by apply in_l_facts in Ho as (? & _).
    + intros k' Hk'. apply (lo_blank _ _ _ _ _ Hlo'); [done|]. destruct Htail; [by left|right; lia].
    + rewrite Hx. simpl. rewrite Hhead. rewrite decide_False; [done|]. by intros ->.
    + exists c'. split; [done|]. simpl. by rewrite bool_decide_eq_true_2.
Qed.

Lemma read_loop_spec (img : Z -> page) (rest : list Z) (fuel : nat) (buffer : page) (s : io) (d : S) :
  rest <> [] -> NoDup rest -> (forall p, p ∈ rest -> p ∈ ps1) -> (length rest <= fuel)%nat ->
  io_map s = list_to_set rest -> io_count s = Z.of_nat (length rest) -> toi_io_workers s = 1 ->
  loading (image_memory s) -> cache_ok pages l (last_search s) -> holds d (map (fun p => (p, img p)) rest) -> full_page buffer ->
  exists s' d', read_loop resave no_direct false raw search_fuel fuel 1 buffer (s, d) = Some ((s', d'), Broken) /\
    io_map s' = ∅ /\ toi_io_workers s' = 1 /\ io_result s' = io_result s /\ loading (image_memory s') /\ holds d' [] /\
    (forall p, p ∈ rest -> memory_of (image_memory s') (target p) = Data (img p)) /\
    (forall q, (forall p, p ∈ rest -> q <> target p) ->
       memory_of (image_memory s') q = memory_of (image_memory s) q).
Proof.
  revert rest buffer s d. induction fuel as [|fuel IH]; intros [|p rest] buffer s d Hne Hnd Hin Hf Hm Hc Hw Hl Hca Hd Hbuf;
    try done; cbn [length] in Hf; [lia|].
  apply NoDup_cons in Hnd as [Hpr Hnd]. assert (p ∈ ps1) as Hp by (apply Hin; left).
  simpl in Hd. destruct (read_given d p (img p) _ buffer Hd Hbuf) as (Hfp & d1 & Er & Hd1).
  cbn [read_loop]. unfold put, my, modify, get, lift, bind. cbn [fst snd]. rewrite Er, Z.eqb_refl. cbn [Z.eqb negb].
  rewrite bool_decide_eq_false_2 by set_solver.
  set (s0 := s {{ io_count := io_count s - 1 }}).
  destruct (place_page_spec s0 d1 p (img p)) as (c & Hc' & ->); [done|done|done|simpl; rewrite Hm; set_solver|].
  set (s1 := s0 {{ last_search := _; image_memory := _; io_map := _ }}). cbn [fst snd].
  assert (io_map s1 = list_to_set rest) as Hm1 by (unfold s1, s0; simpl; rewrite Hm; set_solver).
  assert (io_count s1 = Z.of_nat (length rest)) as Hc1 by (unfold s1, s0; simpl; rewrite Hc; cbn [length]; lia).
  assert (toi_io_workers s1 = 1) as Hw1 by exact Hw. assert (loading (image_memory s1)) as Hl1 by (by apply loading_place).
  rewrite Hc1, Hw1.
  assert (memory_of (image_memory s1) (target p) = Data (img p)) as Htp by apply fn_lookup_insert.
  assert (forall q, q <> target p -> memory_of (image_memory s1) q = memory_of (image_memory s) q) as Hother
    by (intros q Hq; apply fn_lookup_insert_ne; congruence).
  assert (forall q, q ∈ rest -> target p <> target q) as Hne'.
  { intros q Hq E. apply Hpr. rewrite (target_inj p q); [done|done|apply Hin; by right|done]. }
  destruct (Z.leb_spec 1 (Z.of_nat (length rest))) as [Hr|Hr].
  - destruct (IH rest (img p) s1 d1) as (s' & d' & -> & G1 & G2 & G3 & G4 & G5 & G6 & G7); auto.
    + by intros ->.
    + intros q Hq. apply Hin. by right.
    + lia.
    + exists s', d'. split_and!; auto.
      * intros q [->|Hq]%elem_of_cons; [|auto]. rewrite G7 by done. exact Htp.
      * intros q Hq. rewrite G7 by (intros x Hx; apply Hq; by right). apply Hother. apply Hq. left.
  - destruct rest as [|]; [|simpl in Hr; lia]. exists s1, d1. split_and!; auto.
    + intros q ->%list_elem_of_singleton. exact Htp.
    + intros q Hq. apply Hother, Hq. left.
Qed.

(** The loader after the image is read is still one with the array in place. *)
Lemma loading_building x : loading x -> building ps1 raw blank x pages l [].
Proof.
  intros [Hx Hm]. destruct Hbd as [(Hlo & Hlen & Hth & Hla & Hhe) Hown Hpg Htg].
  split; [|rewrite Hx; exact Hown|done|done].
  split_and!; [by eapply laid_out_ext|done|rewrite Hx..]; done.
Qed.

(** With the image read and the boot data added, following the list puts
    everything in its place. *)
Lemma restore_loaded (img : Z -> page) (x : loader) bkd bytes fuel :
  loading x -> (forall p, p ∈ ps1 -> memory_of x (target p) = Data (img p)) ->
  bkd ∈ ps1 -> outside ps1 (pool x) <> [] -> (length l < fuel)%nat ->
  exists s2 m, add_boot_kernel_data_pbe ps1 raw (page_address bkd) bytes x = Some (s2, 0) /\
    core_restore_code fuel (restore_pblist s2) (memory_of s2) = Some m /\
    m bkd = Data bytes /\ forall p, p ∈ ps1 -> p <> bkd -> m p = Data (img p).
Proof.
  intros Hl Himg Hb Hpool Hf. pose proof (loading_building x Hl) as Hbx.
  destruct (add_boot_spec raw ps1 blank x pages l bkd bytes Hbx Hpool) as (s2 & q & E & Hlo & Hhe & Hq & Hqp & Hql & Hdq & Hoth & _).
  assert (length (l ++ [(bkd, q)]) = Datatypes.S (length l)) as Hlen by (rewrite length_app; cbn [length]; lia).
  assert (forall o c, (o, c) ∈ l ++ [(bkd, q)] -> o ∈ ps1) as Ho.
  { intros o c [Hi|Hi%list_elem_of_singleton]%elem_of_app; [by apply in_l_facts in Hi as [? _]|by simplify_eq]. }
  assert (forall o, o ∈ ps1 -> (o ∉ pages) /\ o ∉ map snd (l ++ [(bkd, q)])) as Hps.
  { intros o Hop. split.
    - intros Hi. destruct Hbd as [_ _ Hpg _]. exact (proj1 (Forall_forall _ _) Hpg _ Hi Hop).
    - rewrite map_app. intros [[[o' c] [<- Hi%list_elem_of_In]]%list_elem_of_In%in_map_iff|Hi]%elem_of_app.
      + by apply in_l_facts in Hi as (_ & ? & _).
      + apply list_elem_of_singleton in Hi. by subst. }
  destruct (core_restore_from raw blank (memory_of s2) pages (l ++ [(bkd, q)]) Hlo) with
    (n := Datatypes.S (length l)) (k := 0%nat) (fuel := fuel) (m := memory_of s2) as (m & Em & Hm & Hm'); auto.
  { intros o c Hi. by apply Hps, (Ho o c). }
  rewrite Hlen in Em. cbn [Nat.ltb Nat.leb] in Em. rewrite <- Hhe in Em.
  exists s2, m. split; [done|]. split; [done|].
  assert ((l ++ [(bkd, q)]) !! length l = Some (bkd, q)) as Hlast by (rewrite lookup_app_r, Nat.sub_diag by lia; done).
  split.
  - rewrite (Hm (length l) bkd q); [done|lia|done|]. intros j c Hj Hc%lookup_lt_Some. lia.
  - intros p Hp Hne. destruct (load_direct no_direct p lo) eqn:Ed.
    + rewrite Hm'.
      * rewrite Hoth; [|by apply Hps|by intros ->].
        pose proof (Himg p Hp) as Hi. by rewrite target_direct in Hi.
      * rewrite drop_0, map_app. intros [Hi|Hi%list_elem_of_singleton]%elem_of_app; [|done].
        rewrite Hfst in Hi. apply list_elem_of_filter in Hi as [? _]. congruence.
    + apply in_l_iff in Ed as [c Hc]; [|done]. pose proof Hc as Hc'. apply list_elem_of_lookup in Hc' as [i Hi].
      pose proof (lookup_lt_Some _ _ _ Hi) as Hil.
      rewrite (Hm i p c); [|lia|by rewrite lookup_app_l|].
      * rewrite Hoth; [rewrite <- (in_l_lookup _ _ Hc); auto|by apply in_l_facts in Hc as (_ & _ & ?)|].
        intros ->. apply Hql, list_elem_of_In, in_map_iff. exists (p, q). split; [done|]. by apply list_elem_of_In.
      * intros j c' Hj Hjl. destruct (decide (j < length l)%nat) as [Hjl'|Hjl'].
        -- rewrite lookup_app_l in Hjl by done. assert (i = j); [|lia].
           eapply (NoDup_lookup (map fst l)); [apply fst_nodup|..]; rewrite list_lookup_fmap; [by rewrite Hi|by rewrite Hjl].
        -- pose proof (lookup_lt_Some _ _ _ Hjl). replace j with (length l) in Hjl by lia. congruence.
Qed.
End Reading.

(** ** The whole way *)

Section Restored.
Context {S : Type} `{HD : PageDriver S} `{HP : PagePool} (aborted : S -> bool) (note_checksum : Z -> page -> M S Z)
  (finish_all_io : M S Z) (holds : S -> list (Z * page) -> Prop) `{HR : !ReadDriver finish_all_io holds}.
Context (ps1 resave : gset Z) (no_direct : bool) (raw : list Z -> list pbe) (blank : Prop) (search_fuel : nat).

(** Resuming puts pageset 1 back.  When memory suffices, the load
    addresses are found; reading the image, in whatever order its pages
    come, and searching a load address for each, succeeds; the boot data can
    be added; and following the list of pbes leaves in every frame of
    pageset 1 what the image held for it, and in the frame of the boot data
    buffer the boot kernel's data.  The first page of pbes is not cleared
    when it is taken, so it has to have been blank or to be filled. *)
Lemma image_restored (s : loader) (img : Z -> page) (bkd : Z) (bytes : page) :
  (forall p, p ∈ ps1 -> 0 <= p) -> ps1 ## resave -> bkd ∈ ps1 -> can_load ps1 raw blank s ->
  (size ps1 + size ps1 / PBES_PER_PAGE + 2 <= length (outside ps1 (pool s)))%nat ->
  (PBES_PER_PAGE + size ps1 <= search_fuel)%nat ->
  exists s1, toi_get_pageset1_load_addresses ps1 no_direct raw (Z.of_nat (size ps1)) s = Some (s1, 0) /\
    forall (order : list Z) (fuel : nat) (buffer : page) (x : io) (d : S),
      blank \/ (PBES_PER_PAGE <= length (to_map no_direct s1 (walk ps1)))%nat ->
      order ≡ₚ walk ps1 -> (size ps1 <= fuel)%nat -> full_page buffer ->
      image_memory x = s1 -> toi_io_workers x = 0 -> holds d (map (fun p => (p, img p)) order) ->
      exists x' d' s2 m,
        do_rw_loop aborted note_checksum finish_all_io ps1 resave no_direct false raw search_fuel
          fuel false (Z.of_nat (size ps1)) ps1 1 buffer (x, d) = Some ((x', d'), 0) /\ holds d' [] /\
        add_boot_kernel_data_pbe ps1 raw (page_address bkd) bytes (image_memory x') = Some (s2, 0) /\
        core_restore_code (Datatypes.S (size ps1)) (restore_pblist s2) (memory_of s2) = Some m /\
        m bkd = Data bytes /\ forall p, p ∈ ps1 -> p <> bkd -> m p = Data (img p).
Proof.
  intros Hps1 Hresave Hbkd Hcan Hroom Hfuel.
  destruct (load_addresses_ok ps1 no_direct raw blank s Hcan) as (s1 & pages & l & E & Hb & Hfst & _ & _ & _ & Hcnt).
  exists s1. split; [done|]. intros order fuel buffer x d Htail Hord Hf Hbuf Hx Hw Hd.
  assert (length l = length (to_map no_direct s1 (walk ps1))) as Hl by (rewrite <- Hfst; by rewrite length_map).
  assert (length l <= size ps1)%nat as Hls by (rewrite Hl, <- length_walk; apply length_filter).
  assert (length pages <= search_fuel)%nat as Hpg.
  { destruct Hb as [(_ & -> & _) _ _ _]. pose proof (Nat.div_mod_eq (length l) PBES_PER_PAGE).
    unfold PBES_PER_PAGE in *. lia. }
  assert (length order = size ps1) as Hlo by (rewrite Hord; apply length_walk).
  assert (0 < size ps1)%nat as Hpos.
  { rewrite <- length_walk. destruct (walk ps1) eqn:Ew; [|simpl; lia]. apply elem_of_walk in Hbkd. rewrite Ew in Hbkd. set_solver. }
  set (x0 := (set_up ps1 (Z.of_nat (size ps1)) ps1 x) {{ toi_io_workers := 1 }}).
  rewrite <- Hl in Htail. assert (PBES_PER_PAGE <= search_fuel)%nat as Hsf by lia.
  destruct (read_loop_spec aborted note_checksum finish_all_io holds ps1 resave no_direct raw blank search_fuel
    Hps1 Hresave s1 pages l Hb Hfst Htail Hsf Hpg img order fuel buffer x0 d)
    as (x1 & d1 & Er & G1 & G2 & G3 & G4 & G5 & G6 & _); auto.
  - intros ->. simpl in Hlo. lia.
  - rewrite Hord. apply walk_NoDup.
  - intros p. rewrite Hord. apply elem_of_walk.
  - lia.
  - unfold x0, set_up. simpl. rewrite Nat2Z.id, <- length_walk, take_ge by lia. 
    apply leibniz_equiv. intros p. by rewrite !elem_of_list_to_set, Hord.
  - unfold x0, set_up. simpl. lia.
  - unfold x0, set_up, loading. simpl. rewrite Hx. split; [by destruct s1|done].
  - done.
  - destruct (read_finish _ _ G5) as (d2 & r & Ef & Hd2).
    destruct (restore_loaded note_checksum finish_all_io holds ps1 resave no_direct raw blank search_fuel
      Hps1 Hresave s1 pages l Hb Hfst Htail Hsf Hpg img (image_memory x1) bkd bytes (Datatypes.S (size ps1)))
      as (s2 & m & Ea & Em & Hm); auto.
    + intros p Hp. apply G6. by rewrite Hord, elem_of_walk.
    + destruct G4 as [-> _]. simpl. intros E0. rewrite E0 in Hcnt. cbn [length] in Hcnt. lia.
    + lia.
    + exists (x1 {{ toi_io_workers := 0 }}), d2, s2, m. split; [|split; [done|]; done].
      apply (do_rw_loop_done aborted note_checksum finish_all_io ps1 resave no_direct raw search_fuel fuel false
        (size ps1) ps1 1 buffer x d x1 d1 d2 r); auto.
Qed.
End Restored.

(** ** Reading pageset 2

    Every page goes to its own frame, except the pages that were saved again
    with pageset 1: these are read and dropped. *)

Section Direct.
Context {S : Type} `{HD : PageDriver S}
  (finish_all_io : M S Z) (holds : S -> list (Z * page) -> Prop) `{HR : !ReadDriver finish_all_io holds}.
Context (ps1 resave : gset Z) (no_direct : bool) (raw : list Z -> list pbe) (search_fuel : nat).

(** What reading the pages [rest] does: [io_map] keeps the pages dropped. *)
Record placed (img : Z -> page) (rest : list Z) (s s' : io) : Prop := {
  pl_map : io_map s' = io_map s ∖ (list_to_set rest ∖ resave);
  pl_workers : toi_io_workers s' = toi_io_workers s;
  pl_result : io_result s' = io_result s;
  pl_rest : image_memory s' = (image_memory s) {{ memory_of := memory_of (image_memory s') }};
  pl_in p : p ∈ rest -> p ∉ resave -> memory_of (image_memory s') p = Data (img p);
  pl_out q : q ∉ rest \/ q ∈ resave -> memory_of (image_memory s') q = memory_of (image_memory s) q
}.

Lemma placed_cons img p rest s0 s1 s' :
  p ∉ rest -> placed img [p] s0 s1 -> placed img rest s1 s' -> placed img (p :: rest) s0 s'.
Proof.
  intros Hp [A1 A2 A3 A4 A5 A6] [B1 B2 B3 B4 B5 B6]. split; try congruence.
  - rewrite B1, A1. set_solver.
  - rewrite B4, A4. done.
  - intros q [->|Hq]%elem_of_cons Hr; [|auto]. rewrite B6 by auto. apply A5; [set_solver|done].
  - intros q Hq. rewrite B6, A6; set_solver.
Qed.

Lemma direct_page img p s (d : S) :
  p ∈ io_map s ->
  exists s1, (if bool_decide (p ∈ resave) then ret tt else place_page no_direct raw search_fuel 2 p (img p)) (s, d) =
      Some ((s1, d), tt) /\ placed img [p] s s1 /\ io_count s1 = io_count s.
Proof.
  intros Hp. case_bool_decide as Hr.
  - exists s. split; [done|]. split; [|done]. split; try done; [set_solver|by destruct (image_memory s)|set_solver].
  - unfold place_page. cbn [Z.eqb Pos.eqb negb orb]. cbv zeta. rewrite bool_decide_eq_true_2 by done.
    eexists. split; [reflexivity|]. split; [|done]. split; simpl; try done; [set_solver|..].
    + intros q ->%list_elem_of_singleton _. apply fn_lookup_insert.
    + intros q Hq. apply fn_lookup_insert_ne. set_solver.
Qed.

Lemma read_direct_spec (img : Z -> page) (rest : list Z) (more : list (Z * page)) (fuel : nat) (buffer : page) (s : io) (d : S) :
  rest <> [] -> NoDup rest -> (length rest <= fuel)%nat -> list_to_set rest ⊆ io_map s ->
  io_count s = Z.of_nat (length rest) -> toi_io_workers s = 1 ->
  holds d (map (fun p => (p, img p)) rest ++ more) -> full_page buffer ->
  exists s' d', read_loop resave no_direct false raw search_fuel fuel 2 buffer (s, d) = Some ((s', d'), Broken) /\
    holds d' more /\ placed img rest s s'.
Proof using HR.
  revert rest buffer s d. induction fuel as [|fuel IH]; intros [|p rest] buffer s d Hne Hnd Hf Hm Hc Hw Hd Hbuf;
    try done; cbn [length] in Hf; [lia|].
  apply NoDup_cons in Hnd as [Hpr Hnd].
  simpl in Hd. destruct (read_given d p (img p) _ buffer Hd Hbuf) as (Hfp & d1 & Er & Hd1).
  cbn [read_loop]. unfold put, my, modify, get, lift, bind. cbn [fst snd]. rewrite Er, Z.eqb_refl. cbn [Z.eqb negb].
  set (s0 := s {{ io_count := io_count s - 1 }}).
  destruct (direct_page img p s0 d1) as (s1 & -> & Hpl & Hc1); [change (p ∈ io_map s); set_solver|].
  cbn [fst snd]. rewrite Hc1, (pl_workers _ _ _ _ Hpl). change (io_count s0) with (io_count s - 1).
  change (toi_io_workers s0) with (toi_io_workers s). rewrite Hc, Hw. cbn [length].
  assert (placed img [p] s s1) as Hpl' by (by destruct Hpl; split).
  destruct (Z.leb_spec 1 (Z.of_nat (Datatypes.S (length rest)) - 1)) as [Hr|Hr].
  - destruct (IH rest (img p) s1 d1) as (s' & d' & -> & G1 & G2); auto.
    + intros ->. simpl in Hr. lia.
    + lia.
    + rewrite (pl_map _ _ _ _ Hpl'). set_solver.
    + rewrite Hc1. change (io_count s0) with (io_count s - 1). rewrite Hc. cbn [length]. lia.
    + by rewrite (pl_workers _ _ _ _ Hpl').
    + exists s', d'. split_and!; auto. by eapply placed_cons.
  - destruct rest as [|]; [|simpl in Hr; lia]. by exists s1, d1.
Qed.

Context (aborted : S -> bool) (note_checksum : Z -> page -> M S Z).

(** The loop over the first [n] frames of a map: it succeeds when none of
    them was saved again, and otherwise ends with work left in [io_map]. *)
Lemma read_pages_direct (img : Z -> page) (n : nat) (pageflags : gset Z) more (fuel : nat) (buffer : page) (s : io) (d : S) :
  let todo := take n (walk pageflags) in
  (0 < n <= size pageflags)%nat -> (n <= fuel)%nat -> toi_io_workers s = 0 -> full_page buffer ->
  holds d (map (fun p => (p, img p)) todo ++ more) ->
  let run := do_rw_loop aborted note_checksum finish_all_io ps1 resave no_direct false raw search_fuel
      fuel false (Z.of_nat n) pageflags 2 buffer (s, d) in
  ((forall p, p ∈ todo -> p ∉ resave) ->
     exists s' d', run = Some ((s', d'), 0) /\ holds d' more /\ toi_io_workers s' = 0 /\
       (forall p, p ∈ todo -> memory_of (image_memory s') p = Data (img p)) /\
       (forall q, q ∉ todo -> memory_of (image_memory s') q = memory_of (image_memory s) q)) /\
  ((forall d' l, holds d' l -> aborted d' = false) -> forall p, p ∈ todo -> p ∈ resave -> run = None).
Proof using HR.
  intros todo [Hn Hsz] Hf Hw Hbuf Hd run.
  assert (length todo = n) as Hlt by (unfold todo; rewrite length_take, length_walk; lia).
  set (s0 := (set_up ps1 (Z.of_nat n) pageflags s) {{ toi_io_workers := 1 }}).
  assert (io_map s0 = list_to_set todo) as Hm0 by (unfold s0, set_up, todo; simpl; by rewrite Nat2Z.id).
  destruct (read_direct_spec img todo more fuel buffer s0 d) as (s1 & d1 & El & Hd1 & [A1 A2 A3 A4 A5 A6]); auto; try done.
  { intros E. rewrite E in Hlt. simpl in Hlt. lia. }
  { unfold todo. apply (NoDup_part _ (walk pageflags)); [apply walk_NoDup|]. apply submseteq_take. }
  { lia. }
  { by rewrite Hm0. }
  { unfold s0, set_up. simpl. lia. }
  destruct (read_finish _ _ Hd1) as (d2 & r & Ef & Hd2). split.
  - intros Hno. exists (s1 {{ toi_io_workers := 0 }}), d2. split; [|split_and!; auto; intros q Hq; rewrite A6; auto].
    apply (do_rw_loop_done aborted note_checksum finish_all_io ps1 resave no_direct raw search_fuel fuel false
      n pageflags 2 buffer s d s1 d1 d2 r); auto; rewrite A1, Hm0. set_solver.
  - intros Hab p Hp Hr. unfold run. apply (do_rw_loop_left aborted note_checksum finish_all_io ps1 resave no_direct raw
      search_fuel fuel n pageflags 2 buffer s d s1 d1 d2 r); eauto. rewrite A1, Hm0. set_solver.
Qed.
End Direct.
