(* ===== verification/Pipeline.v ===== *)
(** * The pipeline of a cycle

    The page drivers of the other files put together the way
    kernel/power/tuxonice_io.c finds them: pages go from the I/O loop to the
    compression filter (tuxonice_compress.c) and from there to the block I/O
    layer (tuxonice_block_io.c), which both storage allocators export as
    their own; the digests of pageset 2 are kept on the way
    (tuxonice_checksum.c).  The classes [WriteDriver] and [ReadDriver] are
    discharged for it. *)

From S2P Require Import Prelude States BlockIO BlockIOFacts BlockIORead Compression CompressionFacts Checksum ChecksumFacts.
From S2P Require Import Extents BitmapSet Pbes ImageIO ImageIOFacts.
From stdpp Require Import numbers base list gmap.
#[local] Open Scope Z_scope.
#[local] Open Scope step_scope.
#[local] Arguments Z.to_nat : simpl never.
#[local] Arguments Nat.mul : simpl never.

(** The states of the modules, and the processor the I/O thread runs on. *)
Record pipeline := Pipeline {
  on_cpu : nat;
  in_checksums : checksum_state;
  in_compress : compress_state;
  in_bio : bio_state
}.

#[export] Instance pipeline_eta : Eta pipeline := fun d =>
  Pipeline (on_cpu d) (in_checksums d) (in_compress d) (in_bio d).

Definition with_bio {A} (m : M bio_state A) : M pipeline A := fun d =>
  match m (in_bio d) with Some (st, a) => Some (d {{ in_bio := st }}, a) | None => None end.

Definition with_filter {A} (m : nat -> M (compress_state * bio_state) A) : M pipeline A := fun d =>
  match m (on_cpu d) (in_compress d, in_bio d) with
  | Some ((c, st), a) => Some (d {{ in_compress := c; in_bio := st }}, a)
  | None => None
  end.

(** The first filter, over the block layer. *)
#[export] Instance pipeline_driver : PageDriver pipeline := {
  write_page i b n := with_filter (fun cpu => toi_compress_write_page cpu i b n);
  read_page b := with_filter (fun cpu => toi_compress_read_page cpu b);
  abort_io := with_bio abort_io
}.

(** A page of pageset 2 gets the next slot and its digest is stored there. *)
Definition note_checksum (digest : page -> Z * list Z) (pfn : Z) (bytes : page) : M pipeline Z := fun d =>
  '(ck, locn) ← tuxonice_get_next_checksum (in_checksums d);
  '(ck, r) ← tuxonice_calc_checksum digest (on_cpu d) bytes locn ck;
  Some (d {{ in_checksums := ck }}, r).

Definition pipeline_aborted (d : pipeline) : bool := test_result_state TOI_ABORTED (toi_result (in_bio d)).

Definition pipeline_finish : M pipeline Z := with_bio toi_finish_all_io.

Definition abort_with (reason : result_flag) : M pipeline unit := with_bio (modify (fun st =>
  st {{ toi_result := abort_hibernate (ui_loaded st) reason (toi_result st) }})).

Definition set_abort_with (reason : result_flag) : M pipeline unit := with_bio (modify (fun st =>
  st {{ toi_result := set_abort_result reason (toi_result st) }})).

(** The operations of the filter and of the allocator that frame a stream. *)
Definition compress_module : rw_module pipeline :=
  RwModule pipeline true
    (Some (fun writing _ d =>
       let '(c, r) := toi_compress_rw_init writing (in_compress d) in Some (d {{ in_compress := c }}, r)))
    None.

Definition bio_module : rw_module pipeline :=
  RwModule pipeline true (Some (fun writing stream => with_bio (toi_rw_init writing stream)))
    (Some (fun writing => with_bio (toi_rw_cleanup writing))).

(** ** The modules around a stream *)

Lemma rw_init_pipeline abort set_abort writing s d st1 :
  toi_compress_prepare_result (in_compress d) = 0 -> toi_rw_init writing s (in_bio d) = Some (st1, 0) ->
  rw_init_modules abort set_abort [compress_module] [] bio_module writing s d = Some (d {{ in_bio := st1 }}, 0).
Proof.
  intros Hp Hi. unfold rw_init_modules, init_each, bind, compress_module. cbn [rw_init rw_enabled].
  unfold toi_compress_rw_init. rewrite Hp. cbn [Z.eqb ret negb]. cbn [rw_init bio_module].
  unfold with_bio. change (in_bio (d {{ in_compress := in_compress d }})) with (in_bio d). rewrite Hi. by destruct d.
Qed.

Lemma rw_cleanup_pipeline writing d st1 :
  toi_rw_cleanup writing (in_bio d) = Some (st1, 0) ->
  rw_cleanup_modules [compress_module] [] bio_module writing d = Some (d {{ in_bio := st1 }}, 0).
Proof.
  intros Hc. unfold rw_cleanup_modules, cleanup_each, bind, compress_module. cbn [rw_cleanup ret].
  cbn [rw_cleanup bio_module]. unfold with_bio. by rewrite Hc.
Qed.

(** ** Taking pages *)

Lemma store_checksums_app digest cpu contents l l' ck ck' r :
  store_checksums digest cpu contents (l ++ l') ck = Some (ck', r) ->
  forall ck1, store_checksums digest cpu contents l ck = Some (ck1, 0) ->
  store_checksums digest cpu contents l' ck1 = Some (ck', r).
Proof.
  revert ck. induction l as [|p l IH]; intros ck Hall ck1; [by intros [= <-]|].
  cbn [app store_checksums] in *. destruct (tuxonice_get_next_checksum ck) as [[ck2 locn]|]; [|done].
  cbn [mbind option_bind] in *. destruct (tuxonice_calc_checksum _ _ _ _ _) as [[ck3 r3]|]; [|done].
  cbn [mbind option_bind] in *. destruct (Z.eqb_spec r3 0); [by apply IH|]. by intros [= _ ?].
Qed.

Lemma store_checksums_snoc digest cpu contents l p ck ck1 :
  store_checksums digest cpu contents l ck = Some (ck1, 0) ->
  store_checksums digest cpu contents (l ++ [p]) ck = store_checksums digest cpu contents [p] ck1.
Proof.
  revert ck. induction l as [|q l IH]; intros ck; [by intros [= <-]|].
  cbn [app store_checksums]. destruct (tuxonice_get_next_checksum ck) as [[ck2 locn]|]; [|done].
  cbn [mbind option_bind]. destruct (tuxonice_calc_checksum _ _ _ _ _) as [[ck3 r3]|]; [|done].
  cbn [mbind option_bind]. destruct (Z.eqb_spec r3 0); [by apply IH|]. by intros [= _ ?].
Qed.

(** The filter is ready on the processor used. *)
Record filter_ready (alg : comp_alg) (d : pipeline) : Prop := {
  fr_ready : ready alg (in_compress d);
  fr_cpu : (on_cpu d < length (contexts (in_compress d)))%nat;
  fr_prepared : toi_compress_prepare_result (in_compress d) = 0
}.

Section Taking.
Context (alg : comp_alg) (Hloss : Lossless alg) (digest : page -> Z * list Z).

(** The stream [s] of the block layer, opened at [p0]; its tape has the pages
    [all]. *)
Context (s : Z) (st : bio_state) (p0 : toi_extent_iterate_state) (all : list cell) (vend : Z * list cell).
Context (Hready : stream_ready s st p0) (Hab : test_result_state TOI_ABORTED (toi_result st) = false).
Context (Hall : pages (toi_devinfo st) (start_of p0) all vend).

(** The pages of the frames [L] are to be written. *)
Context (contents : Z -> page) (L : list Z) (ck0 ck1 : checksum_state) (cpu : nat).
Abbreviation page_of := (fun p => (p, contents p)).
Context (HL : Forall (fun p => 0 <= p < 2 ^ 64 /\ full_page (contents p)) L).
Context (Hroom : ((12 + Z.to_nat PAGE_SIZE) * length L <= Z.to_nat PAGE_SIZE * length all)%nat).
Context (Hstore : if s =? 2 then store_checksums digest cpu contents L ck0 = Some (ck1, 0) else ck1 = ck0).

Definition fitting (l : list (Z * page)) : Prop := l `prefix_of` map page_of L.

Definition noted (l : list (Z * page)) (ck : checksum_state) : Prop :=
  if s =? 2 then store_checksums digest cpu contents (map fst l) ck0 = Some (ck, 0) else ck = ck0.

Record has_written (d : pipeline) (l : list (Z * page)) : Prop := {
  hw_cpu : on_cpu d = cpu;
  hw_filter : filter_ready alg d;
  hw_noted : noted l (in_checksums d);
  hw_sent : exists es, Forall2 (sent alg) l es /\ opened s st p0 (in_bio d) (image_bytes es)
}.

Lemma fitting_wf l : fitting l ->
  Forall (fun p => 0 <= fst p < 2 ^ 64) l /\ Forall (fun p => full_page (snd p)) l /\
  ((12 + Z.to_nat PAGE_SIZE) * length l <= Z.to_nat PAGE_SIZE * length all)%nat.
Proof using HL Hroom.
  intros [rest E].
  assert (Forall (fun p => 0 <= fst p < 2 ^ 64 /\ full_page (snd p)) (map page_of L)) as Hf by (by apply Forall_fmap).
  rewrite E in Hf. apply Forall_app in Hf as [Hf _].
  assert (length L = length l + length rest)%nat as Hl by (rewrite <- length_app, <- E; by rewrite length_map).
  split_and!; [eapply Forall_impl; [exact Hf|]; naive_solver..|]. nia.
Qed.

Lemma fitting_frame l i b : fitting (l ++ [(i, b)]) ->
  b = contents i /\ exists more, L = (map fst l ++ [i]) ++ more.
Proof.
  intros [rest E]. assert ((i, b) ∈ map page_of L) as Hi by (rewrite E; set_solver).
  split; [apply list_elem_of_In, in_map_iff in Hi as (? & [= <- <-] & _); done|].
  exists (map fst rest). apply (f_equal (map fst)) in E. rewrite !map_app, map_map in E. simpl in E.
  rewrite map_id in E. done.
Qed.

Lemma note_ok d l i b : noted l (in_checksums d) -> on_cpu d = cpu -> fitting (l ++ [(i, b)]) ->
  exists ck, noting s (note_checksum digest) i b d = Some (d {{ in_checksums := ck }}, 0) /\ noted (l ++ [(i, b)]) ck.
Proof using All.
  unfold noted, noting. intros Hn Hc (-> & more & HLm)%fitting_frame. destruct (s =? 2).
  - assert (store_checksums digest cpu contents ([i] ++ more) (in_checksums d) = Some (ck1, 0)) as Hm.
    { eapply store_checksums_app; [|exact Hn]. by rewrite app_assoc, <- HLm. }
    assert (store_checksums digest cpu contents (map fst (l ++ [(i, contents i)])) ck0 =
      store_checksums digest cpu contents [i] (in_checksums d)) as Es
      by (rewrite map_app; by apply store_checksums_snoc).
    enough (exists ck, note_checksum digest i (contents i) d = Some (d {{ in_checksums := ck }}, 0) /\
      store_checksums digest cpu contents [i] (in_checksums d) = Some (ck, 0)) as (ck & ? & ?) by (exists ck; by rewrite Es).
    unfold note_checksum. cbn [app store_checksums] in *.
    destruct (tuxonice_get_next_checksum _) as [[ck2 locn]|]; [|done].
    cbn [mbind option_bind] in *. rewrite Hc. destruct (tuxonice_calc_checksum _ _ _ _ _) as [[ck3 r3]|]; [|done].
    cbn [mbind option_bind] in *. destruct (Z.eqb_spec r3 0) as [E3|]; [|by injection Hm]. subst r3. by exists ck3.
  - exists (in_checksums d). split; [by destruct d|done].
Qed.

#[export] Instance pipeline_writes :
  WriteDriver pipeline_aborted (noting s (note_checksum digest)) pipeline_finish fitting has_written.
Proof using All.
  assert (s <> 0) as Hs0 by (destruct (sr_stream _ _ _ Hready); lia). split.
  - intros l l' [r E]. exists (l' ++ r). by rewrite app_assoc.
  - intros d l i b [Hc [Hrd Hcp Hpr] Hn (es & Hs & Hop)] Hfit.
    destruct (note_ok d l i b Hn Hc Hfit) as (ck & En & Hn').
    destruct (fitting_wf _ Hfit) as (Hpf & Hfl & Hcap). apply Forall_app in Hfl as [_ [Hb _]%Forall_cons_1]. simpl in Hb.
    destruct (compress_write_one alg (in_compress d) (on_cpu d) i b Hrd Hcp Hb)
      as (c' & data & size & Hsent & Hrd' & Hl' & Hp' & Hw).
    assert (Forall2 (sent alg) (l ++ [(i, b)]) (es ++ [(i, data, size)])) as Hs' by (by apply Forall2_app; [|constructor]).
    destruct (sent_wf alg _ _ Hs' Hpf) as [_ Hlen].
    assert (image_bytes (es ++ [(i, data, size)]) = image_bytes es ++ record_bytes i data size) as Hib
      by (unfold image_bytes; rewrite flat_map_app; simpl; by rewrite app_nil_r).
    rewrite Hib, length_app in Hlen.
    destruct (bio_write_page_spec _ _ (in_bio d) _ i data size all vend (op_written _ _ _ _ _ Hop)) as (st' & Ew & Hwr & Hk);
      rewrite ?(op_dev _ _ _ _ _ Hop), ?(op_stream _ _ _ _ _ Hop), ?(op_result _ _ _ _ _ Hop); auto; [apply Hready|lia|].
    exists (d {{ in_checksums := ck }}), (d {{ in_checksums := ck; in_compress := c'; in_bio := st' }}).
    split; [done|]. split.
    + pose proof (Hw _ _ _ Ew) as Ew'. change ((match toi_compress_write_page (on_cpu d) i b PAGE_SIZE (in_compress d, in_bio d) with
        | Some ((c, st2), a) => Some (d {{ in_checksums := ck; in_compress := c; in_bio := st2 }}, a) | None => None end) =
        Some (d {{ in_checksums := ck; in_compress := c'; in_bio := st' }}, 0)). by rewrite Ew'.
    + split; [done|split; simpl; [done|lia|congruence]|done|].
      exists (es ++ [(i, data, size)]). split; [done|]. rewrite Hib. by eapply opened_kept.
  - intros d l [_ _ _ (es & _ & Hop)]. unfold pipeline_aborted. by rewrite (op_result _ _ _ _ _ Hop).
  - intros d l [Hc Hf Hn (es & Hs & Hop)] Hfit. destruct (fitting_wf _ Hfit) as (Hpf & _ & Hcap).
    destruct (sent_wf alg _ _ Hs Hpf) as [_ Hlen]. pose proof (op_written _ _ _ _ _ Hop) as Hw.
    pose proof (written_queued _ _ _ _ Hw) as (pre & buf & Hq & _ & _ & _ & Hpre).
    apply (f_equal length) in Hpre. rewrite length_app in Hpre.
    destruct (flush_queued_total _ _ _ _ all vend Hq) as (st' & Ef);
      rewrite ?(op_dev _ _ _ _ _ Hop), ?(op_stream _ _ _ _ _ Hop); auto; [lia|].
    destruct (flush_written (the_disk st) (start_of p0) (in_bio d) st' (image_bytes es) Hw) as (Hw' & Hk & _);
      [rewrite (op_dev _ _ _ _ _ Hop); apply Hready|done|].
    exists (d {{ in_bio := st' }}), 0. unfold pipeline_finish, with_bio, toi_finish_all_io. rewrite Ef.
    split; [done|]. split; try done; [by destruct Hf|]. exists es. split; [done|]. by eapply opened_kept.
Qed.

(** Writing the pages through the pipeline and closing the stream. *)
Lemma pageset_saved abort set_abort abort_cleanup ps1 ps2 resave no_direct raw search_fuel fuel (pageflags copies : gset Z)
    (m : Z -> page) buffer (x : io) (d : pipeline) :
  let todo := take (length L) (walk pageflags) in
  s = 1 /\ pageflags = copies \/ s = 2 /\ pageflags = ps2 ->
  on_cpu d = cpu -> filter_ready alg d -> in_checksums d = ck0 -> in_bio d = st ->
  memory_of (image_memory x) = (fun p => Data (m p)) -> toi_io_workers x = 0 ->
  (length L <= size pageflags)%nat -> (length L <= fuel)%nat ->
  (if s =? 1 then walk ps1 = L else todo = L) -> map m todo = map contents L ->
  exists x' d' cells es,
    write_pageset pipeline_aborted (note_checksum digest) pipeline_finish abort set_abort abort_cleanup ps1 ps2 resave
      no_direct false raw search_fuel fuel [compress_module] [] bio_module s (Z.of_nat (length L)) copies false buffer (x, d)
      = Some ((x', d'), 0) /\
    Forall2 (sent alg) (map page_of L) es /\ finished s st p0 all (image_bytes es) (in_bio d') cells /\
    on_cpu d' = cpu /\ filter_ready alg d' /\ in_checksums d' = ck1 /\
    toi_io_workers x' = 0 /\ image_memory x' = image_memory x.
Proof using All.
  intros todo Hmap Hcpu Hfr Hck Hbio Hmem Hw Hn Hf Hsrc Hcont.
  destruct (rw_init_write s st p0 Hready) as (st1 & Hi & Hop).
  assert (zip L (map m todo) = map page_of L) as Hz.
  { rewrite Hcont. clear. induction L; [done|]. simpl. by f_equal. }
  destruct (write_pages_spec pipeline_aborted (note_checksum digest) pipeline_finish s fitting has_written ps1 resave
    no_direct raw search_fuel m (length L) pageflags L fuel buffer x (d {{ in_bio := st1 }}))
    as (x1 & d1 & Ew & [Hc1 Hfr1 Hn1 (es & Hs & Hop1)] & Hw1 & Hi1); auto.
  { split; try done; [by destruct Hfr|unfold noted; change (in_checksums (d {{ in_bio := st1 }})) with (in_checksums d); rewrite Hck; by destruct (s =? 2)|]. exists []. by split. }
  { fold todo. rewrite Hz. by exists []; rewrite app_nil_r. }
  fold todo in Hs, Hn1. rewrite Hz in Hs, Hn1.
  destruct (sent_wf alg _ _ Hs) as [_ Hlen].
  { apply Forall_fmap. eapply Forall_impl; [exact HL|]. by intros ? []. }
  rewrite length_map in Hlen.
  destruct (rw_cleanup_closed s st p0 (in_bio d1) (image_bytes es) all vend) as (st3 & cells & Hcl & Hfin); auto; [lia|].
  exists x1, (d1 {{ in_bio := st3 }}), cells, es. split_and!; auto; [|by destruct Hfr1|].
  - unfold write_pageset, lift, bind.
    rewrite (rw_init_pipeline _ _ _ _ d st1); [|by destruct Hfr|by rewrite Hbio]. cbn [Z.eqb negb].
    assert ((if s =? 1 then if false then ps1 else copies else ps2) = pageflags) as -> by (by destruct Hmap as [[-> ->]|[-> ->]]).
    rewrite Ew, (rw_cleanup_pipeline true d1 st3 Hcl). done.
  - unfold noted in Hn1. simpl. rewrite map_map, map_id in Hn1. by destruct (s =? 2); congruence.
Qed.
End Taking.

(** ** Giving pages *)

Section Giving.
Context (alg : comp_alg) (Hloss : Lossless alg) (result : Z).

(** The pages [l] are still to come; [result] is toi_result. *)
Record gives (d : pipeline) (l : list (Z * page)) : Prop := {
  gv_filter : filter_ready alg d;
  gv_result : toi_result (in_bio d) = result;
  gv_pending : exists es, Forall2 (sent alg) l es /\
    Forall (fun p => 0 <= fst p < 2 ^ 64 /\ full_page (snd p)) l /\ pending false (in_bio d) (image_bytes es)
}.

Lemma gives_queue d l : gives d l -> bio_queue (in_bio d) = [].
Proof. intros [_ _ (es & _ & _ & cells & pgs & buf & tail & Hinv & _)]. apply Hinv. Qed.

#[export] Instance pipeline_reads : ReadDriver pipeline_finish gives.
Proof using Hloss.
  split.
  - intros d i b l buffer [[Hrd Hcp Hpr] Hres (es & Hs & Hwf & Hp)] Hbuf.
    apply Forall_cons_1 in Hwf as [[Hi Hb] Hwf]. simpl in Hi, Hb. split; [done|].
    inversion Hs as [|? [[i' data] size] ? es' Hse Hs']; subst. assert (i' = i) as -> by apply Hse.
    pose proof Hse as (_ & Hfd & Hsz). unfold full_page in Hfd.
    assert (0 <= size <= PAGE_SIZE) as Hsize by (unfold PAGE_SIZE in *; lia).
    cbn [image_bytes flat_map] in Hp. fold (image_bytes es') in Hp.
    destruct (bio_read_page_spec (in_bio d) i data size (image_bytes es') Hp) as (st' & Er & Hp' & Hk); auto;
      [unfold PAGE_SIZE in *; lia..|].
    destruct (compress_read_one alg (in_compress d) (on_cpu d) buffer (in_bio d) st' i b data size)
      as (c' & Ec & Hrd' & Hl' & Hpr'); auto.
    exists (d {{ in_compress := c'; in_bio := st' }}). split.
    + change (match toi_compress_read_page (on_cpu d) buffer (in_compress d, in_bio d) with
        | Some ((c, st), a) => Some (d {{ in_compress := c; in_bio := st }}, a) | None => None end =
        Some (d {{ in_compress := c'; in_bio := st' }}, (i, PAGE_SIZE, b, 0))). by rewrite Ec.
    + split; [split; simpl; [done|lia|congruence]|simpl; by rewrite (rk_result _ _ Hk)|]. by exists es'.
  - intros d l Hg. exists d, 0. split; [|done]. unfold pipeline_finish, with_bio, toi_finish_all_io, toi_bio_queue_flush_pages, bind, get.
    rewrite (gives_queue _ _ Hg). by destruct d.
Qed.
End Giving.

(** Opening and closing a stream for reading. *)
Lemma stream_opens alg abort set_abort s cells l es d :
  filter_ready alg d -> closed s cells (in_bio d) (image_bytes es) -> idle (in_bio d) -> Forall2 (sent alg) l es ->
  Forall (fun p => 0 <= fst p < 2 ^ 64 /\ full_page (snd p)) l ->
  exists st1, rw_init_modules abort set_abort [compress_module] [] bio_module false s d = Some (d {{ in_bio := st1 }}, 0) /\
    gives alg (toi_result (in_bio d)) (d {{ in_bio := st1 }}) l.
Proof.
  intros Hfr Hcl Hid Hs Hwf. destruct (closed_open s cells (in_bio d) _ Hcl Hid) as (st1 & Hi & Hp & _ & _ & _ & Hr & _).
  exists st1. split; [apply rw_init_pipeline; [by destruct Hfr|done]|].
  split; [by destruct Hfr|done|]. by exists es.
Qed.

Lemma stream_closes alg result d l :
  gives alg result d l ->
  exists st1, rw_cleanup_modules [compress_module] [] bio_module false d = Some (d {{ in_bio := st1 }}, 0).
Proof.
  intros Hg. exists ((in_bio d) {{ readahead_list := []; current_stream := 0 }}). apply rw_cleanup_pipeline.
  change (toi_rw_cleanup false (in_bio d)) with
    ((r <-- toi_finish_all_io;; modify (fun st => st {{ readahead_list := []; current_stream := 0 }});;; ret r) (in_bio d)).
  unfold toi_finish_all_io, toi_bio_queue_flush_pages, bind, get. by rewrite (gives_queue _ _ _ _ Hg).
Qed.
