(* ===== verification/WholeImage.v ===== *)
(** * An image from end to end

    Pageset 2 is written while the machine runs, the atomic copy is made and
    pageset 1 is written from it; a booting kernel loads pageset 1 and the
    restore puts it in place; the resumed kernel then loads pageset 2.  The
    theorems follow every page along this way, through the I/O loop, the
    compression filter, the block layer and the disk, and show what happens
    when the attempt is given up after the atomic copy. *)

From S2P Require Import Prelude States Extents BlockIO BlockIOFacts BlockIORead Compression CompressionFacts Checksum ChecksumFacts.
From S2P Require Import BitmapSet Pbes PbesFacts PbeRestore ImageIO ImageIOFacts Pipeline.
From stdpp Require Import numbers base list gmap functions sorting sets.
#[local] Open Scope Z_scope.
#[local] Open Scope step_scope.
#[local] Arguments Z.to_nat : simpl never.
#[local] Arguments Nat.mul : simpl never.

(** ** The two directions *)

Section Directions.
Context (digest : page -> Z * list Z) (no_direct : bool) (raw : list Z -> list pbe) (search_fuel fuel : nat).
Context (remove_image : M pipeline unit) (ps1 ps2 : gset Z).

(** [write_pageset], with the modules of [Pipeline]. *)
Definition save_pageset (copies : gset Z) (id : Z) (n : nat) (buffer : page) : M (io * pipeline) Z :=
  write_pageset pipeline_aborted (note_checksum digest) pipeline_finish (abort_with TOI_FAILED_MODULE_INIT)
    (set_abort_with TOI_FAILED_MODULE_INIT) (abort_with TOI_FAILED_MODULE_CLEANUP) ps1 ps2 ∅ no_direct false raw search_fuel
    fuel [compress_module] [] bio_module id (Z.of_nat n) copies false buffer.

(** [read_pageset]; [resave] is the map of the pages that were saved again. *)
Definition load_pageset (resave : gset Z) (id : Z) (overwrittenpagesonly : bool) (buffer : page) : M (io * pipeline) Z :=
  read_pageset pipeline_aborted (note_checksum digest) pipeline_finish (abort_with TOI_FAILED_MODULE_INIT)
    (set_abort_with TOI_FAILED_MODULE_INIT) (abort_with TOI_FAILED_MODULE_CLEANUP) remove_image ps1 ps2 resave no_direct
    false raw search_fuel fuel [compress_module] [] bio_module id (Z.of_nat (size ps1)) (Z.of_nat (size ps2))
    overwrittenpagesonly buffer.
End Directions.

(** A kernel that can read the image: devices, extents and saved positions as
    in [st], and the pages [all] as on the disk [dk]. *)
Record sees (st : bio_state) (dk : disk) (all : list cell) (r : bio_state) : Prop := {
  se_dev : toi_devinfo r = toi_devinfo st;
  se_saves : toi_writer_posn_save r = toi_writer_posn_save st;
  se_chains : map chain_exts (it_chains (toi_writer_posn r)) = map chain_exts (it_chains (toi_writer_posn st));
  se_idle : idle r;
  se_disk : Forall (fun c => let a := place (toi_devinfo st) c in
    disk_read (the_disk r) (fst a) (snd a) = disk_read dk (fst a) (snd a)) all
}.

Lemma sees_closed s cells st dk all r acc :
  closed s cells st acc -> sees st dk all r -> (forall c, c ∈ cells -> c ∈ all) ->
  Forall (fun c => let a := place (toi_devinfo st) c in
    disk_read dk (fst a) (snd a) = disk_read (the_disk st) (fst a) (snd a)) cells ->
  closed s cells r acc.
Proof.
  intros Hcl [Hd Hs Hc _ Hdk] Hin Hsame.
  apply (closed_relocated s cells st); auto; rewrite ?Hs; auto; [apply Hcl|].
  rewrite Forall_forall in Hdk, Hsame. apply Forall_forall. intros c Hcc. simpl in *. by rewrite Hdk, Hsame by auto.
Qed.

(** The pages of a pageset, as the image has them. *)
Definition wf_frames (l : list Z) (m : Z -> page) : Prop := Forall (fun p => 0 <= p < 2 ^ 64 /\ full_page (m p)) l.

Lemma wf_frames_pages l m :
  wf_frames l m -> Forall (fun p => 0 <= fst p < 2 ^ 64 /\ full_page (snd p)) (map (fun p => (p, m p)) l).
Proof. intros H. by apply Forall_fmap. Qed.

(** ** Loading *)

Section Loaded.
Context (alg : comp_alg) (Hloss : Lossless alg) (digest : page -> Z * list Z) (no_direct : bool) (raw : list Z -> list pbe).
Context (search_fuel fuel : nat) (remove_image : M pipeline unit) (ps1 ps2 : gset Z).

(** The booting kernel. *)
Lemma pageset1_loaded `{PagePool} (blank : Prop) (lo : loader) (img : Z -> page) (bkd : Z) (bytes : page) :
  (forall p, p ∈ ps1 -> 0 <= p) -> bkd ∈ ps1 -> can_load ps1 raw blank lo ->
  (size ps1 + size ps1 / PBES_PER_PAGE + 2 <= length (outside ps1 (pool lo)))%nat ->
  (PBES_PER_PAGE + size ps1 <= search_fuel)%nat -> (size ps1 <= fuel)%nat -> wf_frames (walk ps1) img ->
  exists lo1, toi_get_pageset1_load_addresses ps1 no_direct raw (Z.of_nat (size ps1)) lo = Some (lo1, 0) /\
    forall (buffer : page) (x : io) (d : pipeline) cells es,
      blank \/ (PBES_PER_PAGE <= length (to_map no_direct lo1 (walk ps1)))%nat ->
      full_page buffer -> image_memory x = lo1 -> toi_io_workers x = 0 ->
      filter_ready alg d -> closed 1 cells (in_bio d) (image_bytes es) -> idle (in_bio d) ->
      Forall2 (sent alg) (map (fun p => (p, img p)) (walk ps1)) es ->
      exists x' d' lo2 m,
        load_pageset digest no_direct raw search_fuel fuel remove_image ps1 ps2 ∅ 1 false buffer (x, d) = Some ((x', d'), 0) /\
        add_boot_kernel_data_pbe ps1 raw (page_address bkd) bytes (image_memory x') = Some (lo2, 0) /\
        core_restore_code (S (size ps1)) (restore_pblist lo2) (memory_of lo2) = Some m /\
        m bkd = Data bytes /\ forall p, p ∈ ps1 -> p <> bkd -> m p = Data (img p).
Proof using Hloss.
  intros Hps Hb Hcan Hroom Hsf Hf Hwf. 
  assert (forall result, ReadDriver pipeline_finish (gives alg result)) as HR by (intros; by apply pipeline_reads).
  assert (ps1 ## ∅) as Hdis by set_solver.
  pose proof (fun result => image_restored pipeline_aborted (note_checksum digest) pipeline_finish (gives alg result) ps1 ∅ no_direct raw
    blank search_fuel lo img bkd bytes Hps Hdis Hb Hcan Hroom Hsf) as Hall.
  destruct (Hall 0) as (lo1 & Elo & _). exists lo1. split; [done|].
  intros buffer x d cells es Hbl Hbuf Hx Hw Hfr Hcl Hid Hs.
  destruct (Hall (toi_result (in_bio d))) as (lo1' & Elo' & Hrun). rewrite Elo in Elo'. injection Elo' as <-.
  destruct (stream_opens alg (abort_with TOI_FAILED_MODULE_INIT) (set_abort_with TOI_FAILED_MODULE_INIT) 1 cells _ es d Hfr Hcl Hid Hs
    (wf_frames_pages _ _ Hwf)) as (st1 & Ei & Hg).
  destruct (Hrun (walk ps1) fuel buffer x _ Hbl (reflexivity _) Hf Hbuf Hx Hw Hg) as (x' & d1 & lo2 & m & Er & Hg1 & Ea & Ec & Hm).
  destruct (stream_closes alg _ _ _ Hg1) as (st2 & Ecl).
  exists x', (d1 {{ in_bio := st2 }}), lo2, m. split; [|done].
  unfold load_pageset, read_pageset, lift, bind. rewrite Ei. cbn [Z.eqb Pos.eqb negb].
  by rewrite Er, Ecl.
Qed.

(** Reading the first [n] pages of pageset 2, or all of them. *)
Lemma pageset2_loaded (resave : gset Z) (img : Z -> page) (overwritten : bool) (buffer : page) (x : io) (d : pipeline) cells es :
  let n := if overwritten then Nat.min (size ps1) (size ps2) else size ps2 in
  (n <= fuel)%nat -> wf_frames (walk ps2) img -> full_page buffer -> toi_io_workers x = 0 ->
  filter_ready alg d -> closed 2 cells (in_bio d) (image_bytes es) -> idle (in_bio d) ->
  Forall2 (sent alg) (map (fun p => (p, img p)) (walk ps2)) es ->
  let run := load_pageset digest no_direct raw search_fuel fuel remove_image ps1 ps2 resave 2 overwritten buffer (x, d) in
  ((forall p, p ∈ take n (walk ps2) -> p ∉ resave) ->
     exists x' d', run = Some ((x', d'), 0) /\ toi_io_workers x' = 0 /\
       (forall p, p ∈ take n (walk ps2) -> memory_of (image_memory x') p = Data (img p)) /\
       (forall q, q ∉ take n (walk ps2) -> memory_of (image_memory x') q = memory_of (image_memory x) q)) /\
  (test_result_state TOI_ABORTED (toi_result (in_bio d)) = false ->
     forall p, p ∈ take n (walk ps2) -> p ∈ resave -> run = None).
Proof using Hloss.
  intros n Hf Hwf Hbuf Hw Hfr Hcl Hid Hs run.
  pose proof (pipeline_reads alg Hloss (toi_result (in_bio d))) as HR.
  destruct (stream_opens alg (abort_with TOI_FAILED_MODULE_INIT) (set_abort_with TOI_FAILED_MODULE_INIT) 2 cells _ es d Hfr Hcl Hid Hs
    (wf_frames_pages _ _ Hwf)) as (st1 & Ei & Hg).
  assert ((if overwritten then Z.min (Z.of_nat (size ps1)) (Z.of_nat (size ps2)) else Z.of_nat (size ps2)) = Z.of_nat n) as Hn
    by (unfold n; destruct overwritten; lia).
  assert (n <= size ps2)%nat as Hn2 by (unfold n; destruct overwritten; lia).
  rewrite <- (take_drop n (walk ps2)), map_app in Hg.
  assert (run = ((result <-- do_rw_loop pipeline_aborted (note_checksum digest) pipeline_finish ps1 resave no_direct false raw
      search_fuel fuel false (Z.of_nat n) ps2 2 buffer;;
    c <-- lift (rw_cleanup_modules [compress_module] [] bio_module false);;
    if negb (c =? 0) && (result =? 0) then lift (abort_with TOI_FAILED_MODULE_CLEANUP);;; ret 1 else ret result) (x, d {{ in_bio := st1 }}))) as Erun.
  { unfold run, load_pageset, read_pageset, lift, bind. rewrite Ei. cbn [Z.eqb Pos.eqb negb]. by rewrite Hn. }
  rewrite Erun. unfold lift, bind. destruct (decide (n = 0)%nat) as [E0|E0].
  { rewrite E0 in *. simpl in Hg |- *. destruct (stream_closes alg _ _ _ Hg) as (st2 & ->). split; [|set_solver].
    intros _. eexists x, _. split; [reflexivity|]. split_and!; auto. set_solver. }
  destruct (read_pages_direct pipeline_finish (gives alg (toi_result (in_bio d))) ps1 resave no_direct raw search_fuel
    pipeline_aborted (note_checksum digest) img n ps2 _ fuel buffer x _ ltac:(lia) Hf Hw Hbuf Hg) as [Hok Hbug].
  split.
  - intros Hno. destruct (Hok Hno) as (x' & d' & -> & Hg' & Hrest). destruct (stream_closes alg _ _ _ Hg') as (st2 & ->). eauto 10.
  - intros Hab p Hp Hr. rewrite (Hbug ltac:(intros d' l' [_ Hrs _]; unfold pipeline_aborted; by rewrite Hrs) p Hp Hr). done.
Qed.
End Loaded.

(** ** Saving *)

Section Saved.
Context (alg : comp_alg) (Hloss : Lossless alg) (digest : page -> Z * list Z) (no_direct : bool) (raw : list Z -> list pbe).
Context (search_fuel fuel : nat) (ps1 ps2 copies : gset Z).

(** How much of a tape [n] pages may take. *)
Definition tape_room (n : nat) (all : list cell) : Prop := ((12 + Z.to_nat PAGE_SIZE) * n <= Z.to_nat PAGE_SIZE * length all)%nat.

Lemma pageset2_saved st p0 all vend before ck1 buffer (x : io) (d : pipeline) :
  stream_ready 2 st p0 -> test_result_state TOI_ABORTED (toi_result st) = false ->
  pages (toi_devinfo st) (start_of p0) all vend -> tape_room (size ps2) all -> wf_frames (walk ps2) before ->
  store_checksums digest (on_cpu d) before (walk ps2) (in_checksums d) = Some (ck1, 0) ->
  filter_ready alg d -> in_bio d = st ->
  memory_of (image_memory x) = (fun p => Data (before p)) -> toi_io_workers x = 0 -> (size ps2 <= fuel)%nat ->
  exists x' d' cells es,
    save_pageset digest no_direct raw search_fuel fuel ps1 ps2 copies 2 (size ps2) buffer (x, d) = Some ((x', d'), 0) /\
    Forall2 (sent alg) (map (fun p => (p, before p)) (walk ps2)) es /\
    finished 2 st p0 all (image_bytes es) (in_bio d') cells /\ on_cpu d' = on_cpu d /\ filter_ready alg d' /\
    in_checksums d' = ck1 /\ toi_io_workers x' = 0 /\ image_memory x' = image_memory x.
Proof using Hloss.
  intros Hsr Hab Hall Hroom Hwf Hck Hfr Hst Hmem Hw Hf. unfold save_pageset. rewrite <- (length_walk ps2) in Hf, Hroom |- *.
  assert (take (length (walk ps2)) (walk ps2) = walk ps2) as Ht by (by apply take_ge).
  apply (pageset_saved alg Hloss digest 2 st p0 all vend Hsr Hab Hall before (walk ps2) (in_checksums d) ck1 (on_cpu d) Hwf Hroom Hck
    _ _ _ _ _ _ _ _ _ _ ps2 copies before); auto; rewrite ?Ht; auto. by rewrite length_walk.
Qed.

(** From the memory [m1] the atomic copy left. *)
Lemma pageset1_saved st p0 all vend now m1 buffer (x : io) (d : pipeline) :
  stream_ready 1 st p0 -> test_result_state TOI_ABORTED (toi_result st) = false ->
  pages (toi_devinfo st) (start_of p0) all vend -> tape_room (size ps1) all -> wf_frames (walk ps1) now ->
  (size ps1 <= size copies)%nat ->
  zip (walk ps1) (map m1 (take (size ps1) (walk copies))) = map (fun p => (p, now p)) (walk ps1) ->
  filter_ready alg d -> in_bio d = st ->
  memory_of (image_memory x) = (fun p => Data (m1 p)) -> toi_io_workers x = 0 -> (size ps1 <= fuel)%nat ->
  exists x' d' cells es,
    save_pageset digest no_direct raw search_fuel fuel ps1 ps2 copies 1 (size ps1) buffer (x, d) = Some ((x', d'), 0) /\
    Forall2 (sent alg) (map (fun p => (p, now p)) (walk ps1)) es /\
    finished 1 st p0 all (image_bytes es) (in_bio d') cells /\ on_cpu d' = on_cpu d /\ filter_ready alg d' /\
    in_checksums d' = in_checksums d /\ toi_io_workers x' = 0 /\ image_memory x' = image_memory x.
Proof using Hloss.
  intros Hsr Hab Hall Hroom Hwf Hsz Hz Hfr Hst Hmem Hw Hf. unfold save_pageset.
  assert (map m1 (take (length (walk ps1)) (walk copies)) = map now (walk ps1)) as Hm.
  { apply (f_equal (map snd)) in Hz. rewrite map_map in Hz. cbn [snd] in Hz. rewrite length_walk.
    etransitivity; [|exact Hz]. symmetry. apply snd_zip. rewrite length_map, length_take, !length_walk. lia. }
  rewrite <- (length_walk ps1) in Hf, Hroom, Hsz |- *.
  apply (pageset_saved alg Hloss digest 1 st p0 all vend Hsr Hab Hall now (walk ps1) (in_checksums d) (in_checksums d) (on_cpu d) Hwf Hroom
    eq_refl _ _ _ _ _ _ _ _ _ _ copies copies m1); auto. done.
Qed.
End Saved.

(** ** The two streams on one tape *)

(** Pageset 1 fits behind pageset 2, and writing it leaves pageset 2 alone. *)
Lemma room_left alg `{Lossless alg} st p0 all acc st3 cells n1 n2 l es :
  finished 2 st p0 all acc st3 cells -> acc = image_bytes es -> Forall2 (sent alg) l es -> length l = n2 ->
  Forall (fun p => 0 <= fst p < 2 ^ 64) l ->
  ((12 + Z.to_nat PAGE_SIZE) * (n1 + n2) + Z.to_nat PAGE_SIZE <= Z.to_nat PAGE_SIZE * length all)%nat ->
  exists rest, all = cells ++ rest /\ tape_room n1 rest.
Proof.
  intros [_ [rest ->] Hlen] -> Hs Hl Hwf Hroom. exists rest. split; [done|].
  destruct (sent_wf alg _ _ Hs Hwf) as [_ Hb]. rewrite length_app in Hroom. unfold tape_room. rewrite Hl in Hb. nia.
Qed.

Lemma streams_apart st p0 all vend acc2 st2 cells2 acc1 st3 cells1 :
  stream_ready 2 st p0 -> pages (toi_devinfo st) (start_of p0) all vend ->
  finished 2 st p0 all acc2 st2 cells2 -> finished 1 st2 (toi_writer_posn st2) (drop (length cells2) all) acc1 st3 cells1 ->
  Forall (fun c => let a := place (toi_devinfo st2) c in
    disk_read (the_disk st3) (fst a) (snd a) = disk_read (the_disk st2) (fst a) (snd a)) cells2 /\
  (forall c, c ∈ cells1 -> c ∈ all) /\ (forall c, c ∈ cells2 -> c ∈ all).
Proof.
  intros Hsr Hall F2 F1. pose proof (fi_dev _ _ _ _ _ _ _ F2) as Hd. split_and!.
  - pose proof (fi_pages _ _ _ _ _ _ _ F1) as Hp1. rewrite Hd in Hp1.
    pose proof (layout_apart_cross _ _ _ _ _ _ (sr_apart _ _ _ Hsr) (fi_pages _ _ _ _ _ _ _ F2) Hp1) as Hx.
    eapply Forall_impl; [exact Hx|]. intros c Hc. apply (fi_frame _ _ _ _ _ _ _ F1). by rewrite Hd.
  - intros c Hc. destruct (fi_prefix _ _ _ _ _ _ _ F1) as [k E].
    assert (c ∈ drop (length cells2) all) as Hin by (rewrite E; set_solver).
    rewrite <- (take_drop (length cells2) all). set_solver.
  - intros c Hc. destruct (fi_prefix _ _ _ _ _ _ _ F2) as [k ->]. set_solver.
Qed.

(** ** What the atomic copy overwrites *)

Lemma copy_frames_take i sources dests m : copy_frames i sources (take i dests) m = copy_frames i sources dests m.
Proof.
  revert sources dests m. induction i as [|i IH]; intros [|p sources] [|q dests] m; try done. cbn [take copy_frames]. apply IH.
Qed.

Lemma copy_touches (ps1 copies : gset Z) (m : Z -> page) :
  ps1 ## copies -> (size ps1 <= size copies)%nat -> (forall p, full_page (m p)) ->
  exists m1, toi_copy_pageset1 (Z.of_nat (size ps1)) ps1 copies m = Some m1 /\
    forall p, p ∉ take (size ps1) (walk copies) -> m1 p = m p.
Proof.
  intros Hdis Hsz Hfull. unfold toi_copy_pageset1. rewrite Nat2Z.id, <- copy_frames_take.
  destruct (copy_frames_spec (size ps1) (walk ps1) (take (size ps1) (walk copies)) m) as (m1 & Em & _ & Hm1); eauto.
  - by rewrite length_walk.
  - rewrite length_take, length_walk. lia.
  - apply (NoDup_part _ (walk copies)); [apply walk_NoDup|]. apply submseteq_take.
  - intros p Hp%elem_of_walk (i & Hc & _)%elem_of_take. apply list_elem_of_lookup_2, elem_of_walk in Hc. set_solver.
Qed.

(** Of a subset in ascending order, what is among the first [n] of the whole
    is among its own first [n]. *)
Lemma first_of_sublist (l1 l2 : list Z) n p :
  l1 `sublist_of` l2 -> NoDup l2 -> p ∈ l1 -> p ∈ take n l2 -> p ∈ take n l1.
Proof.
  intros Hs. revert n. induction Hs as [|x l1 l2 Hs IH|x l1 l2 Hs IH]; intros n Hnd Hp Ht; [done|..];
    apply NoDup_cons in Hnd as [Hx Hnd]; destruct n as [|n]; [by apply elem_of_nil in Ht| |by apply elem_of_nil in Ht|].
  - cbn [take] in *. apply elem_of_cons in Hp as [->|Hp]; [left|]. right. apply IH; auto.
    apply elem_of_cons in Ht as [->|Ht]; [|done]. destruct Hx. by eapply elem_of_sublist.
  - cbn [take] in Ht. assert (p <> x) as Hne by (intros ->; apply Hx; by eapply elem_of_sublist).
    apply elem_of_cons in Ht as [->|Ht]; [done|]. apply IH in Ht; auto.
    eapply elem_of_subseteq; [|exact Ht]. intros q Hq. apply elem_of_take in Hq as (i & Hi & Hlt). apply elem_of_take. exists i. split; [done|lia].
Qed.

Lemma first_of_subset (whole part : gset Z) n p :
  part ⊆ whole -> p ∈ part -> p ∈ take n (walk whole) -> p ∈ take n (walk part).
Proof.
  intros Hsub Hp. apply first_of_sublist; [|apply walk_NoDup|by apply elem_of_walk].
  replace (walk part) with (filter (.∈ part) (walk whole)); [apply sublist_filter|].
  assert (forall l, StronglySorted Z.lt l -> StronglySorted Z.le l) as Hle.
  { induction 1 as [|y l _ IH Hy]; constructor; [done|]. eapply Forall_impl; [exact Hy|]. simpl. lia. }
  apply (StronglySorted_unique Z.le); [apply Hle, filter_sorted, walk_sorted|apply Hle, walk_sorted|].
  apply NoDup_Permutation; [apply list.NoDup_filter, walk_NoDup|apply walk_NoDup|].
  intros q. rewrite list_elem_of_filter, !elem_of_walk. set_solver.
Qed.

Section Whole.
Context (alg : comp_alg) (digest : page -> Z * list Z) (no_direct : bool) (raw : list Z -> list pbe).
Context (search_fuel fuel : nat) (remove_image : M pipeline unit) (ps1 ps2 copies : gset Z).
(** Memory while pageset 2 is written, and when the machine is stopped. *)
Context (before now : Z -> page).
(** The block layer, and the tape of the image. *)
Context (st : bio_state) (p0 : toi_extent_iterate_state) (all : list cell) (vend : Z * list cell).
Context (ck1 : checksum_state) (x : io) (d : pipeline) (buffer : page).
Context (Hloss : Lossless alg) (Hsame : forall p, p ∈ ps2 -> now p = before p) (Hfull : forall p, full_page (now p)).
Context (Hpfn : forall p, p ∈ ps1 ∪ ps2 -> 0 <= p < 2 ^ 64).
Context (Hready : stream_ready 2 st p0) (Hab : test_result_state TOI_ABORTED (toi_result st) = false).
Context (Hall : pages (toi_devinfo st) (start_of p0) all vend).
Context (Hroom : ((12 + Z.to_nat PAGE_SIZE) * (size ps1 + size ps2) + Z.to_nat PAGE_SIZE <= Z.to_nat PAGE_SIZE * length all)%nat).
Context (Hck : store_checksums digest (on_cpu d) before (walk ps2) (in_checksums d) = Some (ck1, 0)).
Context (Hfr : filter_ready alg d) (Hbio : in_bio d = st).
Context (Hmem : memory_of (image_memory x) = (fun p => Data (before p))) (Hw : toi_io_workers x = 0).
Context (Hbuf : full_page buffer) (Hfuel : (size ps1 + size ps2 <= fuel)%nat).

Abbreviation save := (save_pageset digest no_direct raw search_fuel fuel ps1 ps2 copies).
Abbreviation load := (load_pageset digest no_direct raw search_fuel fuel remove_image ps1 ps2).

Lemma now_frames : wf_frames (walk ps1) now /\ wf_frames (walk ps2) now.
Proof using Hpfn Hfull.
  split; apply Forall_forall; intros p Hp%elem_of_walk; (split; [apply Hpfn, elem_of_union; auto|apply Hfull]).
Qed.

(** Pageset 2 on disk. *)
Lemma caches_saved :
  exists x2 d2 cells es, save 2 (size ps2) buffer (x, d) = Some ((x2, d2), 0) /\
    Forall2 (sent alg) (map (fun p => (p, now p)) (walk ps2)) es /\
    finished 2 st p0 all (image_bytes es) (in_bio d2) cells /\ filter_ready alg d2.
Proof using All.
  assert (wf_frames (walk ps2) before) as Hwf.
  { apply Forall_forall. intros p Hp%elem_of_walk. rewrite <- Hsame by done. split; [apply Hpfn; set_solver|apply Hfull]. }
  destruct (pageset2_saved alg Hloss digest no_direct raw search_fuel fuel ps1 ps2 copies st p0 all vend before ck1 buffer x d)
    as (x2 & d2 & cells & es & E & Hs & F & _ & Hf & _); auto; [unfold tape_room; nia|lia|].
  exists x2, d2, cells, es. split_and!; auto.
  replace (map (fun p => (p, now p)) (walk ps2)) with (map (fun p => (p, before p)) (walk ps2)); [done|].
  apply map_ext_in. intros p Hp. rewrite <- list_elem_of_In, elem_of_walk in Hp. by rewrite Hsame.
Qed.

(** Pageset 1 behind it, from the atomic copy; the first stream is still there. *)
Lemma rest_saved d2 cells2 es2 m1 x3 :
  Forall2 (sent alg) (map (fun p => (p, now p)) (walk ps2)) es2 ->
  finished 2 st p0 all (image_bytes es2) (in_bio d2) cells2 -> filter_ready alg d2 ->
  (size ps1 <= size copies)%nat ->
  zip (walk ps1) (map m1 (take (size ps1) (walk copies))) = map (fun p => (p, now p)) (walk ps1) ->
  memory_of (image_memory x3) = (fun p => Data (m1 p)) -> toi_io_workers x3 = 0 ->
  exists x4 d4 cells1 es1, save 1 (size ps1) buffer (x3, d2) = Some ((x4, d4), 0) /\
    Forall2 (sent alg) (map (fun p => (p, now p)) (walk ps1)) es1 /\
    (forall r, sees (in_bio d4) (the_disk (in_bio d4)) all r -> closed 1 cells1 r (image_bytes es1)) /\
    (forall r, sees (in_bio d2) (the_disk (in_bio d4)) all r -> closed 2 cells2 r (image_bytes es2)).
Proof using All.
  intros Hs2 F2 Hfr2 Hsz Hz Hm3 Hw3. destruct now_frames as [Hwf1 Hwf2].
  destruct (room_left alg _ _ _ _ _ _ (size ps1) (size ps2) _ es2 F2 eq_refl Hs2) as (rest & Hrest & Hroom1);
    [by rewrite length_map, length_walk|apply Forall_fmap; eapply Forall_impl; [exact Hwf2|by intros ? []]|done|].
  assert (drop (length cells2) all = rest) as Hdrop by (by rewrite Hrest, drop_app_length).
  destruct (pages_split _ _ _ _ _ _ Hall (fi_pages _ _ _ _ _ _ _ F2)) as (rest' & Hrest' & Hp1); [rewrite Hrest, length_app; lia|].
  assert (rest' = rest) as -> by (rewrite Hrest in Hrest'; by apply app_inv_head in Hrest').
  destruct (pageset1_saved alg Hloss digest no_direct raw search_fuel fuel ps1 ps2 copies (in_bio d2) (toi_writer_posn (in_bio d2)) rest
    vend now m1 buffer x3 d2) as (x4 & d4 & cells1 & es1 & Es1 & Hs1 & F1 & _); auto.
  { by eapply stream_follows. }
  { by rewrite (fi_result _ _ _ _ _ _ _ F2). }
  { by rewrite (fi_dev _ _ _ _ _ _ _ F2). }
  { lia. }
  destruct (streams_apart st p0 all vend _ _ cells2 (image_bytes es1) (in_bio d4) cells1 Hready Hall F2) as (Hap & Hin1 & Hin2); [by rewrite Hdrop|].
  exists x4, d4, cells1, es1. split_and!; auto; intros r Hr.
  - eapply sees_closed; [apply F1|exact Hr|done|]. by apply Forall_true.
  - by eapply sees_closed; [apply F2|exact Hr|..].
Qed.



(** C11: a page saved a second time stops the resume.  Pages of pageset 2 that
    changed before the atomic copy are saved again with pageset 1 and marked
    in page_resave_map, which the image carries.  When the resumed kernel
    reads pageset 2 it drops such a page without clearing its bit in io_map,
    and [do_rw_loop] then finds work left and ends in [BUG]: loading pageset 2
    fails for every memory and every reader that sees the image. *)
Theorem resaved_page_bug :
  exists x2 d2, save 2 (size ps2) buffer (x, d) = Some ((x2, d2), 0) /\
    forall z r resave p, toi_io_workers z = 0 -> filter_ready alg r ->
      sees (in_bio d2) (the_disk (in_bio d2)) all (in_bio r) -> pipeline_aborted r = false ->
      p ∈ ps2 -> p ∈ resave -> load resave 2 false buffer (z, r) = None.
Proof using All.
  destruct now_frames as [_ Hwf2]. destruct caches_saved as (x2 & d2 & cells2 & es2 & Es2 & Hs2 & F2 & _).
  exists x2, d2. split; [done|]. intros z r resave p Hwz Hfz Hsees Hnab Hp Hr.
  destruct (pageset2_loaded alg Hloss digest no_direct raw search_fuel fuel remove_image ps1 ps2 resave now false buffer z r cells2 es2)
    as [_ Hbug]; auto; [lia| |apply Hsees|].
  { eapply sees_closed; [apply F2|exact Hsees| |by apply Forall_true].
    intros c Hc. destruct (fi_prefix _ _ _ _ _ _ _ F2) as [k ->]. set_solver. }
  apply (Hbug Hnab p); [|done]. rewrite take_ge by (rewrite length_walk; lia). by apply elem_of_walk.
Qed.
End Whole.

(** ** An image of five pages *)

Module FivePages.
Definition contents (p : Z) : page := repeat p (Z.to_nat PAGE_SIZE).
Definition caches : gset Z := {[ 16; 18 ]}.
Definition copies : gset Z := {[ 16; 18; 39 ]}.

(** One swap device; block 3 is the header's. *)
Definition posn : toi_extent_iterate_state := IterState [Chain 9 1 [Ext 3 11] None] (-1) None 0.
Definition first : toi_extent_iterate_state := IterState (it_chains posn) 0 (Some 0%nat) 3.
Definition cells : list cell := [(0, 4); (0, 5); (0, 6); (0, 7); (0, 8); (0, 9); (0, 10)].

(** A block layer with nothing in flight. *)
Definition over (p : toi_extent_iterate_state) (saves : list hibernate_extent_iterate_saved_state) (devs : list toi_bdev_info)
    (dk : disk) : bio_state :=
  BioState p saves devs None 0 [] [] true false 0 dk 0 0 0 0 0 [] [] false false 0 false [].

Definition bio : bio_state := over posn (replicate 4 (SavedState 0 0 3)) [BdevInfo 1 1 3 1 false] (fun _ _ => []).
Definition digest (p : page) : Z * list Z := (0, sample_md p).
Definition checksums : checksum_state := (allocate_checksum_pages 2 sample_checksums).1.
Definition start : pipeline := Pipeline 0 checksums sample_compress bio.
Definition before_io (lo : loader) : io := Io ∅ [] [] 0 0 0 (LastFound None None) lo.
Definition after_restore (lo : loader) (m : Z -> frame) : io := before_io (lo {{ memory_of := m }}).
Definition memory_is (m : Z -> page) : io := before_io (SmallLoad.start {{ memory_of := fun p => Data (m p) }}).

(** A kernel with the storage state of [st] over the disk [dk]. *)
Definition kernel (st : bio_state) (dk : disk) : pipeline :=
  start {{ in_bio := over (toi_writer_posn st) (toi_writer_posn_save st) (toi_devinfo st) dk }}.

Lemma kernel_sees st dk all : sees st dk all (in_bio (kernel st dk)).
Proof. split; try done. by apply Forall_true. Qed.

Lemma kernel_ready st dk : filter_ready fill_alg (kernel st dk).
Proof. split; [apply sample_compress_ready|simpl; lia|done]. Qed.

Lemma ready : stream_ready 2 bio first.
Proof.
  assert (wf_iter first) as Hwf.
  { split; simpl; [repeat constructor; simpl; lia|unfold num_chains; simpl; lia|]. exists (Ext 3 11). split; [done|simpl; lia]. }
  split; auto.
  - split; try done; [|by repeat constructor]. split; simpl; [repeat constructor; simpl; lia|unfold num_chains; simpl; lia|auto].
  - by split.
  - exists (SavedState 0 0 3). done.
  - split_and!; [done|done|by repeat constructor|by intros [=]].
  - repeat constructor; simpl; lia.
  - apply whole_page_layout.
    + apply Forall_forall. intros c Hc. exists (BdevInfo 1 1 3 1 false). split; [|done].
      assert (rest_of first = cells ++ [(0, 11)]) as E by reflexivity. rewrite E in Hc. set_unfold. naive_solver.
    + by apply (bool_decide_unpack _).
Qed.

Lemma stored : exists ck, store_checksums digest 0 contents (walk caches) checksums = Some (ck, 0).
Proof. eexists. vm_compute. reflexivity. Qed.

Lemma caches_apart : SmallLoad.ps1 ## caches.
Proof. by apply (bool_decide_unpack _). Qed.

Lemma copies_apart : SmallLoad.ps1 ## copies.
Proof. by apply (bool_decide_unpack _). Qed.

Lemma caches_copied : caches ⊆ copies.
Proof. by apply (bool_decide_unpack _). Qed.

Lemma contents_full p : full_page (contents p).
Proof. apply repeat_length. Qed.

Lemma pfns_small p : p ∈ SmallLoad.ps1 ∪ caches -> 0 <= p < 2 ^ 64.
Proof. unfold SmallLoad.ps1, caches. set_unfold. lia. Qed.

Lemma enough : ((12 + Z.to_nat PAGE_SIZE) * (size SmallLoad.ps1 + size caches) + Z.to_nat PAGE_SIZE <=
  Z.to_nat PAGE_SIZE * length cells)%nat.
Proof. change (size SmallLoad.ps1) with 3%nat. change (size caches) with 2%nat. cbn [length cells]. unfold PAGE_SIZE. lia. Qed.

Lemma tape : pages (toi_devinfo bio) (start_of first) cells (0, [(0, 11)]).
Proof. by repeat (econstructor; [reflexivity|]); constructor. Qed.
End FivePages.



Lemma resaved_page_bug_witness :
  exists x2 d2,
    save_pageset FivePages.digest false SmallLoad.raw 173 5 SmallLoad.ps1 FivePages.caches FivePages.copies 2 (size FivePages.caches) zero_page
      (FivePages.memory_is FivePages.contents, FivePages.start) = Some ((x2, d2), 0) /\
    load_pageset FivePages.digest false SmallLoad.raw 173 5 (ret tt) SmallLoad.ps1 FivePages.caches {[ 18 ]} 2 false zero_page
      (FivePages.memory_is FivePages.contents, FivePages.kernel (in_bio d2) (the_disk (in_bio d2))) = None.
Proof.
  destruct FivePages.stored as [ck Hck].
  destruct (resaved_page_bug fill_alg FivePages.digest false SmallLoad.raw 173 5 (ret tt) SmallLoad.ps1 FivePages.caches
    FivePages.copies FivePages.contents FivePages.contents FivePages.bio FivePages.first FivePages.cells (0, [(0, 11)]) ck
    (FivePages.memory_is FivePages.contents) FivePages.start zero_page fill_lossless (fun _ _ => eq_refl) FivePages.contents_full
    FivePages.pfns_small FivePages.ready eq_refl FivePages.tape FivePages.enough Hck (FivePages.kernel_ready FivePages.bio (fun _ _ => []))
    eq_refl eq_refl eq_refl zero_page_full (le_n 5)) as (x2 & d2 & E2 & Hbug).
  exists x2, d2. split; [exact E2|].
  apply (Hbug (FivePages.memory_is FivePages.contents) _ {[ 18 ]} 18 eq_refl (FivePages.kernel_ready _ _) (FivePages.kernel_sees _ _ _) eq_refl).
  - unfold FivePages.caches. set_solver.
  - set_solver.
Defined.
