(* ===== verification/AtomicCopy.v ===== *)
(** * Around the atomic copy: kernel/power/tuxonice_atomic_copy.c

    The steps that bring devices, processors and interrupts to a halt and
    back, what is done when the cpu context has been saved, the attempt to
    restore an image and its failure path.

    The drivers and the platform are outside: a call to them is an event in
    a trace, and whether it succeeds is taken from a list of answers.  The
    copy itself is in [Pbes]. *)

From S2P Require Import Prelude States BlockIO MemoryBitmap Checksum ImageFlags BitmapSet Pbes.
From stdpp Require Import numbers base list gmap functions.
#[local] Open Scope Z_scope.
#[local] Open Scope step_scope.

Inductive pm_message := PMSG_FREEZE | PMSG_QUIESCE | PMSG_RECOVER | PMSG_THAW | PMSG_RESTORE.

Inductive event :=
| platform_begin (ok : bool)
| suspend_console
| device_suspend (m : pm_message) (ok : bool)
| arch_prepare_suspend (ok : bool)
| device_pm_lock
| device_power_down (m : pm_message) (ok : bool)
| platform_pre_snapshot (ok : bool)
| platform_pre_restore (ok : bool)
| disable_nonboot_cpus (ok : bool)
| local_irq_disable
| sysdev_suspend (m : pm_message) (ok : bool)
| platform_leave
| sysdev_resume
| local_irq_enable
| enable_nonboot_cpus
| platform_restore_cleanup
| platform_finish
| device_power_up (m : pm_message)
| device_pm_unlock
| platform_recover
| device_resume (m : pm_message)
| resume_console
| platform_end.

Record atomic := Atomic {
  trace : list event;
  answers : list bool;            (* of the calls to come; [] is success *)
  late_cpu_hotplug : bool;        (* TOI_LATE_CPU_HOTPLUG *)
  atomic_result : Z               (* toi_result *)
}.

#[export] Instance atomic_eta : Eta atomic := fun s =>
  Atomic (trace s) (answers s) (late_cpu_hotplug s) (atomic_result s).

Definition emit (e : event) : M atomic unit := modify (fun s => s {{ trace := trace s ++ [e] }}).

(** Call something that can fail; true when it fails. *)
Definition fails (e : bool -> event) : M atomic bool := fun s =>
  let '(ok, rest) := match answers s with [] => (true, []) | a :: l => (a, l) end in
  Some (s {{ answers := rest; trace := trace s ++ [e ok] }}, negb ok).

Definition fails_if (c : bool) (e : bool -> event) : M atomic bool := if c then fails e else ret false.
Definition emit_if (c : bool) (e : event) : M atomic unit := if c then emit e else ret tt.
Definition abort_with (f : result_flag) : M atomic unit :=
  modify (fun s => s {{ atomic_result := set_abort_result f (atomic_result s) }}).

Inductive stage :=
  ATOMIC_ALL_STEPS | ATOMIC_STEP_IRQS | ATOMIC_STEP_CPU_HOTPLUG | ATOMIC_STEP_PLATFORM_FINISH
| ATOMIC_STEP_UNLOCK | ATOMIC_STEP_DEVICE_RESUME.

(** The cases of the [switch], each falling through to the next. *)
Definition end_device_resume (suspend_time : bool) (error : Z) : M atomic unit :=
  emit_if (suspend_time && Z.testbit error 1) platform_recover;;;
  emit (device_resume (if suspend_time then (if Z.testbit error 0 then PMSG_RECOVER else PMSG_THAW) else PMSG_RESTORE));;;
  emit resume_console;;;
  emit platform_end.

Definition end_unlock (suspend_time : bool) (error : Z) : M atomic unit :=
  emit device_pm_unlock;;;
  end_device_resume suspend_time error.

Definition end_platform_finish (suspend_time : bool) (error : Z) : M atomic unit :=
  emit platform_finish;;;
  emit (device_power_up (if suspend_time then (if negb (error =? 0) then PMSG_RECOVER else PMSG_THAW) else PMSG_RESTORE));;;
  end_unlock suspend_time error.

Definition end_cpu_hotplug (suspend_time : bool) (error : Z) : M atomic unit :=
  late <-- get late_cpu_hotplug;;
  emit_if late enable_nonboot_cpus;;;
  emit platform_restore_cleanup;;;
  end_platform_finish suspend_time error.

Definition end_irqs (suspend_time : bool) (error : Z) : M atomic unit :=
  emit local_irq_enable;;;
  end_cpu_hotplug suspend_time error.

Definition end_all (suspend_time : bool) (error : Z) : M atomic unit :=
  emit_if (negb suspend_time) platform_leave;;;
  emit sysdev_resume;;;
  end_irqs suspend_time error.

Definition toi_end_atomic (s : stage) (suspend_time : bool) (error : Z) : M atomic unit :=
  match s with
  | ATOMIC_ALL_STEPS => end_all suspend_time error
  | ATOMIC_STEP_IRQS => end_irqs suspend_time error
  | ATOMIC_STEP_CPU_HOTPLUG => end_cpu_hotplug suspend_time error
  | ATOMIC_STEP_PLATFORM_FINISH => end_platform_finish suspend_time error
  | ATOMIC_STEP_UNLOCK => end_unlock suspend_time error
  | ATOMIC_STEP_DEVICE_RESUME => end_device_resume suspend_time error
  end.

Definition unwind (f : result_flag) (s : stage) (suspend_time : bool) (error : Z) : M atomic Z :=
  abort_with f;;;
  toi_end_atomic s suspend_time error;;;
  ret 1.

Definition toi_go_atomic (state : pm_message) (suspend_time : bool) : M atomic Z :=
  no_platform <-- fails_if suspend_time platform_begin;;
  if no_platform : bool then abort_with TOI_PLATFORM_PREP_FAILED;;; ret 1
  else
  emit suspend_console;;;
  refused <-- fails (device_suspend state);;
  if refused : bool then unwind TOI_DEVICE_REFUSED ATOMIC_STEP_DEVICE_RESUME suspend_time 3
  else
  unprepared <-- fails_if suspend_time arch_prepare_suspend;;
  if unprepared : bool then unwind TOI_ARCH_PREPARE_FAILED ATOMIC_STEP_DEVICE_RESUME suspend_time 1
  else
  emit device_pm_lock;;;
  refused <-- fails (device_power_down state);;
  if refused : bool then unwind TOI_DEVICE_REFUSED ATOMIC_STEP_UNLOCK suspend_time 1
  else
  no_snapshot <-- fails_if suspend_time platform_pre_snapshot;;
  if no_snapshot : bool then unwind TOI_PRE_SNAPSHOT_FAILED ATOMIC_STEP_PLATFORM_FINISH suspend_time 1
  else
  no_restore <-- fails_if (negb suspend_time) platform_pre_restore;;
  if no_restore : bool then unwind TOI_PRE_RESTORE_FAILED ATOMIC_STEP_PLATFORM_FINISH suspend_time 1
  else
  late <-- get late_cpu_hotplug;;
  no_hotplug <-- fails_if late disable_nonboot_cpus;;
  if no_hotplug : bool then unwind TOI_CPU_HOTPLUG_FAILED ATOMIC_STEP_CPU_HOTPLUG suspend_time 1
  else
  emit local_irq_disable;;;
  refused <-- fails (sysdev_suspend state);;
  if refused : bool then unwind TOI_SYSDEV_REFUSED ATOMIC_STEP_IRQS suspend_time 1
  else ret 0.

(** ** The pbes of an attempt that is given up *)

Section FreePbes.
Context `{PagePool} (raw : list Z -> list pbe).

(** The pbes of one page: their load pages are freed; the pbe after them. *)
Fixpoint free_page_pbes (i : nat) (free_pbe : option ptr) (s : loader) : option (loader * option ptr) :=
  match i, free_pbe with
  | O, _ | _, None => Some (s, free_pbe)
  | S i', Some q =>
      match pbe_at raw (memory_of s) (ptr_page q) (ptr_index q) with
      | Some b => free_page_pbes i' (pbe_next b) (toi_free_page (virt_to_pfn (address b)) s)
      | None => None
      end
  end.

Fixpoint free_pbe_list (fuel : nat) (s : loader) : option loader :=
  match restore_pblist s with
  | None => Some s
  | Some q =>
      match fuel with
      | O => None
      | S fuel' =>
          match free_page_pbes PBES_PER_PAGE (Some q) s with
          | Some (s, next_page) => free_pbe_list fuel' ((toi_free_page (ptr_page q) s) {{ restore_pblist := next_page }})
          | None => None
          end
      end
  end.

(** ** Restoring *)

(** On success the restored kernel runs, from the memory given. *)
Inductive restoring := Running (m : memory) | Failed (s : loader) (a : atomic).

Definition toi_atomic_restore (fuel : nat) (ps1 : gset Z) (boot_kernel_data_buffer : Z) (toi_bkd : list Z)
    (s : loader) (a : atomic) : option restoring :=
  '(s, r) ← add_boot_kernel_data_pbe ps1 raw boot_kernel_data_buffer toi_bkd s;
  if negb (r =? 0) then s ← free_pbe_list fuel s; Some (Failed s a)
  else
    '(a, r) ← toi_go_atomic PMSG_QUIESCE false a;
    if negb (r =? 0) then s ← free_pbe_list fuel s; Some (Failed s a)
    else Running <$> core_restore_code fuel (restore_pblist s) (memory_of s).
End FreePbes.

(** ** Once the context is saved *)

(** [pageset2_bitmap] is pageset2_map as the checksum code walks it;
    toi_result is in [checksums]. *)
Record copying := Copying {
  image : contents;
  pageset2_bitmap : memory_bitmap;
  checksums : checksum_state;
  ram : Z -> list Z;
  extra_pd1_pages_used : Z
}.

#[export] Instance copying_eta : Eta copying := fun s =>
  Copying (image s) (pageset2_bitmap s) (checksums s) (ram s) (extra_pd1_pages_used s).

(** What the checksum code did to page flags: the pages marked to be saved
    again, and those, freed, no longer marked nosave. *)
Definition after_checksums (ck ck' : checksum_state) (f : page_flags) : page_flags :=
  f {{ page_resave_map := resave ck' ∪ page_resave_map f;
       nosave_map := nosave_map f ∖ set_map virt_to_pfn (nosave ck ∖ nosave ck') }}.

(** [digest]: the hash algorithm; [abort_on_resave], [test_speed], [test_bio]:
    TOI_ABORT_ON_RESAVE_NEEDED, TOI_TEST_FILTER_SPEED, TOI_TEST_BIO. *)
Definition toi_post_context_save (digest : page -> Z * list Z) (fuel cpu : nat) (env : mem_env) (zones : list mzone)
    (tasks attention : list task) (o : mark_options) (extra_pd1_pages_allowance : Z)
    (abort_on_resave test_speed test_bio : bool) (s : copying) : option (copying * Z) :=
  let old_ps1_size := pd_size (pagedir1 (image s)) in
  '(bm, ck) ← check_checksums digest fuel cpu (ram s) abort_on_resave (pageset2_bitmap s) (checksums s);
  ck ← free_checksum_pages ck;
  c ← toi_recalculate_image_contents env zones tasks attention o true
        (after_checksums (checksums s) ck (flags (image s)));
  let s := s {{ image := c; pageset2_bitmap := bm; checksums := ck;
                extra_pd1_pages_used := pd_size (pagedir1 c) - old_ps1_size }} in
  if extra_pd1_pages_used s >? extra_pd1_pages_allowance then
    Some (s {{ checksums := ck {{ ck_result := set_abort_result TOI_EXTRA_PAGES_ALLOW_TOO_SMALL (ck_result ck) }} }}, 1)
  else if negb test_speed && negb test_bio then
    m ← toi_copy_pageset1 (pd_size (pagedir1 c)) (pageset1_map (flags c)) (pageset1_copy_map (flags c)) (ram s);
    Some (s {{ ram := m }}, 0)
  else Some (s, 0).
