(* ===== verification/AtomicCopyFacts.v ===== *)
(** * Facts about the steps around the atomic copy

    Whatever the drivers and the platform answer, what [toi_go_atomic] brought
    to a halt is resumed in the reverse order; the pbes of an attempt that is
    given up are freed, each page once; and what is on disk after the copy is
    one moment's contents of memory. *)

From S2P Require Import Prelude States BlockIO BlockIOFacts MemoryBitmap Checksum ChecksumFacts ImageFlags.
From S2P Require Import ImageFlagsFacts BitmapSet Pbes PbesFacts PbeRestore AtomicCopy.
From stdpp Require Import numbers base list gmap functions sorting.
#[local] Open Scope Z_scope.
#[local] Open Scope step_scope.
#[local] Arguments Z.mul : simpl never.
#[local] Arguments Z.add : simpl never.
#[local] Arguments Nat.div : simpl never.
#[local] Arguments Nat.modulo : simpl never.
#[local] Arguments PBES_PER_PAGE : simpl never.

(** ** What is at a halt *)

Inductive halted := Platform | Console | Devices | PmLock | Powered | Snapshot | Cpus | Irqs | Sysdevs.

#[export] Instance halted_eq_dec : EqDecision halted.
Proof. solve_decision. Defined.

Definition pop (h : halted) (l : list halted) : option (list halted) :=
  match l with x :: l' => if decide (x = h) then Some l' else None | [] => None end.

(** The newest first.  A call that fails half-way leaves things to resume,
    except those that undo their own work; [platform_end] is also called when
    there was no [platform_begin]. *)
Definition halt_step (e : event) (l : list halted) : option (list halted) :=
  match e with
  | platform_begin ok => Some (if ok then Platform :: l else l)
  | suspend_console => Some (Console :: l)
  | device_suspend _ _ => Some (Devices :: l)
  | device_pm_lock => Some (PmLock :: l)
  | device_power_down _ ok => Some (if ok then Powered :: l else l)
  | platform_pre_snapshot _ | platform_pre_restore _ => Some (Snapshot :: l)
  | disable_nonboot_cpus _ => Some (Cpus :: l)
  | local_irq_disable => Some (Irqs :: l)
  | sysdev_suspend _ ok => Some (if ok then Sysdevs :: l else l)
  | sysdev_resume => pop Sysdevs l
  | local_irq_enable => pop Irqs l
  | enable_nonboot_cpus => pop Cpus l
  | platform_finish => pop Snapshot l
  | device_power_up _ => pop Powered l
  | device_pm_unlock => pop PmLock l
  | device_resume _ => pop Devices l
  | resume_console => pop Console l
  | platform_end => Some (match l with Platform :: l' => l' | _ => l end)
  | arch_prepare_suspend _ | platform_leave | platform_restore_cleanup | platform_recover => Some l
  end.

Fixpoint halts (es : list event) (l : list halted) : option (list halted) :=
  match es with [] => Some l | e :: es' => l ← halt_step e l; halts es' l end.

(** What is at a halt when the copy is made. *)
Definition all_halted (suspend_time late : bool) : list halted :=
  [Sysdevs; Irqs] ++ (if late then [Cpus] else []) ++ [Snapshot; Powered; PmLock; Devices; Console] ++
  (if suspend_time then [Platform] else []).

Lemma aborted_set f w : test_result_state TOI_ABORTED (set_abort_result f w) = true.
Proof.
  unfold test_result_state, set_abort_result, set_result_state, test_flag, set_flag.
  rewrite Z.setbit_eqb by (by destruct f). rewrite Z.setbit_eqb by done.
  by rewrite Z.eqb_refl, ?orb_true_r.
Qed.

(** What [toi_end_atomic] resumes from each stage on. *)
Definition halted_at (s : stage) (suspend_time late : bool) : list halted :=
  let all := all_halted suspend_time late in
  match s with
  | ATOMIC_ALL_STEPS => all
  | ATOMIC_STEP_IRQS => drop 1 all
  | ATOMIC_STEP_CPU_HOTPLUG => drop 2 all
  | ATOMIC_STEP_PLATFORM_FINISH => drop (if late then 3 else 2) all
  | ATOMIC_STEP_UNLOCK => drop (if late then 5 else 4) all
  | ATOMIC_STEP_DEVICE_RESUME => drop (if late then 6 else 5) all
  end.

Lemma end_atomic_resumes st suspend_time error s :
  exists es, toi_end_atomic st suspend_time error s = Some (s {{ trace := trace s ++ es }}, tt) /\
    halts es (halted_at st suspend_time (late_cpu_hotplug s)) = Some [].
Proof.
  destruct s as [t a late r]. simpl. destruct (Z.testbit error 1) eqn:E1.
  all: destruct st, suspend_time, late; cbn [toi_end_atomic];
    unfold end_all, end_irqs, end_cpu_hotplug, end_platform_finish, end_unlock, end_device_resume;
    rewrite ?E1; eexists; (split; [unfold emit_if, emit, bind, get, modify, ret; simpl; rewrite <- ?app_assoc;
      reflexivity|reflexivity]).
Qed.

Lemma halts_app es es' l : halts (es ++ es') l = (l ← halts es l; halts es' l).
Proof. revert l. induction es as [|e es IH]; intros l; [done|]. simpl. destruct (halt_step e l); [apply IH|done]. Qed.

(** From [s0] the machine has been brought to the halt [l]. *)
Definition halting (s0 : atomic) (l : list halted) (s : atomic) : Prop :=
  exists es, trace s = trace s0 ++ es /\ halts es [] = Some l /\
    late_cpu_hotplug s = late_cpu_hotplug s0 /\ atomic_result s = atomic_result s0.

Lemma halting_event s0 l s s' e l' :
  halting s0 l s -> trace s' = trace s ++ [e] -> late_cpu_hotplug s' = late_cpu_hotplug s ->
  atomic_result s' = atomic_result s -> halt_step e l = Some l' -> halting s0 l' s'.
Proof.
  intros (es & Ht & Hh & Hl & Hr) Ht' Hl' Hr' Hs. exists (es ++ [e]). rewrite Ht', Ht, app_assoc, halts_app, Hh.
  cbn [mbind option_bind halts]. rewrite Hs. split_and!; congruence || done.
Qed.

Lemma wp_emit {A} s0 l s e l' (k : M atomic A) Q :
  halting s0 l s -> halt_step e l = Some l' -> (forall s', halting s0 l' s' -> wp k Q s') -> wp (emit e;;; k) Q s.
Proof. intros H Hs Hk. apply wp_bind. apply Hk. by eapply halting_event. Qed.

Lemma wp_fails {A} s0 l s e l1 l2 (k : bool -> M atomic A) Q :
  halting s0 l s -> halt_step (e true) l = Some l1 -> halt_step (e false) l = Some l2 ->
  (forall s', halting s0 l2 s' -> wp (k true) Q s') -> (forall s', halting s0 l1 s' -> wp (k false) Q s') ->
  wp (b <-- fails e;; k b) Q s.
Proof.
  intros H H1 H2 Ht Hf. apply wp_bind. unfold wp at 1, fails.
  destruct (answers s) as [|[] a]; [apply Hf|apply Hf|apply Ht]; by eapply halting_event.
Qed.

(** A call made only in some cases. *)
Lemma wp_fails_if {A} (c : bool) s0 l s e l1 l2 (k : bool -> M atomic A) Q :
  halting s0 l s -> halt_step (e true) l = Some l1 -> halt_step (e false) l = Some l2 ->
  (forall s', c = true -> halting s0 l2 s' -> wp (k true) Q s') ->
  (forall s', halting s0 (if c then l1 else l) s' -> wp (k false) Q s') ->
  wp (b <-- fails_if c e;; k b) Q s.
Proof.
  intros H H1 H2 Ht Hf. destruct c; [|by apply wp_bind, Hf]. by eapply wp_fails; eauto.
Qed.

Definition resumed (s0 s : atomic) : Prop :=
  exists es, trace s = trace s0 ++ es /\ halts es [] = Some [] /\ test_result_state TOI_ABORTED (atomic_result s) = true.

(** How [toi_go_atomic] can end. *)
Definition gone (suspend_time : bool) (s0 : atomic) (r : Z) (s : atomic) : Prop :=
  r = 1 /\ resumed s0 s \/ r = 0 /\ halting s0 (all_halted suspend_time (late_cpu_hotplug s0)) s.

Lemma unwind_resumes s0 s f st suspend_time error l :
  halting s0 l s -> l = halted_at st suspend_time (late_cpu_hotplug s0) ->
  wp (unwind f st suspend_time error) (gone suspend_time s0) s.
Proof.
  intros (es & Ht & Hh & Hl & _) ->. unfold unwind, abort_with. apply wp_bind. unfold wp at 1, modify. apply wp_bind.
  destruct (end_atomic_resumes st suspend_time error (s {{ atomic_result := set_abort_result f (atomic_result s) }}))
    as (es' & E & Hr). unfold wp at 1. rewrite E. left. split; [done|]. exists (es ++ es'). simpl in *.
  rewrite Ht, app_assoc, halts_app, Hh, <- Hl. split_and!; [done|exact Hr|apply aborted_set].
Qed.

Lemma wp_late {A} s0 l s (k : bool -> M atomic A) Q :
  halting s0 l s -> wp (k (late_cpu_hotplug s0)) Q s -> wp (b <-- get late_cpu_hotplug;; k b) Q s.
Proof. intros (es & _ & _ & Hl & _) Hk. apply wp_bind. unfold wp at 1, get. by rewrite Hl. Qed.

(** One step, and the way back if it fails. *)
Ltac go_step st s :=
  cbv beta iota;
  first [eapply wp_late; [eassumption|] |
         eapply wp_emit; [eassumption|reflexivity|intros ? ?] |
         eapply wp_fails; [eassumption|reflexivity|reflexivity|intros ? ?|intros ? ?] |
         eapply wp_fails_if; [eassumption|reflexivity|reflexivity|intros ? ? ?|intros ? ?]];
  try (eapply unwind_resumes; [eassumption|]; destruct st, (late_cpu_hotplug s) eqn:?; (reflexivity || (simpl in *; congruence))).

Lemma go_atomic_gone state suspend_time s : wp (toi_go_atomic state suspend_time) (gone suspend_time s) s.
Proof.
  assert (halting s [] s) as H0 by (exists []; rewrite app_nil_r; done).
  unfold toi_go_atomic. go_step suspend_time s.
  { left. split; [done|]. destruct H1 as (es & Ht & Hh & _). exists es. split_and!; [done|done|apply aborted_set]. }
  do 11 go_step suspend_time s. right. split; [done|]. by destruct suspend_time, (late_cpu_hotplug s).
Qed.

(** C24: bringing the machine to a halt and back.  Whatever the drivers and the
    platform answer, [toi_go_atomic] returns 0 or 1.  When it returns 1 the
    attempt is marked aborted and every thing that was stopped has been
    resumed, the last one stopped first.  When it returns 0 interrupts,
    devices and, if asked for, the other processors are stopped, and
    [toi_end_atomic] with [ATOMIC_ALL_STEPS] then resumes all of them, in the
    reverse order, whether it is told of an error or not. *)
Theorem go_atomic_bracket (state : pm_message) (suspend_time : bool) (s : atomic) :
  exists s' r es, toi_go_atomic state suspend_time s = Some (s', r) /\ trace s' = trace s ++ es /\
    (r = 1 /\ halts es [] = Some [] /\ test_result_state TOI_ABORTED (atomic_result s') = true \/
     r = 0 /\ halts es [] = Some (all_halted suspend_time (late_cpu_hotplug s)) /\ atomic_result s' = atomic_result s /\
     forall error, exists s'' es', toi_end_atomic ATOMIC_ALL_STEPS suspend_time error s' = Some (s'', tt) /\
       trace s'' = trace s' ++ es' /\ halts es' (all_halted suspend_time (late_cpu_hotplug s)) = Some []).
Proof.
  destruct (wp_returns _ _ _ (go_atomic_gone state suspend_time s)) as (s' & r & E & [[-> (es & Ht & Hh & Ha)]|[-> (es & Ht & Hh & Hl & Hr)]]);
    eexists s', _, es; (split; [exact E|]; split; [exact Ht|]); [by left|right].
  split_and!; [done|done|done|]. intros error.
  destruct (end_atomic_resumes ATOMIC_ALL_STEPS suspend_time error s') as (es' & E' & Hr').
  eexists _, es'. rewrite Hl in Hr'. split; [exact E'|]. split; [done|exact Hr'].
Qed.

(** ** Freeing the pbes *)

Section FreeList.
Context `{PagePool} (raw : list Z -> list pbe) (blank : Prop) (pages : list Z) (l : list (Z * Z)).

Abbreviation N := PBES_PER_PAGE.

Definition given_back (ps p : list Z) : list Z := foldl (fun l p => release p l) p ps.

Lemma given_back_perm ps p : given_back ps p ≡ₚ ps ++ p.
Proof.
  unfold given_back. revert p. induction ps as [|q ps IH]; intros p; [done|]. simpl.
  rewrite IH, release_perm. by rewrite Permutation_middle.
Qed.

Lemma given_back_app ps qs p : given_back (ps ++ qs) p = given_back qs (given_back ps p).
Proof. apply foldl_app. Qed.

(** The pointer to the [k]-th pbe. *)
Definition from (k : nat) : option ptr := if (k <? length l)%nat then Some (slot pages k) else None.

Lemma free_page_pbes_ok s k i :
  laid_out raw blank (memory_of s) pages l ->
  free_page_pbes raw i (from k) s =
    Some (s {{ pool := given_back (map snd (take i (drop k l))) (pool s) }}, from (k + i)).
Proof.
  revert s k. induction i as [|i IH]; intros s k Hlo.
  { rewrite Nat.add_0_r. simpl. unfold given_back. simpl. by destruct s. }
  unfold from at 1. destruct (Nat.ltb_spec k (length l)) as [Hk|Hk].
  - destruct (lookup_lt_is_Some_2 l k Hk) as [[o c] Hoc]. simpl.
    pose proof (lo_entries _ _ _ _ _ Hlo k o c Hoc) as He. unfold entry in He. rewrite He. simpl.
    rewrite virt_to_page_address. change (if (S k <? length l)%nat then _ else _) with (from (S k)).
    rewrite IH by done. rewrite (drop_S l (o, c) k Hoc). replace (k + S i)%nat with (S k + i)%nat by lia. done.
  - rewrite drop_ge, take_nil by lia. unfold from. rewrite (proj2 (Nat.ltb_ge (k + S i) _)) by lia.
    simpl. unfold given_back. simpl. by destruct s.
Qed.

Lemma slot_start j : (j < length pages)%nat -> slot pages (N * j) = Ptr (nth j pages 0) 0.
Proof.
  intros Hj. unfold slot, page_of. rewrite Nat.mul_comm, Nat.div_mul, Nat.Div0.mod_mul by done. done.
Qed.

(** The pages [n] pbes take. *)
Definition pages_for (n : nat) : nat := ((n + (N - 1)) / N)%nat.

Lemma pages_for_0 : pages_for 0 = 0%nat.
Proof. reflexivity. Qed.

Lemma pages_for_S n : (0 < n)%nat -> pages_for n = S (pages_for (n - N)).
Proof.
  intros Hn. unfold pages_for. pose proof N_pos. destruct (decide (n <= N)%nat) as [Hle|Hgt].
  - replace (n - N)%nat with 0%nat by lia. rewrite (Nat.div_small (0 + _)) by lia. symmetry.
    apply (Nat.div_unique _ _ 1 (n - 1)); lia.
  - replace (n + (N - 1))%nat with (1 * N + (n - N + (N - 1)))%nat by lia. by rewrite Nat.div_add_l by lia.
Qed.

(** Freeing from the [j]-th page on. *)
Lemma free_pbe_list_from n j s fuel :
  laid_out raw blank (memory_of s) pages l -> restore_pblist s = from (N * j) ->
  (length l <= N * (j + n))%nat -> (n <= fuel)%nat ->
  exists s', free_pbe_list raw fuel s = Some s' /\ restore_pblist s' = None /\
    pool s' ≡ₚ map snd (drop (N * j) l) ++ take (pages_for (length l - N * j)) (drop j pages) ++ pool s.
Proof.
  pose proof N_pos as HN. revert j s fuel. induction n as [|n IH]; intros j s fuel Hlo Hp Hl Hf.
  all: destruct (decide (length l <= N * j)%nat) as [Hend|Hmore].
  2: lia.
  1,2: unfold from in Hp; rewrite (proj2 (Nat.ltb_ge _ _)) in Hp by done; exists s;
    replace (length l - N * j)%nat with 0%nat by lia; rewrite pages_for_0, drop_ge by done;
    destruct fuel; simpl; by rewrite Hp.
  pose proof (lo_room _ _ _ _ _ Hlo) as Hroom. assert (j < length pages)%nat as Hj by nia.
  destruct fuel as [|fuel]; [lia|]. assert (from (N * j) = Some (slot pages (N * j))) as Hfrom.
  { unfold from. by rewrite (proj2 (Nat.ltb_lt _ _)) by lia. }
  cbn [free_pbe_list]. rewrite Hp, Hfrom, <- Hfrom, free_page_pbes_ok by done.
  replace (N * j + N)%nat with (N * S j)%nat by lia.
  rewrite slot_start by done. cbn [ptr_page].
  match goal with |- context [free_pbe_list _ _ ?x] => set (s1 := x) end.
  destruct (IH (S j) s1 fuel) as (s' & E & Hn & Hpool); [done|done|lia|lia|].
  exists s'. split; [exact E|]. split; [exact Hn|]. rewrite Hpool.
  change (pool s1) with (release (nth j pages 0) (given_back (map snd (take N (drop (N * j) l))) (pool s))).
  rewrite release_perm, given_back_perm.
  rewrite (pages_for_S (length l - N * j)) by lia. replace (length l - N * j - N)%nat with (length l - N * S j)%nat by lia.
  destruct (lookup_lt_is_Some_2 pages j Hj) as [p Hpj]. rewrite (nth_lookup_Some _ _ _ _ Hpj), (drop_S _ _ _ Hpj).
  rewrite <- (take_drop N (drop (N * j) l)) at 2. rewrite drop_drop.
  replace (N * j + N)%nat with (N * S j)%nat by lia. rewrite map_app. cbn [take]. solve_Permutation.
Qed.
End FreeList.

(** ** An attempt that is refused *)

Section Refused.
Context `{PagePool} (ps1 : gset Z) (no_direct : bool) (raw : list Z -> list pbe) (blank : Prop).

Lemma pages_for_next n : pages_for (S n) = S (n / PBES_PER_PAGE).
Proof.
  unfold pages_for. replace (S n + (PBES_PER_PAGE - 1))%nat with (1 * PBES_PER_PAGE + n)%nat by (unfold PBES_PER_PAGE; lia).
  by rewrite Nat.div_add_l.
Qed.

(** Giving up a restore.  When memory sufficed for the load addresses and
    the boot data, [toi_atomic_restore] either stops the machine and restores
    the image, or fails because a driver or the platform refused.  Then the
    machine has been resumed, the attempt is marked aborted, the list of pbes
    is gone, and every page loaded to and every page of pbes is back with the
    page allocator, none of them twice. *)
Theorem refused_restore_gives_back (s : loader) (a : atomic) (bkd : Z) (bytes : list Z) (fuel : nat)
    (Hcan : can_load ps1 raw blank s)
    (Hroom : (size ps1 + size ps1 / PBES_PER_PAGE + 2 <= length (outside ps1 (pool s)))%nat)
    (Hbkd : bkd ∈ ps1) (Hfuel : (size ps1 < fuel)%nat) :
  exists s1 pages l out,
    toi_get_pageset1_load_addresses ps1 no_direct raw (Z.of_nat (size ps1)) s = Some (s1, 0) /\
    map fst l = to_map no_direct s1 (walk ps1) /\ laid_out raw blank (memory_of s1) pages l /\
    toi_atomic_restore raw fuel ps1 (page_address bkd) bytes s1 a = Some out /\
    match out with
    | Running _ => exists a', toi_go_atomic PMSG_QUIESCE false a = Some (a', 0)
    | Failed s' a' =>
        toi_go_atomic PMSG_QUIESCE false a = Some (a', 1) /\ resumed a a' /\
        restore_pblist s' = None /\ NoDup (pool s') /\ pages ++ map snd l ⊆+ pool s'
    end.
Proof.
  destruct (load_addresses_ok ps1 no_direct raw blank s Hcan) as (s1 & pages & l & E & Hb & Hfst & _ & _ & _ & Hcnt).
  destruct (add_boot_spec raw ps1 blank s1 pages l bkd bytes Hb) as (s2 & q & Ea & Hlo & Hhe & Hq & Hqp & Hql & _ & _ & Hsub).
  { intros E0. rewrite E0 in Hcnt. cbn [length] in Hcnt. lia. }
  assert (length l <= size ps1)%nat as Hls.
  { rewrite <- (length_map fst), Hfst, <- length_walk. apply length_filter. }
  pose proof Hb as [(_ & Hlp & _) Hown Hpg Htg].
  exists s1, pages, l. unfold toi_atomic_restore. rewrite Ea. cbn [mbind option_bind Z.eqb negb].
  destruct (wp_returns _ _ _ (go_atomic_gone PMSG_QUIESCE false a)) as (a' & r & Eg & [[-> Hres]|[-> Hh]]);
    rewrite Eg; cbn [mbind option_bind Z.eqb negb].
  - destruct (free_pbe_list_from raw blank pages (l ++ [(bkd, q)]) (length pages) 0 s2 fuel) as (s' & -> & Hn & Hp); auto.
    { rewrite Nat.mul_0_r, Hhe. unfold from. by rewrite length_app, Nat.add_1_r. }
    { apply (lo_room _ _ _ _ _ Hlo). }
    { rewrite Hlp. pose proof (Nat.Div0.div_le_upper_bound (length l) PBES_PER_PAGE (length l)). unfold PBES_PER_PAGE in *. lia. }
    rewrite Nat.mul_0_r, !drop_0, Nat.sub_0_r, length_app, Nat.add_1_r, pages_for_next, <- Hlp, take_ge in Hp by lia.
    rewrite map_app in Hp. simpl in Hp. eexists. split; [done|]. split; [done|]. split; [apply Hb|]. split; [done|].
    split_and!; [done|done|done| |].
    + rewrite Hp. eapply NoDup_part; [exact Hown|]. rewrite app_nil_r. trans ((q :: frames s2) ++ pages ++ map snd l).
      * trans (q :: pool s2 ++ pages ++ map snd l).
        -- apply Permutation_submseteq. solve_Permutation.
        -- simpl. apply submseteq_skip. unfold frames. rewrite <- (app_assoc (pool s2)).
           apply submseteq_skips_l. by apply submseteq_inserts_l.
      * by apply submseteq_skips_r.
    + rewrite Hp. trans ((pages ++ map snd l) ++ q :: pool s2); [by apply submseteq_inserts_r|].
      apply Permutation_submseteq. solve_Permutation.
  - destruct (core_restore_from raw blank (memory_of s2) pages (l ++ [(bkd, q)]) Hlo) with (n := S (length l)) (k := 0%nat)
      (fuel := fuel) (m := memory_of s2) as (m & Em & _); auto; try lia.
    + intros o c Hoc. assert (o ∈ ps1) as Ho.
      { apply elem_of_app in Hoc as [Hoc|Hoc%list_elem_of_singleton]; [|congruence]. apply elem_of_walk.
        assert (o ∈ map fst l) as Hof by (apply list_elem_of_fmap; by exists (o, c)).
        rewrite Hfst in Hof. by apply list_elem_of_filter in Hof as [_ ?]. }
      split.
      * intros Hp. exact (proj1 (Forall_forall _ _) Hpg o Hp Ho).
      * rewrite map_app, elem_of_app. intros [Hp|Hp%list_elem_of_singleton]; [|simpl in Hp; congruence].
        apply list_elem_of_fmap in Hp as (x & -> & Hx). exact (proj1 (Forall_forall _ _) Htg x Hx Ho).
    + rewrite length_app. simpl. lia.
    + rewrite length_app, Nat.add_1_r in Em. simpl in Em. rewrite Hhe, Em. eexists.
      split; [done|]. split; [done|]. split; [apply Hb|]. split; [done|]. by eexists.
Qed.
End Refused.

(** A driver refuses to power down its device. *)
Lemma refused_restore_gives_back_witness :
  exists s1 s' a', toi_get_pageset1_load_addresses SmallLoad.ps1 false SmallLoad.raw 3 SmallLoad.start = Some (s1, 0) /\
    toi_atomic_restore SmallLoad.raw 4 SmallLoad.ps1 (page_address 5) [1; 2; 3] s1 (Atomic [] [true; false] true 0) =
      Some (Failed s' a') /\
    resumed (Atomic [] [true; false] true 0) a' /\ NoDup (pool s').
Proof.
  destruct (refused_restore_gives_back SmallLoad.ps1 false SmallLoad.raw True SmallLoad.start
    (Atomic [] [true; false] true 0) 5 [1; 2; 3] 4) as (s1 & pages & l & out & E & _ & _ & Eo & Hout).
  - exact SmallLoad.can_start.
  - vm_compute. lia.
  - unfold SmallLoad.ps1. set_solver.
  - vm_compute. lia.
  - destruct out as [m|s' a'].
    + exfalso. destruct Hout as [a' Ha]. vm_compute in Ha. discriminate Ha.
    + destruct Hout as (_ & Hr & _ & Hn & _). exists s1, s', a'. split; [exact E|]. split; [exact Eo|]. split; assumption.
Defined.

(** ** The snapshot *)

Lemma image_frames_nosave env n d zones p :
  p ∈ image_frames env (n ∖ d) zones -> p ∉ d -> p ∈ image_frames env n zones.
Proof.
  unfold image_frames. rewrite !list_elem_of_In, !in_flat_map. intros (z & Hz & Hp) Hd. exists z. split; [done|].
  apply list_elem_of_In. apply list_elem_of_In in Hp. unfold zone_image in *.
  apply list_elem_of_filter in Hp as [Hi Hp]. apply list_elem_of_filter. split; [|done].
  unfold in_image in *. rewrite (bool_decide_ext (p ∈ n ∖ d) (p ∈ n)) in Hi by set_solver. done.
Qed.

(** The pages that will be saved a second time. *)
Definition resaved (dg : page -> list Z) (before : Z -> page) (s : copying) : gset Z :=
  list_to_set (changed dg before (ram s) (pfns (bm_blocks (pageset2_bitmap s)))) ∪ resave (checksums s) ∪
  page_resave_map (flags (image s)).

Section Snapshot.
Context (env : mem_env) (zones : list mzone) (Hzones : wf_zones env zones).

(** Pageset 1 and the room for its copy, from the flags [f] with [r] marked
    to be saved again and [d] no longer nosave. *)
Lemma recalculated (f : page_flags) (r d : gset Z) tasks attention o :
  let f' := f {{ page_resave_map := r; nosave_map := nosave_map f ∖ d }} in
  (forall p, p ∈ pageset1_copy_map f -> p ∈ pageset2_map f \/ p ∉ image_frames env (nosave_map f) zones) ->
  d ## pageset1_copy_map f ->
  exists c, toi_recalculate_image_contents env zones tasks attention o true f' = Some c /\
    pd_size (pagedir1 c) = Z.of_nat (size (pageset1_map (flags c))) /\
    pageset1_map (flags c) ## pageset1_copy_map (flags c) /\
    (size (pageset1_copy_map f) <= size (pageset1_copy_map (flags c)) + size r)%nat /\
    (forall p, p ∈ image_frames env (nosave_map (flags c)) zones ->
       p ∈ pageset1_map (flags c) \/ p ∈ pageset2_map f /\ p ∉ r).
Proof.
  intros f' Hcopy Hd. unfold toi_recalculate_image_contents.
  destruct (flag_image_pages_spec env zones (f' {{ pageset1_map := ∅ }}) Hzones)
    as (c & E & Hnd & H1 & Hs1 & _ & _ & _ & Hc & H2 & Hn). exists c. simpl in *.
  set (img := image_frames env (nosave_map f ∖ d) zones) in *. split; [exact E|]. split_and!.
  - rewrite Hs1. f_equal. rewrite <- (size_list_to_set (C := gset Z)) by (by apply list.NoDup_filter). f_equal.
    apply set_eq. intros p. rewrite elem_of_list_to_set, H1. unfold ps1_of. rewrite list_elem_of_filter. simpl. tauto.
  - intros p [Hi Hp1]%H1 [Hpc Hnot]%Hc. unfold ps2_of in Hpc, Hnot. rewrite list_elem_of_filter in Hpc, Hnot. simpl in *.
    destruct Hp1 as [Hp1|Hp1]; [|by destruct (decide (p ∈ pageset2_map f)); [tauto|destruct (Hcopy p) as [|Hno]; [tauto..|];
      apply Hno, (image_frames_nosave _ _ d); [done|set_solver]]].
    destruct Hpc as [Hpc|]; [|tauto]. destruct (Hcopy p Hpc) as [|Hno]; [done|].
    apply Hno, (image_frames_nosave _ _ d); [done|set_solver].
  - assert (pageset1_copy_map f ⊆ pageset1_copy_map (flags c) ∪ r) as Hsub.
    { intros p Hp. destruct (decide (p ∈ r)); [set_solver|]. apply elem_of_union_l, Hc. simpl. tauto. }
    apply subseteq_size in Hsub. rewrite size_union_alt in Hsub.
    pose proof (subseteq_size (r ∖ pageset1_copy_map (flags c)) r ltac:(set_solver)). lia.
  - rewrite Hn. intros p Hp. destruct (decide (p ∈ pageset2_map f)), (decide (p ∈ r)); [left|by right|left|left];
      apply H1; auto.
Qed.

End Snapshot.

(** ** Four frames: 0 in pageset 1; 16, 18 and 39 in pageset 2 *)

Module FourFrames.
Definition env : mem_env :=
  MemEnv (fun p => bool_decide (p ∈ [0; 16; 18; 39])) (fun _ => 0%nat) (fun _ => false) (fun _ => false) (fun _ => true)
    (fun _ => false) (fun _ => false) (fun _ => false) (fun _ => false).

Definition zone : mzone := MZone 0 0 40 false [] [] [].

Lemma zone_wf : wf_zones env [zone].
Proof.
  split; [apply NoDup_singleton|by repeat constructor|by repeat constructor| |by repeat constructor].
  intros [|i] [|j] z z' p Hi Hj; by rewrite ?lookup_nil in *.
Qed.

Definition md5 (p : page) : Z * list Z := (0, sample_md p).
Definition options : mark_options := MarkOptions false false false false.
Definition page_flags0 : page_flags := PageFlags {[0]} {[16; 18; 39]} {[16; 18; 39]} ∅ ∅ ∅.
Definition zeroes (_ : Z) : page := zero_page.

(** The digests have been stored. *)
Definition stored : option (checksum_state * Z) :=
  let '(ck, r) := allocate_checksum_pages 3 sample_checksums in
  if r =? 0 then store_checksums md5 0 zeroes [16; 18; 39] ck else None.

Definition state (after : Z -> page) (ck : checksum_state) : copying :=
  Copying (Contents page_flags0 (Pagedir 1 0) (Pagedir 3 0) 0) sample ck after 0.

Definition two_changed (p : Z) : page := if decide (p ∈ [16; 18]) then page_one else zero_page.
End FourFrames.

(** Pages saved a second time can overrun the map of copies.  Pageset 1 is
    one frame and the allowance two, and the map of copies has just the three
    frames this takes, which is what [update_image] provides.  Two pages of
    pageset 2 change: pageset 1 grows by two, within the allowance, but the
    two pages are no longer room for copies, and the copy walks past the end
    of the map. *)
Theorem resaved_pages_overrun :
  exists ck, FourFrames.stored = Some (ck, 0) /\
    let s := FourFrames.state FourFrames.two_changed ck in
    Z.of_nat (size (pageset1_copy_map (flags (image s)))) = pd_size (pagedir1 (image s)) + 2 /\
    (exists c, toi_recalculate_image_contents FourFrames.env [FourFrames.zone] [] [] FourFrames.options true
        ((flags (image s)) {{ page_resave_map := {[16; 18]} }}) = Some c /\
      pd_size (pagedir1 c) - pd_size (pagedir1 (image s)) = 2) /\
    toi_post_context_save FourFrames.md5 4 0 FourFrames.env [FourFrames.zone] [] [] FourFrames.options 2 false false false s =
      None.
Proof.
  destruct FourFrames.stored as [[ck r]|] eqn:E; [|vm_compute in E; discriminate E].
  vm_compute in E. injection E as <- <-. eexists. split; [reflexivity|]. split; [vm_compute; reflexivity|]. split.
  - eexists. split; vm_compute; reflexivity.
  - vm_compute. reflexivity.
Qed.

