(* ===== verification/HighLevel.v ===== *)
(** * A cycle from the top: kernel/power/tuxonice_highlevel.c

    Starting and finishing, preparing, saving, powering down, cleaning up and
    the attempt to resume; the power off of tuxonice_power_off.c and the
    choice of the allocator and the alternate resume parameter of
    tuxonice_io.c.

    The parts of TuxOnIce that do the work, the memory manager and the device
    layer are called: a call is recorded, and its answer is a function of the
    call and of how many calls were made before, so that a part can answer
    differently every time.  Names of devices are numbers; 0 is the empty
    string. *)

From S2P Require Import Prelude States.
From stdpp Require Import numbers base list.
#[local] Open Scope Z_scope.

(** ** Calls and answers *)

Inductive notification := PM_HIBERNATION_PREPARE | PM_POST_HIBERNATION | PM_SUSPEND_PREPARE | PM_POST_SUSPEND.

Inductive fn :=
| Toi_cleanup_modules | Toi_put_modules | Toi_get_modules | Toi_initialise_modules (early : bool)
| Parse_sig_location (allocator : nat)
| Toi_launch_userspace_program (pre : bool)
| Toi_activate_storage (force : bool) | Toi_deactivate_storage (force : bool)
| Kzalloc | Memory_bm_create | Toi_get_zeroed_page (path : Z)
| Mark_nosave_pages
| Toi_prepare_console | Toi_cleanup_console
| Pm_notifier_call_chain (n : notification)
| Usermodehelper_disable | Usermodehelper_enable
| Disable_nonboot_cpus | Enable_nonboot_cpus
| Free_checksum_pages | Toi_free_extra_pagedir_memory | Thaw_processes | Free_attention_list
| Remove_image
| Toi_cond_pause | Toi_update_status
| Toi_prepare_image
| Map_ps2_pages (enable : bool)
| Write_pageset (id : Z) | Write_image_header | Read_pageset2 (overwrittenpagesonly : bool) | Read_pageset1
| Toi_go_atomic | Toi_end_atomic (suspend_time : bool) (error : Z) | Toi_hibernate | Toi_atomic_restore
| Toi_ui_post_atomic_restore
| Image_exists_read
| Lid_closed | Hibernation_platform_enter | Suspend_devices_and_enter | Kernel_restart | Kernel_power_off
| Get_toi_debug_info
| Toi_initiate_cluster_hibernate.

(** [ret]: the value returned; [raised]: the bits set in toi_result meanwhile.
    [can_hibernate]: an allocator set TOI_CAN_HIBERNATE.  [resumed]: a return
    from [toi_hibernate] at resume time.  [used]: extra_pd1_pages_used. *)
Record answer := Answer {
  ret_val : Z;
  raised : list result_flag;
  can_hibernate_now : bool;
  resumed : bool;
  used : Z
}.

(** A pointer to a bitmap. *)
Inductive bitmap_ptr := Null | Allocated | Dangling.

#[export] Instance bitmap_ptr_eq_dec : EqDecision bitmap_ptr.
Proof. solve_decision. Defined.

Record cyc := Cyc {
  calls : list (fn * Z);
  toi_result : Z;
  toi_state : Z;
  toi_action : Z;
  tuxonice_in_use : bool;
  pm_mutex : bool;
  snapshot_device_available : Z;
  module_refs : Z;                  (* toi_get_modules less toi_put_modules *)
  kernel_ds : bool;
  oldfs : bool;
  block_dump : Z;
  block_dump_save : Z;
  one_cpu : bool;                   (* cpus_allowed is the first cpu only *)
  pf_memalloc : bool;
  allocators : list bool;           (* enabled *)
  toiActiveAllocator : option nat;
  resume_file : Z;
  alt_resume_param : Z;
  resume_param_save : Z;
  toi_state_save : Z;
  pre_hibernate_command : bool;     (* not empty *)
  post_hibernate_command : bool;
  bitmaps : list bitmap_ptr;        (* pageset1, copy, pageset2, io, nosave, free, resave *)
  bitmaps_save : list bitmap_ptr;   (* pageset1, copy *)
  bitmaps_held : Z;                 (* structures allocated and not freed *)
  boot_kernel_data_buffer : bool;
  buffers_held : Z;                 (* pages allocated and not freed *)
  notified : Z;                     (* PREPAREs less POSTs *)
  extra_pd1_pages_allowance : Z;
  extra_pd1_pages_used : Z;
  nr_hibernates : Z;
  toi_in_hibernate : bool;
  resume_attempted : bool;
  did_suspend_to_both : bool;
  toi_poweroff_method : Z;
  post_wake_state : Z
}.

#[export] Instance cyc_eta : Eta cyc := fun s =>
  Cyc (calls s) (toi_result s) (toi_state s) (toi_action s) (tuxonice_in_use s) (pm_mutex s)
    (snapshot_device_available s) (module_refs s) (kernel_ds s) (oldfs s) (block_dump s) (block_dump_save s)
    (one_cpu s) (pf_memalloc s) (allocators s) (toiActiveAllocator s) (resume_file s) (alt_resume_param s)
    (resume_param_save s) (toi_state_save s) (pre_hibernate_command s) (post_hibernate_command s) (bitmaps s)
    (bitmaps_save s) (bitmaps_held s) (boot_kernel_data_buffer s) (buffers_held s) (notified s)
    (extra_pd1_pages_allowance s) (extra_pd1_pages_used s) (nr_hibernates s) (toi_in_hibernate s)
    (resume_attempted s) (did_suspend_to_both s) (toi_poweroff_method s) (post_wake_state s).

(** ** A monad with ways out

    The machine goes off or is left to another kernel; a mutex that is held is
    waited for; a wild pointer is used, or the kernel panics. *)

Inductive outcome (A : Type) := Ret (s : cyc) (a : A) | Off (s : cyc) | Blocked (s : cyc) | Crash (s : cyc).
Arguments Ret {A}.
Arguments Blocked {A}.
Arguments Off {A}.
Arguments Crash {A}.

Definition C (A : Type) : Type := cyc -> outcome A.

Definition cret {A} (a : A) : C A := fun s => Ret s a.
Definition cbind {A B} (m : C A) (k : A -> C B) : C B := fun s =>
  match m s with Ret s a => k a s | Off s => Off s | Blocked s => Blocked s | Crash s => Crash s end.
Definition cget {A} (f : cyc -> A) : C A := fun s => Ret s (f s).
Definition cmod (f : cyc -> cyc) : C unit := fun s => Ret (f s) tt.
Definition panic_if (b : bool) : C unit := if b then Crash else cret tt.

Declare Scope cycle_scope.
Notation "x '<~' m ;; k" := (cbind m (fun x => k)) (at level 100, m at next level, right associativity) : cycle_scope.
Notation "m ;~ k" := (cbind m (fun _ => k)) (at level 100, right associativity) : cycle_scope.
#[local] Open Scope cycle_scope.
#[local] Open Scope step_scope.

Definition when (b : bool) (m : C unit) : C unit := if b then m else cret tt.

Section Cycle.
Context (world : fn -> nat -> answer).

Definition raise (l : list result_flag) (w : Z) : Z := foldl (fun w f => set_result_state f w) w l.

Definition ask (f : fn) : C answer := fun s =>
  let a := world f (length (calls s)) in
  Ret (s {{ calls := calls s ++ [(f, ret_val a)]; toi_result := raise (raised a) (toi_result s) }}) a.

Definition call (f : fn) : C Z := a <~ ask f;; cret (ret_val a).
Definition call_ (f : fn) : C unit := ask f;~ cret tt.

Definition in_result (f : result_flag) : C bool := cget (fun s => test_result_state f (toi_result s)).
Definition in_state (f : state_flag) : C bool := cget (fun s => test_toi_state f (toi_state s)).
Definition in_action (f : action_flag) : C bool := cget (fun s => test_action_state f (toi_action s)).
Definition put_state (b : bool) (f : state_flag) : C unit :=
  cmod (fun s => s {{ toi_state := (if b then set_toi_state else clear_toi_state) f (toi_state s) }}).
Definition abort_result (f : result_flag) : C unit := cmod (fun s => s {{ toi_result := set_abort_result f (toi_result s) }}).
Definition mark_result (f : result_flag) : C unit := cmod (fun s => s {{ toi_result := set_result_state f (toi_result s) }}).

(** ** The allocator for resume= (tuxonice_io.c) *)

Fixpoint try_allocators (n : nat) (l : list bool) : C Z :=
  match l with
  | [] => cret 0
  | enabled :: l' =>
      if negb enabled then try_allocators (S n) l'
      else
        a <~ ask (Parse_sig_location n);;
        put_state (can_hibernate_now a) TOI_CAN_HIBERNATE;~
        if ret_val a =? - EINVAL then cret 0
        else if ret_val a =? 0 then
          cmod (fun s => s {{ toiActiveAllocator := Some n }});~
          put_state true TOI_RESUME_DEVICE_OK;~
          put_state true TOI_CAN_RESUME;~
          cret 1
        else try_allocators (S n) l'
  end.

Definition toi_attempt_to_parse_resume_device : C Z :=
  r <~ call (Toi_activate_storage false);;
  if negb (r =? 0) then cret 0
  else
    cmod (fun s => s {{ toiActiveAllocator := None }});~
    put_state false TOI_RESUME_DEVICE_OK;~
    put_state false TOI_CAN_RESUME;~
    cmod (fun s => s {{ toi_result := clear_result_state TOI_ABORTED (toi_result s) }});~
    l <~ cget allocators;;
    file <~ cget resume_file;;
    returning <~ (if bool_decide (l = []) || (file =? 0) then cret 0 else try_allocators 0 l);;
    call_ (Toi_deactivate_storage false);~
    cret returning.

Definition save_restore_alt_param (replace : bool) : C unit :=
  cmod (fun s =>
    if replace then s {{ toi_state_save := toi_state s; resume_param_save := resume_file s; resume_file := alt_resume_param s }}
    else s {{ resume_file := resume_param_save s; toi_state := toi_state_save s }});~
  toi_attempt_to_parse_resume_device;~
  cret tt.

Definition attempt_to_parse_alt_resume_param : C unit :=
  alt <~ cget alt_resume_param;;
  if alt =? 0 then cret tt
  else
    save_restore_alt_param true;~
    ok <~ in_state TOI_CAN_RESUME;;
    save_restore_alt_param false;~
    when (negb ok) (cmod (fun s => s {{ alt_resume_param := 0 }})).

(** ** Starting and finishing *)

Definition toi_finish_anything (hibernate_or_resume : Z) : C unit :=
  call_ Toi_cleanup_modules;~
  call_ Toi_put_modules;~
  cmod (fun s => s {{ module_refs := module_refs s - 1 }});~
  when (negb (hibernate_or_resume =? 0))
    (cmod (fun s => s {{ block_dump := block_dump_save s; one_cpu := false }});~
     post <~ cget post_hibernate_command;;
     when ((hibernate_or_resume =? SYSFS_HIBERNATE) && post) (call_ (Toi_launch_userspace_program false));~
     cmod (fun s => s {{ snapshot_device_available := snapshot_device_available s + 1; pm_mutex := false }}));~
  cmod (fun s => s {{ kernel_ds := oldfs s; tuxonice_in_use := false }}).

(** The labels of [toi_start_anything], from the last. *)
Definition snapshotdevice_unavailable (hor : bool) : C Z :=
  when hor (cmod (fun s => s {{ pm_mutex := false }}));~
  cmod (fun s => s {{ kernel_ds := oldfs s; tuxonice_in_use := false }});~
  cret (- EBUSY).

Definition prehibernate_err (hor : bool) : C Z :=
  when hor (cmod (fun s => s {{ snapshot_device_available := snapshot_device_available s + 1 }}));~
  snapshotdevice_unavailable hor.

Definition early_init_err (hor : bool) : C Z :=
  when hor (cmod (fun s => s {{ block_dump_save := block_dump s; one_cpu := false }}));~
  prehibernate_err hor.

Definition take_lock (held : cyc -> bool) (take : cyc -> cyc) : C unit :=
  b <~ cget held;; if b : bool then Blocked else cmod take.

Definition toi_start_anything (hibernate_or_resume : Z) : C Z :=
  let starting_cycle := hibernate_or_resume =? SYSFS_HIBERNATE in
  let hor := negb (hibernate_or_resume =? 0) in
  take_lock tuxonice_in_use (fun s => s {{ tuxonice_in_use := true }});~
  cmod (fun s => s {{ oldfs := kernel_ds s; kernel_ds := true }});~
  when hor (take_lock pm_mutex (fun s => s {{ pm_mutex := true }}));~
  available <~ cget snapshot_device_available;;
  if hor && (available =? 0) then snapshotdevice_unavailable hor
  else
    when hor (cmod (fun s => s {{ snapshot_device_available := snapshot_device_available s - 1 }}));~
    pre <~ cget pre_hibernate_command;;
    refused <~ (if starting_cycle && pre then call (Toi_launch_userspace_program true) else cret 0);;
    if negb (refused =? 0) then prehibernate_err hor
    else
      r <~ call Toi_get_modules;;
      if negb (r =? 0) then prehibernate_err hor
      else
        cmod (fun s => s {{ module_refs := module_refs s + 1 }});~
        when hor (cmod (fun s => s {{ block_dump_save := block_dump s; block_dump := 0; one_cpu := true }}));~
        r <~ call (Toi_initialise_modules true);;
        if negb (r =? 0) then early_init_err hor
        else
          active <~ cget toiActiveAllocator;;
          when (bool_decide (active = None)) (toi_attempt_to_parse_resume_device;~ cret tt);~
          r <~ call (Toi_initialise_modules false);;
          if r =? 0 then cret 0
          else call_ Toi_cleanup_modules;~ early_init_err hor.

(** ** Bitmaps *)

Definition set_bitmap (i : nat) (p : bitmap_ptr) (d : Z) : C unit :=
  cmod (fun s => s {{ bitmaps := <[i := p]> (bitmaps s); bitmaps_held := bitmaps_held s + d }}).

Definition alloc_a_bitmap (i : nat) : C Z :=
  p <~ call Kzalloc;;
  if p =? 0 then set_bitmap i Null 0;~ cret (- ENOMEM)
  else
    set_bitmap i Allocated 1;~
    result <~ call Memory_bm_create;;
    when (negb (result =? 0)) (set_bitmap i Dangling (-1));~
    cret result.

Fixpoint alloc_bitmaps (l : list nat) : C Z :=
  match l with
  | [] => cret 0
  | i :: l' => r <~ alloc_a_bitmap i;; if negb (r =? 0) then cret 1 else alloc_bitmaps l'
  end.

Definition allocate_bitmaps : C Z := alloc_bitmaps (seq 0 7).

(** [memory_bm_free] of a null or dangling pointer follows it. *)
Definition free_a_bitmap (i : nat) : C unit :=
  p <~ cget (fun s => nth i (bitmaps s) Null);;
  match p with
  | Null => cret tt
  | Allocated => set_bitmap i Null (-1)
  | Dangling => Crash
  end.

Fixpoint free_bitmaps_at (l : list nat) : C unit :=
  match l with [] => cret tt | i :: l' => free_a_bitmap i;~ free_bitmaps_at l' end.

Definition free_bitmaps : C unit := free_bitmaps_at (seq 0 7).

(** ** Cleaning up *)

(** The page for the boot kernel's data. *)
Definition cleanup_boot_data : C unit :=
  held <~ cget boot_kernel_data_buffer;;
  boot <~ in_state TOI_BOOT_KERNEL;;
  when held
    (when (negb boot) (cmod (fun s => s {{ buffers_held := buffers_held s - 1 }}));~
     cmod (fun s => s {{ boot_kernel_data_buffer := false }}));~
  put_state false TOI_BOOT_KERNEL.

Definition cleanup_image : C unit :=
  keep <~ in_action TOI_KEEP_IMAGE;;
  aborted <~ in_result TOI_ABORTED;;
  active <~ cget toiActiveAllocator;;
  if keep && negb aborted then mark_result TOI_KEPT_IMAGE
  else when (bool_decide (active <> None)) (call_ Remove_image).

Definition cleanup_notifiers : C unit :=
  prepared <~ in_state TOI_NOTIFIERS_PREPARE;;
  when prepared
    (call_ (Pm_notifier_call_chain PM_POST_HIBERNATION);~
     cmod (fun s => s {{ notified := notified s - 1 }});~
     put_state false TOI_NOTIFIERS_PREPARE).

Definition do_cleanup (get_debug_info restarting : bool) : C unit :=
  call_ Free_checksum_pages;~
  buffer <~ (if get_debug_info then call (Toi_get_zeroed_page 20) else cret 0);;
  when (negb (buffer =? 0)) (cmod (fun s => s {{ buffers_held := buffers_held s + 1 }}));~
  i <~ (if negb (buffer =? 0) then call Get_toi_debug_info else cret 0);;
  call_ Toi_free_extra_pagedir_memory;~
  cleanup_boot_data;~
  call_ Thaw_processes;~
  cleanup_image;~
  free_bitmaps;~
  call_ Usermodehelper_enable;~
  cleanup_notifiers;~
  when (negb (buffer =? 0) && negb (i =? 0)) (cmod (fun s => s {{ buffers_held := buffers_held s - 1 }}));~
  late <~ in_action TOI_LATE_CPU_HOTPLUG;;
  when (negb late) (call_ Enable_nonboot_cpus);~
  when (negb restarting) (call_ Toi_cleanup_console);~
  call_ Free_attention_list;~
  when (negb restarting) (call_ (Toi_deactivate_storage false));~
  put_state false TOI_IGNORE_LOGLEVEL;~
  put_state false TOI_TRYING_TO_RESUME;~
  put_state false TOI_NOW_RESUMING.

(** ** Powering down (tuxonice_power_off.c) *)

(** [out:] *)
Definition power_down_out : C unit := r <~ call (Read_pageset2 true);; panic_if (negb (r =? 0)).

(** After the [switch]. *)
Definition power_off (method : Z) : C unit :=
  when (negb (method =? 0) && negb (method =? 5)) (call_ Toi_cond_pause);~
  aborted <~ in_result TOI_ABORTED;;
  if aborted : bool then power_down_out else call_ Kernel_power_off;~ Off.

Definition __toi_power_down (method : Z) : C unit :=
  call_ Toi_cond_pause;~
  aborted <~ in_result TOI_ABORTED;;
  if aborted : bool then power_down_out
  else
    reboot <~ in_action TOI_REBOOT;;
    if reboot : bool then call_ Kernel_restart;~ Off
    else if method =? 3 then
      power_down_out;~
      error <~ call (Pm_notifier_call_chain PM_SUSPEND_PREPARE);;
      when (error =? 0)
        (error <~ call Suspend_devices_and_enter;;
         when (error =? 0) (cmod (fun s => s {{ did_suspend_to_both := true }})));~
      call_ (Pm_notifier_call_chain PM_POST_SUSPEND);~
      both <~ cget did_suspend_to_both;;
      if both : bool then cret tt else power_off method
    else if method =? 4 then
      r <~ call Hibernation_platform_enter;;
      if r =? 0 then Off else power_off method
    else power_off method.

Definition toi_check_resleep : C unit :=
  closed <~ call Lid_closed;;
  method <~ cget post_wake_state;;
  when (negb (closed =? 0) && (0 <=? method)) (__toi_power_down method).

(** The wake alarm is set before this. *)
Definition toi_power_down : C unit :=
  method <~ cget toi_poweroff_method;;
  __toi_power_down method;~
  toi_check_resleep.

(** ** Resuming *)

Definition do_check_can_resume : C Z :=
  buf <~ call (Toi_get_zeroed_page 21);;
  if buf =? 0 then cret 0
  else first <~ call Image_exists_read;; cret (if first =? 49 then 1 else 0).

Definition do_load_atomic_copy : C Z :=
  call_ (Toi_activate_storage false);~
  device_ok <~ in_state TOI_RESUME_DEVICE_OK;;
  found <~ (if device_ok : bool then cret 1 else toi_attempt_to_parse_resume_device);;
  if found =? 0 then call_ (Toi_deactivate_storage false);~ cret 1
  else
    r <~ allocate_bitmaps;;
    if negb (r =? 0) then cret 1
    else
      read_image_result <~ call Read_pageset1;;
      put_state false TOI_NORESUME_SPECIFIED;~
      call_ (Toi_deactivate_storage false);~
      cret (if read_image_result =? 0 then 0 else 1).

(** If it succeeds the restored kernel runs. *)
Definition atomic_restore : C Z := r <~ call Toi_atomic_restore;; if r =? 0 then Off else cret r.

Definition prepare_restore_load_alt_image (prepare : bool) : C unit :=
  if prepare then
    cmod (fun s => s {{ bitmaps_save := take 2 (bitmaps s); bitmaps := <[0%nat := Null]> (<[1%nat := Null]> (bitmaps s)) }});~
    put_state true TOI_LOADING_ALT_IMAGE
  else
    l <~ cget bitmaps;;
    saved <~ cget bitmaps_save;;
    match l, saved with
    | Allocated :: Allocated :: rest, [a; b] =>
        cmod (fun s => s {{ bitmaps := a :: b :: rest }});~
        put_state false TOI_NOW_RESUMING;~
        put_state false TOI_LOADING_ALT_IMAGE
    | _, _ => Crash
    end.

(** [case STEP_RESUME_ALT_IMAGE:] *)
Definition step_resume_alt_image : C unit :=
  cmod (fun s => s {{ toi_in_hibernate := false }});~
  save_restore_alt_param true;~
  prepare_restore_load_alt_image true;~
  can <~ do_check_can_resume;;
  when (negb (can =? 0))
    (r <~ do_load_atomic_copy;; when (r =? 0) (atomic_restore;~ cret tt));~
  prepare_restore_load_alt_image false;~
  save_restore_alt_param false.

Definition do_post_image_write : C Z :=
  alt <~ cget alt_resume_param;;
  when (negb (alt =? 0)) step_resume_alt_image;~
  toi_power_down;~
  cret 0.

Definition __toi_try_resume : C unit :=
  put_state true TOI_TRYING_TO_RESUME;~
  cmod (fun s => s {{ resume_attempted := true; pf_memalloc := true }});~
  can <~ do_check_can_resume;;
  when (negb (can =? 0))
    (r <~ do_load_atomic_copy;; when (r =? 0) (atomic_restore;~ cret tt));~
  do_cleanup false false;~
  cmod (fun s => s {{ pf_memalloc := false }});~
  put_state false TOI_IGNORE_LOGLEVEL;~
  put_state false TOI_TRYING_TO_RESUME;~
  put_state false TOI_NOW_RESUMING.

Definition _toi_try_resume : C unit :=
  cmod (fun s => s {{ resume_attempted := true }});~
  r <~ toi_start_anything SYSFS_RESUMING;;
  when (r =? 0)
    (__toi_try_resume;~
     put_state false TOI_BOOT_TIME;~
     toi_finish_anything SYSFS_RESUMING).

(** What the restored kernel does first (tuxonice_atomic_copy.c). *)
Definition copyback_post : C unit :=
  r <~ call (Toi_activate_storage true);;
  panic_if (negb (r =? 0));~
  call_ Toi_ui_post_atomic_restore;~
  call_ Toi_cond_pause;~
  r <~ call (Read_pageset2 false);;
  panic_if (negb (r =? 0));~
  toi_check_resleep.

(** ** Hibernating *)

Definition check_still_keeping_image : C bool :=
  keep <~ in_action TOI_KEEP_IMAGE;;
  if keep : bool then do_post_image_write;~ cret true
  else
    active <~ cget toiActiveAllocator;;
    panic_if (bool_decide (active = None));~
    call_ Remove_image;~
    cret false.

(** 1 when the image can be prepared, and on several failures. *)
Definition toi_init (restarting : bool) : C Z :=
  cmod (fun s => s {{ toi_result := 0; nr_hibernates := nr_hibernates s + 1 }});~
  can <~ in_state TOI_CAN_HIBERNATE;;
  r <~ (if can : bool then allocate_bitmaps else cret 1);;
  if negb (r =? 0) then cret 1
  else
    call_ Mark_nosave_pages;~
    when (negb restarting) (call_ Toi_prepare_console);~
    result <~ call (Pm_notifier_call_chain PM_HIBERNATION_PREPARE);;
    if negb (result =? 0) then mark_result TOI_NOTIFIERS_PREPARE_FAILED;~ cret 1
    else
      cmod (fun s => s {{ notified := notified s + 1 }});~
      put_state true TOI_NOTIFIERS_PREPARE;~
      result <~ call Usermodehelper_disable;;
      if negb (result =? 0) then mark_result TOI_USERMODE_HELPERS_ERR;~ cret 1
      else
        buffer <~ call (Toi_get_zeroed_page 37);;
        cmod (fun s => s {{ boot_kernel_data_buffer := negb (buffer =? 0);
                            buffers_held := buffers_held s + (if buffer =? 0 then 0 else 1) }});~
        if buffer =? 0 then mark_result TOI_OUT_OF_MEMORY;~ cret 1
        else
          late <~ in_action TOI_LATE_CPU_HOTPLUG;;
          r <~ (if late : bool then cret 0 else call Disable_nonboot_cpus);;
          if r =? 0 then cret 1
          else abort_result TOI_CPU_HOTPLUG_FAILED;~ cret 0.

Definition can_hibernate : C bool :=
  can <~ in_state TOI_CAN_HIBERNATE;;
  when (negb can) (toi_attempt_to_parse_resume_device;~ cret tt);~
  can <~ in_state TOI_CAN_HIBERNATE;;
  if negb can then abort_result TOI_CANT_SUSPEND;~ cret false
  else
    alt <~ cget alt_resume_param;;
    if alt =? 0 then cret true
    else
      attempt_to_parse_alt_resume_param;~
      alt <~ cget alt_resume_param;;
      if alt =? 0 then abort_result TOI_CANT_USE_ALT_RESUME;~ cret false
      else cret true.

Definition do_prepare_image : C Z :=
  restarting <~ in_result TOI_EXTRA_PAGES_ALLOW_TOO_SMALL;;
  r <~ (if restarting : bool then cret 0 else call (Toi_activate_storage false));;
  if negb (r =? 0) then cret 1
  else
    can <~ can_hibernate;;
    if negb can then cret 1
    else
      kept <~ in_result TOI_KEPT_IMAGE;;
      keeping <~ (if kept : bool then check_still_keeping_image else cret false);;
      if keeping : bool then cret 1
      else
        r <~ toi_init restarting;;
        if r =? 0 then cret 1
        else
          r <~ call Toi_prepare_image;;
          aborted <~ in_result TOI_ABORTED;;
          cret (if (r =? 0) && negb aborted then 0 else 1).

Definition abort_reloading_pagedir_two : C Z :=
  temp_result <~ call (Read_pageset2 true);;
  panic_if (negb (temp_result =? 0));~
  cret 1.

(** The atomic copy: the result, and whether the copy was made.  Also left at
    resume time. *)
Definition copy_and_return (temp_result : Z) : C (Z * bool) :=
  r <~ call Toi_go_atomic;;
  if negb (r =? 0) then cret (temp_result, false)
  else
    a <~ ask Toi_hibernate;;
    cmod (fun s => s {{ extra_pd1_pages_used := used a; toi_in_hibernate := toi_in_hibernate s && negb (resumed a) }});~
    when (resumed a) (put_state true TOI_NOW_RESUMING);~
    suspend_time <~ cget toi_in_hibernate;;
    call_ (Toi_end_atomic suspend_time (ret_val a));~
    cret (ret_val a, ret_val a =? 0).

(** From "About to write pageset1" on. *)
Definition write_rest : C Z :=
  call_ Toi_cond_pause;~
  temp_result <~ call (Write_pageset 1);;
  speed <~ in_action TOI_TEST_FILTER_SPEED;;
  if speed : bool then cret 1
  else
    aborted <~ in_result TOI_ABORTED;;
    if (temp_result =? 1) || aborted then abort_reloading_pagedir_two
    else
      call_ Toi_cond_pause;~
      aborted <~ in_result TOI_ABORTED;;
      if aborted : bool then abort_reloading_pagedir_two
      else
        temp_result <~ call Write_image_header;;
        bio <~ in_action TOI_TEST_BIO;;
        if bio : bool then cret 1
        else
          aborted <~ in_result TOI_ABORTED;;
          if (temp_result =? 0) && negb aborted then cret 0 else abort_reloading_pagedir_two.

Definition __save_image : C Z :=
  call_ Toi_cond_pause;~
  temp_result <~ call (Write_pageset 2);;
  aborted <~ in_result TOI_ABORTED;;
  if (temp_result =? -1) || aborted then cret 1
  else
    call_ Toi_cond_pause;~
    aborted <~ in_result TOI_ABORTED;;
    if aborted : bool then cret 1
    else
      call_ (Toi_deactivate_storage true);~
      cmod (fun s => s {{ toi_in_hibernate := true }});~
      done <~ copy_and_return temp_result;;
      r <~ call (Toi_activate_storage true);;
      panic_if (negb (r =? 0));~
      hibernating <~ cget toi_in_hibernate;;
      if negb hibernating then copyback_post;~ cret 0
      else
        aborted <~ in_result TOI_ABORTED;;
        if negb (fst done =? 0) || aborted then
          if snd done then abort_reloading_pagedir_two else cret 1
        else
          call_ Toi_update_status;~
          aborted <~ in_result TOI_ABORTED;;
          if aborted : bool then abort_reloading_pagedir_two else write_rest.

Definition do_save_image : C Z :=
  call_ (Map_ps2_pages false);~
  result <~ __save_image;;
  call_ (Map_ps2_pages true);~
  cret result.

(** From the label prepare to the label out; [left]: how often the allowance
    can still be adjusted. *)
Fixpoint attempts (left : nat) : C Z :=
  result <~ do_prepare_image;;
  test <~ in_action TOI_FREEZER_TEST;;
  if negb (result =? 0) || test then cret result
  else
    result <~ do_save_image;;
    small <~ in_result TOI_EXTRA_PAGES_ALLOW_TOO_SMALL;;
    match small, left with
    | true, S left' =>
        do_cleanup false true;~
        cmod (fun s => s {{ toi_result := clear_result_state TOI_ABORTED (toi_result s);
                            extra_pd1_pages_allowance := extra_pd1_pages_used s + 500 }});~
        attempts left'
    | _, _ =>
        hibernating <~ cget toi_in_hibernate;;
        if (result =? 0) && hibernating then do_post_image_write else cret result
    end.

Definition _toi_try_hibernate : C Z :=
  locked <~ cget tuxonice_in_use;;
  r <~ (if locked : bool then cret 0 else toi_start_anything SYSFS_HIBERNATING);;
  if negb (r =? 0) then cret (- EBUSY)
  else
    cmod (fun s => s {{ pf_memalloc := true }});~
    cluster <~ in_state TOI_CLUSTER_MODE;;
    result <~ (if cluster : bool then call_ Toi_initiate_cluster_hibernate;~ cret 0 else attempts 2);;
    do_cleanup true false;~
    cmod (fun s => s {{ pf_memalloc := false }});~
    when (negb locked) (toi_finish_anything SYSFS_HIBERNATING);~
    cret result.

Inductive step :=
  STEP_HIBERNATE_PREPARE_IMAGE | STEP_HIBERNATE_SAVE_IMAGE | STEP_HIBERNATE_POWERDOWN | STEP_RESUME_CAN_RESUME
| STEP_RESUME_LOAD_PS1 | STEP_RESUME_DO_RESTORE | STEP_RESUME_READ_PS2 | STEP_RESUME_GO | STEP_RESUME_ALT_IMAGE
| STEP_CLEANUP | STEP_QUIET_CLEANUP.

Definition do_toi_step (s : step) : C Z :=
  match s with
  | STEP_HIBERNATE_PREPARE_IMAGE => do_prepare_image
  | STEP_HIBERNATE_SAVE_IMAGE => do_save_image
  | STEP_HIBERNATE_POWERDOWN => do_post_image_write
  | STEP_RESUME_CAN_RESUME => do_check_can_resume
  | STEP_RESUME_LOAD_PS1 => do_load_atomic_copy
  | STEP_RESUME_DO_RESTORE => atomic_restore
  | STEP_RESUME_ALT_IMAGE => step_resume_alt_image;~ cret 0
  | STEP_CLEANUP => do_cleanup true false;~ cret 0
  | STEP_QUIET_CLEANUP => do_cleanup false false;~ cret 0
  | STEP_RESUME_READ_PS2 | STEP_RESUME_GO => cret 0
  end.
End Cycle.
