(* ===== verification/HighLevelFacts.v ===== *)
(** * Facts about a cycle

    What a cycle takes it gives back, however its parts answer; and the
    machine is not switched off before an image is complete. *)

From S2P Require Import Prelude States HighLevel.
From stdpp Require Import numbers base list sets.
#[local] Open Scope Z_scope.
#[local] Open Scope cycle_scope.
#[local] Open Scope step_scope.

(** ** Reasoning about runs *)

(** [cwp O bad m R s]: if [m], run from [s], returns, then with [R]; if it
    goes off, then with [O]; it does neither only if [bad]. *)
Definition cwp {A} (O : cyc -> Prop) (bad : Prop) (m : C A) (R : A -> cyc -> Prop) (s : cyc) : Prop :=
  match m s with Ret s' a => R a s' | Off s' => O s' | Blocked _ | Crash _ => bad end.

Lemma cwp_bind {A B} O bad (m : C A) (k : A -> C B) R s :
  cwp O bad m (fun a s' => cwp O bad (k a) R s') s -> cwp O bad (cbind m k) R s.
Proof. unfold cwp, cbind. by destruct (m s). Qed.

Lemma cwp_mono {A} O bad (m : C A) (R R' : A -> cyc -> Prop) s :
  cwp O bad m R s -> (forall a s', R a s' -> R' a s') -> cwp O bad m R' s.
Proof. unfold cwp. destruct (m s); auto. Qed.

(** [m] keeps the invariant [I]. *)
Definition safe {A} (O : cyc -> Prop) (bad : Prop) (I : cyc -> Prop) (m : C A) : Prop :=
  forall s, I s -> cwp O bad m (fun _ => I) s.

Section Safe.
Context (O : cyc -> Prop) (bad : Prop) (I : cyc -> Prop).

Lemma safe_bind {A B} (m : C A) (k : A -> C B) :
  safe O bad I m -> (forall a, safe O bad I (k a)) -> safe O bad I (cbind m k).
Proof. intros Hm Hk s Hs. apply cwp_bind. eapply cwp_mono; [by apply Hm|]. intros a s' Hs'. by apply Hk. Qed.

Lemma safe_ret {A} (a : A) : safe O bad I (cret a).
Proof. by intros s Hs. Qed.

Lemma safe_get {A} (f : cyc -> A) : safe O bad I (cget f).
Proof. by intros s Hs. Qed.

Lemma safe_mod f : (forall s, I s -> I (f s)) -> safe O bad I (cmod f).
Proof. intros Hf s Hs. by apply Hf. Qed.

Lemma safe_when b m : safe O bad I m -> safe O bad I (when b m).
Proof. intros Hm. destruct b; [done|apply safe_ret]. Qed.

Lemma safe_if {A} (b : bool) (m m' : C A) : safe O bad I m -> safe O bad I m' -> safe O bad I (if b then m else m').
Proof. by destruct b. Qed.

Lemma safe_off {A} : (forall s, I s -> O s) -> safe O bad I (@Off A).
Proof. intros HO s Hs. by apply HO. Qed.
End Safe.

(** Through the structure of a program, down to its calls. *)
Ltac walk :=
  repeat match goal with
  | |- forall _, _ => intros ?
  | |- safe _ _ _ (cbind _ _) => apply safe_bind
  | |- safe _ _ _ (when _ _) => apply safe_when
  | |- safe _ _ _ (if _ then _ else _) => apply safe_if
  | |- safe _ _ _ (cret _) => apply safe_ret
  | |- safe _ _ _ (cget _) => apply safe_get
  | |- safe _ _ _ (in_state _) => apply safe_get
  | |- safe _ _ _ (in_result _) => apply safe_get
  | |- safe _ _ _ (in_action _) => apply safe_get
  | |- safe _ _ _ _ => solve [auto 2 with safe]
  end.

Create HintDb safe.
#[export] Hint Resolve safe_bind safe_ret safe_get safe_when safe_if : safe.

(** ** What is taken *)

Definition count_allocated (l : list bitmap_ptr) : Z := Z.of_nat (length (filter (fun p => p = Allocated) l)).

(** What [toi_start_anything] takes. *)
Definition locks (s : cyc) : bool * bool * Z * Z * (bool * bool) * (Z * Z) * bool * bool :=
  (tuxonice_in_use s, pm_mutex s, snapshot_device_available s, module_refs s, (kernel_ds s, oldfs s),
   (block_dump s, block_dump_save s), one_cpu s, pf_memalloc s).

(** What a cycle begun in [s0] has taken is accounted for: [e] more buffers,
    and [k] attempts made. *)
Record accounted (s0 : cyc) (e k : Z) (s : cyc) : Prop := {
  ac_length : length (bitmaps s) = 7%nat;
  ac_live : Dangling ∉ bitmaps s;
  ac_bitmaps : bitmaps_held s = bitmaps_held s0 + count_allocated (bitmaps s);
  ac_buffers : buffers_held s = buffers_held s0 + e + Z.b2z (boot_kernel_data_buffer s);
  ac_notified : notified s = notified s0 + Z.b2z (test_toi_state TOI_NOTIFIERS_PREPARE (toi_state s));
  ac_boot : test_toi_state TOI_BOOT_KERNEL (toi_state s) = false;
  ac_alt : alt_resume_param s = 0;
  ac_kept : test_result_state TOI_KEPT_IMAGE (toi_result s) = true -> test_action_state TOI_KEEP_IMAGE (toi_action s) = true;
  ac_action : toi_action s = toi_action s0;
  ac_attempts : nr_hibernates s = nr_hibernates s0 + k;
  ac_locks : locks s = locks s0
}.

(** Nothing is taken. *)
Record clean (s0 : cyc) (k : Z) (s : cyc) : Prop := {
  cl_accounted : accounted s0 0 k s;
  cl_bitmaps : bitmaps s = replicate 7 Null;
  cl_buffer : boot_kernel_data_buffer s = false;
  cl_notifiers : test_toi_state TOI_NOTIFIERS_PREPARE (toi_state s) = false
}.

Lemma count_insert l i p q :
  l !! i = Some q ->
  count_allocated (<[i := p]> l) = count_allocated l + Z.b2z (bool_decide (p = Allocated)) - Z.b2z (bool_decide (q = Allocated)).
Proof.
  unfold count_allocated. revert i. induction l as [|x l IH]; intros [|i] Hi; [done..| |].
  - injection Hi as ->. change (<[0%nat := p]> (q :: l)) with (p :: l). rewrite !filter_cons.
    repeat case_decide; repeat case_bool_decide; try done; cbn [length Z.b2z]; lia.
  - simpl in Hi. apply IH in Hi. change (<[S i := p]> (x :: l)) with (x :: <[i := p]> l). rewrite !filter_cons.
    destruct (decide (x = Allocated)); cbn [length]; rewrite ?Nat2Z.inj_succ, Hi; lia.
Qed.

Lemma all_null l : length l = 7%nat -> (forall i, (i < 7)%nat -> nth i l Null = Null) -> l = replicate 7 Null.
Proof.
  intros Hl Hn. apply list_eq. intros i. destruct (decide (i < 7)%nat) as [Hi|Hi].
  - rewrite lookup_replicate_2 by done. destruct (lookup_lt_is_Some_2 l i) as [p Hp]; [lia|].
    rewrite Hp, <- (Hn i Hi). f_equal. symmetry. by apply nth_lookup_Some.
  - rewrite (lookup_ge_None_2 l) by lia. symmetry. apply lookup_ge_None_2. rewrite length_replicate. lia.
Qed.

Lemma state_bit_ne f g : f <> g -> state_bit f <> state_bit g.
Proof. intros Hn Hb. apply Hn. by destruct f, g. Qed.

Lemma test_put_state b f g w :
  test_toi_state g ((if b : bool then set_toi_state else clear_toi_state) f w) =
  if decide (f = g) then b else test_toi_state g w.
Proof.
  unfold test_toi_state, set_toi_state, clear_toi_state. case_decide as E.
  - subst. destruct b; [apply test_set_flag, state_bit_nonneg|apply test_clear_flag].
  - apply state_bit_ne in E. destruct b; [apply test_set_flag_ne|apply test_clear_flag_ne]; auto using state_bit_nonneg.
Qed.

Lemma test_clear_toi f w : test_toi_state f (clear_toi_state f w) = false.
Proof. apply test_clear_flag. Qed.

Lemma test_clear_toi_ne f g w : f <> g -> test_toi_state g (clear_toi_state f w) = test_toi_state g w.
Proof. intros Hn. by apply test_clear_flag_ne, state_bit_ne. Qed.

Lemma test_set_toi f w : test_toi_state f (set_toi_state f w) = true.
Proof. apply test_set_flag, state_bit_nonneg. Qed.

Lemma test_set_toi_ne f g w : f <> g -> test_toi_state g (set_toi_state f w) = test_toi_state g w.
Proof. intros Hn. apply test_set_flag_ne; [apply state_bit_nonneg|by apply state_bit_ne]. Qed.

Lemma kept_raise l w : TOI_KEPT_IMAGE ∉ l ->
  test_result_state TOI_KEPT_IMAGE (raise l w) = test_result_state TOI_KEPT_IMAGE w.
Proof.
  unfold raise. revert w. induction l as [|f l IH]; intros w Hl; [done|]. simpl. rewrite IH by set_solver.
  rewrite test_set_result, bool_decide_eq_false_2 by set_solver. done.
Qed.

(** No cycle is running. *)
Record idle (s : cyc) : Prop := {
  id_in_use : tuxonice_in_use s = false;
  id_pm : pm_mutex s = false;
  id_cpus : one_cpu s = false;
  id_memalloc : pf_memalloc s = false;
  id_bitmaps : bitmaps s = replicate 7 Null;
  id_buffer : boot_kernel_data_buffer s = false;
  id_notifiers : test_toi_state TOI_NOTIFIERS_PREPARE (toi_state s) = false;
  id_boot : test_toi_state TOI_BOOT_KERNEL (toi_state s) = false;
  id_kept : test_result_state TOI_KEPT_IMAGE (toi_result s) = true -> test_action_state TOI_KEEP_IMAGE (toi_action s) = true
}.

(** What the user, the modules, the memory manager and the notifiers see is
    as before; [b], [r]: but for block_dump and the references to modules. *)
Record given_back (block_dump' refs : Z) (s s' : cyc) : Prop := {
  gb_in_use : tuxonice_in_use s' = false;
  gb_pm : pm_mutex s' = false;
  gb_available : snapshot_device_available s' = snapshot_device_available s;
  gb_refs : module_refs s' = module_refs s + refs;
  gb_fs : kernel_ds s' = kernel_ds s;
  gb_dump : block_dump s' = block_dump';
  gb_cpus : one_cpu s' = false;
  gb_memalloc : pf_memalloc s' = false;
  gb_bitmaps : bitmaps s' = replicate 7 Null;
  gb_held : bitmaps_held s' = bitmaps_held s;
  gb_buffers : buffers_held s' = buffers_held s;
  gb_notified : notified s' = notified s
}.

Section Balanced.
Context (world : fn -> nat -> answer).
Context (Hkept : forall f n, TOI_KEPT_IMAGE ∉ raised (world f n)).
Context (Hcreate : forall n, ret_val (world Memory_bm_create n) = 0).
Context (Hstorage : forall n, ret_val (world (Toi_activate_storage true) n) = 0).
Context (Hreload : forall b n, ret_val (world (Read_pageset2 b) n) = 0).
Context (Hdebug : forall n, ret_val (world Get_toi_debug_info n) <> 0).

Abbreviation keeps s0 e k := (safe (fun _ => True) False (accounted s0 e k)).

Lemma keeps_ask s0 e k f : keeps s0 e k (ask world f).
Proof using Hkept. intros s []. constructor; auto. simpl. by rewrite kept_raise. Qed.

Lemma keeps_call s0 e k f : keeps s0 e k (call world f).
Proof using Hkept. apply safe_bind; [apply keeps_ask|]. intros a. apply safe_ret. Qed.

Lemma keeps_call_ s0 e k f : keeps s0 e k (call_ world f).
Proof using Hkept. apply safe_bind; [apply keeps_ask|]. intros a. apply safe_ret. Qed.

Lemma keeps_put s0 e k b f : f <> TOI_NOTIFIERS_PREPARE -> f <> TOI_BOOT_KERNEL -> keeps s0 e k (put_state b f).
Proof.
  intros H1 H2 s []. constructor; simpl; auto; by rewrite test_put_state, decide_False by congruence.
Qed.

Lemma keeps_mark s0 e k f : f <> TOI_KEPT_IMAGE -> keeps s0 e k (mark_result f).
Proof. intros Hf s []. constructor; simpl; auto. by rewrite test_set_result, bool_decide_eq_false_2. Qed.

Lemma keeps_abort s0 e k f : f <> TOI_KEPT_IMAGE -> keeps s0 e k (abort_result f).
Proof.
  intros Hf s []. constructor; simpl; auto. unfold set_abort_result. by rewrite !test_set_result, !bool_decide_eq_false_2.
Qed.

(** A call whose answer is known. *)
Lemma keeps_known {A} s0 e k f v (m : Z -> C A) :
  (forall n, ret_val (world f n) = v) -> keeps s0 e k (m v) -> keeps s0 e k (r <~ call world f;; m r).
Proof using Hkept.
  intros Hv Hm s Hs. apply cwp_bind. unfold call. apply cwp_bind. unfold cwp at 1. cbn. rewrite Hv. apply Hm.
  destruct Hs. constructor; auto. simpl. by rewrite kept_raise.
Qed.

Lemma keeps_reload s0 e k : keeps s0 e k (power_down_out world).
Proof using Hkept Hreload. eapply keeps_known; [apply Hreload|]. apply safe_ret. Qed.

Lemma keeps_abort_reloading s0 e k : keeps s0 e k (abort_reloading_pagedir_two world).
Proof using Hkept Hreload. eapply keeps_known; [apply Hreload|]. apply safe_bind; [apply safe_ret|]. intros. apply safe_ret. Qed.

#[local] Hint Resolve keeps_ask keeps_call keeps_call_ keeps_mark keeps_abort keeps_reload keeps_abort_reloading : safe.
#[local] Hint Extern 1 (safe _ _ _ (put_state _ _)) => (apply keeps_put; discriminate) : safe.
#[local] Hint Extern 1 (safe _ _ _ (cmod _)) => (apply safe_mod; intros ? []; constructor; simpl; auto; fail) : safe.
#[local] Hint Extern 1 (safe _ _ _ Off) => (apply safe_off; done) : safe.
#[local] Hint Extern 1 (_ <> _) => discriminate : safe.
#[local] Hint Extern 1 (safe _ _ _ (panic_if (negb (0 =? 0)))) => apply safe_ret : safe.

Ltac keep := eauto 30 with safe.

Lemma keeps_power_off s0 e k m : keeps s0 e k (power_off world m).
Proof using Hkept Hreload. unfold power_off. keep. Qed.
#[local] Hint Resolve keeps_power_off : safe.

Lemma keeps_power_down_method s0 e k m : keeps s0 e k (__toi_power_down world m).
Proof using Hkept Hreload. unfold __toi_power_down. keep. Qed.
#[local] Hint Resolve keeps_power_down_method : safe.

Lemma keeps_check_resleep s0 e k : keeps s0 e k (toi_check_resleep world).
Proof using Hkept Hreload. unfold toi_check_resleep. keep. Qed.
#[local] Hint Resolve keeps_check_resleep : safe.

Lemma keeps_power_down s0 e k : keeps s0 e k (toi_power_down world).
Proof using Hkept Hreload. unfold toi_power_down. keep. Qed.
#[local] Hint Resolve keeps_power_down : safe.

(** The alternate resume parameter is empty. *)
Lemma keeps_no_alt {A} s0 e k (m : Z -> C A) : keeps s0 e k (m 0) -> keeps s0 e k (alt <~ cget alt_resume_param;; m alt).
Proof. intros Hm s Hs. apply cwp_bind. unfold cwp at 1, cget. rewrite (ac_alt _ _ _ _ Hs). by apply Hm. Qed.

Lemma keeps_try_allocators s0 e k n l : keeps s0 e k (try_allocators world n l).
Proof using Hkept. revert n. induction l as [|b l IH]; intros n; cbn [try_allocators]; keep. Qed.
#[local] Hint Resolve keeps_try_allocators : safe.

Lemma keeps_parse s0 e k : keeps s0 e k (toi_attempt_to_parse_resume_device world).
Proof using Hkept.
  assert (keeps s0 e k (cmod (fun s => s {{ toi_result := clear_result_state TOI_ABORTED (toi_result s) }}))) as Hc.
  { apply safe_mod. intros s []. constructor; simpl; auto. by rewrite test_clear_result. }
  unfold toi_attempt_to_parse_resume_device. keep.
Qed.
#[local] Hint Resolve keeps_parse : safe.

Lemma keeps_can_hibernate s0 e k : keeps s0 e k (can_hibernate world).
Proof using Hkept.
  unfold can_hibernate. do 3 (apply safe_bind; [keep|intros ?]). apply safe_if; [keep|]. by apply keeps_no_alt, safe_ret.
Qed.
#[local] Hint Resolve keeps_can_hibernate : safe.

Lemma keeps_post_image_write s0 e k : keeps s0 e k (do_post_image_write world).
Proof using Hkept Hreload. unfold do_post_image_write. apply keeps_no_alt. cbn [Z.eqb negb]. unfold when. keep. Qed.
#[local] Hint Resolve keeps_post_image_write : safe.

Lemma keeps_copyback s0 e k : keeps s0 e k (copyback_post world).
Proof using Hkept Hreload Hstorage.
  unfold copyback_post. eapply keeps_known; [apply Hstorage|]. do 3 (apply safe_bind; [keep|intros _]).
  eapply keeps_known; [apply Hreload|]. keep.
Qed.
#[local] Hint Resolve keeps_copyback : safe.

Lemma keeps_copy s0 e k r : keeps s0 e k (copy_and_return world r).
Proof using Hkept. unfold copy_and_return. keep. Qed.
#[local] Hint Resolve keeps_copy : safe.

Lemma keeps_write_rest s0 e k : keeps s0 e k (write_rest world).
Proof using Hkept Hreload. unfold write_rest. keep. Qed.
#[local] Hint Resolve keeps_write_rest : safe.

Lemma keeps_save_image s0 e k : keeps s0 e k (do_save_image world).
Proof using Hkept Hreload Hstorage.
  assert (forall r, keeps s0 e k (x <~ copy_and_return world r;; r <~ call world (Toi_activate_storage true);;
    panic_if (negb (r =? 0));~ hibernating <~ cget toi_in_hibernate;;
    if negb hibernating then copyback_post world;~ cret 0
    else
      aborted <~ in_result TOI_ABORTED;;
      if negb (fst x =? 0) || aborted then if snd x then abort_reloading_pagedir_two world else cret 1
      else
        call_ world Toi_update_status;~
        aborted <~ in_result TOI_ABORTED;;
        if aborted : bool then abort_reloading_pagedir_two world else write_rest world)) as Hc.
  { intros r. apply safe_bind; [keep|intros x]. eapply keeps_known; [apply Hstorage|]. keep. }
  unfold do_save_image, __save_image. keep.
Qed.
#[local] Hint Resolve keeps_save_image : safe.

(** ** Bitmaps *)

Lemma keeps_set_bitmap s0 e k i p q d s :
  accounted s0 e k s -> bitmaps s !! i = Some q -> p <> Dangling ->
  d = Z.b2z (bool_decide (p = Allocated)) - Z.b2z (bool_decide (q = Allocated)) ->
  accounted s0 e k (s {{ bitmaps := <[i := p]> (bitmaps s); bitmaps_held := bitmaps_held s + d }}).
Proof.
  intros [] Hi Hp ->. constructor; simpl; auto.
  - by rewrite length_insert.
  - intros Hd%list_elem_of_lookup. destruct Hd as [j Hj]. apply list_lookup_insert_Some in Hj as [(_ & ? & _)|[_ Hj]]; [done|].
    apply ac_live0. by eapply list_elem_of_lookup_2.
  - rewrite (count_insert _ _ _ _ Hi). lia.
Qed.

(** Accounted for, and more about the bitmaps, the buffer and the state. *)
Definition accounted_with (s0 : cyc) (e k : Z) (Q : list bitmap_ptr -> bool -> Z -> Prop) (s : cyc) : Prop :=
  accounted s0 e k s /\ Q (bitmaps s) (boot_kernel_data_buffer s) (toi_state s).

Abbreviation keeps_with s0 e k Q := (safe (fun _ => True) False (accounted_with s0 e k Q)).

Lemma with_ask s0 e k Q f : keeps_with s0 e k Q (ask world f).
Proof using Hkept. intros s (H1 & H2). split; [by apply (keeps_ask s0 e k f s)|done]. Qed.

Lemma with_call_ s0 e k Q f : keeps_with s0 e k Q (call_ world f).
Proof using Hkept. apply safe_bind; [apply with_ask|]. intros a. apply safe_ret. Qed.

Lemma with_call {A} s0 e k Q f (m : Z -> C A) R s :
  accounted_with s0 e k Q s ->
  (forall r s', accounted_with s0 e k Q s' -> bitmaps s' = bitmaps s -> r = ret_val (world f (length (calls s))) ->
     cwp (fun _ => True) False (m r) R s') ->
  cwp (fun _ => True) False (r <~ call world f;; m r) R s.
Proof using Hkept.
  intros He Hm. apply cwp_bind. unfold call. apply cwp_bind. unfold cwp at 1. cbn.
  apply Hm; [|done|done]. by apply (with_ask s0 e k Q f s).
Qed.

(** Before the notifiers are called. *)
Definition before_notifiers (_ : list bitmap_ptr) (buffer : bool) (st : Z) : Prop :=
  buffer = false /\ test_toi_state TOI_NOTIFIERS_PREPARE st = false.

Abbreviation early s0 k := (accounted_with s0 0 k before_notifiers).

Lemma alloc_a_bitmap_ok s0 k i s :
  early s0 k s -> bitmaps s !! i = Some Null ->
  cwp (fun _ => True) False (alloc_a_bitmap world i)
    (fun _ s' => early s0 k s' /\ forall j, j <> i -> bitmaps s' !! j = bitmaps s !! j) s.
Proof using Hkept Hcreate.
  intros He Hi. unfold alloc_a_bitmap. eapply with_call; [exact He|]. intros r s1 (H1 & H2) Hb _. destruct (r =? 0).
  - unfold cwp. cbn. rewrite Hb. split.
    + split; [|done]. rewrite <- Hb. eapply keeps_set_bitmap; [done|by rewrite Hb|done|done].
    + intros j Hj. by rewrite list_lookup_insert_ne.
  - apply cwp_bind. unfold cwp at 1, set_bitmap, cmod. eapply (with_call s0 0 k before_notifiers).
    + split; [|done]. by eapply keeps_set_bitmap; [|rewrite Hb| |].
    + intros r2 s2 He2 Hb2 ->. rewrite Hcreate. split; [done|]. intros j Hj. rewrite Hb2. simpl. rewrite Hb.
      by rewrite list_lookup_insert_ne.
Qed.

Lemma alloc_bitmaps_ok s0 k l s :
  early s0 k s -> NoDup l -> (forall i, i ∈ l -> bitmaps s !! i = Some Null) ->
  cwp (fun _ => True) False (alloc_bitmaps world l) (fun _ s' => early s0 k s') s.
Proof using Hkept Hcreate.
  revert s. induction l as [|i l IH]; intros s He Hn Hl; [done|]. apply NoDup_cons in Hn as [Hi Hn].
  cbn [alloc_bitmaps]. apply cwp_bind. eapply cwp_mono; [apply alloc_a_bitmap_ok; [exact He|apply Hl; left]|].
  intros r s' [He' Hs']. destruct (negb (r =? 0)); [done|]. apply IH; [done|done|]. intros j Hj.
  rewrite Hs' by (by intros ->). apply Hl. by right.
Qed.

Lemma free_a_bitmap_ok s0 e k i s :
  accounted s0 e k s -> (i < 7)%nat ->
  cwp (fun _ => True) False (free_a_bitmap i)
    (fun _ s' => accounted s0 e k s' /\ nth i (bitmaps s') Null = Null /\
       (forall j, nth j (bitmaps s) Null = Null -> nth j (bitmaps s') Null = Null) /\
       boot_kernel_data_buffer s' = boot_kernel_data_buffer s /\ toi_state s' = toi_state s) s.
Proof.
  intros Ha Hi. destruct (lookup_lt_is_Some_2 (bitmaps s) i) as [p Hp]; [rewrite (ac_length _ _ _ _ Ha); lia|].
  unfold free_a_bitmap. apply cwp_bind. unfold cwp at 1, cget. pose proof (nth_lookup_Some _ _ Null _ Hp) as Hn. rewrite Hn.
  destruct p; [by split_and!| |].
  - unfold cwp. cbn. split_and!; [by eapply keeps_set_bitmap| | |done|done].
    + rewrite nth_lookup, list_lookup_insert_eq by (rewrite (ac_length _ _ _ _ Ha); lia). done.
    + intros j Hj. rewrite nth_lookup in *. destruct (decide (j = i)) as [->|].
      * rewrite list_lookup_insert_eq by (rewrite (ac_length _ _ _ _ Ha); lia). done.
      * by rewrite list_lookup_insert_ne.
  - exfalso. apply (ac_live _ _ _ _ Ha). by eapply list_elem_of_lookup_2.
Qed.

Lemma free_bitmaps_at_ok s0 e k l s :
  accounted s0 e k s -> (forall i, i ∈ l -> (i < 7)%nat) ->
  cwp (fun _ => True) False (free_bitmaps_at l)
    (fun _ s' => accounted s0 e k s' /\
       (forall j, j ∈ l \/ nth j (bitmaps s) Null = Null -> nth j (bitmaps s') Null = Null) /\
       boot_kernel_data_buffer s' = boot_kernel_data_buffer s /\ toi_state s' = toi_state s) s.
Proof.
  revert s. induction l as [|i l IH]; intros s Ha Hl.
  { split_and!; [done| |done|done]. intros j [Hj|]; [by apply not_elem_of_nil in Hj|done]. }
  cbn [free_bitmaps_at]. apply cwp_bind. eapply cwp_mono; [apply (free_a_bitmap_ok s0 e k i s Ha); apply Hl; left|].
  intros _ s1 (Ha1 & Hi & Hn & Hb & Ht). eapply cwp_mono; [apply (IH s1 Ha1); set_solver|].
  intros _ s2 (Ha2 & Hj & Hb2 & Ht2). split_and!; [done| |congruence|congruence].
  intros j Hor. apply Hj. destruct Hor as [[->|]%elem_of_cons|]; auto.
Qed.

Lemma free_bitmaps_ok s0 e k s :
  accounted s0 e k s ->
  cwp (fun _ => True) False free_bitmaps
    (fun _ s' => accounted s0 e k s' /\ bitmaps s' = replicate 7 Null /\
       boot_kernel_data_buffer s' = boot_kernel_data_buffer s /\ toi_state s' = toi_state s) s.
Proof.
  intros Ha. unfold free_bitmaps. eapply cwp_mono; [apply (free_bitmaps_at_ok s0 e k _ s Ha)|].
  - intros i Hi%elem_of_seq. lia.
  - intros _ s' (Ha' & Hn & Hb & Ht). split_and!; [done| |done|done]. apply all_null; [apply Ha'|].
    intros i Hi. apply Hn. left. apply elem_of_seq. lia.
Qed.

(** ** Cleaning up *)

Lemma with_put s0 e k Q b f :
  f <> TOI_NOTIFIERS_PREPARE -> f <> TOI_BOOT_KERNEL ->
  (forall l c st, Q l c st -> Q l c ((if b : bool then set_toi_state else clear_toi_state) f st)) ->
  keeps_with s0 e k Q (put_state b f).
Proof. intros H1 H2 HQ s [Ha Hq]. split; [by apply (keeps_put s0 e k b f H1 H2 s)|]. by apply HQ. Qed.

Definition gone (l : list bitmap_ptr) (buffer : bool) (st : Z) : Prop := l = replicate 7 Null /\ buffer = false.
Definition all_gone (l : list bitmap_ptr) (buffer : bool) (st : Z) : Prop :=
  gone l buffer st /\ test_toi_state TOI_NOTIFIERS_PREPARE st = false.

Lemma all_gone_put b f l c st :
  f <> TOI_NOTIFIERS_PREPARE -> all_gone l c st -> all_gone l c ((if b : bool then set_toi_state else clear_toi_state) f st).
Proof. intros Hf [Hg Hn]. split; [done|]. by rewrite test_put_state, decide_False. Qed.

Lemma all_gone_clean s0 k s : accounted_with s0 0 k all_gone s <-> clean s0 k s.
Proof. split; [intros (H1 & (H2 & H3) & H4); by constructor|]. intros []. done. Qed.

(** The buffer of the boot kernel's data. *)
Lemma cleanup_boot_data_ok s0 e k s :
  accounted s0 e k s ->
  cwp (fun _ => True) False
    cleanup_boot_data
    (fun _ s' => accounted s0 e k s' /\ boot_kernel_data_buffer s' = false) s.
Proof.
  intros Ha. pose proof (ac_boot _ _ _ _ Ha) as Hb. pose proof (ac_buffers _ _ _ _ Ha) as Hh. destruct Ha.
  unfold cleanup_boot_data, in_state. do 2 (apply cwp_bind; unfold cwp at 1, cget). rewrite Hb. cbn [negb].
  destruct (boot_kernel_data_buffer s) eqn:E; cbn in Hh; (split; [|done]); constructor; simpl;
    rewrite ?test_clear_toi, ?test_clear_toi_ne by done; auto; try lia.
  rewrite E. cbn. lia.
Qed.

(** The notifiers. *)
Lemma cleanup_notifiers_ok s0 e k s :
  accounted_with s0 e k gone s ->
  cwp (fun _ => True) False
    (cleanup_notifiers world)
    (fun _ s' => accounted_with s0 e k all_gone s') s.
Proof using Hkept.
  intros [Ha Hg]. unfold cleanup_notifiers, in_state. apply cwp_bind. unfold cwp at 1, cget.
  destruct (test_toi_state TOI_NOTIFIERS_PREPARE (toi_state s)) eqn:E; cbn [when]; [|done].
  apply cwp_bind. eapply cwp_mono; [apply (with_call_ s0 e k (fun l c st => gone l c st /\ test_toi_state TOI_NOTIFIERS_PREPARE st = true)); done|].
  intros _ s1 [Ha1 [Hg1 E1]]. unfold cwp. cbn. destruct Ha1. split.
  - constructor; simpl; auto.
    + rewrite E1 in *. rewrite test_clear_toi. cbn in *. lia.
    + by rewrite test_clear_toi_ne.
  - split; [done|]. apply test_clear_toi.
Qed.

Lemma cleanup_image_ok s0 e k Q : keeps_with s0 e k Q (cleanup_image world).
Proof using Hkept.
  intros s [Ha HQ]. unfold cleanup_image, in_action. do 3 (apply cwp_bind; unfold cwp at 1, cget, in_result, cget).
  destruct (test_action_state TOI_KEEP_IMAGE (toi_action s)) eqn:Ek; cbn [andb].
  2: { revert s Ha HQ Ek. intros s Ha HQ _. by apply (safe_when _ _ _ _ _ (with_call_ s0 e k Q Remove_image)). }
  destruct (negb _).
  - unfold cwp. cbn. split; [|done]. destruct Ha. constructor; simpl; auto.
  - by apply (safe_when _ _ _ _ _ (with_call_ s0 e k Q Remove_image)).
Qed.

Lemma cleanup_ok s0 k g r s :
  accounted s0 0 k s -> cwp (fun _ => True) False (do_cleanup world g r) (fun _ s' => clean s0 k s') s.
Proof using Hkept Hdebug Hcreate Hreload Hstorage.
  intros Ha. unfold do_cleanup. apply cwp_bind. eapply cwp_mono; [by apply keeps_call_|]. clear s Ha. intros ? s Ha.
  apply cwp_bind. apply cwp_mono with (R := fun _ s' => accounted s0 0 k s').
  { destruct g; [by apply keeps_call|done]. }
  clear s Ha. intros buffer s Ha. set (e := if buffer =? 0 then 0 else 1).
  apply cwp_bind. apply cwp_mono with (R := fun _ s' => accounted s0 e k s').
  { unfold e. destruct (buffer =? 0); [done|]. destruct Ha. constructor; simpl; auto. lia. }
  clear s Ha. intros ? s Ha. apply cwp_bind.
  apply cwp_mono with (R := fun i s' => accounted s0 e k s' /\ (negb (buffer =? 0) && negb (i =? 0)) = negb (buffer =? 0)).
  { destruct (buffer =? 0); [done|]. cbn [negb andb].
    refine (conj (keeps_ask s0 e k Get_toi_debug_info s Ha) _). by rewrite (proj2 (Z.eqb_neq _ _) (Hdebug _)). }
  clear s Ha. intros i s [Ha Hi]. apply cwp_bind. eapply cwp_mono; [by apply keeps_call_|]. clear s Ha. intros ? s Ha.
  apply cwp_bind. eapply cwp_mono; [exact (cleanup_boot_data_ok s0 e k s Ha)|]. clear s Ha. intros ? s [Ha Hb].
  set (Q := fun (_ : list bitmap_ptr) (buffer : bool) (_ : Z) => buffer = false).
  apply cwp_bind. eapply cwp_mono; [exact (with_call_ s0 e k Q _ s (conj Ha Hb))|]. clear s Ha Hb. intros ? s Ha.
  apply cwp_bind. eapply cwp_mono; [exact (cleanup_image_ok s0 e k Q s Ha)|]. clear s Ha. intros ? s [Ha Hb].
  apply cwp_bind. eapply cwp_mono; [exact (free_bitmaps_ok s0 e k s Ha)|]. clear Ha. intros ? s' (Ha & Hm & Hb' & _).
  apply cwp_bind. eapply cwp_mono; [apply (with_call_ s0 e k gone); split; [done|split; [done|congruence]]|].
  clear s s' Ha Hm Hb Hb'. intros ? s Ha.
  apply cwp_bind. eapply cwp_mono; [exact (cleanup_notifiers_ok s0 e k s Ha)|]. clear s Ha. intros ? s Ha. rewrite Hi.
  apply cwp_bind. apply cwp_mono with (R := fun _ s' => accounted_with s0 0 k all_gone s').
  { unfold e in Ha. destruct (buffer =? 0); [done|]. destruct Ha as [[] Hg]. split; [|done]. constructor; simpl; auto. lia. }
  clear s Ha. intros ? s Ha. eapply cwp_mono; [|intros ? s'; apply all_gone_clean]. revert s Ha.
  change (keeps_with s0 0 k all_gone (late <~ in_action TOI_LATE_CPU_HOTPLUG;; when (negb late) (call_ world Enable_nonboot_cpus);~
    when (negb r) (call_ world Toi_cleanup_console);~ call_ world Free_attention_list;~
    when (negb r) (call_ world (Toi_deactivate_storage false));~ put_state false TOI_IGNORE_LOGLEVEL;~
    put_state false TOI_TRYING_TO_RESUME;~ put_state false TOI_NOW_RESUMING)).
  repeat (apply safe_bind; [|intros ?]).
  all: try apply safe_when.
  all: try apply safe_get.
  all: try apply with_call_.
  all: apply with_put; try discriminate.
  all: intros l c st; apply (all_gone_put false); discriminate.
Qed.

(** ** An attempt *)

(** The page for the boot kernel's data is taken. *)
Lemma take_buffer_ok s0 k (b : Z) s :
  accounted_with s0 0 k (fun _ c _ => c = false) s ->
  accounted s0 0 k (s {{ boot_kernel_data_buffer := negb (b =? 0); buffers_held := buffers_held s + (if b =? 0 then 0 else 1) }}).
Proof. intros [[] Hb]. rewrite Hb in *. cbn in *. constructor; simpl; auto. destruct (b =? 0); cbn; lia. Qed.

Lemma notify_ok s0 k s :
  early s0 k s ->
  accounted_with s0 0 k (fun _ c _ => c = false)
    (s {{ notified := notified s + 1; toi_state := set_toi_state TOI_NOTIFIERS_PREPARE (toi_state s) }}).
Proof.
  intros [[] [Hb Hn]]. rewrite Hn in *. cbn [Z.b2z] in *. split; [|done]. constructor; simpl; auto.
  - rewrite test_set_toi. cbn [Z.b2z]. lia.
  - by rewrite test_set_toi_ne.
Qed.

Lemma init_ok s0 k r s :
  clean s0 k s -> cwp (fun _ => True) False (toi_init world r) (fun _ => accounted s0 0 (k + 1)) s.
Proof using Hkept Hcreate Hreload.
  intros [Ha Hm Hb Hn]. unfold toi_init. apply cwp_bind. unfold cwp at 1, cmod.
  set (s1 := s {{ toi_result := 0; nr_hibernates := nr_hibernates s + 1 }}).
  assert (early s0 (k + 1) s1) as He.
  { split; [|done]. destruct Ha. constructor; simpl; auto; [done|lia]. }
  assert (bitmaps s1 = replicate 7 Null) as Hm1 by done. clearbody s1. clear s Ha Hm Hb Hn.
  apply cwp_bind. unfold cwp at 1, in_state, cget. apply cwp_bind.
  eapply cwp_mono with (R := fun _ => early s0 (k + 1)).
  { destruct (test_toi_state TOI_CAN_HIBERNATE (toi_state s1)); [|done].
    apply alloc_bitmaps_ok; [done|apply NoDup_seq|]. intros i Hi%elem_of_seq. rewrite Hm1. apply lookup_replicate_2. lia. }
  clear s1 He Hm1. intros res s He. destruct (negb (res =? 0)); [apply He|].
  apply cwp_bind. eapply cwp_mono; [by apply (with_call_ s0 0 (k + 1) before_notifiers)|]. clear s He. intros ? s He.
  apply cwp_bind. eapply cwp_mono; [apply (safe_when _ _ _ _ _ (with_call_ s0 0 (k + 1) before_notifiers Toi_prepare_console)); exact He|].
  clear s He. intros ? s He. eapply with_call; [exact He|]. intros result s' He' _ _. clear s He. rename s' into s, He' into He.
  destruct (negb (result =? 0)); [apply (safe_bind _ _ (accounted s0 0 (k + 1))); [by apply keeps_mark|intros ?; apply safe_ret|apply He]|].
  apply cwp_bind. unfold cwp at 1, cmod. apply cwp_bind. unfold cwp at 1, put_state, cmod.
  eapply with_call; [exact (notify_ok s0 (k + 1) s He)|]. intros result2 s' He' _ _. clear s He. rename s' into s, He' into He.
  destruct (negb (result2 =? 0)); [apply (safe_bind _ _ (accounted s0 0 (k + 1))); [by apply keeps_mark|intros ?; apply safe_ret|apply He]|].
  eapply with_call; [exact He|]. intros b s' He' _ _. clear s He. rename s' into s, He' into He. apply cwp_bind. unfold cwp at 1, cmod.
  pose proof (take_buffer_ok s0 (k + 1) b s He) as Ha. revert Ha. generalize (s {{ boot_kernel_data_buffer := negb (b =? 0);
    buffers_held := buffers_held s + (if b =? 0 then 0 else 1) }}). clear s He.
  change (keeps s0 0 (k + 1) (if b =? 0 then mark_result TOI_OUT_OF_MEMORY;~ cret 1
    else late <~ in_action TOI_LATE_CPU_HOTPLUG;; r <~ (if late : bool then cret 0 else call world Disable_nonboot_cpus);;
      if r =? 0 then cret 1 else abort_result TOI_CPU_HOTPLUG_FAILED;~ cret 0)).
  keep.
Qed.

(** Until [toi_init] nothing is taken. *)
Abbreviation stays s0 k := (safe (fun _ => True) False (accounted_with s0 0 k all_gone)).

Lemma stays_put s0 k b f : f <> TOI_NOTIFIERS_PREPARE -> f <> TOI_BOOT_KERNEL -> stays s0 k (put_state b f).
Proof. intros H1 H2. apply with_put; [done|done|]. intros l c st. by apply all_gone_put. Qed.

Lemma stays_call s0 k f : stays s0 k (call world f).
Proof using Hkept. apply safe_bind; [apply with_ask|]. intros a. apply safe_ret. Qed.

Lemma stays_mod s0 k f :
  (forall e s, accounted s0 e k s -> accounted s0 e k (f s)) ->
  (forall s, bitmaps (f s) = bitmaps s /\ boot_kernel_data_buffer (f s) = boot_kernel_data_buffer s /\ toi_state (f s) = toi_state s) ->
  stays s0 k (cmod f).
Proof. intros Ha Hf. apply safe_mod. intros s [H1 H2]. destruct (Hf s) as (E1 & E2 & E3). split; [auto|]. by rewrite E1, E2, E3. Qed.

#[local] Hint Resolve with_ask with_call_ stays_call : safe.
#[local] Hint Extern 2 (safe _ _ _ (put_state _ _)) => (apply stays_put; discriminate) : safe.
#[local] Hint Extern 2 (safe _ _ _ (cmod _)) => (apply stays_mod; [intros ? ? []; constructor; simpl; auto; fail|done]) : safe.

Lemma stays_try_allocators s0 k n l : stays s0 k (try_allocators world n l).
Proof using Hkept. revert n. induction l as [|b l IH]; intros n; cbn [try_allocators]; keep. Qed.
#[local] Hint Resolve stays_try_allocators : safe.

Lemma stays_parse s0 k : stays s0 k (toi_attempt_to_parse_resume_device world).
Proof using Hkept.
  assert (stays s0 k (cmod (fun s => s {{ toi_result := clear_result_state TOI_ABORTED (toi_result s) }}))) as Hc.
  { apply stays_mod; [|done]. intros e s []. constructor; simpl; auto. by rewrite test_clear_result. }
  unfold toi_attempt_to_parse_resume_device. keep.
Qed.
#[local] Hint Resolve stays_parse : safe.

Lemma stays_abort s0 k f : f <> TOI_KEPT_IMAGE -> stays s0 k (abort_result f).
Proof. intros Hf. apply stays_mod; [|done]. intros e s Ha. by apply (keeps_abort s0 e k f Hf s). Qed.
#[local] Hint Resolve stays_abort : safe.

Lemma stays_can_hibernate s0 k : stays s0 k (can_hibernate world).
Proof using Hkept.
  unfold can_hibernate. do 3 (apply safe_bind; [keep|intros ?]). apply safe_if; [keep|].
  intros s Hs. apply cwp_bind. unfold cwp at 1, cget. by rewrite (ac_alt _ _ _ _ (proj1 Hs)).
Qed.

(** An image that was kept: power down with it, or remove it. *)
Lemma check_still_keeping_ok s0 k s :
  accounted_with s0 0 k all_gone s -> test_result_state TOI_KEPT_IMAGE (toi_result s) = true ->
  cwp (fun _ => True) False (check_still_keeping_image world)
    (fun b s' => if b : bool then accounted s0 0 k s' else accounted_with s0 0 k all_gone s') s.
Proof using Hkept Hreload.
  intros [Ha Hg] Hk. unfold check_still_keeping_image. apply cwp_bind. unfold cwp at 1, in_action, cget.
  rewrite (ac_kept _ _ _ _ Ha Hk). apply cwp_bind. eapply cwp_mono; [by apply keeps_post_image_write|]. done.
Qed.

Definition attempted (s0 : cyc) (k n : Z) (s : cyc) : Prop := exists k', k <= k' <= k + n /\ accounted s0 0 k' s.

Lemma prepare_ok s0 k s :
  clean s0 k s -> cwp (fun _ => True) False (do_prepare_image world) (fun _ => attempted s0 k 1) s.
Proof using Hkept Hcreate Hreload.
  intros Hs%all_gone_clean. assert (forall s', accounted s0 0 k s' -> attempted s0 k 1 s') as Hsame.
  { intros s' Ha. exists k. split; [lia|done]. }
  unfold do_prepare_image. apply cwp_bind. unfold cwp at 1, in_result, cget.
  set (restarting := test_result_state TOI_EXTRA_PAGES_ALLOW_TOO_SMALL (toi_result s)). clearbody restarting.
  apply cwp_bind. eapply cwp_mono; [|intros r s']. { apply (safe_if _ _ (accounted_with s0 0 k all_gone)); [apply safe_ret|apply stays_call|exact Hs]. }
  clear s Hs. rename s' into s. intros Hs. destruct (negb (r =? 0)); [apply Hsame, Hs|].
  apply cwp_bind. eapply cwp_mono; [exact (stays_can_hibernate s0 k s Hs)|]. clear s Hs. intros can s Hs.
  destruct (negb can); [apply Hsame, Hs|]. apply cwp_bind. unfold cwp at 1, cget. apply cwp_bind.
  eapply cwp_mono with (R := fun b s' => if b : bool then accounted s0 0 k s' else accounted_with s0 0 k all_gone s').
  { destruct (test_result_state TOI_KEPT_IMAGE (toi_result s)) eqn:E; [by apply check_still_keeping_ok|done]. }
  clear s Hs. intros [] s Hs; [by apply Hsame|]. apply cwp_bind.
  eapply cwp_mono; [apply init_ok; apply all_gone_clean, Hs|]. clear s Hs. intros r1 s Ha.
  eapply cwp_mono; [|intros ? s' H'; exists (k + 1); split; [lia|exact H']]. destruct (r1 =? 0); [exact Ha|].
  revert s Ha. change (keeps s0 0 (k + 1) (r <~ call world Toi_prepare_image;; aborted <~ in_result TOI_ABORTED;;
    cret (if (r =? 0) && negb aborted then 0 else 1))). keep.
Qed.

Lemma attempts_ok s0 k left s :
  clean s0 k s -> cwp (fun _ => True) False (attempts world left) (fun _ => attempted s0 k (Z.of_nat (S left))) s.
Proof using Hkept Hcreate Hreload Hstorage Hdebug.
  revert k s. induction left as [|left IH]; intros k s Hs; cbn [attempts]; apply cwp_bind;
    (eapply cwp_mono; [by apply prepare_ok|]); clear s Hs; intros result s (k' & Hk & Ha);
    apply cwp_bind; unfold cwp at 1, in_action, cget;
    (destruct (negb (result =? 0) || _); [exists k'; split; [lia|exact Ha]|]);
    apply cwp_bind; (eapply cwp_mono; [exact (keeps_save_image s0 0 k' s Ha)|]); clear s Ha result; intros result s Ha;
    apply cwp_bind; unfold cwp at 1, in_result, cget.
  all: assert (cwp (fun _ => True) False (hibernating <~ cget toi_in_hibernate;;
      if (result =? 0) && hibernating then do_post_image_write world else cret result) (fun _ => accounted s0 0 k') s) as Hlast
    by (revert s Ha; change (keeps s0 0 k' (hibernating <~ cget toi_in_hibernate;;
      if (result =? 0) && hibernating then do_post_image_write world else cret result)); keep).
  - destruct (test_result_state _ _); (eapply cwp_mono; [exact Hlast|]); intros ? s' H'; exists k'; (split; [lia|exact H']).
  - destruct (test_result_state _ _).
    + apply cwp_bind. eapply cwp_mono; [exact (cleanup_ok s0 k' false true s Ha)|]. clear s Ha Hlast. intros ? s Hc.
      apply cwp_bind. unfold cwp at 1, cmod. eapply cwp_mono; [apply (IH k')|].
      * destruct Hc as [[] ? ? ?]. constructor; auto. constructor; simpl; auto. by rewrite test_clear_result.
      * intros ? s' (k2 & Hk2 & Ha2). exists k2. split; [lia|exact Ha2].
    + eapply cwp_mono; [exact Hlast|]. intros ? s' H'. exists k'. split; [lia|exact H'].
Qed.

(** ** Starting and finishing *)

Lemma clean_self s :
  bitmaps s = replicate 7 Null -> boot_kernel_data_buffer s = false ->
  test_toi_state TOI_NOTIFIERS_PREPARE (toi_state s) = false -> test_toi_state TOI_BOOT_KERNEL (toi_state s) = false ->
  alt_resume_param s = 0 ->
  (test_result_state TOI_KEPT_IMAGE (toi_result s) = true -> test_action_state TOI_KEEP_IMAGE (toi_action s) = true) ->
  clean s 0 s.
Proof.
  intros Hm Hb Hn Hk Ha Hr. split; auto. constructor; auto; rewrite ?Hm, ?Hb, ?Hn.
  - done.
  - by apply (bool_decide_unpack _).
  - change (count_allocated (replicate 7 Null)) with 0. lia.
  - cbn [Z.b2z]. lia.
  - cbn [Z.b2z]. lia.
  - lia.
Qed.

(** What is not among the locks. *)
Definition others (s : cyc) :=
  (bitmaps s, bitmaps_held s, boot_kernel_data_buffer s, buffers_held s, notified s,
   (toi_state s, toi_result s, toi_action s), alt_resume_param s, nr_hibernates s).

(** Nothing but the locks [v] has been taken since [s]. *)
Definition holding (s : cyc) v (s' : cyc) : Prop :=
  exists base, accounted_with base 0 0 all_gone s' /\ locks base = v /\ bitmaps_held base = bitmaps_held s /\
    buffers_held base = buffers_held s /\ notified base = notified s /\ nr_hibernates base = nr_hibernates s.

Lemma holding_mod s v v' f s' :
  holding s v s' -> (forall x, locks x = v -> locks (f x) = v') -> (forall x, others (f x) = others x) -> holding s v' (f s').
Proof.
  intros (base & [Ha Hg] & Hv & H1 & H2 & H3 & H4) Hl Ho. exists (f base).
  pose proof (Ho base) as [= E1 E2 E3 E4 E5 E6 E7 E8 E9 E10]. pose proof (Ho s') as [= F1 F2 F3 F4 F5 F6 F7 F8 F9 F10].
  destruct Ha as [A1 A2 A3 A4 A5 A6 A7 A8 A9 A10 A11]. split_and!; [|by apply Hl|congruence..].
  split; [|by rewrite F1, F3, F6]. constructor; rewrite ?F1, ?F2, ?F3, ?F4, ?F5, ?F6, ?F7, ?F8, ?F9, ?F10, ?E2, ?E4, ?E5, ?E8, ?E10; auto.
  rewrite (Hl base Hv). apply Hl. congruence.
Qed.

Lemma cwp_lock {A} s v v' f (m : C A) R s' :
  holding s v s' -> (forall x, locks x = v -> locks (f x) = v') -> (forall x, others (f x) = others x) ->
  (forall s'', holding s v' s'' -> cwp (fun _ => True) False m R s'') ->
  cwp (fun _ => True) False (cmod f;~ m) R s'.
Proof. intros Hh Hl Ho Hm. apply cwp_bind. apply Hm. by eapply holding_mod. Qed.

Lemma cwp_holding {A B} s v (m : C A) (k : A -> C B) R s' :
  holding s v s' -> (forall base, stays base 0 m) ->
  (forall a s'', holding s v s'' -> cwp (fun _ => True) False (k a) R s'') ->
  cwp (fun _ => True) False (x <~ m;; k x) R s'.
Proof.
  intros (base & Ha & H1 & H2 & H3 & H4 & H5) Hm Hk. apply cwp_bind. eapply cwp_mono; [exact (Hm base s' Ha)|].
  intros a s'' Ha'. apply Hk. exists base. split_and!; [exact Ha'|auto..].
Qed.

Lemma holding_start s : idle s -> alt_resume_param s = 0 -> holding s (locks s) s.
Proof. intros [] Ha. exists s. split_and!; auto. apply all_gone_clean. by apply clean_self. Qed.

Lemma holding_back s dump save refs old s' :
  holding s (false, false, snapshot_device_available s, module_refs s + refs, (kernel_ds s, old), (dump, save), false, false) s' ->
  given_back dump refs s s' /\ nr_hibernates s' = nr_hibernates s.
Proof.
  intros (base & [Ha [[Hm Hb] Hn]] & Hv & H1 & H2 & H3 & H4). destruct Ha as [A1 A2 A3 A4 A5 A6 A7 A8 A9 A10 A11].
  rewrite Hv in A11. injection A11 as B1 B2 B3 B4 B5 B6 B7 B8 B9 B10. rewrite Hm in A3. rewrite Hb in A4. rewrite Hn in A5.
  change (count_allocated (replicate 7 Null)) with 0 in A3. cbn [Z.b2z] in A4, A5. split; [constructor|]; congruence || lia || auto.
Qed.

Lemma cwp_get_lock {A B} s v s' (g : cyc -> A) a (k : A -> C B) R :
  holding s v s' -> (forall x, locks x = v -> g x = a) -> cwp (fun _ => True) False (k a) R s' ->
  cwp (fun _ => True) False (x <~ cget g;; k x) R s'.
Proof.
  intros (base & [Ha _] & Hv & _) Hg Hk. apply cwp_bind. unfold cwp at 1, cget. rewrite (Hg s'); [done|].
  by rewrite (ac_locks _ _ _ _ Ha).
Qed.

Lemma cwp_take_lock {A} s v v' (g : cyc -> bool) f (m : C A) R s' :
  holding s v s' -> (forall x, locks x = v -> g x = false) ->
  (forall x, locks x = v -> locks (f x) = v') -> (forall x, others (f x) = others x) ->
  (forall s'', holding s v' s'' -> cwp (fun _ => True) False m R s'') ->
  cwp (fun _ => True) False (take_lock g f;~ m) R s'.
Proof.
  intros Hh Hg Hl Ho Hm. apply cwp_bind. unfold take_lock. eapply cwp_get_lock; [exact Hh|exact Hg|].
  unfold cwp at 1, cmod. apply Hm. by eapply holding_mod.
Qed.

(** One step on the locks. *)
Ltac on_locks :=
  first [reflexivity |
    intros x Hx; unfold locks in *; simpl in *; injection Hx as ? ? ? ? ? ? ? ? ? ?;
    repeat (apply f_equal2 || apply (f_equal2 pair)); (eassumption || reflexivity || congruence || lia)].

(** Giving up at the labels. *)
Definition refused (dump refs : Z) (s : cyc) (r : Z) (s' : cyc) : Prop :=
  r = - EBUSY /\ nr_hibernates s' = nr_hibernates s /\ given_back dump refs s s'.

Lemma unavailable_ok s refs dump save s' :
  holding s (true, true, snapshot_device_available s, module_refs s + refs, (true, kernel_ds s), (dump, save), false, false) s' ->
  cwp (fun _ => True) False (snapshotdevice_unavailable true) (refused dump refs s) s'.
Proof.
  intros Hh. unfold snapshotdevice_unavailable, when.
  eapply (cwp_lock s _ (true, false, _, _, (_, _), (_, _), _, _)); [exact Hh|on_locks|on_locks|]. intros s1 H1.
  eapply (cwp_lock s _ (false, false, _, _, (_, _), (_, _), _, _)); [exact H1|on_locks|on_locks|]. intros s2 H2.
  apply holding_back in H2 as [Hg Hn]. by split_and!.
Qed.

Lemma prehibernate_ok s refs dump save s' :
  holding s (true, true, snapshot_device_available s - 1, module_refs s + refs, (true, kernel_ds s), (dump, save), false, false) s' ->
  cwp (fun _ => True) False (prehibernate_err true) (refused dump refs s) s'.
Proof.
  intros Hh. unfold prehibernate_err, when.
  eapply (cwp_lock s _ (_, _, snapshot_device_available s, _, (_, _), (_, _), _, _)); [exact Hh|on_locks|on_locks|].
  intros s1 H1. by eapply unavailable_ok.
Qed.

Lemma early_err_ok s refs dump save s' :
  holding s (true, true, snapshot_device_available s - 1, module_refs s + refs, (true, kernel_ds s), (dump, save), true, false) s' ->
  cwp (fun _ => True) False (early_init_err true) (refused dump refs s) s'.
Proof.
  intros Hh. unfold early_init_err, when.
  eapply (cwp_lock s _ (_, _, _, _, (_, _), (_, dump), false, _)); [exact Hh|on_locks|on_locks|].
  intros s1 H1. by eapply prehibernate_ok.
Qed.

Lemma start_ok s :
  idle s -> alt_resume_param s = 0 ->
  cwp (fun _ => True) False (toi_start_anything world SYSFS_HIBERNATING)
    (fun r s' =>
       r = 0 /\ holding s (true, true, snapshot_device_available s - 1, module_refs s + 1, (true, kernel_ds s),
                          (0, block_dump s), true, false) s' \/
       refused (block_dump s) 0 s r s' \/ refused 0 1 s r s') s.
Proof using Hkept.
  intros Hi Halt. pose proof (holding_start s Hi Halt) as Hh. destruct Hi. unfold locks in Hh. rewrite id_in_use0, id_pm0, id_cpus0, id_memalloc0 in Hh.
  unfold toi_start_anything. change (SYSFS_HIBERNATING =? SYSFS_HIBERNATE) with false.
  change (negb (SYSFS_HIBERNATING =? 0)) with true. cbn [andb when].
  eapply (cwp_take_lock s _ (true, _, _, _, (_, _), (_, _), _, _)); [exact Hh|on_locks|on_locks|on_locks|]. clear Hh. intros s1 Hh.
  eapply (cwp_lock s _ (_, _, _, _, (true, kernel_ds s), (_, _), _, _)); [exact Hh|on_locks|on_locks|]. clear s1 Hh. intros s1 Hh.
  eapply (cwp_take_lock s _ (_, true, _, _, (_, _), (_, _), _, _)); [exact Hh|on_locks|on_locks|on_locks|]. clear s1 Hh. intros s1 Hh.
  eapply cwp_get_lock; [exact Hh|on_locks|].
  destruct (snapshot_device_available s =? 0) eqn:Ea.
  { eapply cwp_mono; [eapply (unavailable_ok s 0); rewrite Z.add_0_r; exact Hh|]. auto. }
  eapply (cwp_lock s _ (_, _, snapshot_device_available s - 1, _, (_, _), (_, _), _, _)); [exact Hh|on_locks|on_locks|]. clear s1 Hh. intros s1 Hh.
  eapply cwp_holding; [exact Hh|intros ?; apply safe_get|]. clear s1 Hh. intros _ s1 Hh.
  apply cwp_bind. unfold cwp at 1, cret. cbn [Z.eqb negb].
  eapply cwp_holding; [exact Hh|intros ?; apply stays_call|]. clear s1 Hh. intros r s1 Hh. destruct (negb (r =? 0)).
  { eapply cwp_mono; [eapply (prehibernate_ok s 0); rewrite Z.add_0_r; exact Hh|]. auto. }
  eapply (cwp_lock s _ (_, _, _, module_refs s + 1, (_, _), (_, _), _, _)); [exact Hh|on_locks|on_locks|]. clear s1 Hh. intros s1 Hh.
  eapply (cwp_lock s _ (_, _, _, _, (_, _), (0, block_dump s), true, _)); [exact Hh|on_locks|on_locks|]. clear s1 Hh. intros s1 Hh.
  eapply cwp_holding; [exact Hh|intros ?; apply stays_call|]. clear s1 Hh r. intros r s1 Hh. destruct (negb (r =? 0)).
  { eapply cwp_mono; [eapply (early_err_ok s 1); exact Hh|]. auto. }
  eapply cwp_holding; [exact Hh|intros ?; apply safe_get|]. clear s1 Hh. intros active s1 Hh.
  eapply cwp_holding; [exact Hh|intros ?; apply safe_when, safe_bind; [apply stays_parse|intros ?; apply safe_ret]|]. clear s1 Hh. intros _ s1 Hh.
  eapply cwp_holding; [exact Hh|intros ?; apply stays_call|]. clear s1 Hh r. intros r s1 Hh. destruct (r =? 0); [by left|].
  eapply cwp_holding; [exact Hh|intros ?; apply with_call_|]. clear s1 Hh. intros _ s1 Hh.
  eapply cwp_mono; [eapply (early_err_ok s 1); exact Hh|]. auto.
Qed.

Lemma finish_ok s s' :
  holding s (true, true, snapshot_device_available s - 1, module_refs s + 1, (true, kernel_ds s), (0, block_dump s), true, false) s' ->
  cwp (fun _ => True) False (toi_finish_anything world SYSFS_HIBERNATING)
    (fun _ s'' => given_back (block_dump s) 0 s s'' /\ nr_hibernates s'' = nr_hibernates s) s'.
Proof using Hkept.
  intros Hh. unfold toi_finish_anything. change (negb (SYSFS_HIBERNATING =? 0)) with true.
  change (SYSFS_HIBERNATING =? SYSFS_HIBERNATE) with false. cbn [andb when].
  do 2 (eapply cwp_holding; [exact Hh|intros ?; apply with_call_|]; clear s' Hh; intros _ s' Hh).
  eapply (cwp_lock s _ (_, _, _, module_refs s + 0, (_, _), (_, _), _, _)); [exact Hh|on_locks|on_locks|]. clear s' Hh. intros s' Hh.
  apply cwp_bind. eapply (cwp_lock s _ (_, _, _, _, (_, _), (block_dump s, _), false, _)); [exact Hh|on_locks|on_locks|]. clear s' Hh. intros s' Hh.
  eapply cwp_holding; [exact Hh|intros ?; apply safe_get|]. clear s' Hh. intros _ s' Hh. apply cwp_bind. unfold cwp at 1, cret.
  set (f1 := fun s : cyc => s {{ snapshot_device_available := snapshot_device_available s + 1; pm_mutex := false }}).
  assert (holding s (true, false, snapshot_device_available s, module_refs s + 0, (true, kernel_ds s), (block_dump s, block_dump s),
    false, false) (f1 s')) as H1 by (eapply holding_mod; [exact Hh|on_locks|on_locks]).
  set (f2 := fun s : cyc => s {{ kernel_ds := oldfs s; tuxonice_in_use := false }}).
  assert (holding s (false, false, snapshot_device_available s, module_refs s + 0, (kernel_ds s, kernel_ds s), (block_dump s, block_dump s),
    false, false) (f2 (f1 s'))) as H2 by (eapply holding_mod; [exact H1|on_locks|on_locks]).
  exact (holding_back _ _ _ _ _ _ H2).
Qed.

(** C19: a cycle gives back what it took.  From an idle state, with no
    alternate image to switch to, and provided bitmaps can be filled once
    their heads are allocated, storage can be reactivated and pageset 2
    reloaded, a cycle begun through /sys/power/disk, whatever its parts
    answer, ends, or the machine goes off, or it is left to another kernel;
    it makes at most three attempts.  When it ends, the locks, the
    segment, the cpus allowed, PF_MEMALLOC, the bitmaps, the buffers and the
    notifiers are as before, and so are block_dump and the references to
    modules, unless the modules could not be initialised: then block_dump
    stays 0 and the references are kept. *)
Theorem hibernate_gives_back (s : cyc) (Hidle : idle s) (Halt : alt_resume_param s = 0) :
  match _toi_try_hibernate world s with
  | Ret s' r =>
      nr_hibernates s <= nr_hibernates s' <= nr_hibernates s + 3 /\
      (given_back (block_dump s) 0 s s' \/ r = - EBUSY /\ given_back 0 1 s s')
  | Off _ => True
  | Blocked _ | Crash _ => False
  end.
Proof using Hkept Hcreate Hstorage Hreload Hdebug.
  enough (cwp (fun _ => True) False (_toi_try_hibernate world) (fun r s' =>
    nr_hibernates s <= nr_hibernates s' <= nr_hibernates s + 3 /\
    (given_back (block_dump s) 0 s s' \/ r = - EBUSY /\ given_back 0 1 s s')) s) as H by exact H.
  unfold _toi_try_hibernate. apply cwp_bind. unfold cwp at 1, cget. rewrite (id_in_use _ Hidle).
  apply cwp_bind. eapply cwp_mono; [by apply start_ok|].
  intros r s1 [[-> Hh]|[(-> & Hn & Hg)|(-> & Hn & Hg)]]; cbn [Z.eqb negb]; [|split; [lia|auto]..].
  eapply (cwp_lock s _ (_, _, _, _, (_, _), (_, _), _, true)); [exact Hh|on_locks|on_locks|]. clear s1 Hh.
  intros s1 (base & Hc%all_gone_clean & Hv & H1 & H2 & H3 & H4). apply cwp_bind. unfold cwp at 1, in_state, cget.
  apply cwp_bind. apply cwp_mono with (R := fun _ => attempted base 0 3).
  { destruct (test_toi_state TOI_CLUSTER_MODE (toi_state s1)); [|by apply (attempts_ok base 0 2)].
    eapply cwp_mono; [|intros ? s' Ha; exists 0; split; [lia|exact Ha]].
    apply (safe_bind _ _ (accounted base 0 0)); [apply keeps_call_|intros ?; apply safe_ret|apply Hc]. }
  clear s1 Hc. intros result s1 (k & Hk & Ha). apply cwp_bind. eapply cwp_mono; [exact (cleanup_ok base k true false s1 Ha)|].
  clear s1 Ha. intros ? s1 Hc. apply cwp_bind. unfold cwp at 1, cmod.
  set (s2 := s {{ nr_hibernates := nr_hibernates s + k }}).
  assert (holding s2 (true, true, snapshot_device_available s2 - 1, module_refs s2 + 1, (true, kernel_ds s2), (0, block_dump s2),
    true, false) (s1 {{ pf_memalloc := false }})) as Hh.
  { apply all_gone_clean in Hc as [[] Hg]. exists (base {{ pf_memalloc := false; nr_hibernates := nr_hibernates base + k }}).
    split_and!; [|unfold locks in *; simpl; congruence|simpl; congruence..]. split; [|exact Hg].
    constructor; simpl; auto; [lia|unfold locks in *; simpl; congruence]. }
  apply cwp_bind. eapply cwp_mono; [exact (finish_ok s2 _ Hh)|]. intros ? s3 [[] Hn]. simpl in Hn.
  split; [lia|]. left. by constructor.
Qed.
End Balanced.

(** ** Going off *)

(** The calls of a [__save_image] that succeeds. *)
Definition image_written (l : list (fn * Z)) : Prop :=
  exists r2 r1 x1 x2 x3 x4 x5 x6, r2 <> -1 /\ r1 <> 1 /\
    l = [(Write_pageset 2, r2); (Toi_cond_pause, x1); (Toi_deactivate_storage true, x2); (Toi_go_atomic, 0);
         (Toi_hibernate, 0); (Toi_end_atomic true 0, x3); (Toi_activate_storage true, 0); (Toi_update_status, x4);
         (Toi_cond_pause, x5); (Write_pageset 1, r1); (Toi_cond_pause, x6); (Write_image_header, 0)].

(** Since [s0] an image was written, or one has been restored, or one was
    kept from an earlier cycle. *)
Definition covered (s0 s : cyc) : Prop :=
  exists es, calls s = calls s0 ++ es /\
    ((exists pre im post, es = pre ++ im ++ post /\ image_written im) \/
     (exists x, (Toi_ui_post_atomic_restore, x) ∈ es) \/
     test_result_state TOI_KEPT_IMAGE (toi_result s) = true /\ test_action_state TOI_KEEP_IMAGE (toi_action s) = true).

Definition extends (s0 s : cyc) : Prop := exists es, calls s = calls s0 ++ es.

Lemma covered_extends s0 s : covered s0 s -> extends s0 s.
Proof. intros (es & H & _). by exists es. Qed.

Lemma raise_mono f l w : test_result_state f w = true -> test_result_state f (raise l w) = true.
Proof.
  unfold raise. revert w. induction l as [|g l IH]; intros w Hw; [done|]. apply IH. by rewrite test_set_result, Hw, orb_true_r.
Qed.

Lemma raise_raised f l w : f ∈ l -> test_result_state f (raise l w) = true.
Proof.
  unfold raise. revert w. induction l as [|g l IH]; intros w Hf; [by apply not_elem_of_nil in Hf|]. simpl.
  apply elem_of_cons in Hf as [<-|Hf]; [|by apply IH]. apply (raise_mono f l).
  by rewrite test_set_result, bool_decide_eq_true_2.
Qed.

(** More calls, and no result bit lost. *)
Lemma covered_later s0 s s' es :
  calls s' = calls s ++ es -> (test_result_state TOI_KEPT_IMAGE (toi_result s) = true -> test_result_state TOI_KEPT_IMAGE (toi_result s') = true) ->
  toi_action s' = toi_action s -> covered s0 s -> covered s0 s'.
Proof.
  intros Hc Hr Ha (es0 & Hc0 & Hor). exists (es0 ++ es). rewrite Hc, Hc0, app_assoc. split; [done|].
  destruct Hor as [(pre & im & post & -> & Hi)|[[x Hx]|[Hk He]]].
  - left. exists pre, im, (post ++ es). by rewrite <- !app_assoc.
  - right; left. exists x. apply elem_of_app. by left.
  - right; right. rewrite Ha. auto.
Qed.

Section Covered.
Context (world : fn -> nat -> answer).
Context (Hgo : forall n, ret_val (world Toi_go_atomic n) <> 0 -> TOI_ABORTED ∈ raised (world Toi_go_atomic n)).
Context (s0 : cyc).

Abbreviation covers := (safe (covered s0) True (covered s0)).
Abbreviation grows := (safe (covered s0) True (extends s0)).

(** Changes that lose neither a call nor that an image was kept. *)
Definition mild (f : cyc -> cyc) : Prop := forall s,
  calls (f s) = calls s /\ toi_action (f s) = toi_action s /\
  (test_result_state TOI_KEPT_IMAGE (toi_result s) = true -> test_result_state TOI_KEPT_IMAGE (toi_result (f s)) = true).

Lemma covers_ask f : covers (ask world f).
Proof. intros s Hs. unfold cwp, ask. cbn zeta. eapply covered_later; [reflexivity| |reflexivity|exact Hs]. apply raise_mono. Qed.

Lemma covers_mod f : mild f -> covers (cmod f).
Proof.
  intros Hf. apply safe_mod. intros s Hs. destruct (Hf s) as (H1 & H2 & H3).
  eapply (covered_later s0 s _ []); [by rewrite app_nil_r|done|done|done].
Qed.

Lemma grows_ask f : grows (ask world f).
Proof. intros s [es Hs]. exists (es ++ [(f, ret_val (world f (length (calls s))))]). simpl. by rewrite Hs, app_assoc. Qed.

Lemma grows_mod f : (forall s, calls (f s) = calls s) -> grows (cmod f).
Proof. intros Hf. apply safe_mod. intros s [es Hs]. exists es. by rewrite Hf. Qed.

(** What holds of either invariant. *)
Section Either.
Context (I : cyc -> Prop).
Context (I_ask : forall f, safe (covered s0) True I (ask world f)).
Context (I_mod : forall f, mild f -> safe (covered s0) True I (cmod f)).

Abbreviation either := (safe (covered s0) True I).

Lemma any_call f : either (call world f).
Proof using I_ask. apply safe_bind; [done|]. intros ?. apply safe_ret. Qed.
Lemma any_call_ f : either (call_ world f).
Proof using I_ask. apply safe_bind; [done|]. intros ?. apply safe_ret. Qed.
Lemma any_crash {A} : either (@Crash A).
Proof. by intros s _. Qed.
Lemma any_blocked {A} : either (@Blocked A).
Proof. by intros s _. Qed.
Lemma any_panic b : either (panic_if b).
Proof. destruct b; [apply any_crash|apply safe_ret]. Qed.
Lemma any_put b f : either (put_state b f).
Proof using I_mod. apply I_mod. intros s. by split_and!. Qed.
Lemma any_mark f : either (mark_result f).
Proof using I_mod. apply I_mod. intros s. split_and!; [done|done|]. simpl. intros H. by rewrite test_set_result, H, orb_true_r. Qed.
Lemma any_abort f : either (abort_result f).
Proof using I_mod.
  apply I_mod. intros s. split_and!; [done|done|]. simpl. intros H. unfold set_abort_result. by rewrite !test_set_result, H, !orb_true_r.
Qed.
Lemma any_clear_aborted : either (cmod (fun s => s {{ toi_result := clear_result_state TOI_ABORTED (toi_result s) }})).
Proof using I_mod. apply I_mod. intros s. split_and!; [done|done|]. simpl. intros H. by rewrite test_clear_result. Qed.

#[local] Hint Resolve any_call any_call_ any_crash any_blocked any_panic any_put any_mark any_abort any_clear_aborted : safe.
#[local] Hint Extern 1 (safe _ _ _ (ask _ _)) => apply I_ask : safe.
#[local] Hint Extern 2 (safe _ _ _ (cmod _)) => (apply I_mod; intros ?; split_and!; done) : safe.

Lemma any_try_allocators n l : either (try_allocators world n l).
Proof using I_ask I_mod. revert n. induction l as [|b l IH]; intros n; cbn [try_allocators]; walk. Qed.
#[local] Hint Resolve any_try_allocators : safe.

Lemma any_parse : either (toi_attempt_to_parse_resume_device world).
Proof using I_ask I_mod. unfold toi_attempt_to_parse_resume_device. walk. Qed.
#[local] Hint Resolve any_parse : safe.

Lemma any_save_restore b : either (save_restore_alt_param world b).
Proof using I_ask I_mod. unfold save_restore_alt_param. destruct b; walk. Qed.
#[local] Hint Resolve any_save_restore : safe.

Lemma any_parse_alt : either (attempt_to_parse_alt_resume_param world).
Proof using I_ask I_mod. unfold attempt_to_parse_alt_resume_param. walk. Qed.
#[local] Hint Resolve any_parse_alt : safe.

Lemma any_can_hibernate : either (can_hibernate world).
Proof using I_ask I_mod. unfold can_hibernate. walk. Qed.

Lemma any_check_can_resume : either (do_check_can_resume world).
Proof using I_ask. unfold do_check_can_resume. walk. Qed.

Lemma any_set_bitmap i b d : either (set_bitmap i b d).
Proof using I_mod. apply I_mod. intros s. by split_and!. Qed.
#[local] Hint Resolve any_set_bitmap : safe.

Lemma any_alloc_bitmaps l : either (alloc_bitmaps world l).
Proof using I_ask I_mod. induction l as [|i l IH]; cbn [alloc_bitmaps]; unfold alloc_a_bitmap; walk. Qed.
#[local] Hint Resolve any_alloc_bitmaps : safe.

Lemma any_load : either (do_load_atomic_copy world).
Proof using I_ask I_mod. unfold do_load_atomic_copy, allocate_bitmaps. walk. Qed.

Lemma any_prepare_restore b : either (prepare_restore_load_alt_image b).
Proof using I_mod.
  destruct b; cbn [prepare_restore_load_alt_image]; [walk|].
  apply safe_bind; [apply safe_get|intros l]. apply safe_bind; [apply safe_get|intros l'].
  repeat (case_match; try apply any_crash). walk.
Qed.

Lemma any_free_bitmaps l : either (free_bitmaps_at l).
Proof using I_mod.
  induction l as [|i l IH]; cbn [free_bitmaps_at]; [apply safe_ret|]. apply safe_bind; [|done].
  unfold free_a_bitmap. apply safe_bind; [apply safe_get|]. intros []; walk.
Qed.
#[local] Hint Resolve any_free_bitmaps : safe.

Lemma any_cleanup g r : either (do_cleanup world g r).
Proof using I_ask I_mod.
  unfold do_cleanup, cleanup_boot_data, cleanup_image, cleanup_notifiers, free_bitmaps. walk.
Qed.
End Either.

#[local] Hint Resolve covers_ask grows_ask : safe.
#[local] Hint Extern 1 (safe _ _ (covered _) (call _ _)) => (apply any_call; apply covers_ask) : safe.
#[local] Hint Extern 1 (safe _ _ (covered _) (call_ _ _)) => (apply any_call_; apply covers_ask) : safe.
#[local] Hint Extern 1 (safe _ _ (extends _) (call _ _)) => (apply any_call; apply grows_ask) : safe.
#[local] Hint Extern 1 (safe _ _ (extends _) (call_ _ _)) => (apply any_call_; apply grows_ask) : safe.
#[local] Hint Extern 1 (safe _ _ _ (panic_if _)) => apply any_panic : safe.
#[local] Hint Extern 1 (safe _ _ (covered _) Off) => (apply safe_off; done) : safe.
#[local] Hint Extern 1 (safe _ _ (covered _) (cmod _)) => (apply covers_mod; intros ?; split_and!; done) : safe.
#[local] Hint Extern 1 (safe _ _ (extends _) (cmod _)) => (apply grows_mod; done) : safe.

Lemma grows_mild f : mild f -> grows (cmod f).
Proof. intros Hf. apply grows_mod. intros s. apply Hf. Qed.

Lemma covers_power_down_method m : covers (__toi_power_down world m).
Proof. unfold __toi_power_down, power_off, power_down_out. walk. Qed.
#[local] Hint Resolve covers_power_down_method : safe.

Lemma covers_post_image_write : covers (do_post_image_write world).
Proof.
  pose proof (any_save_restore _ covers_ask covers_mod) as H1. pose proof (any_prepare_restore _ covers_mod) as H2.
  pose proof (any_check_can_resume _ covers_ask) as H3. pose proof (any_load _ covers_ask covers_mod) as H4.
  unfold do_post_image_write, step_resume_alt_image, atomic_restore, toi_power_down, toi_check_resleep. walk.
Qed.
#[local] Hint Resolve covers_post_image_write : safe.

(** From any state: afterwards an image has been restored. *)
Lemma copyback_covers s :
  extends s0 s -> cwp (covered s0) True (copyback_post world) (fun _ => covered s0) s.
Proof.
  intros He. unfold copyback_post. apply cwp_bind. eapply cwp_mono; [exact (any_call _ grows_ask _ s He)|]. clear s He. intros r s He.
  apply cwp_bind. eapply cwp_mono; [exact (any_panic (extends s0) _ s He)|]. clear s He. intros ? s [es He].
  apply cwp_bind. unfold call_. apply cwp_bind. unfold cwp at 1, ask. cbn zeta. unfold cwp at 1, cret.
  match goal with |- cwp _ _ _ _ ?x => assert (covered s0 x) as Hc; [|revert Hc; generalize x] end.
  { exists (es ++ [(Toi_ui_post_atomic_restore, ret_val (world Toi_ui_post_atomic_restore (length (calls s))))]).
    simpl. rewrite He, app_assoc. split; [done|]. right; left. eexists. apply elem_of_app. right. apply list_elem_of_singleton. done. }
  change (covers (call_ world Toi_cond_pause;~ r <~ call world (Read_pageset2 false);; panic_if (negb (r =? 0));~ toi_check_resleep world)).
  unfold toi_check_resleep. walk.
Qed.

(** The last calls were [es]. *)
Definition tail (es : list (fn * Z)) (s : cyc) : Prop := exists pre, calls s = calls s0 ++ pre ++ es.

Lemma tail_extends es s : tail es s -> extends s0 s.
Proof. intros [pre H]. by exists (pre ++ es). Qed.

Lemma tail_start s : extends s0 s -> tail [] s.
Proof. intros [es H]. exists es. by rewrite app_nil_r. Qed.

(** What a call leaves as it was. *)
Definition after_call (s s' : cyc) : Prop :=
  toi_in_hibernate s' = toi_in_hibernate s /\
  (test_result_state TOI_ABORTED (toi_result s) = true -> test_result_state TOI_ABORTED (toi_result s') = true).

Lemma cwp_ask_tail {A} f es (k : answer -> C A) R s :
  tail es s ->
  (forall n s', tail (es ++ [(f, ret_val (world f n))]) s' -> after_call s s' ->
     (TOI_ABORTED ∈ raised (world f n) -> test_result_state TOI_ABORTED (toi_result s') = true) ->
     cwp (covered s0) True (k (world f n)) R s') ->
  cwp (covered s0) True (a <~ ask world f;; k a) R s.
Proof.
  intros [pre Hp] Hk. apply cwp_bind. apply Hk.
  - exists pre. simpl. by rewrite Hp, <- !app_assoc.
  - split; [done|]. apply raise_mono.
  - apply raise_raised.
Qed.

Lemma cwp_call_tail {A} f es (k : Z -> C A) R s :
  tail es s ->
  (forall r s', tail (es ++ [(f, r)]) s' -> after_call s s' -> cwp (covered s0) True (k r) R s') ->
  cwp (covered s0) True (r <~ call world f;; k r) R s.
Proof.
  intros Ht Hk. enough (cwp (covered s0) True (a <~ ask world f;; k (ret_val a)) R s) as H by exact H.
  eapply cwp_ask_tail; [exact Ht|]. intros n s' Ht' Ha _. by apply Hk.
Qed.

Lemma cwp_call_tail_ {A} f es (k : C A) R s :
  tail es s ->
  (forall r s', tail (es ++ [(f, r)]) s' -> after_call s s' -> cwp (covered s0) True k R s') ->
  cwp (covered s0) True (call_ world f;~ k) R s.
Proof.
  intros Ht Hk. enough (cwp (covered s0) True (a <~ ask world f;; k) R s) as H by exact H.
  eapply cwp_ask_tail; [exact Ht|]. intros n s' Ht' Ha _. by eapply Hk.
Qed.

(** How saving can end: with 0, at hibernation time, only with an image. *)
Definition save_result (r : Z) (s : cyc) : Prop :=
  extends s0 s /\ (r = 0 -> toi_in_hibernate s = true -> covered s0 s).

Lemma fail_result es s : tail es s -> save_result 1 s.
Proof. intros Ht. split; [by eapply tail_extends|done]. Qed.

Lemma abort_reloading_result es s : tail es s -> cwp (covered s0) True (abort_reloading_pagedir_two world) save_result s.
Proof.
  intros Ht. unfold abort_reloading_pagedir_two. eapply cwp_call_tail; [exact Ht|]. intros r s' Ht' _.
  destruct (r =? 0); [by eapply fail_result|done].
Qed.

(** Up to the copy. *)
Definition pageset2_written (r2 x1 x2 : Z) : list (fn * Z) :=
  [(Write_pageset 2, r2); (Toi_cond_pause, x1); (Toi_deactivate_storage true, x2)].
Definition copied (x3 : Z) : list (fn * Z) :=
  [(Toi_go_atomic, 0); (Toi_hibernate, 0); (Toi_end_atomic true 0, x3); (Toi_activate_storage true, 0)].

Lemma write_rest_result es r2 x1 x2 x3 x4 s :
  r2 <> -1 -> es = pageset2_written r2 x1 x2 ++ copied x3 ++ [(Toi_update_status, x4)] -> tail es s ->
  cwp (covered s0) True (write_rest world) save_result s.
Proof.
  intros Hr2 -> Ht. unfold write_rest. eapply cwp_call_tail_; [exact Ht|]. intros x5 s' Ht' _. clear s Ht. rename s' into s, Ht' into Ht.
  eapply cwp_call_tail; [exact Ht|]. intros r1 s' Ht' _. clear s Ht. rename s' into s, Ht' into Ht.
  apply cwp_bind. unfold cwp at 1, in_action, cget. destruct (test_action_state _ _); [by eapply fail_result|].
  apply cwp_bind. unfold cwp at 1, in_result, cget. destruct ((r1 =? 1) || _) eqn:E1; [by eapply abort_reloading_result|].
  apply orb_false_iff in E1 as [E1%Z.eqb_neq _]. eapply cwp_call_tail_; [exact Ht|]. intros x6 s' Ht' _. clear s Ht. rename s' into s, Ht' into Ht.
  apply cwp_bind. unfold cwp at 1, in_result, cget. destruct (test_result_state _ _); [by eapply abort_reloading_result|].
  eapply cwp_call_tail; [exact Ht|]. intros r s' Ht' _. clear s Ht. rename s' into s, Ht' into Ht.
  apply cwp_bind. unfold cwp at 1, in_action, cget. destruct (test_action_state _ _); [by eapply fail_result|].
  apply cwp_bind. unfold cwp at 1, in_result, cget. destruct ((r =? 0) && _) eqn:E; [|by eapply abort_reloading_result].
  apply andb_true_iff in E as [->%Z.eqb_eq _]. split; [by eapply tail_extends|]. intros _ _. destruct Ht as [pre Hc].
  eexists. split; [exact Hc|]. left. eexists pre, _, []. rewrite app_nil_r. split; [reflexivity|].
  exists r2, r1, x1, x2, x3, x4, x5, x6. by rewrite <- !app_assoc.
Qed.

(** What [copy_and_return] leaves: at resume time nothing more is needed;
    else the copy was made, or there is an error. *)
Definition copy_result (es : list (fn * Z)) (x : Z * bool) (s : cyc) : Prop :=
  extends s0 s /\
  (toi_in_hibernate s = true -> fst x = 0 -> test_result_state TOI_ABORTED (toi_result s) = false ->
   exists x3, tail (es ++ [(Toi_go_atomic, 0); (Toi_hibernate, 0); (Toi_end_atomic true 0, x3)]) s).

Lemma copy_ok es r2 s :
  tail es s -> toi_in_hibernate s = true -> cwp (covered s0) True (copy_and_return world r2) (copy_result es) s.
Proof using Hgo.
  intros Ht Hh. unfold copy_and_return, call. apply cwp_bind. eapply cwp_ask_tail; [exact Ht|].
  intros n s1 Ht1 [Hh1 _] Hab. unfold cwp at 1, cret. destruct (Z.eqb_spec (ret_val (world Toi_go_atomic n)) 0) as [E|E]; cbn [negb].
  2: { split; [by eapply tail_extends|]. intros _ _ Hn. rewrite Hab in Hn by auto. done. }
  rewrite E in Ht1. eapply cwp_ask_tail; [exact Ht1|]. intros n2 s2 Ht2 [Hh2 _] _.
  set (a := world Toi_hibernate n2) in *. apply cwp_bind. unfold cwp at 1, cmod.
  set (s3 := s2 {{ extra_pd1_pages_used := used a; toi_in_hibernate := toi_in_hibernate s2 && negb (resumed a) }}).
  assert (tail ((es ++ [(Toi_go_atomic, 0)]) ++ [(Toi_hibernate, ret_val a)]) s3 /\ toi_in_hibernate s3 = negb (resumed a)) as [Ht3 Hh3].
  { split; [exact Ht2|]. simpl. by rewrite Hh2, Hh1, Hh. }
  clearbody s3. clear s1 s2 Ht1 Ht2 Hh1 Hh2 Hab. apply cwp_bind.
  apply cwp_mono with (R := fun _ s' => tail ((es ++ [(Toi_go_atomic, 0)]) ++ [(Toi_hibernate, ret_val a)]) s' /\ toi_in_hibernate s' = negb (resumed a)).
  { destruct (resumed a); [split; [exact Ht3|done]|done]. }
  clear s3 Ht3 Hh3. intros ? s3 [Ht3 Hh3]. apply cwp_bind. unfold cwp at 1, cget.
  eapply cwp_call_tail_; [exact Ht3|]. intros x3 s4 Ht4 [Hh4 _]. split; [by eapply tail_extends|].
  intros Hh5 E0 _. simpl in E0. exists x3. rewrite <- !app_assoc in Ht4. simpl in Ht4.
  rewrite E0 in Ht4. by rewrite <- Hh4, Hh5 in Ht4.
Qed.

(** What is done after the copy. *)
Definition after_copy (x : Z * bool) : C Z :=
  r <~ call world (Toi_activate_storage true);;
  panic_if (negb (r =? 0));~
  hibernating <~ cget toi_in_hibernate;;
  if negb hibernating then copyback_post world;~ cret 0
  else
    aborted <~ in_result TOI_ABORTED;;
    if negb (fst x =? 0) || aborted then
      if snd x then abort_reloading_pagedir_two world else cret 1
    else
      call_ world Toi_update_status;~
      aborted <~ in_result TOI_ABORTED;;
      if aborted : bool then abort_reloading_pagedir_two world else write_rest world.

Lemma after_copy_ok r2 x1 x2 x s :
  r2 <> -1 -> copy_result (pageset2_written r2 x1 x2) x s -> cwp (covered s0) True (after_copy x) save_result s.
Proof.
  intros Hr2 [He Hx]. unfold after_copy.
  assert (forall es, tail es s -> (toi_in_hibernate s = true -> fst x = 0 -> test_result_state TOI_ABORTED (toi_result s) = false ->
    exists x3, es = pageset2_written r2 x1 x2 ++ [(Toi_go_atomic, 0); (Toi_hibernate, 0); (Toi_end_atomic true 0, x3)]) ->
    cwp (covered s0) True (after_copy x) save_result s) as Hmain.
  { intros es Ht Hes. eapply cwp_call_tail; [exact Ht|]. intros r s1 Ht1 [Hh1 Ha1].
    apply cwp_bind. destruct (Z.eqb_spec r 0) as [->|]; [|done]. unfold cwp at 1, panic_if, cret. cbn [negb].
    apply cwp_bind. unfold cwp at 1, cget. destruct (toi_in_hibernate s1) eqn:Eh; cbn [negb].
    2: { apply cwp_bind. eapply cwp_mono; [apply copyback_covers; by eapply tail_extends|]. intros ? s2 Hc.
         split; [by apply covered_extends|done]. }
    apply cwp_bind. unfold cwp at 1, in_result, cget. destruct (negb (fst x =? 0) || _) eqn:E.
    { destruct (snd x); [by eapply abort_reloading_result|by eapply fail_result]. }
    apply orb_false_iff in E as [E0%negb_false_iff%Z.eqb_eq Eab]. destruct Hes as [x3 ->]; [congruence|done| |].
    { destruct (test_result_state TOI_ABORTED (toi_result s)) eqn:E; [|done]. by rewrite Ha1 in Eab. }
    eapply cwp_call_tail_; [exact Ht1|]. intros x4 s2 Ht2 _. apply cwp_bind. unfold cwp at 1, in_result, cget.
    destruct (test_result_state TOI_ABORTED (toi_result s2)); [by eapply abort_reloading_result|].
    eapply write_rest_result; [exact Hr2| |exact Ht2]. by rewrite <- !app_assoc. }
  destruct (decide (toi_in_hibernate s = true /\ fst x = 0 /\ test_result_state TOI_ABORTED (toi_result s) = false)) as [(H1 & H2 & H3)|Hno].
  - destruct (Hx H1 H2 H3) as [x3 Ht]. apply (Hmain _ Ht). by exists x3.
  - apply (Hmain [] (tail_start s He)). intros H1 H2 H3. exfalso. by apply Hno.
Qed.

Lemma save_covers s : extends s0 s -> cwp (covered s0) True (__save_image world) save_result s.
Proof using Hgo.
  intros He. unfold __save_image. apply cwp_bind. eapply cwp_mono; [exact (any_call_ _ grows_ask _ s He)|]. clear s He. intros ? s He.
  eapply cwp_call_tail; [exact (tail_start s He)|]. intros r2 s1 Ht _. clear s He. rename s1 into s.
  apply cwp_bind. unfold cwp at 1, in_result, cget. destruct ((r2 =? -1) || _) eqn:E; [by eapply fail_result|].
  apply orb_false_iff in E as [Hr2%Z.eqb_neq _].
  eapply cwp_call_tail_; [exact Ht|]. intros x1 s' Ht' _. clear s Ht. rename s' into s, Ht' into Ht.
  apply cwp_bind. unfold cwp at 1, in_result, cget. destruct (test_result_state _ _); [by eapply fail_result|].
  eapply cwp_call_tail_; [exact Ht|]. intros x2 s' Ht' _. clear s Ht. rename s' into s, Ht' into Ht.
  apply cwp_bind. unfold cwp at 1, cmod. apply cwp_bind.
  eapply cwp_mono; [eapply (copy_ok (pageset2_written r2 x1 x2)); [exact Ht|done]|]. clear s Ht. intros x s Hx.
  exact (after_copy_ok r2 x1 x2 x s Hr2 Hx).
Qed.

(** ** The whole cycle *)

Lemma check_still_keeping_grows s :
  extends s0 s -> test_result_state TOI_KEPT_IMAGE (toi_result s) = true ->
  cwp (covered s0) True (check_still_keeping_image world) (fun _ => extends s0) s.
Proof.
  intros He Hk. unfold check_still_keeping_image. apply cwp_bind. unfold cwp at 1, in_action, cget.
  destruct (test_action_state TOI_KEEP_IMAGE (toi_action s)) eqn:Ek.
  - apply cwp_bind. destruct He as [es He]. eapply cwp_mono; [apply covers_post_image_write; exists es; auto|].
    intros ? s' Hc. by apply covered_extends.
  - clear Hk Ek. revert s He.
    change (grows (active <~ cget toiActiveAllocator;; panic_if (bool_decide (active = None));~ call_ world Remove_image;~ cret false)).
    walk.
Qed.

Lemma init_grows r : grows (toi_init world r).
Proof.
  pose proof (any_alloc_bitmaps _ grows_ask grows_mild) as H1. pose proof (any_mark _ grows_mild) as H2.
  pose proof (any_abort _ grows_mild) as H3. pose proof (any_put _ grows_mild) as H4.
  unfold toi_init, allocate_bitmaps. walk.
Qed.
#[local] Hint Resolve init_grows : safe.

Lemma prepare_grows : grows (do_prepare_image world).
Proof.
  pose proof (any_can_hibernate _ grows_ask grows_mild) as H1.
  assert (grows (kept <~ in_result TOI_KEPT_IMAGE;; if kept : bool then check_still_keeping_image world else cret false)) as Hk.
  { intros s He. apply cwp_bind. unfold cwp at 1, in_result, cget.
    destruct (test_result_state TOI_KEPT_IMAGE (toi_result s)) eqn:E; [by apply check_still_keeping_grows|done]. }
  unfold do_prepare_image. apply safe_bind; [walk|intros r]. apply safe_bind; [walk|intros r1]. apply safe_if; [walk|].
  apply safe_bind; [done|intros can]. apply safe_if; [walk|]. intros s He. apply cwp_bind. unfold cwp at 1, in_result, cget.
  specialize (Hk s He). unfold cwp at 1, cbind, in_result, cget in Hk.
  apply cwp_bind. eapply cwp_mono; [exact Hk|]. clear s He Hk. intros keeping. 
  change (grows (if keeping : bool then cret 1 else r0 <~ toi_init world r;; if r0 =? 0 then cret 1 else
    r1 <~ call world Toi_prepare_image;; aborted <~ in_result TOI_ABORTED;; cret (if (r1 =? 0) && negb aborted then 0 else 1))).
  walk.
Qed.

Lemma cleanup_grows g r : grows (do_cleanup world g r).
Proof. apply any_cleanup; [apply grows_ask|apply grows_mild]. Qed.

Lemma do_save_covers s : extends s0 s -> cwp (covered s0) True (do_save_image world) save_result s.
Proof using Hgo.
  intros He. unfold do_save_image. apply cwp_bind. eapply cwp_mono; [exact (any_call_ _ grows_ask _ s He)|]. clear s He. intros ? s He.
  apply cwp_bind. eapply cwp_mono; [exact (save_covers s He)|]. clear s He. intros r s [He Hr].
  apply cwp_bind. unfold cwp at 1. split; [by apply (grows_ask (Map_ps2_pages true) s)|].
  intros E Hh. exact (covers_ask (Map_ps2_pages true) s (Hr E Hh)).
Qed.

Lemma last_step_grows r s :
  save_result r s ->
  cwp (covered s0) True (hibernating <~ cget toi_in_hibernate;;
    if (r =? 0) && hibernating then do_post_image_write world else cret r) (fun _ => extends s0) s.
Proof.
  intros [He Hr]. apply cwp_bind. unfold cwp at 1, cget.
  destruct ((r =? 0) && _) eqn:E; [|exact He]. apply andb_true_iff in E as [E%Z.eqb_eq Hh].
  eapply cwp_mono; [exact (covers_post_image_write s (Hr E Hh))|]. intros ? s'. apply covered_extends.
Qed.

Lemma attempts_grows left : grows (attempts world left).
Proof using Hgo.
  induction left as [|left IH]; intros s He; cbn [attempts]; apply cwp_bind; (eapply cwp_mono; [exact (prepare_grows s He)|]);
    clear s He; intros result s He; apply cwp_bind; unfold cwp at 1, in_action, cget; (destruct (negb (result =? 0) || _); [exact He|]);
    apply cwp_bind; (eapply cwp_mono; [exact (do_save_covers s He)|]); clear s He result; intros result s Hs;
    apply cwp_bind; unfold cwp at 1, in_result, cget.
  - destruct (test_result_state _ _); by apply last_step_grows.
  - destruct (test_result_state _ _); [|by apply last_step_grows].
    destruct Hs as [Hs _]. revert s Hs. apply safe_bind; [apply cleanup_grows|intros ?]. walk.
Qed.
End Covered.


(** ** Where no image is found to switch to *)

(** Runs that always return, keeping [I]. *)
Lemma returns_with {A} (I : cyc -> Prop) (m : C A) s :
  safe (fun _ => False) False I m -> I s -> exists s' a, m s = Ret s' a /\ I s'.
Proof. intros Hm Hs. specialize (Hm s Hs). unfold cwp in Hm. destruct (m s) as [s' a| | |]; [eauto|done..]. Qed.

Section AltImage.
Context (world : fn -> nat -> answer).

(** The first bitmap is not there. *)
Definition no_pageset1_map (s : cyc) : Prop := hd Null (bitmaps s) = Null.

Lemma parse_returns (I : cyc -> Prop) :
  (forall f, safe (fun _ => False) False I (ask world f)) ->
  (forall f, (forall s, bitmaps (f s) = bitmaps s) -> safe (fun _ => False) False I (cmod f)) ->
  safe (fun _ => False) False I (toi_attempt_to_parse_resume_device world).
Proof.
  intros Hask Hmod. assert (forall f, safe (fun _ => False) False I (call world f)) as Hcall.
  { intros f. apply safe_bind; [done|intros ?; apply safe_ret]. }
  assert (forall f, safe (fun _ => False) False I (call_ world f)) as Hcall_.
  { intros f. apply safe_bind; [done|intros ?; apply safe_ret]. }
  assert (forall b f, safe (fun _ => False) False I (put_state b f)) as Hput by (intros; by apply Hmod).
  assert (forall n l, safe (fun _ => False) False I (try_allocators world n l)) as Htry.
  { intros n l. revert n. induction l as [|b l IH]; intros n; cbn [try_allocators]; walk; by apply Hmod. }
  unfold toi_attempt_to_parse_resume_device. walk; by apply Hmod.
Qed.
End AltImage.

(** Switching to another image crashes when there is none.  With an
    alternate resume parameter, [do_post_image_write] tries the image there
    before powering down.  If no image is found, whatever else the parts
    answer, [memory_bm_free] is called with the null pointer
    [prepare_restore_load_alt_image] has left in pageset1_map. *)
Theorem missing_alt_image_crashes (world : fn -> nat -> answer) (s : cyc)
    (Hnone : forall n, ret_val (world Image_exists_read n) <> 49) :
  exists s', step_resume_alt_image world s = Crash s'.
Proof.
  unfold step_resume_alt_image, save_restore_alt_param, cbind, cmod. cbn zeta.
  match goal with |- context [toi_attempt_to_parse_resume_device world ?x] => set (s1 := x) end.
  destruct (returns_with (fun _ => True) (toi_attempt_to_parse_resume_device world) s1) as (s2 & r & -> & _);
    [by apply parse_returns|done|]. cbn [cret].
  unfold prepare_restore_load_alt_image at 1, cbind, cmod, put_state, cmod. cbn zeta.
  match goal with |- context [do_check_can_resume world ?x] => set (s3 := x) end.
  assert (no_pageset1_map s3) as H3.
  { unfold no_pageset1_map, s3. simpl. by destruct (bitmaps s2) as [|? []]. }
  assert (exists s4, do_check_can_resume world s3 = Ret s4 0 /\ no_pageset1_map s4) as (s4 & -> & H4).
  { unfold do_check_can_resume, call, cbind, ask, cret. cbn zeta. destruct (_ =? 0); [eauto|].
    rewrite (proj2 (Z.eqb_neq _ _) (Hnone _)). eauto. }
  cbn. unfold prepare_restore_load_alt_image, cbind, cget. unfold no_pageset1_map in H4.
  destruct (bitmaps s4) as [|b l]; [eauto|]. simpl in H4. subst b. eauto.
Qed.

(** ** A machine *)

Module Machine.
Definition answer_of (r : Z) : answer := Answer r [] false false 0.

(** Every part succeeds. *)
Definition willing (f : fn) (_ : nat) : answer :=
  answer_of match f with
    | Kzalloc | Toi_get_zeroed_page _ | Get_toi_debug_info => 1
    | Image_exists_read => 48
    | _ => 0
    end.

(** One part answers otherwise. *)
Definition but (f : fn -> bool) (r : Z) (g : fn) (n : nat) : answer := if f g then answer_of r else willing g n.
Definition refusing : fn -> nat -> answer := but (fun f => match f with Toi_prepare_image => true | _ => false end) 1.

Definition write_failing : fn -> nat -> answer :=
  but (fun f => match f with Write_pageset id => id =? 2 | _ => false end) (- EIO).

(** No memory for the bitmaps. *)
Definition no_memory : fn -> nat -> answer := but (fun f => match f with Kzalloc => true | _ => false end) 0.

Definition start : cyc :=
  Cyc [] 0 (Z.lor (Z.shiftl 1 0) (Z.shiftl 1 2)) 0 false false 1 0 false false 7 0 false false [true] (Some 0%nat) 5 0 0 0
    false false (replicate 7 Null) [] 0 false 0 0 500 0 0 false false false 0 (-1).

Lemma start_idle : idle start.
Proof. by constructor. Qed.
End Machine.

Lemma hibernate_gives_back_witness :
  exists s' r, _toi_try_hibernate Machine.refusing Machine.start = Ret s' r /\
    (given_back 7 0 Machine.start s' \/ r = - EBUSY /\ given_back 0 1 Machine.start s').
Proof.
  assert (match _toi_try_hibernate Machine.refusing Machine.start with
    | Ret s' r => nr_hibernates Machine.start <= nr_hibernates s' <= nr_hibernates Machine.start + 3 /\
        (given_back (block_dump Machine.start) 0 Machine.start s' \/ r = - EBUSY /\ given_back 0 1 Machine.start s')
    | Off _ => True | Blocked _ | Crash _ => False end) as H.
  { apply (hibernate_gives_back Machine.refusing).
    - intros f n Hf. destruct f; vm_compute in Hf; by apply not_elem_of_nil in Hf.
    - intros n. reflexivity.
    - intros n. reflexivity.
    - intros b n. reflexivity.
    - intros n. discriminate.
    - exact Machine.start_idle.
    - reflexivity. }
  destruct (_toi_try_hibernate Machine.refusing Machine.start) as [s' r|s'|s'|s'] eqn:E; [|vm_compute in E; discriminate E|destruct H|destruct H].
  exists s', r. split; [reflexivity|]. exact (proj2 H).
Defined.


Lemma missing_alt_image_crashes_witness :
  exists s', step_resume_alt_image Machine.willing (Machine.start {{ alt_resume_param := 9 }}) = Crash s'.
Proof. apply (missing_alt_image_crashes Machine.willing). intros n. discriminate. Defined.

(** A failure to write pageset 2 can go unnoticed.  [write_pageset] passes
    on the error code of the loop, but [__save_image] looks for -1: with
    -EIO, and nothing marked as aborted, the rest of the image is written and
    the machine is switched off. *)
Theorem write_error_unnoticed :
  exists s', _toi_try_hibernate Machine.write_failing Machine.start = Off s' /\
    (Write_pageset 2, - EIO) ∈ calls s' /\ (Write_image_header, 0) ∈ calls s' /\
    test_result_state TOI_ABORTED (toi_result s') = false.
Proof.
  destruct (_toi_try_hibernate Machine.write_failing Machine.start) as [s' r|s'|s'|s'] eqn:E; try (vm_compute in E; discriminate E).
  exists s'. split; [reflexivity|]. vm_compute in E. injection E as <-.
  split_and!; [| |reflexivity]; apply list_elem_of_In; simpl; tauto.
Qed.

(** A failing [toi_init] is taken for success.  It returns 1 both when all
    is well and when the bitmaps cannot be allocated, and [do_prepare_image]
    goes on to [toi_prepare_image], with no bitmap to work on. *)
Theorem failed_init_ignored :
  exists s', do_prepare_image Machine.no_memory Machine.start = Ret s' 0 /\
    (Toi_prepare_image, 0) ∈ calls s' /\ bitmaps s' = replicate 7 Null /\ boot_kernel_data_buffer s' = false.
Proof.
  destruct (do_prepare_image Machine.no_memory Machine.start) as [s' r|s'|s'|s'] eqn:E; try (vm_compute in E; discriminate E).
  vm_compute in E. injection E as <- <-. eexists. split_and!; [reflexivity| |reflexivity|reflexivity].
  apply list_elem_of_In. simpl. tauto.
Qed.
