(* ===== verification/BootPrompt.v ===== *)
(** * Asking the user at boot

    kernel/power/tuxonice_ui.c ([toi_early_boot_message]),
    kernel/power/tuxonice_builtin.c ([toi_wait_for_keypress_dev_console], the
    entry points the rest of the kernel calls).

    The console is what the system calls on /dev/console answer; [toi_state]
    is the state word.  CONFIG_VT is set. *)

From S2P Require Import Prelude States Vsprintf.
From stdpp Require Import numbers base list.
#[local] Open Scope Z_scope.

(** ** Waiting for a key *)

Record console := Console {
  con_opens : bool;                  (* sys_open *)
  con_tcgets : bool;
  con_tcsets : nat -> bool;          (* the TCSETS that follows n reads *)
  con_read : nat -> option Z         (* the n-th sys_read; None: it timed out *)
}.

Record waiting := Waiting {
  reads : nat;
  vtimes : list Z;                   (* what VTIME was set to, in tenths of a second *)
  keypress : Z;
  wait_state : Z;                    (* toi_state *)
  tty_restored : bool
}.

#[export] Instance waiting_eta : Eta waiting := fun w =>
  Waiting (reads w) (vtimes w) (keypress w) (wait_state w) (tty_restored w).


(** How long the next read may take, and what is left of the timeout. *)
Definition next_timeout (timeout this_timeout : Z) : Z * Z :=
  if timeout >? 0 then
    let this := if timeout <? 26 then timeout else 25 in
    (timeout - this, this * 10)
  else (timeout, this_timeout).

(** The loop; [set]: whether it comes from the label [new_timeout]. *)
Fixpoint wait_loop (con : console) (fuel : nat) (set : bool) (timeout this_timeout : Z) (w : waiting) : option waiting :=
  match fuel with
  | O => None
  | S fuel' =>
      let '(timeout, this_timeout) := if set then next_timeout timeout this_timeout else (timeout, this_timeout) in
      let w := if set then w {{ vtimes := vtimes w ++ [this_timeout mod 256] }} else w in
      if set && negb (con_tcsets con (reads w)) then Some (w {{ tty_restored := true }})
      else
        let answer := con_read con (reads w) in
        let w := w {{ reads := S (reads w) }} in
        match answer with
        | None =>
            if negb (timeout =? 0) then wait_loop con fuel' true timeout this_timeout w
            else Some (w {{ keypress := 0; tty_restored := true }})
        | Some k =>
            let w := w {{ keypress := tolower k }} in
            if test_toi_state TOI_SANITY_CHECK_PROMPT (wait_state w) then
              if keypress w =? 99 then
                Some (w {{ wait_state := set_toi_state TOI_CONTINUE_REQ (wait_state w); tty_restored := true }})
              else if keypress w =? 32 then Some (w {{ tty_restored := true }})
              else wait_loop con fuel' false timeout this_timeout w
            else Some (w {{ tty_restored := true }})
        end
  end.

Definition toi_wait_for_keypress_dev_console (con : console) (fuel : nat) (timeout : Z) (st : Z) : option waiting :=
  let w := Waiting 0 [] 0 st true in
  if negb (con_opens con) then Some w
  else if negb (con_tcgets con) then Some w
  else wait_loop con fuel true timeout 255 (w {{ tty_restored := false }}).

(** [ui]: the user interface's [wait_for_key], when one is registered. *)
Definition toi_wait_for_keypress (ui : option (Z -> bool * Z)) (con : console) (fuel : nat) (timeout st : Z)
    : option (Z * Z) :=
  let from_console st := w ← toi_wait_for_keypress_dev_console con fuel timeout st; Some (keypress w, wait_state w) in
  match ui with
  | Some wait_for_key => let '(pressed, st) := wait_for_key st in if pressed : bool then Some (32, st) else from_console st
  | None => from_console st
  end.

(** ** Warnings *)

(** What the user is told, or that the machine restarts. *)
Inductive prompted := Continue (st : Z) | Restart.

Definition toi_early_boot_message (ui : option (Z -> bool * Z)) (con : console) (fuel : nat) (toi_wait : Z)
    (default_answer : Z) (warning_reason : bool) (st : Z) : option prompted :=
  let orig_state := st in
  let can_ask := negb (toi_wait =? 0) in
  let st := if can_ask then st else set_toi_state TOI_CONTINUE_REQ st in
  let post_ask (continue_req : bool) :=
    if warning_reason && negb continue_req then Restart
    else Continue (if continue_req then set_toi_state TOI_CONTINUE_REQ orig_state else orig_state) in
  if negb (test_toi_state TOI_BOOT_TIME st) then Some (Continue st)
  else if negb can_ask then Some (post_ask (negb (default_answer =? 0)))
  else
    let st := clear_toi_state TOI_CONTINUE_REQ (set_toi_state TOI_SANITY_CHECK_PROMPT st) in
    '(k, st) ← toi_wait_for_keypress ui con fuel toi_wait st;
    Some (post_ask (if k =? 0 then negb (default_answer =? 0) else test_toi_state TOI_CONTINUE_REQ st)).

(** [toi_wait=]: whether the value is taken. *)
Definition toi_wait_setup (parsed : option Z) (toi_wait : Z) : Z :=
  match parsed with
  | Some value => if (value <? -1) || (value >? 255) then toi_wait else value
  | None => toi_wait
  end.

(** ** Entry points *)

(** [loaded]: whether the core has registered itself.  The answer says whether
    the core's [try_resume] is called. *)
Definition toi_try_resume (loaded ignore_late_initcall : bool) (num_resume_calls : Z) : Z * bool :=
  let n := if num_resume_calls <? 2 then num_resume_calls + 1 else num_resume_calls in
  if (n =? 1) && ignore_late_initcall then (n, false) else (n, loaded).

(** ** The timeout *)

(** Nobody presses a key: the waits add up to the timeout. *)
Lemma wait_loop_silent con fuel timeout this w :
  (forall n, con_tcsets con n = true) -> (forall n, con_read con n = None) ->
  0 < timeout -> (Z.to_nat timeout <= fuel)%nat ->
  exists w', wait_loop con fuel true timeout this w = Some w' /\ keypress w' = 0 /\ wait_state w' = wait_state w /\
    tty_restored w' = true /\
    exists vs, vtimes w' = vtimes w ++ vs /\ Forall (fun v => 0 < v <= 250) vs /\ foldr Z.add 0 vs = 10 * timeout.
Proof.
  intros Hset Hread. revert timeout this w. induction fuel as [|fuel IH]; intros timeout this w Ht Hf; [lia|].
  cbn [wait_loop]. unfold next_timeout. rewrite (proj2 (Z.gtb_lt _ _)) by lia.
  rewrite Hset, Hread. simpl negb. cbv iota.
  set (this1 := if timeout <? 26 then timeout else 25).
  assert (0 < this1 <= 25 /\ this1 <= timeout /\ (timeout = this1 \/ this1 = 25)) as (Hp & Hle & Hor)
    by (unfold this1; destruct (timeout <? 26) eqn:E; breflect; lia).
  rewrite (Z.mod_small (this1 * 10)) by lia.
  destruct (timeout - this1 =? 0) eqn:E; breflect; simpl negb; cbv iota.
  - eexists. split; [done|]. split_and!; try done. exists [this1 * 10]. simpl. split_and!; [done| |lia].
    repeat constructor; lia.
  - match goal with |- context [wait_loop con fuel true _ _ ?w1] =>
      destruct (IH (timeout - this1) (this1 * 10) w1) as (w' & Ew & Hk & Hst & Hr & vs & Hv & Hb & Hs); try lia end.
    exists w'. split; [done|]. split_and!; try done. exists (this1 * 10 :: vs). rewrite Hv. simpl.
    rewrite <- app_assoc. split_and!; [done| |lia]. constructor; [lia|done].
Qed.

(** C40: with the terminal working and nobody at it, the wait for a key of
    [timeout] seconds ends; the reads are given [timeout] seconds in all, in
    waits that fit the terminal's eight-bit counter of tenths of a second; no
    key is reported, and the terminal's settings are put back. *)
Theorem keypress_timeout (con : console) (fuel : nat) (timeout st : Z)
  (Hopen : con_opens con = true) (Hget : con_tcgets con = true)
  (Hset : forall n, con_tcsets con n = true) (Hread : forall n, con_read con n = None)
  (Ht : 0 < timeout) (Hf : (Z.to_nat timeout <= fuel)%nat) :
  exists w, toi_wait_for_keypress_dev_console con fuel timeout st = Some w /\ keypress w = 0 /\ wait_state w = st /\
    tty_restored w = true /\ Forall (fun v => 0 < v <= 250) (vtimes w) /\ foldr Z.add 0 (vtimes w) = 10 * timeout.
Proof.
  unfold toi_wait_for_keypress_dev_console. rewrite Hopen, Hget. simpl negb. cbv iota.
  match goal with |- context [wait_loop con fuel true _ _ ?w1] =>
    destruct (wait_loop_silent con fuel timeout 255 w1 Hset Hread Ht Hf) as (w' & Ew & Hk & Hst & Hr & vs & Hv & Hb & Hs) end.
  exists w'. rewrite Hv. by split_and!.
Qed.

Lemma keypress_timeout_witness :
  let con := Console true true (fun _ => true) (fun _ => None) in
  exists w, toi_wait_for_keypress_dev_console con 60 60 0 = Some w /\ keypress w = 0 /\ wait_state w = 0 /\
    tty_restored w = true /\ Forall (fun v => 0 < v <= 250) (vtimes w) /\ foldr Z.add 0 (vtimes w) = 10 * 60.
Proof.
  apply (keypress_timeout (Console true true (fun _ => true) (fun _ => None)) 60 60 0);
    try reflexivity; try (intros; reflexivity); lia.
Defined.
