(* ===== verification/ModuleConfigs.v ===== *)
(** * The configuration of modules in the image header

    kernel/power/tuxonice_io.c, [write_module_configs] to
    [read_module_configs].  The configuration of each module that takes part
    is written to the header, with its name; when an image is loaded the
    modules named there, and only those, are enabled again, in the order they
    had.

    The header is written and read through the interface of [HeaderStream];
    a module's own data are bytes. *)

From S2P Require Import Prelude States HeaderStream CString BootPrompt Modules.
From stdpp Require Import numbers base list strings gmap.
#[local] Open Scope Z_scope.
#[local] Open Scope step_scope.

(** ** The record of a module *)

Definition TOI_MAX_MODULE_NAME_LENGTH : nat := 30.

(** [struct toi_module_header]; [unset]: the two bytes of padding after the
    name, data_length and signature, which nobody sets. *)
Record toi_module_header := ModuleHeader {
  header_name : list Z;
  header_enabled : Z;
  header_type : Z;
  header_index : Z;
  unset : list Z
}.

#[export] Instance toi_module_header_eta : Eta toi_module_header := fun h =>
  ModuleHeader (header_name h) (header_enabled h) (header_type h) (header_index h) (unset h).

Definition header_bytes (h : toi_module_header) : list Z :=
  header_name h ++ take 2 (unset h) ++ le_bytes 4 (header_enabled h) ++ le_bytes 4 (header_type h) ++
  le_bytes 4 (header_index h) ++ drop 2 (unset h).

Definition header_of_bytes (l : list Z) : toi_module_header :=
  let field n := s32 (le_val (take 4 (drop n l))) in
  ModuleHeader (take 30 l) (field 32%nat) (field 36%nat) (field 40%nat) (take 2 (drop 30 l) ++ take 12 (drop 44 l)).

Definition module_type_code (t : module_type) : Z :=
  match t with FILTER_MODULE => 0 | WRITER_MODULE => 1 | MISC_MODULE => 2 | MISC_HIDDEN_MODULE => 3 | INVALID_MODULE => 4 end.

Definition name_bytes (s : string) : list Z := map (fun a => Z.of_N (Ascii.N_of_ascii a)) (String.list_ascii_of_string s).
Definition bytes_name (l : list Z) : string := String.string_of_list_ascii (map (fun b => Ascii.ascii_of_N (Z.to_N b)) l).

(** ** Writing *)

Section Write.
Context {W : Type} `{HeaderWriter W}.
Context (save_config_info : nat -> option (list Z)).  (* the data; None: no such function *)

Definition takes_part (active : option nat) (id : nat) (m : toi_module_ops) : bool :=
  enabled m && bool_decide (storage_needed m <> None) &&
  negb (bool_decide (type m = WRITER_MODULE) && negb (bool_decide (active = Some id))).

(** The results of writing are not looked at. *)
Definition put_chunk (o : owner) (bs : list Z) (w : W) : W := fst (hw_chunk o bs w).

Fixpoint write_configs (r : registry) (l : list nat) (index : Z) (h : toi_module_header) (w : W)
    : option (toi_module_header * W) :=
  match l with
  | [] => Some (h, w)
  | id :: l' =>
      m ← ops r !! id;
      if negb (takes_part (toiActiveAllocator r) id m) then write_configs r l' index h w
      else
        let data := default [] (save_config_info id) in
        name ← strncpy (header_name h) (name_bytes (name m) ++ [0]) TOI_MAX_MODULE_NAME_LENGTH;
        let h := ModuleHeader name (Z.b2z (enabled m)) (module_type_code (type m)) index (unset h) in
        let w := put_chunk (Some id) (header_bytes h) w in
        let w := put_chunk (Some id) (le_bytes 4 (Z.of_nat (length data))) w in
        let w := if bool_decide (data = []) then w else put_chunk (Some id) data w in
        write_configs r l' (s32 (index + 1)) h w
  end.

(** The record that ends the list. *)
Definition blank (h : toi_module_header) : toi_module_header := h {{ header_name := <[0%nat := 0]> (header_name h) }}.

(** [h]: what the stack held; [have_page]: whether a page can be had. *)
Definition write_module_configs (r : registry) (have_page : bool) (h : toi_module_header) (w : W) : option (W * Z) :=
  if negb have_page then Some (w, - ENOMEM)
  else
    '(h, w) ← write_configs r (toi_modules r) 1 h w;
    Some (put_chunk None (header_bytes (blank h)) w, 0).
End Write.

(** ** Reading *)

Section Read.
Context {R : Type} `{HeaderReader R}.
Context (has_save_config_info has_load_config_info : nat -> bool).
Context (early_boot_message : Z -> option prompted).    (* toi_early_boot_message(1, TOI_CONTINUE_REQ, ...) *)
Context (have_page : bool).

(** The calls of [load_config_info], with what was passed. *)
Abbreviation loads := (list (nat * list Z)).

(** The stream, the modules, the calls so far and [toi_state]. *)
Abbreviation reading := (R * registry * loads * Z)%type.

(** A module gets its data, and its place in the lists. *)
Definition configure (id : nat) (on : Z) (data : list Z) (log : loads) : M registry loads :=
  if has_save_config_info id && negb (has_load_config_info id) then bug
  else
    toi_move_module_tail id;;;
    update_module id (fun m => m {{ enabled := negb (on =? 0) }});;;
    ret (if has_save_config_info id then log ++ [(id, data)] else log).

(** The length of the data, and the data. *)
Definition read_config_data (this_module : option nat) (on : Z) (s : reading) : option (reading * Z) :=
  let '(r, g, log, st) := s in
  let '(r, (bs, result)) := hr_chunk 4 r in
  if negb (result =? 0) then Some ((r, g, log, st), - EINVAL)
  else
    let len := s32 (le_val bs) in
    if len =? 0 then Some ((r, g, log, st), 0)
    else if negb have_page then Some ((r, g, log, st), - ENOMEM)
    else if (len <? 0) || (len >? PAGE_SIZE) then None
    else
      let '(r, (data, _)) := hr_chunk (Z.to_nat len) r in
      match this_module with
      | None => Some ((r, g, log, st), 0)
      | Some id => '(g, log) ← configure id on data log g; Some ((r, g, log, st), 0)
      end.

(** A result of [None]: the machine restarts. *)
Definition read_one_module_config (h : toi_module_header) (s : reading) : option (reading * option Z) :=
  let '(r, g, log, st) := s in
  name ← c_string (header_name h);
  '(g, this_module) ← toi_find_module_given_name (bytes_name name) g;
  let go st := '(s, result) ← read_config_data this_module (header_enabled h) (r, g, log, st); Some (s, Some result) in
  if bool_decide (this_module = None) && negb (header_enabled h =? 0) then
    p ← early_boot_message st;
    match p with
    | Restart => Some ((r, g, log, st), None)
    | Continue st => if test_toi_state TOI_CONTINUE_REQ st then go st else Some ((r, g, log, st), Some (- EINVAL))
    end
  else go st.

Fixpoint read_configs (fuel : nat) (h : toi_module_header) (s : reading) : option (reading * option Z) :=
  match fuel with
  | O => None
  | S fuel' =>
      if default 0 (head (header_name h)) =? 0 then Some (s, Some 0)
      else
        '(s, result) ← read_one_module_config h s;
        match result with
        | None => Some (s, None)
        | Some result =>
            if negb (result =? 0) then Some (s, Some (- EINVAL))
            else
              let '(r, g, log, st) := s in
              let '(r, (bs, result)) := hr_chunk (Z.to_nat sizeof_module_header) r in
              if negb (result =? 0) then Some ((r, g, log, st), Some (- EINVAL))
              else read_configs fuel' (header_of_bytes bs) (r, g, log, st)
        end
  end.

Definition disable_all (g : registry) : registry :=
  foldl (fun g id => g {{ ops := alter (fun m => m {{ enabled := false }}) id (ops g) }}) g (toi_modules g).

Definition read_module_configs (fuel : nat) (r : R) (g : registry) (st : Z) : option (reading * option Z) :=
  let g := disable_all g in
  let '(r, (bs, result)) := hr_chunk (Z.to_nat sizeof_module_header) r in
  if negb (result =? 0) then Some ((r, g, [], st), Some (- EINVAL))
  else read_configs fuel (header_of_bytes bs) (r, g, [], st).
End Read.
