(* ===== verification/ModuleConfigsFacts.v ===== *)
(** * Facts about the configuration of modules

    What is written to the header puts the modules back: the same data for
    each, the same filters enabled and in the same order, everything else
    disabled. *)

From S2P Require Import Prelude States HeaderStream CString BootPrompt Modules ModuleFacts ModuleConfigs.
From stdpp Require Import numbers base list strings gmap.
#[local] Open Scope Z_scope.
#[local] Open Scope step_scope.

(** ** Filters that keep everything, or nothing *)

Lemma filter_keeps_all {A} (P : A -> Prop) `{forall x, Decision (P x)} (l : list A) :
  (forall x, x ∈ l -> P x) -> filter P l = l.
Proof.
  induction l as [|x l IH]; intros HP; [done|].
  rewrite filter_cons_True by (apply HP; by left). f_equal. apply IH. intros y Hy. apply HP. by right.
Qed.

Lemma filter_keeps_none {A} (P : A -> Prop) `{forall x, Decision (P x)} (l : list A) :
  (forall x, x ∈ l -> ~ P x) -> filter P l = [].
Proof.
  induction l as [|x l IH]; intros HP; [done|].
  rewrite filter_cons_False by (apply HP; by left). apply IH. intros y Hy. apply HP. by right.
Qed.

(** ** Names *)

Lemma bytes_name_bytes s : bytes_name (name_bytes s) = s.
Proof.
  unfold bytes_name, name_bytes. rewrite map_map.
  rewrite (map_ext _ id), map_id; [apply String.string_of_list_ascii_of_string|].
  intros a. rewrite N2Z.id. apply Ascii.ascii_N_embedding.
Qed.

(** A name the header can hold. *)
Definition good_name (s : string) : Prop :=
  Forall (fun b => b <> 0) (name_bytes s) /\ (0 < length (name_bytes s) < 30)%nat.

#[export] Instance good_name_dec s : Decision (good_name s).
Proof. unfold good_name. apply _. Defined.

Definition name_field (s : string) : list Z := name_bytes s ++ repeat 0 (30 - length (name_bytes s)).

Lemma name_field_strncpy dst s :
  good_name s -> length dst = 30%nat -> strncpy dst (name_bytes s ++ [0]) TOI_MAX_MODULE_NAME_LENGTH = Some (name_field s).
Proof.
  intros [Hz Hl] Hd. unfold strncpy, TOI_MAX_MODULE_NAME_LENGTH. rewrite Hd. simpl (30 <=? 30)%nat. cbv iota.
  rewrite c_prefix_app by (done || lia). simpl. rewrite (drop_ge dst) by lia. by rewrite app_nil_r.
Qed.

Lemma name_field_string s : good_name s -> c_string (name_field s) = Some (name_bytes s).
Proof.
  intros [Hz Hl]. unfold name_field. replace (30 - length (name_bytes s))%nat with (S (29 - length (name_bytes s))) by lia.
  by apply c_string_app.
Qed.

Lemma name_field_length s : good_name s -> length (name_field s) = 30%nat.
Proof. intros [_ Hl]. unfold name_field. rewrite length_app, repeat_length. lia. Qed.

Lemma name_field_head s : good_name s -> default 0 (head (name_field s)) <> 0.
Proof.
  intros [Hz Hl]. unfold name_field. destruct (name_bytes s) as [|b l]; simpl in *; [lia|]. by inv Hz.
Qed.

(** ** The record of a module *)

Definition wf_header (h : toi_module_header) : Prop := length (header_name h) = 30%nat /\ length (unset h) = 14%nat.

Lemma header_bytes_length h : wf_header h -> length (header_bytes h) = 56%nat.
Proof.
  intros [Hn Hu]. unfold header_bytes. rewrite !length_app, !length_le_bytes, length_take, length_drop, Hn, Hu. done.
Qed.

Lemma blank_wf h : wf_header h -> wf_header (blank h).
Proof. intros [Hn Hu]. split; [|done]. unfold blank. simpl. destruct (header_name h); done. Qed.

Lemma header_read_back h :
  wf_header h ->
  let h' := header_of_bytes (header_bytes h) in
  header_name h' = header_name h /\ header_enabled h' = s32 (header_enabled h).
Proof.
  intros [Hn Hu]. unfold header_of_bytes, header_bytes. cbn [header_name header_enabled]. split.
  - rewrite <- Hn. apply take_app_length.
  - rewrite app_assoc, drop_app_length' by (rewrite length_app, length_take, Hn, Hu; done).
    rewrite take_app_length' by (by rewrite length_le_bytes). by rewrite le_val_bytes4, s32_u32.
Qed.

(** ** What is written *)

Section Written.
Context (save_config_info : nat -> option (list Z)).

Definition config_data (id : nat) : list Z := default [] (save_config_info id).

Definition record_of (m : toi_module_ops) (index : Z) (h : toi_module_header) : toi_module_header :=
  ModuleHeader (name_field (name m)) (Z.b2z (enabled m)) (module_type_code (type m)) index (unset h).

Definition entry (id : nat) (h : toi_module_header) : list (owner * list Z) :=
  [(Some id, header_bytes h); (Some id, le_bytes 4 (Z.of_nat (length (config_data id))))] ++
  (if bool_decide (config_data id = []) then [] else [(Some id, config_data id)]).

(** The chunks for the modules of a list, ending with the blank record. *)
Fixpoint config_chunks (r : registry) (l : list nat) (index : Z) (h : toi_module_header) : list (owner * list Z) :=
  match l with
  | [] => [(None, header_bytes (blank h))]
  | id :: l' =>
      match ops r !! id with
      | Some m => let h' := record_of m index h in entry id h' ++ config_chunks r l' (s32 (index + 1)) h'
      | None => []
      end
  end.

(** The modules that are written, and those of them that have data. *)
Definition participates (r : registry) (id : nat) : bool :=
  match ops r !! id with Some m => takes_part (toiActiveAllocator r) id m | None => false end.

Definition saved (r : registry) : list nat := filter (fun id => participates r id = true) (toi_modules r).

Definition configured (l : list nat) : list nat := filter (fun id => config_data id <> []) l.
Definition config_loads (l : list nat) : list (nat * list Z) := map (fun id => (id, config_data id)) (configured l).

Lemma config_loads_cons id l : config_loads [id] ++ config_loads l = config_loads (id :: l).
Proof. unfold config_loads, configured. rewrite <- map_app, <- list.filter_app. done. Qed.

Section Writer.
Context {W : Type} `{HeaderWriter W}.

Definition put_all (cs : list (owner * list Z)) (w : W) : W := foldl (fun w c => put_chunk (fst c) (snd c) w) w cs.

Fixpoint accepted (cs : list (owner * list Z)) (w : W) : Prop :=
  match cs with
  | [] => True
  | (o, bs) :: cs' => snd (hw_chunk o bs w) = 0 /\ accepted cs' (put_chunk o bs w)
  end.

Lemma accepted_content cs w acc :
  hw_content w acc -> accepted cs w -> hw_content (put_all cs w) (acc ++ concat (map snd cs)).
Proof.
  revert w acc. induction cs as [|[o bs] cs IH]; intros w acc Hw Ha; simpl; [by rewrite app_nil_r|].
  destruct Ha as [Ha Hrest]. rewrite app_assoc. apply IH; [|done]. apply (hw_chunk_ok o bs w _ acc Hw).
  unfold put_chunk. revert Ha. destruct (hw_chunk o bs w) as [w1 e]. simpl. by intros ->.
Qed.

Lemma put_all_app c1 c2 w : put_all (c1 ++ c2) w = put_all c2 (put_all c1 w).
Proof. apply foldl_app. Qed.

(** Modules that do not take part leave no trace. *)
Lemma write_configs_saved r l i h (w : W) :
  Forall (fun id => is_Some (ops r !! id)) l ->
  write_configs save_config_info r l i h w =
  write_configs save_config_info r (filter (fun id => participates r id = true) l) i h w.
Proof.
  intros Hk. revert i h w. induction Hk as [|id l [m Hm] Hk IH]; intros i h w; [done|].
  assert (participates r id = takes_part (toiActiveAllocator r) id m) as Ep by (unfold participates; by rewrite Hm).
  rewrite filter_cons. cbn [write_configs]. rewrite Hm. simpl mbind.
  destruct (takes_part _ id m) eqn:Et; [rewrite decide_True by done|rewrite decide_False by congruence; apply IH].
  cbn [write_configs]. rewrite Hm. simpl mbind. rewrite Et. simpl negb. cbv iota.
  by destruct (strncpy _ _ _); simpl.
Qed.

Definition named (r : registry) (l : list nat) : Prop :=
  Forall (fun id => exists m, ops r !! id = Some m /\ takes_part (toiActiveAllocator r) id m = true /\ good_name (name m)) l.

Lemma saved_named r :
  (forall id m, id ∈ saved r -> ops r !! id = Some m -> good_name (name m)) -> named r (saved r).
Proof.
  intros Hg. apply Forall_forall. intros id Hid. pose proof Hid as Hp. apply list_elem_of_filter in Hp as [Hp _].
  unfold participates in Hp. destruct (ops r !! id) as [m|] eqn:Hm; [|done]. exists m. eauto.
Qed.

Lemma write_configs_chunks r l i h (w : W) :
  named r l -> length (header_name h) = 30%nat ->
  exists h' w', write_configs save_config_info r l i h w = Some (h', w') /\
    put_chunk None (header_bytes (blank h')) w' =
    put_all (config_chunks r l i h) w.
Proof.
  intros Hl. revert i h w. induction Hl as [|id l (m & Hm & Ht & Hn) Hl IH]; intros i h w Hh; [by exists h, w|].
  cbn [write_configs config_chunks]. rewrite Hm. simpl mbind. rewrite Ht. simpl negb. cbv iota.
  rewrite name_field_strncpy by done. simpl mbind.
  fold (record_of m i h). rewrite put_all_app.
  destruct (IH (s32 (i + 1)) (record_of m i h) (put_all (entry id (record_of m i h)) w)) as (h' & w' & E & Hp).
  { by apply name_field_length. }
  exists h', w'. split; [|done]. rewrite <- E. unfold entry, config_data, put_all.
  by destruct (bool_decide _).
Qed.
End Writer.

(** ** Putting a module back *)

(** The first module of that name is the module. *)
Lemma find_given_name_found r l id m :
  known r l -> NoDup (map (fun i => snd <$> key r i) l) -> id ∈ l -> ops r !! id = Some m ->
  find_given_name (name m) l r = Some (r, Some id).
Proof.
  intros Hk. induction Hk as [|x l [mx Hx] Hk IH]; intros Hd Hin Hm; [by apply elem_of_nil in Hin|].
  cbn [find_given_name]. unfold bind, module. rewrite Hx. simpl in Hd. inv Hd as [|? ? Hnot Hd'].
  apply elem_of_cons in Hin as [->|Hin].
  - by rewrite Hm in Hx; inv Hx; rewrite bool_decide_eq_true_2.
  - rewrite bool_decide_eq_false_2; [by apply IH|]. intros En. apply Hnot. apply list_elem_of_fmap.
    exists id. unfold key. rewrite Hx, Hm. simpl. by rewrite En.
Qed.

Lemma find_module_found r id m :
  wf_registry r -> id ∈ toi_modules r -> ops r !! id = Some m ->
  toi_find_module_given_name (name m) r = Some (r, Some id).
Proof.
  intros Hw Hin Hm. unfold toi_find_module_given_name, bind, get.
  apply find_given_name_found; auto using known_modules. apply Hw.
Qed.

Lemma move_filters_only id t r :
  toi_filters (move_tail id t r) =
  match t with
  | FILTER_MODULE => if toi_num_filters r >? 1 then list_move_tail id (toi_filters r) else toi_filters r
  | _ => toi_filters r
  end.
Proof. unfold move_tail. by destruct t; repeat case_match. Qed.

(** The guards on the counters only spare moves that change nothing. *)
Lemma move_tail_filters r id t :
  wf_registry r -> id ∈ toi_modules r -> is_type t r id = true ->
  toi_filters (move_tail id t r) =
  if is_type FILTER_MODULE r id then list_move_tail id (toi_filters r) else toi_filters r.
Proof.
  intros Hw Hin Ht. rewrite move_filters_only. destruct (decide (t = FILTER_MODULE)) as [->|Hne].
  - rewrite Ht. destruct (toi_num_filters r >? 1) eqn:E; [done|].
    symmetry. apply list_move_tail_short.
    + rewrite (wr_filters r Hw). by apply of_type_elem.
    + rewrite (wr_num_filters r Hw) in E. breflect. lia.
  - rewrite (is_type_unique _ _ _ _ Ht Hne). by destruct t.
Qed.

Lemma of_type_app t r l1 l2 : of_type t r (l1 ++ l2) = of_type t r l1 ++ of_type t r l2.
Proof. apply list.filter_app. Qed.

(** What putting back the modules [l] makes of the registry [g]. *)
Record put_back (g : registry) (l : list nat) (g' : registry) : Prop := {
  pb_wf : wf_registry g';
  pb_key : forall i, key g' i = key g i;
  pb_modules : toi_modules g' ≡ₚ toi_modules g;
  pb_filters : toi_filters g' = foldl (fun fs id => list_move_tail id fs) (toi_filters g) (of_type FILTER_MODULE g l);
  pb_enabled : forall i, is_enabled g' i = bool_decide (i ∈ l) || is_enabled g i
}.

Lemma put_back_none g : wf_registry g -> put_back g [] g.
Proof. by split. Qed.

Lemma put_back_cons g id g1 l g2 : put_back g [id] g1 -> put_back g1 l g2 -> put_back g (id :: l) g2.
Proof.
  intros [Hw1 Hk1 Hm1 Hf1 He1] [Hw2 Hk2 Hm2 Hf2 He2]. split; [done| | | |].
  - intros i. by rewrite Hk2, Hk1.
  - by rewrite Hm2, Hm1.
  - rewrite Hf2, Hf1, (of_type_ext FILTER_MODULE g g1) by done. by rewrite <- foldl_app, <- of_type_app.
  - intros i. rewrite He2, He1, orb_assoc. f_equal. rewrite <- bool_decide_or. apply bool_decide_ext. set_solver.
Qed.

Lemma enable_put_back g id g1 :
  id ∈ toi_modules g ->
  wf_registry g1 -> (forall i, key g1 i = key g i) -> (forall i, ops g1 !! i = ops g !! i) ->
  toi_modules g1 ≡ₚ toi_modules g ->
  toi_filters g1 = (if is_type FILTER_MODULE g id then list_move_tail id (toi_filters g) else toi_filters g) ->
  is_Some (ops g !! id) ->
  put_back g [id] (g1 {{ ops := alter (fun m => m {{ enabled := true }}) id (ops g1) }}).
Proof.
  intros Hin Hw Hk Ho Hm Hf [m Hid].
  assert (same_lists g1 (g1 {{ ops := alter (fun m => m {{ enabled := true }}) id (ops g1) }})) as Hs.
  { by eapply (keeps_update id (fun m => m {{ enabled := true }})). }
  split.
  - by eapply wf_same_lists.
  - intros i. by rewrite (sm_key _ _ Hs), Hk.
  - done.
  - simpl. rewrite Hf. unfold of_type. rewrite filter_cons. by destruct (is_type FILTER_MODULE g id).
  - intros i. unfold is_enabled. simpl. destruct (decide (i = id)) as [->|Hne].
    + rewrite lookup_alter_eq, Ho, Hid. simpl. by rewrite bool_decide_eq_true_2 by (by left).
    + rewrite lookup_alter_ne by done. rewrite Ho, bool_decide_eq_false_2; [done|].
      by intros ?%list_elem_of_singleton.
Qed.

Section Reader.
Context (has_save_config_info has_load_config_info : nat -> bool).

Lemma configure_ok g id data log :
  wf_registry g -> id ∈ toi_modules g -> has_save_config_info id = true -> has_load_config_info id = true ->
  exists g', configure has_save_config_info has_load_config_info id 1 data log g = Some (g', log ++ [(id, data)]) /\
    put_back g [id] g'.
Proof.
  intros Hw Hin Hs Hl. unfold configure. rewrite Hs, Hl. simpl (_ && _). cbv iota.
  destruct (proj1 (Forall_forall _ _) (known_modules g Hw) id Hin) as [m Hm].
  assert (is_type (type m) g id = true) as Ht by (rewrite (is_type_of _ _ _ Hm); by apply bool_decide_eq_true).
  assert (type m <> INVALID_MODULE) as Hv.
  { intros E. rewrite E in Ht. pose proof (proj1 (Forall_forall _ _) (wr_valid g Hw) id Hin) as Hn. simpl in Hn. congruence. }
  assert (toi_move_module_tail id g = Some (move_tail id (type m) g, tt)) as E.
  { unfold toi_move_module_tail, bind, module. rewrite Hm. by destruct (type m). }
  unfold bind at 1. rewrite E. unfold bind, update_module, modify, ret. eexists. split; [done|].
  destruct (move_tail_lists g id (type m) Hw Hin Ht) as (_ & _ & Hp).
  apply (enable_put_back g id (move_tail id (type m) g)); auto using move_tail_wf, move_tail_filters, key_move.
  intros i. unfold move_tail. by repeat case_match.
Qed.

Context {R : Type} `{HeaderReader R} (early : Z -> option prompted).
Abbreviation read_one := (read_one_module_config has_save_config_info has_load_config_info early true).
Abbreviation read_loop := (read_configs has_save_config_info has_load_config_info early true).

(** The module [id] can take what was written for it. *)
Definition takes_config (id : nat) : Prop :=
  Z.of_nat (length (config_data id)) <= PAGE_SIZE /\
  (config_data id <> [] -> has_save_config_info id = true /\ has_load_config_info id = true).

Definition after_header (id : nat) : list Z := le_bytes 4 (Z.of_nat (length (config_data id))) ++ config_data id.

Lemma entry_bytes id h : concat (map snd (entry id h)) = header_bytes h ++ after_header id.
Proof.
  unfold entry, after_header. rewrite map_app, concat_app. cbn [map concat snd]. rewrite app_nil_r, <- app_assoc.
  do 2 f_equal. destruct (bool_decide _) eqn:E; cbn [map concat snd]; rewrite ?app_nil_r; [|done].
  by apply bool_decide_eq_true in E as ->.
Qed.

Lemma read_one_ok h m id (rd : R) rest g log st :
  wf_registry g -> id ∈ toi_modules g -> ops g !! id = Some m -> good_name (name m) -> takes_config id ->
  header_name h = name_field (name m) -> header_enabled h = 1 -> hr_pending rd (after_header id ++ rest) ->
  exists rd' g', read_one h (rd, g, log, st) = Some ((rd', g', log ++ config_loads [id], st), Some 0) /\
    hr_pending rd' rest /\ put_back g (configured [id]) g'.
Proof.
  intros Hw Hin Hm Hn [Hsize Hfn] Eh Een Hp. unfold read_one_module_config.
  rewrite Eh, name_field_string by done. simpl mbind. rewrite bytes_name_bytes, (find_module_found g id m) by done.
  cbn -[hr_chunk le_val config_loads configured].
  unfold after_header in Hp. rewrite <- app_assoc in Hp.
  destruct (hr_chunk_ok _ _ _ Hp) as (rd1 & E1 & Hp1). rewrite length_le_bytes in E1. rewrite E1. simpl negb. cbv iota.
  rewrite le_val_bytes4, s32_u32.
  assert (PAGE_SIZE = 4096) as Epage by done.
  rewrite s32_small by lia. unfold config_loads, configured. rewrite filter_cons, filter_nil.
  destruct (decide (config_data id <> [])) as [Hd|Hd].
  - destruct (Hfn Hd) as [Hs Hl]. rewrite (proj2 (Z.eqb_neq _ 0)) by (destruct (config_data id); simpl; [done|lia]).
    simpl negb. cbv iota.
    rewrite (proj2 (orb_false_iff _ _)) by (rewrite Z.gtb_ltb, !Z.ltb_ge; lia). rewrite Nat2Z.id.
    destruct (hr_chunk_ok _ _ _ Hp1) as (rd2 & E2 & Hp2). rewrite E2, Een.
    destruct (configure_ok g id (config_data id) log Hw Hin Hs Hl) as (g' & Ec & Hpb).
    rewrite Ec. by exists rd2, g'.
  - destruct (config_data id) as [|b l]; [|by destruct Hd]. simpl. exists rd1, g. rewrite app_nil_r.
    auto using put_back_none.
Qed.

(** The modules of [l] are there when the image is loaded. *)
Definition there (r g : registry) (l : list nat) : Prop :=
  Forall (fun id => id ∈ toi_modules g /\ key g id = key r id /\ takes_config id) l.

Lemma there_put_back r g l' g' l : put_back g l' g' -> there r g l -> there r g' l.
Proof.
  intros Hpb Hl. eapply Forall_impl; [exact Hl|]. intros id (Hin & Hk & Ht).
  by rewrite (pb_modules _ _ _ Hpb), (pb_key _ _ _ Hpb).
Qed.

Lemma put_back_app g id g1 l g2 :
  put_back g (configured [id]) g1 -> put_back g1 (configured l) g2 -> put_back g (configured (id :: l)) g2.
Proof.
  unfold configured. rewrite !filter_cons, filter_nil. case_decide; [apply put_back_cons|].
  intros [Hw1 Hk1 Hm1 Hf1 He1] [Hw2 Hk2 Hm2 Hf2 He2]. split; [done| | | |].
  - intros i. by rewrite Hk2, Hk1.
  - by rewrite Hm2, Hm1.
  - rewrite Hf2, Hf1. by rewrite (of_type_ext FILTER_MODULE g g1) by done.
  - intros i. by rewrite He2, He1.
Qed.

Lemma read_blank fuel h s :
  (1 <= fuel)%nat -> wf_header h ->
  read_loop fuel (header_of_bytes (header_bytes (blank h))) s = Some (s, Some 0).
Proof.
  intros Hf [Hn Hu]. destruct fuel as [|fuel]; [lia|]. cbn [read_configs].
  destruct (header_read_back (blank h)) as [-> _]; [by apply blank_wf|].
  unfold blank. simpl. by destruct (header_name h).
Qed.

Lemma read_loop_ok r l : named r l -> forall i h (rd : R) rest g log st,
  wf_header h -> wf_registry g -> there r g l ->
  hr_pending rd (concat (map snd (config_chunks r l i h)) ++ rest) ->
  exists bs rd1 rd' g', hr_chunk 56 rd = (rd1, (bs, 0)) /\ hr_pending rd' rest /\ put_back g (configured l) g' /\
    forall fuel, (S (length l) <= fuel)%nat ->
      read_loop fuel (header_of_bytes bs) (rd1, g, log, st) = Some ((rd', g', log ++ config_loads l, st), Some 0).
Proof.
  induction 1 as [|id l (m & Hm & Ht & Hn) Hl IH]; intros i h rd rest g log st Hh Hw Hth Hp.
  - cbn [config_chunks map snd concat] in Hp. rewrite app_nil_r in Hp.
    destruct (hr_chunk_ok _ _ _ Hp) as (rd1 & E1 & Hp1). rewrite header_bytes_length in E1 by (by apply blank_wf).
    eexists _, _, _, _. split; [done|]. split; [done|]. split; [by apply put_back_none|].
    intros fuel Hf. unfold config_loads. rewrite app_nil_r. by apply read_blank.
  - cbn [config_chunks] in Hp. rewrite Hm in Hp. cbv zeta in Hp. set (h' := record_of m i h) in *.
    assert (wf_header h') as Hh' by (split; [by apply name_field_length|apply Hh]).
    rewrite map_app, concat_app, entry_bytes, <- !app_assoc in Hp.
    destruct (hr_chunk_ok _ _ _ Hp) as (rd1 & E1 & Hp1). rewrite header_bytes_length in E1 by done.
    apply Forall_cons in Hth as [(Hin & Hk & Htc) Hth].
    destruct (header_read_back h' Hh') as [En Ee].
    assert (exists mg, ops g !! id = Some mg /\ name mg = name m) as (mg & Hg & Enm).
    { revert Hk. unfold key. rewrite Hm. destruct (ops g !! id) as [mg|]; [|done]. intros [= _ E]. by exists mg. }
    assert (header_enabled (header_of_bytes (header_bytes h')) = 1) as Ee'.
    { rewrite Ee. cbn. apply andb_prop in Ht as [[Hen _]%andb_prop _]. by rewrite Hen. }
    rewrite <- Enm in Hn. assert (header_name (header_of_bytes (header_bytes h')) = name_field (name mg)) as En'.
    { by rewrite Enm. }
    destruct (read_one_ok _ mg id rd1 _ g log st Hw Hin Hg Hn Htc En' Ee' Hp1) as (rd2 & g1 & E2 & Hp2 & Hpb).
    destruct (IH _ _ rd2 rest g1 (log ++ config_loads [id]) st Hh' (pb_wf _ _ _ Hpb) (there_put_back _ _ _ _ _ Hpb Hth) Hp2)
      as (bs & rd3 & rd' & g' & E3 & Hp' & Hpb' & Hrun).
    exists (header_bytes h'), rd1, rd', g'. split; [done|]. split; [done|].
    split; [by eapply put_back_app|]. intros [|fuel] Hf; [simpl in Hf; lia|]. cbn [read_configs].
    rewrite En', (proj2 (Z.eqb_neq _ 0)) by (by apply name_field_head). rewrite E2. simpl mbind.
    change (Z.to_nat sizeof_module_header) with 56%nat. rewrite E3. simpl negb. cbv iota.
    rewrite Hrun by (simpl in Hf; lia). by rewrite <- app_assoc, config_loads_cons.
Qed.

End Reader.
End Written.

(** ** All of it *)

Lemma disable_loop l : forall g,
  let g' := foldl (fun g id => g {{ ops := alter (fun m => m {{ enabled := false }}) id (ops g) }}) g l in
  same_lists g g' /\ forall i, (i ∈ l \/ is_enabled g i = false) -> is_enabled g' i = false.
Proof.
  induction l as [|id l IH]; intros g; cbn [foldl].
  - split; [reflexivity|]. intros i [Hi|?]; [by apply elem_of_nil in Hi|done].
  - set (g1 := g {{ ops := alter (fun m => m {{ enabled := false }}) id (ops g) }}).
    assert (same_lists g g1) as Hs by (by eapply (keeps_update id (fun m => m {{ enabled := false }}))).
    destruct (IH g1) as [Hs' He']. split; [by etransitivity|]. intros i Hi. apply He'.
    destruct (decide (i = id)) as [->|Hne].
    + right. unfold is_enabled, g1. simpl. rewrite lookup_alter_eq. by destruct (ops g !! id).
    + destruct Hi as [[?|?]%elem_of_cons|He]; [done|by left|right].
      unfold is_enabled, g1. simpl. by rewrite lookup_alter_ne.
Qed.

Lemma moved_to_tail l fs : NoDup l -> foldl (fun fs id => list_move_tail id fs) fs l = filter (fun x => x ∉ l) fs ++ l.
Proof.
  induction l as [|id l IH] using rev_ind; intros Hd.
  - simpl. rewrite app_nil_r. symmetry. apply filter_keeps_all. intros x _. apply not_elem_of_nil.
  - apply NoDup_app in Hd as (Hd & Hn & _). rewrite foldl_app, IH by done. simpl.
    unfold list_move_tail, list_del. rewrite list.filter_app, list_filter_filter, <- app_assoc. f_equal.
    + apply list_filter_iff. intros x. rewrite not_elem_of_app, list_elem_of_singleton. tauto.
    + f_equal. apply filter_keeps_all. intros x Hx ->. apply (Hn id Hx). by left.
Qed.

(** Enabling the modules [l] in a registry where nothing was. *)
Lemma put_back_filters g l g' :
  wf_registry g -> (forall i, i ∈ toi_modules g -> is_enabled g i = false) -> NoDup l -> put_back g l g' ->
  enabled_filters g' = of_type FILTER_MODULE g l.
Proof.
  intros Hw Hoff Hd [Hw' Hk Hm Hf He]. unfold enabled_filters. rewrite Hf, moved_to_tail by by apply of_type_NoDup.
  rewrite list.filter_app. rewrite filter_keeps_none, filter_keeps_all; [done| |].
  - intros x [_ Hx]%of_type_elem. by rewrite He, bool_decide_eq_true_2.
  - intros x [Hx Hin]%list_elem_of_filter. rewrite He. rewrite (wr_filters g Hw) in Hin.
    apply of_type_elem in Hin as [Ht Hin]. rewrite Hoff, orb_false_r by done.
    rewrite bool_decide_eq_true. intros Hl. apply Hx. by apply of_type_elem.
Qed.

(** The filters that were enabled, in their order. *)
Lemma configured_filters save r :
  wf_registry r ->
  of_type FILTER_MODULE r (configured save (saved r)) = filter (fun id => id ∈ configured save (saved r)) (enabled_filters r).
Proof.
  intros Hw. unfold enabled_filters. rewrite (wr_filters r Hw).
  assert (forall id, id ∈ toi_modules r -> id ∈ configured save (saved r) <-> config_data save id <> [] /\ participates r id = true) as Hc.
  { intros id Hin. unfold configured, saved. rewrite !list_elem_of_filter. tauto. }
  unfold configured at 1, saved at 1, of_type. revert Hc. generalize (configured save (saved r)). intros cs.
  induction (toi_modules r) as [|x l IH]; intros Hc; [done|].
  specialize (IH (fun id Hin => Hc id (list_elem_of_further _ _ _ Hin))). pose proof (Hc x (list_elem_of_here _ _)) as Hx.
  assert (participates r x = true -> is_enabled r x = true) as Hp.
  { unfold participates, is_enabled. destruct (ops r !! x); [|done]. unfold takes_part. intros [[? _]%andb_prop _]%andb_prop. done. }
  repeat (rewrite filter_cons; case_decide); rewrite ?IH; try done; naive_solver.
Qed.

(** The modules of [g'] are those of [g], set up the way they were in [r]:
    those that had something to save are enabled, and the filters among them
    are in the order they had. *)
Definition set_up_as (save : nat -> option (list Z)) (r g g' : registry) : Prop :=
  let back := configured save (saved r) in
  wf_registry g' /\ toi_modules g' ≡ₚ toi_modules g /\
  (forall id, id ∈ toi_modules g -> is_enabled g' id = bool_decide (id ∈ back)) /\
  enabled_filters g' = filter (fun id => id ∈ back) (enabled_filters r).

Section RoundTrip.
Context (save : nat -> option (list Z)) (r : registry) (h : toi_module_header).
Context (Hr : wf_registry r) (Hh : wf_header h).
Context (Hnames : forall id m, id ∈ saved r -> ops r !! id = Some m -> good_name (name m)).

Lemma write_module_configs_ok {W : Type} `{HeaderWriter W} (w : W) :
  write_module_configs save r true h w = Some (put_all (config_chunks save r (saved r) 1 h) w, 0).
Proof using Hr Hh Hnames.
  unfold write_module_configs. simpl negb. cbv iota. rewrite write_configs_saved by by apply known_modules.
  destruct (write_configs_chunks save r (saved r) 1 h w (saved_named r Hnames) (proj1 Hh)) as (h' & w' & E & Hp).
  unfold saved in E. rewrite E. simpl mbind. cbv iota. by rewrite Hp.
Qed.

Context {R : Type} `{HeaderReader R} (has_save has_load : nat -> bool) (early : Z -> option prompted) (st : Z).
Context (g : registry) (Hg : wf_registry g) (Hthere : there save has_save has_load r g (saved r)).

Lemma read_module_configs_ok (rd : R) (rest : list Z) :
  hr_pending rd (concat (map snd (config_chunks save r (saved r) 1 h)) ++ rest) ->
  exists rd' g', hr_pending rd' rest /\ set_up_as save r g g' /\
    forall fuel, (S (length (saved r)) <= fuel)%nat ->
      read_module_configs has_save has_load early true fuel rd g st =
      Some ((rd', g', config_loads save (saved r), st), Some 0).
Proof using Hr Hh Hnames Hg Hthere.
  intros Hrd. destruct (disable_loop (toi_modules g) g) as [Hs Hoff]. fold (disable_all g) in Hs, Hoff.
  pose proof (wf_same_lists _ _ Hg Hs) as Hwd.
  assert (there save has_save has_load r (disable_all g) (saved r)) as Hth.
  { eapply Forall_impl; [exact Hthere|]. intros id. by rewrite (sm_modules _ _ Hs), (sm_key _ _ Hs). }
  destruct (read_loop_ok save has_save has_load early r (saved r) (saved_named r Hnames) 1 h rd rest _ [] st Hh Hwd Hth Hrd)
    as (bs & rd1 & rd' & g' & E1 & Hrest & Hpb & Hrun).
  exists rd', g'. split; [done|]. split.
  2:{ intros fuel Hf. unfold read_module_configs. change (Z.to_nat sizeof_module_header) with 56%nat.
      rewrite E1. simpl negb. cbv iota. by rewrite Hrun. }
  split; [apply Hpb|]. split; [by rewrite (pb_modules _ _ _ Hpb), (sm_modules _ _ Hs)|]. split.
  - intros id Hin. rewrite (pb_enabled _ _ _ Hpb), Hoff by (by left). by rewrite orb_false_r.
  - rewrite (put_back_filters (disable_all g) (configured save (saved r)) g'); [|done| | |done].
    + rewrite <- configured_filters by done. apply of_type_ext. intros id Hid.
      unfold configured in Hid. apply list_elem_of_filter in Hid as [_ Hid].
      by apply (proj1 (Forall_forall _ _) Hth id Hid).
    + intros id Hin. rewrite (sm_modules _ _ Hs) in Hin. apply Hoff. by left.
    + apply list.NoDup_filter, list.NoDup_filter, Hr.
Qed.
End RoundTrip.

(** C7: the configuration of modules goes round.  Let the header take what
    [write_module_configs] writes.  Then it returns 0, and when the bytes are
    read back by a kernel with the modules it names,
    [read_module_configs] returns 0 having read exactly those bytes; each
    module that saved data has been given exactly its data, in the order they
    were saved; it is enabled, and every other module is disabled; the lists
    are well formed and hold the same modules; and the enabled filters are
    those that were enabled and had data, in the order they had when
    hibernating, so the pages pass the filters they were written through. *)
Theorem module_configs_roundtrip {W R : Type} `{HeaderWriter W} `{HeaderReader R}
  (save_config_info : nat -> option (list Z)) (has_save has_load : nat -> bool) (early : Z -> option prompted) (st : Z)
  (r g : registry) (h : toi_module_header) (w : W) (acc : list Z)
  (Hr : wf_registry r) (Hg : wf_registry g) (Hh : wf_header h)
  (Hnames : forall id m, id ∈ saved r -> ops r !! id = Some m -> good_name (name m))
  (Hthere : there save_config_info has_save has_load r g (saved r))
  (Hw : hw_content w acc) (Hacc : accepted (config_chunks save_config_info r (saved r) 1 h) w) :
  exists w' bytes, write_module_configs save_config_info r true h w = Some (w', 0) /\ hw_content w' (acc ++ bytes) /\
    forall (rd : R) (rest : list Z), hr_pending rd (bytes ++ rest) ->
    exists rd' g', hr_pending rd' rest /\
      (forall fuel, (S (length (saved r)) <= fuel)%nat ->
         read_module_configs has_save has_load early true fuel rd g st =
         Some ((rd', g', config_loads save_config_info (saved r), st), Some 0)) /\
      set_up_as save_config_info r g g'.
Proof.
  rewrite write_module_configs_ok by done. eexists _, _. split; [done|]. split; [by apply accepted_content|].
  intros rd rest Hrd.
  destruct (read_module_configs_ok save_config_info r h Hr Hh Hnames has_save has_load early st g Hg Hthere rd rest Hrd)
    as (rd' & g' & ? & ? & ?). by exists rd', g'.
Qed.

(** Three modules, registered in different orders before and after: two
    filters and a helper; the helper, and the second filter, were on, the
    first filter off. *)
Module ThreeModules.

Definition mod_ (t : module_type) (nm : string) (on : bool) : toi_module_ops :=
  ModuleOps t nm None None 0 on false false None (Some 4) None false false 0 0 false 0.

Definition memory (on : bool) : gmap nat toi_module_ops :=
  list_to_map [(1%nat, mod_ FILTER_MODULE "lzf" on); (2%nat, mod_ FILTER_MODULE "rot13" true);
               (3%nat, mod_ MISC_MODULE "checksum" true)].

Definition reg (l fs : list nat) (on : bool) : registry := Registry (memory on) l fs [] 2 0 3 None 0 [] [] ∅ [].

Definition before : registry := reg [3; 1; 2]%nat [1; 2]%nat false.
Definition after : registry := reg [2; 1; 3]%nat [2; 1]%nat true.

Definition data (id : nat) : option (list Z) := Some (replicate id (Z.of_nat id)).
Definition junk : toi_module_header := ModuleHeader (replicate 30 7) 7 7 7 (replicate 14 7).

Lemma before_wf : wf_registry before.
Proof. split; [by apply (bool_decide_unpack _)..| |]; done. Qed.

Lemma after_wf : wf_registry after.
Proof. split; [by apply (bool_decide_unpack _)..| |]; done. Qed.

End ThreeModules.
Import ThreeModules.

Lemma module_configs_roundtrip_witness :
  saved before = [3; 2]%nat /\
  exists w' bytes, write_module_configs data before true junk [] = Some (w', 0) /\ w' = [] ++ bytes /\
    forall rd rest, rd = bytes ++ rest ->
    exists rd' g', rd' = rest /\
      (forall fuel, (3 <= fuel)%nat ->
         read_module_configs (fun _ => true) (fun _ => true) (fun _ => None) true fuel rd after 0 =
         Some ((rd', g', [(3%nat, [3; 3; 3]); (2%nat, [2; 2])], 0), Some 0)) /\
      wf_registry g' /\ toi_modules g' ≡ₚ toi_modules after /\
      (forall id, id ∈ toi_modules after -> is_enabled g' id = bool_decide (id ∈ [3; 2]%nat)) /\
      enabled_filters g' = [2]%nat.
Proof.
  split; [vm_compute; reflexivity|].
  refine (module_configs_roundtrip data (fun _ => true) (fun _ => true) (fun _ => None) 0 before after junk [] [] _ _ _ _ _ _ _).
  - exact before_wf.
  - exact after_wf.
  - by split.
  - intros id m Hid Hm. assert (id = 3%nat \/ id = 2%nat) as [->| ->] by (vm_compute in Hid; set_solver).
    + assert (m = mod_ MISC_MODULE "checksum" true) as -> by (vm_compute in Hm; by inv Hm).
      apply (bool_decide_unpack _). vm_compute. done.
    + assert (m = mod_ FILTER_MODULE "rot13" true) as -> by (vm_compute in Hm; by inv Hm).
      apply (bool_decide_unpack _). vm_compute. done.
  - unfold there, takes_config. apply (bool_decide_unpack _). vm_compute. done.
  - done.
  - vm_compute. done.
Defined.
