(* ===== verification/ImageHeader.v ===== *)
(** * The image header

    kernel/power/tuxonice_io.c: [fill_toi_header], [write_image_header],
    [sanity_check], [__read_pageset1], [read_pageset1]; kernel/power/snapshot.c:
    [init_header]; arch/x86/power/hibernate_64.c: the part of the header the
    architecture keeps.

    The header holds variables of the kernel ([toi_header]), the
    configurations of the modules and the map of pageset 1, in that order,
    written and read through the interface of [HeaderStream].  What else the
    two functions call are answers of [saving] and [booting]; the effects that
    must be undone when an image cannot be loaded are fields of [loading]. *)

From S2P Require Import Prelude States HeaderStream CString MemoryBitmap Modules ModuleConfigs BootPrompt.
From stdpp Require Import numbers base list strings gmap.
#[local] Open Scope Z_scope.
#[local] Open Scope step_scope.

(** ** The record *)

(** [struct toi_header]; the names of the kernel (uts, version_code) are not
    filled in on x86-64, where [struct restore_data_record] takes the place of
    the first of them. *)
Record toi_header := ToiHeader {
  rdr_jump_address : Z;
  rdr_cr3 : Z;
  rdr_magic : Z;
  sh_num_physpages : Z;
  sh_image_pages : Z;
  sh_pages : Z;
  sh_size : Z;
  sh_pageset_2_size : Z;
  sh_param0 : Z;
  sh_param1 : Z;
  sh_param2 : Z;
  sh_param3 : Z;
  sh_io_time : Z * Z * Z * Z;
  sh_pagedir_id : Z;
  sh_pagedir_size : Z;
  sh_root_fs : Z;
  sh_bkd : Z
}.

Definition RESTORE_MAGIC : Z := 0x0123456789ABCDEF.
Definition sizeof_toi_header : nat := 536.

Definition zeros (n : nat) : list Z := repeat 0 n.

(** The bytes of the record, the fields at their offsets. *)
Definition toi_header_bytes (h : toi_header) : list Z :=
  let '(t0, t1, t2, t3) := sh_io_time h in
  le_bytes 8 (rdr_jump_address h) ++ le_bytes 8 (rdr_cr3 h) ++ le_bytes 8 (rdr_magic h) ++ zeros 376 ++
  le_bytes 8 (sh_num_physpages h) ++ zeros 8 ++
  le_bytes 8 (sh_image_pages h) ++ le_bytes 8 (sh_pages h) ++ le_bytes 8 (sh_size h) ++ zeros 12 ++
  le_bytes 4 (sh_pageset_2_size h) ++
  le_bytes 4 (sh_param0 h) ++ le_bytes 4 (sh_param1 h) ++ le_bytes 4 (sh_param2 h) ++ le_bytes 4 (sh_param3 h) ++
  zeros 16 ++
  le_bytes 4 t0 ++ le_bytes 4 t1 ++ le_bytes 4 t2 ++ le_bytes 4 t3 ++
  le_bytes 4 (sh_pagedir_id h) ++ zeros 4 ++ le_bytes 8 (sh_pagedir_size h) ++
  le_bytes 4 (sh_root_fs h) ++ zeros 4 ++ le_bytes 8 (sh_bkd h).

Definition toi_header_of_bytes (l : list Z) : toi_header :=
  let ulong off := le_val (take 8 (drop off l)) in
  let int off := s32 (le_val (take 4 (drop off l))) in
  {| rdr_jump_address := ulong 0%nat; rdr_cr3 := ulong 8%nat; rdr_magic := ulong 16%nat;
     sh_num_physpages := ulong 400%nat; sh_image_pages := ulong 416%nat; sh_pages := ulong 424%nat;
     sh_size := ulong 432%nat; sh_pageset_2_size := int 452%nat;
     sh_param0 := int 456%nat; sh_param1 := int 460%nat; sh_param2 := int 464%nat; sh_param3 := int 468%nat;
     sh_io_time := (int 488%nat, int 492%nat, int 496%nat, int 500%nat);
     sh_pagedir_id := int 504%nat; sh_pagedir_size := s64 (ulong 512%nat);
     sh_root_fs := le_val (take 4 (drop 520%nat l)); sh_bkd := ulong 528%nat |}.

(** The variables of the kernel the header keeps. *)
Record saved_vars := SavedVars {
  pagedir1_id : Z;
  pagedir1_size : Z;
  pagedir2_size : Z;
  v_toi_result : Z;
  v_toi_action : Z;
  v_toi_debug_state : Z;
  v_toi_default_console_level : Z;
  v_toi_io_time : Z * Z * Z * Z;
  boot_kernel_data_buffer : Z;
  restore_jump_address : Z;
  restore_cr3 : Z
}.

#[export] Instance saved_vars_eta : Eta saved_vars := fun v =>
  SavedVars (pagedir1_id v) (pagedir1_size v) (pagedir2_size v) (v_toi_result v) (v_toi_action v)
    (v_toi_debug_state v) (v_toi_default_console_level v) (v_toi_io_time v) (boot_kernel_data_buffer v)
    (restore_jump_address v) (restore_cr3 v).

(** ** Writing *)

(** What writing the header finds: the counts of swsusp, the device of the
    root, whether the two pages can be had. *)
Record saving := Saving {
  num_physpages : Z;
  nr_copy_pages : Z;
  nr_meta_pages : Z;
  root_dev : Z;
  header_page_there : bool;
  config_page_there : bool
}.

(** [init_header] with [arch_hibernation_header_save], then the fields of
    TuxOnIce.  24 bytes are wanted, 394 there: it cannot fail. *)
Definition fill_toi_header (e : saving) (v : saved_vars) : toi_header :=
  let pages := u32 (nr_copy_pages e + nr_meta_pages e + 1) in
  {| rdr_jump_address := restore_jump_address v; rdr_cr3 := restore_cr3 v; rdr_magic := RESTORE_MAGIC;
     sh_num_physpages := num_physpages e; sh_image_pages := u32 (nr_copy_pages e); sh_pages := pages;
     sh_size := u64 (Z.shiftl pages PAGE_SHIFT);
     sh_pageset_2_size := pagedir2_size v; sh_param0 := v_toi_result v; sh_param1 := v_toi_action v;
     sh_param2 := v_toi_debug_state v; sh_param3 := v_toi_default_console_level v;
     sh_io_time := v_toi_io_time v; sh_pagedir_id := pagedir1_id v; sh_pagedir_size := pagedir1_size v;
     sh_root_fs := root_dev e; sh_bkd := boot_kernel_data_buffer v |}.

Section Write.
Context {W : Type} `{HeaderWriter W}.
Context (write_header_init write_header_cleanup : W -> W * Z).
Context (save_config_info : nat -> option (list Z)).
Context (ui : bool).                 (* a user interface takes abort messages *)

Definition write_image_header_abort (w : W) (v : saved_vars) : W * saved_vars * Z :=
  (fst (write_header_cleanup w), v, -1).

Definition aborting (f : result_flag) (v : saved_vars) : saved_vars :=
  v {{ v_toi_result := abort_hibernate ui f (v_toi_result v) }}.

(** [h]: what the stack held where the records of modules are built. *)
Definition write_image_header (e : saving) (r : registry) (pageset1_map : memory_bitmap) (h : toi_module_header)
    (w : W) (v : saved_vars) : option (W * saved_vars * Z) :=
  let '(w, result) := write_header_init w in
  if negb (result =? 0) then Some (write_image_header_abort w (aborting TOI_FAILED_MODULE_INIT v))
  else if negb (header_page_there e) then Some (write_image_header_abort w (aborting TOI_OUT_OF_MEMORY v))
  else
    let w := put_chunk None (toi_header_bytes (fill_toi_header e v)) w in
    '(w, result) ← write_module_configs save_config_info r (config_page_there e) h w;
    if negb (result =? 0) then Some (write_image_header_abort w (aborting TOI_FAILED_IO v))
    else
      let w := fst (memory_bm_write (Some pageset1_map) w) in
      let '(w, result) := write_header_cleanup w in
      if negb (result =? 0) then Some (w, aborting TOI_FAILED_IO v, -1)
      else if test_result_state TOI_ABORTED (v_toi_result v) then Some (w, v, -1)
      else Some (w, v, 0).
End Write.

(** ** Reading *)

(** A mounted filesystem, as far as the check looks. *)
Record super_block := SuperBlock { ms_rdonly : bool; fs_requires_dev : bool }.

(** What the boot kernel and its parts answer. *)
Record booting := Booting {
  have_page : bool;
  have_config_page : bool;
  image_exists : bool;
  super_blocks : list super_block;
  zones : list zone;
  bitmap_pages : list bool;            (* of memory_bm_create *)
  disable_nonboot_cpus : Z;
  usermodehelper_disable : Z;
  freeze_processes : Z;
  load_addresses : Z;                  (* toi_get_pageset1_load_addresses *)
  read_pageset : Z;
  can_mark_attempt : bool;             (* the allocator has mark_resume_attempted *)
  has_noresume_reset : nat -> bool;
  has_save : nat -> bool;
  has_load : nat -> bool;
  toi_wait : Z;
  ui_key : option (Z -> bool * Z);
  boot_console : console;
  prompt_fuel : nat;
  config_fuel : nat
}.

Record loading := Loading {
  vars : saved_vars;
  reg : registry;
  config_calls : list (nat * list Z);  (* load_config_info, with what was passed *)
  pageset1_map : memory_bitmap;
  boot_state : Z;                      (* toi_state *)
  header_page : bool;                  (* page 25 is held *)
  pf_nofreeze : bool;
  console_prepared : bool;
  cpus_off : bool;
  helpers_off : bool;
  frozen : bool;
  image_removed : bool;
  attempt_marked : bool;
  noresume_resets : list nat           (* modules told that the image is not used *)
}.

#[export] Instance loading_eta : Eta loading := fun s =>
  Loading (vars s) (reg s) (config_calls s) (pageset1_map s) (boot_state s) (header_page s) (pf_nofreeze s) (console_prepared s)
    (cpus_off s) (helpers_off s) (frozen s) (image_removed s) (attempt_marked s) (noresume_resets s).

(** How a step of loading goes on. *)
Inductive verdict := Go | Remove_image | Restarted.

Section Read.
Context {R : Type} `{HeaderReader R}.
Context (read_header_init read_header_cleanup : R -> R * Z).
Context (b : booting).

Abbreviation state := (R * loading)%type.

Definition my {A} (f : loading -> A) : M state A := fun '(r, s) => Some ((r, s), f s).
Definition put (f : loading -> loading) : M state unit := fun '(r, s) => Some ((r, f s), tt).
Definition on_stream {A} (f : R -> R * A) : M state A := fun '(r, s) => let '(r, a) := f r in Some ((r, s), a).

Definition noresume_reset_modules : M state unit :=
  put (fun s =>
    let g := reg s in
    let active := match toiActiveAllocator g with Some id => [id] | None => [] end in
    s {{ noresume_resets := noresume_resets s ++
           filter (fun id => has_noresume_reset b id = true) (toi_filters g ++ active) }}).

Definition prompt (default_answer : Z) (warning_reason : bool) : Z -> option prompted :=
  toi_early_boot_message (ui_key b) (boot_console b) (prompt_fuel b) (toi_wait b) default_answer warning_reason.

Definition early_boot_message (default_answer : Z) (warning_reason : bool) : M state verdict := fun '(r, s) =>
  p ← prompt default_answer warning_reason (boot_state s);
  Some (match p with
        | Continue st => ((r, s {{ boot_state := st }}), Go)
        | Restart => ((r, s), Restarted)
        end).

(** [check_image_kernel] takes the addresses over whatever the magic is. *)
Definition sanity_check (sh : toi_header) : M state bool :=
  put (fun s => s {{ vars := (vars s) {{ restore_jump_address := rdr_jump_address sh; restore_cr3 := rdr_cr3 sh }} }});;;
  action <-- my (fun s => v_toi_action (vars s));;
  ret (negb (rdr_magic sh =? RESTORE_MAGIC) ||
       (negb (test_action_state TOI_IGNORE_ROOTFS action) &&
        existsb (fun sb => negb (ms_rdonly sb) && fs_requires_dev sb) (super_blocks b))).

(** The variables that are taken from the header. *)
Definition take_vars (sh : toi_header) (v : saved_vars) : saved_vars :=
  {| pagedir1_id := sh_pagedir_id sh; pagedir1_size := sh_pagedir_size sh; pagedir2_size := sh_pageset_2_size sh;
     v_toi_result := u64 (sh_param0 sh); v_toi_action := u64 (sh_param1 sh); v_toi_debug_state := u64 (sh_param2 sh);
     v_toi_default_console_level := sh_param3 sh; v_toi_io_time := sh_io_time sh;
     boot_kernel_data_buffer := sh_bkd sh;
     restore_jump_address := restore_jump_address v; restore_cr3 := restore_cr3 v |}.

(** Whether an image that was tried before is to be tried again. *)
Definition resumed_before : M state verdict :=
  before <-- my (fun s => test_toi_state TOI_RESUMED_BEFORE (boot_state s));;
  if negb before then ret Go
  else
    v <-- early_boot_message 0 false;;
    go <-- my (fun s => test_toi_state TOI_CONTINUE_REQ (boot_state s));;
    ret (match v with Restarted => Restarted | _ => if go : bool then Go else Remove_image end).

Definition configs : M state (option Z) := fun '(r, s) =>
  '((r, g, log, st), result) ← read_module_configs (has_save b) (has_load b) (prompt 5 true) (have_config_page b)
      (config_fuel b) r (reg s) (boot_state s);
  Some ((r, s {{ reg := g; boot_state := st; config_calls := log }}), result).

(** From the record to the configurations. *)
Definition read_header : M state verdict :=
  put (fun s => s {{ boot_state := clear_toi_state TOI_CONTINUE_REQ (boot_state s) }});;;
  got <-- on_stream (hr_chunk sizeof_toi_header);;
  if snd got <? 0 then ret Remove_image
  else
    let sh := toi_header_of_bytes (fst got) in
    bad <-- sanity_check sh;;
    if bad : bool then
      v <-- early_boot_message 5 true;;
      ret (match v with Restarted => Restarted | _ => Remove_image end)
    else
      put (fun s => s {{ vars := take_vars sh (vars s);
                         boot_state := set_toi_state TOI_BOOT_KERNEL
                                         (clear_toi_state TOI_IGNORE_LOGLEVEL (boot_state s)) }});;;
      result <-- configs;;
      match result with
      | None => ret Restarted
      | Some result =>
          if negb (result =? 0) then
            put (fun s => s {{ vars := (vars s) {{ pagedir1_size := 0; pagedir2_size := 0;
                                 v_toi_action := clear_action_state TOI_KEEP_IMAGE (v_toi_action (vars s)) }} }});;;
            ret Remove_image
          else ret Go
      end.

(** The labels at the end of [__read_pageset1]. *)
Definition out (result : Z) : M state Z :=
  put (fun s => s {{ pf_nofreeze := false; header_page := false }});;; ret result.

Definition out_remove_image : M state Z :=
  keep <-- my (fun s => test_action_state TOI_KEEP_IMAGE (v_toi_action (vars s)));;
  (if keep : bool then ret tt else put (fun s => s {{ image_removed := true }}));;;
  on_stream read_header_cleanup;;;
  noresume_reset_modules;;;
  out (- EINVAL).

Definition out_reset_console : M state Z := put (fun s => s {{ console_prepared := false }});;; out_remove_image.
Definition out_enable_nonboot_cpus : M state Z := put (fun s => s {{ cpus_off := false }});;; out_reset_console.
Definition out_thaw : M state Z :=
  put (fun s => s {{ frozen := false; helpers_off := false }});;; out_enable_nonboot_cpus.

Definition read_map : M state Z := fun '(r, s) =>
  let '(r, bm, result) := memory_bm_read (zones b) (bitmap_pages b) (Some (pageset1_map s)) r in
  Some ((r, s {{ pageset1_map := default (pageset1_map s) bm }}), result).

(** With processes being frozen. *)
Definition load_frozen : M state Z :=
  result <-- read_map;;
  if negb (result =? 0) then out_thaw
  else
    result <-- on_stream read_header_cleanup;;
    if negb (result =? 0) then out_thaw
    else if negb (load_addresses b =? 0) then out_thaw
    else if negb (read_pageset b =? 0) then out_thaw
    else
      keep <-- my (fun s => test_action_state TOI_KEEP_IMAGE (v_toi_action (vars s)));;
      (if negb keep && can_mark_attempt b then put (fun s => s {{ attempt_marked := true }}) else ret tt);;;
      out 0.

(** With the variables and the modules in place. *)
Definition load_image : M state Z :=
  put (fun s => s {{ console_prepared := true; boot_state := set_toi_state TOI_NOW_RESUMING (boot_state s) }});;;
  late <-- my (fun s => test_action_state TOI_LATE_CPU_HOTPLUG (v_toi_action (vars s)));;
  if negb late && negb (disable_nonboot_cpus b =? 0) then
    put (fun s => s {{ vars := (vars s) {{ v_toi_result := set_abort_result TOI_CPU_HOTPLUG_FAILED (v_toi_result (vars s)) }} }});;;
    out_reset_console
  else
    (if late then ret tt else put (fun s => s {{ cpus_off := true }}));;;
    if negb (usermodehelper_disable b =? 0) then out_enable_nonboot_cpus
    else
      put (fun s => s {{ helpers_off := true; pf_nofreeze := true; frozen := freeze_processes b =? 0 }});;;
      load_frozen.

(** [None]: the machine restarts instead of returning. *)
Definition __read_pageset1 : M state (option Z) :=
  if negb (have_page b) then ret (Some (- ENOMEM))
  else
    put (fun s => s {{ header_page := true }});;;
    if negb (image_exists b) then
      noresume_reset_modules;;;
      r <-- out (- ENODATA);; ret (Some r)
    else
      result <-- on_stream read_header_init;;
      noresume <-- my (fun s => test_toi_state TOI_NORESUME_SPECIFIED (boot_state s));;
      if negb (result =? 0) || noresume then r <-- out_remove_image;; ret (Some r)
      else
        v <-- resumed_before;;
        v <-- (match v with Go => read_header | _ => ret v end);;
        match v with
        | Restarted => ret None
        | Remove_image => r <-- out_remove_image;; ret (Some r)
        | Go => r <-- load_image;; ret (Some r)
        end.

Definition read_pageset1 (ui : bool) : M state (option Z) :=
  error <-- __read_pageset1;;
  match error with
  | None => ret None
  | Some error =>
      w <-- my (fun s => v_toi_result (vars s));;
      (if negb (error =? 0) && negb (error =? - ENODATA) && negb (error =? - EINVAL) && negb (test_result_state TOI_ABORTED w)
       then put (fun s => s {{ vars := (vars s) {{ v_toi_result := abort_hibernate ui TOI_IMAGE_ERROR w }} }})
       else ret tt);;;
      ret (Some error)
  end.

(** ** Asking whether there is an image *)

Definition newline : list Z := [10].

(** The answer of /sys/power/tuxonice/image_exists; [uts.machine] is the
    fifth, [uts.version] the fourth name of 65 characters. *)
Definition get_have_image_data : M state (option (list Z)) :=
  if negb (have_page b) then ret None
  else
    ready <-- (if image_exists b then
                 result <-- on_stream read_header_init;;
                 if negb (result =? 0) then ret None
                 else
                   got <-- on_stream (hr_chunk sizeof_toi_header);;
                   ret (if snd got =? 0 then Some (fst got) else None)
               else ret None);;
    text <-- (match ready with
              | None =>
                  put (fun s => s {{ boot_state := clear_toi_state TOI_BOOT_TIME (boot_state s) }});;;
                  ret (name_bytes "0" ++ newline)
              | Some header =>
                  match c_string (drop 260 header), c_string (drop 195 header) with
                  | Some machine, Some version =>
                      before <-- my (fun s => test_toi_state TOI_RESUMED_BEFORE (boot_state s));;
                      ret (name_bytes "1" ++ newline ++ machine ++ newline ++ version ++ newline ++
                           (if before : bool then name_bytes "Resumed before." ++ newline else []))
                  | _, _ => bug
                  end
              end);;
    noresume_reset_modules;;;
    ret (Some text).

(** [activate]: what activating storage returns; [parse]: parsing resume=
    again.  The text, and what is returned. *)
Definition image_exists_read (activate : Z) (parse : loading -> loading) (count : Z) : M state (list Z * Z) :=
  if negb (activate =? 0) then ret ([], count)
  else
    ok <-- my (fun s => test_toi_state TOI_RESUME_DEVICE_OK (boot_state s));;
    (if ok : bool then ret tt else put parse);;;
    active <-- my (fun s => toiActiveAllocator (reg s));;
    match active with
    | None => let text := name_bytes "-1" ++ newline in ret (text, Z.of_nat (length text))
    | Some _ =>
        result <-- get_have_image_data;;
        ret (default [] result, Z.of_nat (length (default [] result)))
    end.

Definition image_exists_write (activate : Z) (count : Z) : M state Z :=
  if negb (activate =? 0) then ret count
  else
    active <-- my (fun s => toiActiveAllocator (reg s));;
    (if bool_decide (active <> None) && image_exists b then put (fun s => s {{ image_removed := true }}) else ret tt);;;
    put (fun s => s {{ vars := (vars s) {{ v_toi_result := clear_result_state TOI_KEPT_IMAGE (v_toi_result (vars s)) }} }});;;
    ret count.

(** Nothing is read when pageset 2 is empty. *)
Definition read_pageset2 (v : saved_vars) : Z := if pagedir2_size v =? 0 then 0 else read_pageset b.
End Read.
