(* ===== verification/ImageHeaderFacts.v ===== *)
(** * Facts about the image header

    What [write_image_header] writes, [__read_pageset1] takes over; and when
    an image cannot be loaded, what was prepared for it is undone. *)

From S2P Require Import Prelude States HeaderStream MemoryBitmap CString BootPrompt Modules ModuleFacts.
From S2P Require Import ModuleConfigs ModuleConfigsFacts ImageHeader.
From stdpp Require Import numbers base list strings gmap.
#[local] Open Scope Z_scope.
#[local] Open Scope step_scope.

(** ** The record *)

Definition wf_int (z : Z) : Prop := - 2 ^ 31 <= z < 2 ^ 31.
Definition wf_ulong (z : Z) : Prop := 0 <= z < 2 ^ 64.

(** The words kept as ints must have their upper half clear. *)
Record wf_vars (v : saved_vars) : Prop := {
  wv_id : wf_int (pagedir1_id v);
  wv_size : - 2 ^ 63 <= pagedir1_size v < 2 ^ 63;
  wv_size2 : wf_int (pagedir2_size v);
  wv_result : 0 <= v_toi_result v < 2 ^ 31;
  wv_action : 0 <= v_toi_action v < 2 ^ 31;
  wv_debug : 0 <= v_toi_debug_state v < 2 ^ 31;
  wv_level : wf_int (v_toi_default_console_level v);
  wv_times : let '(t0, t1, t2, t3) := v_toi_io_time v in wf_int t0 /\ wf_int t1 /\ wf_int t2 /\ wf_int t3;
  wv_bkd : wf_ulong (boot_kernel_data_buffer v);
  wv_jump : wf_ulong (restore_jump_address v);
  wv_cr3 : wf_ulong (restore_cr3 v)
}.

Lemma toi_header_bytes_length h : length (toi_header_bytes h) = sizeof_toi_header.
Proof. unfold toi_header_bytes. by destruct (sh_io_time h) as [[[? ?] ?] ?]. Qed.

(** Each field is read from where it was written. *)
Lemma toi_header_read_back h :
  toi_header_of_bytes (toi_header_bytes h) =
  {| rdr_jump_address := u64 (rdr_jump_address h); rdr_cr3 := u64 (rdr_cr3 h); rdr_magic := u64 (rdr_magic h);
     sh_num_physpages := u64 (sh_num_physpages h); sh_image_pages := u64 (sh_image_pages h);
     sh_pages := u64 (sh_pages h); sh_size := u64 (sh_size h);
     sh_pageset_2_size := s32 (sh_pageset_2_size h);
     sh_param0 := s32 (sh_param0 h); sh_param1 := s32 (sh_param1 h); sh_param2 := s32 (sh_param2 h);
     sh_param3 := s32 (sh_param3 h);
     sh_io_time := (let '(t0, t1, t2, t3) := sh_io_time h in (s32 t0, s32 t1, s32 t2, s32 t3));
     sh_pagedir_id := s32 (sh_pagedir_id h); sh_pagedir_size := s64 (u64 (sh_pagedir_size h));
     sh_root_fs := u32 (sh_root_fs h); sh_bkd := u64 (sh_bkd h) |}.
Proof.
  unfold toi_header_of_bytes, toi_header_bytes. destruct (sh_io_time h) as [[[t0 t1] t2] t3].
  assert (forall z l, take 8 l = le_bytes 8 z -> le_val (take 8 l) = u64 z) as E8
    by (intros z l ->; apply le_val_bytes8).
  assert (forall z l, take 4 l = le_bytes 4 z -> le_val (take 4 l) = u32 z) as E4
    by (intros z l ->; apply le_val_bytes4).
  assert (forall z l, take 4 l = le_bytes 4 z -> s32 (le_val (take 4 l)) = s32 z) as S4
    by (intros z l ->; rewrite le_val_bytes4; apply s32_u32).
  f_equal; [..|f_equal; by apply E8|by apply E4|by apply E8]; try (by apply E8); try (by apply S4).
  f_equal; [f_equal; [f_equal|]|]; by apply S4.
Qed.

(** The variables of the kernel survive. *)
Lemma vars_read_back e v v0 :
  wf_vars v ->
  let sh := toi_header_of_bytes (toi_header_bytes (fill_toi_header e v)) in
  rdr_magic sh = RESTORE_MAGIC /\
  take_vars sh (v0 {{ restore_jump_address := rdr_jump_address sh; restore_cr3 := rdr_cr3 sh }}) = v.
Proof.
  intros [H1 H2 H3 H4 H5 H6 H7 H8 H9 H10 H11]. rewrite toi_header_read_back. split; [done|].
  unfold wf_int, wf_ulong in *. destruct v as [id sz sz2 res act deb lev [[[t0 t1] t2] t3] bkd jmp cr3]. simpl in *.
  destruct H8 as (? & ? & ? & ?). unfold take_vars. simpl.
  rewrite (s32_small id), (s32_small sz2), (s32_small res), (s32_small act), (s32_small deb), (s32_small lev),
    (s32_small t0), (s32_small t1), (s32_small t2), (s32_small t3), (u64_small bkd), (u64_small jmp), (u64_small cr3),
    (u64_small res), (u64_small act), (u64_small deb) by lia.
  f_equal. rewrite s64_u64. apply s64_small. lia.
Qed.

(** ** Loading what was written *)

Section RoundTrip.
Context {W R : Type} `{HeaderWriter W} `{HeaderReader R}.
Context (write_header_init write_header_cleanup : W -> W * Z) (read_header_init read_header_cleanup : R -> R * Z).
Context (save : nat -> option (list Z)) (e : saving) (r : registry) (bm : memory_bitmap) (h : toi_module_header) (v : saved_vars).

(** The chunks of the header before the bitmap. *)
Definition header_chunks : list (owner * list Z) :=
  (None, toi_header_bytes (fill_toi_header e v)) :: config_chunks save r (saved r) 1 h.

(** The hibernating kernel has a header to write, and writing it works. *)
Record header_written (w w' w'' : W) : Prop := {
  hwr_registry : wf_registry r;
  hwr_junk : wf_header h;
  hwr_names : forall id m, id ∈ saved r -> ops r !! id = Some m -> good_name (name m);
  hwr_vars : wf_vars v;
  hwr_running : test_result_state TOI_ABORTED (v_toi_result v) = false;
  hwr_pages : header_page_there e = true /\ config_page_there e = true;
  hwr_blocks : wf_blocks 0 (bm_blocks bm) /\ Z.of_nat (length (bm_blocks bm)) < 2 ^ 32;
  hwr_init : exists w1, write_header_init w = (w1, 0) /\ hw_content w1 [] /\ accepted header_chunks w1 /\
    memory_bm_write (Some bm) (put_all header_chunks w1) = (w', 0);
  hwr_cleanup : write_header_cleanup w' = (w'', 0)
}.

Lemma write_image_header_ok ui w w' w'' :
  header_written w w' w'' ->
  write_image_header write_header_init write_header_cleanup save ui e r bm h w v = Some (w'', v, 0) /\
  hw_content w' (toi_header_bytes (fill_toi_header e v) ++
                 concat (map snd (config_chunks save r (saved r) 1 h)) ++ bitmap_bytes bm).
Proof.
  intros [Hr Hh Hn Hv Hrun [Hp1 Hp2] _ (w1 & Ei & Hc & Ha & Em) Ec]. unfold write_image_header.
  rewrite Ei, Hp1, Hp2. simpl negb. cbv iota.
  rewrite write_module_configs_ok by done. cbn [mbind option_bind]. change (negb (0 =? 0)) with false. cbv iota.
  change (put_all (config_chunks save r (saved r) 1 h) (put_chunk None (toi_header_bytes (fill_toi_header e v)) w1))
    with (put_all header_chunks w1). rewrite Em. simpl fst. rewrite Ec, Hrun. split; [done|].
  pose proof (accepted_content header_chunks w1 [] Hc Ha) as Hcont.
  pose proof (memory_bm_write_ok _ _ _ _ Hcont Em) as Hall. simpl in Hall. by rewrite <- app_assoc in Hall.
Qed.

(** The boot kernel answers the way a boot that resumes does. *)
Record boot_resumes (b : booting) (s : loading) : Prop := {
  br_pages : have_page b = true /\ have_config_page b = true;
  br_image : image_exists b = true;
  br_wanted : test_toi_state TOI_NORESUME_SPECIFIED (boot_state s) = false;
  br_first : test_toi_state TOI_RESUMED_BEFORE (boot_state s) = false;
  br_root : existsb (fun sb => negb (ms_rdonly sb) && fs_requires_dev sb) (super_blocks b) = false;
  br_calls : disable_nonboot_cpus b = 0 /\ usermodehelper_disable b = 0 /\ load_addresses b = 0 /\ read_pageset b = 0;
  br_fuel : (S (length (saved r)) <= config_fuel b)%nat;
  br_registry : wf_registry (reg s);
  br_modules : there save (has_save b) (has_load b) r (reg s) (saved r);
  br_bitmap : bitmap_pages b = [] /\ exists bm1, memory_bm_create (zones b) [] (pageset1_map s) = (bm1, 0) /\
    same_ranges (bm_blocks bm1) (bm_blocks bm)
}.

Abbreviation header_stream :=
  (toi_header_bytes (fill_toi_header e v) ++ concat (map snd (config_chunks save r (saved r) 1 h)) ++ bitmap_bytes bm).

Context (b : booting).

Lemma read_header_ok (w w' w'' : W) (rd : R) rest s :
  header_written w w' w'' -> boot_resumes b s -> hr_pending rd (header_stream ++ rest) ->
  exists rd' g', hr_pending rd' (bitmap_bytes bm ++ rest) /\ set_up_as save r (reg s) g' /\
    read_header b (rd, s) =
    Some ((rd', s {{ vars := v; reg := g'; config_calls := config_loads save (saved r);
                     boot_state := set_toi_state TOI_BOOT_KERNEL (clear_toi_state TOI_IGNORE_LOGLEVEL
                                     (clear_toi_state TOI_CONTINUE_REQ (boot_state s))) }}), Go).
Proof.
  intros Hw Hb Hp. rewrite <- !app_assoc in Hp.
  destruct (hr_chunk_ok _ _ _ Hp) as (rd1 & E1 & Hp1). rewrite toi_header_bytes_length in E1.
  set (sh := toi_header_of_bytes (toi_header_bytes (fill_toi_header e v))) in *.
  destruct (vars_read_back e v (vars s) (hwr_vars _ _ _ Hw)) as [Hm Hv]. fold sh in Hm, Hv.
  set (st := set_toi_state TOI_BOOT_KERNEL (clear_toi_state TOI_IGNORE_LOGLEVEL
               (clear_toi_state TOI_CONTINUE_REQ (boot_state s)))).
  destruct (read_module_configs_ok save r h (hwr_registry _ _ _ Hw) (hwr_junk _ _ _ Hw) (hwr_names _ _ _ Hw)
              (has_save b) (has_load b) (prompt b 5 true) st (reg s) (br_registry _ _ Hb) (br_modules _ _ Hb) rd1 _ Hp1)
    as (rd2 & g' & Hp2 & Hset & Hrun). specialize (Hrun _ (br_fuel _ _ Hb)).
  exists rd2, g'. split; [done|]. split; [done|].
  unfold read_header, sanity_check, configs, bind, put, my, on_stream, ret. cbv beta iota zeta. rewrite E1.
  cbv beta iota zeta. cbn [fst snd]. change (0 <? 0) with false. cbv iota. fold sh. rewrite Hm, (br_root _ _ Hb), Z.eqb_refl, andb_false_r. cbn [negb orb]. cbv beta iota zeta.
  match goal with |- context [read_module_configs _ _ _ _ _ rd1 ?g1 ?st1] =>
    change g1 with (reg s); change st1 with st end.
  rewrite (proj2 (br_pages _ _ Hb)), Hrun. cbn [mbind option_bind]. change (negb (0 =? 0)) with false. cbv beta iota.
  do 3 f_equal. destruct s. cbn. f_equal. exact Hv.
Qed.

Lemma load_image_ok (rd : R) rest s bm1 :
  wf_blocks 0 (bm_blocks bm) -> Z.of_nat (length (bm_blocks bm)) < 2 ^ 32 ->
  disable_nonboot_cpus b = 0 -> usermodehelper_disable b = 0 -> load_addresses b = 0 -> read_pageset b = 0 ->
  bitmap_pages b = [] -> memory_bm_create (zones b) [] (pageset1_map s) = (bm1, 0) ->
  same_ranges (bm_blocks bm1) (bm_blocks bm) ->
  (forall r1, hr_pending r1 rest -> snd (read_header_cleanup r1) = 0) ->
  hr_pending rd (bitmap_bytes bm ++ rest) ->
  exists rd' s', load_image read_header_cleanup b (rd, s) = Some ((rd', s'), 0) /\
    vars s' = vars s /\ reg s' = reg s /\ config_calls s' = config_calls s /\
    bm_blocks (pageset1_map s') = bm_blocks bm /\
    boot_state s' = set_toi_state TOI_NOW_RESUMING (boot_state s).
Proof.
  intros Hwf Hlen Hc1 Hc2 Hc3 Hc4 Hpg Hcr Hsame Hclean Hp.
  destruct (memory_bm_read_ok (zones b) bm (pageset1_map s) bm1 rd rest Hwf Hlen Hcr Hsame Hp) as (rd1 & bm' & Er & Hbm & Hp1).
  unfold load_image, load_frozen, read_map, out, bind, put, my, on_stream, ret. rewrite Hc1, Hc2, Hc3, Hc4, Hpg.
  change (0 =? 0) with true. cbn [negb]. rewrite andb_false_r. cbv beta iota zeta.
  destruct (test_action_state TOI_LATE_CPU_HOTPLUG _); cbv beta iota zeta;
    (match goal with |- context [memory_bm_read _ _ (Some ?m) rd] => change m with (pageset1_map s) end);
    rewrite Er; change (0 =? 0) with true; cbn [negb]; cbv beta iota zeta; pose proof (Hclean rd1 Hp1) as Hz;
    destruct (read_header_cleanup rd1) as [rd2 z]; simpl in Hz; subst z;
    change (0 =? 0) with true; cbn [negb]; cbv beta iota zeta; (match goal with |- context [if ?c then _ else _] => destruct c end); cbv beta iota zeta;
    eexists _, _;
    (split; [done|]); done.
Qed.
End RoundTrip.

(** C5: the image header goes round.  A hibernating kernel whose writes are
    accepted gets 0 from [write_image_header]; when a kernel with the modules
    it used and the same memory boots and finds the image, nothing it does to
    prepare going wrong, [__read_pageset1] returns 0 and the kernel's
    variables (sizes of the pagesets, results, actions, debug state, I/O
    times, the address of the boot data, the address to jump to and its page
    table) are exactly those of the hibernating kernel, each module has been
    handed its configuration and the filters are set up as they were, and the
    map of pageset 1 has the blocks and bits it had. *)
Theorem image_header_roundtrip {W R : Type} `{HeaderWriter W} `{HeaderReader R}
  (write_header_init write_header_cleanup : W -> W * Z) (read_header_init read_header_cleanup : R -> R * Z)
  (save : nat -> option (list Z)) (ui : bool) (e : saving) (r : registry) (bm : memory_bitmap) (h : toi_module_header)
  (v : saved_vars) (w w' w'' : W) (b : booting) (s : loading) (rd rd1 : R) (rest : list Z)
  (Hwritten : header_written write_header_init write_header_cleanup save e r bm h v w w' w'')
  (Hboot : boot_resumes save r bm b s)
  (Hinit : read_header_init rd = (rd1, 0))
  (Hstream : forall bs, hw_content w' bs -> hr_pending rd1 (bs ++ rest))
  (Hclean : forall r1, hr_pending r1 rest -> snd (read_header_cleanup r1) = 0) :
  write_image_header write_header_init write_header_cleanup save ui e r bm h w v = Some (w'', v, 0) /\
  exists rd' s', __read_pageset1 read_header_init read_header_cleanup b (rd, s) = Some ((rd', s'), Some 0) /\
    vars s' = v /\ config_calls s' = config_loads save (saved r) /\ set_up_as save r (reg s) (reg s') /\
    bm_blocks (pageset1_map s') = bm_blocks bm /\
    test_toi_state TOI_NOW_RESUMING (boot_state s') = true /\ test_toi_state TOI_BOOT_KERNEL (boot_state s') = true.
Proof.
  destruct (write_image_header_ok write_header_init write_header_cleanup save e r bm h v ui w w' w'' Hwritten) as [Ew Hc].
  split; [done|]. specialize (Hstream _ Hc). pose proof Hboot as [[Hp1 Hp2] Him Hno Hfirst Hroot (Hc1 & Hc2 & Hc3 & Hc4) Hf Hwr Hm [Hb0 (bm1 & Hcr & Hsame)]].
  set (s0 := s {{ header_page := true }}). assert (boot_resumes save r bm b s0) as Hboot0 by (by destruct Hboot; split).
  destruct (read_header_ok write_header_init write_header_cleanup save e r bm h v b w w' w'' rd1 rest s0 Hwritten Hboot0 Hstream)
    as (rd2 & g' & Hp & Hset & Eh).
  destruct (hwr_blocks _ _ _ _ _ _ _ _ _ _ _ Hwritten) as [Hwf Hlen].
  unfold __read_pageset1, resumed_before, bind, put, my, on_stream, ret. rewrite Hp1, Him. cbn [negb].
  cbv beta iota zeta. rewrite Hinit. cbv beta iota zeta. change (0 =? 0) with true. cbn [negb orb]. fold s0.
  change (boot_state s0) with (boot_state s). rewrite Hno. cbv beta iota zeta.
  change (boot_state s0) with (boot_state s). rewrite Hfirst. cbn [negb]. cbv beta iota zeta. rewrite Eh.
  match goal with |- context [load_image read_header_cleanup b (rd2, ?s1)] =>
    destruct (load_image_ok read_header_cleanup bm b rd2 rest s1 bm1 Hwf Hlen Hc1 Hc2 Hc3 Hc4 Hb0 Hcr Hsame Hclean Hp)
      as (rd3 & s2 & El & Hv & Hg & Hcc & Hbm & Hst) end.
  rewrite El. exists rd3, s2. split; [done|]. rewrite Hv, Hg, Hcc, Hst. split_and!; try done.
  - by rewrite test_set_state.
  - simpl. by rewrite !test_set_state.
Qed.

(** The three modules of before, a map of two blocks, a kernel that booted
    with the modules in another order. *)
Module SmallImage.
Import ThreeModules.

Definition e : saving := Saving 1000 0 0 0x801 true true.
Definition v : saved_vars := SavedVars 1 7 3 0 (Z.shiftl 1 17) 0 2 (1, 2, 3, 4) 0xffff880000001000 0xffffffff80200000 0x1000.
Definition other : saved_vars := SavedVars 1 0 0 0 0 0 0 (0, 0, 0, 0) 0 0 0.

Definition b : booting :=
  Booting true true true [SuperBlock true true; SuperBlock false false] sample_zones [] 0 0 0 0 0 true (fun _ => true)
    (fun _ => true) (fun _ => true) 25 None (Console true true (fun _ => true) (fun _ => None)) 30 4.

Definition s : loading :=
  Loading other after [] sample (Z.shiftl 1 7) false false false false false false false false [].

Definition stream : list Z := put_all (header_chunks data e before junk v) [].

Lemma written :
  header_written (fun w => (w, 0)) (fun w => (w, 0)) data e before sample junk v []
    (stream ++ bitmap_bytes sample) (stream ++ bitmap_bytes sample).
Proof.
  assert (wf_vars v) as Hv by (constructor; vm_compute; by split_and!).
  split; [exact before_wf|done| |exact Hv|done|done| | |done].
  - intros id m Hid Hm. assert (id = 3%nat \/ id = 2%nat) as [->| ->] by (vm_compute in Hid; set_solver).
    + assert (m = mod_ MISC_MODULE "checksum" true) as -> by (vm_compute in Hm; by inv Hm).
      apply (bool_decide_unpack _). vm_compute. done.
    + assert (m = mod_ FILTER_MODULE "rot13" true) as -> by (vm_compute in Hm; by inv Hm).
      apply (bool_decide_unpack _). vm_compute. done.
  - split; [apply sample_wf|simpl; lia].
  - exists []. split; [done|]. split; [done|]. split; [vm_compute; done|]. vm_compute. done.
Qed.

Lemma boots : boot_resumes data before sample b s.
Proof.
  split; [done..|vm_compute; lia|exact after_wf| |].
  - unfold there, takes_config. apply (bool_decide_unpack _). vm_compute. done.
  - split; [done|]. eexists. split; [vm_compute; reflexivity|]. vm_compute. repeat constructor.
Qed.
End SmallImage.

Lemma image_header_roundtrip_witness :
  write_image_header (fun w => (w, 0)) (fun w => (w, 0)) ThreeModules.data true SmallImage.e ThreeModules.before sample
    ThreeModules.junk [] SmallImage.v =
  Some (SmallImage.stream ++ bitmap_bytes sample, SmallImage.v, 0) /\
  exists rd' s', __read_pageset1 (fun rd => (rd, 0)) (fun rd => (rd, 0)) SmallImage.b
      (SmallImage.stream ++ bitmap_bytes sample ++ [1; 2], SmallImage.s) = Some ((rd', s'), Some 0) /\
    vars s' = SmallImage.v /\ config_calls s' = [(3%nat, [3; 3; 3]); (2%nat, [2; 2])] /\
    set_up_as ThreeModules.data ThreeModules.before ThreeModules.after (reg s') /\
    bm_blocks (pageset1_map s') = bm_blocks sample /\
    test_toi_state TOI_NOW_RESUMING (boot_state s') = true /\ test_toi_state TOI_BOOT_KERNEL (boot_state s') = true.
Proof.
  apply (image_header_roundtrip (fun w => (w, 0)) (fun w => (w, 0)) (fun rd => (rd, 0)) (fun rd => (rd, 0))
    ThreeModules.data true SmallImage.e ThreeModules.before sample ThreeModules.junk SmallImage.v [] 
    (SmallImage.stream ++ bitmap_bytes sample) (SmallImage.stream ++ bitmap_bytes sample) SmallImage.b SmallImage.s
    (SmallImage.stream ++ bitmap_bytes sample ++ [1; 2]) (SmallImage.stream ++ bitmap_bytes sample ++ [1; 2]) [1; 2]).
  - exact SmallImage.written.
  - exact SmallImage.boots.
  - reflexivity.
  - intros bs Hb. change (SmallImage.stream ++ bitmap_bytes sample ++ [1; 2] = bs ++ [1; 2]). by rewrite <- Hb, app_assoc.
  - reflexivity.
Defined.

(** Where the names of the kernel would be there is nothing: the answer about
    an image never says which kernel made it. *)
Lemma have_image_unnamed {R : Type} `{HeaderReader R} init b rd rd1 s e v rest :
  have_page b = true -> image_exists b = true -> init rd = (rd1, 0) ->
  hr_pending rd1 (toi_header_bytes (fill_toi_header e v) ++ rest) ->
  test_toi_state TOI_RESUMED_BEFORE (boot_state s) = false ->
  exists rd' s', get_have_image_data init b (rd, s) = Some ((rd', s'), Some [49; 10; 10; 10]).
Proof.
  intros Hp He Hi Hs Hb. destruct (hr_chunk_ok _ _ _ Hs) as (rd2 & E & _). rewrite toi_header_bytes_length in E.
  unfold get_have_image_data, noresume_reset_modules, bind, put, my, on_stream, ret. rewrite Hp, He. cbn [negb].
  cbv beta iota. rewrite Hi. change (0 =? 0) with true. cbn [negb]. cbv beta iota. rewrite E. cbn [fst snd].
  change (0 =? 0) with true. cbv beta iota.
  assert (forall n, (n = 260 \/ n = 195)%nat -> c_string (drop n (toi_header_bytes (fill_toi_header e v))) = Some []) as Hz.
  { unfold toi_header_bytes, fill_toi_header. simpl sh_io_time. destruct (v_toi_io_time v) as [[[? ?] ?] ?].
    intros n [->| ->]; reflexivity. }
  rewrite !Hz by auto. cbv beta iota. rewrite Hb. eexists _, _. reflexivity.
Qed.

(** ** When the image cannot be loaded *)

Section Undone.
Context {R : Type} `{HeaderReader R}.
Context (read_header_init read_header_cleanup : R -> R * Z) (b : booting).

(** What loading an image does to the machine. *)
Definition machine (s : loading) : bool * bool * bool * bool * bool * bool :=
  (header_page s, pf_nofreeze s, console_prepared s, cpus_off s, helpers_off s, frozen s).

Definition at_rest : bool * bool * bool * bool * bool * bool := (false, false, false, false, false, false).

Definition marks (s : loading) : bool * bool := (image_removed s, attempt_marked s).

(** The steps before the machine is touched. *)
Definition steady {A} (m : M (R * loading) A) : Prop :=
  forall r s r' s' a, m (r, s) = Some ((r', s'), a) -> machine s' = machine s /\ marks s' = marks s.

Lemma steady_ret {A} (a : A) : steady (ret a).
Proof. by intros r s r' s' x [= _ <- _]. Qed.

Lemma steady_bind {A B} (m : M (R * loading) A) (k : A -> M (R * loading) B) :
  steady m -> (forall a, steady (k a)) -> steady (bind m k).
Proof.
  intros Hm Hk r s r' s' x. unfold bind. destruct (m (r, s)) as [[[r1 s1] a]|] eqn:E; [|done]. intros E'.
  destruct (Hm _ _ _ _ _ E) as [<- <-]. by eapply Hk.
Qed.

Lemma steady_my {A} (f : loading -> A) : steady (my f).
Proof. by intros r s r' s' x [= _ <- _]. Qed.

Lemma steady_put f : (forall s, machine (f s) = machine s /\ marks (f s) = marks s) -> steady (put f).
Proof. intros Hf r s r' s' x [= _ <- _]. apply Hf. Qed.

Lemma steady_stream {A} (f : R -> R * A) : steady (on_stream f).
Proof. intros r s r' s' x. unfold on_stream. destruct (f r). by intros [= _ <- _]. Qed.

Lemma steady_prompt d w : steady (early_boot_message b d w).
Proof.
  intros r s r' s' x. unfold early_boot_message. destruct (prompt b d w (boot_state s)) as [[st|]|]; [| |done].
  - by intros [= _ <- _].
  - by intros [= _ <- _].
Qed.

Lemma steady_configs : steady (configs b).
Proof.
  intros r s r' s' x. unfold configs.
  destruct (read_module_configs _ _ _ _ _ _ _ _) as [[[[[r1 g] log] st] res]|]; [|done]. by intros [= _ <- _].
Qed.

Lemma steady_if {A} (c : bool) (m1 m2 : M (R * loading) A) : steady m1 -> steady m2 -> steady (if c then m1 else m2).
Proof. by destruct c. Qed.

Create HintDb steady.
#[local] Hint Resolve steady_ret steady_my steady_stream steady_prompt steady_configs steady_if : steady.
#[local] Hint Extern 1 (steady (bind _ _)) => (apply steady_bind; [|intro]) : steady.
#[local] Hint Extern 1 (steady (put _)) => (apply steady_put; by intro) : steady.
#[local] Hint Extern 1 (steady (match ?x with _ => _ end)) => (destruct x) : steady.

Lemma steady_resumed_before : steady (resumed_before b).
Proof. unfold resumed_before. auto 12 with steady. Qed.

Lemma steady_read_header : steady (read_header b).
Proof. unfold read_header, sanity_check. auto 20 with steady. Qed.

(** What the labels at the end do. *)
Lemma out_remove_image_ok r s r' s' x :
  out_remove_image read_header_cleanup b (r, s) = Some ((r', s'), x) ->
  x = - EINVAL /\ header_page s' = false /\ pf_nofreeze s' = false /\ console_prepared s' = console_prepared s /\
  cpus_off s' = cpus_off s /\ helpers_off s' = helpers_off s /\ frozen s' = frozen s /\
  image_removed s' = image_removed s || negb (test_action_state TOI_KEEP_IMAGE (v_toi_action (vars s'))) /\
  attempt_marked s' = attempt_marked s.
Proof.
  unfold out_remove_image, noresume_reset_modules, out, bind, my, put, on_stream, ret. cbv beta iota zeta.
  destruct (test_action_state TOI_KEEP_IMAGE (v_toi_action (vars s))) eqn:Ek; cbv beta iota zeta;
    destruct (read_header_cleanup r) as [r1 z]; cbv beta iota zeta;
    intros [= <- <- <-]; cbn -[test_action_state]; rewrite ?Ek, ?orb_true_r, ?orb_false_r; by split_and!.
Qed.

(** Failing leaves the machine as it was, the image gone unless it is kept. *)
Definition undone (s s' : loading) (x : Z) : Prop :=
  x = - EINVAL /\ machine s' = at_rest /\
  image_removed s' = image_removed s || negb (test_action_state TOI_KEEP_IMAGE (v_toi_action (vars s'))) /\
  attempt_marked s' = attempt_marked s.

(** Success leaves it ready to be replaced. *)
Definition prepared (s s' : loading) (x : Z) : Prop :=
  x = 0 /\
  machine s' = (false, false, true, negb (test_action_state TOI_LATE_CPU_HOTPLUG (v_toi_action (vars s'))), true,
                freeze_processes b =? 0) /\
  image_removed s' = image_removed s.

Lemma removed_undone r s s0 r' s' x :
  console_prepared s0 = false -> cpus_off s0 = false -> helpers_off s0 = false -> frozen s0 = false -> marks s0 = marks s ->
  out_remove_image read_header_cleanup b (r, s0) = Some ((r', s'), x) -> undone s s' x.
Proof.
  intros H1 H2 H3 H4 [= E1 E2] Ho. apply out_remove_image_ok in Ho as (-> & Hh & Hn & Hc & Hcpu & Hhelp & Hf & Hi & Ha).
  unfold undone, machine, at_rest. rewrite Hh, Hn, Hc, Hcpu, Hhelp, Hf, Hi, Ha, H1, H2, H3, H4, E1, E2. done.
Qed.

Lemma thaw_undone r s s0 r' s' x :
  marks s0 = marks s -> out_thaw read_header_cleanup b (r, s0) = Some ((r', s'), x) -> undone s s' x.
Proof. intros Hm Ho. by eapply (removed_undone r s (s0 {{ frozen := false; helpers_off := false; cpus_off := false; console_prepared := false }})). Qed.

Lemma undone_marks s0 s s' x : marks s0 = marks s -> undone s0 s' x -> undone s s' x.
Proof. intros [= E1 E2] (-> & ? & Hi & Ha). unfold undone. by rewrite Hi, Ha, E1, E2. Qed.

Lemma load_frozen_outcome r s r' s' x :
  load_frozen read_header_cleanup b (r, s) = Some ((r', s'), x) ->
  undone s s' x \/
  x = 0 /\ machine s' = (false, false, console_prepared s, cpus_off s, helpers_off s, frozen s) /\
    v_toi_action (vars s') = v_toi_action (vars s) /\ image_removed s' = image_removed s.
Proof.
  unfold load_frozen, bind at 1, read_map.
  destruct (memory_bm_read _ _ _ r) as [[r1 bm] z]. cbv beta iota.
  set (s1 := s {{ pageset1_map := _ }}). assert (marks s1 = marks s) as Hm by done.
  destruct (negb (z =? 0)); [intros ?; left; by eapply thaw_undone|].
  unfold bind at 1, on_stream. destruct (read_header_cleanup r1) as [r2 z2]. cbv beta iota.
  destruct (negb (z2 =? 0)); [intros ?; left; by eapply thaw_undone|].
  destruct (negb (load_addresses b =? 0)); [intros ?; left; by eapply thaw_undone|].
  destruct (negb (read_pageset b =? 0)); [intros ?; left; by eapply thaw_undone|].
  unfold bind, my, out, put, ret. cbv beta iota. intros E. right.
  destruct (_ && can_mark_attempt b); cbv beta iota in E; by injection E as <- <- <-.
Qed.

Lemma load_image_outcome r s r' s' x :
  machine s = (true, false, false, false, false, false) -> load_image read_header_cleanup b (r, s) = Some ((r', s'), x) ->
  undone s s' x \/ prepared s s' x.
Proof.
  intros Hm. unfold load_image, bind, put, my, ret. cbv beta iota.
  set (s1 := s {{ console_prepared := true; boot_state := set_toi_state TOI_NOW_RESUMING (boot_state s) }}).
  assert (cpus_off s1 = false /\ helpers_off s1 = false /\ frozen s1 = false /\ marks s1 = marks s) as (H1 & H2 & H3 & H4).
  { unfold machine in Hm. injection Hm as ? ? ? ? ? ?. split_and!; done. }
  assert (console_prepared s1 = true) as H5 by done. clearbody s1. clear Hm.
  destruct (test_action_state TOI_LATE_CPU_HOTPLUG (v_toi_action (vars s1))) eqn:El; cbn [negb andb]; cbv beta iota.
  2: destruct (negb (disable_nonboot_cpus b =? 0)); cbv beta iota.
  2:{ intros E. left. eapply (removed_undone r s _ r' s' x); [..|exact E]; done. }
  all: destruct (negb (usermodehelper_disable b =? 0)); cbv beta iota;
    [intros E; left; eapply (removed_undone r s _ r' s' x); [..|exact E]; done|].
  all: intros E; apply load_frozen_outcome in E as [Hu|(-> & Hm & Ha & Hi)].
  1, 3: left; eapply undone_marks; [|exact Hu]; exact H4.
  all: right; unfold prepared; injection H4 as Hrem _; rewrite Hm, Ha, Hi; simpl; rewrite H5, El, ?H1, Hrem; done.
Qed.

Lemma returned m (st st' : R * loading) (x : Z) :
  (r <-- m;; ret (Some r)) st = Some (st', Some x) -> m st = Some (st', x).
Proof. unfold bind, ret. destruct (m st) as [[st1 z]|]; [|done]. by intros [= -> ->]. Qed.

Lemma undone_result s s' x :
  marks s = (false, false) -> undone s s' x ->
  x ∈ [- ENOMEM; - ENODATA; - EINVAL] /\ machine s' = at_rest /\ attempt_marked s' = false /\
  image_removed s' = bool_decide (x = - EINVAL) && negb (test_action_state TOI_KEEP_IMAGE (v_toi_action (vars s'))).
Proof.
  intros [= E1 E2] (-> & ? & -> & ->). rewrite E1, E2, bool_decide_eq_true_2 by done. split_and!; [set_solver|done..].
Qed.

Lemma remove_result r s r' s' x :
  machine s = (true, false, false, false, false, false) -> marks s = (false, false) ->
  out_remove_image read_header_cleanup b (r, s) = Some ((r', s'), x) ->
  x ∈ [- ENOMEM; - ENODATA; - EINVAL] /\ machine s' = at_rest /\ attempt_marked s' = false /\
  image_removed s' = bool_decide (x = - EINVAL) && negb (test_action_state TOI_KEEP_IMAGE (v_toi_action (vars s'))).
Proof.
  intros Hm Hk E. unfold machine in Hm. injection Hm as ? ? ? ? ? ?.
  eapply undone_result; [exact Hk|]. by eapply removed_undone.
Qed.
End Undone.


