(* ===== verification/Sysfs.v ===== *)
(** * The files of /sys/power/tuxonice

    kernel/power/tuxonice_sysfs.c and tuxonice_sysfs.h: what a read and a
    write of one of the files do ([toi_attr_show], [toi_attr_store]), for each
    type of entry, and the registration of the entries.  Numbers are printed
    and parsed by the routines of Vsprintf; the strings are byte arrays at
    addresses, a store outside of one is [None].  The handlers of custom
    entries, the side effects and the brackets around an access
    ([toi_start_anything] and the storage manager's) are the fields of
    [sysfs_calls]; the theorems ask of them only that they leave the variables
    well typed, or alone. *)

From S2P Require Import Prelude States Vsprintf CString.
From stdpp Require Import numbers base list functions.
#[local] Open Scope Z_scope.
#[local] Open Scope step_scope.

(** ** Entries *)

Definition SYSFS_NEEDS_SM_FOR_READ : Z := 1.
Definition SYSFS_HIBERNATE_OR_RESUME : Z := Z.lor SYSFS_HIBERNATE SYSFS_RESUME.

(** The type and the union [data]; variables are addresses, routines numbers. *)
Inductive sysfs_union : Type :=
| TOI_SYSFS_DATA_NONE
| TOI_SYSFS_DATA_CUSTOM (read_sysfs write_sysfs : option nat)
| TOI_SYSFS_DATA_BIT (bit_vector bit : Z)
| TOI_SYSFS_DATA_INTEGER (variable minimum maximum : Z)
| TOI_SYSFS_DATA_UL (variable minimum maximum : Z)
| TOI_SYSFS_DATA_LONG (variable minimum maximum : Z)
| TOI_SYSFS_DATA_STRING (variable max_length : Z).

Record toi_sysfs_data := SysfsData {
  flags : Z;
  data : sysfs_union;
  write_side_effect : option nat
}.

(** ** The state: the variables, and what else the calls act on *)

Record sysfs_state (W : Type) := SysfsState {
  nums : Z -> Z;
  strs : Z -> list Z;
  world : W
}.
Arguments SysfsState {W} nums strs world.
Arguments nums {W} _.
Arguments strs {W} _.
Arguments world {W} _.

#[export] Instance eta_sysfs_state {W} : Eta (sysfs_state W) :=
  fun s => SysfsState (nums s) (strs s) (world s).

Record sysfs_calls (W : Type) := SysfsCalls {
  toi_start_anything : Z -> M (sysfs_state W) Z;
  toi_finish_anything : Z -> M (sysfs_state W) unit;
  toi_prepare_usm : M (sysfs_state W) unit;
  toi_cleanup_usm : M (sysfs_state W) unit;
  call_read_sysfs : nat -> Z -> M (sysfs_state W) (Z * list Z);
  call_write_sysfs : nat -> list Z -> M (sysfs_state W) Z;
  call_side_effect : nat -> toi_sysfs_data -> M (sysfs_state W) unit;
  toi_get_zeroed_page : M (sysfs_state W) Z;
  toi_free_page : Z -> M (sysfs_state W) unit
}.
Arguments toi_start_anything {W} _ _.
Arguments toi_finish_anything {W} _ _.
Arguments toi_prepare_usm {W} _.
Arguments toi_cleanup_usm {W} _.
Arguments call_read_sysfs {W} _ _ _.
Arguments call_write_sysfs {W} _ _ _.
Arguments call_side_effect {W} _ _ _.
Arguments toi_get_zeroed_page {W} _.
Arguments toi_free_page {W} _ _.

(** A step that may fault. *)
Definition checked {S A} (o : option A) : M S A :=
  match o with Some a => ret a | None => bug end.

(** [a[i] = v] in a byte array. *)
Definition byte_store (a : list Z) (i v : Z) : option (list Z) :=
  if (0 <=? i) && (i <? Z.of_nat (length a)) then Some (<[Z.to_nat i := v]> a) else None.

(** ** Printing: ["%d\n"], ["%ld\n"], ["%lu\n"] and ["%s\n"] *)

Definition print_signed (n : Z) : list Z := number (u64 n) (PrintfSpec SIGN (-1) 10 (-1)) ++ [10].

Definition print_unsigned (n : Z) : list Z := number n (PrintfSpec 0 (-1) 10 (-1)) ++ [10].

(** [<NULL>] *)
Definition null_text : list Z := [60; 78; 85; 76; 76; 62].

Definition print_string (variable : Z) (a : list Z) : option (list Z) :=
  s ← (if u64 variable <? PAGE_SIZE then Some null_text else c_string a);
  Some (s ++ [10]).

(** [sprintf] into the page: the text and its NUL have to fit. *)
Definition sprintf_page (text : list Z) : option (list Z) :=
  if Z.of_nat (length text) <? PAGE_SIZE then Some text else None.

(** [bt; sbb]: all ones when the bit is set. *)
Definition variable_test_bit (nr w : Z) : Z := if test_flag nr w then -1 else 0.

(** The macro [BOUND]. *)
Definition BOUND (variable minimum maximum : Z) : Z :=
  if variable <? minimum then minimum else if variable >? maximum then maximum else variable.

Section Handlers.
Context {W : Type} (calls : sysfs_calls W).
#[local] Abbreviation C := (M (sysfs_state W)).

Definition when (b : bool) (m : C unit) : C unit := if b then m else ret tt.

Definition store_num (variable v : Z) : C unit := fun s =>
  Some (s {{ nums := <[variable := v]> (nums s) }}, tt).

Definition store_str (variable : Z) (a : list Z) : C unit := fun s =>
  Some (s {{ strs := <[variable := a]> (strs s) }}, tt).

(** The switch of [toi_attr_show]: the length returned and the page. *)
Definition show_value (d : sysfs_union) : C (Z * list Z) :=
  let text (o : option (list Z)) : C (Z * list Z) :=
    t <-- checked (o ≫= sprintf_page) ;; ret (Z.of_nat (length t), t) in
  match d with
  | TOI_SYSFS_DATA_NONE => ret (0, [])
  | TOI_SYSFS_DATA_CUSTOM None _ => ret (0, [])
  | TOI_SYSFS_DATA_CUSTOM (Some read_sysfs) _ => call_read_sysfs calls read_sysfs PAGE_SIZE
  | TOI_SYSFS_DATA_BIT bit_vector bit =>
      w <-- get (fun s => nums s bit_vector) ;; text (Some (print_signed (- variable_test_bit bit w)))
  | TOI_SYSFS_DATA_INTEGER variable _ _
  | TOI_SYSFS_DATA_LONG variable _ _ =>
      v <-- get (fun s => nums s variable) ;; text (Some (print_signed v))
  | TOI_SYSFS_DATA_UL variable _ _ =>
      v <-- get (fun s => nums s variable) ;; text (Some (print_unsigned v))
  | TOI_SYSFS_DATA_STRING variable _ =>
      a <-- get (fun s => strs s variable) ;; text (print_string variable a)
  end.

Definition toi_attr_show (sysfs_data : toi_sysfs_data) : C (Z * list Z) :=
  let full_prep := has (flags sysfs_data) SYSFS_NEEDS_SM_FOR_READ in
  busy <-- (if full_prep then toi_start_anything calls 0 else ret 0) ;;
  if negb (busy =? 0) then ret (- EBUSY, []) else
  when full_prep (toi_prepare_usm calls) ;;;
  r <-- show_value (data sysfs_data) ;;
  when full_prep (toi_cleanup_usm calls) ;;;
  when full_prep (toi_finish_anything calls 0) ;;;
  ret r.

(** The characters a parser sees: up to the NUL the handler puts after the text. *)
Definition text_of (my_buf : list Z) : list Z := default [] (c_string (my_buf ++ [0])).

(** The case of a string: the result, and the temporary page when one was taken. *)
Definition store_string (variable max_length : Z) (my_buf : list Z) : C (option Z) :=
  let count := Z.of_nat (length my_buf) in
  let copy_len := if negb (max_length =? 0) && (count >? max_length) then max_length else count in
  let assigned_temp_buffer := variable =? 0 in
  variable <-- (if assigned_temp_buffer then toi_get_zeroed_page calls else ret variable) ;;
  if variable =? 0 then bug else
  a <-- get (fun s => strs s variable) ;;
  a <-- checked (strncpy a (my_buf ++ [0]) (Z.to_nat copy_len)) ;;
  a <-- (if negb (copy_len =? 0) && (nth (Z.to_nat (copy_len - 1)) my_buf 0 =? 10)
         then checked (byte_store a (count - 1) 0) else ret a) ;;
  a <-- checked (byte_store a count 0) ;;
  store_str variable a ;;;
  ret (if assigned_temp_buffer then Some variable else None).

(** The switch of [toi_attr_store]: the result, and the temporary page.  A
    failed parse of a long leaves 0 in the variable: it is given to the
    parser, which clears its result first. *)
Definition store_value (d : sysfs_union) (my_buf : list Z) : C (Z * option Z) :=
  let count := Z.of_nat (length my_buf) in
  match d with
  | TOI_SYSFS_DATA_NONE => ret (count, None)
  | TOI_SYSFS_DATA_CUSTOM _ None => ret (count, None)
  | TOI_SYSFS_DATA_CUSTOM _ (Some write_sysfs) =>
      r <-- call_write_sysfs calls write_sysfs my_buf ;; ret (r, None)
  | TOI_SYSFS_DATA_BIT bit_vector bit =>
      match strict_strtoul (text_of my_buf) 0 with
      | None => ret (- EINVAL, None)
      | Some value =>
          w <-- get (fun s => nums s bit_vector) ;;
          store_num bit_vector (if negb (value =? 0) then set_flag bit w else clear_flag bit w) ;;;
          ret (0, None)
      end
  | TOI_SYSFS_DATA_INTEGER variable minimum maximum =>
      match strict_strtol (text_of my_buf) 0 with
      | None => ret (- EINVAL, None)
      | Some temp => store_num variable (BOUND (s32 temp) minimum maximum) ;;; ret (0, None)
      end
  | TOI_SYSFS_DATA_LONG variable minimum maximum =>
      match strict_strtol (text_of my_buf) 0 with
      | None => store_num variable 0 ;;; ret (- EINVAL, None)
      | Some v => store_num variable (BOUND v minimum maximum) ;;; ret (0, None)
      end
  | TOI_SYSFS_DATA_UL variable minimum maximum =>
      match strict_strtoul (text_of my_buf) 0 with
      | None => store_num variable 0 ;;; ret (- EINVAL, None)
      | Some v => store_num variable (BOUND v minimum maximum) ;;; ret (0, None)
      end
  | TOI_SYSFS_DATA_STRING variable max_length =>
      temp <-- store_string variable max_length my_buf ;; ret (count, temp)
  end.

(** The entry while a temporary page stands for its string. *)
Definition with_temp (sysfs_data : toi_sysfs_data) (temp : option Z) : toi_sysfs_data :=
  match data sysfs_data, temp with
  | TOI_SYSFS_DATA_STRING _ max_length, Some page =>
      SysfsData (flags sysfs_data) (TOI_SYSFS_DATA_STRING page max_length) (write_side_effect sysfs_data)
  | _, _ => sysfs_data
  end.

Definition toi_attr_store (sysfs_data : toi_sysfs_data) (my_buf : list Z) : C Z :=
  let count := Z.of_nat (length my_buf) in
  let op := Z.land (flags sysfs_data) SYSFS_HIBERNATE_OR_RESUME in
  let needs_sm := has (flags sysfs_data) SYSFS_NEEDS_SM_FOR_WRITE in
  busy <-- toi_start_anything calls op ;;
  if negb (busy =? 0) then ret (- EBUSY) else
  when needs_sm (toi_prepare_usm calls) ;;;
  r <-- store_value (data sysfs_data) my_buf ;;
  let (result, temp) := r : Z * option Z in
  let result := if result =? 0 then count else result in
  match write_side_effect sysfs_data with
  | Some f => when (u64 result =? count) (call_side_effect calls f (with_temp sysfs_data temp))
  | None => ret tt
  end ;;;
  match temp with
  | Some page => toi_free_page calls page
  | None => ret tt
  end ;;;
  when needs_sm (toi_cleanup_usm calls) ;;;
  toi_finish_anything calls op ;;;
  ret result.
End Handlers.

(** ** The directory and its files

    What is in sysfs is a list of directories, and of files with the directory
    each is in; [kobject_create_and_add] and [sysfs_create_file] may fail. *)

(** The entries every kernel has. *)
Definition sysfs_params (toi_main_wrapper __toi_try_resume : nat) : list toi_sysfs_data :=
  [SysfsData SYSFS_HIBERNATING (TOI_SYSFS_DATA_CUSTOM None None) (Some toi_main_wrapper);
   SysfsData SYSFS_RESUMING (TOI_SYSFS_DATA_CUSTOM None None) (Some __toi_try_resume)].

Record directory := Directory {
  toi_sysfs_initialised : bool;
  tuxonice_kobj : option nat;
  directories : list nat;
  files : list (nat * nat)
}.

#[export] Instance eta_directory : Eta directory := fun s =>
  Directory (toi_sysfs_initialised s) (tuxonice_kobj s) (directories s) (files s).

Section Registration.
(** The new directory, if one can be had, and the result of creating a file. *)
Context (new_kobject : directory -> option nat).
Context (create_result : directory -> nat -> nat -> Z).

(** The files of [sysfs_params]. *)
Context (params : list nat).

Definition kobject_create_and_add : M directory (option nat) := fun s =>
  match new_kobject s with
  | None => Some (s, None)
  | Some k => Some (s {{ directories := k :: directories s }}, Some k)
  end.

Definition kobject_put (kobj : nat) : M directory unit :=
  modify (fun s => s {{ directories := filter (fun k => k <> kobj) (directories s) }}).

(** On no directory at all it is a BUG. *)
Definition sysfs_create_file (kobj : option nat) (file : nat) : M directory Z := fun s =>
  match kobj with
  | None => None
  | Some k =>
      let r := create_result s k file in
      Some (if r =? 0 then s {{ files := (k, file) :: files s }} else s, r)
  end.

Definition toi_unregister_sysfs_file (kobj file : nat) : M directory unit :=
  modify (fun s => s {{ files := filter (fun e => e <> (kobj, file)) (files s) }}).

(** With the registration it calls. *)
Definition toi_initialise_sysfs (register : option nat -> nat -> M directory Z) : M directory unit :=
  initialised <-- get toi_sysfs_initialised ;;
  if initialised : bool then ret tt else
  k <-- kobject_create_and_add ;;
  modify (fun s => s {{ tuxonice_kobj := k }}) ;;;
  match k with
  | None => ret tt
  | Some k =>
      modify (fun s => s {{ toi_sysfs_initialised := true }}) ;;;
      foldr (fun file rest => register (Some k) file ;;; rest) (ret tt) params
  end.

(** Registering and initialising call each other: [fuel] is the depth. *)
Fixpoint toi_register_sysfs_file (fuel : nat) (kobj : option nat) (file : nat) : M directory Z :=
  initialised <-- get toi_sysfs_initialised ;;
  (if initialised : bool then ret tt else
   match fuel with
   | O => bug
   | S fuel' => toi_initialise_sysfs (toi_register_sysfs_file fuel')
   end) ;;;
  sysfs_create_file kobj file.

Definition toi_sysfs_init : M directory Z :=
  toi_initialise_sysfs (toi_register_sysfs_file 1) ;;; ret 0.

Definition toi_cleanup_sysfs : M directory unit :=
  initialised <-- get toi_sysfs_initialised ;;
  if negb initialised then ret tt else
  k <-- get tuxonice_kobj ;;
  match k with
  | None => bug
  | Some k =>
      foldr (fun file rest => toi_unregister_sysfs_file k file ;;; rest) (ret tt) params ;;;
      kobject_put k ;;;
      modify (fun s => s {{ toi_sysfs_initialised := false }})
  end.

Definition toi_sysfs_exit : M directory unit := toi_cleanup_sysfs.
End Registration.
