(* ===== verification/SysfsFacts.v ===== *)
(** * What the files of /sys/power/tuxonice promise

    The variables behind the files are typed: a context gives a word of bits,
    a range of numbers or the size of a string for each address.  Writing any
    text to any file keeps every variable in its type, a string being safe
    exactly when the text is shorter than its array, and writing back what was
    read changes nothing. *)

From S2P Require Import Prelude States Vsprintf CString Sysfs.
From stdpp Require Import numbers base list functions sets.
#[local] Open Scope Z_scope.
#[local] Open Scope step_scope.

(** ** Printed numbers are read back *)

Lemma decimal_special n : number n (PrintfSpec SPECIAL (-1) 10 (-1)) = number n (PrintfSpec 0 (-1) 10 (-1)).
Proof. by rewrite !number_shape by set_solver. Qed.

Lemma decimal_reads n : 0 <= n < 2 ^ 64 -> strict_strtoul (print_unsigned n) 0 = Some n.
Proof.
  intros Hn. destruct (number_reads n 10 0 [10] Hn) as [_ H]; [set_solver..|unfold newline; set_solver|].
  unfold print_unsigned. by rewrite <- decimal_special.
Qed.

(** A sign, then the absolute value. *)
Lemma print_signed_shape n :
  - 2 ^ 63 <= n < 2 ^ 63 -> print_signed n = (if n <? 0 then [45] else []) ++ print_unsigned (Z.abs n).
Proof.
  intros Hn. unfold print_signed, print_unsigned. rewrite app_assoc. f_equal.
  rewrite (number_shape (Z.abs n) 0 10) by set_solver. change (number_prefix 0 10) with (@nil Z). change (Z.land 0 SMALL) with 0.
  unfold number. cbn [Vsprintf.flags field_width base precision]. cbv zeta.
  change (has SIGN LEFT) with false. cbv iota. change (has SIGN LEFT) with false. change (has SIGN SIGN) with true. change (has SIGN (ZEROPAD + LEFT)) with false.
  change (has SIGN SPECIAL) with false. change (has SIGN PLUS) with false. change (has SIGN SPACE) with false.
  change (Z.land SIGN SMALL) with 0. cbn [andb negb orb Z.eqb Pos.eqb app]. cbv iota zeta.
  rewrite s64_u64, s64_small by done.
  assert ((if n <? 0 then u64 (- n) else u64 n) = Z.abs n) as ->.
  { destruct (n <? 0) eqn:E; breflect; rewrite u64_small; lia. }
  unfold number_digits. change (negb (10 =? 10)) with false. cbv iota.
  set (tmp := if Z.abs n =? 0 then _ else _). unfold times.
  rewrite (Z.max_l (Z.of_nat _) (-1)), Z.sub_diag by lia.
  match goal with |- context [repeat 32 (Z.to_nat ?w)] => replace (Z.to_nat w) with O by (destruct (n <? 0); cbn [length]; lia) end.
  change (Z.to_nat 0) with O. change (has SIGN ZEROPAD) with false. cbn [repeat app]. by rewrite app_nil_r.
Qed.

Lemma length_digits_of fuel b n : (length (digits_of fuel b n) <= fuel)%nat.
Proof. revert n. induction fuel as [|fuel IH]; intros n; simpl; [lia|]. destruct (n <? b); simpl; [lia|]. specialize (IH (n / b)). lia. Qed.

(** The first character of an unsigned number is not the sign. *)
Lemma unsigned_chars n : 0 <= n < 2 ^ 64 -> Forall (fun c => c <> 0 /\ c <> 45) (print_unsigned n).
Proof.
  intros Hn. apply Forall_app. split; [|repeat constructor; lia].
  eapply Forall_impl; [apply number_chars; [done|set_solver..]|]. cbv beta. intros c Hc. split; by intros ->.
Qed.

Lemma unsigned_first n : 0 <= n < 2 ^ 64 -> at_ (print_unsigned n) 0 <> 45.
Proof.
  intros Hn. pose proof (unsigned_chars n Hn) as Hf. destruct (print_unsigned n); [done|].
  by apply Forall_cons_1 in Hf as [[_ ?] _].
Qed.

Lemma signed_reads n : - 2 ^ 63 <= n < 2 ^ 63 -> strict_strtol (print_signed n) 0 = Some n.
Proof.
  intros Hn. rewrite print_signed_shape by done. unfold strict_strtol. destruct (n <? 0) eqn:E; breflect.
  - change (at_ ([45] ++ _) 0 =? 45) with true. cbv iota.
    change (drop 1 ([45] ++ print_unsigned (Z.abs n))) with (print_unsigned (Z.abs n)).
    rewrite decimal_reads by lia. simpl. f_equal.
    rewrite Z.abs_neq by lia. unfold s64. Z.div_mod_to_equations. lia.
  - cbn [app]. rewrite (proj2 (Z.eqb_neq _ _)) by (apply unsigned_first; lia).
    rewrite decimal_reads by lia. simpl. f_equal. rewrite Z.abs_eq by lia. by apply s64_small.
Qed.

Lemma signed_chars n : - 2 ^ 63 <= n < 2 ^ 63 -> Forall (fun c => c <> 0) (print_signed n).
Proof.
  intros Hn. rewrite print_signed_shape by done. apply Forall_app. split.
  - destruct (n <? 0); repeat constructor. lia.
  - eapply Forall_impl; [apply unsigned_chars; lia|]. by intros c [].
Qed.

Lemma text_of_whole t : Forall (fun c => c <> 0) t -> text_of t = t.
Proof. intros Ht. unfold text_of. by rewrite c_string_app. Qed.

(** A printed number fits any page. *)
Lemma unsigned_length n : 0 <= n < 2 ^ 64 -> (length (print_unsigned n) <= 22)%nat.
Proof.
  intros Hn. unfold print_unsigned. rewrite number_shape by set_solver. change (number_prefix 0 10) with (@nil Z).
  rewrite length_app, length_app, length_rev. cbn [length]. unfold number_digits. change (negb (10 =? 10)) with false.
  destruct (n =? 0); [simpl; lia|]. unfold put_dec. rewrite put_dec_loop_ok.
  - rewrite length_map. pose proof (length_digits_of (5 * 4) 10 n). lia.
  - lia.
  - change (100000 ^ Z.of_nat 4) with (10 ^ 20). lia.
Qed.

Lemma signed_length n : - 2 ^ 63 <= n < 2 ^ 63 -> (length (print_signed n) <= 23)%nat.
Proof.
  intros Hn. rewrite print_signed_shape, length_app by done. pose proof (unsigned_length (Z.abs n) ltac:(lia)).
  destruct (n <? 0); simpl; lia.
Qed.

Lemma fits_page t : (length t <= 23)%nat -> sprintf_page t = Some t.
Proof. intros Ht. unfold sprintf_page. rewrite (proj2 (Z.ltb_lt _ _)); [done|]. unfold PAGE_SIZE. lia. Qed.

(** ** Strings *)

Lemma byte_store_some a i v a' :
  byte_store a i v = Some a' <-> 0 <= i < Z.of_nat (length a) /\ a' = <[Z.to_nat i := v]> a.
Proof.
  unfold byte_store. destruct (0 <=? i) eqn:E1, (i <? Z.of_nat (length a)) eqn:E2; breflect; simpl;
    (split; [intros [=]|intros [? ->]; try done; lia]); subst; auto with lia.
Qed.

Lemma byte_store_in a i v : 0 <= i < Z.of_nat (length a) -> byte_store a i v = Some (<[Z.to_nat i := v]> a).
Proof. intros. by apply byte_store_some. Qed.

Lemma c_prefix_total n a : (n <= length a)%nat -> exists s, c_prefix n a = Some s /\ (length s <= n)%nat.
Proof.
  revert a. induction n as [|n IH]; intros [|b a] Hn; simpl in *; try lia; eauto.
  destruct (b =? 0); [exists []; simpl; auto with lia|]. destruct (IH a) as (s & -> & Hs); [lia|].
  exists (b :: s). simpl. auto with lia.
Qed.

Lemma strncpy_total dst src n :
  (n <= length src)%nat -> (n <= length dst)%nat ->
  exists a, strncpy dst src n = Some a /\ length a = length dst /\ drop n a = drop n dst.
Proof.
  intros Hs Hd. unfold strncpy. rewrite (proj2 (Nat.leb_le _ _)) by done.
  destruct (c_prefix_total n src Hs) as (s & -> & Hl). simpl. eexists. split; [done|]. rewrite app_assoc. split.
  - rewrite !length_app, repeat_length, length_drop. lia.
  - rewrite drop_app_le, drop_ge by (rewrite length_app, repeat_length; lia). done.
Qed.

(** An array with a NUL in it holds a string. *)
Lemma c_string_terminated a i : a !! i = Some 0 -> exists s, c_string a = Some s.
Proof.
  revert i. induction a as [|b a IH]; intros [|i]; simpl; try done.
  - intros [= ->]. by exists [].
  - intros Hi. destruct (IH i Hi) as [s ->]. destruct (b =? 0); simpl; eauto.
Qed.

Lemma c_string_at a s :
  Forall (fun b => b <> 0) s -> take (length s) a = s -> a !! length s = Some 0 -> c_string a = Some s.
Proof.
  intros Hs Ht Hn. rewrite <- (take_drop (length s) a), Ht, (drop_S _ _ _ Hn). by apply c_string_app.
Qed.

Lemma c_string_prefix a s :
  c_string a = Some s -> take (length s) a = s /\ a !! length s = Some 0 /\ Forall (fun b => b <> 0) s.
Proof.
  intros Ha. destruct (c_string_split a s Ha) as (t & -> & Hs).
  rewrite take_app_length, list_lookup_middle by done. auto.
Qed.

Lemma c_prefix_take n a b : (n <= length a)%nat -> Forall (fun b => b <> 0) a -> c_prefix n (a ++ b) = Some (take n a).
Proof.
  intros Hn Ha. revert n Hn. induction Ha as [|x a Hx Ha IH]; intros [|n] Hn; simpl in *; try done; try lia.
  rewrite (proj2 (Z.eqb_neq _ _)) by done. by rewrite IH by lia.
Qed.

Section Strings.
Context {W : Type} (calls : sysfs_calls W).

Definition copy_length (count max_length : Z) : Z :=
  if negb (max_length =? 0) && (count >? max_length) then max_length else count.

Lemma copy_length_bounds count m : 0 <= count -> 0 <= m -> 0 <= copy_length count m <= count.
Proof. intros. unfold copy_length. destruct (negb (m =? 0) && (count >? m)) eqn:E; breflect; lia. Qed.

(** The bytes of an array after a string is stored in it. *)
Definition stored_string (a : list Z) (m : Z) (my_buf : list Z) : option (list Z) :=
  let count := Z.of_nat (length my_buf) in
  let n := copy_length count m in
  a ← strncpy a (my_buf ++ [0]) (Z.to_nat n);
  a ← (if negb (n =? 0) && (nth (Z.to_nat (n - 1)) my_buf 0 =? 10) then byte_store a (count - 1) 0 else Some a);
  byte_store a count 0.

Lemma store_string_at v m my_buf s :
  v <> 0 ->
  store_string calls v m my_buf s =
  match stored_string (strs s v) m my_buf with
  | Some a => Some (s {{ strs := <[v := a]> (strs s) }}, None)
  | None => None
  end.
Proof.
  intros Hv. unfold store_string, stored_string. fold (copy_length (Z.of_nat (length my_buf)) m).
  rewrite (proj2 (Z.eqb_neq v 0)) by done. unfold bind, ret, get, bug. rewrite (proj2 (Z.eqb_neq v 0)) by done.
  destruct (strncpy _ _ _) as [a|]; [|done]. cbn [checked ret mbind option_bind].
  destruct (negb _ && _); [destruct (byte_store a _ 0) as [a'|]; [|done]|]; cbn [checked ret mbind option_bind];
    by destruct (byte_store _ (Z.of_nat (length my_buf)) 0).
Qed.

Lemma stored_string_fits a m my_buf :
  0 <= m -> (length my_buf < length a)%nat ->
  exists a', stored_string a m my_buf = Some a' /\ length a' = length a /\ a' !! length my_buf = Some 0.
Proof.
  intros Hm Hl. unfold stored_string.
  pose proof (copy_length_bounds (Z.of_nat (length my_buf)) m ltac:(lia) Hm) as Hn.
  set (n := copy_length _ _) in *. clearbody n.
  destruct (strncpy_total a (my_buf ++ [0]) (Z.to_nat n)) as (a1 & -> & Hl1 & _); [rewrite ?length_app; lia..|].
  cbn [mbind option_bind].
  assert (exists a2, (if negb (n =? 0) && (nth (Z.to_nat (n - 1)) my_buf 0 =? 10)
    then byte_store a1 (Z.of_nat (length my_buf) - 1) 0 else Some a1) = Some a2 /\ length a2 = length a) as (a2 & -> & Hl2).
  { destruct (negb (n =? 0) && _) eqn:E; [|eauto]. breflect.
    rewrite byte_store_in by lia. eexists. split; [done|]. by rewrite length_insert. }
  cbn [mbind option_bind]. rewrite byte_store_in by lia. rewrite Nat2Z.id. eexists. split; [done|].
  rewrite length_insert. split; [done|]. apply list_lookup_insert_eq. lia.
Qed.

Lemma stored_string_overrun a m my_buf : (length a <= length my_buf)%nat -> stored_string a m my_buf = None.
Proof.
  intros Hl. unfold stored_string. destruct (strncpy _ _ _) as [a1|] eqn:E1; [|done]. cbn [mbind option_bind].
  assert (length a1 = length a) as Hl1.
  { unfold strncpy in E1. destruct (_ <=? _)%nat eqn:E; [|done]. apply Nat.leb_le in E.
    destruct (c_prefix _ _) as [p|] eqn:Ep; [|done]. injection E1 as <-.
    destruct (c_prefix_total (Z.to_nat (copy_length (Z.of_nat (length my_buf)) m)) (my_buf ++ [0])) as (p' & E' & Hp).
    { rewrite length_app. unfold copy_length. destruct (negb _ && _) eqn:C; breflect; simpl; lia. }
    rewrite Ep in E'. injection E' as <-. rewrite !length_app, repeat_length, length_drop. lia. }
  assert (forall a2, length a2 = length a -> byte_store a2 (Z.of_nat (length my_buf)) 0 = None) as Hout.
  { intros a2 H2. unfold byte_store. by rewrite H2, (proj2 (Z.ltb_ge _ _)), andb_false_r by lia. }
  destruct (negb _ && _); [|by apply Hout].
  destruct (byte_store a1 _ 0) as [a2|] eqn:E2; [|done]. apply byte_store_some in E2 as [_ ->].
  apply Hout. by rewrite length_insert.
Qed.

(** Writing back the string that is there, and the newline of its file. *)
Lemma stored_string_same a m str :
  0 <= m -> c_string a = Some str -> (S (length str) < length a)%nat ->
  exists a', stored_string a m (str ++ [10]) = Some a' /\ length a' = length a /\ c_string a' = Some str.
Proof.
  intros Hm Ha Hl. destruct (c_string_prefix a str Ha) as (Ht & Hz & Hnz).
  unfold stored_string. rewrite length_app. cbn [length]. rewrite Nat.add_1_r.
  pose proof (copy_length_bounds (Z.of_nat (S (length str))) m ltac:(lia) Hm) as Hn.
  set (n := copy_length _ _) in *. clearbody n.
  unfold strncpy. rewrite (proj2 (Nat.leb_le _ _)) by lia.
  rewrite c_prefix_take by (rewrite ?length_app, ?Forall_app; simpl; repeat constructor; auto with lia).
  cbn [mbind option_bind]. rewrite length_take_le, Nat.sub_diag by (rewrite length_app; simpl; lia). cbn [repeat app].
  set (a1 := take (Z.to_nat n) (str ++ [10]) ++ drop (Z.to_nat n) a).
  assert (exists a2, (if negb (n =? 0) && (nth (Z.to_nat (n - 1)) (str ++ [10]) 0 =? 10)
      then byte_store a1 (Z.of_nat (S (length str)) - 1) 0 else Some a1) = Some a2 /\
    length a2 = length a /\ take (length str) a2 = str /\ a2 !! length str = Some 0) as (a2 & -> & Hl2 & Ht2 & Hz2).
  { replace (Z.of_nat (S (length str)) - 1) with (Z.of_nat (length str)) by lia.
    destruct (decide (n = Z.of_nat (S (length str)))) as [->|Hne].
    - replace (Z.to_nat (Z.of_nat (S (length str)) - 1)) with (length str) by lia.
      rewrite nth_middle, (proj2 (Z.eqb_neq _ 0)) by lia. change (negb false && (10 =? 10)) with true. cbv iota.
      assert (a1 = str ++ 10 :: drop (S (length str)) a) as ->.
      { unfold a1. rewrite Nat2Z.id, take_ge, <- app_assoc by (rewrite length_app; simpl; lia). done. }
      rewrite byte_store_in, Nat2Z.id by (rewrite length_app; simpl; lia).
      rewrite insert_app_r_alt, Nat.sub_diag by done. eexists. split; [done|]. simpl.
      rewrite length_app, take_app_length, list_lookup_middle by done. simpl. rewrite length_drop. auto with lia.
    - assert (a1 = a) as ->.
      { unfold a1. rewrite take_app_le by lia. rewrite <- Ht, take_take at 1. rewrite Nat.min_l by lia. apply take_drop. }
      destruct (negb (n =? 0) && _); [|eauto]. rewrite byte_store_in, Nat2Z.id by lia.
      rewrite list_insert_id by done. eauto. }
  cbn [mbind option_bind]. rewrite byte_store_in, Nat2Z.id by lia. eexists. split; [done|].
  rewrite length_insert. split; [done|]. apply c_string_at; [done|by rewrite take_insert_ge by lia|].
  by rewrite list_lookup_insert_ne by lia.
Qed.
End Strings.

(** ** Typed variables *)

(** What a file may do to a variable: set its bits, keep it in a range, or
    keep a string in an array of a size. *)
Inductive var_type : Type :=
| Bits
| Range (minimum maximum : Z)
| Text (size : nat).

Section Typing.
Context {W : Type} (G : Z -> option var_type).

Definition has_type (s : sysfs_state W) (v : Z) (t : var_type) : Prop :=
  match t with
  | Bits => 0 <= nums s v < 2 ^ 64
  | Range lo hi => lo <= nums s v <= hi
  | Text size => length (strs s v) = size /\ exists str, c_string (strs s v) = Some str
  end.

Definition well_typed (s : sysfs_state W) : Prop := forall v t, G v = Some t -> has_type s v t.

(** An entry that agrees with the context: the range is that of its type in C,
    and a long one has 0 in it. *)
Definition entry_typed (d : sysfs_union) : Prop :=
  match d with
  | TOI_SYSFS_DATA_NONE | TOI_SYSFS_DATA_CUSTOM _ _ => True
  | TOI_SYSFS_DATA_BIT v bit => G v = Some Bits /\ 0 <= bit < 64
  | TOI_SYSFS_DATA_INTEGER v lo hi => G v = Some (Range lo hi) /\ - 2 ^ 31 <= lo <= hi /\ hi < 2 ^ 31
  | TOI_SYSFS_DATA_UL v lo hi => G v = Some (Range lo hi) /\ lo = 0 /\ 0 <= hi < 2 ^ 64
  | TOI_SYSFS_DATA_LONG v lo hi => G v = Some (Range lo hi) /\ - 2 ^ 63 <= lo <= 0 /\ 0 <= hi < 2 ^ 63
  | TOI_SYSFS_DATA_STRING v m =>
      exists size, G v = Some (Text size) /\ PAGE_SIZE <= v < 2 ^ 64 /\ 0 <= m /\ Z.of_nat size < PAGE_SIZE
  end.

(** A text the array of a string entry has room for. *)
Definition text_fits (d : sysfs_union) (my_buf : list Z) : Prop :=
  match d with
  | TOI_SYSFS_DATA_STRING v _ => forall size, G v = Some (Text size) -> (length my_buf < size)%nat
  | _ => True
  end.

Lemma well_typed_num s v t z :
  well_typed s -> G v = Some t -> has_type (s {{ nums := <[v := z]> (nums s) }}) v t ->
  well_typed (s {{ nums := <[v := z]> (nums s) }}).
Proof.
  intros Hs Hv Ht v' t' Hv'. destruct (decide (v' = v)) as [->|Hne]; [congruence|].
  specialize (Hs v' t' Hv'). unfold has_type in *. simpl in *. by rewrite fn_lookup_insert_ne by done.
Qed.

Lemma well_typed_str s v size a :
  well_typed s -> G v = Some (Text size) -> length a = size -> (exists str, c_string a = Some str) ->
  well_typed (s {{ strs := <[v := a]> (strs s) }}).
Proof.
  intros Hs Hv Hl Ha v' t' Hv'. destruct (decide (v' = v)) as [->|Hne].
  - rewrite Hv in Hv'. injection Hv' as <-. simpl. by rewrite fn_lookup_insert.
  - specialize (Hs v' t' Hv'). unfold has_type in *. simpl in *. by rewrite fn_lookup_insert_ne by done.
Qed.

Lemma BOUND_range z lo hi : lo <= hi -> lo <= BOUND z lo hi <= hi.
Proof. intros. unfold BOUND. bool_cases; breflect; lia. Qed.

Lemma BOUND_inside z lo hi : lo <= z <= hi -> BOUND z lo hi = z.
Proof. intros. unfold BOUND. bool_cases; breflect; lia. Qed.

Lemma flag_range (b : bool) bit w :
  0 <= w < 2 ^ 64 -> 0 <= bit < 64 -> 0 <= (if b then set_flag bit w else clear_flag bit w) < 2 ^ 64.
Proof.
  intros Hw Hb. assert (forall z, 0 <= z -> (forall l, 64 <= l -> Z.testbit z l = false) -> 0 <= z < 2 ^ 64) as Hz.
  { intros z Hz Hl. split; [done|]. apply Z.bounded_iff_bits_nonneg; [lia|done|done]. }
  assert (forall l, 64 <= l -> Z.testbit w l = false) as Hh by (apply Z.bounded_iff_bits_nonneg; lia).
  unfold set_flag, clear_flag. destruct b; apply Hz.
  - apply Z.lor_nonneg. split; [lia|]. by apply Z.shiftl_nonneg.
  - intros l Hl. rewrite Z.setbit_neq by lia. by apply Hh.
  - apply Z.ldiff_nonneg. lia.
  - intros l Hl. rewrite Z.clearbit_neq by lia. by apply Hh.
Qed.

(** What the handlers call keeps the variables typed, and returns. *)
Class TypedCalls (calls : sysfs_calls W) : Prop := {
  typed_start op s : well_typed s -> wp (toi_start_anything calls op) (fun _ => well_typed) s;
  typed_finish op s : well_typed s -> wp (toi_finish_anything calls op) (fun _ => well_typed) s;
  typed_prepare s : well_typed s -> wp (toi_prepare_usm calls) (fun _ => well_typed) s;
  typed_cleanup s : well_typed s -> wp (toi_cleanup_usm calls) (fun _ => well_typed) s;
  typed_read f n s : well_typed s -> wp (call_read_sysfs calls f n) (fun _ => well_typed) s;
  typed_write f my_buf s : well_typed s -> wp (call_write_sysfs calls f my_buf) (fun _ => well_typed) s;
  typed_effect f d s : well_typed s -> wp (call_side_effect calls f d) (fun _ => well_typed) s
}.

Definition is_custom (d : sysfs_union) : bool :=
  match d with TOI_SYSFS_DATA_CUSTOM _ _ => true | _ => false end.

Context (calls : sysfs_calls W) `{!TypedCalls calls}.

Lemma wp_when b m s : (well_typed s -> wp m (fun _ => well_typed) s) -> well_typed s -> wp (when b m) (fun _ => well_typed) s.
Proof. intros Hm Hs. destruct b; [by apply Hm|done]. Qed.

(** The switch of a write. *)
Lemma store_value_typed d my_buf s :
  entry_typed d -> text_fits d my_buf -> well_typed s ->
  wp (store_value calls d my_buf)
    (fun '(r, temp) s' => well_typed s' /\ temp = None /\
       (is_custom d = false -> r ∈ [0; - EINVAL; Z.of_nat (length my_buf)])) s.
Proof using All.
  intros Hd Hf Hs. assert (forall v lo hi z, G v = Some (Range lo hi) -> lo <= z <= hi ->
    well_typed (s {{ nums := <[v := z]> (nums s) }})) as Hnum.
  { intros v lo hi z Hv Hz. apply (well_typed_num s v (Range lo hi)); [done..|]. simpl. by rewrite fn_lookup_insert. }
  destruct d as [|rd [wr|]|v bit|v lo hi|v lo hi|v lo hi|v m]; cbn [store_value entry_typed text_fits] in *.
  - split_and!; [done|done|set_solver].
  - apply wp_bind. eapply wp_mono; [by apply typed_write|]. intros r s' Hs'. by split_and!.
  - split_and!; [done|done|set_solver].
  - destruct Hd as [Hv Hb]. destruct (strict_strtoul _ 0) as [z|]; [|split_and!; [done|done|set_solver]].
    split_and!; [|done|set_solver].
    refine (well_typed_num s v Bits _ Hs Hv _). simpl. rewrite fn_lookup_insert. apply flag_range; [|done]. by apply (Hs v Bits).
  - destruct Hd as (Hv & Hlo & Hhi). destruct (strict_strtol _ 0) as [z|]; [|split_and!; [done|done|set_solver]].
    split_and!; [|done|set_solver]. apply (Hnum v lo hi); [done|]. apply BOUND_range. lia.
  - destruct Hd as (Hv & -> & Hhi). destruct (strict_strtoul _ 0) as [z|]; (split_and!; [|done|set_solver]);
      apply (Hnum v 0 hi); try done; [apply BOUND_range|]; lia.
  - destruct Hd as (Hv & Hlo & Hhi). destruct (strict_strtol _ 0) as [z|]; (split_and!; [|done|set_solver]);
      apply (Hnum v lo hi); try done; [apply BOUND_range|]; lia.
  - destruct Hd as (size & Hv & Ha & Hm & Hsz). unfold wp, bind. rewrite store_string_at by (unfold PAGE_SIZE in Ha; lia).
    destruct (Hs v _ Hv) as [Hl Hstr]. specialize (Hf size Hv).
    destruct (stored_string_fits (strs s v) m my_buf Hm ltac:(lia)) as (a & -> & Hla & Hz).
    split_and!; [|done|set_solver].
    apply (well_typed_str s v size); [done|done|lia|]. by eapply c_string_terminated.
Qed.

(** What the page of a typed entry holds. *)
Definition shown (s : sysfs_state W) (d : sysfs_union) (page : list Z) : Prop :=
  match d with
  | TOI_SYSFS_DATA_NONE | TOI_SYSFS_DATA_CUSTOM _ _ => page = []
  | TOI_SYSFS_DATA_BIT v bit => page = print_unsigned (if test_flag bit (nums s v) then 1 else 0)
  | TOI_SYSFS_DATA_INTEGER v _ _ | TOI_SYSFS_DATA_LONG v _ _ => page = print_signed (nums s v)
  | TOI_SYSFS_DATA_UL v _ _ => page = print_unsigned (nums s v)
  | TOI_SYSFS_DATA_STRING v _ => exists str, c_string (strs s v) = Some str /\ page = str ++ [10]
  end.

Lemma show_value_shown d s :
  entry_typed d -> is_custom d = false -> well_typed s ->
  wp (show_value calls d) (fun '(r, page) s' => s' = s /\ r = Z.of_nat (length page) /\ shown s d page) s.
Proof.
  intros Hd Hc Hs. destruct d as [|rd wr|v bit|v lo hi|v lo hi|v lo hi|v m]; cbn [show_value entry_typed] in *; [done|done|..].
  - unfold wp, bind, get. cbn [mbind option_bind].
    rewrite fits_page by (apply signed_length; unfold variable_test_bit; case_match; lia).
    rewrite print_signed_shape by (unfold variable_test_bit; case_match; lia).
    cbn [shown]. unfold variable_test_bit. by destruct (test_flag _ _).
  - destruct Hd as (Hv & Hlo & Hhi). pose proof (Hs v _ Hv) as Hr. cbn in Hr. unfold wp, bind, get. cbn [mbind option_bind].
    by rewrite fits_page by (apply signed_length; lia).
  - destruct Hd as (Hv & -> & Hhi). pose proof (Hs v _ Hv) as Hr. cbn in Hr. unfold wp, bind, get. cbn [mbind option_bind].
    by rewrite fits_page by (apply Nat.le_le_succ_r, unsigned_length; lia).
  - destruct Hd as (Hv & Hlo & Hhi). pose proof (Hs v _ Hv) as Hr. cbn in Hr. unfold wp, bind, get. cbn [mbind option_bind].
    by rewrite fits_page by (apply signed_length; lia).
  - destruct Hd as (size & Hv & Ha & Hm & Hsz). destruct (Hs v _ Hv) as [Hl [str Hstr]].
    unfold wp, bind, get, print_string. rewrite u64_small, (proj2 (Z.ltb_ge _ _)) by (unfold PAGE_SIZE in *; lia).
    rewrite Hstr. cbn [mbind option_bind]. unfold sprintf_page.
    destruct (c_string_prefix _ _ Hstr) as (_ & Hz & _). apply lookup_lt_Some in Hz.
    rewrite (proj2 (Z.ltb_lt _ _)) by (rewrite length_app; simpl; lia). cbn. eauto.
Qed.
(** The switch of a read. *)
Lemma show_value_typed d s :
  entry_typed d -> well_typed s ->
  wp (show_value calls d) (fun '(r, page) s' => well_typed s' /\ (is_custom d = false -> r = Z.of_nat (length page))) s.
Proof using All.
  intros Hd Hs. destruct (is_custom d) eqn:Hc.
  - destruct d as [|[rd|] wr| | | | | ]; try discriminate Hc; [|done].
    eapply wp_mono; [by apply typed_read|]. intros [r p] s' Hs'. by split.
  - eapply wp_mono; [by apply show_value_shown|]. by intros [r p] s' (-> & -> & _).
Qed.

End Typing.

(** ** Reading and writing back *)

Section Quiet.
Context {W : Type}.

(** The variables are the same, a string up to its NUL. *)
Definition same_values (s s' : sysfs_state W) : Prop :=
  (forall v, nums s' v = nums s v) /\
  (forall v, length (strs s' v) = length (strs s v) /\ c_string (strs s' v) = c_string (strs s v)).

Definition same_vars (s s' : sysfs_state W) : Prop := nums s' = nums s /\ strs s' = strs s.

(** Nothing else is going on, and what the handlers call leaves the variables alone. *)
Class QuietCalls (calls : sysfs_calls W) : Prop := {
  quiet_start op s : wp (toi_start_anything calls op) (fun r s' => r = 0 /\ same_vars s s') s;
  quiet_finish op s : wp (toi_finish_anything calls op) (fun _ s' => same_vars s s') s;
  quiet_prepare s : wp (toi_prepare_usm calls) (fun _ s' => same_vars s s') s;
  quiet_cleanup s : wp (toi_cleanup_usm calls) (fun _ s' => same_vars s s') s;
  quiet_effect f d s : wp (call_side_effect calls f d) (fun _ s' => same_vars s s') s
}.

Context (calls : sysfs_calls W) `{!QuietCalls calls}.

Lemma same_vars_trans s1 s2 s3 : same_vars s1 s2 -> same_vars s2 s3 -> same_vars s1 s3.
Proof. intros [] []. split; congruence. Qed.

Lemma wp_when_quiet b m s : wp m (fun _ s' => same_vars s s') s -> wp (when b m) (fun _ s' => same_vars s s') s.
Proof. intros Hm. by destruct b. Qed.

(** With nothing else going on, a write is its switch, and so is a read. *)
Lemma store_quiet e my_buf s (Q : Z -> (Z -> Z) -> (Z -> list Z) -> Prop) :
  (forall s1, same_vars s s1 ->
     wp (store_value calls (data e) my_buf)
       (fun '(r, temp) s2 => temp = None /\ Q (if r =? 0 then Z.of_nat (length my_buf) else r) (nums s2) (strs s2)) s1) ->
  wp (toi_attr_store calls e my_buf) (fun r s' => Q r (nums s') (strs s')) s.
Proof using All.
  intros HQ. unfold toi_attr_store. apply wp_bind. eapply wp_mono; [apply quiet_start|]. intros busy s1 [-> H1].
  apply wp_bind. eapply wp_mono; [apply wp_when_quiet, quiet_prepare|]. intros [] s2 H2. apply wp_bind.
  eapply wp_mono; [apply HQ; by eapply same_vars_trans|]. intros [r temp] s3 [-> Hr]. apply wp_bind.
  eapply wp_mono with (Q := fun _ => same_vars s3).
  { destruct (write_side_effect e) as [f|]; [apply wp_when_quiet, quiet_effect|done]. }
  intros [] s4 [N4 S4]. apply wp_bind. eapply (wp_mono (ret tt) (fun _ => same_vars s4)); [done|]. intros [] s5 [N5 S5].
  apply wp_bind. eapply wp_mono; [apply wp_when_quiet, quiet_cleanup|]. intros [] s6 [N6 S6].
  apply wp_bind. eapply wp_mono; [apply quiet_finish|]. intros [] s7 [N7 S7].
  change (Q (if r =? 0 then Z.of_nat (length my_buf) else r) (nums s7) (strs s7)).
  rewrite N7, N6, N5, N4, S7, S6, S5, S4. exact Hr.
Qed.

Lemma show_quiet e s (Q : Z -> list Z -> Prop) :
  (forall s1, same_vars s s1 ->
     wp (show_value calls (data e)) (fun '(r, page) s2 => same_vars s s2 /\ Q r page) s1) ->
  wp (toi_attr_show calls e) (fun '(r, page) s' => same_vars s s' /\ Q r page) s.
Proof using All.
  intros HQ. unfold toi_attr_show. apply wp_bind.
  eapply wp_mono with (Q := fun r s1 => r = 0 /\ same_vars s s1).
  { destruct (has _ _); [apply quiet_start|done]. }
  intros busy s1 [-> H1]. apply wp_bind. eapply wp_mono; [apply wp_when_quiet, quiet_prepare|]. intros [] s2 H2.
  apply wp_bind. eapply wp_mono; [apply HQ; by eapply same_vars_trans|]. intros [r page] s3 [H3 Hr]. apply wp_bind.
  eapply wp_mono; [apply wp_when_quiet, quiet_cleanup|]. intros [] s4 H4. apply wp_bind.
  eapply wp_mono; [apply wp_when_quiet, quiet_finish|]. intros [] s5 H5. split; [|done].
  eauto using same_vars_trans.
Qed.

Context (G : Z -> option var_type).

(** Room for the newline after the string that is there. *)
Definition room_for_newline (s : sysfs_state W) (d : sysfs_union) : Prop :=
  match d with
  | TOI_SYSFS_DATA_STRING v _ =>
      forall str, c_string (strs s v) = Some str -> (S (length str) < length (strs s v))%nat
  | _ => True
  end.

Lemma same_values_num (s s1 : sysfs_state W) v z :
  same_vars s s1 -> z = nums s v -> same_values s (s1 {{ nums := <[v := z]> (nums s1) }}).
Proof.
  intros [N S] ->. split; simpl; [|by rewrite S]. intros v'. rewrite N.
  destruct (decide (v' = v)) as [->|]; [by rewrite fn_lookup_insert|by rewrite fn_lookup_insert_ne].
Qed.

Lemma flag_same bit w : 0 <= bit -> (if test_flag bit w then set_flag bit w else clear_flag bit w) = w.
Proof.
  intros Hb. unfold test_flag, set_flag, clear_flag. apply Z.bits_inj'. intros n Hn.
  destruct (Z.testbit w bit) eqn:E.
  - rewrite Z.setbit_eqb by done. destruct (bit =? n) eqn:En; breflect; simpl; congruence.
  - rewrite Z.clearbit_eqb. destruct (bit =? n) eqn:En; breflect; subst; rewrite ?E; simpl; by rewrite ?andb_true_r.
Qed.

(** Writing what was shown. *)
Lemma store_value_shown d page (s s1 : sysfs_state W) :
  entry_typed G d -> is_custom d = false -> well_typed G s -> room_for_newline s d -> shown s d page -> same_vars s s1 ->
  wp (store_value calls d page)
    (fun '(r, temp) s2 => temp = None /\ (r = 0 \/ r = Z.of_nat (length page)) /\ same_values s s2) s1.
Proof.
  intros Hd Hc Hs Hroom Hp H1. pose proof H1 as [N S].
  destruct d as [|rd wr|v bit|v lo hi|v lo hi|v lo hi|v m]; cbn [store_value entry_typed shown room_for_newline] in *;
    try discriminate Hc.
  - subst. unfold wp, ret. split_and!; [done|by right|]. split; [by rewrite N|by rewrite S].
  - destruct Hd as [Hv Hb]. subst page.
    rewrite text_of_whole, decimal_reads by (try (eapply Forall_impl; [apply unsigned_chars|by intros ? []]); case_match; lia).
    split_and!; [done|by left|]. apply same_values_num; [done|]. rewrite N. etrans; [|apply (flag_same bit); lia].
    by destruct (test_flag bit (nums s v)).
  - destruct Hd as (Hv & Hlo & Hhi). pose proof (Hs v _ Hv) as Hr. cbn in Hr. subst page.
    rewrite text_of_whole, signed_reads by (try apply signed_chars; lia).
    split_and!; [done|by left|]. apply same_values_num; [done|]. rewrite s32_small by lia. by apply BOUND_inside.
  - destruct Hd as (Hv & -> & Hhi). pose proof (Hs v _ Hv) as Hr. cbn in Hr. subst page.
    rewrite text_of_whole, decimal_reads by (try (eapply Forall_impl; [apply unsigned_chars|by intros ? []]); lia).
    split_and!; [done|by left|]. apply same_values_num; [done|]. by apply BOUND_inside.
  - destruct Hd as (Hv & Hlo & Hhi). pose proof (Hs v _ Hv) as Hr. cbn in Hr. subst page.
    rewrite text_of_whole, signed_reads by (try apply signed_chars; lia).
    split_and!; [done|by left|]. apply same_values_num; [done|]. by apply BOUND_inside.
  - destruct Hd as (size & Hv & Ha & Hm & Hsz). destruct Hp as (str & Hstr & ->).
    unfold wp, bind. rewrite store_string_at by (unfold PAGE_SIZE in Ha; lia). rewrite S.
    destruct (stored_string_same (strs s v) m str Hm Hstr (Hroom str Hstr)) as (a & -> & Hla & Hz).
    split_and!; [done|by right|]. split; [by simpl; rewrite N|]. intros v'. simpl.
    destruct (decide (v' = v)) as [->|]; [|by rewrite fn_lookup_insert_ne]. rewrite fn_lookup_insert. by rewrite Hz.
Qed.

(** C30: writing back to a file what was read from it is accepted, returns the
    length that was read, and leaves every variable with the value it had,
    negative numbers, flags and strings included; a string needs one byte of
    room more than it takes, for the newline. *)
Theorem sysfs_read_write_back (e : toi_sysfs_data) (s : sysfs_state W) :
  entry_typed G (data e) -> is_custom (data e) = false -> well_typed G s -> room_for_newline s (data e) ->
  wp (toi_attr_show calls e)
    (fun '(r, page) s1 => wp (toi_attr_store calls e page) (fun r' s2 => r' = r /\ same_values s s2) s1) s.
Proof using All.
  intros He Hc Hs Hroom.
  eapply wp_mono; [apply (show_quiet e s (fun r page => r = Z.of_nat (length page) /\ shown s (data e) page))|].
  - intros s1 H1. eapply wp_mono; [apply (show_value_shown G calls (data e) s1); [done|done|]|].
    + intros v t Hv. specialize (Hs v t Hv). destruct H1 as [N S]. unfold has_type. by rewrite N, S.
    + intros [r page] s' (-> & -> & Hp). split_and!; [done|done|]. destruct H1 as [N S]. unfold shown in *. by rewrite N, S in Hp.
  - intros [r page] s1 (H1 & -> & Hp).
    eapply wp_mono; [apply (store_quiet e page s1 (fun r n a => r = Z.of_nat (length page) /\ same_values s (SysfsState n a (world s))))|].
    + intros s2 H2. eapply wp_mono; [eapply (store_value_shown (data e) page s s2); eauto using same_vars_trans|].
      intros [r temp] s3 (-> & Hr & Hv). split; [done|]. split; [|exact Hv].
      destruct Hr as [->| ->]; [done|]. by destruct (_ =? 0) eqn:E; breflect.
    + intros r s2 [-> Hv]. split; [done|exact Hv].
Qed.
(** A fault of the switch is a fault of the handler. *)
Lemma store_faults e my_buf s :
  (forall s1, same_vars s s1 -> store_value calls (data e) my_buf s1 = None) -> toi_attr_store calls e my_buf s = None.
Proof using QuietCalls0.
  intros Hv. unfold toi_attr_store.
  destruct (wp_returns _ _ _ (quiet_start (Z.land (flags e) SYSFS_HIBERNATE_OR_RESUME) s)) as (s1 & r & E & -> & H1).
  rewrite (bind_step _ _ _ _ _ E). cbn [Z.eqb negb].
  destruct (wp_returns _ _ _ (wp_when_quiet (has (flags e) SYSFS_NEEDS_SM_FOR_WRITE) _ _ (quiet_prepare s1))) as (s2 & [] & E2 & H2).
  rewrite (bind_step _ _ _ _ _ E2). unfold bind at 1. by rewrite Hv by (by eapply same_vars_trans).
Qed.

(** C31: a write to a string file stays inside the array exactly when the text
    is shorter than the array: whatever the maximum length of the entry, a
    longer text is stored beyond the end (its NUL is put at the length of the
    text, not of what was copied). *)
Theorem string_write_bounds (e : toi_sysfs_data) (my_buf : list Z) (s : sysfs_state W) (v m : Z) :
  data e = TOI_SYSFS_DATA_STRING v m -> v <> 0 -> 0 <= m ->
  (toi_attr_store calls e my_buf s = None <-> (length (strs s v) <= length my_buf)%nat).
Proof using QuietCalls0.
  intros He Hv Hm. split.
  - intros Hnone. destruct (decide (length (strs s v) <= length my_buf)%nat); [done|]. exfalso.
    pose proof (store_quiet e my_buf s (fun _ _ _ => True)) as Hok. unfold wp at 2 in Hok. rewrite Hnone in Hok.
    apply Hok. intros s1 [N S]. rewrite He. cbn [store_value]. unfold wp, bind. rewrite store_string_at, S by done.
    by destruct (stored_string_fits (strs s v) m my_buf Hm ltac:(lia)) as (a & -> & _).
  - intros Hl. apply store_faults. intros s1 [N S]. rewrite He. cbn [store_value]. unfold bind.
    by rewrite store_string_at, S, stored_string_overrun by done.
Qed.

(** A long that does not parse is cleared, whatever the range of its entry. *)
Lemma failed_write_clears e my_buf s v lo hi :
  data e = TOI_SYSFS_DATA_UL v lo hi -> strict_strtoul (text_of my_buf) 0 = None ->
  wp (toi_attr_store calls e my_buf) (fun r s' => r = - EINVAL /\ nums s' v = 0) s.
Proof using QuietCalls0.
  intros He Hp. apply (store_quiet e my_buf s (fun r n _ => r = - EINVAL /\ n v = 0)). intros s1 _.
  rewrite He. cbn [store_value]. rewrite Hp. cbn. by rewrite fn_lookup_insert.
Qed.
End Quiet.

(** ** Some of the kernel's entries *)

Module Tree.
(** Nothing else going on. *)
Definition idle : sysfs_calls unit :=
  SysfsCalls unit (fun _ => ret 0) (fun _ => ret tt) (ret tt) (ret tt) (fun _ _ => ret (0, []))
    (fun _ my_buf => ret (Z.of_nat (length my_buf))) (fun _ _ => ret tt) (ret 0) (fun _ => ret tt).

#[global] Instance idle_quiet : QuietCalls idle.
Proof. split; done. Qed.

#[global] Instance idle_typed G : TypedCalls G idle.
Proof. split; done. Qed.

(** [image_size_limit], [wake_alarm_dir] and [toi_action] at three addresses. *)
Definition types (v : Z) : option var_type :=
  if v =? 8192 then Some (Range (-2) (2 ^ 31 - 1))
  else if v =? 12288 then Some (Text 256) else if v =? 16384 then Some Bits else None.

Definition image_size_limit : toi_sysfs_data :=
  SysfsData 0 (TOI_SYSFS_DATA_INTEGER 8192 (-2) (2 ^ 31 - 1)) None.

Definition wake_alarm_dir : toi_sysfs_data := SysfsData 0 (TOI_SYSFS_DATA_STRING 12288 256) None.

Definition start : sysfs_state unit :=
  SysfsState (fun v => if v =? 8192 then -2 else 0) (fun v => if v =? 12288 then 114 :: 116 :: 99 :: repeat 0 253 else []) tt.

Lemma start_typed : well_typed types start.
Proof.
  intros v t. unfold types. destruct (v =? 8192) eqn:E1; [|destruct (v =? 12288) eqn:E2; [|destruct (v =? 16384) eqn:E3]];
    intros [= <-]; breflect; subst; simpl; [lia| |lia]. split; [done|]. by exists [114; 116; 99].
Qed.
End Tree.


Lemma sysfs_read_write_back_witness :
  wp (toi_attr_show Tree.idle Tree.wake_alarm_dir)
    (fun '(r, page) s1 =>
       wp (toi_attr_store Tree.idle Tree.wake_alarm_dir page) (fun r' s2 => r' = r /\ same_values Tree.start s2) s1) Tree.start.
Proof.
  apply (sysfs_read_write_back Tree.idle Tree.types Tree.wake_alarm_dir Tree.start); [|done|apply Tree.start_typed|].
  - exists 256%nat. unfold PAGE_SIZE. by repeat split.
  - intros str Hstr. injection Hstr as <-. simpl. lia.
Defined.

(** A text of 256 characters fits the maximum length of [wake_alarm_dir] and
    still overruns it. *)
Lemma string_write_bounds_witness :
  toi_attr_store Tree.idle Tree.wake_alarm_dir (repeat 97 256) Tree.start = None <->
  (length (strs Tree.start 12288%Z) <= length (repeat 97 256))%nat.
Proof. apply (string_write_bounds Tree.idle Tree.wake_alarm_dir (repeat 97 256) Tree.start 12288 256); [done|lia|lia]. Defined.

(** ** The directory *)

Lemma filter_id {A} (P : A -> Prop) `{!forall x, Decision (P x)} (l : list A) : Forall P l -> filter P l = l.
Proof. induction 1; [done|]. rewrite filter_cons_True by done. by f_equal. Qed.

Lemma filter_none {A} (P : A -> Prop) `{!forall x, Decision (P x)} (l : list A) : Forall (fun x => ~ P x) l -> filter P l = [].
Proof. induction 1; [done|]. by rewrite filter_cons_False. Qed.

Section Directory.
Context (new_kobject : directory -> option nat) (create_result : directory -> nat -> nat -> Z) (params : list nat).

#[local] Abbreviation register := (toi_register_sysfs_file new_kobject create_result params).

(** Once the directory is there the depth is of no account. *)
Lemma register_initialised fuel kobj file s :
  toi_sysfs_initialised s = true -> register fuel kobj file s = sysfs_create_file create_result kobj file s.
Proof. intros Hi. destruct fuel; simpl; unfold bind, get; by rewrite Hi. Qed.

(** Files of the new directory are added to those that are there. *)
Lemma register_all fuel k l s :
  toi_sysfs_initialised s = true ->
  exists fs, Forall (fun e => exists f, f ∈ l /\ e = (k, f)) fs /\
    foldr (fun file rest => register fuel (Some k) file ;;; rest) (ret tt) l s =
    Some (s {{ files := fs ++ files s }}, tt).
Proof.
  revert s. induction l as [|file l IH]; intros s Hi.
  { exists []. split; [constructor|]. by destruct s. }
  cbn [foldr]. unfold bind at 1. rewrite register_initialised by done. unfold sysfs_create_file.
  set (s1 := if create_result s k file =? 0 then _ else s).
  assert (toi_sysfs_initialised s1 = true) as Hi1 by (unfold s1; by destruct (_ =? 0)).
  destruct (IH s1 Hi1) as (fs & Hfs & E). rewrite E.
  assert (exists f1, files s1 = f1 ++ files s /\ f1 ∈ [[]; [(k, file)]] /\ s1 = s {{ files := f1 ++ files s }}) as (f1 & -> & Hf1 & ->).
  { unfold s1. destruct (_ =? 0); [exists [(k, file)]|exists []]; split_and!; [done|set_solver|done|done|set_solver|by destruct s]. }
  exists (fs ++ f1). split; [|by rewrite <- app_assoc].
  apply Forall_app. split; [eapply Forall_impl; [exact Hfs|]; intros e (f & Hf & ->); exists f; set_solver|].
  set_unfold. destruct Hf1 as [->|[->|[]]]; repeat constructor. exists file. by split; [left|].
Qed.

Lemma unregister_all k l s :
  exists fs, foldr (fun file rest => toi_unregister_sysfs_file k file ;;; rest) (ret tt) l s =
    Some (s {{ files := fs }}, tt) /\ fs = filter (fun e => ~ (e.1 = k /\ e.2 ∈ l)) (files s).
Proof.
  revert s. induction l as [|file l IH]; intros s.
  { exists (files s). split; [by destruct s|]. symmetry. apply filter_id, Forall_forall. set_solver. }
  cbn [foldr]. unfold toi_unregister_sysfs_file at 1, bind at 1, modify.
  destruct (IH (s {{ files := filter (fun e => e <> (k, file)) (files s) }})) as (fs & E & Hfs). exists fs. split; [exact E|].
  rewrite Hfs. cbn. rewrite list_filter_filter. apply list_filter_iff. intros [k' f']. simpl. set_solver.
Qed.
(** Initialising creates a directory and files in it only, whatever of it
    fails; a second time does nothing; and leaving removes them all. *)
Lemma sysfs_init_exit s k :
  toi_sysfs_initialised s = false -> new_kobject s = Some k -> k ∉ directories s ->
  Forall (fun e => e.1 <> k) (files s) ->
  exists s1, toi_sysfs_init new_kobject create_result params s = Some (s1, 0) /\
    toi_sysfs_init new_kobject create_result params s1 = Some (s1, 0) /\ directories s1 = k :: directories s /\
    wp (toi_sysfs_exit params) (fun _ s2 => files s2 = files s /\ directories s2 = directories s /\
      toi_sysfs_initialised s2 = false) s1.
Proof.
  intros Hi Hk Hd Hf. set (s0 := Directory true (Some k) (k :: directories s) (files s)).
  destruct (register_all 1 k params s0 eq_refl) as (fs & Hfs & E).
  exists (s0 {{ files := fs ++ files s }}). unfold toi_sysfs_init.
  split; [|split; [done|split; [done|]]].
  { erewrite bind_step; [done|]. unfold toi_initialise_sysfs. erewrite bind_step by reflexivity. rewrite Hi.
    erewrite bind_step by (unfold kobject_create_and_add; by rewrite Hk). do 2 erewrite bind_step by reflexivity. exact E. }
  unfold toi_sysfs_exit, toi_cleanup_sysfs. apply wp_bind. cbn [wp get toi_sysfs_initialised s0 set_field negb].
  apply wp_bind. cbn [wp get tuxonice_kobj]. apply wp_bind.
  match goal with |- wp _ _ ?st => destruct (unregister_all k params st) as (fs' & E' & Hfs') end.
  unfold wp at 1. rewrite E'.
  change (fs' = files s /\ filter (fun k' => k' <> k) (k :: directories s) = directories s /\ false = false).
  split_and!; [|by rewrite filter_cons_False, filter_id by (try apply Forall_forall; set_solver)|done].
  rewrite Hfs'. cbn [files]. rewrite filter_app, filter_none, filter_id; [done| |].
  - eapply Forall_impl; [exact Hf|]. simpl. tauto.
  - eapply Forall_impl; [exact Hfs|]. intros e (f & Hf' & ->). simpl. tauto.
Qed.
End Directory.
