(* ===== verification/AllocDebug.v ===== *)
(** * Allocation debugging

    kernel/power/tuxonice_alloc.c: the wrappers of the allocator that count
    what each path of TuxOnIce allocates and frees, can make one path fail
    once, and remember the peak.  The allocator itself is a parameter: any
    function that hands out addresses (0 for none), and any function that
    takes them back. *)

From S2P Require Import Prelude.
From stdpp Require Import numbers base list functions.
#[local] Open Scope Z_scope.
#[local] Open Scope step_scope.

Definition TOI_ALLOC_PATHS : Z := 39.

(** The counters of the paths are arrays; [allocator] is what the functions
    of the kernel's own allocator act on. *)
Record alloc_state (W : Type) := AllocState {
  enabled : bool;
  get_max_mem_allocd : bool;     (* the action TOI_GET_MAX_MEM_ALLOCD *)
  toi_fail_num : Z;
  toi_alloc_count : Z -> Z;
  toi_free_count : Z -> Z;
  toi_test_count : Z -> Z;
  toi_fail_count : Z -> Z;
  toi_cur_allocd : Z -> Z;
  toi_max_allocd : Z -> Z;
  cur_allocd : Z;
  max_allocd : Z;
  allocator : W
}.
Arguments AllocState {W}.
Arguments enabled {W} _.
Arguments get_max_mem_allocd {W} _.
Arguments toi_fail_num {W} _.
Arguments toi_alloc_count {W} _ _.
Arguments toi_free_count {W} _ _.
Arguments toi_test_count {W} _ _.
Arguments toi_fail_count {W} _ _.
Arguments toi_cur_allocd {W} _ _.
Arguments toi_max_allocd {W} _ _.
Arguments cur_allocd {W} _.
Arguments max_allocd {W} _.
Arguments allocator {W} _.

#[export] Instance eta_alloc_state {W} : Eta (alloc_state W) := fun s =>
  AllocState (enabled s) (get_max_mem_allocd s) (toi_fail_num s) (toi_alloc_count s) (toi_free_count s)
    (toi_test_count s) (toi_fail_count s) (toi_cur_allocd s) (toi_max_allocd s) (cur_allocd s) (max_allocd s)
    (allocator s).

(** One more or less in an array of counters. *)
Definition count_by (d i : Z) (a : Z -> Z) : Z -> Z := <[i := s32 (a i + d)]> a.

Section Wrappers.
Context {W : Type}.

#[local] Abbreviation C := (M (alloc_state W)).

(** An index outside of the arrays. *)
Definition in_paths (fail_num : Z) : bool := (0 <=? fail_num) && (fail_num <? TOI_ALLOC_PATHS).

(** Whether the macro [MIGHT_FAIL] returns from the function. *)
Definition MIGHT_FAIL (fail_num : Z) : C bool := fun s =>
  if TOI_ALLOC_PATHS <=? fail_num then None
  else if fail_num =? toi_fail_num s then
    if in_paths fail_num then
      Some (s {{ toi_test_count := count_by 1 fail_num (toi_test_count s); toi_fail_num := 0 }}, true)
    else None
  else Some (s, false).

(** The loop that takes the peak. *)
Definition copy_paths (from to : Z -> Z) : Z -> Z :=
  foldl (fun a i => <[i := from i]> a) to (seqZ 0 TOI_ALLOC_PATHS).

Definition alloc_update_stats (fail_num result : Z) : C unit := fun s =>
  if negb (in_paths fail_num) then None
  else if result =? 0 then Some (s {{ toi_fail_count := count_by 1 fail_num (toi_fail_count s) }}, tt)
  else
    let s := s {{ toi_alloc_count := count_by 1 fail_num (toi_alloc_count s) }} in
    if negb (get_max_mem_allocd s) then Some (s, tt)
    else
      let s := s {{ toi_cur_allocd := count_by 1 fail_num (toi_cur_allocd s);
                    cur_allocd := s32 (cur_allocd s + 1) }} in
      if cur_allocd s >? max_allocd s then
        Some (s {{ toi_max_allocd := copy_paths (toi_cur_allocd s) (toi_max_allocd s);
                   max_allocd := cur_allocd s }}, tt)
      else Some (s, tt).

Definition free_update_stats (fail_num : Z) : C unit := fun s =>
  if negb (in_paths fail_num) then None
  else
    let s := s {{ toi_free_count := count_by 1 fail_num (toi_free_count s) }} in
    if negb (get_max_mem_allocd s) then Some (s, tt)
    else Some (s {{ cur_allocd := s32 (cur_allocd s - 1);
                    toi_cur_allocd := count_by (-1) fail_num (toi_cur_allocd s) }}, tt).

(** The shape of [toi_kzalloc], [toi_get_free_pages], [toi_alloc_page] and
    [toi_get_zeroed_page] around the function of the allocator each calls. *)
Definition counted_alloc (fail_num : Z) (alloc : W -> W * Z) : C Z :=
  on <-- get enabled ;;
  failing <-- (if on : bool then MIGHT_FAIL fail_num else ret false) ;;
  if failing : bool then ret 0 else
  result <-- (fun s => Some (s {{ allocator := (alloc (allocator s)).1 }}, (alloc (allocator s)).2)) ;;
  on <-- get enabled ;;
  (if on : bool then alloc_update_stats fail_num result else ret tt) ;;;
  ret result.

(** The shape of [toi_kfree], [toi_free_page], [toi__free_page] and [toi_free_pages]. *)
Definition counted_free (fail_num : Z) (free : Z -> W -> W) (arg : Z) : C unit :=
  on <-- get enabled ;;
  (if negb (arg =? 0) && on then free_update_stats fail_num else ret tt) ;;;
  modify (fun s => s {{ allocator := free arg (allocator s) }}).

(** The functions of the allocator. *)
Context (kzalloc : Z -> Z -> W -> W * Z) (__get_free_pages : Z -> Z -> W -> W * Z)
  (alloc_page : Z -> W -> W * Z) (get_zeroed_page : Z -> W -> W * Z)
  (kfree free_page __free_page : Z -> W -> W) (__free_pages : Z -> Z -> W -> W).

Definition toi_kzalloc (fail_num size flags : Z) : C Z := counted_alloc fail_num (kzalloc size flags).
Definition toi_get_free_pages (fail_num mask order : Z) : C Z := counted_alloc fail_num (__get_free_pages mask order).
Definition toi_alloc_page (fail_num mask : Z) : C Z := counted_alloc fail_num (alloc_page mask).
Definition toi_get_zeroed_page (fail_num mask : Z) : C Z := counted_alloc fail_num (get_zeroed_page mask).
Definition toi_kfree (fail_num arg : Z) : C unit := counted_free fail_num kfree arg.
Definition toi_free_page (fail_num virt : Z) : C unit := counted_free fail_num free_page virt.
Definition toi__free_page (fail_num page : Z) : C unit := counted_free fail_num __free_page page.
Definition toi_free_pages (fail_num page order : Z) : C unit :=
  counted_free fail_num (__free_pages order) page.

(** The lines of the report: the path, its allocations, frees, tests and
    failures, and its part of the peak. *)
Definition toi_alloc_print_debug_stats (s : alloc_state W) : list (Z * (Z * Z * Z * Z * Z)) :=
  if negb (enabled s) then []
  else
    map (fun i => (i, (toi_alloc_count s i, toi_free_count s i, toi_test_count s i, toi_fail_count s i, toi_max_allocd s i)))
      (filter (fun i => toi_alloc_count s i <> toi_free_count s i) (seqZ 0 TOI_ALLOC_PATHS)).

(** Clearing an array path by path. *)
Definition clear_paths (a : Z -> Z) : Z -> Z := copy_paths (fun _ => 0) a.

Definition toi_alloc_initialise (starting_cycle : bool) : C Z := fun s =>
  Some (if starting_cycle && enabled s then
    s {{ toi_alloc_count := clear_paths (toi_alloc_count s);
         toi_free_count := clear_paths (toi_free_count s);
         toi_test_count := clear_paths (toi_test_count s);
         toi_fail_count := clear_paths (toi_fail_count s);
         toi_cur_allocd := clear_paths (toi_cur_allocd s);
         toi_max_allocd := clear_paths (toi_max_allocd s);
         max_allocd := 0;
         cur_allocd := 0 }}
  else s, 0).
End Wrappers.
