(* ===== verification/AllocDebugFacts.v ===== *)
(** * What the allocation counters say

    A cycle's client takes blocks on paths and gives back blocks it holds, on
    the path it took them on.  However the allocator answers and whichever path
    is made to fail, the report at the end lists exactly the paths with blocks
    still held, and the peak is that of the run, with its parts. *)

From S2P Require Import Prelude AllocDebug.
From stdpp Require Import numbers base list functions sets.
#[local] Open Scope Z_scope.
#[local] Open Scope step_scope.

Lemma copy_paths_at from to i : copy_paths from to i = if in_paths i then from i else to i.
Proof.
  unfold copy_paths. assert (forall l a, foldl (fun a i => <[i := from i]> a) a l i = if decide (i ∈ l) then from i else a i) as ->.
  { induction l as [|j l IH]; intros a; cbn [foldl]; [done|]. rewrite IH.
    destruct (decide (i ∈ l)), (decide (i ∈ j :: l)); try done; try set_solver.
    - assert (i = j) as -> by set_solver. apply fn_lookup_insert.
    - apply fn_lookup_insert_ne. set_solver. }
  unfold in_paths. destruct (decide (i ∈ seqZ 0 TOI_ALLOC_PATHS)) as [Hi|Hi]; rewrite elem_of_seqZ in Hi;
    destruct (0 <=? i) eqn:E1, (i <? TOI_ALLOC_PATHS) eqn:E2; breflect; simpl; try done; lia.
Qed.

Lemma count_by_at d i a j : count_by d i a j = if decide (j = i) then s32 (a i + d) else a j.
Proof.
  unfold count_by. destruct (decide (j = i)) as [->|]; [apply fn_lookup_insert|by apply fn_lookup_insert_ne].
Qed.

Section Client.
Context {W : Type}.

(** Take a block on a path, or give back the block at a place in the list. *)
Inductive alloc_op : Type :=
| Take (path : Z) (alloc : W -> W * Z)
| Give (k : nat) (free : Z -> W -> W).

Definition path_ok (op : alloc_op) : Prop :=
  match op with Take i _ => in_paths i = true | Give _ _ => True end.

(** The blocks held, with their paths, go along with the state. *)
Definition client : Type := alloc_state W * list (Z * Z).

Definition client_step (op : alloc_op) (c : client) : option client :=
  match op with
  | Take i alloc =>
      match counted_alloc i alloc c.1 with
      | Some (s', r) => Some (s', if r =? 0 then c.2 else (i, r) :: c.2)
      | None => None
      end
  | Give k free =>
      match c.2 !! k with
      | None => Some c
      | Some (i, p) =>
          match counted_free i free p c.1 with
          | Some (s', _) => Some (s', delete k c.2)
          | None => None
          end
      end
  end.

Definition run_client (ops : list alloc_op) (c : client) : option client :=
  foldl (fun o op => o ≫= client_step op) (Some c) ops.

Definition held (i : Z) (live : list (Z * Z)) : Z := Z.of_nat (length (filter (fun b => b.1 = i) live)).

Definition total (live : list (Z * Z)) : Z := Z.of_nat (length live).

(** After [n] steps of a cycle. *)
Record counted (n : Z) (c : client) : Prop := {
  c_enabled : enabled c.1 = true;
  c_tracking : get_max_mem_allocd c.1 = true;
  c_live : Forall (fun b => in_paths b.1 = true /\ b.2 <> 0) c.2;
  c_counts i : in_paths i = true ->
    0 <= toi_free_count c.1 i /\ toi_free_count c.1 i + held i c.2 = toi_alloc_count c.1 i /\ toi_alloc_count c.1 i <= n;
  c_current i : in_paths i = true -> toi_cur_allocd c.1 i = held i c.2;
  c_total : cur_allocd c.1 = total c.2 /\ total c.2 <= n;
  c_peak : total c.2 <= max_allocd c.1
}.

(** The peak after a step. *)
Definition peak_after (c c' : client) : Prop :=
  if total c'.2 >? max_allocd c.1
  then max_allocd c'.1 = total c'.2 /\ forall i, in_paths i = true -> toi_max_allocd c'.1 i = held i c'.2
  else max_allocd c'.1 = max_allocd c.1 /\ toi_max_allocd c'.1 = toi_max_allocd c.1.

Lemma held_cons i j p live : held i ((j, p) :: live) = (if decide (i = j) then 1 else 0) + held i live.
Proof.
  unfold held. destruct (decide (i = j)) as [->|].
  - rewrite filter_cons_True by done. simpl. lia.
  - rewrite filter_cons_False by (simpl; congruence). done.
Qed.

Lemma held_nonneg i live : 0 <= held i live.
Proof. unfold held. lia. Qed.

Lemma held_total i live : held i live <= total live.
Proof. unfold held, total. pose proof (length_filter (fun b : Z * Z => b.1 = i) live). lia. Qed.

Lemma held_perm i l l' : l ≡ₚ l' -> held i l = held i l'.
Proof. intros Hp. unfold held. by rewrite Hp. Qed.
Lemma held_delete i k j p live :
  live !! k = Some (j, p) -> held i live = (if decide (i = j) then 1 else 0) + held i (delete k live).
Proof. intros Hk. rewrite (held_perm i live ((j, p) :: delete k live)) by (by apply delete_Permutation). apply held_cons. Qed.

(** Nothing of the counters that matter changes. *)
Lemma counted_same n c s' :
  counted n c ->
  enabled s' = enabled c.1 -> get_max_mem_allocd s' = get_max_mem_allocd c.1 ->
  toi_free_count s' = toi_free_count c.1 -> toi_alloc_count s' = toi_alloc_count c.1 ->
  toi_cur_allocd s' = toi_cur_allocd c.1 -> cur_allocd s' = cur_allocd c.1 ->
  max_allocd s' = max_allocd c.1 -> toi_max_allocd s' = toi_max_allocd c.1 ->
  counted (n + 1) (s', c.2) /\ peak_after c (s', c.2).
Proof.
  intros [He Ht Hl Hc Hu [Hn Hn'] Hp] E1 E2 E3 E4 E5 E6 E7 E8. split.
  - split; cbn [fst snd]; rewrite ?E1, ?E2, ?E3, ?E4, ?E5, ?E6, ?E7; try done; [|lia].
    intros i Hi. destruct (Hc i Hi) as (? & ? & ?). lia.
  - unfold peak_after. cbn [fst snd]. destruct (total c.2 >? max_allocd c.1) eqn:E; breflect; [lia|done].
Qed.

Lemma total_cons b live : total (b :: live) = total live + 1.
Proof. unfold total. simpl. lia. Qed.

(** A block more. *)
Lemma counted_took n c s' i r :
  counted n c -> n + 1 < 2 ^ 31 -> in_paths i = true -> r <> 0 ->
  enabled s' = enabled c.1 -> get_max_mem_allocd s' = get_max_mem_allocd c.1 ->
  toi_free_count s' = toi_free_count c.1 -> toi_alloc_count s' = count_by 1 i (toi_alloc_count c.1) ->
  toi_cur_allocd s' = count_by 1 i (toi_cur_allocd c.1) -> cur_allocd s' = total c.2 + 1 ->
  total c.2 + 1 <= max_allocd s' ->
  counted (n + 1) (s', (i, r) :: c.2).
Proof.
  intros [He Ht Hl Hc Hu [Hn Hn'] Hp] Hlt Hi Hr E1 E2 E3 E4 E5 E6 E7.
  split; cbn [fst snd]; rewrite ?E1, ?E2, ?E3, ?E4, ?E5, ?E6, ?total_cons; try done; [constructor; [split; [exact Hi|exact Hr]|exact Hl]| | |lia].
  - intros j Hj. destruct (Hc j Hj) as (? & ? & ?). pose proof (held_nonneg j c.2).
    rewrite held_cons, count_by_at. destruct (decide (j = i)) as [->|]; [rewrite s32_small|]; lia.
  - intros j Hj. destruct (Hc j Hj) as (? & ? & ?). pose proof (held_nonneg j c.2).
    rewrite held_cons, count_by_at. destruct (decide (j = i)) as [->|]; rewrite Hu by done; [rewrite s32_small|]; lia.
Qed.

Lemma take_counted n i alloc c :
  counted n c -> n + 1 < 2 ^ 31 -> in_paths i = true ->
  exists c', client_step (Take i alloc) c = Some c' /\ counted (n + 1) c' /\ peak_after c c'.
Proof.
  intros Hcnt Hn Hi. pose proof Hcnt as [He Ht Hl Hc Hu [Hcur Hcur'] Hp].
  assert ((TOI_ALLOC_PATHS <=? i) = false) as Hb by (unfold in_paths in Hi; breflect; apply Z.leb_gt; lia).
  unfold client_step, counted_alloc, bind, get, ret. rewrite He. unfold MIGHT_FAIL. rewrite Hb, Hi.
  destruct (i =? toi_fail_num c.1).
  { eexists. split; [done|]. by apply counted_same. }
  cbn. rewrite He. unfold alloc_update_stats. rewrite Hi. cbn [negb].
  destruct ((alloc (allocator c.1)).2 =? 0) eqn:Hr.
  { rewrite Hr. eexists. split; [done|]. by apply counted_same. }
  cbn. rewrite Ht, Hcur. cbn [negb]. rewrite (s32_small (total c.2 + 1)) by (unfold total in *; lia). breflect.
  destruct (total c.2 + 1 >? max_allocd c.1) eqn:Hmax; breflect; cbv iota beta; rewrite (proj2 (Z.eqb_neq _ _) Hr); eexists; (split; [done|]).
  all: match goal with |- counted _ (?s', _) /\ _ =>
    assert (counted (n + 1) (s', (i, (alloc (allocator c.1)).2) :: c.2)) as Hcnt' by (apply counted_took; try done; cbn; lia) end.
  all: split; [exact Hcnt'|]; unfold peak_after; cbn [fst snd]; rewrite total_cons.
  - rewrite (proj2 (Z.gtb_lt _ _)) by lia. split; [done|]. intros j Hj. cbn. rewrite copy_paths_at, Hj.
    exact (c_current _ _ Hcnt' j Hj).
  - rewrite Z.gtb_ltb, (proj2 (Z.ltb_ge _ _)) by lia. done.
Qed.

Lemma give_counted n k free c :
  counted n c -> n + 1 < 2 ^ 31 ->
  exists c', client_step (Give k free) c = Some c' /\ counted (n + 1) c' /\ peak_after c c'.
Proof.
  intros Hcnt Hn. pose proof Hcnt as [He Ht Hl Hc Hu [Hcur Hcur'] Hp]. cbn [client_step].
  destruct (c.2 !! k) as [[i p]|] eqn:Hk.
  2: { exists c. split; [done|]. destruct c. by apply (counted_same n _ _ Hcnt). }
  destruct (proj1 (Forall_lookup _ _) Hl k _ Hk) as [Hi Hpz]. cbn [fst snd] in Hi, Hpz.
  pose proof (length_delete c.2 k (ex_intro _ _ Hk)) as Hdel. apply lookup_lt_Some in Hk as Hlt.
  assert (total (delete k c.2) = total c.2 - 1) as Htot by (unfold total; lia).
  unfold counted_free, bind, get. rewrite He, (proj2 (Z.eqb_neq p 0)) by done. cbn [negb andb].
  unfold free_update_stats. rewrite Hi. cbn. rewrite Ht, Hcur. cbn. rewrite (s32_small (total c.2 - 1)) by (unfold total in *; lia).
  eexists. split; [done|]. split.
  - split; cbn; try done; rewrite ?Htot; [by apply Forall_delete| | |lia|lia].
    + intros j Hj. destruct (Hc j Hj) as (? & E & ?). rewrite (held_delete j k i p) in E by done.
      pose proof (held_nonneg j (delete k c.2)). rewrite count_by_at.
      destruct (decide (j = i)) as [->|]; [rewrite s32_small|]; lia.
    + intros j Hj. destruct (Hc j Hj) as (? & E & ?). rewrite (held_delete j k i p) in E by done.
      pose proof (held_nonneg j (delete k c.2)). rewrite count_by_at, !Hu by done. rewrite (held_delete j k i p) by done.
      destruct (decide (j = i)) as [->|]; [rewrite ?(held_delete i k i p), decide_True, s32_small by (done || lia)|]; lia.
  - unfold peak_after. cbn. rewrite Htot, Z.gtb_ltb, (proj2 (Z.ltb_ge _ _)) by lia. done.
Qed.
Lemma step_counted n op c :
  counted n c -> n + 1 < 2 ^ 31 -> path_ok op ->
  exists c', client_step op c = Some c' /\ counted (n + 1) c' /\ peak_after c c'.
Proof. destruct op; intros; [by apply take_counted|by apply give_counted]. Qed.

Lemma run_snoc ops op c : run_client (ops ++ [op]) c = run_client ops c ≫= client_step op.
Proof. unfold run_client. by rewrite foldl_app. Qed.

(** The peak of a run so far: reached after some of its steps, and passed after none. *)
Definition peak_of (ops : list alloc_op) (c0 c : client) : Prop :=
  (exists k ck, run_client (take k ops) c0 = Some ck /\ max_allocd c.1 = total ck.2 /\
     forall i, in_paths i = true -> toi_max_allocd c.1 i = held i ck.2) /\
  (forall k ck, run_client (take k ops) c0 = Some ck -> total ck.2 <= max_allocd c.1).

Lemma take_snoc_cases {A} k (l : list A) x :
  take k (l ++ [x]) = take k l /\ (k <= length l)%nat \/ take k (l ++ [x]) = l ++ [x].
Proof.
  destruct (decide (k <= length l)%nat); [left; by rewrite take_app_le|right].
  apply take_ge. rewrite length_app. simpl. lia.
Qed.

Lemma peak_snoc ops op c0 c c' :
  run_client ops c0 = Some c -> client_step op c = Some c' ->
  peak_of ops c0 c -> peak_after c c' -> peak_of (ops ++ [op]) c0 c'.
Proof.
  intros Hc Hs [(k & ck & Hk & Hm & Hi) Hle] Hp.
  assert (run_client (ops ++ [op]) c0 = Some c') as Hc' by (by rewrite run_snoc, Hc).
  assert (exists k', take k' (ops ++ [op]) = take k ops) as [k' Ek'].
  { exists (k `min` length ops)%nat. rewrite take_app_le by lia. destruct (decide (k <= length ops)%nat).
    - by rewrite Nat.min_l.
    - by rewrite Nat.min_r, !take_ge by lia. }
  unfold peak_after in Hp. destruct (total c'.2 >? max_allocd c.1) eqn:E; breflect; destruct Hp as [Hp1 Hp2]; split.
  - exists (length (ops ++ [op])), c'. by rewrite take_ge.
  - intros j cj Hj. destruct (take_snoc_cases j ops op) as [[Ej _]|Ej]; rewrite Ej in Hj.
    + specialize (Hle j cj Hj). lia.
    + rewrite Hc' in Hj. injection Hj as <-. lia.
  - exists k', ck. rewrite Ek', Hp1, Hp2. auto.
  - intros j cj Hj. rewrite Hp1. destruct (take_snoc_cases j ops op) as [[Ej _]|Ej]; rewrite Ej in Hj.
    + by apply (Hle j).
    + rewrite Hc' in Hj. by injection Hj as <-.
Qed.

Lemma run_counted ops c0 :
  counted 0 c0 -> peak_of [] c0 c0 -> Forall path_ok ops -> Z.of_nat (length ops) < 2 ^ 31 ->
  exists c, run_client ops c0 = Some c /\ counted (Z.of_nat (length ops)) c /\ peak_of ops c0 c.
Proof.
  intros H0 Hp0. induction ops as [|op ops IH] using rev_ind; intros Hok Hlen; [by exists c0|].
  rewrite length_app in *. cbn [length] in *. apply Forall_app in Hok as [Hok Hop]. apply Forall_inv in Hop.
  destruct IH as (c & Hc & Hcnt & Hp); [done|lia|].
  destruct (step_counted (Z.of_nat (length ops)) op c Hcnt ltac:(lia) Hop) as (c' & Hs & Hcnt' & Hp').
  exists c'. rewrite run_snoc, Hc. split; [done|]. split; [|by eapply peak_snoc].
  by replace (Z.of_nat (length ops + 1)) with (Z.of_nat (length ops) + 1) by lia.
Qed.

(** A line of the report is a path with blocks held. *)
Lemma report_lines n c i :
  counted n c -> i ∈ (toi_alloc_print_debug_stats c.1).*1 <-> exists p, (i, p) ∈ c.2.
Proof.
  intros [He Ht Hl Hc _ _ _]. unfold toi_alloc_print_debug_stats. rewrite He. cbn [negb].
  rewrite <- list_fmap_compose. unfold compose. cbn [fst].
  assert (forall l : list Z, (fun x => x) <$> l = l) as -> by apply list_fmap_id.
  rewrite list_elem_of_filter, elem_of_seqZ. split.
  - intros [Hne Hr]. assert (in_paths i = true) as Hi by (unfold in_paths; apply andb_true_iff; split; [apply Z.leb_le|apply Z.ltb_lt]; lia).
    destruct (Hc i Hi) as (? & ? & ?). assert (0 < held i c.2) as Hh by (pose proof (held_nonneg i c.2); lia).
    unfold held in Hh. destruct (filter _ c.2) as [|[j p] l] eqn:Ef; [simpl in Hh; lia|].
    assert ((j, p) ∈ filter (fun b : Z * Z => b.1 = i) c.2) as Hin by (rewrite Ef; left).
    apply list_elem_of_filter in Hin as [<- Hin]. eauto.
  - intros [p Hp]. destruct (proj1 (Forall_forall _ _) Hl _ Hp) as [Hi _]. cbn [fst] in Hi.
    destruct (Hc i Hi) as (? & ? & ?). split; [|unfold in_paths in Hi; breflect; lia].
    assert ((i, p) ∈ filter (fun b : Z * Z => b.1 = i) c.2) as Hin by (by apply list_elem_of_filter).
    unfold held in *. destruct (filter _ c.2); [set_solver|simpl in *; lia].
Qed.
Lemma fresh_start s :
  enabled s = true -> get_max_mem_allocd s = true ->
  exists s0, toi_alloc_initialise true s = Some (s0, 0) /\ counted 0 (s0, []) /\ peak_of [] (s0, []) (s0, []).
Proof.
  intros He Ht. unfold toi_alloc_initialise. rewrite He. eexists. split; [done|]. split.
  - split; cbn; try done; intros i Hi; unfold clear_paths; rewrite !copy_paths_at, Hi; done.
  - match goal with |- peak_of _ ?c _ => split; [exists 0%nat, c|intros k ck]; rewrite ?take_nil; [|by intros [= <-]] end.
    split; [done|]. split; [done|]. intros i Hi. cbn. unfold clear_paths. by rewrite copy_paths_at, Hi.
Qed.

(** C32: the counters tell the truth.  From the start of a cycle, with the
    debugging and the search for the peak enabled, let the client take and give
    back blocks in any order, the allocator answer as it likes, and any path be
    set to fail.  No step faults, the report lists exactly the paths with
    blocks still held, with as many more allocations than frees as are held,
    and the peak is the largest number of blocks held after any step, each
    path's part being what that path held then. *)
Theorem allocation_stats (ops : list alloc_op) (s : alloc_state W) :
  enabled s = true -> get_max_mem_allocd s = true -> Forall path_ok ops -> Z.of_nat (length ops) < 2 ^ 31 ->
  exists s0 c, toi_alloc_initialise true s = Some (s0, 0) /\ run_client ops (s0, []) = Some c /\
    (forall i, i ∈ (toi_alloc_print_debug_stats c.1).*1 <-> exists p, (i, p) ∈ c.2) /\
    (forall i, in_paths i = true -> toi_alloc_count c.1 i - toi_free_count c.1 i = held i c.2) /\
    peak_of ops (s0, []) c.
Proof.
  intros He Ht Hok Hlen. destruct (fresh_start s He Ht) as (s0 & Hs0 & H0 & Hp0).
  destruct (run_counted ops (s0, []) H0 Hp0 Hok Hlen) as (c & Hc & Hcnt & Hp). exists s0, c.
  split_and!; [done|done|intros i; by eapply report_lines| |apply Hp..].
  intros i Hi. destruct (c_counts _ _ Hcnt i Hi) as (? & ? & ?). lia.
Qed.
End Client.

(** Two blocks on path 10, one of them given back, and path 11 failing once. *)
Module TwoBlocks.
Definition bump (w : Z) : Z * Z := (w + 1, w + 1).

Definition start : alloc_state Z :=
  AllocState true true 11 (fun _ => 7) (fun _ => 5) (fun _ => 0) (fun _ => 0) (fun _ => 0) (fun _ => 0) 3 4 0.

Definition ops : list (@alloc_op Z) :=
  [Take 10 bump; Take 11 bump; Take 10 bump; Give 0 (fun _ w => w)].

Lemma paths : Forall path_ok ops.
Proof. by repeat constructor. Qed.
End TwoBlocks.

Lemma allocation_stats_witness :
  exists s0 c, toi_alloc_initialise true TwoBlocks.start = Some (s0, 0) /\ run_client TwoBlocks.ops (s0, []) = Some c /\
    (forall i, i ∈ (toi_alloc_print_debug_stats c.1).*1 <-> exists p, (i, p) ∈ c.2) /\
    (forall i, in_paths i = true -> toi_alloc_count c.1 i - toi_free_count c.1 i = held i c.2) /\
    peak_of TwoBlocks.ops (s0, []) c.
Proof. apply (allocation_stats TwoBlocks.ops TwoBlocks.start); [done|done|apply TwoBlocks.paths|reflexivity]. Defined.
