(* ===== verification/Netlink.v ===== *)
(** * Talking to a userspace helper

    kernel/power/tuxonice_netlink.c: the list of helpers, the pool of buffers
    kept for when none can be allocated, sending a message, taking a packet
    apart into messages, and setting a helper up and closing it down.  A packet
    is its bytes.  What the kernel offers (buffers, sockets, tasks) and the
    helper's own handlers are the fields of [nl_calls]; they act on the whole
    state, as the handlers of a message send messages themselves. *)

From S2P Require Import Prelude.
From stdpp Require Import numbers base list functions.
#[local] Open Scope Z_scope.
#[local] Open Scope step_scope.

Definition NLMSG_ALIGN (len : Z) : Z := Z.ldiff (len + 3) 3.
Definition NLMSG_HDRLEN : Z := NLMSG_ALIGN 16.
Definition NLMSG_LENGTH (len : Z) : Z := len + NLMSG_ALIGN NLMSG_HDRLEN.
Definition NLMSG_SPACE (len : Z) : Z := NLMSG_ALIGN (NLMSG_LENGTH len).
Definition NLM_F_ACK : Z := 4.

Definition NETLINK_MSG_READY : Z := 0x10.
Definition NETLINK_MSG_NOFREEZE_ME : Z := 0x16.
Definition NETLINK_MSG_GET_DEBUGGING : Z := 0x19.
Definition NETLINK_MSG_CLEANUP : Z := 0x24.
Definition NETLINK_MSG_NOFREEZE_ACK : Z := 0x27.
Definition NETLINK_MSG_IS_DEBUGGING : Z := 0x28.

(** A buffer to send: a name for it, and the room in it. *)
Record sk_buff := SkBuff { skb_name : Z; skb_tailroom : Z }.

(** The fields of a helper the code acts on; a completion is how often it was
    completed and not waited for. *)
Record user_helper_data := UserHelper {
  nl : bool;
  sock_seq : Z;
  pid : Z;
  pool_level : Z;
  pool_limit : Z;
  emerg_skbs : list sk_buff;
  skb_size : Z;
  netlink_id : Z;
  next : option nat;
  wait_for_process : Z;
  interface_version : Z
}.

#[export] Instance eta_user_helper : Eta user_helper_data := fun u =>
  UserHelper (nl u) (sock_seq u) (pid u) (pool_level u) (pool_limit u) (emerg_skbs u) (skb_size u)
    (netlink_id u) (next u) (wait_for_process u) (interface_version u).

Record nl_state (W : Type) := NlState {
  helpers : nat -> user_helper_data;
  uhd_list : option nat;
  nl_world : W
}.
Arguments NlState {W}.
Arguments helpers {W} _ _.
Arguments uhd_list {W} _.
Arguments nl_world {W} _.

#[export] Instance eta_nl_state {W} : Eta (nl_state W) := fun s =>
  NlState (helpers s) (uhd_list s) (nl_world s).

(** The header of a message. *)
Record nlmsghdr := Nlmsghdr {
  nlmsg_len : Z;
  nlmsg_type : Z;
  nlmsg_flags : Z;
  nlmsg_seq : Z;
  nlmsg_pid : Z
}.

Definition read_nlmsghdr (bytes : list Z) : nlmsghdr :=
  Nlmsghdr (le_val (take 4 bytes)) (le_val (take 2 (drop 4 bytes))) (le_val (take 2 (drop 6 bytes)))
    (le_val (take 4 (drop 8 bytes))) (le_val (take 4 (drop 12 bytes))).

Record nl_calls (W : Type) := NlCalls {
  alloc_skb : Z -> M (nl_state W) (option sk_buff);
  kfree_skb : sk_buff -> M (nl_state W) unit;
  (* the buffer, the sequence number, type and bytes of the message, the task *)
  netlink_unicast : sk_buff -> Z -> Z -> list Z -> Z -> M (nl_state W) unit;
  find_task_by_pid : Z -> M (nl_state W) bool;
  wake_up_and_yield : Z -> M (nl_state W) unit;
  set_nofreeze : Z -> bool -> M (nl_state W) unit;
  netlink_kernel_create : Z -> M (nl_state W) bool;
  netlink_kernel_release : nat -> M (nl_state W) unit;
  netlink_ack : nlmsghdr -> Z -> M (nl_state W) unit;
  launch_userspace_program : nat -> M (nl_state W) Z;
  wait_for_completion_timeout : nat -> M (nl_state W) unit;
  rcv_msg : nat -> nlmsghdr -> list Z -> M (nl_state W) Z;
  not_ready : nat -> M (nl_state W) unit
}.
Arguments alloc_skb {W} _ _.
Arguments kfree_skb {W} _ _.
Arguments netlink_unicast {W} _ _ _ _ _ _.
Arguments find_task_by_pid {W} _ _.
Arguments wake_up_and_yield {W} _ _.
Arguments set_nofreeze {W} _ _ _.
Arguments netlink_kernel_create {W} _ _.
Arguments netlink_kernel_release {W} _ _.
Arguments netlink_ack {W} _ _ _.
Arguments launch_userspace_program {W} _ _.
Arguments wait_for_completion_timeout {W} _ _.
Arguments rcv_msg {W} _ _ _ _.
Arguments not_ready {W} _ _.

Section Netlink.
Context {W : Type} (calls : nl_calls W).

#[local] Abbreviation C := (M (nl_state W)).

(** Change the fields of a helper. *)
Definition update (uhd : nat) (f : user_helper_data -> user_helper_data) : C unit :=
  modify (fun s => s {{ helpers := <[uhd := f (helpers s uhd)]> (helpers s) }}).

Definition uhd_field {A} (uhd : nat) (f : user_helper_data -> A) : C A := get (fun s => f (helpers s uhd)).

(** ** The pool *)

Definition push_skb (skb : sk_buff) (u : user_helper_data) : user_helper_data :=
  u {{ emerg_skbs := skb :: emerg_skbs u }}.

(** At most [pool_limit - pool_level] buffers: [fuel] is that many. *)
Fixpoint fill_loop (fuel : nat) (uhd : nat) : C unit :=
  u <-- uhd_field uhd (fun u => u) ;;
  if negb (pool_level u <? pool_limit u) then ret tt else
  match fuel with
  | O => bug
  | S fuel' =>
      new_skb <-- alloc_skb calls (NLMSG_SPACE (skb_size u)) ;;
      match new_skb with
      | None => ret tt
      | Some skb =>
          update uhd (fun u => (push_skb skb u) {{ pool_level := s32 (pool_level u + 1) }}) ;;;
          fill_loop fuel' uhd
      end
  end.

Definition toi_fill_skb_pool (uhd : nat) : C unit :=
  u <-- uhd_field uhd (fun u => u) ;;
  fill_loop (Z.to_nat (pool_limit u - pool_level u)) uhd.

Definition pop_skb (u : user_helper_data) : user_helper_data :=
  u {{ pool_level := s32 (pool_level u - 1); emerg_skbs := tail (emerg_skbs u) }}.

Definition toi_get_skb (uhd : nat) : C (option sk_buff) :=
  size <-- uhd_field uhd skb_size ;;
  skb <-- alloc_skb calls (NLMSG_SPACE size) ;;
  match skb with
  | Some skb => ret (Some skb)
  | None =>
      pool <-- uhd_field uhd emerg_skbs ;;
      match pool with
      | [] => ret None
      | skb :: _ => update uhd pop_skb ;;; ret (Some skb)
      end
  end.

Definition put_skb (uhd : nat) (skb : sk_buff) : C unit :=
  u <-- uhd_field uhd (fun u => u) ;;
  if pool_level u <? pool_limit u then update uhd (push_skb skb)
  else kfree_skb calls skb.

(** ** Sending *)

Definition toi_send_netlink_message (uhd : nat) (type : Z) (params : list Z) : C unit :=
  p <-- uhd_field uhd pid ;;
  if p =? -1 then ret tt else
  skb <-- toi_get_skb uhd ;;
  match skb with
  | None => ret tt
  | Some skb =>
      if skb_tailroom skb <? NLMSG_SPACE (Z.of_nat (length params)) then put_skb uhd skb
      else
        seq <-- uhd_field uhd sock_seq ;;
        update uhd (fun u => u {{ sock_seq := u32 (sock_seq u + 1) }}) ;;;
        netlink_unicast calls skb seq type params p ;;;
        p <-- uhd_field uhd pid ;;
        t <-- find_task_by_pid calls p ;;
        if t : bool then wake_up_and_yield calls p else ret tt
  end.

Definition send_whether_debugging (uhd : nat) : C unit :=
  toi_send_netlink_message uhd NETLINK_MSG_IS_DEBUGGING [1].

(** ** Messages *)

Definition nl_set_nofreeze (uhd : nat) (p : Z) : C Z :=
  t <-- find_task_by_pid calls p ;;
  if negb t then ret (- EINVAL) else
  set_nofreeze calls p true ;;;
  update uhd (fun u => u {{ pid := s32 p }}) ;;;
  toi_send_netlink_message uhd NETLINK_MSG_NOFREEZE_ACK [] ;;;
  ret 0.

Definition nl_ready (uhd : nat) (version : Z) : C Z :=
  wanted <-- uhd_field uhd interface_version ;;
  if negb (version =? wanted) then not_ready calls uhd ;;; ret (- EINVAL) else
  update uhd (fun u => u {{ wait_for_process := wait_for_process u + 1 }}) ;;;
  ret 0.

(** Freeing the pool, buffer by buffer. *)
Fixpoint free_skbs (pool : list sk_buff) : C unit :=
  match pool with
  | [] => ret tt
  | skb :: pool => kfree_skb calls skb ;;; free_skbs pool
  end.

Definition toi_netlink_close_complete (uhd : nat) : C unit :=
  open <-- uhd_field uhd nl ;;
  (if open : bool then
     netlink_kernel_release calls uhd ;;; update uhd (fun u => u {{ nl := false }})
   else ret tt) ;;;
  pool <-- uhd_field uhd emerg_skbs ;;
  free_skbs pool ;;;
  update uhd (fun u => u {{ emerg_skbs := []; pid := -1 }}).

Definition toi_nl_gen_rcv_msg (uhd : nat) (nlh : nlmsghdr) (bytes : list Z) : C Z :=
  let type := nlmsg_type nlh in
  err <-- rcv_msg calls uhd nlh bytes ;;
  if negb (err =? 1) then ret err else
  p <-- uhd_field uhd pid ;;
  if (type =? NETLINK_MSG_NOFREEZE_ME) && negb (p =? -1) then ret (- EBUSY)
  else if type =? NETLINK_MSG_NOFREEZE_ME then nl_set_nofreeze uhd (nlmsg_pid nlh)
  else if type =? NETLINK_MSG_GET_DEBUGGING then send_whether_debugging uhd ;;; ret 0
  else if type =? NETLINK_MSG_READY then
    if negb (nlmsg_len nlh =? NLMSG_LENGTH 4) then not_ready calls uhd ;;; ret (- EINVAL)
    else nl_ready uhd (le_val (take 4 (drop 16 bytes)))
  else if type =? NETLINK_MSG_CLEANUP then toi_netlink_close_complete uhd ;;; ret 0
  else ret (- EINVAL).

(** ** Packets *)

(** The helper of a protocol: following the list takes [fuel] steps at most,
    [None] when it does not end. *)
Fixpoint find_helper (fuel : nat) (s : nl_state W) (uhd : option nat) (protocol : Z) : option (option nat) :=
  match uhd with
  | None => Some None
  | Some u =>
      if netlink_id (helpers s u) =? protocol then Some (Some u)
      else
        match fuel with
        | O => None
        | S fuel' => find_helper fuel' s (next (helpers s u)) protocol
        end
  end.

(** The messages of a packet, one by one. *)
Fixpoint rcv_loop (fuel : nat) (uhd : nat) (bytes : list Z) : C unit :=
  let len := Z.of_nat (length bytes) in
  if len <? NLMSG_SPACE 0 then ret tt else
  match fuel with
  | O => bug
  | S fuel' =>
      let nlh := read_nlmsghdr bytes in
      if (nlmsg_len nlh <? 16) || (len <? nlmsg_len nlh) then ret tt else
      let rlen := u32 (NLMSG_ALIGN (nlmsg_len nlh)) in
      let rlen := if rlen >? len then len else rlen in
      err <-- toi_nl_gen_rcv_msg uhd nlh bytes ;;
      (if negb (err =? 0) then netlink_ack calls nlh err
       else if negb (Z.land (nlmsg_flags nlh) NLM_F_ACK =? 0) then netlink_ack calls nlh 0
       else ret tt) ;;;
      rcv_loop fuel' uhd (drop (Z.to_nat rlen) bytes)
  end.

(** A packet of a protocol; [fuel] bounds the walk over the helpers. *)
Definition toi_user_rcv_skb (fuel : nat) (protocol : Z) (bytes : list Z) : C unit := fun s =>
  match find_helper fuel s (uhd_list s) protocol with
  | None => None
  | Some None => Some (s, tt)
  | Some (Some uhd) => rcv_loop (length bytes) uhd bytes s
  end.

(** ** Setting up and closing *)

Definition netlink_prepare (uhd : nat) : C Z :=
  head <-- get uhd_list ;;
  update uhd (fun u => u {{ next := head }}) ;;;
  modify (fun s => s {{ uhd_list := Some uhd }}) ;;;
  update uhd (fun u => u {{ sock_seq := 0x42c0ffee }}) ;;;
  id <-- uhd_field uhd netlink_id ;;
  sock <-- netlink_kernel_create calls id ;;
  update uhd (fun u => u {{ nl := sock }}) ;;;
  if negb sock then ret (- ENOMEM) else
  toi_fill_skb_pool uhd ;;;
  ret 0.

Definition toi_netlink_close (uhd : nat) : C unit :=
  p <-- uhd_field uhd pid ;;
  t <-- find_task_by_pid calls p ;;
  (if t : bool then set_nofreeze calls p false else ret tt) ;;;
  toi_send_netlink_message uhd NETLINK_MSG_CLEANUP [].

Definition toi_netlink_setup (uhd : nat) : C Z :=
  toi_netlink_close_complete uhd ;;;
  r <-- netlink_prepare uhd ;;
  if r <? 0 then ret 1 else
  r <-- launch_userspace_program calls uhd ;;
  if r <? 0 then toi_netlink_close_complete uhd ;;; ret 1 else
  wait_for_completion_timeout calls uhd ;;;
  p <-- uhd_field uhd pid ;;
  if p =? -1 then toi_netlink_close_complete uhd ;;; ret 1 else
  ret 0.
End Netlink.
