(* ===== verification/NetlinkFacts.v ===== *)
(** * What the helpers can rely on

    A packet made of messages is taken apart into exactly these messages, and
    any packet at all is dealt with in a bounded number of steps.  A helper
    set up for the second time finds no buffers in its pool, and being put on
    the list again it makes the list circular. *)

From S2P Require Import Prelude Netlink.
From stdpp Require Import numbers base list functions.
#[local] Open Scope Z_scope.
#[local] Open Scope step_scope.

(** ** Alignment *)

Lemma u32_small z : 0 <= z < 2 ^ 32 -> u32 z = z.
Proof. apply Z.mod_small. Qed.

Lemma align_value len : NLMSG_ALIGN len = 4 * ((len + 3) / 4).
Proof.
  unfold NLMSG_ALIGN. change 3 with (Z.ones 2) at 2. rewrite Z.ldiff_ones_r by lia.
  rewrite Z.shiftr_div_pow2, Z.shiftl_mul_pow2 by lia. change (2 ^ 2) with 4. lia.
Qed.

Lemma align_bounds len : len <= NLMSG_ALIGN len < len + 4.
Proof. rewrite align_value. Z.div_mod_to_equations. lia. Qed.

(** ** Messages and packets *)

(** A message as its sender lays it out: header, payload, padding. *)
Record message := Message {
  m_type : Z;
  m_flags : Z;
  m_seq : Z;
  m_pid : Z;
  m_payload : list Z
}.

Definition m_len (m : message) : Z := 16 + Z.of_nat (length (m_payload m)).

Definition header_of (m : message) : nlmsghdr :=
  Nlmsghdr (m_len m) (m_type m) (m_flags m) (m_seq m) (m_pid m).

Definition encode (m : message) : list Z :=
  le_bytes 4 (m_len m) ++ le_bytes 2 (m_type m) ++ le_bytes 2 (m_flags m) ++ le_bytes 4 (m_seq m) ++
  le_bytes 4 (m_pid m) ++ m_payload m ++ repeat 0 (Z.to_nat (NLMSG_ALIGN (m_len m) - m_len m)).

Definition message_ok (m : message) : Prop :=
  m_len m < 2 ^ 32 - 4 /\ 0 <= m_type m < 2 ^ 16 /\ 0 <= m_flags m < 2 ^ 16 /\ 0 <= m_seq m < 2 ^ 32 /\ 0 <= m_pid m < 2 ^ 32.

Lemma length_encode m : Z.of_nat (length (encode m)) = NLMSG_ALIGN (m_len m).
Proof.
  unfold encode. rewrite !length_app, !length_le_bytes, repeat_length. pose proof (align_bounds (m_len m)). unfold m_len in *. lia.
Qed.

Lemma read_encode m rest : message_ok m -> read_nlmsghdr (encode m ++ rest) = header_of m.
Proof.
  intros (Hl & Ht & Hf & Hs & Hp). unfold read_nlmsghdr, encode, header_of. rewrite <- !app_assoc.
  assert (forall n z (l : list Z), take n (le_bytes n z ++ l) = le_bytes n z) as Htake
    by (intros; by rewrite take_app_le, take_ge by (rewrite length_le_bytes; lia)).
  assert (forall n k z (l : list Z), drop (n + k) (le_bytes n z ++ l) = drop k l) as Hdrop.
  { intros. rewrite drop_app_ge by (rewrite length_le_bytes; lia). f_equal. rewrite length_le_bytes. lia. }
  rewrite Htake.
  rewrite (Hdrop 4%nat 0%nat), (Hdrop 4%nat 2%nat), (Hdrop 2%nat 0%nat), (Hdrop 4%nat 4%nat), (Hdrop 2%nat 2%nat), (Hdrop 2%nat 0%nat).
  rewrite (Hdrop 4%nat 8%nat), (Hdrop 2%nat 6%nat), (Hdrop 2%nat 4%nat), (Hdrop 4%nat 0%nat). rewrite !drop_0, !Htake.
  rewrite !le_val_bytes. f_equal; apply Z.mod_small; unfold m_len in *; lia.
Qed.

Section Facts.
Context {W : Type} (calls : nl_calls W).

(** What is done with one message. *)
Definition dispatch (uhd : nat) (nlh : nlmsghdr) (bytes : list Z) : M (nl_state W) unit :=
  err <-- toi_nl_gen_rcv_msg calls uhd nlh bytes ;;
  if negb (err =? 0) then netlink_ack calls nlh err
  else if negb (Z.land (nlmsg_flags nlh) NLM_F_ACK =? 0) then netlink_ack calls nlh 0
  else ret tt.

Definition packet (ms : list message) : list Z := concat (map encode ms).

(** The messages in order, each with its header and what is left of the packet. *)
Fixpoint dispatch_all (uhd : nat) (ms : list message) : M (nl_state W) unit :=
  match ms with
  | [] => ret tt
  | m :: ms' => dispatch uhd (header_of m) (packet ms) ;;; dispatch_all uhd ms'
  end.

Lemma rcv_step fuel uhd bytes s :
  16 <= nlmsg_len (read_nlmsghdr bytes) <= Z.of_nat (length bytes) ->
  Z.of_nat (length bytes) < 2 ^ 32 - 4 ->
  rcv_loop calls (S fuel) uhd bytes s =
  (dispatch uhd (read_nlmsghdr bytes) bytes ;;;
   rcv_loop calls fuel uhd
     (drop (Z.to_nat (Z.min (NLMSG_ALIGN (nlmsg_len (read_nlmsghdr bytes))) (Z.of_nat (length bytes)))) bytes)) s.
Proof.
  intros Hn Hb. cbn [rcv_loop]. change (NLMSG_SPACE 0) with 16. rewrite (proj2 (Z.ltb_ge _ 16)) by lia.
  rewrite (proj2 (Z.ltb_ge _ 16)), (proj2 (Z.ltb_ge (Z.of_nat _) _)) by lia. cbn [orb].
  pose proof (align_bounds (nlmsg_len (read_nlmsghdr bytes))). rewrite u32_small by lia.
  set (a := NLMSG_ALIGN _) in *.
  replace (if a >? Z.of_nat (length bytes) then Z.of_nat (length bytes) else a) with (Z.min a (Z.of_nat (length bytes))).
  2: { destruct (a >? _) eqn:E; breflect; lia. }
  unfold dispatch, bind. destruct (toi_nl_gen_rcv_msg _ _ _ _ s) as [[]|]; [|done]. done.
Qed.

Lemma rcv_packet uhd ms fuel s :
  Forall message_ok ms -> (length ms <= fuel)%nat -> Z.of_nat (length (packet ms)) < 2 ^ 32 - 4 ->
  rcv_loop calls fuel uhd (packet ms) s = dispatch_all uhd ms s.
Proof.
  intros Hms. revert fuel s. induction Hms as [|m ms Hm Hms IH]; intros fuel s Hf Hl; [by destruct fuel|].
  destruct fuel as [|fuel]; [simpl in Hf; lia|]. cbn [length] in Hf.
  change (packet (m :: ms)) with (encode m ++ packet ms) in *. rewrite length_app in Hl.
  pose proof (length_encode m) as He. pose proof (align_bounds (m_len m)).
  rewrite rcv_step by (rewrite ?read_encode, ?length_app by done; cbn [header_of nlmsg_len]; unfold m_len in *; lia).
  rewrite !read_encode by done.
  cbn [header_of nlmsg_len dispatch_all]. rewrite Z.min_l by (rewrite length_app; lia).
  rewrite drop_app_ge by lia. rewrite <- He, Nat2Z.id, Nat.sub_diag, drop_0.
  change (packet (m :: ms)) with (encode m ++ packet ms).
  unfold bind. destruct (dispatch _ _ _ s) as [[s' []]|]; [|done]. apply IH; lia.
Qed.
Lemma packet_longer ms : (length ms <= length (packet ms))%nat.
Proof.
  induction ms as [|m ms IH]; [simpl; lia|]. change (packet (m :: ms)) with (encode m ++ packet ms).
  rewrite length_app. cbn [length]. pose proof (length_encode m). pose proof (align_bounds (m_len m)). unfold m_len in *. lia.
Qed.

(** C33: a packet of messages is taken apart into exactly these messages: the
    helper of the protocol gets every one of them once and in order, with the
    header it was sent with, whatever the payloads and their padding, and
    nothing else happens. *)
Theorem packet_dispatched (fuel uhd : nat) (protocol : Z) (ms : list message) (s : nl_state W) :
  Forall message_ok ms -> Z.of_nat (length (packet ms)) < 2 ^ 32 - 4 ->
  find_helper fuel s (uhd_list s) protocol = Some (Some uhd) ->
  toi_user_rcv_skb calls fuel protocol (packet ms) s = dispatch_all uhd ms s.
Proof.
  intros Hms Hl Hf. unfold toi_user_rcv_skb. rewrite Hf. apply rcv_packet; [done|apply packet_longer|done].
Qed.

(** ** Any packet *)

(** The calls a message leads to return. *)
Class NlReturns : Prop := {
  ret_alloc n : returns (alloc_skb calls n);
  ret_free b : returns (kfree_skb calls b);
  ret_unicast b q ty ps p : returns (netlink_unicast calls b q ty ps p);
  ret_find p : returns (find_task_by_pid calls p);
  ret_wake p : returns (wake_up_and_yield calls p);
  ret_nofreeze p b : returns (set_nofreeze calls p b);
  ret_release u : returns (netlink_kernel_release calls u);
  ret_ack h e : returns (netlink_ack calls h e);
  ret_rcv u h b : returns (rcv_msg calls u h b);
  ret_not_ready u : returns (not_ready calls u)
}.

Context {Hret : NlReturns}.

#[local] Hint Resolve ret_alloc ret_free ret_unicast ret_find ret_wake ret_nofreeze ret_release ret_ack ret_rcv
  ret_not_ready : returns.

Ltac returning :=
  repeat match goal with
  | |- returns (bind _ _) => apply returns_bind; [|intros]
  | |- returns (if _ then _ else _) => case_match
  | |- returns (match _ with _ => _ end) => case_match
  | |- returns (ret _) => apply returns_ret
  | |- returns (get _) => apply returns_get
  | |- returns (uhd_field _ _) => apply returns_get
  | |- returns (modify _) => apply returns_modify
  | |- returns (update _ _) => apply returns_modify
  | |- _ => solve [auto with returns]
  end.

Lemma free_returns l : returns (free_skbs calls l).
Proof using Hret. induction l; cbn [free_skbs]; returning. Qed.

Lemma send_returns u ty ps : returns (toi_send_netlink_message calls u ty ps).
Proof using Hret. unfold toi_send_netlink_message, toi_get_skb, put_skb. returning. Qed.

#[local] Hint Resolve free_returns send_returns : returns.

Lemma dispatch_returns u h b : returns (dispatch u h b).
Proof using Hret.
  unfold dispatch, toi_nl_gen_rcv_msg, nl_set_nofreeze, send_whether_debugging, nl_ready, toi_netlink_close_complete.
  returning.
Qed.

(** However it is made up, a packet is dealt with in at most as many steps as it has bytes. *)
Lemma rcv_returns fuel uhd bytes :
  (length bytes <= fuel)%nat -> Z.of_nat (length bytes) < 2 ^ 32 - 4 -> returns (rcv_loop calls fuel uhd bytes).
Proof using Hret.
  revert bytes. induction fuel as [|fuel IH]; intros bytes Hf Hb s.
  { destruct bytes; [done|simpl in Hf; lia]. }
  destruct (decide (16 <= nlmsg_len (read_nlmsghdr bytes) <= Z.of_nat (length bytes))) as [Hn|Hn].
  - unfold wp. rewrite rcv_step by done. apply (wp_bind _ _ (fun _ _ => True)).
    eapply wp_mono; [apply dispatch_returns|]. intros _ s' _.
    pose proof (align_bounds (nlmsg_len (read_nlmsghdr bytes))).
    apply IH; rewrite length_drop; lia.
  - cbn [rcv_loop]. destruct (_ <? NLMSG_SPACE 0); [done|].
    destruct ((nlmsg_len _ <? 16) || _) eqn:E; [done|]. breflect. lia.
Qed.
End Facts.

(** ** Setting up twice *)

Section Twice.
Context {W : Type} (calls : nl_calls W).

Definition same_helpers (s s' : nl_state W) : Prop := helpers s' = helpers s /\ uhd_list s' = uhd_list s.

(** The kernel's own part: buffers can be had, and the helpers are left alone. *)
Class Plenty : Prop := {
  p_alloc n s : wp (alloc_skb calls n) (fun r s' => (exists skb, r = Some skb) /\ same_helpers s s') s;
  p_free b s : wp (kfree_skb calls b) (fun _ => same_helpers s) s;
  p_create i s : wp (netlink_kernel_create calls i) (fun _ => same_helpers s) s;
  p_release u s : wp (netlink_kernel_release calls u) (fun _ => same_helpers s) s
}.

Context {HP : Plenty}.

Lemma same_helpers_trans s1 s2 s3 : same_helpers s1 s2 -> same_helpers s2 s3 -> same_helpers s1 s3.
Proof. intros [] []. split; congruence. Qed.

(** The list and what identifies a helper. *)
Definition same_list (u : nat) (s s' : nl_state W) : Prop :=
  uhd_list s' = uhd_list s /\ next (helpers s' u) = next (helpers s u) /\
  netlink_id (helpers s' u) = netlink_id (helpers s u) /\ pool_limit (helpers s' u) = pool_limit (helpers s u).

(** Filling goes on to the limit. *)
Lemma fill_spec fuel u s :
  pool_limit (helpers s u) < 2 ^ 31 -> 0 <= pool_level (helpers s u) <= pool_limit (helpers s u) ->
  Z.to_nat (pool_limit (helpers s u) - pool_level (helpers s u)) = fuel ->
  wp (fill_loop calls fuel u)
    (fun _ s' => same_list u s s' /\ pool_level (helpers s' u) = pool_limit (helpers s u)) s.
Proof using HP.
  revert s. induction fuel as [|fuel IH]; intros s Hlim Hlev Hf; cbn [fill_loop]; apply wp_bind; unfold uhd_field at 1; cbn [wp get].
  - rewrite (proj2 (Z.ltb_ge _ _)) by lia. split; [done|lia].
  - rewrite (proj2 (Z.ltb_lt _ _)) by lia. cbn [negb]. apply wp_bind. eapply wp_mono; [apply p_alloc|].
    intros r s1 ((skb & ->) & [H1 L1]). apply wp_bind. unfold update, modify, wp.
    set (s2 := s1 {{ helpers := _ }}).
    assert (helpers s2 u = (push_skb skb (helpers s u)) {{ pool_level := s32 (pool_level (helpers s u) + 1) }}) as E.
    { unfold s2. simpl. rewrite fn_lookup_insert. by rewrite H1. }
    assert (pool_level (helpers s2 u) = pool_level (helpers s u) + 1) as El by (rewrite E; simpl; apply s32_small; lia).
    assert (pool_limit (helpers s2 u) = pool_limit (helpers s u)) as Em by (by rewrite E).
    eapply wp_mono; [apply (IH s2); rewrite ?Em, ?El; lia|].
    intros [] s3 [(L & N & I & Lm) Hl]. split; [|by rewrite Hl]. split_and!; [by rewrite L|by rewrite N, E|by rewrite I, E|by rewrite Lm].
Qed.

Lemma free_skbs_spec l s : wp (free_skbs calls l) (fun _ => same_helpers s) s.
Proof using HP.
  revert s. induction l as [|b l IH]; intros s; cbn [free_skbs]; [done|]. apply wp_bind. eapply wp_mono; [apply p_free|].
  intros [] s1 H1. eapply wp_mono; [apply IH|]. intros [] s2 H2. by eapply same_helpers_trans.
Qed.
Lemma close_spec u s :
  wp (toi_netlink_close_complete calls u)
    (fun _ s' => same_list u s s' /\ pool_level (helpers s' u) = pool_level (helpers s u) /\ emerg_skbs (helpers s' u) = []) s.
Proof using HP.
  unfold toi_netlink_close_complete. apply wp_bind. unfold uhd_field at 1. cbn [wp get]. apply wp_bind.
  eapply wp_mono with (Q := fun _ s1 => same_list u s s1 /\ pool_level (helpers s1 u) = pool_level (helpers s u)).
  { destruct (nl (helpers s u)); [|done]. apply wp_bind. eapply wp_mono; [apply p_release|]. intros [] s1 [H1 L1].
    unfold update, modify, wp. simpl. unfold same_list. simpl. by rewrite fn_lookup_insert, H1, L1. }
  intros [] s1 [(L & N & I & Lm) El]. apply wp_bind. unfold uhd_field. cbn [wp get]. apply wp_bind.
  eapply wp_mono; [apply free_skbs_spec|]. intros [] s2 [H2 L2]. unfold update, modify, wp, same_list. simpl.
  rewrite fn_lookup_insert, H2, L2. simpl. by rewrite L, N, I, Lm, El.
Qed.

(** Preparing puts the helper at the head of the list, whether it is on it or not. *)
Lemma prepare_spec u s :
  pool_limit (helpers s u) < 2 ^ 31 -> 0 <= pool_level (helpers s u) <= pool_limit (helpers s u) ->
  wp (netlink_prepare calls u)
    (fun r s' => uhd_list s' = Some u /\ next (helpers s' u) = uhd_list s /\
       netlink_id (helpers s' u) = netlink_id (helpers s u) /\ pool_limit (helpers s' u) = pool_limit (helpers s u) /\
       (r = 0 -> pool_level (helpers s' u) = pool_limit (helpers s u)) /\
       (pool_level (helpers s u) = pool_limit (helpers s u) ->
          emerg_skbs (helpers s' u) = emerg_skbs (helpers s u) /\ pool_level (helpers s' u) = pool_level (helpers s u))) s.
Proof using HP.
  intros Hlim Hlev. unfold netlink_prepare. apply wp_bind. cbn [wp get]. unfold update at 1 2. do 3 (apply wp_bind; unfold modify at 1, wp at 1).
  set (s1 := set_field helpers _ _).
  assert (helpers s1 u = (helpers s u) {{ next := uhd_list s; sock_seq := 0x42c0ffee }} /\ uhd_list s1 = Some u) as [E1 L1].
  { unfold s1. simpl. by rewrite !fn_lookup_insert. }
  apply wp_bind. unfold uhd_field at 1. cbn [wp get]. apply wp_bind. eapply wp_mono; [apply p_create|].
  intros sock s2 [H2 L2]. apply wp_bind. unfold update, modify, wp at 1. set (s3 := set_field helpers _ _).
  assert (helpers s3 u = (helpers s u) {{ next := uhd_list s; sock_seq := 0x42c0ffee; nl := sock }} /\ uhd_list s3 = Some u) as [E3 L3].
  { unfold s3. simpl. by rewrite fn_lookup_insert, H2, E1, L2, L1. }
  clearbody s3. destruct sock; cbn [negb].
  2: { cbn [wp ret]. rewrite E3, L3. simpl. by split_and!. }
  assert (pool_level (helpers s3 u) = pool_level (helpers s u) /\ pool_limit (helpers s3 u) = pool_limit (helpers s u) /\
    next (helpers s3 u) = uhd_list s /\ netlink_id (helpers s3 u) = netlink_id (helpers s u) /\
    emerg_skbs (helpers s3 u) = emerg_skbs (helpers s u)) as (Ev & Em & En & Ei & Ek) by (by rewrite E3).
  clear E3. apply wp_bind. unfold toi_fill_skb_pool. apply wp_bind. unfold uhd_field at 1. cbn [wp get].
  destruct (decide (pool_level (helpers s u) = pool_limit (helpers s u))) as [Eq|Hne].
  - rewrite Ev, Em, Eq, Z.sub_diag. change (Z.to_nat 0) with O. cbn [fill_loop]. apply wp_bind. unfold uhd_field at 1. cbn [wp get].
    rewrite (proj2 (Z.ltb_ge _ _)) by lia. cbn [negb wp ret]. by rewrite En, Ei, Em, Ev, Ek, L3.
  - eapply wp_mono; [apply fill_spec; rewrite ?Ev, ?Em; lia|]. intros [] s4 [(L & N & I & Lm) Hl].
    cbn [wp ret]. rewrite L, N, I, Lm, Hl, En, Ei, Em, L3. by split_and!.
Qed.

(** No walk over the list of a helper that follows itself ends. *)
Lemma circular_walk fuel u (s : nl_state W) protocol :
  next (helpers s u) = Some u -> netlink_id (helpers s u) <> protocol -> find_helper fuel s (Some u) protocol = None.
Proof.
  intros Hn Hp. induction fuel as [|fuel IH]; cbn [find_helper]; rewrite (proj2 (Z.eqb_neq _ _)) by done; [done|]. by rewrite Hn.
Qed.

(** C34: a helper that is set up, closed, and set up again, as in the next
    cycle, ends without a buffer in its pool, which counts as full since
    closing it freed the buffers only; and being put before itself on the list
    it hides every other helper, so that a packet for any of them is looked
    for on the list without end, however long one waits. *)
Theorem second_setup (u : nat) (s : nl_state W) :
  pool_limit (helpers s u) < 2 ^ 31 -> 0 <= pool_level (helpers s u) <= pool_limit (helpers s u) ->
  wp (netlink_prepare calls u) (fun r s1 => r = 0 ->
    wp (toi_netlink_close_complete calls u ;;; netlink_prepare calls u) (fun _ s2 =>
      pool_level (helpers s2 u) = pool_limit (helpers s2 u) /\ emerg_skbs (helpers s2 u) = [] /\
      forall fuel protocol bytes,
        protocol <> netlink_id (helpers s u) -> toi_user_rcv_skb calls fuel protocol bytes s2 = None) s1) s.
Proof using HP.
  intros Hlim Hlev. eapply wp_mono; [by apply prepare_spec|]. intros r s1 (L1 & N1 & I1 & M1 & V1 & _) Hr. specialize (V1 Hr).
  apply wp_bind. eapply wp_mono; [apply close_spec|]. intros [] s2 ((L2 & N2 & I2 & M2) & V2 & K2).
  eapply wp_mono; [apply prepare_spec; rewrite ?V2, M2, M1; lia|]. intros r' s3 (L3 & N3 & I3 & M3 & _ & F3).
  destruct F3 as [K3 V3]; [by rewrite V2, V1, M2, M1|]. split_and!; [by rewrite V3, V2, V1, M3, M2, M1|by rewrite K3|].
  intros fuel protocol bytes Hne. unfold toi_user_rcv_skb. rewrite L3, circular_walk; [done|by rewrite N3, L2|].
  by rewrite I3, I2, I1.
Qed.
End Twice.

(** ** Two helpers *)

Module TwoHelpers.
(** A kernel whose allocations succeed, and handlers that leave every message to the common part. *)
Definition calls : nl_calls unit :=
  NlCalls unit (fun n => ret (Some (SkBuff 0 n))) (fun _ => ret tt) (fun _ _ _ _ _ => ret tt) (fun _ => ret true)
    (fun _ => ret tt) (fun _ _ => ret tt) (fun _ => ret true) (fun _ => ret tt) (fun _ _ => ret tt) (fun _ => ret 0)
    (fun _ => ret tt) (fun _ _ _ => ret 1) (fun _ => ret tt).

#[global] Instance plenty : Plenty calls.
Proof. split; try done. intros n s. split; [by eexists|done]. Qed.

Definition helper (id : Z) : user_helper_data := UserHelper false 0 (-1) 0 6 [] 64 id None 0 8.

Definition start : nl_state unit := NlState (fun u => helper (if decide (u = 0%nat) then 10 else 11)) (Some 1%nat) tt.

Definition ready : message := Message NETLINK_MSG_READY 5 1 77 [8; 0; 0; 0].

Definition cleanup : message := Message NETLINK_MSG_CLEANUP 0 2 77 [9].

Lemma messages_ok : Forall message_ok [ready; cleanup].
Proof. repeat constructor; unfold m_len, ready, cleanup, NETLINK_MSG_READY, NETLINK_MSG_CLEANUP; simpl; lia. Qed.
End TwoHelpers.

Lemma packet_dispatched_witness :
  toi_user_rcv_skb TwoHelpers.calls 2 11 (packet [TwoHelpers.ready; TwoHelpers.cleanup]) TwoHelpers.start =
  dispatch_all TwoHelpers.calls 1 [TwoHelpers.ready; TwoHelpers.cleanup] TwoHelpers.start.
Proof.
  apply (packet_dispatched TwoHelpers.calls 2 1 11 [TwoHelpers.ready; TwoHelpers.cleanup] TwoHelpers.start);
    [apply TwoHelpers.messages_ok|reflexivity|reflexivity].
Defined.

Lemma second_setup_witness :
  wp (netlink_prepare TwoHelpers.calls 0) (fun r s1 => r = 0 ->
    wp (toi_netlink_close_complete TwoHelpers.calls 0 ;;; netlink_prepare TwoHelpers.calls 0) (fun _ s2 =>
      pool_level (helpers s2 0%nat) = pool_limit (helpers s2 0%nat) /\ emerg_skbs (helpers s2 0%nat) = [] /\
      forall fuel protocol bytes,
        protocol <> netlink_id (helpers TwoHelpers.start 0%nat) ->
        toi_user_rcv_skb TwoHelpers.calls fuel protocol bytes s2 = None) s1) TwoHelpers.start.
Proof. apply (second_setup TwoHelpers.calls 0 TwoHelpers.start); simpl; lia. Defined.
