(* ===== verification/StorageManager.v ===== *)
(** * The storage manager

    kernel/power/tuxonice_storage.c: a helper in userspace that connects and
    disconnects the storage of the image, and the counts of who needs it.  It
    is a client of Netlink: its messages are sent and received there, and its
    own handler [usm_user_rcv_msg] is the [rcv_msg] of its helper.  Its
    variables are the world of the netlink state; the messages the helper was
    sent are recorded with them. *)

From S2P Require Import Prelude CString Netlink.
From stdpp Require Import numbers base list functions.
#[local] Open Scope Z_scope.
#[local] Open Scope step_scope.

Definition NETLINK_MSG_BASE : Z := 0x10.
Definition USM_MSG_CONNECT : Z := 0x30.
Definition USM_MSG_DISCONNECT : Z := 0x31.
Definition USM_MSG_SUCCESS : Z := 0x40.
Definition USM_MSG_FAILED : Z := 0x41.
Definition USM_MSG_MAX : Z := 0x42.

Record usm_vars := UsmVars {
  message_received : Z;
  usm_prepare_count : Z;
  activations : Z;
  storage_manager_last_action : Z;
  storage_manager_action : Z;
  usm_enabled : bool;
  usm_program : list Z;
  usm_sent : list Z
}.

#[export] Instance eta_usm_vars : Eta usm_vars := fun v =>
  UsmVars (message_received v) (usm_prepare_count v) (activations v) (storage_manager_last_action v)
    (storage_manager_action v) (usm_enabled v) (usm_program v) (usm_sent v).

(** The helper of the storage manager among the helpers. *)
Definition usm_helper : nat := 1.

#[local] Abbreviation C := (M (nl_state usm_vars)).

Definition var {A} (f : usm_vars -> A) : C A := get (fun s => f (nl_world s)).

Definition set_var (f : usm_vars -> usm_vars) : C unit :=
  modify (fun s => s {{ nl_world := f (nl_world s) }}).

(** Its handler: [capable] is the answer of [security_netlink_recv]. *)
Definition usm_user_rcv_msg (capable : bool) (nlh : nlmsghdr) : C Z :=
  let type := nlmsg_type nlh in
  if type <? NETLINK_MSG_BASE then ret 0
  else if type >=? USM_MSG_MAX then ret (- EINVAL)
  else if negb capable then ret (- EPERM)
  else
    p <-- uhd_field usm_helper pid ;;
    if (type =? NETLINK_MSG_NOFREEZE_ME) && negb (p =? -1) then ret (- EBUSY)
    else
      (if (type =? USM_MSG_SUCCESS) || (type =? USM_MSG_FAILED) then
         set_var (fun v => v {{ message_received := type }}) ;;;
         update usm_helper (fun u => u {{ wait_for_process := wait_for_process u + 1 }})
       else ret tt) ;;;
      ret 1.

Section Manager.
Context (calls : nl_calls usm_vars).

Definition init_completion : C unit := update usm_helper (fun u => u {{ wait_for_process := 0 }}).

(** Nobody to talk to. *)
Definition no_manager : C bool :=
  p <-- uhd_field usm_helper pid ;;
  on <-- var usm_enabled ;;
  ret ((p =? -1) || negb on).

Definition unanswered (m : Z) : bool := (m =? 0) || (m =? USM_MSG_FAILED).

(** [tries] is at most 2: the loop runs once. *)
Fixpoint connect_loop (fuel : nat) (tries : Z) : C unit :=
  m <-- var message_received ;;
  if negb (unanswered m && (tries <? 2)) then ret tt else
  match fuel with
  | O => bug
  | S fuel' =>
      init_completion ;;;
      toi_send_netlink_message calls usm_helper USM_MSG_CONNECT [] ;;;
      wait_for_completion_timeout calls usm_helper ;;;
      connect_loop fuel' (tries + 1)
  end.

Definition toi_activate_storage (force : bool) : C Z :=
  nobody <-- no_manager ;;
  if nobody : bool then ret 0 else
  set_var (fun v => v {{ message_received := 0; activations := s32 (activations v + 1) }}) ;;;
  n <-- var activations ;;
  if (n >? 1) && negb force then ret 0 else
  connect_loop 1 1 ;;;
  ret 0.

Definition toi_deactivate_storage (force : bool) : C Z :=
  nobody <-- no_manager ;;
  if nobody : bool then ret 0 else
  set_var (fun v => v {{ message_received := 0; activations := s32 (activations v - 1) }}) ;;;
  n <-- var activations ;;
  if negb (n =? 0) && negb force then ret 0 else
  init_completion ;;;
  toi_send_netlink_message calls usm_helper USM_MSG_DISCONNECT [] ;;;
  wait_for_completion_timeout calls usm_helper ;;;
  m <-- var message_received ;;
  ret (if unanswered m then 1 else 0).

Definition toi_prepare_usm : C Z :=
  set_var (fun v => v {{ usm_prepare_count := s32 (usm_prepare_count v + 1) }}) ;;;
  v <-- var (fun v => v) ;;
  if (usm_prepare_count v >? 1) || negb (usm_enabled v) then ret 0 else
  update usm_helper (fun u => u {{ pid := -1 }}) ;;;
  if hd 0 (usm_program v) =? 0 then ret 0 else
  toi_netlink_setup calls usm_helper ;;;
  toi_activate_storage false ;;;
  p <-- uhd_field usm_helper pid ;;
  ret (if p =? -1 then 0 else 1).

Definition toi_cleanup_usm : C unit :=
  set_var (fun v => v {{ usm_prepare_count := s32 (usm_prepare_count v - 1) }}) ;;;
  n <-- var usm_prepare_count ;;
  p <-- uhd_field usm_helper pid ;;
  if (p >? -1) && (n =? 0) then
    toi_deactivate_storage false ;;;
    toi_netlink_close calls usm_helper
  else ret tt.

Definition storage_manager_activate : C unit :=
  v <-- var (fun v => v) ;;
  if storage_manager_action v =? storage_manager_last_action v then ret tt else
  (if negb (storage_manager_action v =? 0) then toi_prepare_usm ;;; ret tt else toi_cleanup_usm) ;;;
  set_var (fun v => v {{ storage_manager_last_action := storage_manager_action v }}).

Definition storage_manager_simulate : C unit :=
  toi_prepare_usm ;;;
  toi_activate_storage true ;;;
  toi_deactivate_storage true ;;;
  toi_cleanup_usm.
End Manager.

(** ** The configuration in the image header *)

(** The program is a string in an array; [None] when it has no end or does not fit. *)
Definition usm_storage_needed (v : usm_vars) : option Z := strlen (usm_program v).

Definition usm_save_config_info (v : usm_vars) : option (list Z) := c_string (usm_program v).

(** A program set already stays; the saved one comes without its NUL. *)
Definition usm_load_config_info (buf : list Z) (v : usm_vars) : option usm_vars :=
  if negb (hd 0 (usm_program v) =? 0) then Some v
  else
    match memcpy (usm_program v) buf with
    | Some a => Some (v {{ usm_program := a }})
    | None => None
    end.
