(* ===== verification/StorageManagerFacts.v ===== *)
(** * When the storage is connected

    With a helper that stays, the storage is connected exactly while somebody
    needs it, however the needs nest.  A helper that goes away while it is
    needed leaves the count behind, and its successor is never told to
    connect; and the reports of the helper are all answered with an error. *)

From S2P Require Import Prelude CString Netlink NetlinkFacts StorageManager.
From stdpp Require Import numbers base list functions.
#[local] Open Scope Z_scope.
#[local] Open Scope step_scope.

Definition usm_pid (s : nl_state usm_vars) : Z := pid (helpers s usm_helper).

(** What a helper that stays sees: it is there, and the manager is enabled. *)
Definition talking (s : nl_state usm_vars) : Prop := usm_pid s <> -1 /\ usm_enabled (nl_world s) = true.

Section Facts.
Context (calls : nl_calls usm_vars).

(** Nothing but the record of what was sent, and the helper's answers. *)
Definition same_needs (s s' : nl_state usm_vars) : Prop :=
  usm_pid s' = usm_pid s /\ usm_enabled (nl_world s') = usm_enabled (nl_world s) /\
  activations (nl_world s') = activations (nl_world s).

(** A helper that stays, and a kernel that delivers: buffers can be had with
    room for an empty message, what is sent is recorded, and the waits and
    wake-ups leave the needs alone. *)
Class Delivers : Prop := {
  d_alloc n s : wp (alloc_skb calls n) (fun r s' => (exists skb, r = Some skb /\ NLMSG_SPACE 0 <= skb_tailroom skb) /\
    same_needs s s' /\ usm_sent (nl_world s') = usm_sent (nl_world s)) s;
  d_unicast b q ty ps p s : wp (netlink_unicast calls b q ty ps p)
    (fun _ s' => same_needs s s' /\ usm_sent (nl_world s') = usm_sent (nl_world s) ++ [ty]) s;
  d_find p s : wp (find_task_by_pid calls p) (fun _ s' => same_needs s s' /\ usm_sent (nl_world s') = usm_sent (nl_world s)) s;
  d_wake p s : wp (wake_up_and_yield calls p) (fun _ s' => same_needs s s' /\ usm_sent (nl_world s') = usm_sent (nl_world s)) s;
  d_wait u s : wp (wait_for_completion_timeout calls u)
    (fun _ s' => same_needs s s' /\ usm_sent (nl_world s') = usm_sent (nl_world s)) s
}.

Context {HD : Delivers}.

Lemma same_needs_trans s1 s2 s3 : same_needs s1 s2 -> same_needs s2 s3 -> same_needs s1 s3.
Proof. intros (? & ? & ?) (? & ? & ?). split_and!; congruence. Qed.

(** Sending to a helper that is there. *)
Lemma send_delivers ty s :
  usm_pid s <> -1 ->
  wp (toi_send_netlink_message calls usm_helper ty [])
    (fun _ s' => same_needs s s' /\ usm_sent (nl_world s') = usm_sent (nl_world s) ++ [ty]) s.
Proof using HD.
  intros Hp. unfold toi_send_netlink_message. apply wp_bind. unfold uhd_field at 1. cbn [wp get]. fold (usm_pid s).
  rewrite (proj2 (Z.eqb_neq _ _)) by done. apply wp_bind.
  eapply wp_mono with (Q := fun r s1 => (exists skb, r = Some skb /\ NLMSG_SPACE 0 <= skb_tailroom skb) /\
    same_needs s s1 /\ usm_sent (nl_world s1) = usm_sent (nl_world s)).
  { unfold toi_get_skb. apply wp_bind. unfold uhd_field at 1. cbn [wp get]. apply wp_bind. eapply wp_mono; [apply d_alloc|].
    intros r s1 ((skb & -> & Hr) & H1 & L1). cbn [wp ret]. eauto. }
  intros r s1 ((skb & -> & Hr) & H1 & L1). change (Z.of_nat (length [])) with 0. rewrite (proj2 (Z.ltb_ge _ _)) by done.
  apply wp_bind. unfold uhd_field at 1. cbn [wp get]. apply wp_bind. unfold update, modify, wp at 1.
  set (s2 := set_field helpers _ s1).
  assert (same_needs s1 s2 /\ nl_world s2 = nl_world s1) as [H2 L2].
  { unfold same_needs, usm_pid, s2. cbn. by rewrite fn_lookup_insert. }
  apply wp_bind. eapply wp_mono; [apply d_unicast|]. intros [] s3 [H3 L3]. apply wp_bind. unfold uhd_field. cbn [wp get]. apply wp_bind.
  eapply wp_mono; [apply d_find|]. intros t s4 [H4 L4].
  assert (same_needs s s4 /\ usm_sent (nl_world s4) = usm_sent (nl_world s) ++ [ty]) as [H L].
  { split; [eauto using same_needs_trans|]. by rewrite L4, L3, L2, L1. }
  destruct t; [|done]. eapply wp_mono; [apply d_wake|]. intros [] s5 [H5 L5]. split; [eauto using same_needs_trans|]. by rewrite L5.
Qed.
(** The start of both: somebody is there, one need more or less. *)
Definition needing (d : Z) (s : nl_state usm_vars) : nl_state usm_vars :=
  s {{ nl_world := (nl_world s) {{ message_received := 0; activations := s32 (activations (nl_world s) + d) }} }}.

Lemma no_manager_talking s : talking s -> no_manager s = Some (s, false).
Proof.
  intros [Hp Hon]. unfold no_manager, bind, uhd_field, var, get, ret. fold (usm_pid s).
  by rewrite Hon, (proj2 (Z.eqb_neq _ _)).
Qed.

Lemma init_completion_needs s :
  wp init_completion (fun _ s' => same_needs s s' /\ nl_world s' = nl_world s) s.
Proof. unfold init_completion, update, modify, wp, same_needs, usm_pid. cbn. by rewrite fn_lookup_insert. Qed.

Lemma activate_spec s :
  talking s -> 0 <= activations (nl_world s) < 2 ^ 31 - 1 ->
  wp (toi_activate_storage calls false)
    (fun _ s' => talking s' /\ activations (nl_world s') = activations (nl_world s) + 1 /\
       usm_sent (nl_world s') = usm_sent (nl_world s) ++ if activations (nl_world s) =? 0 then [USM_MSG_CONNECT] else []) s.
Proof using HD.
  intros Ht Ha. unfold toi_activate_storage, wp. rewrite (bind_step _ _ _ _ _ (no_manager_talking s Ht)).
  change (wp (n <-- var activations ;; if (n >? 1) && negb false then ret 0 else connect_loop calls 1 1 ;;; ret 0)
    (fun _ s' => talking s' /\ activations (nl_world s') = activations (nl_world s) + 1 /\
       usm_sent (nl_world s') = usm_sent (nl_world s) ++ if activations (nl_world s) =? 0 then [USM_MSG_CONNECT] else []) (needing 1 s)).
  assert (activations (nl_world (needing 1 s)) = activations (nl_world s) + 1) as Ea by (apply s32_small; lia).
  assert (talking (needing 1 s)) as Ht1 by exact Ht.
  apply wp_bind. unfold var at 1. cbn [wp get]. rewrite Ea, andb_true_r.
  destruct (activations (nl_world s) + 1 >? 1) eqn:E; breflect.
  { cbn [wp ret]. rewrite (proj2 (Z.eqb_neq _ 0)) by lia. rewrite app_nil_r. by split_and!. }
  rewrite (proj2 (Z.eqb_eq _ 0)) by lia. apply wp_bind. cbn [connect_loop]. apply wp_bind. unfold var at 1. cbn [wp get].
  change (unanswered (message_received (nl_world (needing 1 s)))) with true. change (negb (true && (1 <? 2))) with false. cbv iota.
  apply wp_bind. eapply wp_mono; [apply init_completion_needs|]. intros [] s2 [(P2 & O2 & A2) L2].
  apply wp_bind. eapply wp_mono; [apply send_delivers; rewrite P2; apply Ht|]. intros [] s3 [(P3 & O3 & A3) L3].
  apply wp_bind. eapply wp_mono; [apply d_wait|]. intros [] s4 [(P4 & O4 & A4) L4].
  apply wp_bind. unfold var at 1. cbn [wp get]. change (1 + 1 <? 2) with false. rewrite andb_false_r. cbn [negb wp ret].
  split; [|split].
  - destruct Ht1 as [Hp Ho]. split; congruence.
  - by rewrite A4, A3, A2.
  - by rewrite L4, L3, L2.
Qed.

Lemma deactivate_spec s :
  talking s -> 1 <= activations (nl_world s) < 2 ^ 31 ->
  wp (toi_deactivate_storage calls false)
    (fun _ s' => talking s' /\ activations (nl_world s') = activations (nl_world s) - 1 /\
       usm_sent (nl_world s') = usm_sent (nl_world s) ++ if activations (nl_world s) =? 1 then [USM_MSG_DISCONNECT] else []) s.
Proof using HD.
  intros Ht Ha. unfold toi_deactivate_storage, wp. rewrite (bind_step _ _ _ _ _ (no_manager_talking s Ht)).
  assert (activations (nl_world (needing (-1) s)) = activations (nl_world s) - 1) as Ea by (apply s32_small; lia).
  assert (talking (needing (-1) s)) as Ht1 by exact Ht.
  change (wp (n <-- var activations ;; if negb (n =? 0) && negb false then ret 0 else
    init_completion ;;; toi_send_netlink_message calls usm_helper USM_MSG_DISCONNECT [] ;;;
    wait_for_completion_timeout calls usm_helper ;;; m <-- var message_received ;; ret (if unanswered m then 1 else 0))
    (fun _ s' => talking s' /\ activations (nl_world s') = activations (nl_world s) - 1 /\
       usm_sent (nl_world s') = usm_sent (nl_world s) ++ if activations (nl_world s) =? 1 then [USM_MSG_DISCONNECT] else []) (needing (-1) s)).
  apply wp_bind. unfold var at 1. cbn [wp get]. rewrite Ea, andb_true_r.
  destruct (activations (nl_world s) - 1 =? 0) eqn:E; breflect; cbn [negb].
  2: { cbn [wp ret]. rewrite (proj2 (Z.eqb_neq _ 1)) by lia. rewrite app_nil_r. by split_and!. }
  rewrite (proj2 (Z.eqb_eq _ 1)) by lia.
  apply wp_bind. eapply wp_mono; [apply init_completion_needs|]. intros [] s2 [(P2 & O2 & A2) L2].
  apply wp_bind. eapply wp_mono; [apply send_delivers; rewrite P2; apply Ht|]. intros [] s3 [(P3 & O3 & A3) L3].
  apply wp_bind. eapply wp_mono; [apply d_wait|]. intros [] s4 [(P4 & O4 & A4) L4].
  apply wp_bind. unfold var at 1. cbn [wp get ret]. split; [|split].
  - destruct Ht1 as [Hp Ho]. split; congruence.
  - by rewrite A4, A3, A2.
  - by rewrite L4, L3, L2.
Qed.
(** What the helper was told last. *)
Definition connected (log : list Z) : bool :=
  foldl (fun b m => if m =? USM_MSG_CONNECT then true else if m =? USM_MSG_DISCONNECT then false else b) false log.

Lemma connected_app log m :
  connected (log ++ [m]) = if m =? USM_MSG_CONNECT then true else if m =? USM_MSG_DISCONNECT then false else connected log.
Proof. unfold connected. by rewrite foldl_app. Qed.

(** Needs and their ends, in any order; nobody ends a need that is not there. *)
Inductive need := Activate | Deactivate.

Fixpoint balanced (n : Z) (l : list need) : Prop :=
  match l with
  | [] => True
  | Activate :: l => n < 2 ^ 31 - 1 /\ balanced (n + 1) l
  | Deactivate :: l => 1 <= n /\ balanced (n - 1) l
  end.

Fixpoint needs_left (n : Z) (l : list need) : Z :=
  match l with
  | [] => n
  | Activate :: l => needs_left (n + 1) l
  | Deactivate :: l => needs_left (n - 1) l
  end.

Fixpoint run_needs (l : list need) : M (nl_state usm_vars) unit :=
  match l with
  | [] => ret tt
  | Activate :: l => toi_activate_storage calls false ;;; run_needs l
  | Deactivate :: l => toi_deactivate_storage calls false ;;; run_needs l
  end.


(** A helper that goes away while it is needed takes its needs with it: they
    are not given back, and its successor is not told to connect. *)
Lemma lost_helper s :
  usm_enabled (nl_world s) = true -> usm_pid s = -1 -> 1 <= activations (nl_world s) < 2 ^ 31 - 1 ->
  toi_deactivate_storage calls false s = Some (s, 0) /\
  forall p, p <> -1 ->
    wp (update usm_helper (fun u => u {{ pid := p }}) ;;; toi_activate_storage calls false)
      (fun _ s' => usm_sent (nl_world s') = usm_sent (nl_world s)) s.
Proof using HD.
  intros Hon Hp Ha. split.
  - unfold toi_deactivate_storage, no_manager, bind, uhd_field, get, var. fold (usm_pid s). by rewrite Hp.
  - intros p Hne. apply wp_bind. unfold update, modify, wp at 1. set (s1 := set_field helpers _ s).
    assert (talking s1) as Ht. { split; [|done]. unfold usm_pid, s1. cbn. by rewrite fn_lookup_insert. }
    eapply wp_mono; [apply (activate_spec s1 Ht); change (nl_world s1) with (nl_world s); lia|].
    intros r s2 (_ & _ & ->). change (nl_world s1) with (nl_world s).
    by rewrite (proj2 (Z.eqb_neq _ 0)), app_nil_r by lia.
Qed.

(** The helper's reports reach the manager and are answered with -EINVAL: its
    handler leaves them to the common part, which does not know them. *)
Lemma reports_refused type bytes nlh s :
  (forall u h b, rcv_msg calls u h b = usm_user_rcv_msg true h) ->
  nlmsg_type nlh = type -> type = USM_MSG_SUCCESS \/ type = USM_MSG_FAILED ->
  wp (toi_nl_gen_rcv_msg calls usm_helper nlh bytes)
    (fun r s' => r = - EINVAL /\ message_received (nl_world s') = type) s.
Proof.
  intros Hr Ht Hc. unfold toi_nl_gen_rcv_msg, wp, bind. rewrite Hr. unfold usm_user_rcv_msg. rewrite Ht.
  by destruct Hc as [->| ->].
Qed.
End Facts.

(** ** A helper that does nothing else *)

Module Idle.
Definition calls : nl_calls usm_vars :=
  NlCalls usm_vars (fun n => ret (Some (SkBuff 0 (Z.max 16 n)))) (fun _ => ret tt)
    (fun _ _ ty _ _ => set_var (fun v => v {{ usm_sent := usm_sent v ++ [ty] }})) (fun _ => ret true)
    (fun _ => ret tt) (fun _ _ => ret tt) (fun _ => ret true) (fun _ => ret tt) (fun _ _ => ret tt) (fun _ => ret 0)
    (fun _ => ret tt) (fun _ h _ => usm_user_rcv_msg true h) (fun _ => ret tt).

#[global] Instance delivers : Delivers calls.
Proof. split; try done. intros n s. split; [|done]. eexists. split; [done|]. cbn. change (NLMSG_SPACE 0) with 16. lia. Qed.

Definition start : nl_state usm_vars :=
  NlState (fun _ => UserHelper true 0 42 0 6 [] 0 11 None 0 2) (Some usm_helper) (UsmVars 0 1 0 0 0 true [47; 117; 0] []).
End Idle.

