(* ===== verification/Userui.v ===== *)
(** * The user interface in userspace

    kernel/power/tuxonice_userui.c: the progress sent to the program, the
    messages it sends back, the pauses, and the configuration kept in the image
    header.  Like the storage manager it is a client of Netlink, with its
    variables as the world of the netlink state; texts are given as they are
    after formatting, except where a text is itself used as a format.  The
    scheduler, the allocator's method and powering down are calls, and this
    interface is the one registered ([toi_current_ui]). *)

From S2P Require Import Prelude States CString AllocatorIO Netlink.
From stdpp Require Import numbers base list functions strings.
#[local] Open Scope Z_scope.
#[local] Open Scope step_scope.

Definition USERUI_MSG_ABORT : Z := 0x11.
Definition USERUI_MSG_SET_STATE : Z := 0x12.
Definition USERUI_MSG_GET_STATE : Z := 0x13.
Definition USERUI_MSG_GET_DEBUG_STATE : Z := 0x14.
Definition USERUI_MSG_SET_DEBUG_STATE : Z := 0x15.
Definition USERUI_MSG_SPACE : Z := 0x18.
Definition USERUI_MSG_GET_POWERDOWN_METHOD : Z := 0x1A.
Definition USERUI_MSG_SET_POWERDOWN_METHOD : Z := 0x1B.
Definition USERUI_MSG_GET_LOGLEVEL : Z := 0x1C.
Definition USERUI_MSG_SET_LOGLEVEL : Z := 0x1D.
Definition USERUI_MSG_PRINTK : Z := 0x1E.
Definition USERUI_MSG_MESSAGE : Z := 0x21.
Definition USERUI_MSG_PROGRESS : Z := 0x22.
Definition USERUI_MSG_POST_ATOMIC_RESTORE : Z := 0x25.
Definition USERUI_MSG_MAX : Z := 0x26.

Record ui_vars := UiVars {
  ui_action : Z;                  (* toi_bkd.toi_action *)
  ui_debug_state : Z;
  ui_poweroff_method : Z;
  ui_console_level : Z;
  progress_granularity : Z;
  last_step : Z;
  ui_helper_changed : bool;
  ui_program : list Z;
  ui_enabled : bool;
  kmsg_redirect : Z;
  orig_kmsg : Z;
  lastheader : list Z;            (* up to its end *)
  ui_result : Z;                  (* toi_result *)
  ui_state : Z;                   (* toi_state *)
  woken : nat                     (* wake-ups of userui_wait_for_key *)
}.

#[export] Instance eta_ui_vars : Eta ui_vars := fun v =>
  UiVars (ui_action v) (ui_debug_state v) (ui_poweroff_method v) (ui_console_level v) (progress_granularity v)
    (last_step v) (ui_helper_changed v) (ui_program v) (ui_enabled v) (kmsg_redirect v) (orig_kmsg v)
    (lastheader v) (ui_result v) (ui_state v) (woken v).

(** The helper of the user interface among the helpers. *)
Definition ui_helper : nat := 0.

#[local] Abbreviation C := (M (nl_state ui_vars)).

Definition ui_var {A} (f : ui_vars -> A) : C A := get (fun s => f (nl_world s)).

Definition set_ui (f : ui_vars -> ui_vars) : C unit :=
  modify (fun s => s {{ nl_world := f (nl_world s) }}).

(** ** Progress *)

(** [fls]: the number of the highest bit set, from 1. *)
Definition fls_u32 (x : Z) : Z := if x =? 0 then 0 else Z.log2 x + 1.

(** The step the bar is at, and the value at which to call again; the
    granularity is converted to the unsigned type of what it meets. *)
Definition progress (value maximum granularity : Z) : Z * Z :=
  let granularity := u32 granularity in
  let value := if value >? maximum then maximum else value in
  let bitshift := fls_u32 maximum - 16 in
  if bitshift >? 0 then
    let temp_maximum := Z.shiftr maximum bitshift in
    let temp_value := Z.shiftr value bitshift in
    let this_step := u32 (temp_value * granularity) / temp_maximum in
    (this_step, u32 (Z.shiftl (u32 (u32 ((this_step + 1) * temp_maximum) / granularity + 1)) bitshift))
  else
    let this_step := u32 (value * granularity) / maximum in
    (this_step, u32 (u32 ((this_step + 1) * maximum) / granularity + 1)).

(** [struct userui_msg_params]: four numbers and a text in 255 bytes. *)
Definition userui_msg_params (a b c : Z) (text : list Z) : list Z :=
  let text := take 254 text in
  le_bytes 4 a ++ le_bytes 4 b ++ le_bytes 4 c ++ le_bytes 4 0 ++ text ++ repeat 0 (256 - length text).

(** The texts of the file. *)
Definition press_space : list Z := bytes_of " (Press SPACE to continue)"%string.
Definition press_continue : list Z := bytes_of " Press SPACE to continue."%string.
Definition single_step : list Z := bytes_of " Single step on."%string.
Definition escape_resuming : list Z := bytes_of "Escape pressed. Powering down again."%string.
Definition escape_hibernating : list Z := bytes_of "--- ESCAPE PRESSED : ABORTING HIBERNATION ---"%string.

Definition TOI_STATUS : Z := 0.

Section Userui.
Context (calls : nl_calls ui_vars).
Context (console_loglevel : Z).
(* vsnprintf of a text used as the format, with no arguments *)
Context (formatted : list Z -> list Z).
(* interruptible_sleep_on and schedule *)
Context (wait_for_key_via_userui schedule : C unit).
Context (mark_resume_attempted : option (Z -> C unit)).
Context (toi_power_down : C unit).

Definition userui_update_status (value maximum : Z) (text : list Z) : C Z :=
  p <-- uhd_field ui_helper pid ;;
  if p =? -1 then ret 0 else
  g <-- ui_var progress_granularity ;;
  if (maximum =? 0) || (g =? 0) then ret maximum else
  let '(this_step, next_update) := progress value maximum g in
  last <-- ui_var last_step ;;
  if this_step =? last then ret next_update else
  toi_send_netlink_message calls ui_helper USERUI_MSG_PROGRESS (userui_msg_params this_step g 0 text) ;;;
  set_ui (fun v => v {{ last_step := this_step }}) ;;;
  ret next_update.

Definition userui_message (section level normally_logged : Z) (text : list Z) : C unit :=
  if negb (level =? 0) && (level >? console_loglevel) then ret tt else
  toi_send_netlink_message calls ui_helper USERUI_MSG_MESSAGE (userui_msg_params section level normally_logged text).

(** [sizeof (lastheader)], with the end. *)
Definition header_room : nat := 511.

(** [toi_update_status] has no text, which leaves the message's empty; the
    title is the format of the message. *)
Definition userui_prepare_status (clearbar : bool) (text : list Z) : C unit :=
  set_ui (fun v => v {{ lastheader := take header_room text }}) ;;;
  (if clearbar then userui_update_status 0 1 [] ;;; ret tt else ret tt) ;;;
  p <-- uhd_field ui_helper pid ;;
  if p =? -1 then ret tt else
  header <-- ui_var lastheader ;;
  userui_message 0 TOI_STATUS 1 (formatted header).

Definition userui_post_atomic_restore : C unit :=
  toi_send_netlink_message calls ui_helper USERUI_MSG_POST_ATOMIC_RESTORE [].

(** ** Aborting *)

Definition userui_wait_for_keypress : C Z :=
  p <-- uhd_field ui_helper pid ;;
  if p =? -1 then ret 0 else wait_for_key_via_userui ;;; ret 32.

(** The text of an abort is put together in [local_printf_buf]: writing
    behind it is [bug]. *)
Definition userui_abort (result_code : result_flag) (text : list Z) : C unit :=
  set_ui (fun v => v {{ ui_result := set_result_state result_code (ui_result v) }}) ;;;
  r <-- ui_var ui_result ;;
  if test_result_state TOI_ABORTED r then ret tt else
  set_ui (fun v => v {{ ui_result := set_result_state TOI_ABORTED (ui_result v) }}) ;;;
  r <-- ui_var ui_result ;;
  if test_result_state TOI_ABORT_REQUESTED r then ret tt else
  p <-- uhd_field ui_helper pid ;;
  (if negb (p =? -1) && (1024 <? Z.of_nat (length text) + Z.of_nat (length press_space) + 1) then bug else ret tt) ;;;
  userui_prepare_status true (if p =? -1 then take 1023 text else text ++ press_space) ;;;
  p <-- uhd_field ui_helper pid ;;
  if p =? -1 then ret tt else userui_wait_for_keypress ;;; ret tt.

Definition wake_up_waiter : C unit := set_ui (fun v => v {{ woken := S (woken v) }}).

(** Until the IO has been stopped; [fuel] bounds the turns of the scheduler. *)
Fixpoint wait_io_stopped (fuel : nat) : C unit :=
  st <-- ui_var ui_state ;;
  if test_toi_state TOI_IO_STOPPED st then ret tt else
  match fuel with
  | O => bug
  | S fuel' => schedule ;;; wait_io_stopped fuel'
  end.

Definition request_abort_hibernate (fuel : nat) : C unit :=
  r <-- ui_var ui_result ;;
  if test_result_state TOI_ABORT_REQUESTED r then ret tt else
  st <-- ui_var ui_state ;;
  (if test_toi_state TOI_NOW_RESUMING st then
     userui_prepare_status true escape_resuming ;;;
     set_ui (fun v => v {{ ui_state := set_toi_state TOI_STOP_RESUME (ui_state v) }}) ;;;
     wait_io_stopped fuel ;;;
     (match mark_resume_attempted with Some f => f 0 | None => ret tt end) ;;;
     toi_power_down
   else ret tt) ;;;
  userui_prepare_status true escape_hibernating ;;;
  set_ui (fun v => v {{ ui_result := set_abort_result TOI_ABORT_REQUESTED (ui_result v) }}) ;;;
  wake_up_waiter.

(** ** Messages from the program *)

Definition toi_action_mask : Z :=
  foldr (fun b m => Z.lor (Z.shiftl 1 (action_bit b)) m) 0
    [TOI_REBOOT; TOI_PAUSE; TOI_LOGALL; TOI_SINGLESTEP; TOI_PAUSE_NEAR_PAGESET_END].

(** The complement of the mask has the width of the mask. *)
Definition ui_nl_set_state (n : Z) : C unit :=
  set_ui (fun v => v {{ ui_action :=
    Z.lor (Z.land (ui_action v) (u32 (Z.lnot toi_action_mask))) (Z.land (u32 n) toi_action_mask) }}) ;;;
  a <-- ui_var ui_action ;;
  if negb (Z.testbit a (action_bit TOI_PAUSE)) && negb (Z.testbit a (action_bit TOI_SINGLESTEP))
  then wake_up_waiter else ret tt.

(** The integer at the start of the payload. *)
Definition payload_int (bytes : list Z) : Z := s32 (le_val (take 4 (drop 16 bytes))).

Definition userui_user_rcv_msg (fuel : nat) (capable : bool) (nlh : nlmsghdr) (bytes : list Z) : C Z :=
  let type := nlmsg_type nlh in
  let answer (n : nat) (f : ui_vars -> Z) : C Z :=
    x <-- ui_var f ;; toi_send_netlink_message calls ui_helper type (le_bytes n x) ;;; ret 0 in
  if type <? 0x10 then ret 0
  else if type >=? USERUI_MSG_MAX then ret (- EINVAL)
  else if negb capable then ret (- EPERM)
  else
    p <-- uhd_field ui_helper pid ;;
    if (type =? NETLINK_MSG_NOFREEZE_ME) && negb (p =? -1) then ret (- EBUSY)
    else if type =? USERUI_MSG_ABORT then request_abort_hibernate fuel ;;; ret 0
    else if type =? USERUI_MSG_GET_STATE then answer 8%nat ui_action
    else if type =? USERUI_MSG_GET_DEBUG_STATE then answer 8%nat ui_debug_state
    else if type =? USERUI_MSG_SET_STATE then
      if nlmsg_len nlh <? NLMSG_LENGTH 4 then ret (- EINVAL)
      else ui_nl_set_state (payload_int bytes) ;;; ret 0
    else if type =? USERUI_MSG_SET_DEBUG_STATE then
      if nlmsg_len nlh <? NLMSG_LENGTH 4 then ret (- EINVAL)
      else set_ui (fun v => v {{ ui_debug_state := u64 (payload_int bytes) }}) ;;; ret 0
    else if type =? USERUI_MSG_SPACE then wake_up_waiter ;;; ret 0
    else if type =? USERUI_MSG_GET_POWERDOWN_METHOD then answer 8%nat ui_poweroff_method
    else if type =? USERUI_MSG_SET_POWERDOWN_METHOD then
      if negb (nlmsg_len nlh =? NLMSG_LENGTH 1) then ret (- EINVAL)
      else set_ui (fun v => v {{ ui_poweroff_method := u64 (payload_int bytes) }}) ;;; ret 0
    else if type =? USERUI_MSG_GET_LOGLEVEL then answer 4%nat ui_console_level
    else if type =? USERUI_MSG_SET_LOGLEVEL then
      if nlmsg_len nlh <? NLMSG_LENGTH 4 then ret (- EINVAL)
      else set_ui (fun v => v {{ ui_console_level := payload_int bytes }}) ;;; ret 0
    else if type =? USERUI_MSG_PRINTK then ret 0
    else ret 1.

(** ** Pauses *)

(** [displayed] is whether the title has been shown. *)
Fixpoint pause_loop (fuel : nat) (pause : bool) (message : list Z) (displayed : bool) (last_key : Z) : C unit :=
  p <-- uhd_field ui_helper pid ;;
  a <-- ui_var ui_action ;;
  if negb (negb (last_key =? 32) && negb (p =? -1) &&
           ((Z.testbit a (action_bit TOI_PAUSE) && pause) || Z.testbit a (action_bit TOI_SINGLESTEP))) then ret tt else
  match fuel with
  | O => bug
  | S fuel' =>
      (if displayed then ret tt else
       userui_prepare_status false
         (message ++ press_continue ++
          if Z.testbit a (action_bit TOI_SINGLESTEP) then single_step else [])) ;;;
      key <-- userui_wait_for_keypress ;;
      pause_loop fuel' pause message true key
  end.

(** The key is a space unless the program has gone, so one turn is enough; no
    message is the empty text. *)
Definition userui_cond_pause (pause : bool) (message : list Z) : C unit :=
  pause_loop 1 pause message false 0 ;;; schedule.

(** ** A cycle *)

Definition userui_prepare_console (fg_console : Z) : C unit :=
  set_ui (fun v => v {{ orig_kmsg := kmsg_redirect v; kmsg_redirect := fg_console + 1 }}) ;;;
  update ui_helper (fun u => u {{ pid := -1 }}) ;;;
  v <-- ui_var (fun v => v) ;;
  if negb (ui_enabled v) then ret tt
  else if hd 0 (ui_program v) =? 0 then ret tt
  else toi_netlink_setup calls ui_helper ;;; ret tt.

Definition userui_cleanup_console : C unit :=
  p <-- uhd_field ui_helper pid ;;
  (if p >? -1 then toi_netlink_close calls ui_helper else ret tt) ;;;
  set_ui (fun v => v {{ kmsg_redirect := orig_kmsg v }}).
End Userui.

(** ** The configuration in the image header *)

(** [sizeof (ui_helper_data.program)] *)
Definition program_size : Z := 256.

Definition userui_storage_needed : Z := program_size + 1 + sizeof_int.

(** The granularity and the program; one byte more is counted than written. *)
Definition userui_save_config_info (v : ui_vars) : list Z * Z :=
  (le_bytes 4 (progress_granularity v) ++ ui_program v, program_size + sizeof_int + 1).

Definition userui_load_config_info (buf : list Z) (size : Z) (v : ui_vars) : ui_vars :=
  let v := v {{ progress_granularity := s32 (le_val (take 4 buf)) }} in
  let size := size - sizeof_int in
  if ui_helper_changed v then v
  else
    let size := if size >? program_size then program_size else size in
    let program := take (Z.to_nat size) (drop 4 buf) ++ drop (Z.to_nat size) (ui_program v) in
    v {{ ui_program := <[255%nat := 0]> program }}.
