(* ===== verification/UseruiFacts.v ===== *)
(** * What the user interface shows and lets through

    The step of the progress bar and the value to call again at fit each
    other, in 32-bit arithmetic; the program can change the five actions it
    is meant to and no other; showing things changes nothing else, so that an
    abort leaves the result the callers count on, unless its text is too long;
    a pause ends; and the configuration comes back from the header. *)

From S2P Require Import Prelude States CString Netlink NetlinkFacts Userui.
From stdpp Require Import numbers base list functions sets.
#[local] Open Scope Z_scope.
#[local] Open Scope step_scope.

(** ** Progress *)

(** The shift that leaves 16 bits of a maximum. *)
Definition shift_of (maximum : Z) : Z := Z.max 0 (fls_u32 maximum - 16).

(** The step, without the width of the numbers. *)
Definition step_at (value maximum granularity : Z) : Z :=
  Z.shiftr value (shift_of maximum) * granularity / Z.shiftr maximum (shift_of maximum).

Definition next_at (value maximum granularity : Z) : Z :=
  Z.shiftl ((step_at value maximum granularity + 1) * Z.shiftr maximum (shift_of maximum) / granularity + 1) (shift_of maximum).

Lemma shifted_maximum m :
  0 < m < 2 ^ 30 -> 0 <= shift_of m <= 14 /\ 0 < Z.shiftr m (shift_of m) < 2 ^ 16 /\ (0 < shift_of m -> 2 ^ 15 <= Z.shiftr m (shift_of m)).
Proof.
  intros Hm. unfold shift_of, fls_u32. rewrite (proj2 (Z.eqb_neq m 0)) by lia.
  pose proof (Z.log2_spec m ltac:(lia)) as [Hlo Hhi]. pose proof (Z.log2_nonneg m).
  assert (Z.log2 m < 30) by (apply Z.log2_lt_pow2; lia). set (k := Z.log2 m) in *. clearbody k.
  destruct (Z.max_spec 0 (k + 1 - 16)) as [[Hc ->]|[Hc ->]].
  - split; [lia|]. rewrite Z.shiftr_div_pow2 by lia.
    assert (2 ^ k = 2 ^ 15 * 2 ^ (k + 1 - 16)) as Ek by (rewrite <- Z.pow_add_r by lia; f_equal; lia).
    assert (0 < 2 ^ (k + 1 - 16)) by (apply Z.pow_pos_nonneg; lia).
    assert (2 ^ 15 <= m / 2 ^ (k + 1 - 16)) by (apply Z.div_le_lower_bound; lia).
    split; [|done]. split; [lia|]. apply Z.div_lt_upper_bound; [lia|].
    replace (Z.succ k) with (16 + (k + 1 - 16)) in Hhi by lia. rewrite Z.pow_add_r in Hhi by lia. lia.
  - split; [lia|]. rewrite Z.shiftr_0_r. split; [|lia]. split; [lia|].
    assert (2 ^ Z.succ k <= 2 ^ 16) by (apply Z.pow_le_mono_r; lia). lia.
Qed.

Lemma shiftr_le_mono a b n : 0 <= n -> a <= b -> Z.shiftr a n <= Z.shiftr b n.
Proof. intros. rewrite !Z.shiftr_div_pow2 by done. apply Z.div_le_mono; [apply Z.pow_pos_nonneg; lia|done]. Qed.

Lemma shiftr_nonneg' a n : 0 <= a -> 0 <= Z.shiftr a n.
Proof. intros. by apply Z.shiftr_nonneg. Qed.

(** The arithmetic on the shifted numbers. *)
Lemma step_bounds tv tm g :
  0 < tm < 2 ^ 16 -> 0 <= tv <= tm -> 0 < g <= 2048 ->
  0 <= tv * g / tm <= g /\ 0 <= (tv * g / tm + 1) * tm / g <= 2 * tm /\ tv <= (tv * g / tm + 1) * tm / g.
Proof.
  intros Ht Hv Hg. set (st := tv * g / tm).
  assert (0 <= st <= g) as Hst by (unfold st; split; [apply Z.div_pos; nia|apply Z.div_le_upper_bound; nia]).
  assert (tv * g < (st + 1) * tm) as Hlt.
  { unfold st. pose proof (Z.mul_succ_div_gt (tv * g) tm ltac:(lia)). lia. }
  clearbody st. split; [done|]. split; [split; [apply Z.div_pos; nia|apply Z.div_le_upper_bound; nia]|].
  apply Z.div_le_lower_bound; lia.
Qed.

Lemma next_small x sh : 0 <= x <= 2 ^ 17 -> 0 <= sh <= 14 -> 0 <= Z.shiftl x sh < 2 ^ 32.
Proof.
  intros Hx Hs. rewrite Z.shiftl_mul_pow2 by lia. pose proof (Z.pow_pos_nonneg 2 sh ltac:(lia) ltac:(lia)).
  assert (2 ^ sh <= 2 ^ 14) by (apply Z.pow_le_mono_r; lia). split; [nia|]. change (2 ^ 32) with (2 ^ 17 * 2 ^ 14 * 2). nia.
Qed.

(** Nothing wraps for the sizes there are. *)
Lemma progress_exact value maximum g :
  0 < maximum < 2 ^ 30 -> 0 <= value <= maximum -> 0 < g <= 2048 ->
  progress value maximum g = (step_at value maximum g, next_at value maximum g).
Proof.
  intros Hm Hv Hg. destruct (shifted_maximum maximum Hm) as (Hs & Ht & _).
  assert (0 <= Z.shiftr value (shift_of maximum) <= Z.shiftr maximum (shift_of maximum)) as Hvt.
  { split; [apply shiftr_nonneg'; lia|apply shiftr_le_mono; lia]. }
  destruct (step_bounds _ _ g Ht Hvt Hg) as (B1 & B2 & B3).
  pose proof (next_small ((Z.shiftr value (shift_of maximum) * g / Z.shiftr maximum (shift_of maximum) + 1) *
    Z.shiftr maximum (shift_of maximum) / g + 1) (shift_of maximum) ltac:(lia) Hs) as Hnext.
  unfold progress, next_at, step_at. rewrite (u32_small g) by lia.
  replace (if value >? maximum then maximum else value) with value by (destruct (value >? maximum) eqn:E; breflect; lia).
  assert (shift_of maximum = if fls_u32 maximum - 16 >? 0 then fls_u32 maximum - 16 else 0) as Esh.
  { unfold shift_of. destruct (_ >? 0) eqn:E; breflect; lia. }
  destruct (fls_u32 maximum - 16 >? 0); rewrite Esh in *; cbv zeta.
  - rewrite (u32_small (Z.shiftr value _ * g)) by nia. rewrite (u32_small (_ * Z.shiftr maximum _)) by nia.
    rewrite (u32_small (_ / g + 1)) by lia. by rewrite u32_small.
  - rewrite !Z.shiftr_0_r, ?Z.shiftl_0_r in *. rewrite (u32_small (value * g)) by nia.
    rewrite (u32_small (_ * maximum)) by nia. by rewrite u32_small.
Qed.

(** The bar moves on exactly where it says: its step is at most the
    granularity, the next call is for a later value, from that value on the
    step is a higher one, and before it, but for the last unit of the scale, it
    is not. *)
Lemma progress_updates value maximum g :
  0 < maximum < 2 ^ 30 -> 0 <= value <= maximum -> 0 < g <= 2048 ->
  let '(step, next) := progress value maximum g in
  0 <= step <= g /\ value < next /\
  (forall v, next <= v <= maximum -> step < (progress v maximum g).1) /\
  (forall v, 0 <= v <= maximum -> Z.shiftr v (shift_of maximum) + 1 < Z.shiftr next (shift_of maximum) ->
     (progress v maximum g).1 <= step).
Proof.
  intros Hm Hv Hg. rewrite progress_exact by done. destruct (shifted_maximum maximum Hm) as (Hs & Ht & _).
  assert (forall v, 0 <= v <= maximum -> 0 <= Z.shiftr v (shift_of maximum) <= Z.shiftr maximum (shift_of maximum)) as Hsh.
  { intros v ?. split; [apply shiftr_nonneg'; lia|apply shiftr_le_mono; lia]. }
  destruct (step_bounds _ _ g Ht (Hsh value Hv) Hg) as (B1 & B2 & B3). fold (step_at value maximum g) in B1, B2, B3.
  set (q := (step_at value maximum g + 1) * Z.shiftr maximum (shift_of maximum) / g) in *.
  assert (next_at value maximum g = (q + 1) * 2 ^ shift_of maximum) as En by (unfold next_at; rewrite Z.shiftl_mul_pow2 by lia; done).
  assert (0 < 2 ^ shift_of maximum) as Hpos by (apply Z.pow_pos_nonneg; lia).
  assert ((step_at value maximum g + 1) * Z.shiftr maximum (shift_of maximum) < (q + 1) * g) as Hq.
  { unfold q. pose proof (Z.mul_succ_div_gt ((step_at value maximum g + 1) * Z.shiftr maximum (shift_of maximum)) g ltac:(lia)). lia. }
  assert (q * g <= (step_at value maximum g + 1) * Z.shiftr maximum (shift_of maximum)) as Hq'.
  { unfold q. pose proof (Z.mul_div_le ((step_at value maximum g + 1) * Z.shiftr maximum (shift_of maximum)) g ltac:(lia)). lia. }
  clearbody q. split_and!; [lia|lia| | |].
  - rewrite En. rewrite Z.shiftr_div_pow2 in B3 by lia. pose proof (Z.mul_succ_div_gt value (2 ^ shift_of maximum) Hpos). nia.
  - intros v Hv'. assert (0 <= next_at value maximum g) by (rewrite En; nia). rewrite progress_exact by lia. cbn [fst].
    apply Z.le_succ_l. unfold step_at at 2. apply Z.div_le_lower_bound; [lia|].
    assert (q + 1 <= Z.shiftr v (shift_of maximum)) by (rewrite Z.shiftr_div_pow2 by lia; apply Z.div_le_lower_bound; lia). nia.
  - intros v Hv' Hlt. rewrite progress_exact by lia. cbn [fst]. rewrite En, Z.shiftr_div_pow2, (Z.shiftr_div_pow2 _ (shift_of maximum)), Z.div_mul in Hlt by lia.
    apply Z.lt_succ_r. unfold step_at at 1. rewrite Z.shiftr_div_pow2 by lia. apply Z.div_lt_upper_bound; [lia|]. nia.
Qed.

(** ** What the program may change *)

Definition allowed (b : Z) : bool :=
  bool_decide (b ∈ map action_bit [TOI_REBOOT; TOI_PAUSE; TOI_LOGALL; TOI_SINGLESTEP; TOI_PAUSE_NEAR_PAGESET_END]).

Lemma mask_bits b : 0 <= b < 32 -> Z.testbit toi_action_mask b = allowed b.
Proof.
  intros Hb. assert (Forall (fun b => Z.testbit toi_action_mask b = allowed b) (seqZ 0 32)) as Hall by (by apply (bool_decide_unpack _)).
  apply (proj1 (Forall_forall _ _) Hall). apply elem_of_seqZ. lia.
Qed.

(** Every action keeps its value but the five, which are set as the program asks. *)
Lemma set_state_bits n s :
  wp (ui_nl_set_state n)
    (fun _ s' => forall b, 0 <= b < 32 ->
       Z.testbit (ui_action (nl_world s')) b = if allowed b then Z.testbit (u32 n) b else Z.testbit (ui_action (nl_world s)) b) s.
Proof.
  unfold ui_nl_set_state. apply wp_bind. unfold set_ui at 1, modify, wp at 1. apply wp_bind. unfold ui_var at 1. cbn [wp get].
  match goal with |- wp _ ?Q ?st => assert (Q tt st) as HQ end.
  { intros b Hb. cbn. rewrite Z.lor_spec, !Z.land_spec. unfold u32 at 1. rewrite Z.mod_pow2_bits_low, Z.lnot_spec by lia.
    rewrite mask_bits by done. destruct (allowed b); cbn [negb]; by rewrite ?andb_false_r, ?andb_true_r, ?orb_false_r. }
  destruct (negb _ && negb _); exact HQ.
Qed.

(** ** Aborts and pauses *)

(** Whether the program is there, and the words of state. *)
Definition ui_core (s : nl_state ui_vars) : Z * Z * Z * Z :=
  (pid (helpers s ui_helper), ui_result (nl_world s), ui_state (nl_world s), ui_action (nl_world s)).

Create HintDb within.

Section Frame.
Context (calls : nl_calls ui_vars) (R : relation (nl_state ui_vars)).

Definition within {A} (m : M (nl_state ui_vars) A) : Prop := forall s, wp m (fun _ s' => R s s') s.

(** What sending a message does to the state stays within [R], as does a
    change that does not touch the core. *)
Class Frame : Prop := {
  fr_pre :: PreOrder R;
  fr_core s s' : ui_core s' = ui_core s -> R s s';
  fr_alloc n : within (alloc_skb calls n);
  fr_free b : within (kfree_skb calls b);
  fr_unicast b q ty ps p : within (netlink_unicast calls b q ty ps p);
  fr_find p : within (find_task_by_pid calls p);
  fr_wake p : within (wake_up_and_yield calls p)
}.

Context {HF : Frame}.

Lemma within_bind {A B} (m : M (nl_state ui_vars) A) (k : A -> M (nl_state ui_vars) B) :
  within m -> (forall a, within (k a)) -> within (bind m k).
Proof using HF.
  intros Hm Hk s. apply wp_bind. eapply wp_mono; [apply Hm|]. intros a s1 H1. eapply wp_mono; [apply Hk|].
  intros b s2 H2. by transitivity s1.
Qed.

Lemma within_ret {A} (a : A) : within (ret a).
Proof using HF. intros s. exact (fr_core s s eq_refl). Qed.

Lemma within_get {A} (f : nl_state ui_vars -> A) : within (get f).
Proof using HF. intros s. exact (fr_core s s eq_refl). Qed.

Lemma within_update f : (forall u, pid (f u) = pid u) -> within (update ui_helper f).
Proof using HF. intros Hf s. apply fr_core. unfold ui_core. cbn. by rewrite fn_lookup_insert, Hf. Qed.

Lemma within_set f :
  (forall v, ui_result (f v) = ui_result v /\ ui_state (f v) = ui_state v /\ ui_action (f v) = ui_action v) -> within (set_ui f).
Proof using HF. intros Hf s. apply fr_core. unfold ui_core. cbn. by destruct (Hf (nl_world s)) as (-> & -> & ->). Qed.

#[local] Hint Resolve fr_alloc fr_free fr_unicast fr_find fr_wake : within.

Ltac staying :=
  repeat match goal with
  | |- within (bind _ _) => apply within_bind; [|intros]
  | |- within (if _ then _ else _) => case_match
  | |- within (match _ with _ => _ end) => case_match
  | |- within (ret _) => apply within_ret
  | |- within (get _) => apply within_get
  | |- within (uhd_field _ _) => apply within_get
  | |- within (ui_var _) => apply within_get
  | |- within (update _ _) => by apply within_update
  | |- within (set_ui _) => by apply within_set
  | |- _ => solve [auto with within]
  end.

Lemma send_within ty ps : within (toi_send_netlink_message calls ui_helper ty ps).
Proof using HF. unfold toi_send_netlink_message, toi_get_skb, put_skb. staying. Qed.

#[local] Hint Resolve send_within : within.

(** Titles, messages and progress change nothing but what is shown. *)
Lemma prepare_status_within level fmt clearbar text : within (userui_prepare_status calls level fmt clearbar text).
Proof using HF. unfold userui_prepare_status, userui_update_status, userui_message. staying. Qed.
End Frame.

Section Aborts.
Context (calls : nl_calls ui_vars) (level : Z) (fmt : list Z -> list Z) (wait schedule : M (nl_state ui_vars) unit).

Definition same_core (s s' : nl_state ui_vars) : Prop := ui_core s' = ui_core s.

Lemma wait_within R : Frame calls R -> within R wait -> within R (userui_wait_for_keypress wait).
Proof.
  intros HF Hw s. unfold userui_wait_for_keypress. apply wp_bind. unfold uhd_field. cbn [wp get]. destruct (_ =? -1).
  - by apply (fr_core calls R).
  - apply wp_bind. eapply wp_mono; [apply Hw|]. done.
Qed.

(** Whatever the messages lead to, a pause returns after the title has been
    shown and one key been waited for. *)
Lemma pause_returns pause message :
  Frame calls (fun _ _ => True) -> returns wait -> returns schedule ->
  returns (userui_cond_pause calls level fmt wait schedule pause message).
Proof.
  intros HF Hw Hs. unfold userui_cond_pause. apply returns_bind; [|intros; apply Hs].
  intros s. cbn [pause_loop]. apply wp_bind. unfold uhd_field at 1. cbn [wp get]. apply wp_bind.
  unfold ui_var at 1. cbn [wp get]. destruct (negb (_ && _ && _)); [done|].
  apply wp_bind. eapply wp_mono; [apply (prepare_status_within calls (fun _ _ => True))|]. intros [] s1 _.
  apply wp_bind. unfold userui_wait_for_keypress. apply wp_bind. unfold uhd_field at 1. cbn [wp get].
  destruct (_ =? -1) eqn:E.
  - cbn [wp ret]. apply wp_bind. unfold uhd_field at 1. cbn [wp get]. apply wp_bind. unfold ui_var at 1. cbn [wp get]. by rewrite E.
  - apply wp_bind. eapply wp_mono; [apply Hw|]. intros [] s2 _. cbn [wp ret].
    apply wp_bind. unfold uhd_field at 1. cbn [wp get]. apply wp_bind. unfold ui_var at 1. cbn [wp get]. done.
Qed.

(** The result of an abort is what the rest of the code takes it to be, if
    its text leaves room for the words behind it. *)
Lemma abort_result f text s :
  Frame calls same_core -> within same_core wait -> Z.of_nat (length text) <= 997 ->
  wp (userui_abort calls level fmt wait f text)
    (fun _ s' => ui_result (nl_world s') = States.userui_abort_hibernate f (ui_result (nl_world s))) s.
Proof.
  intros HF Hw Hl. unfold userui_abort, States.userui_abort_hibernate. apply wp_bind. unfold set_ui at 1, modify, wp at 1.
  apply wp_bind. unfold ui_var at 1. cbn [wp get nl_world].
  match goal with |- wp _ _ ?st => set (s1 := st) end.
  change (ui_result (nl_world s1)) with (set_result_state f (ui_result (nl_world s))).
  destruct (test_result_state TOI_ABORTED _); [done|]. apply wp_bind. unfold set_ui at 1, modify, wp at 1.
  apply wp_bind. unfold ui_var at 1. cbn [wp get]. match goal with |- wp _ _ ?st => set (s2 := st) end.
  change (set_result_state TOI_ABORTED (set_result_state f (ui_result (nl_world s)))) with (ui_result (nl_world s2)).
  destruct (test_result_state TOI_ABORT_REQUESTED _); [done|]. apply wp_bind. unfold uhd_field at 1. cbn [wp get].
  rewrite (proj2 (Z.ltb_ge 1024 _)) by (change (Z.of_nat (length press_space)) with 26; lia). rewrite andb_false_r.
  apply wp_bind. cbn [wp ret]. apply wp_bind. eapply wp_mono; [apply (prepare_status_within calls same_core)|]. intros [] s3 H3.
  apply wp_bind. unfold uhd_field at 1. cbn [wp get]. destruct (_ =? -1); [cbn [wp ret]; unfold same_core, ui_core in H3; congruence|].
  apply wp_bind. eapply wp_mono; [by apply wait_within|]. intros k s4 H4. cbn [wp ret]. unfold same_core, ui_core in *. congruence.
Qed.

(** A longer one is written behind the buffer. *)
Lemma abort_overrun f text s :
  pid (helpers s ui_helper) <> -1 -> Z.of_nat (length text) > 997 ->
  test_result_state TOI_ABORTED (set_result_state f (ui_result (nl_world s))) = false ->
  test_result_state TOI_ABORT_REQUESTED (set_result_state TOI_ABORTED (set_result_state f (ui_result (nl_world s)))) = false ->
  userui_abort calls level fmt wait f text s = None.
Proof.
  intros Hp Hl Ha Hr. unfold userui_abort, bind, set_ui, modify, ui_var, get, uhd_field. cbn -[press_space length test_result_state set_result_state Z.of_nat Z.ltb Z.add].
  rewrite Ha. cbn -[press_space length test_result_state set_result_state Z.of_nat Z.ltb Z.add]. rewrite Hr. rewrite (proj2 (Z.eqb_neq _ _)) by done.
  by rewrite (proj2 (Z.ltb_lt 1024 _)) by (change (Z.of_nat (length press_space)) with 26; lia).
Qed.

(** The user's cancellation of a hibernation is recorded, and only once. *)
Lemma escape_aborts mark down fuel s :
  Frame calls same_core -> test_toi_state TOI_NOW_RESUMING (ui_state (nl_world s)) = false ->
  wp (request_abort_hibernate calls level fmt schedule mark down fuel)
    (fun _ s' => if test_result_state TOI_ABORT_REQUESTED (ui_result (nl_world s)) then s' = s
       else ui_result (nl_world s') = set_abort_result TOI_ABORT_REQUESTED (ui_result (nl_world s))) s.
Proof.
  intros HF Hn. unfold request_abort_hibernate. apply wp_bind. unfold ui_var at 1. cbn [wp get].
  destruct (test_result_state _ _); [done|]. apply wp_bind. unfold ui_var at 1. cbn [wp get]. rewrite Hn.
  apply wp_bind. cbn [wp ret]. apply wp_bind. eapply wp_mono; [apply (prepare_status_within calls same_core)|]. intros [] s1 H1.
  apply wp_bind. unfold set_ui at 1, modify, wp at 1. unfold wake_up_waiter, set_ui, modify, wp. cbn.
  unfold same_core, ui_core in H1. congruence.
Qed.
End Aborts.

(** ** The configuration *)

(** What is saved is loaded by a kernel in which the program was not set. *)
Lemma config_roundtrip v v' byte :
  - 2 ^ 31 <= progress_granularity v < 2 ^ 31 -> length (ui_program v) = 256%nat -> ui_program v !! 255%nat = Some 0 ->
  ui_helper_changed v' = false -> length (ui_program v') = 256%nat ->
  let '(buf, size) := userui_save_config_info v in
  let loaded := userui_load_config_info (buf ++ [byte]) size v' in
  progress_granularity loaded = progress_granularity v /\ ui_program loaded = ui_program v.
Proof.
  intros Hg Hl Hz Hc Hl'. unfold userui_save_config_info, userui_load_config_info.
  cbn -[le_bytes le_val take drop insert Z.to_nat app]. rewrite Hc. cbn [progress_granularity ui_program]. rewrite <- app_assoc.
  rewrite take_app_le, take_ge by (rewrite length_le_bytes; lia). rewrite drop_app_ge by (rewrite length_le_bytes; lia).
  rewrite length_le_bytes, Nat.sub_diag, drop_0, le_val_bytes4, s32_u32.
  change (Z.to_nat (if program_size + sizeof_int + 1 - sizeof_int >? program_size then program_size else _)) with 256%nat.
  rewrite take_app_le, take_ge, drop_ge, app_nil_r, list_insert_id by (done || lia). split; [by apply s32_small|done].
Qed.
