(* ===== verification/Launch.v ===== *)
(** * Launching a userspace program

    [toi_launch_userspace_program] of kernel/power/tuxonice_highlevel.c: the
    command is cut into words, the words and the options are put into the
    static array [argv], and the helper is called with it.  A command is the
    bytes from its start to the end of the array it is in; blocks of memory are
    at addresses and hold strings.  [None] is an access outside of an array, a
    string copied to a null pointer, or a block freed twice. *)

From S2P Require Import Prelude Vsprintf CString.
From stdpp Require Import numbers base list gmap.
#[local] Open Scope Z_scope.
#[local] Open Scope step_scope.

(** ["%s"] of [vsscanf]: the white space, then the word. *)
Fixpoint skip_space (str : list Z) : list Z :=
  match str with
  | c :: str' => if isspace c then skip_space str' else str
  | [] => []
  end.

Fixpoint word (str : list Z) : list Z :=
  match str with
  | c :: str' => if isspace c then [] else c :: word str'
  | [] => []
  end.

(** At the end of the string nothing is stored. *)
Definition sscanf_s (str old : list Z) : list Z :=
  match str with
  | [] => old
  | _ => word (skip_space str)
  end.

Record launch_state := LaunchState {
  argv : list Z;
  blocks : gmap Z (list Z);
  launched : list (list (option (list Z)))   (* the arguments of each call of the helper *)
}.

#[export] Instance eta_launch_state : Eta launch_state := fun s =>
  LaunchState (argv s) (blocks s) (launched s).

Section Launch.
(** The address of a new block, if one can be had; the result of the helper. *)
Context (new_block : gmap Z (list Z) -> option Z).
Context (call_usermodehelper : list (option (list Z)) -> Z).

#[local] Abbreviation C := (M launch_state).

Definition toi_kzalloc : C Z := fun s =>
  match new_block (blocks s) with
  | None => Some (s, 0)
  | Some p => Some (s {{ blocks := <[p := []]> (blocks s) }}, p)
  end.

Definition toi_kfree (p : Z) : C unit := fun s =>
  if p =? 0 then Some (s, tt)
  else
    match blocks s !! p with
    | None => None
    | Some _ => Some (s {{ blocks := delete p (blocks s) }}, tt)
    end.

(** [strcpy] and [sprintf] to a block. *)
Definition put_string (p : Z) (text : list Z) : C unit := fun s =>
  if p =? 0 then None else Some (s {{ blocks := <[p := text]> (blocks s) }}, tt).

Definition set_argv (i : nat) (p : Z) : C unit := fun s =>
  if (i <? length (argv s))%nat then Some (s {{ argv := <[i := p]> (argv s) }}, tt) else None.

(** The pointers up to the null one. *)
Fixpoint up_to_null (l : list Z) : option (list Z) :=
  match l with
  | [] => None
  | p :: l' => if p =? 0 then Some [] else cons p <$> up_to_null l'
  end.

Definition call_helper : C Z := fun s =>
  match up_to_null (argv s) with
  | None => None
  | Some ps =>
      let args := map (fun p => blocks s !! p) ps in
      Some (s {{ launched := launched s ++ [args] }}, call_usermodehelper args)
  end.

(** The words of the command, at most [n] more; [posn] is where [orig_posn]
    points to, [test_read] what the buffer holds. *)
Fixpoint parse_words (n arg posn : nat) (command test_read : list Z) : C nat :=
  match n with
  | O => ret arg
  | S n' => fun s =>
      match c_string (drop posn command) with
      | None => None
      | Some str =>
          let test_read := sscanf_s str test_read in
          let size := length test_read in
          if (255 <=? size)%nat then None
          else if (size =? 0)%nat then Some (s, arg)
          else
            (p <-- toi_kzalloc ;;
             set_argv arg p ;;;
             put_string p test_read ;;;
             parse_words n' (S arg) (posn + size + 1) command []) s
      end
  end.

(** [for (i = 0; i < arg; i++)]: the arguments but the channel. *)
Fixpoint free_args (ps : list Z) (channel : Z) : C unit :=
  match ps with
  | [] => ret tt
  | p :: ps' =>
      (if negb (p =? 0) && negb (p =? channel) then toi_kfree p else ret tt) ;;;
      free_args ps' channel
  end.

(** [-c] and the number. *)
Definition channel_text (channel_no : Z) : list Z :=
  [45; 99] ++ number (u64 channel_no) (PrintfSpec SIGN (-1) 10 (-1)).

(** [--debug] *)
Definition debug_text : list Z := [45; 45; 100; 101; 98; 117; 103].

Definition toi_launch_userspace_program (command : list Z) (channel_no : Z) (debug : bool) : C Z := fun s =>
  match c_string command with
  | None => None
  | Some [] => Some (s, 1)
  | Some _ =>
      (channel <-- (if negb (channel_no =? 0) then toi_kzalloc else ret 0) ;;
       if negb (channel_no =? 0) && (channel =? 0) then ret 1 else
       arg <-- parse_words 6 0 0 command [] ;;
       arg <-- (if negb (channel_no =? 0) then
                  (if (length (channel_text channel_no) <? 6)%nat then put_string channel (channel_text channel_no) else bug) ;;;
                  set_argv arg channel ;;;
                  ret (Z.of_nat arg)
                else ret (Z.of_nat arg - 1)) ;;
       arg <-- (if debug then
                  p <-- toi_kzalloc ;;
                  set_argv (Z.to_nat (arg + 1)) p ;;;
                  put_string p debug_text ;;;
                  ret (arg + 1)
                else ret arg) ;;
       retval <-- call_helper ;;
       ps <-- get argv ;;
       free_args (take (Z.to_nat arg) ps) channel ;;;
       toi_kfree channel ;;;
       ret retval) s
  end.
End Launch.
