(* ===== verification/LaunchFacts.v ===== *)
(** * What a launched program is given

    A command of words with single spaces between them reaches the helper as
    exactly these words, the channel and the debugging option after them; but
    the array of arguments is static and its entries are not cleared, so that
    a shorter command launched later is given the rest of the longer one, whose
    blocks have been freed. *)

From S2P Require Import Prelude Vsprintf CString Launch.
From stdpp Require Import numbers base list gmap.
#[local] Open Scope Z_scope.
#[local] Open Scope step_scope.

(** ** Words *)

Definition word_ok (w : list Z) : Prop :=
  w <> [] /\ (length w < 255)%nat /\ Forall (fun c => c <> 0 /\ isspace c = false) w.

#[export] Instance word_ok_dec w : Decision (word_ok w).
Proof. unfold word_ok. apply _. Defined.

(** Single spaces between the words. *)
Fixpoint text (ws : list (list Z)) : list Z :=
  match ws with
  | [] => []
  | [w] => w
  | w :: ws' => w ++ 32 :: text ws'
  end.

(** In its array, which is cleared beyond the command. *)
Definition command (ws : list (list Z)) (rest : list Z) : list Z := text ws ++ 0 :: 0 :: rest.

Lemma word_first w l : word_ok w -> (l = [] \/ exists l', l = 32 :: l') -> sscanf_s (w ++ l) [] = w.
Proof.
  intros (Hne & _ & Hw) Hl. destruct w as [|c w]; [done|]. cbn [sscanf_s app].
  apply Forall_cons_1 in Hw as [[_ Hc] Hw]. cbn [skip_space]. rewrite Hc. cbn [word]. rewrite Hc. f_equal.
  clear Hne Hc. induction Hw as [|d w [_ Hd] _ IH]; cbn [word app].
  - by destruct Hl as [->|[l' ->]].
  - by rewrite Hd, IH.
Qed.

Lemma text_chars ws : Forall word_ok ws -> Forall (fun c => c <> 0) (text ws).
Proof.
  assert (forall w, word_ok w -> Forall (fun c => c <> 0) w) as Hw.
  { intros w (_ & _ & H). eapply Forall_impl; [exact H|]. by intros ? []. }
  induction 1 as [|w ws H Hws IH]; [constructor|]. destruct ws as [|w' ws]; [by apply Hw|].
  change (text (w :: w' :: ws)) with (w ++ 32 :: text (w' :: ws)).
  apply Forall_app. split; [by apply Hw|]. by constructor.
Qed.

Section Supply.
Context (new_block : gmap Z (list Z) -> option Z) (call_usermodehelper : list (option (list Z)) -> Z).

(** Memory can be had, at new addresses. *)
Class Supply : Prop :=
  supply b : exists p, new_block b = Some p /\ p <> 0 /\ b !! p = None.

Context {HS : Supply}.

(** New blocks at [ps] that hold [ws]. *)
Record placed (s s' : launch_state) (ps : list Z) (ws : list (list Z)) : Prop := {
  pl_old p : blocks s !! p <> None -> blocks s' !! p = blocks s !! p;
  pl_new : Forall (fun p => p <> 0 /\ blocks s !! p = None) ps;
  pl_nodup : NoDup ps;
  pl_text : Forall2 (fun p w => blocks s' !! p = Some w) ps ws;
  pl_launched : launched s' = launched s
}.

(** One string more. *)
Lemma add_string {T} i w (s : launch_state) (k : M launch_state T) Q :
  (i < length (argv s))%nat ->
  (forall p, p <> 0 -> blocks s !! p = None ->
     wp k Q (LaunchState (<[i := p]> (argv s)) (<[p := w]> (blocks s)) (launched s))) ->
  wp (p <-- toi_kzalloc new_block ;; set_argv i p ;;; put_string p w ;;; k) Q s.
Proof using HS.
  intros Hi Hk. destruct (supply (blocks s)) as (p & Hp & H0 & Hn). specialize (Hk p H0 Hn).
  apply wp_bind. unfold toi_kzalloc, wp at 1. rewrite Hp. apply wp_bind. unfold set_argv, wp at 1. cbn [argv set_field].
  simpl. rewrite (proj2 (Nat.ltb_lt _ _)) by done. apply wp_bind. unfold put_string, wp at 1. rewrite (proj2 (Z.eqb_neq _ _)) by done.
  simpl. rewrite insert_insert_eq. exact Hk.
Qed.
(** A block added before others. *)
Lemma placed_more s i p w s' ps ws :
  p <> 0 -> blocks s !! p = None ->
  placed (LaunchState (<[i := p]> (argv s)) (<[p := w]> (blocks s)) (launched s)) s' ps ws ->
  placed s s' (p :: ps) (w :: ws).
Proof.
  intros H0 Hn [Ho Hnew Hnd Ht Hl]. cbn [blocks launched] in *.
  assert (p ∉ ps) as Hp.
  { intros Hin. destruct (proj1 (Forall_forall _ _) Hnew p Hin) as [_ E]. by rewrite lookup_insert_eq in E. }
  split.
  - intros q Hq. assert (q <> p) by congruence. rewrite Ho by (by rewrite lookup_insert_ne). by rewrite lookup_insert_ne.
  - constructor; [done|]. apply Forall_forall. intros q Hq. destruct (proj1 (Forall_forall _ _) Hnew q Hq) as [Hq0 E].
    split; [done|]. rewrite lookup_insert_ne in E; [done|congruence].
  - by constructor.
  - constructor; [|done]. rewrite Ho; by rewrite lookup_insert_eq.
  - done.
Qed.

Lemma placed_none s : placed s s [] [].
Proof. split; [done|constructor|constructor|constructor|done]. Qed.

Lemma insert_between {A} (l : list A) i p ps n :
  (i < length l)%nat -> take (S i) (<[i := p]> l) ++ ps ++ drop (S i + n) (<[i := p]> l) =
  take i l ++ (p :: ps) ++ drop (i + S n) l.
Proof.
  intros Hi. rewrite drop_insert_lt by lia. replace (S i + n)%nat with (i + S n)%nat by lia.
  rewrite (take_S_r _ i p) by (by apply list_lookup_insert_eq). rewrite take_insert_ge by lia. by rewrite <- app_assoc.
Qed.

Lemma parse_spec ws : forall n arg pre rest s,
  ws <> [] -> Forall word_ok ws -> (length ws <= n)%nat -> (arg + length ws <= length (argv s))%nat ->
  wp (parse_words new_block n arg (length pre) (pre ++ command ws rest) [])
    (fun r s' => r = (arg + length ws)%nat /\
       exists ps, placed s s' ps ws /\ argv s' = take arg (argv s) ++ ps ++ drop (arg + length ws) (argv s)) s.
Proof using HS.
  induction ws as [|w ws IH]; intros n arg pre rest s Hne Hok Hn Ha; [done|]. clear Hne.
  destruct n as [|n]; [simpl in Hn; lia|]. cbn [length] in *. apply Forall_cons_1 in Hok as [Hw Hok]. pose proof Hw as (_ & Hlen & _).
  unfold wp. cbn [parse_words]. rewrite drop_app_length. unfold command at 1.
  rewrite c_string_app by (apply text_chars; by constructor).
  assert (sscanf_s (text (w :: ws)) [] = w) as ->.
  { destruct ws; [cbn [text]; rewrite <- (app_nil_r w) at 1; apply (word_first w []); auto|]. apply word_first; eauto. }
  rewrite (proj2 (Nat.leb_gt _ _)) by done. destruct (length w =? 0)%nat eqn:E0.
  { apply Nat.eqb_eq in E0. destruct Hw as [Hne _]. by destruct w. }
  apply (add_string arg w s); [lia|]. intros p H0 Hnew. set (s1 := LaunchState _ _ _).
  assert (length (argv s1) = length (argv s)) as Hl1 by apply length_insert.
  assert (wp (parse_words new_block n (S arg) (length pre + length w + 1) (pre ++ command (w :: ws) rest) [])
    (fun r s' => r = (S arg + length ws)%nat /\ exists ps, placed s1 s' ps ws /\
       argv s' = take (S arg) (argv s1) ++ ps ++ drop (S arg + length ws) (argv s1)) s1) as Hrest.
  { destruct ws as [|w' ws].
    - assert (Some (s1, S arg) = Some (s1, (S arg + 0)%nat)) as Eq by (by rewrite Nat.add_0_r).
      unfold wp. replace (parse_words _ _ _ _ _ _ s1) with (Some (s1, (S arg + 0)%nat)); [|rewrite <- Eq].
      { split; [done|]. exists []. split; [apply placed_none|]. cbn [length app]. by rewrite Nat.add_0_r, take_drop. }
      destruct n as [|n]; [done|]. cbn [parse_words].
      assert (drop (length pre + length w + 1) (pre ++ command [w] rest) = 0 :: rest) as ->; [|done].
      unfold command. cbn [text]. rewrite drop_app_ge, drop_app_ge by lia.
      by replace (length pre + length w + 1 - length pre - length w)%nat with 1%nat by lia.
    - replace (pre ++ command (w :: w' :: ws) rest) with ((pre ++ w ++ [32]) ++ command (w' :: ws) rest)
        by (unfold command; cbn [text]; by rewrite <- !app_assoc).
      replace (length pre + length w + 1)%nat with (length (pre ++ w ++ [32])) by (rewrite !length_app; simpl; lia).
      apply IH; [done|done|lia|rewrite Hl1; lia]. }
  eapply wp_mono; [exact Hrest|]. intros r s' [-> (ps & Hps & Hargv)]. split; [lia|].
  exists (p :: ps). split; [by eapply placed_more|]. rewrite Hargv. apply insert_between. lia.
Qed.
(** ** The call and what follows *)

Lemma up_to_null_app ps l : Forall (fun p => p <> 0) ps -> up_to_null (ps ++ l) = app ps <$> up_to_null l.
Proof.
  induction 1 as [|p ps Hp _ IH]; cbn [up_to_null app]; [by destruct (up_to_null l)|].
  rewrite (proj2 (Z.eqb_neq _ _)), IH by done. by destruct (up_to_null l).
Qed.

Lemma free_args_spec ps channel s :
  NoDup ps -> Forall (fun p => blocks s !! p <> None) ps ->
  wp (free_args ps channel)
    (fun _ s' => argv s' = argv s /\ launched s' = launched s /\
       (blocks s !! channel <> None -> blocks s' !! channel <> None)) s.
Proof.
  intros Hnd. revert s. induction Hnd as [|p ps Hp Hnd IH]; intros s Hl; cbn [free_args]; [done|].
  apply Forall_cons_1 in Hl as [Hlp Hl]. apply wp_bind. destruct (negb (p =? 0) && negb (p =? channel)) eqn:E.
  - breflect. unfold toi_kfree, wp at 1. rewrite (proj2 (Z.eqb_neq _ _)) by done.
    destruct (blocks s !! p); [|done]. eapply wp_mono; [apply IH|].
    + apply Forall_forall. intros q Hq. simpl. rewrite lookup_delete_ne by (by intros ->). by eapply (proj1 (Forall_forall _ _) Hl).
    + intros [] s' (Ha & Hla & Hc). split_and!; [done|done|]. intros Hch. apply Hc. simpl. by rewrite lookup_delete_ne by congruence.
  - by apply IH.
Qed.

(** What is left to do when the array is filled in: [qs] are the new entries, with the strings [ts]. *)
Lemma launch_tail A qs ts stale k channel s :
  argv s = qs ++ drop (length qs) A -> up_to_null (drop (length qs) A) = Some stale ->
  Forall (fun p => p <> 0) qs -> NoDup qs -> Forall2 (fun p w => blocks s !! p = Some w) qs ts ->
  (k <= length qs)%nat -> (channel = 0 \/ channel ∈ qs) ->
  wp (retval <-- call_helper call_usermodehelper ;; ps <-- get argv ;;
      free_args (take k ps) channel ;;; toi_kfree channel ;;; ret retval)
    (fun r s' => argv s' = argv s /\ exists rest, length rest = length stale /\
       launched s' = launched s ++ [map Some ts ++ rest] /\ r = call_usermodehelper (map Some ts ++ rest)) s.
Proof.
  intros HA Hst Hnz Hnd Hts Hk Hch. apply wp_bind. unfold call_helper, wp at 1. rewrite HA, up_to_null_app, Hst by done. cbn [fmap option_fmap option_map].
  set (args := map _ _). assert (args = map Some ts ++ map (fun p => blocks s !! p) stale) as ->.
  { unfold args. rewrite map_app. f_equal. clear -Hts. induction Hts as [|p w qs ts E _ IH]; [done|]. cbn [map]. by rewrite E, IH. }
  assert (forall q, q ∈ qs -> blocks s !! q <> None) as Hlive.
  { intros q Hq. apply list_elem_of_lookup in Hq as [i Hi]. destruct (Forall2_lookup_l _ _ _ _ _ Hts Hi) as (w & _ & E). congruence. }
  set (s1 := set_field launched _ s). apply wp_bind. cbn [wp get]. apply wp_bind.
  assert (take k (argv s1) = take k qs) as ->.
  { change (argv s1) with (argv s). rewrite HA. by apply take_app_le. }
  eapply wp_mono; [apply (free_args_spec (take k qs) channel s1)|].
  - by apply (sublist_NoDup _ qs), sublist_take.
  - apply Forall_forall. intros q Hq. apply Hlive. by eapply (subseteq_take k).
  - intros [] s' (Ha & Hl & Hc). apply wp_bind. unfold toi_kfree, wp at 1.
    assert (exists rest, length rest = length stale /\ launched s' = launched s ++ [map Some ts ++ rest] /\
      call_usermodehelper (map Some ts ++ map (fun p => blocks s !! p) stale) = call_usermodehelper (map Some ts ++ rest)) as Hpost.
    { exists (map (fun p => blocks s !! p) stale). by rewrite length_map, Hl. }
    destruct (channel =? 0) eqn:E0; [split; [exact (eq_trans Ha HA)|exact Hpost]|]. breflect. destruct Hch as [?|Hch]; [done|].
    destruct (blocks s' !! channel) eqn:Eb; [split; [exact (eq_trans Ha HA)|exact Hpost]|]. exfalso. apply (Hc (Hlive channel Hch)). done.
Qed.
(** A command without options, whatever earlier launches left in the array. *)
Lemma launch_plain ws rest stale s :
  ws <> [] -> Forall word_ok ws -> (length ws <= 6)%nat -> length (argv s) = 8%nat ->
  up_to_null (drop (length ws) (argv s)) = Some stale ->
  wp (toi_launch_userspace_program new_block call_usermodehelper (command ws rest) 0 false)
    (fun r s' => exists ps others, length ps = length ws /\ Forall (fun p => p <> 0) ps /\
       argv s' = ps ++ drop (length ws) (argv s) /\ length others = length stale /\
       launched s' = launched s ++ [map Some ws ++ others]) s.
Proof using HS.
  intros Hne Hok Hlen H8 Hst. unfold wp, toi_launch_userspace_program. unfold command at 1.
  rewrite c_string_app by (by apply text_chars).
  destruct (text ws) as [|c l] eqn:Et.
  { destruct ws as [|w [|w' ws]]; [done|..]; apply Forall_cons_1 in Hok as [[Hw _] _]; destruct w; done. }
  clear c l Et. change (wp (channel <-- ret 0 ;;
    arg <-- parse_words new_block 6 0 0 (command ws rest) [] ;;
    arg <-- ret (Z.of_nat arg - 1) ;; arg <-- ret arg ;; retval <-- call_helper call_usermodehelper ;; ps <-- get argv ;;
    free_args (take (Z.to_nat arg) ps) 0 ;;; toi_kfree 0 ;;; ret retval)
    (fun r s' => exists ps others, length ps = length ws /\ Forall (fun p => p <> 0) ps /\
       argv s' = ps ++ drop (length ws) (argv s) /\ length others = length stale /\
       launched s' = launched s ++ [map Some ws ++ others]) s).
  apply wp_bind. cbn [wp ret]. apply wp_bind.
  eapply wp_mono; [apply (parse_spec ws 6 0 [] rest s); [done|done|lia|lia]|].
  intros arg s1 [-> (ps & [_ Hnew Hnd Htx Hl] & Ha)]. cbn [take app] in Ha. apply wp_bind. cbn [wp ret]. apply wp_bind. cbn [wp ret].
  pose proof (Forall2_length _ _ _ Htx) as Hps. assert (Forall (fun p => p <> 0) ps) as Hnz by (eapply Forall_impl; [exact Hnew|]; by intros ? []).
  eapply wp_mono; [apply (launch_tail (argv s) ps ws stale)|]; try done.
  - by rewrite Hps.
  - by rewrite Hps.
  - lia.
  - by left.
  - intros r s' (Ha' & others & Ho & Hlaunch & _). exists ps, others. split_and!; [done|done|by rewrite Ha'|done|by rewrite Hlaunch, Hl].
Qed.
(** The array with the entries [qs] in it, whose blocks hold [ts]. *)
Record filled (A qs : list Z) (ts : list (list Z)) (s : launch_state) : Prop := {
  f_argv : argv s = qs ++ drop (length qs) A;
  f_nonzero : Forall (fun p => p <> 0) qs;
  f_nodup : NoDup qs;
  f_text : Forall2 (fun p w => blocks s !! p = Some w) qs ts
}.

Lemma filled_add A qs ts s p w :
  filled A qs ts s -> p <> 0 -> p ∉ qs -> (length qs < length A)%nat ->
  filled A (qs ++ [p]) (ts ++ [w]) (LaunchState (<[length qs := p]> (argv s)) (<[p := w]> (blocks s)) (launched s)).
Proof.
  intros [Ha Hnz Hnd Ht] H0 Hp Hl. split; cbn [argv blocks].
  - rewrite Ha, length_app, insert_app_r_alt, Nat.sub_diag by lia. destruct (lookup_lt_is_Some_2 A _ Hl) as [q Hq].
    rewrite (drop_S _ _ _ Hq). cbn [insert list_insert length]. by rewrite Nat.add_1_r, <- app_assoc.
  - apply Forall_app. by split; [|constructor].
  - apply NoDup_app. split_and!; [done| |apply NoDup_singleton]. intros q Hq ->%list_elem_of_singleton. done.
  - apply Forall2_app.
    + clear - Ht Hp. induction Ht as [|q v qs ts E _ IH]; constructor; [by rewrite lookup_insert_ne by set_solver|apply IH; set_solver].
    + constructor; [|constructor]. apply lookup_insert_eq.
Qed.
(** The debugging option and the call, from the last entry on. *)
Lemma options_tail A qs ts (debug : bool) channel s :
  filled A qs ts s -> qs <> [] -> (length qs < length A)%nat -> channel = 0 \/ channel ∈ qs ->
  up_to_null (drop (length qs + if debug then 1 else 0) A) = Some [] ->
  wp (arg <-- (if debug then
                 p <-- toi_kzalloc new_block ;; set_argv (Z.to_nat (Z.of_nat (length qs) - 1 + 1)) p ;;;
                 put_string p debug_text ;;; ret (Z.of_nat (length qs) - 1 + 1)
               else ret (Z.of_nat (length qs) - 1)) ;;
      retval <-- call_helper call_usermodehelper ;; ps <-- get argv ;;
      free_args (take (Z.to_nat arg) ps) channel ;;; toi_kfree channel ;;; ret retval)
    (fun r s' => let args := map Some (ts ++ if debug then [debug_text] else []) in
       launched s' = launched s ++ [args] /\ r = call_usermodehelper args) s.
Proof using HS.
  intros Hf Hne Hl Hch Hnull. apply wp_bind. pose proof Hf as [Ha Hnz Hnd Ht]. destruct debug.
  - apply add_string; [rewrite Ha, length_app, length_drop; lia|]. intros p H0 Hn. cbn [wp ret].
    replace (Z.to_nat (Z.of_nat (length qs) - 1 + 1)) with (length qs) by lia.
    assert (p ∉ qs) as Hp.
    { intros Hin. apply list_elem_of_lookup in Hin as [i Hi]. destruct (Forall2_lookup_l _ _ _ _ _ Ht Hi) as (w & _ & E). congruence. }
    destruct (filled_add A qs ts s p debug_text Hf H0 Hp Hl) as [Ha' Hnz' Hnd' Ht'].
    eapply wp_mono; [apply (launch_tail A (qs ++ [p]) (ts ++ [debug_text]) []); try done|].
    + by rewrite length_app.
    + rewrite length_app. lia.
    + set_solver.
    + intros r s' (_ & [|] & Hr & Hla & ->); [|done]. rewrite app_nil_r in *. done.
  - cbn [wp ret]. rewrite Nat.add_0_r in Hnull. eapply wp_mono; [apply (launch_tail A qs ts []); try done; lia|].
    intros r s' (_ & [|] & Hr & Hla & ->); [|done]. rewrite !app_nil_r in *. done.
Qed.
Lemma null_after k n : (k < n)%nat -> up_to_null (drop k (replicate n 0)) = Some [].
Proof. intros Hk. rewrite drop_replicate. destruct (n - k)%nat eqn:E; [lia|done]. Qed.

Lemma text_nonempty ws : ws <> [] -> Forall word_ok ws -> text ws <> [].
Proof. destruct ws as [|w [|w' ws]]; [done|..]; intros _ Hok; apply Forall_cons_1 in Hok as [[Hw _] _]; by destruct w. Qed.

(** The words in the array. *)
Lemma words_filled n ps ws s s' :
  argv s = replicate n 0 -> placed s s' ps ws -> argv s' = take 0 (argv s) ++ ps ++ drop (0 + length ws) (argv s) ->
  filled (replicate n 0) ps ws s' /\ length ps = length ws.
Proof.
  intros Hs [_ Hnew Hnd Ht _] Ha. pose proof (Forall2_length _ _ _ Ht) as Hl. split; [|done]. split; try done.
  - by rewrite Ha, Hs, Hl.
  - eapply Forall_impl; [exact Hnew|]. by intros ? [].
Qed.

(** C35: the program gets what it was asked to be launched with.  With the
    array of arguments as it is at boot and memory to be had, a command of one
    to six words with single spaces between them is handed to the helper as
    exactly these words, then the channel if there is one, then --debug if
    debugging, as long as a null pointer is left at the end of the array; the
    result is the helper's. *)
Theorem launch_arguments (ws : list (list Z)) (rest : list Z) (channel_no : Z) (debug : bool) (s : launch_state) :
  ws <> [] -> Forall word_ok ws -> (length ws <= 6)%nat -> argv s = replicate 8 0 ->
  (length ws + (if (channel_no =? 0)%Z then 0 else 1) + (if debug then 1 else 0) <= 7)%nat ->
  (length (channel_text channel_no) < 6)%nat ->
  wp (toi_launch_userspace_program new_block call_usermodehelper (command ws rest) channel_no debug)
    (fun r s' =>
       let args := map Some ((ws ++ if channel_no =? 0 then [] else [channel_text channel_no]) ++
                             if debug then [debug_text] else []) in
       launched s' = launched s ++ [args] /\ r = call_usermodehelper args) s.
Proof using HS.
  intros Hne Hok Hlen H8 Hroom Hch. unfold wp, toi_launch_userspace_program. unfold command at 1.
  rewrite c_string_app by (by apply text_chars). pose proof (text_nonempty ws Hne Hok) as Htx.
  destruct (text ws) as [|c l]; [done|]. clear c l Htx. apply wp_bind.
  destruct (channel_no =? 0) eqn:Ec; cbn [negb andb].
  - cbn [wp ret]. apply wp_bind. eapply wp_mono; [apply (parse_spec ws 6 0 [] rest s); try done; rewrite H8; simpl; lia|].
    intros arg s1 [-> (ps & Hp & Ha)]. destruct (words_filled 8 ps ws s s1 H8 Hp Ha) as [Hf Hl].
    apply wp_bind. cbn [wp ret]. rewrite Nat.add_0_l, <- Hl.
    eapply wp_mono; [apply (options_tail (replicate 8 0) ps ws debug 0 s1); try done|].
    + destruct ps; [|done]. simpl in Hl. by destruct ws.
    + rewrite length_replicate. lia.
    + by left.
    + apply null_after. lia.
    + intros r s' [Hla ->]. rewrite app_nil_r. split; [|done]. by rewrite Hla, (pl_launched _ _ _ _ Hp).
  - destruct (supply (blocks s)) as (ch & Hnb & H0 & Hn). unfold toi_kzalloc at 1, wp at 1. rewrite Hnb.
    rewrite (proj2 (Z.eqb_neq _ _)) by done. set (s0 := set_field blocks _ s).
    apply wp_bind. eapply wp_mono; [apply (parse_spec ws 6 0 [] rest s0); try done; change (argv s0) with (argv s); rewrite H8; simpl; lia|].
    intros arg s1 [-> (ps & Hp & Ha)]. destruct (words_filled 8 ps ws s0 s1 H8 Hp Ha) as [Hf Hl].
    assert (ch ∉ ps) as Hnin.
    { intros Hin. destruct (proj1 (Forall_forall _ _) (pl_new _ _ _ _ Hp) ch Hin) as [_ E].
      change (blocks s0) with (<[ch := []]> (blocks s)) in E. by rewrite lookup_insert_eq in E. }
    apply wp_bind. rewrite (proj2 (Nat.ltb_lt _ _)) by done. apply wp_bind. unfold put_string at 1, wp at 1.
    rewrite (proj2 (Z.eqb_neq _ _)) by done. apply wp_bind. unfold set_argv, wp at 1. cbn [argv set_field].
    assert (length (argv s1) = 8%nat) as H81.
    { rewrite (f_argv _ _ _ _ Hf), length_app, length_drop, length_replicate. lia. }
    simpl. rewrite (proj2 (Nat.ltb_lt _ _)) by lia. cbn [wp ret].
    assert (filled (replicate 8 0) (ps ++ [ch]) (ws ++ [channel_text channel_no])
      (LaunchState (<[length ps := ch]> (argv s1)) (<[ch := channel_text channel_no]> (blocks s1)) (launched s1))) as Hf'
      by (apply filled_add; try done; rewrite length_replicate; lia).
    rewrite <- Hl. replace (Z.of_nat (length ps)) with (Z.of_nat (length (ps ++ [ch])) - 1) by (rewrite length_app; simpl; lia).
    eapply wp_mono; [apply (options_tail (replicate 8 0) (ps ++ [ch]) (ws ++ [channel_text channel_no]) debug ch _ Hf')|].
    + by destruct ps.
    + rewrite length_app, length_replicate. simpl. lia.
    + right. set_solver.
    + apply null_after. rewrite length_app. simpl. lia.
    + intros r s' [Hla ->]. split; [|done]. rewrite Hla. cbn [launched]. by rewrite (pl_launched _ _ _ _ Hp).
Qed.

(** C36: a later, shorter command is given the rest of an earlier one.  After a
    command of several words has been launched, launching a single word hands
    the helper as many arguments as the first command had: behind the word are
    pointers that the first launch left in the array. *)
Theorem stale_arguments (ws : list (list Z)) (w rest rest' : list Z) (s : launch_state) :
  ws <> [] -> Forall word_ok ws -> (length ws <= 6)%nat -> argv s = replicate 8 0 -> word_ok w ->
  wp (toi_launch_userspace_program new_block call_usermodehelper (command ws rest) 0 false ;;;
      toi_launch_userspace_program new_block call_usermodehelper (command [w] rest') 0 false)
    (fun _ s' => exists others, launched s' = launched s ++ [map Some ws; Some w :: others] /\
       length (Some w :: others) = length ws) s.
Proof using HS.
  intros Hne Hok Hlen H8 Hw. apply wp_bind. eapply wp_mono.
  { apply (launch_plain ws rest []); [done..|by rewrite H8|rewrite H8; apply null_after; lia]. }
  intros r s1 (ps & others & Hps & Hnz & Ha & Ho & Hl). destruct others; [|done]. rewrite app_nil_r in Hl.
  rewrite H8, drop_replicate in Ha. destruct ps as [|p ps]; [by destruct ws|].
  eapply wp_mono.
  { apply (launch_plain [w] rest' ps); [done|by constructor|simpl; lia| |]; rewrite Ha.
    - rewrite length_app, length_replicate. lia.
    - change (up_to_null (ps ++ replicate (8 - length ws) 0) = Some ps). apply Forall_cons_1 in Hnz as [_ Hnz]. rewrite up_to_null_app by done.
      destruct (8 - length ws)%nat eqn:E; [lia|]. cbn. by rewrite app_nil_r. }
  intros r' s2 (_ & others & _ & _ & _ & Ho' & Hl'). exists others. split; [by rewrite Hl', Hl, <- app_assoc|].
  cbn [length] in *. lia.
Qed.
End Supply.

(** ** Two launches *)

Module TwoLaunches.
(** Addresses above those in use. *)
Definition new_block (b : gmap Z (list Z)) : option Z := Some (1 + foldr Z.max 0 (elements (dom b))).

Lemma new_block_fresh b : new_block b = Some (1 + foldr Z.max 0 (elements (dom b))) /\
  1 + foldr Z.max 0 (elements (dom b)) <> 0 /\ b !! (1 + foldr Z.max 0 (elements (dom b))) = None.
Proof.
  assert (forall l x, x ∈ l -> x <= foldr Z.max 0 l) as Hmax.
  { induction l as [|y l IH]; intros x; cbn [foldr]; [set_solver|]. intros [->|Hx]%elem_of_cons; [lia|]. specialize (IH x Hx). lia. }
  assert (forall l, 0 <= foldr Z.max 0 l) as Hnn by (induction l; simpl; lia).
  specialize (Hnn (elements (dom b))). split_and!; [done|lia|]. apply not_elem_of_dom. intros Hin.
  apply elem_of_elements, Hmax in Hin. lia.
Qed.

#[global] Instance new_block_supply : Supply new_block.
Proof. intros b. eexists. apply new_block_fresh. Qed.

Definition boot : launch_state := LaunchState (replicate 8 0) ∅ [].

(** [ui -t] and [usm] *)
Definition ui : list (list Z) := [[117; 105]; [45; 116]].

Definition usm : list Z := [117; 115; 109].

Lemma ui_ok : Forall word_ok ui.
Proof. by apply (bool_decide_unpack _). Qed.

Lemma usm_ok : word_ok usm.
Proof. by apply (bool_decide_unpack _). Qed.
End TwoLaunches.

Lemma launch_arguments_witness :
  wp (toi_launch_userspace_program TwoLaunches.new_block (fun _ => 0) (command TwoLaunches.ui []) 16 true)
    (fun r s' =>
       let args := map Some ((TwoLaunches.ui ++ if 16 =? 0 then [] else [channel_text 16]) ++
                             if true then [debug_text] else []) in
       launched s' = launched TwoLaunches.boot ++ [args] /\ r = (fun _ => 0) args) TwoLaunches.boot.
Proof.
  apply (launch_arguments TwoLaunches.new_block (fun _ => 0) TwoLaunches.ui [] 16 true TwoLaunches.boot);
    [done|apply TwoLaunches.ui_ok|cbn; lia|done|cbn; lia|vm_compute; lia].
Defined.

Lemma stale_arguments_witness :
  wp (toi_launch_userspace_program TwoLaunches.new_block (fun _ => 0) (command TwoLaunches.ui []) 0 false ;;;
      toi_launch_userspace_program TwoLaunches.new_block (fun _ => 0) (command [TwoLaunches.usm] []) 0 false)
    (fun _ s' => exists others, launched s' = launched TwoLaunches.boot ++ [map Some TwoLaunches.ui; Some TwoLaunches.usm :: others] /\
       length (Some TwoLaunches.usm :: others) = length TwoLaunches.ui) TwoLaunches.boot.
Proof.
  apply (stale_arguments TwoLaunches.new_block (fun _ => 0) TwoLaunches.ui TwoLaunches.usm [] [] TwoLaunches.boot);
    [done|apply TwoLaunches.ui_ok|cbn; lia|done|apply TwoLaunches.usm_ok].
Defined.
