(* ===== verification/Cluster.v ===== *)
(** * Cluster support

    kernel/power/tuxonice_cluster.c: what a node knows of its peers, the
    answer to a message, the daemon of a node, and the test that ends the
    waits for the peers.  A packet that passed the checks of [toi_recv] is its
    sender and its message; the network is the list of the messages sent.  The
    counts of peers are of list elements in memory and are not wrapped. *)

From S2P Require Import Prelude.
From stdpp Require Import numbers base list.
#[local] Open Scope Z_scope.
#[local] Open Scope step_scope.

Definition MSG_ACK : Z := 1.
Definition MSG_NACK : Z := 2.
Definition MSG_PING : Z := 4.
Definition MSG_ABORT : Z := 8.
Definition MSG_BYE : Z := 16.
Definition MSG_HIBERNATE : Z := 32.
Definition MSG_IMAGE : Z := 64.
Definition MSG_IO : Z := 128.
Definition MSG_RUNNING : Z := 256.
Definition MSG_ACK_MASK : Z := Z.lor MSG_ACK MSG_NACK.
Definition MSG_STATE_MASK : Z := Z.lnot MSG_ACK_MASK.

Record cluster_member := ClusterMember { addr : Z; message : Z; ignore : bool }.

Record node_info := NodeInfo {
  member_list : list cluster_member;
  peer_count : Z;
  ignored_peer_count : Z;
  current_message : Z
}.

#[export] Instance eta_member : Eta cluster_member := fun m => ClusterMember (addr m) (message m) (ignore m).

#[export] Instance eta_node : Eta node_info := fun n =>
  NodeInfo (member_list n) (peer_count n) (ignored_peer_count n) (current_message n).

(** ** The membership list *)

(** The first member with the address, with its place. *)
Definition __find_member (n : node_info) (a : Z) : option (nat * cluster_member) :=
  list_find (fun m => addr m = a) (member_list n).

(** A refusal that takes the peer out of the count. *)
Definition refusal (msg : Z) : bool :=
  negb (Z.land msg MSG_NACK =? 0) &&
  negb (Z.land msg (Z.lor MSG_HIBERNATE (Z.lor MSG_IMAGE MSG_IO)) =? 0).

Definition set_ignore (this : cluster_member) (n : node_info) : cluster_member * node_info :=
  if ignore this then (this, n)
  else (this {{ ignore := true }}, n {{ ignored_peer_count := ignored_peer_count n + 1 }}).

(** The result, -1 when there is no memory ([ok]). *)
Definition __add_update_member (ok : bool) (a msg : Z) (n : node_info) : node_info * Z :=
  match __find_member n a with
  | Some (i, this) =>
      if negb (message this =? msg) then
        let this := this {{ message := msg }} in
        let '(this, n) := if refusal msg then set_ignore this n else (this, n) in
        (n {{ member_list := <[i := this]> (member_list n) }}, 0)
      else (n, 0)
  | None =>
      if negb ok then (n, -1)
      else
        let this := ClusterMember a msg false in
        let n := n {{ peer_count := peer_count n + 1 }} in
        let '(this, n) := if refusal msg then set_ignore this n else (this, n) in
        (n {{ member_list := member_list n ++ [this] }}, 1)
  end.

Definition del_member (a : Z) (n : node_info) : node_info :=
  match __find_member n a with
  | Some (i, _) => n {{ member_list := delete i (member_list n); peer_count := peer_count n - 1 }}
  | None => n
  end.

Definition reset_ignored (n : node_info) : node_info :=
  n {{ member_list := map (fun m => m {{ ignore := false }}) (member_list n); ignored_peer_count := 0 }}.

(** ** Counting *)

(** A step of the loop over the members. *)
Definition not_in_message (msg : Z) (precise : bool) (result : Z) (this : cluster_member) : Z :=
  if ignore this then result
  else if negb ((if precise then message this else Z.land (message this) MSG_STATE_MASK) =? msg) then result + 1
  else result.

Definition peers_not_in_message (msg : Z) (precise : bool) (n : node_info) : Z :=
  foldl (not_in_message msg precise) 0 (member_list n).

Definition peers_in_message (msg : Z) (precise : bool) (n : node_info) : Z :=
  peer_count n - ignored_peer_count n - peers_not_in_message msg precise n.

(** [time_after]: [long] arithmetic on the ticks. *)
Definition time_after (a b : Z) : bool := s64 (b - a) <? 0.

Definition time_to_continue (jiffies start continue_delay msg : Z) (n : node_info) : bool :=
  let first := peers_not_in_message msg false n in
  let second := peers_in_message msg true n in
  if (first =? 0) && (second =? 0) then true
  else time_after jiffies (u64 (start + continue_delay)).

(** ** Messages *)

(** The state of the cluster on one machine: its nodes and what they sent. *)
Record cluster := ClusterState {
  node_array : list node_info;
  loopback_mode : bool;
  sent : list (Z * Z)    (* the messages, with the nodes that sent them *)
}.

#[export] Instance eta_cluster : Eta cluster := fun c =>
  ClusterState (node_array c) (loopback_mode c) (sent c).

(** The message a node is in after a message of a peer. *)
Definition answer (index : nat) (msg old : Z) : Z :=
  let verdict := if Nat.odd index then MSG_NACK else MSG_ACK in
  let state := Z.land msg MSG_STATE_MASK in
  if state =? MSG_HIBERNATE then Z.lor MSG_HIBERNATE verdict
  else if state =? MSG_IMAGE then Z.lor MSG_IMAGE verdict
  else if state =? MSG_IO then Z.lor MSG_IO MSG_ACK
  else old.

(** One node, and what it sends. *)
Definition recv_node (ok : bool) (index : nat) (saddr msg : Z) (n : node_info) : node_info * option Z :=
  let old_message := current_message n in
  if (Z.of_nat index =? saddr) || (old_message =? 0) then (n, None)
  else
    let '(n, result) := __add_update_member ok saddr msg n in
    if result =? -1 then (n, None)
    else
      let new_message := answer index msg old_message in
      if negb (old_message =? new_message) then
        (n {{ current_message := new_message }}, Some new_message)
      else if Z.land msg MSG_ACK_MASK =? 0 then (n, Some new_message)
      else (n, None).

(** The loop over the nodes; [ok] is whether each finds memory. *)
Fixpoint recv_loop (ok : nat -> bool) (index : nat) (saddr msg : Z) (ns : list node_info) (log : list (Z * Z)) :
    list node_info * list (Z * Z) :=
  match ns with
  | [] => ([], log)
  | n :: ns' =>
      let '(n, out) := recv_node (ok index) index saddr msg n in
      let log := match out with Some m => log ++ [(m, Z.of_nat index)] | None => log end in
      let '(ns', log) := recv_loop ok (S index) saddr msg ns' log in
      (n :: ns', log)
  end.

(** [SADDR]: the address in the header, or the sending node. *)
Definition toi_recv (ok : nat -> bool) (sid saddr msg : Z) (c : cluster) : cluster :=
  let '(ns, log) := recv_loop ok 0 (if loopback_mode c then sid else saddr) msg (node_array c) (sent c) in
  c {{ node_array := ns; sent := log }}.

(** ** The daemon of a node *)

(** A turn of its loop: whether it goes on. *)
Definition kTOICluster_turn (my_id : nat) (c : cluster) : cluster * bool :=
  match node_array c !! my_id with
  | Some n =>
      if negb (current_message n =? 0)
      then (c {{ sent := sent c ++ [(current_message n, Z.of_nat my_id)] }}, true)
      else (c {{ sent := sent c ++ [(MSG_BYE, Z.of_nat my_id)] }}, false)
  | None => (c, false)
  end.

(** Stopping the daemons. *)
Definition kill_clusterd (c : cluster) : cluster :=
  c {{ node_array := map (fun n => n {{ current_message := 0 }}) (node_array c) }}.
