(* ===== verification/ClusterFacts.v ===== *)
(** * What a node of a cluster knows

    Whatever messages a node has received, its counts are those of its list,
    and the test for going on is exactly that every peer that is not ignored
    has answered.  A request is answered by every live node, and answers to a
    request that is settled are not answered again.  Deleting a peer that is
    ignored breaks the counts. *)

From S2P Require Import Prelude Cluster.
From stdpp Require Import numbers base list sets.
#[local] Open Scope Z_scope.
#[local] Open Scope step_scope.

(** ** The counts *)

Definition ignored (n : node_info) : Z := Z.of_nat (length (filter (fun m => ignore m = true) (member_list n))).

Record node_ok (n : node_info) : Prop := {
  n_peers : peer_count n = Z.of_nat (length (member_list n));
  n_ignored : ignored_peer_count n = ignored n;
  n_distinct : NoDup (map addr (member_list n))
}.

(** A node from its start on: its own message changes when its daemon or the
    user says so. *)
Inductive node_reachable : node_info -> Prop :=
| node_start msg : node_reachable (NodeInfo [] 0 0 msg)
| node_says n msg : node_reachable n -> node_reachable (n {{ current_message := msg }})
| node_receives n ok index saddr msg : node_reachable n -> node_reachable (recv_node ok index saddr msg n).1
| node_resets n : node_reachable n -> node_reachable (reset_ignored n).

Lemma find_member_spec n a i m : __find_member n a = Some (i, m) -> member_list n !! i = Some m /\ addr m = a.
Proof. intros H. apply list_find_Some in H as (? & ? & _). done. Qed.

Lemma find_member_none n a : __find_member n a = None -> a ∉ map addr (member_list n).
Proof.
  intros H Hin. apply list_find_None in H. apply list_elem_of_fmap in Hin as (m & -> & Hm).
  by eapply (proj1 (Forall_forall _ _) H).
Qed.

(** Replacing a member changes the count of the ignored by the two of them. *)
Lemma ignored_insert l i (m m' : cluster_member) :
  l !! i = Some m ->
  Z.of_nat (length (filter (fun m => ignore m = true) (<[i := m']> l))) + (if ignore m then 1 else 0) =
  Z.of_nat (length (filter (fun m => ignore m = true) l)) + (if ignore m' then 1 else 0).
Proof.
  intros Hi. pose proof (lookup_lt_Some _ _ _ Hi). rewrite insert_take_drop by done. rewrite <- (take_drop_middle l i m Hi) at 3.
  rewrite !filter_app, !filter_cons, !length_app. destruct (ignore m), (ignore m'); repeat case_decide; simpl; try done; lia.
Qed.

Lemma addrs_insert l i (m m' : cluster_member) :
  l !! i = Some m -> addr m' = addr m -> map addr (<[i := m']> l) = map addr l.
Proof.
  intros Hi E. change (map addr) with (fmap addr : list cluster_member -> list Z).
  rewrite list_fmap_insert, E. apply list_insert_id. by rewrite list_lookup_fmap, Hi.
Qed.

Lemma add_update_ok ok a msg n : node_ok n -> node_ok (__add_update_member ok a msg n).1.
Proof.
  intros [Hp Hi Hd]. unfold __add_update_member. destruct (__find_member n a) as [[i m]|] eqn:Hf.
  - apply find_member_spec in Hf as [Hm Ha]. destruct (negb (message m =? msg)); [|done].
    pose proof (ignored_insert (member_list n) i m) as Hins. unfold ignored in *.
    destruct (refusal msg); [unfold set_ignore; change (ignore (set_field message (fun _ => msg) m)) with (ignore m); destruct (ignore m) eqn:Em|];
      (split; cbn -[insert filter length app map]; [by rewrite length_insert| |by erewrite addrs_insert by done]).
    + specialize (Hins (m {{ message := msg }}) Hm). cbn -[insert filter length app map] in Hins. rewrite Em in Hins. unfold ignored. cbn -[insert filter length app map]. rewrite Em. lia.
    + specialize (Hins (ClusterMember (addr m) msg true) Hm). cbn -[insert filter length app map] in Hins. unfold ignored. cbn -[insert filter length app map]. lia.
    + specialize (Hins (m {{ message := msg }}) Hm). cbn -[insert filter length app map] in Hins. unfold ignored. cbn -[insert filter length app map]. destruct (ignore m); lia.
  - apply find_member_none in Hf. destruct ok; cbn [negb]; [|done].
    assert (NoDup (map addr (member_list n) ++ [a])) as Hnd.
    { apply NoDup_app. split_and!; [done| |apply NoDup_singleton]. intros x Hx ->%list_elem_of_singleton. done. }
    unfold ignored in *. destruct (refusal msg); (split; cbn -[insert filter length app map]; [rewrite length_app; simpl; lia| |by rewrite map_app]);
      unfold ignored; cbn -[insert filter length app map]; rewrite filter_app, length_app; simpl; lia.
Qed.

Lemma reset_ok n : node_ok n -> node_ok (reset_ignored n).
Proof.
  intros [Hp _ Hd]. unfold reset_ignored. split; cbn -[filter length map].
  - by rewrite length_map.
  - unfold ignored. cbn -[filter length map]. clear Hp Hd. induction (member_list n) as [|m l IH]; [done|]. cbn [map].
    by rewrite filter_cons_False by done.
  - by rewrite map_map.
Qed.

Lemma recv_ok ok index saddr msg n : node_ok n -> node_ok (recv_node ok index saddr msg n).1.
Proof.
  intros Hn. unfold recv_node. destruct (_ || _); [done|]. pose proof (add_update_ok ok saddr msg n Hn) as Hu.
  destruct (__add_update_member ok saddr msg n) as [n' r]. cbn [fst] in Hu.
  destruct (r =? -1); [done|]. destruct (negb _); [by destruct Hu; split|]. by destruct (_ =? 0).
Qed.

Lemma reachable_ok n : node_reachable n -> node_ok n.
Proof.
  induction 1 as [msg|n msg _ IH|n ok index saddr msg _ IH|n _ IH].
  - split; [done|done|constructor].
  - by destruct IH; split.
  - by apply recv_ok.
  - by apply reset_ok.
Qed.

(** ** The test for going on *)

Definition in_message (msg : Z) (precise : bool) (m : cluster_member) : Prop :=
  (if precise then message m else Z.land (message m) MSG_STATE_MASK) = msg.

#[export] Instance in_message_dec msg precise m : Decision (in_message msg precise m).
Proof. unfold in_message. apply _. Defined.

Definition counted_peers (P : cluster_member -> Prop) `{!forall m, Decision (P m)} (n : node_info) : Z :=
  Z.of_nat (length (filter (fun m => ignore m = false /\ P m) (member_list n))).

Lemma peers_not_in_count msg precise n :
  peers_not_in_message msg precise n = counted_peers (fun m => ~ in_message msg precise m) n.
Proof.
  unfold peers_not_in_message, counted_peers.
  assert (forall l r, foldl (not_in_message msg precise) r l =
    r + Z.of_nat (length (filter (fun m => ignore m = false /\ ~ in_message msg precise m) l))) as ->; [|lia].
  induction l as [|m l IH]; intros r; cbn [foldl]; [simpl; lia|]. rewrite IH, filter_cons. unfold not_in_message at 1.
  destruct (ignore m); [by rewrite decide_False by (by intros [])|].
  destruct (_ =? msg) eqn:E; cbn [negb]; breflect.
  - rewrite decide_False by (intros [_ H]; by apply H). lia.
  - rewrite decide_True by done. cbn [length]. lia.
Qed.

(** The arithmetic of [peers_in_message] counts what it says. *)
Lemma peers_in_count msg precise n : node_ok n -> peers_in_message msg precise n = counted_peers (in_message msg precise) n.
Proof.
  intros [Hp Hi _]. unfold peers_in_message. rewrite Hp, Hi, peers_not_in_count. unfold ignored, counted_peers.
  clear Hp Hi. induction (member_list n) as [|m l IH]; [done|]. rewrite !filter_cons. cbn [length].
  destruct (ignore m); repeat case_decide; cbn [length]; naive_solver lia.
Qed.

Lemma count_zero P `{!forall m, Decision (P m)} n :
  counted_peers P n = 0 <-> forall m, m ∈ member_list n -> ignore m = false -> ~ P m.
Proof.
  unfold counted_peers. split.
  - intros Hz m Hm Hi HP. assert (m ∈ filter (fun m => ignore m = false /\ P m) (member_list n)) as Hin by (by apply list_elem_of_filter).
    destruct (filter _ (member_list n)); [set_solver|simpl in Hz; lia].
  - intros Hall. destruct (filter (fun m => ignore m = false /\ P m) (member_list n)) as [|m l] eqn:E; [done|].
    assert (m ∈ filter (fun m => ignore m = false /\ P m) (member_list n)) as Hin by (rewrite E; left).
    apply list_elem_of_filter in Hin as [[Hi HP] Hm]. by destruct (Hall m Hm Hi).
Qed.

(** C37: whatever a node has received since its start, and however often the
    ignored peers were reset, it waits for its peers exactly as it means to:
    before the delay is over it goes on if and only if every peer that is not
    ignored has answered the message, by the message with an acknowledgement
    of one kind or the other and not by the bare message; after the delay it
    always goes on. *)
Theorem peers_answered (n : node_info) (jiffies start continue_delay msg : Z) :
  node_reachable n ->
  time_to_continue jiffies start continue_delay msg n = true <->
  (forall m, m ∈ member_list n -> ignore m = false -> Z.land (message m) MSG_STATE_MASK = msg /\ message m <> msg) \/
  time_after jiffies (u64 (start + continue_delay)) = true.
Proof.
  intros Hn%reachable_ok. unfold time_to_continue. rewrite peers_not_in_count, peers_in_count by done.
  assert ((counted_peers (fun m => ~ in_message msg false m) n =? 0) && (counted_peers (in_message msg true) n =? 0) = true <->
    forall m, m ∈ member_list n -> ignore m = false -> Z.land (message m) MSG_STATE_MASK = msg /\ message m <> msg) as <-.
  { rewrite andb_true_iff, !Z.eqb_eq, !count_zero. unfold in_message. split.
    - intros [H1 H2] m Hm Hi. split; [|by apply H2]. specialize (H1 m Hm Hi). by apply dec_stable.
    - intros H. split; intros m Hm Hi; destruct (H m Hm Hi); auto. }
  destruct (_ && _); [by split; auto|]. split; [by right|by intros [|]].
Qed.

(** ** Answers *)

(** Whether a message asks for a verdict. *)
Definition asks (msg : Z) : bool :=
  let state := Z.land msg MSG_STATE_MASK in
  (state =? MSG_HIBERNATE) || (state =? MSG_IMAGE) || (state =? MSG_IO).

(** The verdict does not depend on what the node said before. *)
Lemma answer_fixed index msg old old' : asks msg = true -> answer index msg old = answer index msg old'.
Proof. unfold asks, answer. intros H. by destruct (_ =? MSG_HIBERNATE), (_ =? MSG_IMAGE), (_ =? MSG_IO). Qed.

Lemma add_update_current ok a msg n : current_message (__add_update_member ok a msg n).1 = current_message n.
Proof.
  unfold __add_update_member, set_ignore. destruct (__find_member n a) as [[i m]|].
  - destruct (negb _); [|done]. destruct (refusal msg); [|done]. by destruct (ignore _).
  - destruct ok; [|done]. by destruct (refusal msg).
Qed.

Lemma add_update_result a msg n : (__add_update_member true a msg n).2 <> -1.
Proof.
  unfold __add_update_member, set_ignore. destruct (__find_member n a) as [[i m]|].
  - destruct (negb _); [|done]. destruct (refusal msg); [|done]. by destruct (ignore _).
  - cbn [negb]. by destruct (refusal msg).
Qed.

(** A live node with memory answers every request of another, and ends in the
    state of its answer; it answers an acknowledgement only if that changes
    its mind, so that the answers of a settled exchange cause no more. *)
Lemma node_answers index saddr msg n :
  current_message n <> 0 -> Z.of_nat index <> saddr -> asks msg = true ->
  let verdict := answer index msg 0 in
  current_message (recv_node true index saddr msg n).1 = verdict /\
  (Z.land msg MSG_ACK_MASK = 0 -> (recv_node true index saddr msg n).2 = Some verdict) /\
  (current_message n = verdict -> Z.land msg MSG_ACK_MASK <> 0 -> (recv_node true index saddr msg n).2 = None).
Proof.
  intros Hlive Hother Hasks verdict. unfold recv_node.
  rewrite (proj2 (Z.eqb_neq _ _)), (proj2 (Z.eqb_neq (current_message n) 0)) by done. cbn [orb].
  pose proof (add_update_current true saddr msg n) as Hc. pose proof (add_update_result saddr msg n) as Hr.
  destruct (__add_update_member true saddr msg n) as [n' r]. cbn [fst snd] in *.
  rewrite (proj2 (Z.eqb_neq r _)) by done. rewrite (answer_fixed index msg _ 0) by done. fold verdict.
  destruct (current_message n =? verdict) eqn:E; breflect; cbn [negb].
  - destruct (Z.land msg MSG_ACK_MASK =? 0) eqn:Ea; breflect; cbn [fst snd]; rewrite Hc; by split_and!.
  - split_and!; done.
Qed.

(** A peer that is deleted while it is ignored goes on being counted as ignored. *)
Lemma deleted_peer_miscounted n a i m :
  node_ok n -> __find_member n a = Some (i, m) -> ignore m = true ->
  ignored_peer_count (del_member a n) = ignored (del_member a n) + 1.
Proof.
  intros [Hp Hi Hd] Hf Hm. pose proof (find_member_spec _ _ _ _ Hf) as [Hl _]. unfold del_member. rewrite Hf.
  unfold ignored in *. cbn -[filter length delete]. rewrite Hi.
  rewrite <- (take_drop_middle (member_list n) i m Hl) at 1. rewrite delete_take_drop, !filter_app, filter_cons_True, !length_app by done.
  cbn [length]. lia.
Qed.

(** ** A node with two peers *)

Module ThreeNodes.
(** Node 0 of three, asked by 8 whether it can hibernate; 9 refuses, then 8 agrees. *)
Definition node : node_info :=
  (recv_node true 0 8 (Z.lor MSG_HIBERNATE MSG_ACK)
    (recv_node true 0 9 (Z.lor MSG_HIBERNATE MSG_NACK)
      (recv_node true 0 8 MSG_HIBERNATE (NodeInfo [] 0 0 MSG_RUNNING)).1).1).1.

Lemma node_reached : node_reachable node.
Proof. unfold node. do 3 apply node_receives. apply node_start. Qed.
End ThreeNodes.

Lemma peers_answered_witness :
  time_to_continue 100 0 1250 MSG_HIBERNATE ThreeNodes.node = true <->
  (forall m, m ∈ member_list ThreeNodes.node -> ignore m = false ->
     Z.land (message m) MSG_STATE_MASK = MSG_HIBERNATE /\ message m <> MSG_HIBERNATE) \/
  time_after 100 (u64 (0 + 1250)) = true.
Proof. apply (peers_answered ThreeNodes.node 100 0 1250 MSG_HIBERNATE). apply ThreeNodes.node_reached. Defined.
